(* ===== verification/_CoqProject ===== *)
-Q . S2P
Prelude.v
KcpTypes.v
KcpRecv.v
KcpSend.v
KcpInput.v
KcpFlush.v
KcpRecvFacts.v
KcpSendFacts.v
KcpInputFacts.v
KcpFlushFacts.v
KcpPeer.v
KcpSys.v
KcpConn.v
KcpRobust.v
KcpTiming.v
KcpApi.v
Http.v
HttpFacts.v
HttpProps.v
DispatchRead.v
HttpChunked.v
HttpChunkedFacts.v
HttpChunkedProps.v
Mt64.v
Mt64Props.v
Enums.v
TomlText.v
TomlLex.v
TomlValue.v
TomlTree.v
TomlParse.v
TomlLexFacts.v
TomlParseFacts.v
TomlDocFacts.v
TomlInts.v
TomlStrings.v
TomlPrint.v
TomlPrintFacts.v
TomlTime.v
TomlProps.v
RunConfig.v
RunConfigProps.v
Bytes.v
Aes.v
AesSpec.v
Util.v
UtilProps.v
Ec2b.v
Ec2bProps.v
Packet.v
PacketProps.v
Session.v
GameServer.v
GameServerProps.v
SessionProps.v
Account.v
DbGate.v
DbProps.v
Item.v
Avatar.v
AvatarProps.v
Team.v
Vector.v
Player.v
PlayerDb.v
PlayerFacts.v
PlayerProps.v
Messages.v
NetPlayer.v
Handlers.v
HandlerFacts.v
HandlersProps.v
ServerProps.v
Sdk.v
SdkProps.v
Command.v
Crypt.v
Dispatch.v
DispatchProps.v
Loaders.v
