(* ===== verification/Prelude.v ===== *)
(** * yagips: a verification development

    yagips is a game server in C and C++: a dispatch server that clients ask
    over HTTP for a region, and a game server that they reach over UDP with
    the KCP reliable transport.  This library models the program's own code,
    function by function, and proves what makes its parts correct; where the
    code does something else than it means to, a theorem says exactly what.

    ** The parts and how they interact

    A datagram is received by [GameserverMain] (src/gameserver.cpp), which
    finds the session it belongs to and gives it to that session's KCP control
    block (src/kcp.c), or opens a session, or closes one.  The thread of the
    session ([SessionMain], src/session.cpp) takes messages from KCP, removes
    the exclusive-or encryption (src/crypt.cpp) with a key that comes from a
    key file (src/ec2b.cpp, with src/mt19937-64.c) or was made for the
    session, parses the packet frame (src/packet.cpp) and calls the handler of
    the command (src/packet_handlers.cpp, src/packets/); replies go down the
    same way.  A handler looks accounts and players up in the database
    (src/dbgate.cpp over LevelDB, src/account.cpp, with tokens as text from
    src/util.cpp) and gives the session a player (src/player.cpp), who has
    avatars, teams and items (src/avatar.cpp, src/team.cpp, src/item.cpp,
    src/vector.cpp); closing the session deletes the player, whose destructor
    saves it.  The dispatch server (src/dispatch.cpp) serves one HTTP request
    per connection, one after the other: it parses the head (src/http.c), and
    tells a client which region there is and under which address and key its
    game server is reached, and gives it the account and the token that the game
    server asks for; answers may be encrypted and signed with RSA
    (src/crypt.cpp, src/keys.c).  A console (src/console.cpp, src/command.cpp,
    src/commands/) makes accounts.  The configuration is a TOML file (src/toml.c,
    src/runconfig.cpp), and the tables of avatars, skill depots and open states
    are files of the data directory (src/data.cpp, src/data/).

    ** Files and what they model

    - Prelude: machine integers ([wrap], [swrap], [in_u]), bytes and their
      little- and big-endian numbers, list lemmas, tactics.
    - KCP, src/kcp.c and include/kcp.h.  KcpTypes (the structs [IKCPSEG] and
      [IKCPCB] as records, constants, creation and configuration), KcpRecv, KcpSend, KcpInput, KcpFlush: one definition per function, under its C name; an
      operation takes the control block and returns it, with what the output
      callback was given as a list of datagrams.  KcpRecvFacts, KcpSendFacts,
      KcpInputFacts, KcpFlushFacts: lemmas.  KcpPeer and KcpSys: two endpoints
      and a network that loses, delays, reorders and repeats, as a step
      relation, with its invariant.  KcpConn, KcpRobust, KcpTiming, KcpApi:
      theorems.
    - HTTP, src/http.c: Http, HttpFacts, HttpProps (heads), HttpChunked,
      HttpChunkedFacts, HttpChunkedProps (bodies); DispatchRead: the read loop
      of src/dispatch.cpp.
    - Generators: Mt64, Mt64Props (src/mt19937-64.c).
    - Enums: src/enum.c, src/prop.c and the tables of src/enum/.
    - TOML, src/toml.c: TomlText (characters, escapes), TomlLex (tokens),
      TomlValue (conversions), TomlTree (tables and arrays), TomlParse (and
      the reading of a file); lemmas in TomlLexFacts, TomlParseFacts, TomlDocFacts; printed
      documents in TomlInts, TomlStrings, TomlPrint, TomlPrintFacts, TomlTime;
      theorems in TomlProps.
    - Configuration, src/runconfig.cpp: RunConfig, RunConfigProps.
    - Keys, src/ec2b.cpp: Bytes (the exclusive-or group), Aes (the cipher as
      the file writes it), AesSpec (its algebra, and FIPS 197), Ec2b (the class and
      the pad), Ec2bProps.
    - Text encodings, src/util.cpp: Util, UtilProps.
    - Packets, src/packet.cpp and [HyvCryptXor]: Packet, PacketProps.
    - Sessions, src/kcpsession.cpp and src/session.cpp: Session,
      SessionProps.
    - The game server, src/gameserver.cpp and [SessionMain]: GameServer,
      GameServerProps.  It does not know what a player is: the destructor of
      one and [processPacket] are arguments, what they must keep is the
      classes [PlayerLaws] and [HandlerLaws], and the theorems are proved
      against those.
    - Data: Account (src/account.cpp), Item (src/item.cpp), Team
      (src/team.cpp), Vector (src/vector.cpp, in binary floating point), each
      with its lemmas; Avatar (src/avatar.cpp), AvatarProps.  Generated code for messages is
      the class [MsgCodec] (DbGate), what protobuf documents of it [MsgLaws].
    - The database, src/dbgate.cpp: DbGate, DbProps (counters and accounts),
      PlayerDb (players and the inventory, with the [World]: the store, the
      clock, the generator, and fresh memory).
    - Players, src/player.cpp: Player, PlayerFacts (what a player that can be
      saved is, and that the program only makes such players), PlayerProps.
    - Messages: the messages of src/proto/ that are used.  NetPlayer: what of
      player.cpp works on a session (notifications, [onLogin]).  Handlers:
      src/packet_handlers.cpp and src/packets/.  HandlerFacts: what
      handlers do to the sessions; HandlersProps: the instances of
      [PlayerLaws] and [HandlerLaws] for the program.  ServerProps: theorems
      on the server with its handlers.
    - The dispatch server, src/dispatch.cpp: DispatchRead (receiving), Sdk (the
      endpoints of accounts and of the log, over json-c, the class [Json]) and
      SdkProps; Crypt (RSA over OpenSSL, the class [Openssl], with the keys of
      src/keys.c); Dispatch (the region endpoints, the routing, the reply, and
      the loop over connections; [loadKeys] of src/yagips.cpp) and
      DispatchProps.
    - The console: Command (src/console.cpp, src/command.cpp,
      src/commands/account.cpp), with its theorems.
    - Game data: Loaders (src/data.cpp, src/data/), with its theorems.

    ** What the theorems show

    - KCP: over a network that loses, delays, reorders and repeats (but does
      not forge), messages are received in order and at most once, and when
      nothing is left to acknowledge all of them were; from any bytes at all
      the control block stays well formed, nothing is read outside the datagram
      and nothing written outside the output buffer (but for a change to a
      smaller size, which is proved to overrun it); the bounds on sizes, windows
      and counters are in [KcpSys.node_step] and [KcpRobust.api]; functional
      specifications of the calls; the congestion window.
    - HTTP: the parsers read inside their buffers and print and parse are
      inverse; the in-place chunked decoder leaves in its buffer what a machine
      on lists puts out, and after it what the machine did not read; it does not
      care how its input is cut, and undoes the encoding; the read loop misreads
      a request that arrives in pieces.
    - TOML: the parser ends on every text; what it builds is well-formed, so
      that the getters agree, at any depth; a printed document is read back;
      integers are exact.  The configuration that is printed is the one that is
      loaded.  (A string is read up to a character U+0000: the getter's length
      shares its memory with the pointer.)
    - Text encodings: strings up to 2 GiB, whose texts the 32-bit indices reach,
      are decoded to what was encoded, base64 on its domain.
    - Keys: the cipher is AES-128 decryption and encryption under the file's
      round keys; every way to make a key object keeps its key, data, seed and
      pad consistent; key files read back; what is rejected.
    - Packets and sessions: the parser accepts exactly the frames the builder
      makes (with the sizes that crash it as the exception); over two sessions
      and the network the i-th message received opens, with the key of its
      moment, to the i-th packet that was sent ([session_packets_in_order],
      by a simulation of sessions by the KCP system).
    - The game server: no datagram sequence makes the main loop read outside
      its tables or touch a dead object, and sessions are not disturbed by
      foreign datagrams; but a close request from anyone closes the first
      session, replies go to the last sender, and the thread of a replaced
      session reads a deleted object.
    - Data: a saved account or player is read back with what is stored of it;
      new ones get a key nothing is stored under; whatever is added, changed
      and deleted, the guids of a player's things are unique and found.
    - The whole server ([ServerProps]), if the memory that loaded players take
      an uninitialised pointer from holds NULL: in every execution a session has a
      player only from an accepted token on, and one that can be saved; only
      the right token, and then the login with it, brings a session further;
      a right token is accepted; and what the lookup through a free slot does
      to a server with more than one slot.
    - The dispatch server: on requests that arrive whole it is a function of the
      request and the state, whatever its buffer held ([respond_all] is the
      specification, which [dispatch_main] refines); it answers all of them but
      one kind; a reply is parsed back by the program's own parser; the region
      endpoints give the configured regions and the address, and the key that
      the game server uses, encrypted as a client undoes it; and how one client
      stops it for all others.  A token is needed for what belongs to an account,
      but for guests; what the account endpoints hand out opens the game
      server.
    - The console: a line is split into the words that were typed, plain or with
      quotations, in bounds; an account that is created is stored and found.  RSA: what is
      encrypted is decrypted by the owner of the private key, for every length.
    - Game data: a printed table is read back, with the row that a last newline
      adds; from the file of open states to the states of a player; when the
      table of avatars has a defined result.

    ** Conventions, bounds and fuel

    A [w]-bit integer is a [Z], wrapped where the code's type wraps.  A C
    buffer is the list of its bytes; a store or load outside it, a call on a
    NULL or dead object, and an exception nothing catches are [None].  Random
    bytes, clocks, what [malloc] answers, the bytes of memory that is read
    before it is written, and what code outside src/ returns are arguments.
    The platform is little-endian, [long] has 64 bits and [char] is signed.

    Recursion is structural but for: [toml_parse] and the functions under it
    (fuel: the length of the text plus two for the tokens, four times the
    length plus four for the nesting; [TomlProps.toml_parse_total] shows both
    are enough), the file reader (length plus two), the search for a
    configuration (11, the size of the list), and [find_slot] (three times the
    slots plus one: a slot is looked at again only after its session was
    closed; [GameServerProps.gs_datagram_safe] shows it ends), and [free_id],
    the search for an id that is not taken (the size of the store plus one;
    [DbProps.free_id_ends] shows it ends), decimal digits in a reply (20), the
    blocks of [HyvCryptRsaEnc] (more than the bytes; [Crypt.block_loop_ok]),
    and the lines and tokens of a table (the bytes plus one;
    [Loaders.lines_run], [Loaders.sep_join]).  The loops over connections, lines
    of the console, [recv] and [send] are recursions over what happens, so one
    that never ends stops where its events do.

    ** Not modelled

    Logging and hex dumps; the allocator hooks and out-of-memory paths of
    toml.c and the destructors that only free; the SSE 4.2 branch of http.c and
    the readline branch of console.cpp; creation of sockets and threads (the
    interleaving of the main thread and the session threads is the sequence of
    steps, one datagram or one round of a thread at a time); in src/yagips.cpp
    the signal handlers and the order of start-up; in src/data/ what would be
    done with a row from JSON, which the reader never makes; OpenSSL, json-c,
    classes generated from the .proto files and LevelDB, third-party code;
    src/gnulib, vendored. *)

From Stdlib Require Export ZArith Lia.
From stdpp Require Export base numbers option list.
From Stdlib.Strings Require Byte.

#[global] Open Scope Z_scope.

(** ** Machine integers

    A [w]-bit unsigned integer is the [Z] in [0, 2^w); every arithmetic result
    of the code is passed through the wrap of its C type.  Signed types use
    two's complement, which is what the supported compilers implement for
    conversions. *)

Definition wrap (w x : Z) : Z := x mod 2 ^ w.

Definition swrap (w x : Z) : Z :=
  let y := x mod 2 ^ w in if y <? 2 ^ (w - 1) then y else y - 2 ^ w.

Abbreviation u8 := (wrap 8).
Abbreviation u16 := (wrap 16).
Abbreviation u32 := (wrap 32).
Abbreviation u64 := (wrap 64).
Abbreviation s8 := (swrap 8).
Abbreviation s32 := (swrap 32).
Abbreviation s64 := (swrap 64).

(** [in_u w x]: [x] is a value of the [w]-bit unsigned type. *)
Definition in_u (w x : Z) : Prop := 0 <= x < 2 ^ w.

Ltac zpow := change (2 ^ 8) with 256 in *; change (2 ^ 16) with 65536 in *;
  change (2 ^ 7) with 128 in *; change (2 ^ 15) with 32768 in *;
  change (2 ^ 31) with 2147483648 in *; change (2 ^ 32) with 4294967296 in *;
  change (2 ^ 63) with 9223372036854775808 in *;
  change (2 ^ 64) with 18446744073709551616 in *.

(** [zwrap] solves linear goals over wrapped integers: it unfolds the wraps,
    turns the powers into numerals and the remainders into equations. *)
Ltac zwrap :=
  unfold in_u, swrap, wrap in *; cbv zeta in *;
  change (2 ^ (32 - 1)) with 2147483648 in *;
  change (2 ^ (64 - 1)) with 9223372036854775808 in *;
  change (2 ^ (8 - 1)) with 128 in *; zpow;
  repeat match goal with
    | |- context [if ?a <? ?b then _ else _] => destruct (Z.ltb_spec a b)
    | H : context [if ?a <? ?b then _ else _] |- _ => destruct (Z.ltb_spec a b)
    end;
  Z.div_mod_to_equations; lia.

(** Case analysis on the boolean integer tests of the code. *)
Ltac zcase :=
  match goal with
  | |- context [?a <? ?b] => destruct (Z.ltb_spec a b)
  | |- context [?a <=? ?b] => destruct (Z.leb_spec a b)
  | |- context [?a =? ?b] => destruct (Z.eqb_spec a b)
  | H : context [?a <? ?b] |- _ => destruct (Z.ltb_spec a b)
  | H : context [?a <=? ?b] |- _ => destruct (Z.leb_spec a b)
  | H : context [?a =? ?b] |- _ => destruct (Z.eqb_spec a b)
  end.

Lemma wrap_range w x : 0 <= w -> 0 <= wrap w x < 2 ^ w.
Proof. intros. apply Z.mod_pos_bound. apply Z.pow_pos_nonneg; lia. Qed.

Lemma wrap_id w x : in_u w x -> wrap w x = x.
Proof. intros. apply Z.mod_small. exact H. Qed.

Lemma wrap_wrap w x : wrap w (wrap w x) = wrap w x.
Proof. unfold wrap. apply Zmod_mod. Qed.

Lemma swrap_id w x : 0 < w -> - 2 ^ (w - 1) <= x < 2 ^ (w - 1) -> swrap w x = x.
Proof.
  intros Hw Hx. unfold swrap.
  assert (2 ^ w = 2 * 2 ^ (w - 1)) as Hp.
  { rewrite <- Z.pow_succ_r by lia. f_equal. lia. }
  destruct (Z.neg_nonneg_cases x).
  - rewrite <- (Z_mod_plus_full x 1), Z.mod_small by lia.
    destruct (Z.ltb_spec (x + 1 * 2 ^ w) (2 ^ (w - 1))); lia.
  - rewrite Z.mod_small by lia. destruct (Z.ltb_spec x (2 ^ (w - 1))); lia.
Qed.

Lemma swrap_range w x : 0 < w -> - 2 ^ (w - 1) <= swrap w x < 2 ^ (w - 1).
Proof.
  intros Hw. unfold swrap.
  assert (2 ^ w = 2 * 2 ^ (w - 1)) as Hp.
  { rewrite <- Z.pow_succ_r by lia. f_equal. lia. }
  pose proof (Z.mod_pos_bound x (2 ^ w) ltac:(lia)).
  cbv zeta. destruct (Z.ltb_spec (x mod 2 ^ w) (2 ^ (w - 1))); lia.
Qed.

Lemma swrap_mod w x : 0 < w -> swrap w x mod 2 ^ w = x mod 2 ^ w.
Proof.
  intros Hw. unfold swrap. cbv zeta. destruct (_ <? _).
  - apply Zmod_mod.
  - rewrite <- (Z_mod_plus_full (x mod 2 ^ w - 2 ^ w) 1).
    replace (x mod 2 ^ w - 2 ^ w + 1 * 2 ^ w) with (x mod 2 ^ w) by lia. apply Zmod_mod.
Qed.

Lemma swrap_congr w a b : a mod 2 ^ w = b mod 2 ^ w -> swrap w a = swrap w b.
Proof. unfold swrap. intros ->. reflexivity. Qed.

Lemma swrap_add w a b : 0 < w -> swrap w (swrap w a + b) = swrap w (a + b).
Proof.
  intros Hw. apply swrap_congr.
  rewrite <- Zplus_mod_idemp_l, swrap_mod, Zplus_mod_idemp_l by lia. reflexivity.
Qed.

Lemma swrap_swrap w a : 0 < w -> swrap w (swrap w a) = swrap w a.
Proof. intros Hw. apply swrap_congr, swrap_mod, Hw. Qed.

Lemma wrap_add w a b : wrap w (wrap w a + b) = wrap w (a + b).
Proof. unfold wrap. apply Zplus_mod_idemp_l. Qed.

Lemma wrap_sub w a b : wrap w (wrap w a - b) = wrap w (a - b).
Proof. unfold wrap. apply Zminus_mod_idemp_l. Qed.

(** ** Bytes *)

Abbreviation byte := Byte.byte.

Definition bz (b : byte) : Z := Z.of_N (Byte.to_N b).

Definition zb (z : Z) : byte :=
  match Byte.of_N (Z.to_N (u8 z)) with Some b => b | None => Byte.x00 end.

(** A [char] of the platform is signed. *)
Definition sbz (b : byte) : Z := s8 (bz b).

#[export] Instance byte_eq_decision : EqDecision byte := Byte.byte_eq_dec.

Lemma bz_range b : 0 <= bz b < 256.
Proof. unfold bz. pose proof (Byte.to_N_bounded b). lia. Qed.

Lemma zb_bz b : zb (bz b) = b.
Proof.
  unfold zb. rewrite wrap_id by (pose proof (bz_range b); unfold in_u; lia).
  unfold bz. rewrite N2Z.id, Byte.of_to_N. reflexivity.
Qed.

Lemma bz_zb z : bz (zb z) = u8 z.
Proof.
  unfold zb. pose proof (wrap_range 8 z ltac:(lia)) as Hr.
  destruct (Byte.of_N (Z.to_N (u8 z))) as [b|] eqn:E.
  - apply Byte.to_of_N in E. unfold bz. rewrite E, Z2N.id; lia.
  - apply Byte.of_N_None_iff in E. lia.
Qed.

Lemma bz_inj a b : bz a = bz b -> a = b.
Proof. intros H. rewrite <- (zb_bz a), <- (zb_bz b), H. reflexivity. Qed.

Lemma zb_wrap z : zb (u8 z) = zb z.
Proof. unfold zb. rewrite wrap_wrap. reflexivity. Qed.

(** ** Little- and big-endian integers *)

Fixpoint le_enc (n : nat) (z : Z) : list byte :=
  match n with O => [] | S n => zb z :: le_enc n (z / 256) end.

Fixpoint le_dec (l : list byte) : Z :=
  match l with [] => 0 | b :: l => bz b + 256 * le_dec l end.

Definition be_enc (n : nat) (z : Z) : list byte := rev (le_enc n z).
Definition be_dec (l : list byte) : Z := le_dec (rev l).

Lemma length_le_enc n z : length (le_enc n z) = n.
Proof. revert z. induction n; intros; simpl; auto. Qed.

Lemma length_be_enc n z : length (be_enc n z) = n.
Proof. unfold be_enc. rewrite length_rev. apply length_le_enc. Qed.

Lemma le_dec_enc n z : le_dec (le_enc n z) = z mod 2 ^ (8 * Z.of_nat n).
Proof.
  revert z. induction n as [|n IH]; intros z; cbn [le_enc le_dec].
  - change (2 ^ (8 * Z.of_nat 0)) with 1. rewrite Z.mod_1_r. reflexivity.
  - rewrite IH, bz_zb. unfold wrap. change (2 ^ 8) with 256.
    replace (8 * Z.of_nat (S n)) with (8 + 8 * Z.of_nat n) by lia.
    rewrite Z.pow_add_r by lia. change (2 ^ 8) with 256.
    rewrite Z.rem_mul_r by lia. reflexivity.
Qed.

Lemma le_dec_range l : 0 <= le_dec l < 2 ^ (8 * Z.of_nat (length l)).
Proof.
  induction l as [|b l IH]; cbn [le_dec length].
  - change (2 ^ (8 * Z.of_nat 0)) with 1. lia.
  - replace (8 * Z.of_nat (S (length l))) with (8 + 8 * Z.of_nat (length l)) by lia.
    rewrite Z.pow_add_r by lia. change (2 ^ 8) with 256.
    pose proof (bz_range b). nia.
Qed.

Lemma le_enc_dec l : le_enc (length l) (le_dec l) = l.
Proof.
  induction l as [|b l IH]; cbn [le_dec le_enc length]; [reflexivity|].
  pose proof (bz_range b).
  replace ((bz b + 256 * le_dec l) / 256) with (le_dec l)
    by (Z.div_mod_to_equations; lia).
  rewrite IH. f_equal. rewrite <- zb_wrap.
  replace (u8 (bz b + 256 * le_dec l)) with (bz b) by zwrap.
  apply zb_bz.
Qed.

Lemma be_dec_enc n z : be_dec (be_enc n z) = z mod 2 ^ (8 * Z.of_nat n).
Proof. unfold be_dec, be_enc. rewrite rev_involutive. apply le_dec_enc. Qed.

(** ** Lists *)

Abbreviation zlen l := (Z.of_nat (length l)).

(** The bytes of a buffer that precede, and that follow, an offset. *)
Abbreviation ztake n l := (take (Z.to_nat n) l).
Abbreviation zdrop n l := (drop (Z.to_nat n) l).

Lemma take_app_all {A} n (l k : list A) :
  n = length l -> take n (l ++ k) = l.
Proof. intros ->. apply take_app_length. Qed.

Lemma drop_app_all {A} n (l k : list A) :
  n = length l -> drop n (l ++ k) = k.
Proof. intros ->. apply drop_app_length. Qed.

(** ** Hints *)

Create HintDb yag.
Create Rewrite HintDb yag.
#[export] Hint Resolve bz_range : yag.
#[export] Hint Rewrite length_le_enc length_be_enc bz_zb zb_bz wrap_wrap : yag.
#[export] Hint Rewrite @length_app @length_take @length_drop : yag.

(** ** Byte strings written as string literals *)

From Stdlib Require Import Strings.String.

Definition bytes_of (s : String.string) : list byte := String.list_byte_of_string s.
Arguments bytes_of s%_string.
