(* ===== verification/KcpTypes.v ===== *)
(** * KCP data: segments, the control block and the wire codec

    Models [struct IKCPSEG] and [struct IKCPCB] of include/kcp.h and the
    encoders, decoders and small integer helpers at the head of src/kcp.c. *)

From S2P Require Import Prelude.

(** ** Constants *)

Definition IKCP_RTO_NDL : Z := 30.
Definition IKCP_RTO_MIN : Z := 100.
Definition IKCP_RTO_DEF : Z := 200.
Definition IKCP_RTO_MAX : Z := 60000.
Definition IKCP_CMD_PUSH : Z := 81.
Definition IKCP_CMD_ACK : Z := 82.
Definition IKCP_CMD_WASK : Z := 83.
Definition IKCP_CMD_WINS : Z := 84.
Definition IKCP_ASK_SEND : Z := 1.
Definition IKCP_ASK_TELL : Z := 2.
Definition IKCP_WND_SND : Z := 32.
Definition IKCP_WND_RCV : Z := 128.
Definition IKCP_MTU_DEF : Z := 1400.
Definition IKCP_INTERVAL : Z := 100.
Definition IKCP_OVERHEAD : Z := 28.
Definition IKCP_DEADLINK : Z := 20.
Definition IKCP_THRESH_INIT : Z := 2.
Definition IKCP_THRESH_MIN : Z := 2.
Definition IKCP_PROBE_INIT : Z := 7000.
Definition IKCP_PROBE_LIMIT : Z := 120000.
Definition IKCP_FASTACK_LIMIT : Z := 5.

(** ** Encoders and decoders

    A [char *] that is written through is the list of bytes written so far; a
    [const char *] that is read is the rest of the buffer, and a read past its
    end has no value. *)

Definition ikcp_encode8u (p : list byte) (c : Z) : list byte := p ++ [zb c].

Definition ikcp_decode8u (p : list byte) : option (Z * list byte) :=
  match p with b0 :: p => Some (bz b0, p) | _ => None end.

(** The portable branch of each codec, byte by byte, lowest byte first. *)

Definition ikcp_encode16u (p : list byte) (w : Z) : list byte :=
  p ++ [zb (Z.land w 255); zb (Z.shiftr w 8)].

Definition ikcp_decode16u (p : list byte) : option (Z * list byte) :=
  match p with
  | b0 :: b1 :: p =>
      let w := bz b1 in
      Some (u16 (bz b0 + Z.shiftl w 8), p)
  | _ => None
  end.

Definition ikcp_encode32u (p : list byte) (l : Z) : list byte :=
  p ++ [zb (Z.land (Z.shiftr l 0) 255); zb (Z.land (Z.shiftr l 8) 255);
        zb (Z.land (Z.shiftr l 16) 255); zb (Z.land (Z.shiftr l 24) 255)].

Definition ikcp_decode32u (p : list byte) : option (Z * list byte) :=
  match p with
  | b0 :: b1 :: b2 :: b3 :: p =>
      let l := bz b3 in
      let l := u32 (bz b2 + u32 (Z.shiftl l 8)) in
      let l := u32 (bz b1 + u32 (Z.shiftl l 8)) in
      let l := u32 (bz b0 + u32 (Z.shiftl l 8)) in
      Some (l, p)
  | _ => None
  end.

Definition ikcp_encode64u (p : list byte) (l : Z) : list byte :=
  p ++ [zb (Z.land (Z.shiftr l 0) 255); zb (Z.land (Z.shiftr l 8) 255);
        zb (Z.land (Z.shiftr l 16) 255); zb (Z.land (Z.shiftr l 24) 255);
        zb (Z.land (Z.shiftr l 32) 255); zb (Z.land (Z.shiftr l 40) 255);
        zb (Z.land (Z.shiftr l 48) 255); zb (Z.land (Z.shiftr l 56) 255)].

Definition ikcp_decode64u (p : list byte) : option (Z * list byte) :=
  match p with
  | b0 :: b1 :: b2 :: b3 :: b4 :: b5 :: b6 :: b7 :: p =>
      let l := bz b7 in
      let l := u64 (bz b6 + u64 (Z.shiftl l 8)) in
      let l := u64 (bz b5 + u64 (Z.shiftl l 8)) in
      let l := u64 (bz b4 + u64 (Z.shiftl l 8)) in
      let l := u64 (bz b3 + u64 (Z.shiftl l 8)) in
      let l := u64 (bz b2 + u64 (Z.shiftl l 8)) in
      let l := u64 (bz b1 + u64 (Z.shiftl l 8)) in
      let l := u64 (bz b0 + u64 (Z.shiftl l 8)) in
      Some (l, p)
  | _ => None
  end.

(** ** Integer helpers *)

Definition imin (a b : Z) : Z := if a <=? b then a else b.

Definition imax (a b : Z) : Z := if b <=? a then a else b.

Definition ibound (lower middle upper : Z) : Z :=
  imin (imax lower middle) upper.

(** [_itimediff]: the signed distance between two wrapping counters. *)
Definition itimediff (later earlier : Z) : Z := s32 (later - earlier).

(** ** Segments *)

Record IKCPSEG := mkSeg {
  sg_conv : Z;
  sg_cmd : Z;
  sg_frg : Z;
  sg_wnd : Z;
  sg_ts : Z;
  sg_sn : Z;
  sg_una : Z;
  sg_len : Z;
  sg_resendts : Z;
  sg_rto : Z;
  sg_fastack : Z;
  sg_xmit : Z;
  sg_data : list byte
}.

(** A fresh segment from [ikcp_segment_new]: the memory is not initialised by
    the code, and reads as zero here; every operation writes a field before
    it reads it. *)
Definition ikcp_segment_new (size : Z) : IKCPSEG :=
  mkSeg 0 0 0 0 0 0 0 0 0 0 0 0 (replicate (Z.to_nat size) Byte.x00).

(** ** The control block

    The four intrusive queues are lists, head first; [acklist] lists the
    (sn, ts) pairs the array holds.  The output, log and user pointers are
    not state of the protocol: what a call hands to [output] is a result of
    the operation. *)

Record ikcpcb := mkKcp {
  k_conv : Z;
  k_mtu : Z;
  k_mss : Z;
  k_state : Z;
  k_snd_una : Z;
  k_snd_nxt : Z;
  k_rcv_nxt : Z;
  k_ts_recent : Z;
  k_ts_lastack : Z;
  k_ssthresh : Z;
  k_rx_rttval : Z;
  k_rx_srtt : Z;
  k_rx_rto : Z;
  k_rx_minrto : Z;
  k_snd_wnd : Z;
  k_rcv_wnd : Z;
  k_rmt_wnd : Z;
  k_cwnd : Z;
  k_probe : Z;
  k_current : Z;
  k_interval : Z;
  k_ts_flush : Z;
  k_xmit : Z;
  k_nrcv_buf : Z;
  k_nsnd_buf : Z;
  k_nrcv_que : Z;
  k_nsnd_que : Z;
  k_nodelay : Z;
  k_updated : Z;
  k_ts_probe : Z;
  k_probe_wait : Z;
  k_dead_link : Z;
  k_incr : Z;
  k_snd_queue : list IKCPSEG;
  k_rcv_queue : list IKCPSEG;
  k_snd_buf : list IKCPSEG;
  k_rcv_buf : list IKCPSEG;
  k_acklist : list (Z * Z);
  k_ackcount : Z;
  k_ackblock : Z;
  k_fastresend : Z;
  k_fastlimit : Z;
  k_nocwnd : Z;
  k_stream : Z
}.

(** ** Field updates

    [set_f v k] is [kcp->f = v].  Each setter is the eta-expansion of the
    record with one projection replaced. *)

Definition eta_kcp (k : ikcpcb) : ikcpcb :=
  mkKcp (k_conv k) (k_mtu k) (k_mss k) (k_state k) (k_snd_una k)
    (k_snd_nxt k) (k_rcv_nxt k) (k_ts_recent k) (k_ts_lastack k) (k_ssthresh k)
    (k_rx_rttval k) (k_rx_srtt k) (k_rx_rto k) (k_rx_minrto k) (k_snd_wnd k)
    (k_rcv_wnd k) (k_rmt_wnd k) (k_cwnd k) (k_probe k) (k_current k)
    (k_interval k) (k_ts_flush k) (k_xmit k) (k_nrcv_buf k) (k_nsnd_buf k)
    (k_nrcv_que k) (k_nsnd_que k) (k_nodelay k) (k_updated k) (k_ts_probe k)
    (k_probe_wait k) (k_dead_link k) (k_incr k) (k_snd_queue k) (k_rcv_queue k)
    (k_snd_buf k) (k_rcv_buf k) (k_acklist k) (k_ackcount k) (k_ackblock k)
    (k_fastresend k) (k_fastlimit k) (k_nocwnd k) (k_stream k).

Definition eta_seg (s : IKCPSEG) : IKCPSEG :=
  mkSeg (sg_conv s) (sg_cmd s) (sg_frg s) (sg_wnd s) (sg_ts s) (sg_sn s)
    (sg_una s) (sg_len s) (sg_resendts s) (sg_rto s) (sg_fastack s) (sg_xmit s)
    (sg_data s).

Ltac build_setter eta r proj v :=
  let t := eval cbv beta delta [eta] in (eta r) in
  lazymatch t with
  | context c [proj r] => let u := context c [v] in exact u
  end.

Definition set_conv (v : Z) (k : ikcpcb) : ikcpcb :=
  ltac:(build_setter eta_kcp k k_conv v).
Definition set_mtu (v : Z) (k : ikcpcb) : ikcpcb :=
  ltac:(build_setter eta_kcp k k_mtu v).
Definition set_mss (v : Z) (k : ikcpcb) : ikcpcb :=
  ltac:(build_setter eta_kcp k k_mss v).
Definition set_state (v : Z) (k : ikcpcb) : ikcpcb :=
  ltac:(build_setter eta_kcp k k_state v).
Definition set_snd_una (v : Z) (k : ikcpcb) : ikcpcb :=
  ltac:(build_setter eta_kcp k k_snd_una v).
Definition set_snd_nxt (v : Z) (k : ikcpcb) : ikcpcb :=
  ltac:(build_setter eta_kcp k k_snd_nxt v).
Definition set_rcv_nxt (v : Z) (k : ikcpcb) : ikcpcb :=
  ltac:(build_setter eta_kcp k k_rcv_nxt v).
Definition set_ssthresh (v : Z) (k : ikcpcb) : ikcpcb :=
  ltac:(build_setter eta_kcp k k_ssthresh v).
Definition set_rx_rttval (v : Z) (k : ikcpcb) : ikcpcb :=
  ltac:(build_setter eta_kcp k k_rx_rttval v).
Definition set_rx_srtt (v : Z) (k : ikcpcb) : ikcpcb :=
  ltac:(build_setter eta_kcp k k_rx_srtt v).
Definition set_rx_rto (v : Z) (k : ikcpcb) : ikcpcb :=
  ltac:(build_setter eta_kcp k k_rx_rto v).
Definition set_rx_minrto (v : Z) (k : ikcpcb) : ikcpcb :=
  ltac:(build_setter eta_kcp k k_rx_minrto v).
Definition set_snd_wnd (v : Z) (k : ikcpcb) : ikcpcb :=
  ltac:(build_setter eta_kcp k k_snd_wnd v).
Definition set_rcv_wnd (v : Z) (k : ikcpcb) : ikcpcb :=
  ltac:(build_setter eta_kcp k k_rcv_wnd v).
Definition set_rmt_wnd (v : Z) (k : ikcpcb) : ikcpcb :=
  ltac:(build_setter eta_kcp k k_rmt_wnd v).
Definition set_cwnd (v : Z) (k : ikcpcb) : ikcpcb :=
  ltac:(build_setter eta_kcp k k_cwnd v).
Definition set_probe (v : Z) (k : ikcpcb) : ikcpcb :=
  ltac:(build_setter eta_kcp k k_probe v).
Definition set_current (v : Z) (k : ikcpcb) : ikcpcb :=
  ltac:(build_setter eta_kcp k k_current v).
Definition set_interval (v : Z) (k : ikcpcb) : ikcpcb :=
  ltac:(build_setter eta_kcp k k_interval v).
Definition set_ts_flush (v : Z) (k : ikcpcb) : ikcpcb :=
  ltac:(build_setter eta_kcp k k_ts_flush v).
Definition set_xmit (v : Z) (k : ikcpcb) : ikcpcb :=
  ltac:(build_setter eta_kcp k k_xmit v).
Definition set_nrcv_buf (v : Z) (k : ikcpcb) : ikcpcb :=
  ltac:(build_setter eta_kcp k k_nrcv_buf v).
Definition set_nsnd_buf (v : Z) (k : ikcpcb) : ikcpcb :=
  ltac:(build_setter eta_kcp k k_nsnd_buf v).
Definition set_nrcv_que (v : Z) (k : ikcpcb) : ikcpcb :=
  ltac:(build_setter eta_kcp k k_nrcv_que v).
Definition set_nsnd_que (v : Z) (k : ikcpcb) : ikcpcb :=
  ltac:(build_setter eta_kcp k k_nsnd_que v).
Definition set_nodelay (v : Z) (k : ikcpcb) : ikcpcb :=
  ltac:(build_setter eta_kcp k k_nodelay v).
Definition set_updated (v : Z) (k : ikcpcb) : ikcpcb :=
  ltac:(build_setter eta_kcp k k_updated v).
Definition set_ts_probe (v : Z) (k : ikcpcb) : ikcpcb :=
  ltac:(build_setter eta_kcp k k_ts_probe v).
Definition set_probe_wait (v : Z) (k : ikcpcb) : ikcpcb :=
  ltac:(build_setter eta_kcp k k_probe_wait v).
Definition set_dead_link (v : Z) (k : ikcpcb) : ikcpcb :=
  ltac:(build_setter eta_kcp k k_dead_link v).
Definition set_incr (v : Z) (k : ikcpcb) : ikcpcb :=
  ltac:(build_setter eta_kcp k k_incr v).
Definition set_snd_queue (v : list IKCPSEG) (k : ikcpcb) : ikcpcb :=
  ltac:(build_setter eta_kcp k k_snd_queue v).
Definition set_rcv_queue (v : list IKCPSEG) (k : ikcpcb) : ikcpcb :=
  ltac:(build_setter eta_kcp k k_rcv_queue v).
Definition set_snd_buf (v : list IKCPSEG) (k : ikcpcb) : ikcpcb :=
  ltac:(build_setter eta_kcp k k_snd_buf v).
Definition set_rcv_buf (v : list IKCPSEG) (k : ikcpcb) : ikcpcb :=
  ltac:(build_setter eta_kcp k k_rcv_buf v).
Definition set_acklist (v : list (Z * Z)) (k : ikcpcb) : ikcpcb :=
  ltac:(build_setter eta_kcp k k_acklist v).
Definition set_ackcount (v : Z) (k : ikcpcb) : ikcpcb :=
  ltac:(build_setter eta_kcp k k_ackcount v).
Definition set_ackblock (v : Z) (k : ikcpcb) : ikcpcb :=
  ltac:(build_setter eta_kcp k k_ackblock v).
Definition set_fastresend (v : Z) (k : ikcpcb) : ikcpcb :=
  ltac:(build_setter eta_kcp k k_fastresend v).
Definition set_fastlimit (v : Z) (k : ikcpcb) : ikcpcb :=
  ltac:(build_setter eta_kcp k k_fastlimit v).
Definition set_nocwnd (v : Z) (k : ikcpcb) : ikcpcb :=
  ltac:(build_setter eta_kcp k k_nocwnd v).
Definition set_stream (v : Z) (k : ikcpcb) : ikcpcb :=
  ltac:(build_setter eta_kcp k k_stream v).

Definition sset_conv (v : Z) (s : IKCPSEG) : IKCPSEG :=
  ltac:(build_setter eta_seg s sg_conv v).
Definition sset_cmd (v : Z) (s : IKCPSEG) : IKCPSEG :=
  ltac:(build_setter eta_seg s sg_cmd v).
Definition sset_frg (v : Z) (s : IKCPSEG) : IKCPSEG :=
  ltac:(build_setter eta_seg s sg_frg v).
Definition sset_wnd (v : Z) (s : IKCPSEG) : IKCPSEG :=
  ltac:(build_setter eta_seg s sg_wnd v).
Definition sset_ts (v : Z) (s : IKCPSEG) : IKCPSEG :=
  ltac:(build_setter eta_seg s sg_ts v).
Definition sset_sn (v : Z) (s : IKCPSEG) : IKCPSEG :=
  ltac:(build_setter eta_seg s sg_sn v).
Definition sset_una (v : Z) (s : IKCPSEG) : IKCPSEG :=
  ltac:(build_setter eta_seg s sg_una v).
Definition sset_len (v : Z) (s : IKCPSEG) : IKCPSEG :=
  ltac:(build_setter eta_seg s sg_len v).
Definition sset_resendts (v : Z) (s : IKCPSEG) : IKCPSEG :=
  ltac:(build_setter eta_seg s sg_resendts v).
Definition sset_rto (v : Z) (s : IKCPSEG) : IKCPSEG :=
  ltac:(build_setter eta_seg s sg_rto v).
Definition sset_fastack (v : Z) (s : IKCPSEG) : IKCPSEG :=
  ltac:(build_setter eta_seg s sg_fastack v).
Definition sset_xmit (v : Z) (s : IKCPSEG) : IKCPSEG :=
  ltac:(build_setter eta_seg s sg_xmit v).
Definition sset_data (v : list byte) (s : IKCPSEG) : IKCPSEG :=
  ltac:(build_setter eta_seg s sg_data v).

(** [kred] computes projections of updated control blocks and segments. *)
Ltac kred :=
  cbn [
    k_conv k_mtu k_mss k_state k_snd_una k_snd_nxt k_rcv_nxt
    k_ts_recent k_ts_lastack k_ssthresh k_rx_rttval k_rx_srtt k_rx_rto k_rx_minrto
    k_snd_wnd k_rcv_wnd k_rmt_wnd k_cwnd k_probe k_current k_interval
    k_ts_flush k_xmit k_nrcv_buf k_nsnd_buf k_nrcv_que k_nsnd_que k_nodelay
    k_updated k_ts_probe k_probe_wait k_dead_link k_incr k_snd_queue k_rcv_queue
    k_snd_buf k_rcv_buf k_acklist k_ackcount k_ackblock k_fastresend k_fastlimit
    k_nocwnd k_stream set_conv set_mtu set_mss set_state set_snd_una
    set_snd_nxt set_rcv_nxt set_ssthresh set_rx_rttval set_rx_srtt set_rx_rto set_rx_minrto
    set_snd_wnd set_rcv_wnd set_rmt_wnd set_cwnd set_probe set_current set_interval
    set_ts_flush set_xmit set_nrcv_buf set_nsnd_buf set_nrcv_que set_nsnd_que set_nodelay
    set_updated set_ts_probe set_probe_wait set_dead_link set_incr set_snd_queue set_rcv_queue
    set_snd_buf set_rcv_buf set_acklist set_ackcount set_ackblock set_fastresend set_fastlimit
    set_nocwnd set_stream sg_conv sg_cmd sg_frg sg_wnd sg_ts
    sg_sn sg_una sg_len sg_resendts sg_rto sg_fastack sg_xmit
    sg_data sset_conv sset_cmd sset_frg sset_wnd sset_ts sset_sn
    sset_una sset_len sset_resendts sset_rto sset_fastack sset_xmit sset_data
  ] in *.

(** ** Wrapping counters

    [off base sn] is how far [sn] is ahead of [base], modulo 2^32.  Within a
    half-space of [base], [itimediff] compares by it. *)

Definition off (base sn : Z) : Z := u32 (sn - base).

Lemma off_range base sn : 0 <= off base sn < 4294967296.
Proof. exact (wrap_range 32 (sn - base) ltac:(lia)). Qed.

Lemma itimediff_off base a b :
  off base a < 2147483648 -> off base b < 2147483648 ->
  itimediff a b = off base a - off base b.
Proof. unfold itimediff, off. intros. zwrap. Qed.

Lemma itimediff_self base a :
  in_u 32 base -> 0 <= itimediff a base -> off base a < 2147483648.
Proof. unfold itimediff, off. intros. zwrap. Qed.

Lemma off_inj base a b :
  in_u 32 a -> in_u 32 b -> off base a = off base b -> a = b.
Proof. unfold off. intros. zwrap. Qed.

Lemma off_advance base sn n :
  0 <= n <= off base sn -> off (u32 (base + n)) sn = off base sn - n.
Proof. unfold off. intros. zwrap. Qed.

Lemma off_same base n : in_u 32 n -> off base (u32 (base + n)) = n.
Proof. unfold off. intros. zwrap. Qed.

(** Plain differences when neither counter has reached 2^31. *)
Lemma itimediff_small a b :
  0 <= a < 2147483648 -> 0 <= b < 2147483648 -> itimediff a b = a - b.
Proof. unfold itimediff. intros. zwrap. Qed.

Lemma imin_spec a b : imin a b = Z.min a b.
Proof. unfold imin. zcase; lia. Qed.

Lemma imax_spec a b : imax a b = Z.max a b.
Proof. unfold imax. zcase; lia. Qed.

#[export] Hint Rewrite imin_spec imax_spec : yag.

(** ** KCP objects: creation, release and configuration

    [ikcp_create], [ikcp_release], [ikcp_setmtu], [ikcp_interval],
    [ikcp_nodelay], [ikcp_wndsize], [ikcp_waitsnd] and [ikcp_getconv] of
    src/kcp.c.  What the allocator answers is an argument. *)
Definition new_kcpcb (conv : Z) : ikcpcb := {|
  k_conv := conv;
  k_snd_una := 0; k_snd_nxt := 0; k_rcv_nxt := 0;
  k_ts_recent := 0; k_ts_lastack := 0; k_ts_probe := 0; k_probe_wait := 0;
  k_snd_wnd := IKCP_WND_SND; k_rcv_wnd := IKCP_WND_RCV; k_rmt_wnd := IKCP_WND_RCV;
  k_cwnd := 0; k_incr := 0; k_probe := 0;
  k_mtu := IKCP_MTU_DEF; k_mss := IKCP_MTU_DEF - IKCP_OVERHEAD; k_stream := 0;
  k_snd_queue := []; k_rcv_queue := []; k_snd_buf := []; k_rcv_buf := [];
  k_nrcv_buf := 0; k_nsnd_buf := 0; k_nrcv_que := 0; k_nsnd_que := 0;
  k_state := 0; k_acklist := []; k_ackblock := 0; k_ackcount := 0;
  k_rx_srtt := 0; k_rx_rttval := 0; k_rx_rto := IKCP_RTO_DEF; k_rx_minrto := IKCP_RTO_MIN;
  k_current := 0; k_interval := IKCP_INTERVAL; k_ts_flush := IKCP_INTERVAL;
  k_nodelay := 0; k_updated := 0;
  k_ssthresh := IKCP_THRESH_INIT; k_fastresend := 0; k_fastlimit := IKCP_FASTACK_LIMIT;
  k_nocwnd := 0; k_xmit := 0; k_dead_link := IKCP_DEADLINK
|}.

(** [malloc_kcp] and [malloc_buffer] say whether the two allocations succeed. *)
Definition ikcp_create (conv : Z) (malloc_kcp malloc_buffer : bool) : option ikcpcb :=
  if negb malloc_kcp then None
  else if negb malloc_buffer then None
  else Some (new_kcpcb conv).

(** The segments [ikcp_release] frees, in order, and the block it leaves
    behind just before freeing it. *)
Definition ikcp_release (k : ikcpcb) : list IKCPSEG * ikcpcb :=
  let freed := k_snd_buf k ++ k_rcv_buf k ++ k_snd_queue k ++ k_rcv_queue k in
  (freed,
   set_snd_buf [] (set_rcv_buf [] (set_snd_queue [] (set_rcv_queue []
     (set_nrcv_buf 0 (set_nsnd_buf 0 (set_nrcv_que 0 (set_nsnd_que 0
       (set_ackcount 0 (set_acklist [] k)))))))))).

Definition ikcp_setmtu (k : ikcpcb) (mtu : Z) (malloc_ok : bool) : Z * ikcpcb :=
  if (mtu <? 50) || (mtu <? IKCP_OVERHEAD) then (-1, k)
  else if negb malloc_ok then (-2, k)
  else (0, set_mss (u32 (mtu - IKCP_OVERHEAD)) (set_mtu mtu k)).

Definition clamp_interval (interval : Z) : Z :=
  if 5000 <? interval then 5000 else if interval <? 10 then 10 else interval.

Definition ikcp_interval (k : ikcpcb) (interval : Z) : Z * ikcpcb :=
  (0, set_interval (clamp_interval interval) k).

Definition ikcp_nodelay (k : ikcpcb) (nodelay interval resend nc : Z) : Z * ikcpcb :=
  let k :=
    if 0 <=? nodelay then
      set_rx_minrto (if nodelay =? 0 then IKCP_RTO_MIN else IKCP_RTO_NDL)
        (set_nodelay nodelay k)
    else k in
  let k := if 0 <=? interval then set_interval (clamp_interval interval) k else k in
  let k := if 0 <=? resend then set_fastresend resend k else k in
  let k := if 0 <=? nc then set_nocwnd nc k else k in
  (0, k).

Definition ikcp_wndsize (k : ikcpcb) (sndwnd rcvwnd : Z) : Z * ikcpcb :=
  let k := if 0 <? sndwnd then set_snd_wnd sndwnd k else k in
  let k := if 0 <? rcvwnd then set_rcv_wnd (imax rcvwnd IKCP_WND_RCV) k else k in
  (0, k).

Definition ikcp_waitsnd (k : ikcpcb) : Z := s32 (u32 (k_nsnd_buf k + k_nsnd_que k)).

Definition ikcp_getconv (ptr : list byte) : option Z :=
  '(conv, _) ← ikcp_decode64u ptr; Some conv.

(** * The KCP wire format

    [ikcp_encode_seg], the header read at the top of the loop of [ikcp_input],
    and the facts that tie both to the little-endian layout. *)
Definition ikcp_encode_seg (ptr : list byte) (seg : IKCPSEG) : list byte :=
  let ptr := ikcp_encode64u ptr (sg_conv seg) in
  let ptr := ikcp_encode8u ptr (u8 (sg_cmd seg)) in
  let ptr := ikcp_encode8u ptr (u8 (sg_frg seg)) in
  let ptr := ikcp_encode16u ptr (u16 (sg_wnd seg)) in
  let ptr := ikcp_encode32u ptr (sg_ts seg) in
  let ptr := ikcp_encode32u ptr (sg_sn seg) in
  let ptr := ikcp_encode32u ptr (sg_una seg) in
  let ptr := ikcp_encode32u ptr (sg_len seg) in
  ptr.

(** The locals the loop of [ikcp_input] declares and fills. *)
Record seg_header := mkHeader {
  h_conv : Z; h_cmd : Z; h_frg : Z; h_wnd : Z;
  h_ts : Z; h_sn : Z; h_una : Z; h_len : Z
}.

(** After the conversation number, which is checked on its own. *)
Definition decode_header (conv : Z) (data : list byte)
    : option (seg_header * list byte) :=
  '(cmd, data) ← ikcp_decode8u data;
  '(frg, data) ← ikcp_decode8u data;
  '(wnd, data) ← ikcp_decode16u data;
  '(ts, data) ← ikcp_decode32u data;
  '(sn, data) ← ikcp_decode32u data;
  '(una, data) ← ikcp_decode32u data;
  '(len, data) ← ikcp_decode32u data;
  Some (mkHeader conv cmd frg wnd ts sn una len, data).

(** ** Codecs are little-endian *)

Lemma zb_land_255 z : zb (Z.land z 255) = zb z.
Proof.
  change 255 with (Z.ones 8). rewrite Z.land_ones by lia.
  change (z mod 2 ^ 8) with (u8 z). apply zb_wrap.
Qed.

Lemma encode8u_le p c : ikcp_encode8u p c = p ++ le_enc 1 c.
Proof. reflexivity. Qed.

Lemma encode16u_le p w : ikcp_encode16u p w = p ++ le_enc 2 w.
Proof.
  unfold ikcp_encode16u. rewrite zb_land_255, Z.shiftr_div_pow2 by lia. reflexivity.
Qed.

Ltac byte_shifts :=
  rewrite !zb_land_255, !Z.shiftr_div_pow2 by lia;
  cbn [le_enc]; rewrite ?Z.div_div by lia; rewrite ?Z.div_1_r; reflexivity.

(** The shift-and-mask branch writes the same bytes as the [memcpy] branch
    does on a little-endian host. *)
Lemma encode32u_le p l : ikcp_encode32u p l = p ++ le_enc 4 l.
Proof. unfold ikcp_encode32u. byte_shifts. Qed.

Lemma encode64u_le p l : ikcp_encode64u p l = p ++ le_enc 8 l.
Proof. unfold ikcp_encode64u. byte_shifts. Qed.

Ltac horner :=
  intros; f_equal; f_equal; rewrite !Z.shiftl_mul_pow2 by lia; cbn [le_dec];
  repeat match goal with |- context [bz ?b] =>
    let H := fresh in pose proof (bz_range b) as H;
    let v := fresh "v" in set (v := bz b) in *; clearbody v end;
  unfold wrap; change (2 ^ 8) with 256; zpow;
  repeat match goal with |- context [?a mod ?m] =>
    rewrite (Z.mod_small a m) by lia end;
  lia.

Lemma decode16u_le b0 b1 p :
  ikcp_decode16u (b0 :: b1 :: p) = Some (le_dec [b0; b1], p).
Proof. cbn [ikcp_decode16u]. horner. Qed.

Lemma decode32u_le b0 b1 b2 b3 p :
  ikcp_decode32u (b0 :: b1 :: b2 :: b3 :: p) = Some (le_dec [b0; b1; b2; b3], p).
Proof. cbn [ikcp_decode32u]. horner. Qed.

Lemma decode64u_le b0 b1 b2 b3 b4 b5 b6 b7 p :
  ikcp_decode64u (b0 :: b1 :: b2 :: b3 :: b4 :: b5 :: b6 :: b7 :: p)
  = Some (le_dec [b0; b1; b2; b3; b4; b5; b6; b7], p).
Proof. cbn [ikcp_decode64u]. horner. Qed.

(** ** Decoding what was encoded *)

Lemma decode8u_enc x p : ikcp_decode8u (le_enc 1 x ++ p) = Some (u8 x, p).
Proof. cbn. rewrite bz_zb. reflexivity. Qed.

Lemma decode16u_enc x p : ikcp_decode16u (le_enc 2 x ++ p) = Some (u16 x, p).
Proof. cbn [le_enc app]. rewrite decode16u_le. f_equal. f_equal. apply (le_dec_enc 2). Qed.

Lemma decode32u_enc x p : ikcp_decode32u (le_enc 4 x ++ p) = Some (u32 x, p).
Proof. cbn [le_enc app]. rewrite decode32u_le. f_equal. f_equal. apply (le_dec_enc 4). Qed.

Lemma decode64u_enc x p : ikcp_decode64u (le_enc 8 x ++ p) = Some (u64 x, p).
Proof. cbn [le_enc app]. rewrite decode64u_le. f_equal. f_equal. apply (le_dec_enc 8). Qed.

Create Rewrite HintDb kcodec.
#[export] Hint Rewrite encode8u_le encode16u_le encode32u_le encode64u_le : kcodec.
#[export] Hint Rewrite <- @app_assoc : kcodec.
#[export] Hint Rewrite decode8u_enc decode16u_enc decode32u_enc decode64u_enc : kcodec.

Lemma encode_seg_le ptr s :
  ikcp_encode_seg ptr s =
  ptr ++ le_enc 8 (sg_conv s) ++ le_enc 1 (u8 (sg_cmd s)) ++ le_enc 1 (u8 (sg_frg s))
      ++ le_enc 2 (u16 (sg_wnd s)) ++ le_enc 4 (sg_ts s) ++ le_enc 4 (sg_sn s)
      ++ le_enc 4 (sg_una s) ++ le_enc 4 (sg_len s).
Proof. unfold ikcp_encode_seg. autorewrite with kcodec. reflexivity. Qed.

Lemma encode_seg_app ptr s : ikcp_encode_seg ptr s = ptr ++ ikcp_encode_seg [] s.
Proof. rewrite !encode_seg_le. reflexivity. Qed.

Lemma length_encode_seg ptr s :
  zlen (ikcp_encode_seg ptr s) = zlen ptr + IKCP_OVERHEAD.
Proof. rewrite encode_seg_le. rewrite !length_app, !length_le_enc. unfold IKCP_OVERHEAD. lia. Qed.

(** The header a segment travels with: each field cut to its width. *)
Definition wire_header (s : IKCPSEG) : seg_header :=
  mkHeader (u64 (sg_conv s)) (u8 (sg_cmd s)) (u8 (sg_frg s)) (u16 (sg_wnd s))
    (u32 (sg_ts s)) (u32 (sg_sn s)) (u32 (sg_una s)) (u32 (sg_len s)).

(** Reading the whole header, as the loop of [ikcp_input] does. *)
Definition decode_seg (data : list byte) : option (seg_header * list byte) :=
  '(conv, data) ← ikcp_decode64u data; decode_header conv data.

(** What [ikcp_encode_seg] writes is read back field by field, and what
    follows the header is left untouched. *)
Lemma decode_encode_seg s rest :
  decode_seg (ikcp_encode_seg [] s ++ rest) = Some (wire_header s, rest).
Proof.
  rewrite encode_seg_le. unfold decode_seg, decode_header. cbn [app].
  repeat (autorewrite with kcodec; cbn [mbind option_bind]).
  unfold wire_header. rewrite !wrap_wrap. reflexivity.
Qed.

(** A segment made of a header's fields. *)
Definition header_seg (h : seg_header) : IKCPSEG :=
  mkSeg (h_conv h) (h_cmd h) (h_frg h) (h_wnd h) (h_ts h) (h_sn h) (h_una h)
    (h_len h) 0 0 0 0 [].

Ltac take_bytes n l :=
  match n with
  | O => idtac
  | S ?m => let b := fresh "b" in destruct l as [|b l]; [cbn in *; lia|]; take_bytes m l
  end.

(** Every buffer of at least 28 bytes holds a header, and re-encoding the
    header gives the bytes back: the codec is a bijection on headers. *)
Lemma decode_seg_total data :
  IKCP_OVERHEAD <= zlen data ->
  exists h, decode_seg data = Some (h, zdrop IKCP_OVERHEAD data)
    /\ ikcp_encode_seg [] (header_seg h) = ztake IKCP_OVERHEAD data.
Proof.
  unfold IKCP_OVERHEAD. intros Hl. change (Z.to_nat 28) with 28%nat.
  take_bytes 28%nat data.
  unfold decode_seg, decode_header.
  cbn [ikcp_decode8u mbind option_bind]. rewrite decode64u_le. cbn [mbind option_bind].
  cbn [ikcp_decode8u mbind option_bind]. rewrite decode16u_le. cbn [mbind option_bind].
  repeat (rewrite decode32u_le; cbn [mbind option_bind]).
  eexists. split; [reflexivity|].
  rewrite encode_seg_le. unfold header_seg. kred. cbn [h_conv h_cmd h_frg h_wnd h_ts h_sn h_una h_len].
  rewrite !(wrap_id 8) by apply bz_range.
  rewrite (wrap_id 16) by (match goal with |- in_u _ (le_dec ?l) => exact (le_dec_range l) end).
  repeat match goal with |- context [le_enc ?n (le_dec ?l)] =>
    change (le_enc n (le_dec l)) with (le_enc (length l) (le_dec l)); rewrite (le_enc_dec l) end.
  cbn [le_enc]. rewrite !zb_bz. reflexivity.
Qed.
