(* ===== verification/KcpRecv.v ===== *)
(** * KCP receive side

    [ikcp_peeksize], [ikcp_recv] and [ikcp_parse_data] of src/kcp.c: the
    reordering buffer [rcv_buf], the in-order queue [rcv_queue], and the
    reassembly of fragmented messages. *)

From S2P Require Import Prelude KcpTypes.

(** ** Moving in-order segments from [rcv_buf] to [rcv_queue] *)

Record rcv_side := mkRcvSide {
  rs_buf : list IKCPSEG;
  rs_que : list IKCPSEG;
  rs_nbuf : Z;
  rs_nque : Z;
  rs_nxt : Z
}.

Fixpoint move_ready (wnd : Z) (buf que : list IKCPSEG) (nbuf nque nxt : Z) : rcv_side :=
  match buf with
  | [] => mkRcvSide buf que nbuf nque nxt
  | seg :: rest =>
      if (sg_sn seg =? nxt) && (nque <? wnd) then
        move_ready wnd rest (que ++ [seg]) (u32 (nbuf - 1)) (u32 (nque + 1)) (u32 (nxt + 1))
      else mkRcvSide buf que nbuf nque nxt
  end.

(** The loop that both [ikcp_recv] and [ikcp_parse_data] end with. *)
Definition rcv_move (k : ikcpcb) : ikcpcb :=
  let r := move_ready (k_rcv_wnd k) (k_rcv_buf k) (k_rcv_queue k)
             (k_nrcv_buf k) (k_nrcv_que k) (k_rcv_nxt k) in
  set_rcv_buf (rs_buf r) (set_rcv_queue (rs_que r)
    (set_nrcv_buf (rs_nbuf r) (set_nrcv_que (rs_nque r) (set_rcv_nxt (rs_nxt r) k)))).

(** ** Peeking *)

Fixpoint peek_loop (p : list IKCPSEG) (length : Z) : Z :=
  match p with
  | [] => length
  | seg :: p =>
      let length := s32 (length + sg_len seg) in
      if sg_frg seg =? 0 then length else peek_loop p length
  end.

Definition ikcp_peeksize (k : ikcpcb) : Z :=
  match k_rcv_queue k with
  | [] => -1
  | seg :: _ =>
      if sg_frg seg =? 0 then s32 (sg_len seg)
      else if k_nrcv_que k <? u32 (sg_frg seg + 1) then -1
      else peek_loop (k_rcv_queue k) 0
  end.

(** ** Receiving *)

Record merge_st := mkMerge {
  mg_len : Z;            (* bytes merged so far *)
  mg_buf : list byte;    (* what was copied to the caller's buffer *)
  mg_que : list IKCPSEG; (* the queue after the loop *)
  mg_nque : Z
}.

(** The merge loop; in peek mode the segments it walks over stay queued. *)
Fixpoint recv_merge (ispeek : bool) (p : list IKCPSEG) (len : Z) (buf : list byte)
    (nque : Z) : merge_st :=
  match p with
  | [] => mkMerge len buf [] nque
  | seg :: p =>
      let buf := buf ++ ztake (sg_len seg) (sg_data seg) in
      let len := s32 (len + sg_len seg) in
      let nque := if ispeek then nque else u32 (nque - 1) in
      if sg_frg seg =? 0 then mkMerge len buf p nque
      else recv_merge ispeek p len buf nque
  end.

(** [ikcp_recv kcp buffer len] with a non-null [buffer]: the returned value,
    the bytes written to [buffer] from its start, and the new state. *)
Definition ikcp_recv (k : ikcpcb) (len : Z) : Z * list byte * ikcpcb :=
  let ispeek := len <? 0 in
  match k_rcv_queue k with
  | [] => (-1, [], k)
  | _ :: _ =>
      let len := if len <? 0 then s32 (- len) else len in
      let peeksize := ikcp_peeksize k in
      if peeksize <? 0 then (-2, [], k)
      else if len <? peeksize then (-3, [], k)
      else
        let recover := k_rcv_wnd k <=? k_nrcv_que k in
        let m := recv_merge ispeek (k_rcv_queue k) 0 [] (k_nrcv_que k) in
        let k := if ispeek then k
                 else set_rcv_queue (mg_que m) (set_nrcv_que (mg_nque m) k) in
        let k := rcv_move k in
        let k := if (k_nrcv_que k <? k_rcv_wnd k) && recover
                 then set_probe (Z.lor (k_probe k) IKCP_ASK_TELL) k else k in
        (mg_len m, mg_buf m, k)
  end.

(** ** Accepting a data segment *)

(** The search of [ikcp_parse_data] walks [rcv_buf] from its tail: [before]
    is what is left of the queue, tail first, and [after] what was passed. *)
Record place := mkPlace {
  pl_repeat : bool;
  pl_before : list IKCPSEG;
  pl_after : list IKCPSEG
}.

Fixpoint find_place (sn : Z) (before after : list IKCPSEG) : place :=
  match before with
  | [] => mkPlace false [] after
  | seg :: prev =>
      if sg_sn seg =? sn then mkPlace true before after
      else if 0 <? itimediff sn (sg_sn seg) then mkPlace false before after
      else find_place sn prev (seg :: after)
  end.

Definition ikcp_parse_data (k : ikcpcb) (newseg : IKCPSEG) : ikcpcb :=
  let sn := sg_sn newseg in
  if (0 <=? itimediff sn (u32 (k_rcv_nxt k + k_rcv_wnd k)))
     || (itimediff sn (k_rcv_nxt k) <? 0) then k
  else
    let p := find_place sn (rev (k_rcv_buf k)) [] in
    let k :=
      if pl_repeat p then k
      else set_rcv_buf (rev (pl_before p) ++ newseg :: pl_after p)
             (set_nrcv_buf (u32 (k_nrcv_buf k + 1)) k) in
    rcv_move k.
