(* ===== verification/KcpSend.v ===== *)
(** * KCP send side: queueing and fragmenting messages

    [ikcp_send] of src/kcp.c. *)

From S2P Require Import Prelude KcpTypes.

(** The fragmentation loop: [i] runs up to [count], [todo] counts the
    iterations left, [len] the bytes of the message left. *)
Fixpoint send_fragments (mss stream count : Z) (todo : nat) (i len : Z)
    (buffer : list byte) : list IKCPSEG :=
  match todo with
  | O => []
  | S todo =>
      let size := if s32 mss <? len then s32 mss else len in
      let seg := ikcp_segment_new size in
      let seg := sset_data (if 0 <? len then ztake size buffer else sg_data seg) seg in
      let seg := sset_len (u32 size) seg in
      let seg := sset_frg (if stream =? 0 then u32 (count - i - 1) else 0) seg in
      seg :: send_fragments mss stream count todo (i + 1) (len - size) (zdrop size buffer)
  end.

(** The streaming branch: the last queued segment is replaced by a copy that
    [extend] bytes were appended to.  Returns the queue and [extend]. *)
Definition stream_append (mss : Z) (que : list IKCPSEG) (buffer : list byte) (len : Z)
    : list IKCPSEG * Z :=
  match last que with
  | None => (que, 0)
  | Some old =>
      if sg_len old <? mss then
        let capacity := s32 (mss - sg_len old) in
        let extend := if len <? capacity then len else capacity in
        let seg := ikcp_segment_new (s32 (sg_len old + extend)) in
        let seg := sset_data (ztake (sg_len old) (sg_data old) ++ ztake extend buffer) seg in
        let seg := sset_len (u32 (sg_len old + extend)) seg in
        let seg := sset_frg 0 seg in
        (removelast que ++ [seg], extend)
      else (que, 0)
  end.

(** [ikcp_send kcp buffer len] with a non-null [buffer] of [len] bytes. *)
Definition ikcp_send (k : ikcpcb) (buffer : list byte) (len : Z) : Z * ikcpcb :=
  if len <? 0 then (-1, k)
  else
    let ap := if k_stream k =? 0 then (k_snd_queue k, 0)
              else stream_append (k_mss k) (k_snd_queue k) buffer len in
    let k := set_snd_queue (fst ap) k in
    let buffer := zdrop (snd ap) buffer in
    let len := len - snd ap in
    if negb (k_stream k =? 0) && (len <=? 0) then (0, k)
    else
      let count :=
        if len <=? s32 (k_mss k) then 1
        else s32 (u32 (u32 (len + k_mss k) - 1) / k_mss k) in
      if IKCP_WND_RCV <=? count then (-2, k)
      else
        let count := if count =? 0 then 1 else count in
        let segs := send_fragments (k_mss k) (k_stream k) count (Z.to_nat count) 0 len buffer in
        (0, set_snd_queue (k_snd_queue k ++ segs)
              (set_nsnd_que (u32 (k_nsnd_que k + count)) k)).
