(* ===== verification/KcpInput.v ===== *)
(** * KCP input: acknowledgements and incoming segments

    [ikcp_update_ack], [ikcp_shrink_buf], [ikcp_parse_ack], [ikcp_parse_una],
    [ikcp_parse_fastack], [ikcp_ack_push], [ikcp_ack_get] and [ikcp_input] of
    src/kcp.c. *)

From S2P Require Import Prelude KcpTypes KcpRecv.

(** ** Round-trip estimation *)

(** [int] arithmetic wraps; the divisions truncate. *)
Definition smooth_rttval (rttval srtt rtt : Z) : Z :=
  if srtt =? 0 then Z.quot rtt 2
  else
    let delta := s32 (rtt - srtt) in
    let delta := if delta <? 0 then - delta else delta in
    s32 (Z.quot (s32 (3 * rttval) + delta) 4).

Definition smooth_srtt (srtt rtt : Z) : Z :=
  if srtt =? 0 then rtt
  else
    let srtt := Z.quot (s32 (s32 (7 * srtt) + rtt)) 8 in
    if srtt <? 1 then 1 else srtt.

Definition ikcp_update_ack (k : ikcpcb) (rtt : Z) : ikcpcb :=
  let rttval := smooth_rttval (k_rx_rttval k) (k_rx_srtt k) rtt in
  let srtt := smooth_srtt (k_rx_srtt k) rtt in
  let rto := s32 (u32 (srtt + imax (k_interval k) (u32 (s32 (4 * rttval))))) in
  let rto := s32 (ibound (u32 (k_rx_minrto k)) (u32 rto) IKCP_RTO_MAX) in
  set_rx_rto rto (set_rx_rttval rttval (set_rx_srtt srtt k)).

(** ** Removing acknowledged segments from [snd_buf] *)

Definition ikcp_shrink_buf (k : ikcpcb) : ikcpcb :=
  match k_snd_buf k with
  | seg :: _ => set_snd_una (sg_sn seg) k
  | [] => set_snd_una (k_snd_nxt k) k
  end.

(** The guard that [ikcp_parse_ack] and [ikcp_parse_fastack] start with. *)
Definition ack_outside (k : ikcpcb) (sn : Z) : bool :=
  (itimediff sn (k_snd_una k) <? 0) || (0 <=? itimediff sn (k_snd_nxt k)).

Fixpoint parse_ack_loop (sn : Z) (p : list IKCPSEG) (nsnd_buf : Z) : list IKCPSEG * Z :=
  match p with
  | [] => ([], nsnd_buf)
  | seg :: next =>
      if sn =? sg_sn seg then (next, u32 (nsnd_buf - 1))
      else if itimediff sn (sg_sn seg) <? 0 then (p, nsnd_buf)
      else let r := parse_ack_loop sn next nsnd_buf in (seg :: fst r, snd r)
  end.

Definition ikcp_parse_ack (k : ikcpcb) (sn : Z) : ikcpcb :=
  if ack_outside k sn then k
  else
    let r := parse_ack_loop sn (k_snd_buf k) (k_nsnd_buf k) in
    set_snd_buf (fst r) (set_nsnd_buf (snd r) k).

Fixpoint parse_una_loop (una : Z) (p : list IKCPSEG) (nsnd_buf : Z) : list IKCPSEG * Z :=
  match p with
  | [] => ([], nsnd_buf)
  | seg :: next =>
      if 0 <? itimediff una (sg_sn seg) then parse_una_loop una next (u32 (nsnd_buf - 1))
      else (p, nsnd_buf)
  end.

Definition ikcp_parse_una (k : ikcpcb) (una : Z) : ikcpcb :=
  let r := parse_una_loop una (k_snd_buf k) (k_nsnd_buf k) in
  set_snd_buf (fst r) (set_nsnd_buf (snd r) k).

(** Built without [IKCP_FASTACK_CONSERVE]: the timestamp is not looked at. *)
Fixpoint parse_fastack_loop (sn : Z) (p : list IKCPSEG) : list IKCPSEG :=
  match p with
  | [] => []
  | seg :: next =>
      if itimediff sn (sg_sn seg) <? 0 then p
      else
        (if sn =? sg_sn seg then seg else sset_fastack (u32 (sg_fastack seg + 1)) seg)
        :: parse_fastack_loop sn next
  end.

Definition ikcp_parse_fastack (k : ikcpcb) (sn : Z) : ikcpcb :=
  if ack_outside k sn then k
  else set_snd_buf (parse_fastack_loop sn (k_snd_buf k)) k.

(** ** The list of acknowledgements to send *)

(** [for (newblock = 8; newblock < newsize; newblock <<= 1)], with enough fuel
    for every [size_t]. *)
Fixpoint grow_block (fuel : nat) (newblock newsize : Z) : Z :=
  match fuel with
  | O => newblock
  | S fuel =>
      if newblock <? newsize then grow_block fuel (u64 (Z.shiftl newblock 1)) newsize
      else newblock
  end.

Definition ikcp_ack_push (k : ikcpcb) (sn ts : Z) : ikcpcb :=
  let newsize := k_ackcount k + 1 in
  let live := ztake (k_ackcount k) (k_acklist k) in
  let block := if k_ackblock k <? newsize
               then u32 (grow_block 64 8 newsize) else k_ackblock k in
  set_acklist (live ++ [(sn, ts)])
    (set_ackcount (u32 newsize) (set_ackblock block k)).

Definition ikcp_ack_get (k : ikcpcb) (p : nat) : option (Z * Z) := k_acklist k !! p.

(** ** Incoming datagrams *)

(** The locals [flag], [maxack] and [latest_ts]. *)
Record ack_scan := mkScan { a_flag : bool; a_maxack : Z; a_latest_ts : Z }.

Definition scan_ack (a : ack_scan) (sn ts : Z) : ack_scan :=
  if negb (a_flag a) then mkScan true sn ts
  else if 0 <? itimediff sn (a_maxack a) then mkScan true sn ts
  else a.

(** The first statements common to every command. *)
Definition input_una (k : ikcpcb) (h : seg_header) : ikcpcb :=
  let k := set_rmt_wnd (h_wnd h) k in
  let k := ikcp_parse_una k (h_una h) in
  ikcp_shrink_buf k.

Definition input_ack (k : ikcpcb) (h : seg_header) : ikcpcb :=
  let k := if 0 <=? itimediff (k_current k) (h_ts h)
           then ikcp_update_ack k (itimediff (k_current k) (h_ts h)) else k in
  let k := ikcp_parse_ack k (h_sn h) in
  ikcp_shrink_buf k.

Definition push_segment (h : seg_header) (payload : list byte) : IKCPSEG :=
  let seg := ikcp_segment_new (h_len h) in
  let seg := sset_conv (h_conv h) seg in
  let seg := sset_cmd (h_cmd h) seg in
  let seg := sset_frg (h_frg h) seg in
  let seg := sset_wnd (h_wnd h) seg in
  let seg := sset_ts (h_ts h) seg in
  let seg := sset_sn (h_sn h) seg in
  let seg := sset_una (h_una h) seg in
  let seg := sset_len (h_len h) seg in
  if 0 <? h_len h then sset_data payload seg else seg.

Definition input_push (k : ikcpcb) (h : seg_header) (payload : list byte) : ikcpcb :=
  if itimediff (h_sn h) (u32 (k_rcv_nxt k + k_rcv_wnd k)) <? 0 then
    let k := ikcp_ack_push k (h_sn h) (h_ts h) in
    if 0 <=? itimediff (h_sn h) (k_rcv_nxt k) then
      ikcp_parse_data k (push_segment h payload)
    else k
  else k.

Definition known_cmd (cmd : Z) : bool :=
  (cmd =? IKCP_CMD_PUSH) || (cmd =? IKCP_CMD_ACK)
  || (cmd =? IKCP_CMD_WASK) || (cmd =? IKCP_CMD_WINS).

(** One iteration of the loop after its header has been checked. *)
Definition input_seg (k : ikcpcb) (a : ack_scan) (h : seg_header) (payload : list byte)
    : ikcpcb * ack_scan :=
  let k := input_una k h in
  if h_cmd h =? IKCP_CMD_ACK then (input_ack k h, scan_ack a (h_sn h) (h_ts h))
  else if h_cmd h =? IKCP_CMD_PUSH then (input_push k h payload, a)
  else if h_cmd h =? IKCP_CMD_WASK then
    (set_probe (Z.lor (k_probe k) IKCP_ASK_TELL) k, a)
  else (k, a).

(** Reading [len] bytes of the buffer; no value past its end. *)
Definition read_bytes (len : Z) (data : list byte) : option (list byte * list byte) :=
  if (0 <=? len) && (len <=? zlen data) then Some (ztake len data, zdrop len data) else None.

(** The receive loop.  The result is the value a [return] inside the loop
    gives, or 0 when the loop is left by [break].  [None] means a read outside
    the datagram or that the fuel ran out. *)
Fixpoint input_loop (fuel : nat) (k : ikcpcb) (a : ack_scan) (data : list byte) (size : Z)
    : option (Z * ikcpcb * ack_scan) :=
  match fuel with
  | O => None
  | S fuel =>
      if size <? IKCP_OVERHEAD then Some (0, k, a)
      else
        '(conv, data) ← ikcp_decode64u data;
        if negb (conv =? k_conv k) then Some (-1, k, a)
        else
          '(h, data) ← decode_header conv data;
          let size := size - IKCP_OVERHEAD in
          if (size <? h_len h) || (s32 (h_len h) <? 0) then Some (-2, k, a)
          else if negb (known_cmd (h_cmd h)) then Some (-3, k, a)
          else
            '(payload, data) ← read_bytes (h_len h) data;
            let r := input_seg k a h payload in
            input_loop fuel (fst r) (snd r) data (size - h_len h)
  end.

(** The congestion window update at the end of [ikcp_input]: the new [cwnd]
    and [incr]. *)
Definition grow_cwnd (cwnd incr ssthresh rmt_wnd mss : Z) : Z * Z :=
  let r :=
    if cwnd <? ssthresh then (u32 (cwnd + 1), u32 (incr + mss))
    else
      let incr := if incr <? mss then mss else incr in
      let incr := u32 (incr + u32 (u32 (mss * mss) / incr + mss / 16)) in
      if u32 (u32 (cwnd + 1) * mss) <=? incr then
        (u32 (u32 (incr + mss) - 1) / (if 0 <? mss then mss else 1), incr)
      else (cwnd, incr) in
  if rmt_wnd <? fst r then (rmt_wnd, u32 (rmt_wnd * mss)) else r.

Definition input_cwnd (k : ikcpcb) : ikcpcb :=
  if k_cwnd k <? k_rmt_wnd k then
    let r := grow_cwnd (k_cwnd k) (k_incr k) (k_ssthresh k) (k_rmt_wnd k) (k_mss k) in
    set_cwnd (fst r) (set_incr (snd r) k)
  else k.

Definition input_finish (prev_una : Z) (k : ikcpcb) (a : ack_scan) : ikcpcb :=
  let k := if a_flag a then ikcp_parse_fastack k (a_maxack a) else k in
  if 0 <? itimediff (k_snd_una k) prev_una then input_cwnd k else k.

(** [ikcp_input kcp data size]; a null [data] is [None]. *)
Definition ikcp_input (k : ikcpcb) (data : option (list byte)) (size : Z)
    : option (Z * ikcpcb) :=
  match data with
  | None => Some (-1, k)
  | Some data =>
      if s32 size <? IKCP_OVERHEAD then Some (-1, k)
      else
        match input_loop (S (length data)) k (mkScan false 0 0) data size with
        | None => None
        | Some (ret, k', a) =>
            if ret <? 0 then Some (ret, k') else Some (0, input_finish (k_snd_una k) k' a)
        end
  end.
