(* ===== verification/KcpFlush.v ===== *)
(** * KCP output: flushing and the update clock

    [ikcp_wnd_unused], [ikcp_flush], [ikcp_update] and [ikcp_check] of
    src/kcp.c.  Every call of the output callback is recorded, in order. *)

From S2P Require Import Prelude KcpTypes KcpInput.

Definition ikcp_wnd_unused (k : ikcpcb) : Z :=
  if k_nrcv_que k <? k_rcv_wnd k then s32 (k_rcv_wnd k - k_nrcv_que k) else 0.

(** ** The staging buffer

    [ob_ptr] is what has been written to [kcp->buffer] since [ptr] was last
    reset, [ob_out] the datagrams given to the output callback. *)

Record outbuf := mkOut { ob_ptr : list byte; ob_out : list (list byte) }.

(** [ikcp_output]: an empty buffer is not sent. *)
Definition ikcp_output (data : list byte) (out : list (list byte)) : list (list byte) :=
  if zlen data =? 0 then out else out ++ [data].

(** Sending the buffer when [need] more bytes would exceed the MTU. *)
Definition make_room (mtu need : Z) (b : outbuf) : outbuf :=
  let size := zlen (ob_ptr b) in
  if s32 mtu <? s32 (size + need) then mkOut [] (ikcp_output (ob_ptr b) (ob_out b)) else b.

Definition put_seg (seg : IKCPSEG) (b : outbuf) : outbuf :=
  mkOut (ikcp_encode_seg (ob_ptr b) seg) (ob_out b).

(** ** Acknowledgements *)

(** The loop over [ackcount]; [seg] keeps the last (sn, ts) it was given. *)
Fixpoint flush_acks (mtu : Z) (acks : list (Z * Z)) (seg : IKCPSEG) (b : outbuf)
    : IKCPSEG * outbuf :=
  match acks with
  | [] => (seg, b)
  | (sn, ts) :: acks =>
      let b := make_room mtu IKCP_OVERHEAD b in
      let seg := sset_sn sn (sset_ts ts seg) in
      flush_acks mtu acks seg (put_seg seg b)
  end.

(** ** Window probes *)

Definition update_probe (k : ikcpcb) : ikcpcb :=
  if k_rmt_wnd k =? 0 then
    if k_probe_wait k =? 0 then
      set_probe_wait IKCP_PROBE_INIT
        (set_ts_probe (u32 (k_current k + IKCP_PROBE_INIT)) k)
    else if 0 <=? itimediff (k_current k) (k_ts_probe k) then
      let wait := if k_probe_wait k <? IKCP_PROBE_INIT then IKCP_PROBE_INIT
                  else k_probe_wait k in
      let wait := u32 (wait + wait / 2) in
      let wait := if IKCP_PROBE_LIMIT <? wait then IKCP_PROBE_LIMIT else wait in
      set_probe_wait wait (set_ts_probe (u32 (k_current k + wait))
        (set_probe (Z.lor (k_probe k) IKCP_ASK_SEND) k))
    else k
  else set_ts_probe 0 (set_probe_wait 0 k).

(** Appending a WASK or WINS command when its bit of [probe] is set. *)
Definition flush_probe (mtu probe bit cmd : Z) (sb : IKCPSEG * outbuf) : IKCPSEG * outbuf :=
  if Z.land probe bit =? 0 then sb
  else
    let seg := sset_cmd cmd (fst sb) in
    (seg, put_seg seg (make_room mtu IKCP_OVERHEAD (snd sb))).

(** ** Moving segments from [snd_queue] to [snd_buf] *)

Record snd_side := mkSndSide {
  ss_que : list IKCPSEG;
  ss_buf : list IKCPSEG;
  ss_nque : Z;
  ss_nbuf : Z;
  ss_nxt : Z
}.

(** The fields the move fills in; [k] gives those it only reads. *)
Definition admit_seg (k : ikcpcb) (wnd sn : Z) (newseg : IKCPSEG) : IKCPSEG :=
  mkSeg (k_conv k) IKCP_CMD_PUSH (sg_frg newseg) wnd (k_current k) sn (k_rcv_nxt k)
    (sg_len newseg) (k_current k) (u32 (k_rx_rto k)) 0 0 (sg_data newseg).

Fixpoint move_snd (k : ikcpcb) (wnd cwnd : Z) (que buf : list IKCPSEG) (nque nbuf nxt : Z)
    : snd_side :=
  match que with
  | [] => mkSndSide que buf nque nbuf nxt
  | newseg :: rest =>
      if itimediff nxt (u32 (k_snd_una k + cwnd)) <? 0 then
        move_snd k wnd cwnd rest (buf ++ [admit_seg k wnd nxt newseg])
          (u32 (nque - 1)) (u32 (nbuf + 1)) (u32 (nxt + 1))
      else mkSndSide que buf nque nbuf nxt
  end.

(** ** Sending and resending the segments of [snd_buf] *)

Record flush_st := mkFlush {
  fl_out : outbuf;
  fl_change : Z;
  fl_lost : bool;
  fl_xmit : Z;
  fl_state : Z
}.

(** Whether, and how, a segment of [snd_buf] is due: the segment with its
    timers advanced, [needsend], and whether it counts as fast resend
    ([change]) or timeout ([lost]). *)
Inductive due := NotDue | First | Timeout | Fast.

Definition seg_due (k : ikcpcb) (resent : Z) (s : IKCPSEG) : due :=
  if sg_xmit s =? 0 then First
  else if 0 <=? itimediff (k_current k) (sg_resendts s) then Timeout
  else if resent <=? sg_fastack s then
    if (s32 (sg_xmit s) <=? k_fastlimit k) || (k_fastlimit k <=? 0) then Fast else NotDue
  else NotDue.

Definition seg_timers (k : ikcpcb) (rtomin : Z) (d : due) (s : IKCPSEG) : IKCPSEG :=
  let current := k_current k in
  match d with
  | NotDue => s
  | First =>
      let s := sset_xmit (u32 (sg_xmit s + 1)) s in
      let s := sset_rto (u32 (k_rx_rto k)) s in
      sset_resendts (u32 (current + sg_rto s + rtomin)) s
  | Timeout =>
      let s := sset_xmit (u32 (sg_xmit s + 1)) s in
      let s :=
        if k_nodelay k =? 0 then
          sset_rto (u32 (sg_rto s + imax (sg_rto s) (u32 (k_rx_rto k)))) s
        else
          let step := if k_nodelay k <? 2 then s32 (sg_rto s) else k_rx_rto k in
          sset_rto (u32 (sg_rto s + Z.quot step 2)) s in
      sset_resendts (u32 (current + sg_rto s)) s
  | Fast =>
      let s := sset_xmit (u32 (sg_xmit s + 1)) s in
      let s := sset_fastack 0 s in
      sset_resendts (u32 (current + sg_rto s)) s
  end.

(** The body of the loop for a segment that is sent. *)
Definition send_seg (k : ikcpcb) (wnd : Z) (s : IKCPSEG) (b : outbuf) : IKCPSEG * outbuf :=
  let s := sset_ts (k_current k) s in
  let s := sset_wnd wnd s in
  let s := sset_una (k_rcv_nxt k) s in
  let b := make_room (k_mtu k) (s32 (u32 (IKCP_OVERHEAD + sg_len s))) b in
  let b := put_seg s b in
  (s, mkOut (ob_ptr b ++ ztake (sg_len s) (sg_data s)) (ob_out b)).

Definition flush_seg (k : ikcpcb) (wnd resent rtomin : Z) (s : IKCPSEG) (f : flush_st)
    : IKCPSEG * flush_st :=
  let d := seg_due k resent s in
  match d with
  | NotDue => (s, f)
  | _ =>
      let s := seg_timers k rtomin d s in
      let r := send_seg k wnd s (fl_out f) in
      let s := fst r in
      (s, mkFlush (snd r)
            (match d with Fast => fl_change f + 1 | _ => fl_change f end)
            (match d with Timeout => true | _ => fl_lost f end)
            (match d with Timeout => u32 (fl_xmit f + 1) | _ => fl_xmit f end)
            (if k_dead_link k <=? sg_xmit s then u32 (-1) else fl_state f))
  end.

Fixpoint flush_segs (k : ikcpcb) (wnd resent rtomin : Z) (p : list IKCPSEG) (f : flush_st)
    : list IKCPSEG * flush_st :=
  match p with
  | [] => ([], f)
  | s :: p =>
      let r := flush_seg k wnd resent rtomin s f in
      let rs := flush_segs k wnd resent rtomin p (snd r) in
      (fst r :: fst rs, snd rs)
  end.

(** ** Congestion window after a flush *)

Definition at_least (low v : Z) : Z := if v <? low then low else v.

(** Fast resends shrink the window to the threshold, timeouts to one segment. *)
Definition flush_cwnd (k : ikcpcb) (cwnd0 resent change : Z) (lost : bool) : ikcpcb :=
  let inflight := u32 (k_snd_nxt k - k_snd_una k) in
  let ssthresh := if change =? 0 then k_ssthresh k
                  else at_least IKCP_THRESH_MIN (inflight / 2) in
  let cwnd := if change =? 0 then k_cwnd k else u32 (ssthresh + resent) in
  let incr := if change =? 0 then k_incr k else u32 (cwnd * k_mss k) in
  let ssthresh := if lost then at_least IKCP_THRESH_MIN (cwnd0 / 2) else ssthresh in
  let incr := if lost then k_mss k else incr in
  let cwnd := if lost then 1 else cwnd in
  let incr := if cwnd <? 1 then k_mss k else incr in
  let cwnd := if cwnd <? 1 then 1 else cwnd in
  set_ssthresh ssthresh (set_cwnd cwnd (set_incr incr k)).

(** ** The whole flush *)

Definition flush_template (k : ikcpcb) : IKCPSEG :=
  mkSeg (k_conv k) IKCP_CMD_ACK 0 (u32 (ikcp_wnd_unused k)) 0 0 (k_rcv_nxt k) 0 0 0 0 0 [].

(** Acknowledgements and probes: the state with both cleared, and the bytes. *)
Definition flush_control (k : ikcpcb) : ikcpcb * outbuf :=
  let sb := flush_acks (k_mtu k) (ztake (k_ackcount k) (k_acklist k))
              (flush_template k) (mkOut [] []) in
  let k := set_ackcount 0 k in
  let k := update_probe k in
  let sb := flush_probe (k_mtu k) (k_probe k) IKCP_ASK_SEND IKCP_CMD_WASK sb in
  let sb := flush_probe (k_mtu k) (k_probe k) IKCP_ASK_TELL IKCP_CMD_WINS sb in
  (set_probe 0 k, snd sb).

Definition flush_window (k : ikcpcb) : Z :=
  let cwnd := imin (k_snd_wnd k) (k_rmt_wnd k) in
  if k_nocwnd k =? 0 then imin (k_cwnd k) cwnd else cwnd.

Definition flush_admit (k : ikcpcb) : ikcpcb :=
  let wnd := u32 (ikcp_wnd_unused k) in
  let m := move_snd k wnd (flush_window k) (k_snd_queue k) (k_snd_buf k)
             (k_nsnd_que k) (k_nsnd_buf k) (k_snd_nxt k) in
  set_snd_queue (ss_que m) (set_snd_buf (ss_buf m) (set_nsnd_que (ss_nque m)
    (set_nsnd_buf (ss_nbuf m) (set_snd_nxt (ss_nxt m) k)))).

Definition flush_resent (k : ikcpcb) : Z :=
  if 0 <? k_fastresend k then u32 (k_fastresend k) else 4294967295.

Definition flush_rtomin (k : ikcpcb) : Z :=
  if k_nodelay k =? 0 then u32 (Z.shiftr (k_rx_rto k) 3) else 0.

(** From the choice of the window on: [k] and [b] are the state and the buffer
    after acknowledgements and probes. *)
Definition flush_data (wnd : Z) (k : ikcpcb) (b : outbuf) : ikcpcb * list (list byte) :=
  let cwnd := flush_window k in
  let k := flush_admit k in
  let resent := flush_resent k in
  let fs := flush_segs k wnd resent (flush_rtomin k) (k_snd_buf k)
              (mkFlush b 0 false (k_xmit k) (k_state k)) in
  let f := snd fs in
  let k := set_snd_buf (fst fs) (set_xmit (fl_xmit f) (set_state (fl_state f) k)) in
  let out := ikcp_output (ob_ptr (fl_out f)) (ob_out (fl_out f)) in
  (flush_cwnd k cwnd resent (fl_change f) (fl_lost f), out).

Definition ikcp_flush (k : ikcpcb) : ikcpcb * list (list byte) :=
  if k_updated k =? 0 then (k, [])
  else
    let r := flush_control k in
    flush_data (u32 (ikcp_wnd_unused k)) (fst r) (snd r).

(** ** The update clock *)

Definition ikcp_update (k : ikcpcb) (current : Z) : ikcpcb * list (list byte) :=
  let k := set_current current k in
  let k := if k_updated k =? 0 then set_ts_flush (k_current k) (set_updated 1 k) else k in
  let slap := itimediff (k_current k) (k_ts_flush k) in
  let jump := (10000 <=? slap) || (slap <? -10000) in
  let k := if jump then set_ts_flush (k_current k) k else k in
  let slap := if jump then 0 else slap in
  if 0 <=? slap then
    let k := set_ts_flush (u32 (k_ts_flush k + k_interval k)) k in
    let k := if 0 <=? itimediff (k_current k) (k_ts_flush k)
             then set_ts_flush (u32 (k_current k + k_interval k)) k else k in
    ikcp_flush k
  else (k, []).

(** The loop of [ikcp_check]: [None] is the early [return current]. *)
Fixpoint check_loop (current : Z) (p : list IKCPSEG) (tm_packet : Z) : option Z :=
  match p with
  | [] => Some tm_packet
  | seg :: p =>
      let diff := itimediff (sg_resendts seg) current in
      if diff <=? 0 then None
      else check_loop current p (if diff <? tm_packet then diff else tm_packet)
  end.

Definition ikcp_check (k : ikcpcb) (current : Z) : Z :=
  let ts_flush := k_ts_flush k in
  if k_updated k =? 0 then current
  else
    let d := itimediff current ts_flush in
    let ts_flush := if (10000 <=? d) || (d <? -10000) then current else ts_flush in
    if 0 <=? itimediff current ts_flush then current
    else
      let tm_flush := itimediff ts_flush current in
      match check_loop current (k_snd_buf k) 2147483647 with
      | None => current
      | Some tm_packet =>
          let minimal := u32 (if tm_packet <? tm_flush then tm_packet else tm_flush) in
          let minimal := if k_interval k <=? minimal then k_interval k else minimal in
          u32 (current + minimal)
      end.
