(* ===== verification/KcpRecvFacts.v ===== *)
(** * KCP receive side: the reordering invariant

    The well-formedness of [rcv_buf]/[rcv_queue] under arbitrary input, and
    the functional specification of [ikcp_parse_data], [ikcp_recv] and
    [ikcp_peeksize]. *)

From Stdlib Require Import Sorting.Sorted.
From S2P Require Import Prelude KcpTypes KcpRecv.

(** ** Sorted sequences of sequence numbers *)

(** [before base a b]: [a] precedes [b] in the half-space ahead of [base]. *)
Definition before (base : Z) (a b : IKCPSEG) : Prop :=
  off base (sg_sn a) < off base (sg_sn b).

Definition ahead (base : Z) (s : IKCPSEG) : Prop :=
  in_u 32 (sg_sn s) /\ off base (sg_sn s) < 2147483648.

(** [l] holds the segments [nxt], [nxt + 1], ... in order. *)
Definition consecutive (nxt : Z) (l : list IKCPSEG) : Prop :=
  forall i s, l !! i = Some s -> sg_sn s = u32 (nxt + Z.of_nat i).

(** The receive side of a control block, whatever its peer sends. *)
Record rcv_wf (k : ikcpcb) : Prop := {
  rw_nxt : in_u 32 (k_rcv_nxt k);
  rw_wnd : 0 <= k_rcv_wnd k < 2147483648;
  rw_ahead : Forall (ahead (k_rcv_nxt k)) (k_rcv_buf k);
  rw_sorted : StronglySorted (before (k_rcv_nxt k)) (k_rcv_buf k);
  rw_nbuf : k_nrcv_buf k = zlen (k_rcv_buf k);
  rw_nque : k_nrcv_que k = zlen (k_rcv_queue k);
  rw_que : zlen (k_rcv_queue k) <= 2147483648
}.

Lemma consecutive_nil nxt : consecutive nxt [].
Proof. intros i s H. rewrite lookup_nil in H. discriminate. Qed.

Lemma consecutive_cons nxt s l :
  sg_sn s = u32 nxt -> consecutive (u32 (nxt + 1)) l -> consecutive nxt (s :: l).
Proof.
  intros Hs Hl [|i] x Hx; cbn in Hx.
  - injection Hx as <-. rewrite Hs. f_equal. lia.
  - rewrite (Hl _ _ Hx). zwrap.
Qed.

(** ** Moving ready segments *)

Definition stuck (wnd : Z) (r : rcv_side) : Prop :=
  match rs_buf r with
  | [] => True
  | s :: _ => sg_sn s <> rs_nxt r \/ wnd <= rs_nque r
  end.

(** The cases where nothing moves. *)
Ltac move_none :=
  match goal with |- exists _ _, ?b = _ /\ _ => exists [], b end;
  cbn; rewrite app_nil_r; split; [reflexivity|]; split; [apply consecutive_nil|];
  repeat split; auto; try lia;
  match goal with |- ?n = _ => change (Z.of_nat 0) with 0;
    rewrite Z.add_0_r, wrap_id; auto end.

Lemma move_ready_spec wnd buf que nbuf nque nxt :
  in_u 32 nxt -> zlen buf <= nbuf < 4294967296 ->
  0 <= nque <= 2147483648 -> wnd < 2147483648 ->
  exists mv rest,
    buf = mv ++ rest /\ consecutive nxt mv /\
    let r := move_ready wnd buf que nbuf nque nxt in
    rs_buf r = rest /\ rs_que r = que ++ mv /\ rs_nbuf r = nbuf - zlen mv /\
    rs_nque r = nque + zlen mv /\ rs_nque r <= 2147483648 /\
    rs_nxt r = u32 (nxt + zlen mv) /\ stuck wnd r.
Proof.
  revert que nbuf nque nxt. induction buf as [|s buf IH]; intros que nbuf nque nxt Hn Hb Hq Hw.
  { move_none. }
  cbn [move_ready length] in *.
  destruct (Z.eqb_spec (sg_sn s) nxt) as [Hs|Hs]; cbn [andb]; [|move_none].
  destruct (Z.ltb_spec nque wnd) as [Hlt|Hge]; [|move_none].
  destruct (IH (que ++ [s]) (u32 (nbuf - 1)) (u32 (nque + 1)) (u32 (nxt + 1)))
    as (mv & rest & -> & Hc & Hr); try zwrap.
  exists (s :: mv), rest. split; [reflexivity|]. split.
  { apply consecutive_cons; auto. rewrite Hs, wrap_id; auto. }
  cbn zeta in *. destruct Hr as (-> & -> & -> & -> & Hle & -> & Hst).
  rewrite <- app_assoc. cbn [app length]. repeat split; auto; clear Hc Hst IH.
  all: rewrite ?length_app in *; zwrap.
Qed.

Lemma sorted_app_l {A} (R : A -> A -> Prop) l k :
  StronglySorted R (l ++ k) -> StronglySorted R k.
Proof. induction l; cbn; auto. intros H. inversion H; auto. Qed.

Lemma sorted_app_rel {A} (R : A -> A -> Prop) l k a b :
  StronglySorted R (l ++ k) -> a ∈ l -> b ∈ k -> R a b.
Proof.
  induction l as [|x l IH]; cbn; intros H Ha Hb; [inversion Ha|].
  inversion H as [|? ? Hs Hf]; subst. apply elem_of_cons in Ha as [->|Ha]; auto.
  rewrite Forall_forall in Hf. apply Hf, elem_of_app. auto.
Qed.

Lemma elem_of_rev {A} (l : list A) x : x ∈ rev l <-> x ∈ l.
Proof. rewrite !list_elem_of_In. symmetry. apply in_rev. Qed.

Lemma sorted_app_fst {A} (R : A -> A -> Prop) l k :
  StronglySorted R (l ++ k) -> StronglySorted R l.
Proof.
  induction l as [|x l IH]; cbn; intros H; [constructor|].
  inversion H as [|? ? Hs Hf]; subst. constructor; auto.
  apply Forall_app in Hf. tauto.
Qed.

Lemma sorted_app_intro {A} (R : A -> A -> Prop) l k :
  StronglySorted R l -> StronglySorted R k ->
  (forall a b, a ∈ l -> b ∈ k -> R a b) -> StronglySorted R (l ++ k).
Proof.
  induction l as [|x l IH]; cbn; intros Hl Hk H; auto.
  inversion Hl as [|? ? Hs Hf]; subst. constructor.
  - apply IH; auto. intros; apply H; auto; apply elem_of_cons; auto.
  - rewrite Forall_app. split; auto. rewrite Forall_forall. intros y Hy.
    apply H; auto. apply elem_of_cons. auto.
Qed.

Lemma sorted_impl {A} (R S : A -> A -> Prop) l :
  (forall a b, a ∈ l -> b ∈ l -> R a b -> S a b) ->
  StronglySorted R l -> StronglySorted S l.
Proof.
  induction l as [|x l IH]; intros HRS H; constructor; inversion H as [|? ? Hs Hf]; subst.
  - apply IH; auto. intros; apply HRS; auto; apply elem_of_cons; auto.
  - rewrite Forall_forall in *. intros y Hy. apply HRS; auto; apply elem_of_cons; auto.
Qed.

(** A sorted buffer ahead of [base] cannot be longer than the half-space. *)
Lemma sorted_length base l lo :
  Forall (ahead base) l -> StronglySorted (before base) l ->
  Forall (fun s => lo <= off base (sg_sn s)) l -> zlen l <= Z.max 0 (2147483648 - lo).
Proof.
  revert lo. induction l as [|s l IH]; intros lo Ha Hs Hl; cbn [length]; [lia|].
  inversion Ha as [|? ? [_ Hlt] Ha']; inversion Hs as [|? ? Hs' Hf]; inversion Hl; subst.
  specialize (IH (off base (sg_sn s) + 1) Ha' Hs').
  assert (zlen l <= Z.max 0 (2147483648 - (off base (sg_sn s) + 1))); [|lia].
  apply IH. rewrite Forall_forall in *. intros x Hx. specialize (Hf x Hx).
  unfold before in Hf. lia.
Qed.

Lemma rcv_buf_bound k : rcv_wf k -> 0 <= k_nrcv_buf k <= 2147483648.
Proof.
  intros []. pose proof (sorted_length _ _ 0 rw_ahead0 rw_sorted0) as H.
  rewrite rw_nbuf0. enough (zlen (k_rcv_buf k) <= Z.max 0 (2147483648 - 0)) by lia.
  apply H. rewrite Forall_forall. intros. apply off_range.
Qed.

(** The first [i] segments of a sorted consecutive run sit at offsets 0, 1, ... *)
Lemma consecutive_off base l i s :
  in_u 32 base -> zlen l <= 2147483648 ->
  consecutive base l -> l !! i = Some s -> off base (sg_sn s) = Z.of_nat i.
Proof.
  intros Hb Hl Hc Hi. rewrite (Hc i s Hi). apply off_same.
  apply lookup_lt_Some in Hi. unfold in_u. zpow. lia.
Qed.

(** Moving a consecutive prefix out of a sorted buffer keeps the rest sorted
    ahead of the new [rcv_nxt]. *)
Lemma sorted_advance base mv rest :
  in_u 32 base -> Forall (ahead base) (mv ++ rest) ->
  StronglySorted (before base) (mv ++ rest) -> consecutive base mv ->
  Forall (ahead (u32 (base + zlen mv))) rest /\
  StronglySorted (before (u32 (base + zlen mv))) rest.
Proof.
  intros Hb Ha Hs Hc.
  assert (zlen mv <= 2147483648) as Hlen.
  { pose proof (sorted_length base (mv ++ rest) 0 Ha Hs) as H.
    rewrite length_app in H. enough (Z.of_nat (length mv + length rest) <= Z.max 0 (2147483648 - 0)) by lia.
    apply H. rewrite Forall_forall. intros. apply off_range. }
  assert (forall s, s ∈ rest -> zlen mv <= off base (sg_sn s)) as Hge.
  { intros s Hin. destruct mv as [|x mv] using rev_ind; [pose proof (off_range base (sg_sn s)); cbn; lia|].
    clear IHmv. rewrite length_app in *. cbn [length] in *.
    assert (before base x s) as Hx.
    { apply (sorted_app_rel _ _ _ x s Hs); auto. apply elem_of_app. right. apply list_elem_of_singleton. auto. }
    unfold before in Hx.
    rewrite (consecutive_off base (mv ++ [x]) (length mv) x) in Hx; auto.
    - lia.
    - rewrite length_app. cbn. lia.
    - rewrite lookup_app_r, Nat.sub_diag by lia. reflexivity. }
  assert (forall s, s ∈ rest -> off (u32 (base + zlen mv)) (sg_sn s) = off base (sg_sn s) - zlen mv) as Hoff.
  { intros s Hin. apply off_advance. specialize (Hge s Hin). lia. }
  apply Forall_app in Ha as [_ Ha]. apply sorted_app_l in Hs.
  split.
  - rewrite Forall_forall in *. intros s Hin. destruct (Ha s Hin). split; auto.
    rewrite Hoff by auto. lia.
  - apply (sorted_impl (before base)); auto. unfold before. intros a b Ha' Hb' Hab.
    rewrite !Hoff by auto. lia.
Qed.

(** [rcv_move], in terms of what it moves. *)
Lemma rcv_move_spec k :
  rcv_wf k ->
  rcv_wf (rcv_move k) /\ exists mv,
    k_rcv_buf k = mv ++ k_rcv_buf (rcv_move k) /\
    consecutive (k_rcv_nxt k) mv /\
    k_rcv_queue (rcv_move k) = k_rcv_queue k ++ mv /\
    k_rcv_nxt (rcv_move k) = u32 (k_rcv_nxt k + zlen mv) /\
    match k_rcv_buf (rcv_move k) with
    | [] => True
    | s :: _ => sg_sn s <> k_rcv_nxt (rcv_move k) \/ k_rcv_wnd k <= k_nrcv_que (rcv_move k)
    end.
Proof.
  intros Hwf. pose proof (rcv_buf_bound k Hwf) as Hbb. destruct Hwf.
  unfold rcv_move. cbv zeta. kred.
  destruct (move_ready_spec (k_rcv_wnd k) (k_rcv_buf k) (k_rcv_queue k) (k_nrcv_buf k)
              (k_nrcv_que k) (k_rcv_nxt k)) as (mv & rest & Hb & Hc & Hr); auto; try lia.
  cbn zeta in Hr. set (r := move_ready _ _ _ _ _ _) in *. clearbody r.
  destruct Hr as (Hr1 & Hr2 & Hr3 & Hr4 & Hr5 & Hr6 & Hst).
  rewrite Hb in rw_ahead0, rw_sorted0.
  destruct (sorted_advance _ _ _ rw_nxt0 rw_ahead0 rw_sorted0 Hc) as [Ha Hs].
  split.
  - constructor; kred; auto.
    + rewrite Hr6. exact (wrap_range 32 _ ltac:(lia)).
    + rewrite Hr6, Hr1. auto.
    + rewrite Hr6, Hr1. auto.
    + rewrite Hr3, Hr1, rw_nbuf0, Hb, length_app. lia.
    + rewrite Hr4, Hr2, rw_nque0, length_app. lia.
    + rewrite Hr2, length_app. lia.
  - exists mv. rewrite Hr1, Hr2, Hr6. repeat split; auto.
    unfold stuck in Hst. rewrite Hr1, Hr6 in Hst. exact Hst.
Qed.

(** ** Placing a new segment *)

Lemma find_place_spec base sn bef aft :
  in_u 32 sn -> off base sn < 2147483648 ->
  Forall (ahead base) bef -> StronglySorted (before base) (rev bef) ->
  Forall (fun s => off base sn < off base (sg_sn s)) aft ->
  let p := find_place sn bef aft in
  rev bef ++ aft = rev (pl_before p) ++ pl_after p /\
  (if pl_repeat p then Exists (fun s => sg_sn s = sn) bef
   else Forall (fun s => off base (sg_sn s) < off base sn) (pl_before p)
        /\ Forall (fun s => off base sn < off base (sg_sn s)) (pl_after p)).
Proof.
  intros Hsn Hoff. revert aft. induction bef as [|s bef IH]; intros aft Ha Hs Haft; cbn.
  { auto. }
  apply Forall_cons in Ha as [[Hu Hlt] Ha]. cbn [rev] in Hs.
  destruct (Z.eqb_spec (sg_sn s) sn) as [<-|Hne]; cbn.
  { split; [reflexivity|]. constructor. reflexivity. }
  rewrite (itimediff_off base) by auto.
  destruct (Z.ltb_spec 0 (off base sn - off base (sg_sn s))) as [Hgt|Hle]; cbn.
  - split; [reflexivity|]. split; auto. constructor; [lia|].
    rewrite Forall_forall. intros x Hx.
    assert (before base x s) as Hb; [|unfold before in Hb; lia].
    apply (sorted_app_rel _ (rev bef) [s]); auto.
    + apply elem_of_rev. auto.
    + apply list_elem_of_singleton. reflexivity.
  - assert (off base (sg_sn s) <> off base sn) as Hd.
    { intros He. apply Hne. apply (off_inj base); auto. }
    rewrite <- app_assoc. cbn.
    destruct (IH (s :: aft)) as [-> Hp].
    + auto.
    + apply (sorted_app_fst _ _ [s]). auto.
    + constructor; auto. lia.
    + split; auto. destruct (pl_repeat _); auto.
Qed.

(** Whether [ikcp_parse_data] looks for a place at all. *)
Definition in_window (k : ikcpcb) (sn : Z) : bool :=
  (itimediff sn (u32 (k_rcv_nxt k + k_rcv_wnd k)) <? 0)
  && (0 <=? itimediff sn (k_rcv_nxt k)).

(** The segments [ikcp_parse_data] holds after looking for a place. *)
Definition place_seg (k : ikcpcb) (newseg : IKCPSEG) : ikcpcb :=
  let p := find_place (sg_sn newseg) (rev (k_rcv_buf k)) [] in
  if pl_repeat p then k
  else set_rcv_buf (rev (pl_before p) ++ newseg :: pl_after p)
         (set_nrcv_buf (u32 (k_nrcv_buf k + 1)) k).

Lemma parse_data_place k newseg :
  ikcp_parse_data k newseg =
  if in_window k (sg_sn newseg) then rcv_move (place_seg k newseg) else k.
Proof.
  unfold ikcp_parse_data, in_window, place_seg. cbv zeta.
  repeat zcase; cbn; auto; lia.
Qed.

Lemma in_window_off k sn :
  rcv_wf k -> in_u 32 sn -> in_window k sn = true ->
  off (k_rcv_nxt k) sn < k_rcv_wnd k.
Proof.
  intros [] Hsn H. apply andb_prop in H as [H1 H2].
  apply Z.ltb_lt in H1. apply Z.leb_le in H2. unfold itimediff, off in *. zwrap.
Qed.

Lemma place_seg_spec k newseg :
  rcv_wf k -> in_u 32 (sg_sn newseg) -> in_window k (sg_sn newseg) = true ->
  let k' := place_seg k newseg in
  rcv_wf k' /\ k_rcv_nxt k' = k_rcv_nxt k /\ k_rcv_queue k' = k_rcv_queue k /\
  k_rcv_wnd k' = k_rcv_wnd k /\
  if decide (Exists (fun s => sg_sn s = sg_sn newseg) (k_rcv_buf k)) then k' = k
  else forall s, s ∈ k_rcv_buf k' <-> s ∈ k_rcv_buf k \/ s = newseg.
Proof.
  intros Hwf Hsn Hwin k'. pose proof (rcv_buf_bound k Hwf) as Hbb.
  pose proof (in_window_off k _ Hwf Hsn Hwin) as Hoff.
  pose proof Hwf as [Hn Hw Ha Hs Hnb Hnq Hq].
  destruct (find_place_spec (k_rcv_nxt k) (sg_sn newseg) (rev (k_rcv_buf k)) [])
    as [Hsplit Hp]; auto; try lia.
  { apply Forall_rev. auto. }
  { rewrite rev_involutive. auto. }
  rewrite rev_involutive, app_nil_r in Hsplit. subst k'. unfold place_seg. cbv zeta.
  set (p := find_place _ _ _) in *. clearbody p. destruct (pl_repeat p).
  - repeat (split; [auto|]). destruct (decide _) as [|Hno]; auto.
    exfalso. apply Hno. rewrite Exists_exists in *. destruct Hp as (s & Hin & He).
    exists s. split; auto. rewrite elem_of_rev in Hin. auto.
  - destruct Hp as [Hb Haft]. kred. rewrite Forall_forall in Hb, Haft.
    rewrite Hsplit in Ha. apply Forall_app in Ha as [Ha1 Ha2].
    assert (Hnew : ahead (k_rcv_nxt k) newseg) by (split; auto; lia).
    rewrite Hsplit in Hs.
    split; [constructor; kred; auto|].
    + apply Forall_app; auto.
    + apply sorted_app_intro; [eapply sorted_app_fst; eauto| |].
      * constructor; [eapply sorted_app_l; eauto|]. rewrite Forall_forall. exact Haft.
      * intros a b Hia Hib. rewrite elem_of_rev in Hia.
        apply elem_of_cons in Hib as [->|Hib]; [exact (Hb _ Hia)|].
        specialize (Hb _ Hia). specialize (Haft _ Hib). unfold before. lia.
    + assert (zlen (rev (pl_before p) ++ newseg :: pl_after p) = k_nrcv_buf k + 1) as ->.
      { rewrite Hnb, Hsplit, !length_app. cbn. lia. }
      apply wrap_id. unfold in_u. zpow. lia.
    + repeat (split; [auto|]). destruct (decide _) as [Hyes|_].
      * exfalso. rewrite Hsplit, Exists_exists in Hyes.
        destruct Hyes as (s & Hin & He). apply elem_of_app in Hin as [Hin|Hin].
        -- rewrite elem_of_rev in Hin. specialize (Hb _ Hin). rewrite He in Hb. lia.
        -- specialize (Haft _ Hin). rewrite He in Haft. lia.
      * intros s. rewrite Hsplit, !elem_of_app, elem_of_cons. tauto.
Qed.

(** A segment is accepted when it is inside the receive window and its number
    is not buffered yet. *)
Definition accepted (k : ikcpcb) (seg : IKCPSEG) : Prop :=
  in_window k (sg_sn seg) = true /\
  ~ Exists (fun s => sg_sn s = sg_sn seg) (k_rcv_buf k).

(** Functional specification of [ikcp_parse_data]. *)
Lemma parse_data_functional k seg :
  rcv_wf k -> in_u 32 (sg_sn seg) ->
  let k' := ikcp_parse_data k seg in
  rcv_wf k' /\ exists mv,
    k_rcv_queue k' = k_rcv_queue k ++ mv /\
    consecutive (k_rcv_nxt k) mv /\
    k_rcv_nxt k' = u32 (k_rcv_nxt k + zlen mv) /\
    (forall s, s ∈ mv ++ k_rcv_buf k' <-> s ∈ k_rcv_buf k \/ (accepted k seg /\ s = seg)).
Proof.
  intros Hwf Hsn. cbv zeta. rewrite parse_data_place.
  destruct (in_window k (sg_sn seg)) eqn:Hw.
  - destruct (place_seg_spec k seg Hwf Hsn Hw) as (Hwf' & Hn & Hq & _ & Hmem).
    destruct (rcv_move_spec _ Hwf') as (Hwf2 & mv & Hb & Hc & Hq' & Hn' & _).
    rewrite Hn in *. rewrite Hq in *. split; auto. exists mv. do 3 (split; [auto|]).
    intros s. rewrite <- Hb. unfold accepted. destruct (decide _) as [Hy|Hno].
    + rewrite Hmem. tauto.
    + rewrite Hmem. tauto.
  - split; auto. exists []. rewrite app_nil_r. do 2 (split; [auto using consecutive_nil|]). split.
    + destruct Hwf. cbn. rewrite Z.add_0_r, wrap_id; auto.
    + intros s. cbn. unfold accepted. rewrite Hw. split; auto. intros [?|[[? _] _]]; auto; discriminate.
Qed.

(** ** Reassembly *)

(** The segments of the message at the head of the queue: up to and including
    the first one whose fragment number is zero. *)
Fixpoint msg_span (q : list IKCPSEG) : list IKCPSEG :=
  match q with
  | [] => []
  | s :: q => s :: (if sg_frg s =? 0 then [] else msg_span q)
  end.

Definition payload (s : IKCPSEG) : list byte := ztake (sg_len s) (sg_data s).

Fixpoint span_len (q : list IKCPSEG) : Z :=
  match q with [] => 0 | s :: q => sg_len s + span_len q end.

Lemma s32_s32_add a b : s32 (s32 a + b) = s32 (a + b).
Proof. apply swrap_add. lia. Qed.

Lemma peek_loop_span q n : s32 (peek_loop q (s32 n)) = s32 (n + span_len (msg_span q)).
Proof.
  revert n. induction q as [|s q IH]; intros n; cbn [peek_loop msg_span].
  - cbn. rewrite Z.add_0_r. pose proof (s32_s32_add n 0). rewrite !Z.add_0_r in *. auto.
  - rewrite s32_s32_add. destruct (sg_frg s =? 0); cbn.
    + rewrite Z.add_0_r. pose proof (s32_s32_add (n + sg_len s) 0).
      rewrite !Z.add_0_r in *. auto.
    + rewrite IH. (apply (f_equal (swrap 32)) || apply (f_equal (wrap 32))); lia.
Qed.

Lemma peek_loop_s32 q n : q <> [] \/ n = s32 n -> peek_loop q n = s32 (peek_loop q n).
Proof.
  revert n. induction q as [|s q IH]; intros n H; cbn [peek_loop]; [tauto|].
  assert (s32 (n + sg_len s) = s32 (s32 (n + sg_len s))) by (rewrite swrap_swrap by lia; reflexivity).
  destruct (sg_frg s =? 0); auto.
Qed.

Lemma recv_merge_span pk q len buf nque :
  len = s32 len ->
  let m := recv_merge pk q len buf nque in
  mg_len m = s32 (len + span_len (msg_span q)) /\
  mg_buf m = buf ++ concat (map payload (msg_span q)) /\
  mg_que m = drop (length (msg_span q)) q /\
  (in_u 32 nque -> mg_nque m = if pk then nque else u32 (nque - zlen (msg_span q))).
Proof.
  revert len buf nque. induction q as [|s q IH]; intros len buf nque Hl; cbn [recv_merge msg_span].
  - cbn. rewrite app_nil_r, Z.add_0_r. repeat split; auto.
    intros. destruct pk; auto. rewrite Z.sub_0_r, wrap_id; auto.
  - destruct (sg_frg s =? 0); cbn.
    + rewrite app_nil_r, Z.add_0_r. repeat split; auto.
    + destruct (IH (s32 (len + sg_len s)) (buf ++ payload s)
                 (if pk then nque else u32 (nque - 1))) as (H1 & H2 & H3 & H4).
      { rewrite swrap_swrap by lia. reflexivity. }
      unfold payload in *. rewrite H1, H2, H3, s32_s32_add, <- app_assoc. repeat split; auto.
      * (apply (f_equal (swrap 32)) || apply (f_equal (wrap 32))); lia.
      * intros Hu. destruct pk; [auto|]. rewrite H4 by (apply wrap_range; lia).
        rewrite wrap_sub. (apply (f_equal (swrap 32)) || apply (f_equal (wrap 32))); lia.
Qed.

(** What [ikcp_peeksize] announces is what the merge loop of [ikcp_recv]
    returns: the [assert] after the loop cannot fail. *)
Lemma peeksize_is_merged k pk :
  0 <= ikcp_peeksize k ->
  mg_len (recv_merge pk (k_rcv_queue k) 0 [] (k_nrcv_que k)) = ikcp_peeksize k.
Proof.
  unfold ikcp_peeksize. destruct (k_rcv_queue k) as [|s q] eqn:Hq; [lia|].
  intros H. destruct (recv_merge_span pk (s :: q) 0 [] (k_nrcv_que k)) as (-> & _); [reflexivity|].
  cbn [msg_span] in *. destruct (sg_frg s =? 0) eqn:Hf.
  - cbn. (apply (f_equal (swrap 32)) || apply (f_equal (wrap 32))); lia.
  - destruct (k_nrcv_que k <? u32 (sg_frg s + 1)); [lia|].
    rewrite peek_loop_s32 by (left; discriminate).
    change 0 with (s32 0) at 2. rewrite peek_loop_span. cbn [msg_span]. rewrite Hf. reflexivity.
Qed.
