(* ===== verification/KcpSendFacts.v ===== *)
(** * KCP send side: fragmentation

    What [ikcp_send] queues: the fragments of a message, their numbering, the
    bytes they carry, and when a message is refused. *)

From S2P Require Import Prelude KcpTypes KcpSend KcpRecvFacts.

(** The fragment numbers [n-1, ..., 1, 0]. *)
Fixpoint countdown (n : nat) : list Z :=
  match n with O => [] | S n => Z.of_nat n :: countdown n end.

(** A queued segment carries the bytes its length announces. *)
Definition seg_full (s : IKCPSEG) : Prop := sg_len s = zlen (sg_data s).

Definition seg_fits (mss : Z) (s : IKCPSEG) : Prop := seg_full s /\ sg_len s <= mss.

Lemma payload_full s : seg_full s -> payload s = sg_data s.
Proof. unfold payload, seg_full. intros ->. apply take_ge. lia. Qed.

Lemma send_fragments_spec mss stream count todo i buffer :
  0 < mss < 2147483648 -> zlen buffer <= Z.of_nat todo * mss ->
  i + Z.of_nat todo = count -> 0 <= i -> count < 2147483648 ->
  let l := send_fragments mss stream count todo i (zlen buffer) buffer in
  map sg_frg l = (if stream =? 0 then countdown todo else replicate todo 0) /\
  concat (map sg_data l) = buffer /\ Forall (seg_fits mss) l.
Proof.
  intros Hm. revert i buffer. induction todo as [|todo IH]; intros i buffer Hl Hi H0 Hc;
    cbn [send_fragments countdown replicate].
  { destruct buffer; cbn in *; [|lia]. destruct (stream =? 0); auto. }
  rewrite (swrap_id 32) by (zpow; lia).
  set (size := if mss <? zlen buffer then mss else zlen buffer).
  assert (Hsz : 0 <= size <= mss /\ size <= zlen buffer) by (subst size; zcase; lia).
  assert (Hrest : zlen buffer - size = zlen (zdrop size buffer)) by (rewrite length_drop; lia).
  rewrite Hrest. destruct (IH (i + 1) (zdrop size buffer)) as (H1 & H2 & H3); try lia.
  { rewrite <- Hrest. subst size. zcase; nia. }
  cbn zeta in *. cbn [map concat]. rewrite H1, H2. unfold ikcp_segment_new. kred.
  assert (Hd : (if 0 <? zlen buffer then ztake size buffer
                else replicate (Z.to_nat size) Byte.x00) = ztake size buffer).
  { zcase; auto. replace size with 0 by lia. reflexivity. }
  rewrite Hd. split; [|split].
  - destruct (stream =? 0); [|reflexivity]. f_equal. rewrite wrap_id; [lia|].
    unfold in_u. zpow. lia.
  - apply take_drop.
  - constructor; auto. unfold seg_fits, seg_full. kred. rewrite ?Hd.
    rewrite wrap_id by (unfold in_u; zpow; lia). rewrite length_take. lia.
Qed.

(** The number of fragments of a message. *)
Definition frag_count (mss len : Z) : Z :=
  if len <=? mss then 1 else (len + mss - 1) / mss.

Lemma frag_count_enough mss len :
  0 < mss -> 0 <= len -> len <= frag_count mss len * mss.
Proof. unfold frag_count. intros. zcase; [lia|]. Z.div_mod_to_equations. nia. Qed.

Lemma frag_count_pos mss len : 0 < mss -> 0 < frag_count mss len.
Proof. unfold frag_count. intros. zcase; [lia|]. Z.div_mod_to_equations. nia. Qed.

Lemma frag_count_le mss len : 0 < mss -> 0 <= len -> frag_count mss len <= len + 1.
Proof. unfold frag_count. intros. zcase; [lia|]. Z.div_mod_to_equations. nia. Qed.

(** The fragments of a message in message mode. *)
Definition msg_frags (mss : Z) (msg : list byte) : list IKCPSEG :=
  let count := frag_count mss (zlen msg) in
  send_fragments mss 0 count (Z.to_nat count) 0 (zlen msg) msg.

Definition mss_ok (mss : Z) : Prop := 0 < mss < 1073741824.

Lemma set_snd_queue_id k : set_snd_queue (k_snd_queue k) k = k.
Proof. destruct k. reflexivity. Qed.

(** [ikcp_send] in message mode: a message of 128 fragments or more is
    refused and changes nothing; any other is queued as its fragments. *)
Lemma send_message_mode k msg :
  k_stream k = 0 -> mss_ok (k_mss k) -> zlen msg < 1073741824 ->
  let count := frag_count (k_mss k) (zlen msg) in
  ikcp_send k msg (zlen msg) =
    if IKCP_WND_RCV <=? count then (-2, k)
    else (0, set_snd_queue (k_snd_queue k ++ msg_frags (k_mss k) msg)
               (set_nsnd_que (u32 (k_nsnd_que k + count)) k)).
Proof.
  unfold mss_ok. intros Hs Hm Hlen. unfold ikcp_send, msg_frags, frag_count. rewrite Hs.
  destruct (Z.ltb_spec (zlen msg) 0); [lia|]. cbn [fst snd Z.eqb].
  rewrite set_snd_queue_id, Hs. cbn [negb andb Z.eqb]. rewrite Z.sub_0_r. change (zdrop 0 msg) with msg.
  rewrite (swrap_id 32) by (zpow; lia).
  destruct (Z.leb_spec (zlen msg) (k_mss k)); [reflexivity|].
  rewrite (wrap_id 32 (zlen msg + k_mss k)) by (unfold in_u; zpow; lia).
  rewrite (wrap_id 32) by (unfold in_u; zpow; lia).
  assert (2 <= (zlen msg + k_mss k - 1) / k_mss k < 2147483648).
  { Z.div_mod_to_equations. nia. }
  rewrite (swrap_id 32) by (zpow; lia).
  destruct (Z.eqb_spec ((zlen msg + k_mss k - 1) / k_mss k) 0); [lia|]. reflexivity.
Qed.

Lemma msg_frags_spec mss msg :
  mss_ok mss -> zlen msg < 1073741824 ->
  let l := msg_frags mss msg in
  map sg_frg l = countdown (Z.to_nat (frag_count mss (zlen msg))) /\
  concat (map sg_data l) = msg /\ Forall (seg_fits mss) l.
Proof.
  unfold mss_ok, msg_frags. intros Hm Hl. pose proof (frag_count_pos mss (zlen msg) ltac:(lia)).
  pose proof (frag_count_le mss (zlen msg) ltac:(lia) ltac:(lia)).
  apply (send_fragments_spec mss 0); try lia.
  rewrite Z2Nat.id by lia. apply frag_count_enough; lia.
Qed.

(** ** Both modes *)

(** The count the code computes is the number of fragments. *)
Lemma count_frags mss len :
  mss_ok mss -> 0 <= len < 1073741824 ->
  (if len <=? s32 mss then 1 else s32 (u32 (u32 (len + mss) - 1) / mss)) = frag_count mss len.
Proof.
  unfold mss_ok, frag_count. intros Hm Hl. rewrite (swrap_id 32 mss) by (zpow; lia).
  destruct (Z.leb_spec len mss); [reflexivity|].
  rewrite (wrap_id 32 (len + mss)) by (unfold in_u; zpow; lia).
  rewrite (wrap_id 32) by (unfold in_u; zpow; lia). apply (swrap_id 32). { lia. }
  zpow. Z.div_mod_to_equations. nia.
Qed.

(** What [ikcp_send] appends to the last queued segment in stream mode. *)
Definition send_append (k : ikcpcb) (msg : list byte) : list IKCPSEG * Z :=
  if k_stream k =? 0 then (k_snd_queue k, 0)
  else stream_append (k_mss k) (k_snd_queue k) msg (zlen msg).

Lemma stream_append_spec mss que msg :
  mss_ok mss -> zlen msg < 1073741824 -> Forall (seg_fits mss) que ->
  let ap := stream_append mss que msg (zlen msg) in
  0 <= snd ap <= zlen msg /\ zlen (fst ap) = zlen que /\ Forall (seg_fits mss) (fst ap) /\
  concat (map sg_data (fst ap)) = concat (map sg_data que) ++ ztake (snd ap) msg.
Proof.
  unfold mss_ok. intros Hm Hl Hq. unfold stream_append.
  destruct (last que) as [old|] eqn:El.
  2: { cbn. rewrite app_nil_r. repeat split; auto; lia. }
  destruct (Z.ltb_spec (sg_len old) mss) as [Hlt|]; [|cbn; rewrite app_nil_r; repeat split; auto; lia].
  apply last_Some in El as [q ->]. apply Forall_app in Hq as [Hq Hold].
  apply Forall_cons in Hold as [[Hf Hle] _]. unfold seg_full in Hf.
  rewrite removelast_last. rewrite (swrap_id 32 (mss - sg_len old)) by (zpow; lia).
  set (ext := if zlen msg <? mss - sg_len old then zlen msg else mss - sg_len old).
  assert (He : 0 <= ext <= zlen msg /\ sg_len old + ext <= mss) by (subst ext; zcase; lia).
  clearbody ext. cbn [fst snd].
  assert (Hd : ztake (sg_len old) (sg_data old) = sg_data old) by (apply take_ge; lia).
  rewrite Hd. unfold ikcp_segment_new. kred.
  split; [lia|]. rewrite !length_app. split; [reflexivity|]. split.
  - apply Forall_app. split; auto. constructor; auto. unfold seg_fits, seg_full. kred.
    rewrite wrap_id by (unfold in_u; zpow; lia). rewrite length_app, length_take. lia.
  - rewrite !map_app, !concat_app. cbn [map concat]. kred. rewrite !app_nil_r, app_assoc. reflexivity.
Qed.

Lemma send_append_spec k msg :
  mss_ok (k_mss k) -> zlen msg < 1073741824 -> Forall (seg_fits (k_mss k)) (k_snd_queue k) ->
  let ap := send_append k msg in
  0 <= snd ap <= zlen msg /\ zlen (fst ap) = zlen (k_snd_queue k) /\
  Forall (seg_fits (k_mss k)) (fst ap) /\ (k_stream k = 0 -> ap = (k_snd_queue k, 0)) /\
  concat (map sg_data (fst ap)) = concat (map sg_data (k_snd_queue k)) ++ ztake (snd ap) msg.
Proof.
  intros Hm Hl Hq. unfold send_append. destruct (Z.eqb_spec (k_stream k) 0) as [Hs|Hs].
  - cbn. rewrite app_nil_r. repeat split; auto; lia.
  - destruct (stream_append_spec (k_mss k) (k_snd_queue k) msg Hm Hl Hq) as (H1 & H2 & H3 & H4).
    repeat split; auto; try lia; contradiction.
Qed.

(** [ikcp_send] after the append. *)
Lemma send_any k msg :
  mss_ok (k_mss k) -> zlen msg < 1073741824 -> Forall (seg_fits (k_mss k)) (k_snd_queue k) ->
  let ap := send_append k msg in
  let rest := zdrop (snd ap) msg in
  let count := frag_count (k_mss k) (zlen rest) in
  ikcp_send k msg (zlen msg) =
    if negb (k_stream k =? 0) && (zlen rest <=? 0) then (0, set_snd_queue (fst ap) k)
    else if IKCP_WND_RCV <=? count then (-2, set_snd_queue (fst ap) k)
    else (0, set_snd_queue (fst ap ++ send_fragments (k_mss k) (k_stream k) count (Z.to_nat count) 0
                                        (zlen rest) rest)
               (set_nsnd_que (u32 (k_nsnd_que k + count)) k)).
Proof.
  intros Hm Hl Hq. cbv zeta.
  destruct (send_append_spec k msg Hm Hl Hq) as (H1 & _ & _ & _ & _).
  unfold ikcp_send. destruct (Z.ltb_spec (zlen msg) 0); [lia|]. cbv zeta.
  change (if k_stream k =? 0 then (k_snd_queue k, 0)
          else stream_append (k_mss k) (k_snd_queue k) msg (zlen msg)) with (send_append k msg).
  set (ap := send_append k msg) in *. clearbody ap. kred.
  replace (zlen msg - snd ap) with (zlen (zdrop (snd ap) msg)) by (rewrite length_drop; lia).
  rewrite count_frags by (auto; rewrite length_drop; lia).
  destruct (negb _ && _); [reflexivity|]. destruct (IKCP_WND_RCV <=? _); [reflexivity|].
  unfold mss_ok in Hm. pose proof (frag_count_pos (k_mss k) (zlen (zdrop (snd ap) msg)) ltac:(lia)).
  destruct (Z.eqb_spec (frag_count (k_mss k) (zlen (zdrop (snd ap) msg))) 0); [lia|]. reflexivity.
Qed.

(** The bytes queued: what [ikcp_send] was given, all of it when it returns 0. *)
Lemma send_bytes k msg :
  mss_ok (k_mss k) -> zlen msg < 1073741824 -> Forall (seg_fits (k_mss k)) (k_snd_queue k) ->
  k_nsnd_que k = zlen (k_snd_queue k) -> zlen (k_snd_queue k) + 128 < 4294967296 ->
  let r := ikcp_send k msg (zlen msg) in
  let q := k_snd_queue (snd r) in
  exists n, 0 <= n <= zlen msg /\
    concat (map sg_data q) = concat (map sg_data (k_snd_queue k)) ++ ztake n msg /\
    Forall (seg_fits (k_mss k)) q /\ k_nsnd_que (snd r) = zlen q /\
    zlen (k_snd_queue k) <= zlen q < zlen (k_snd_queue k) + 128 /\
    (fst r = 0 /\ n = zlen msg \/ fst r = -2 /\ (k_stream k = 0 -> n = 0)).
Proof.
  intros Hm Hl Hq Hn Hb. cbv zeta. rewrite send_any by auto. cbv zeta.
  destruct (send_append_spec k msg Hm Hl Hq) as (H1 & H2 & H3 & H4 & H5).
  set (ap := send_append k msg) in *. clearbody ap.
  assert (Hr : zlen (zdrop (snd ap) msg) = zlen msg - snd ap) by (rewrite length_drop; lia).
  destruct (negb (k_stream k =? 0) && (zlen (zdrop (snd ap) msg) <=? 0)) eqn:Hc.
  - exists (snd ap). cbn [fst snd]. kred. apply andb_true_iff in Hc as [_ Hc]. apply Z.leb_le in Hc.
    repeat (split; [auto; lia|]). left. split; [auto|lia].
  - unfold mss_ok in Hm. pose proof (frag_count_pos (k_mss k) (zlen (zdrop (snd ap) msg)) ltac:(lia)) as Hp.
    pose proof (frag_count_enough (k_mss k) (zlen (zdrop (snd ap) msg)) ltac:(lia) ltac:(lia)) as He.
    set (count := frag_count _ _) in *. clearbody count.
    unfold IKCP_WND_RCV. destruct (Z.leb_spec 128 count) as [Hge|Hlt]; cbn [fst snd]; kred.
    + exists (snd ap). repeat (split; [auto; lia|]). right. split; auto.
      intros Hs. rewrite (H4 Hs). reflexivity.
    + destruct (send_fragments_spec (k_mss k) (k_stream k) count (Z.to_nat count) 0 (zdrop (snd ap) msg))
        as (F1 & F2 & F3); try lia.
      set (fr := send_fragments _ _ _ _ _ _ _) in *. clearbody fr.
      assert (Hfl : zlen fr = count).
      { apply (f_equal length) in F1. rewrite length_map in F1. rewrite F1.
        destruct (k_stream k =? 0); [|rewrite length_replicate; lia].
        clear -Hp. replace (length (countdown (Z.to_nat count))) with (Z.to_nat count); [lia|].
        induction (Z.to_nat count); cbn; auto. }
      exists (zlen msg). rewrite map_app, concat_app, H5, F2, <- app_assoc, length_app.
      split; [lia|]. split.
      { f_equal. rewrite take_drop. symmetry. apply take_ge. lia. }
      split; [apply Forall_app; auto|]. split; [rewrite wrap_id by (unfold in_u; zpow; lia); lia|].
      split; [lia|]. auto.
Qed.
