(* ===== verification/KcpInputFacts.v ===== *)
(** * KCP input: parsing, termination and effect of a datagram

    The receive loop never reads outside the datagram and always ends; on a
    datagram made of encoded segments it is the fold of [input_seg]; and what
    each acknowledgement operation does to [snd_buf]. *)

From S2P Require Import Prelude KcpTypes KcpRecv KcpInput KcpRecvFacts.
From S2P Require Import KcpSendFacts.

(** ** What an operation leaves alone

    [core] is the part of a control block that decides which bytes are
    delivered; the rest is timing and congestion control. *)

Definition core (k : ikcpcb) :=
  (k_conv k, k_mss k, k_stream k, (k_snd_queue k, k_snd_buf k, k_snd_nxt k),
   (k_rcv_queue k, k_rcv_buf k, k_rcv_nxt k, k_nrcv_buf k, k_nrcv_que k, k_rcv_wnd k),
   (k_ackcount k, k_acklist k)).

Ltac core_case := unfold core; cbv zeta; repeat (case_match; kred); reflexivity.

Lemma update_ack_core k rtt : core (ikcp_update_ack k rtt) = core k.
Proof. reflexivity. Qed.

Lemma shrink_buf_core k : core (ikcp_shrink_buf k) = core k.
Proof. unfold ikcp_shrink_buf. destruct (k_snd_buf k) eqn:E; reflexivity. Qed.

Lemma input_cwnd_core k : core (input_cwnd k) = core k.
Proof. unfold input_cwnd. destruct (_ <? _); reflexivity. Qed.

(** ** The acknowledgement loops *)

Lemma parse_una_spec una p n :
  exists dropped,
    p = dropped ++ fst (parse_una_loop una p n) /\
    Forall (fun s => 0 < itimediff una (sg_sn s)) dropped /\
    (0 <= n < 4294967296 -> snd (parse_una_loop una p n) = u32 (n - zlen dropped)) /\
    match fst (parse_una_loop una p n) with
    | [] => True
    | s :: _ => itimediff una (sg_sn s) <= 0
    end.
Proof.
  revert n. induction p as [|s p IH]; intros n; cbn.
  - exists []. repeat split; auto. intros. cbn. rewrite Z.sub_0_r, wrap_id; auto.
  - destruct (Z.ltb_spec 0 (itimediff una (sg_sn s))) as [H|H].
    + destruct (IH (u32 (n - 1))) as (d & H1 & H2 & H3 & H4).
      exists (s :: d). cbn. split; [congruence|]. split; [constructor; auto|]. split; auto.
      intros Hn. rewrite H3 by (apply wrap_range; lia). rewrite wrap_sub.
      apply (f_equal (wrap 32)). lia.
    + exists []. cbn. repeat split; auto; try lia. intros. rewrite Z.sub_0_r, wrap_id; auto.
Qed.

(** [ikcp_parse_ack] removes at most one segment, and it has number [sn]. *)
Lemma parse_ack_loop_spec sn p n :
  fst (parse_ack_loop sn p n) = p /\ snd (parse_ack_loop sn p n) = n \/
  exists l1 s l2, p = l1 ++ s :: l2 /\ sg_sn s = sn /\
    fst (parse_ack_loop sn p n) = l1 ++ l2 /\ snd (parse_ack_loop sn p n) = u32 (n - 1).
Proof.
  induction p as [|s p IH]; cbn; [auto|].
  destruct (Z.eqb_spec sn (sg_sn s)) as [->|Hne]; cbn.
  { right. exists [], s, p. auto. }
  destruct (itimediff sn (sg_sn s) <? 0); cbn; [auto|].
  destruct IH as [[-> ->]|(l1 & x & l2 & -> & Hx & -> & ->)]; [auto|].
  right. exists (s :: l1), x, l2. auto.
Qed.

(** Fast acknowledgement only counts: everything but [fastack] is kept. *)
Definition same_but_fastack (a b : IKCPSEG) : Prop := b = sset_fastack (sg_fastack b) a.

Lemma same_but_fastack_refl s : same_but_fastack s s.
Proof. destruct s. reflexivity. Qed.

Lemma parse_fastack_loop_spec sn p :
  Forall2 same_but_fastack p (parse_fastack_loop sn p).
Proof.
  induction p as [|s p IH]; cbn; [constructor|].
  destruct (itimediff sn (sg_sn s) <? 0).
  { apply Forall2_cons. split; [apply same_but_fastack_refl|].
    clear. induction p; constructor; auto using same_but_fastack_refl. }
  constructor; auto. destruct (sn =? sg_sn s); [apply same_but_fastack_refl|reflexivity].
Qed.

(** ** The receive loop *)

Lemma decode64u_drop data conv rest :
  ikcp_decode64u data = Some (conv, rest) -> zlen rest = zlen data - 8.
Proof.
  intros H. do 8 (destruct data as [|? data]; [discriminate H|]).
  injection H as _ <-. cbn [length]. lia.
Qed.

(** The decoding of a long enough buffer always succeeds. *)
Lemma decode_ok data :
  IKCP_OVERHEAD <= zlen data ->
  exists conv rest h, ikcp_decode64u data = Some (conv, rest) /\
    decode_header conv rest = Some (h, zdrop IKCP_OVERHEAD data) /\ 0 <= h_len h.
Proof.
  intros H. destruct (decode_seg_total data H) as (h & Hd & _). unfold decode_seg in Hd.
  destruct (ikcp_decode64u data) as [[conv rest]|] eqn:E; [|discriminate].
  cbn [mbind option_bind] in Hd. exists conv, rest, h. repeat split; auto.
  unfold decode_header in Hd. repeat match type of Hd with
    | (_ ← ?x; _) = _ => destruct x as [[? ?]|] eqn:?; cbn [mbind option_bind] in Hd; [|discriminate]
    end.
  injection Hd as <- _. cbn.
  match goal with H : ikcp_decode32u ?d = Some (?z, _) |- 0 <= ?z =>
    do 4 (destruct d as [|? d]; [discriminate H|]); cbn [ikcp_decode32u] in H;
    injection H as <- _; apply wrap_range; lia end.
Qed.

(** With one unit of fuel per 28 bytes the loop ends, and every read it makes
    lies inside the datagram. *)
Lemma input_loop_total fuel k a data :
  zlen data < Z.of_nat fuel * IKCP_OVERHEAD ->
  exists r, input_loop fuel k a data (zlen data) = Some r.
Proof.
  unfold IKCP_OVERHEAD.
  revert k a data. induction fuel as [|fuel IH]; intros k a data Hf; [lia|].
  cbn [input_loop]. destruct (Z.ltb_spec (zlen data) IKCP_OVERHEAD) as [Hs|Hs]; [eauto|].
  destruct (decode_ok data Hs) as (conv & rest & h & -> & Hh & Hl). cbn [mbind option_bind].
  destruct (conv =? k_conv k); cbn [negb]; [|eauto]. rewrite Hh. cbn [mbind option_bind].
  assert (Hz : zlen (zdrop IKCP_OVERHEAD data) = zlen data - IKCP_OVERHEAD)
    by (rewrite length_drop; unfold IKCP_OVERHEAD in *; lia).
  destruct (Z.ltb_spec (zlen data - IKCP_OVERHEAD) (h_len h)); cbn [orb]; [eauto|].
  destruct (s32 (h_len h) <? 0); [eauto|]. destruct (known_cmd (h_cmd h)); cbn [negb]; [|eauto].
  unfold read_bytes. rewrite Hz.
  destruct (Z.leb_spec 0 (h_len h)); [|lia].
  destruct (Z.leb_spec (h_len h) (zlen data - IKCP_OVERHEAD)); [|lia].
  cbn [andb mbind option_bind].
  set (k' := fst _). set (a' := snd _). clearbody k' a'.
  replace (zlen data - IKCP_OVERHEAD - h_len h)
    with (zlen (zdrop (h_len h) (zdrop IKCP_OVERHEAD data)))
    by (rewrite length_drop, length_drop; unfold IKCP_OVERHEAD in *; lia).
  apply IH. rewrite !length_drop. unfold IKCP_OVERHEAD in *. lia.
Qed.

(** [ikcp_input] terminates on every datagram without reading outside it. *)
Lemma input_total k data :
  exists r, ikcp_input k (Some data) (zlen data) = Some r.
Proof.
  unfold ikcp_input. destruct (s32 (zlen data) <? IKCP_OVERHEAD); [eauto|].
  destruct (input_loop_total (S (length data)) k (mkScan false 0 0) data) as [[[r k'] a] ->].
  { unfold IKCP_OVERHEAD. lia. }
  destruct (r <? 0); eauto.
Qed.

(** ** Datagrams made of segments *)

(** The bytes a segment occupies on the wire. *)
Definition wire_seg (s : IKCPSEG) : list byte := ikcp_encode_seg [] s ++ payload s.

Definition wire (ss : list IKCPSEG) : list byte := concat (map wire_seg ss).

(** A segment the loop of [ikcp_input] gets through. *)
Record wire_ok (conv : Z) (s : IKCPSEG) : Prop := {
  wo_conv : u64 (sg_conv s) = conv;
  wo_cmd : known_cmd (u8 (sg_cmd s)) = true;
  wo_full : seg_full s;
  wo_len : sg_len s < 2147483648
}.

Definition step_seg (ka : ikcpcb * ack_scan) (s : IKCPSEG) : ikcpcb * ack_scan :=
  input_seg (fst ka) (snd ka) (wire_header s) (payload s).

Lemma parse_data_conv k s : k_conv (ikcp_parse_data k s) = k_conv k.
Proof.
  unfold ikcp_parse_data, rcv_move. destruct (_ || _); [reflexivity|].
  destruct (pl_repeat _); reflexivity.
Qed.

Lemma input_una_conv k h : k_conv (input_una k h) = k_conv k.
Proof.
  unfold input_una, ikcp_shrink_buf. destruct (k_snd_buf _); reflexivity.
Qed.

Lemma input_seg_conv k a h p : k_conv (fst (input_seg k a h p)) = k_conv k.
Proof.
  rewrite <- (input_una_conv k h). unfold input_seg. set (k' := input_una k h). clearbody k'.
  destruct (h_cmd h =? IKCP_CMD_ACK); [|destruct (h_cmd h =? IKCP_CMD_PUSH)];
    [| |destruct (h_cmd h =? IKCP_CMD_WASK); reflexivity]; cbn [fst].
  - unfold input_ack. set (k2 := if 0 <=? _ then _ else _).
    assert (k_conv k2 = k_conv k') by (subst k2; destruct (0 <=? _); reflexivity).
    clearbody k2. unfold ikcp_shrink_buf, ikcp_parse_ack.
    destruct (ack_outside k2 (h_sn h)), (k_snd_buf _); kred; auto.
  - unfold input_push. destruct (itimediff _ _ <? 0); [|reflexivity].
    destruct (0 <=? itimediff _ _); [|reflexivity]. rewrite parse_data_conv. reflexivity.
Qed.

Lemma length_wire_seg s : seg_full s -> zlen (wire_seg s) = IKCP_OVERHEAD + sg_len s.
Proof.
  intros Hf. unfold wire_seg. rewrite length_app, payload_full by auto.
  pose proof (length_encode_seg [] s) as H. cbn [length] in H. unfold seg_full in Hf. lia.
Qed.

Lemma decode_wire_seg s rest :
  exists more, ikcp_decode64u (wire_seg s ++ rest) = Some (u64 (sg_conv s), more) /\
    decode_header (u64 (sg_conv s)) more = Some (wire_header s, payload s ++ rest).
Proof.
  pose proof (decode_encode_seg s (payload s ++ rest)) as H. rewrite app_assoc in H.
  change (ikcp_encode_seg [] s ++ payload s) with (wire_seg s) in H. unfold decode_seg in H.
  destruct (ikcp_decode64u (wire_seg s ++ rest)) as [[c more]|] eqn:E; [|discriminate].
  cbn [mbind option_bind] in H.
  assert (c = u64 (sg_conv s)) as ->.
  { unfold wire_seg in E. rewrite encode_seg_le in E. rewrite <- !app_assoc in E. cbn [app] in E.
    rewrite decode64u_enc in E. congruence. }
  eauto.
Qed.

Lemma input_loop_wire fuel ss k a :
  Forall (wire_ok (k_conv k)) ss -> (length ss < fuel)%nat ->
  input_loop fuel k a (wire ss) (zlen (wire ss)) =
  let r := fold_left step_seg ss (k, a) in Some (0, fst r, snd r).
Proof.
  unfold wire. revert fuel k a. induction ss as [|s ss IH]; intros [|fuel] k a Hok Hf;
    cbn [length] in Hf; try lia; [reflexivity|].
  apply Forall_cons in Hok as [[Hc Hcmd Hfull Hlen] Hok].
  cbn [map concat input_loop fold_left]. unfold seg_full in Hfull.
  pose proof (length_wire_seg s Hfull) as Hl. rewrite length_app.
  destruct (Z.ltb_spec (Z.of_nat (length (wire_seg s) + length (concat (map wire_seg ss))))
              IKCP_OVERHEAD); [lia|].
  destruct (decode_wire_seg s (concat (map wire_seg ss))) as (more & -> & Hh).
  cbn [mbind option_bind]. rewrite Hc in *. rewrite Z.eqb_refl. cbn [negb].
  rewrite Hh. cbn [mbind option_bind].
  assert (h_len (wire_header s) = sg_len s) as ->.
  { cbn. apply wrap_id. unfold in_u. zpow. lia. }
  destruct (Z.ltb_spec (Z.of_nat (length (wire_seg s) + length (concat (map wire_seg ss)))
     - IKCP_OVERHEAD) (sg_len s)); [lia|]. cbn [orb].
  rewrite (swrap_id 32) by (zpow; lia). destruct (Z.ltb_spec (sg_len s) 0); [lia|].
  change (h_cmd (wire_header s)) with (u8 (sg_cmd s)). rewrite Hcmd. cbn [negb].
  rewrite payload_full by auto. unfold read_bytes. rewrite length_app.
  destruct (Z.leb_spec 0 (sg_len s)); [|lia].
  destruct (Z.leb_spec (sg_len s) (Z.of_nat (length (sg_data s) + length (concat (map wire_seg ss))))); [|lia].
  cbn [andb mbind option_bind]. rewrite take_app_all, drop_app_all by lia.
  replace (Z.of_nat (length (wire_seg s) + length (concat (map wire_seg ss))) - IKCP_OVERHEAD - sg_len s)
    with (zlen (concat (map wire_seg ss))) by lia.
  change (step_seg (k, a) s) with (input_seg k a (wire_header s) (payload s)).
  rewrite payload_full by auto.
  pose proof (input_seg_conv k a (wire_header s) (sg_data s)) as Hconv.
  set (r := input_seg k a (wire_header s) (sg_data s)) in *. clearbody r.
  rewrite <- Hconv in Hok. rewrite (IH fuel (fst r) (snd r) Hok ltac:(lia)). cbv zeta.
  rewrite <- surjective_pairing. reflexivity.
Qed.

(** On a datagram of segments [ikcp_input] succeeds and processes them in order. *)
Lemma input_wire k ss :
  Forall (wire_ok (k_conv k)) ss -> IKCP_OVERHEAD <= zlen (wire ss) < 2147483648 ->
  ikcp_input k (Some (wire ss)) (zlen (wire ss)) =
  let r := fold_left step_seg ss (k, mkScan false 0 0) in
  Some (0, input_finish (k_snd_una k) (fst r) (snd r)).
Proof.
  intros Hok Hlen. unfold ikcp_input. rewrite (swrap_id 32) by (zpow; unfold IKCP_OVERHEAD in *; lia).
  destruct (Z.ltb_spec (zlen (wire ss)) IKCP_OVERHEAD); [lia|].
  rewrite input_loop_wire; auto.
  assert (length ss <= length (wire ss))%nat; [|lia].
  clear Hlen H. induction Hok as [|s ss [_ _ Hf _] _ IH]; [reflexivity|].
  unfold wire in *. cbn [map concat length]. rewrite length_app.
  pose proof (length_wire_seg s Hf). unfold seg_full, IKCP_OVERHEAD in *. lia.
Qed.
