(* ===== verification/KcpFlushFacts.v ===== *)
(** * KCP output: what a flush sends and what it keeps

    Every datagram is a sequence of whole segments and fits the MTU; segments
    enter [snd_buf] in order and inside the window; sending changes only the
    timers of a segment. *)

From S2P Require Import Prelude KcpTypes KcpInput KcpFlush KcpRecvFacts.
From S2P Require Import KcpSendFacts KcpInputFacts.

Lemma wire_app a b : wire (a ++ b) = wire a ++ wire b.
Proof. unfold wire. rewrite map_app, concat_app. reflexivity. Qed.

Lemma wire_one s : wire [s] = wire_seg s.
Proof. unfold wire. cbn [map concat]. apply app_nil_r. Qed.

Lemma wire_nil : wire [] = [].
Proof. reflexivity. Qed.

Section Output.
(** [P] is what every segment put on the wire satisfies. *)
Context (mtu : Z) (P : IKCPSEG -> Prop).
Hypothesis mtu_ok : 28 <= mtu < 1073741824.

(** A datagram given to the output callback. *)
Definition dgram_ok (d : list byte) : Prop :=
  exists ss, d = wire ss /\ Forall P ss /\ 0 < zlen d <= mtu.

Definition ob_ok (b : outbuf) : Prop :=
  (exists ss, ob_ptr b = wire ss /\ Forall P ss /\ zlen (ob_ptr b) <= mtu) /\
  Forall dgram_ok (ob_out b).

Lemma ob_ok_empty out : Forall dgram_ok out -> ob_ok (mkOut [] out).
Proof. split; auto. exists []. cbn. repeat split; auto; lia. Qed.

Lemma output_ok b : ob_ok b -> Forall dgram_ok (ikcp_output (ob_ptr b) (ob_out b)).
Proof.
  intros [(ss & Hp & HP & Hl) Ho]. unfold ikcp_output.
  destruct (Z.eqb_spec (zlen (ob_ptr b)) 0); auto.
  apply Forall_app. split; auto. constructor; auto. exists ss. repeat split; auto; lia.
Qed.

Lemma make_room_ok need b :
  0 <= need <= mtu -> ob_ok b ->
  ob_ok (make_room mtu need b) /\ zlen (ob_ptr (make_room mtu need b)) + need <= mtu.
Proof.
  intros Hn Hb. pose proof Hb as [(ss & Hp & HP & Hl) Ho]. unfold make_room.
  rewrite !(swrap_id 32) by (zpow; lia).
  destruct (Z.ltb_spec mtu (zlen (ob_ptr b) + need)); cbn [ob_ptr length].
  - split; [|lia]. apply ob_ok_empty, output_ok; auto.
  - split; auto; lia.
Qed.

(** Appending a segment and its payload after making room for both. *)
Lemma put_ok s b :
  P s -> seg_full s -> 28 + sg_len s <= mtu -> ob_ok b ->
  let b' := make_room mtu (28 + sg_len s) b in
  ob_ok (mkOut (ob_ptr (put_seg s b') ++ payload s) (ob_out (put_seg s b'))).
Proof.
  intros HP Hf Hl Hb b'. assert (0 <= sg_len s) by (unfold seg_full in Hf; lia).
  destruct (make_room_ok (28 + sg_len s) b ltac:(lia) Hb) as [[(ss & Hp & HPs & _) Ho] Hr].
  fold b' in Hp, Ho, Hr. split; auto. exists (ss ++ [s]). cbn [put_seg ob_ptr].
  rewrite encode_seg_app, <- app_assoc. change (ikcp_encode_seg [] s ++ payload s) with (wire_seg s).
  rewrite wire_app, wire_one, Hp. repeat split.
  - apply Forall_app; auto.
  - rewrite length_app. pose proof (length_wire_seg s Hf). unfold IKCP_OVERHEAD in *.
    rewrite Hp in Hr. lia.
Qed.

(** A control segment has no payload. *)
Lemma put_control_ok s b :
  P s -> sg_len s = 0 -> sg_data s = [] -> ob_ok b ->
  ob_ok (put_seg s (make_room mtu IKCP_OVERHEAD b)).
Proof.
  intros HP Hl Hd Hb.
  pose proof (put_ok s b HP ltac:(unfold seg_full; rewrite Hl, Hd; reflexivity) ltac:(lia) Hb) as H.
  unfold payload in H. rewrite Hl in H. cbn [Z.add] in H. cbv zeta in H.
  change (ztake 0 (sg_data s)) with (@nil byte) in H. rewrite app_nil_r in H. exact H.
Qed.

Lemma flush_acks_ok acks seg b :
  sg_len seg = 0 -> sg_data seg = [] ->
  Forall (fun a => P (sset_sn (fst a) (sset_ts (snd a) seg))) acks -> ob_ok b ->
  ob_ok (snd (flush_acks mtu acks seg b)) /\
  let seg' := fst (flush_acks mtu acks seg b) in
  seg' = sset_sn (sg_sn seg') (sset_ts (sg_ts seg') seg).
Proof.
  revert seg b. induction acks as [|[sn ts] acks IH]; intros seg b Hl Hd HP Hb; cbn [flush_acks].
  - split; auto. destruct seg; reflexivity.
  - apply Forall_cons in HP as [HP HPs]. cbn [fst snd] in HP.
    set (seg1 := sset_sn sn (sset_ts ts seg)) in *.
    destruct (IH seg1 (put_seg seg1 (make_room mtu IKCP_OVERHEAD b))) as [H1 H2];
      auto using put_control_ok.
Qed.

Lemma flush_probe_ok probe bit cmd sb :
  sg_len (fst sb) = 0 -> sg_data (fst sb) = [] ->
  P (sset_cmd cmd (fst sb)) -> ob_ok (snd sb) ->
  let sb' := flush_probe mtu probe bit cmd sb in
  ob_ok (snd sb') /\ fst sb' = sset_cmd (sg_cmd (fst sb')) (fst sb).
Proof.
  intros Hl Hd HP Hb. unfold flush_probe. destruct (_ =? 0); cbn [fst snd].
  - split; auto. destruct (fst sb); reflexivity.
  - split; [|reflexivity]. apply put_control_ok; auto.
Qed.

End Output.

(** ** Sending data segments *)

(** [x] is a copy of [s] that may have been sent: only timers, counters and
    the piggybacked fields differ. *)
Definition same_data (s x : IKCPSEG) : Prop :=
  sg_conv x = sg_conv s /\ sg_cmd x = sg_cmd s /\ sg_frg x = sg_frg s /\
  sg_sn x = sg_sn s /\ sg_len x = sg_len s /\ sg_data x = sg_data s.

Lemma same_data_refl s : same_data s s.
Proof. repeat split. Qed.

Lemma seg_timers_same k rtomin d s : same_data s (seg_timers k rtomin d s).
Proof. destruct d; cbn; try destruct (k_nodelay k =? 0); repeat split. Qed.

Lemma same_data_trans a b c : same_data a b -> same_data b c -> same_data a c.
Proof. unfold same_data. intuition congruence. Qed.

Lemma send_seg_same k wnd s b : same_data s (fst (send_seg k wnd s b)).
Proof. repeat split. Qed.

Lemma flush_seg_same k wnd resent rtomin s f :
  same_data s (fst (flush_seg k wnd resent rtomin s f)).
Proof.
  unfold flush_seg. destruct (seg_due k resent s); cbn [fst]; try apply same_data_refl;
    (eapply same_data_trans; [apply (seg_timers_same k rtomin)|apply send_seg_same]).
Qed.

Lemma flush_segs_same k wnd resent rtomin p f :
  Forall2 same_data p (fst (flush_segs k wnd resent rtomin p f)).
Proof.
  revert f. induction p as [|s p IH]; intros f; cbn [flush_segs fst]; constructor; auto.
  apply flush_seg_same.
Qed.

(** [sendable P k s]: every way [s] may be sent satisfies [P] and fits. *)
Definition sendable (P : IKCPSEG -> Prop) (k : ikcpcb) (s : IKCPSEG) : Prop :=
  seg_full s /\ 28 + sg_len s <= k_mtu k /\
  forall x, same_data s x -> sg_una x = k_rcv_nxt k -> P x.

Lemma sendable_same P k s x : same_data s x -> sendable P k s -> sendable P k x.
Proof.
  intros Hs (Hf & Hl & HP). pose proof Hs as (_ & _ & _ & _ & He & Hd).
  unfold sendable, seg_full in *. rewrite He, Hd. repeat split; auto.
  intros y Hy. apply HP. eapply same_data_trans; eauto.
Qed.

Lemma send_seg_ok P k wnd s b :
  28 <= k_mtu k < 1073741824 -> sendable P k s -> ob_ok (k_mtu k) P b ->
  ob_ok (k_mtu k) P (snd (send_seg k wnd s b)).
Proof.
  intros Hmtu Hs Hb. unfold send_seg. cbn [snd].
  set (s2 := sset_una _ _). assert (Hs2 : same_data s s2) by (repeat split).
  destruct Hs as (Hf & Hl & HP). pose proof Hs2 as (_ & _ & _ & _ & Hlen & Hdat).
  unfold seg_full in Hf. unfold IKCP_OVERHEAD. rewrite Hlen.
  rewrite (wrap_id 32) by (unfold in_u; zpow; lia). rewrite (swrap_id 32) by (zpow; lia).
  rewrite <- Hlen. change (ztake (sg_len s2) (sg_data s2)) with (payload s2).
  apply put_ok; [exact Hmtu|apply HP; [exact Hs2|reflexivity]| |lia|exact Hb].
  unfold seg_full. congruence.
Qed.

Lemma flush_segs_ok P k wnd resent rtomin p f :
  28 <= k_mtu k < 1073741824 -> Forall (sendable P k) p ->
  ob_ok (k_mtu k) P (fl_out f) ->
  ob_ok (k_mtu k) P (fl_out (snd (flush_segs k wnd resent rtomin p f))).
Proof.
  intros Hmtu. revert f. induction p as [|s p IH]; intros f HP Hb; cbn [flush_segs snd]; auto.
  apply Forall_cons in HP as [Hs HPs]. apply IH; auto.
  unfold flush_seg. destruct (seg_due k resent s) eqn:Hd; auto; rewrite <- Hd;
    (apply send_seg_ok; auto;
     apply (sendable_same P k s); [apply seg_timers_same|exact Hs]).
Qed.

(** ** Admitting segments to [snd_buf] *)

Fixpoint admit_all (k : ikcpcb) (wnd nxt : Z) (mv : list IKCPSEG) : list IKCPSEG :=
  match mv with
  | [] => []
  | s :: mv => admit_seg k wnd nxt s :: admit_all k wnd (u32 (nxt + 1)) mv
  end.

Lemma admit_all_lookup k wnd nxt mv i x :
  in_u 32 nxt -> admit_all k wnd nxt mv !! i = Some x ->
  exists s, mv !! i = Some s /\ x = admit_seg k wnd (u32 (nxt + Z.of_nat i)) s.
Proof.
  revert nxt i. induction mv as [|s mv IH]; intros nxt i Hn H;
    [cbn [admit_all] in H; rewrite lookup_nil in H; discriminate|].
  destruct i as [|i]; cbn in *.
  - injection H as <-. exists s. rewrite Z.add_0_r, wrap_id; auto.
  - destruct (IH (u32 (nxt + 1)) i) as (s' & H1 & ->); auto.
    { apply wrap_range. lia. }
    exists s'. split; auto. f_equal. rewrite wrap_add. apply (f_equal (wrap 32)). lia.
Qed.

Lemma length_admit_all k wnd nxt mv : length (admit_all k wnd nxt mv) = length mv.
Proof. revert nxt. induction mv; intros; cbn; auto. Qed.

Lemma move_snd_spec k wnd cwnd que buf nque nbuf nxt :
  in_u 32 nxt -> in_u 32 nque -> in_u 32 nbuf ->
  exists mv,
    let r := move_snd k wnd cwnd que buf nque nbuf nxt in
    que = mv ++ ss_que r /\ ss_buf r = buf ++ admit_all k wnd nxt mv /\
    ss_nque r = u32 (nque - zlen mv) /\ ss_nbuf r = u32 (nbuf + zlen mv) /\
    ss_nxt r = u32 (nxt + zlen mv) /\
    (mv <> [] -> itimediff (u32 (ss_nxt r - 1)) (u32 (k_snd_una k + cwnd)) < 0) /\
    (ss_que r <> [] -> 0 <= itimediff (ss_nxt r) (u32 (k_snd_una k + cwnd))).
Proof.
  revert buf nque nbuf nxt. induction que as [|s que IH]; intros buf nque nbuf nxt Hn Hq Hb.
  { exists []. cbn. rewrite app_nil_r, Z.sub_0_r, !Z.add_0_r, !wrap_id by auto.
    repeat split; auto; congruence. }
  cbn [move_snd]. destruct (Z.ltb_spec (itimediff nxt (u32 (k_snd_una k + cwnd))) 0) as [Hlt|Hge].
  - destruct (IH (buf ++ [admit_seg k wnd nxt s]) (u32 (nque - 1)) (u32 (nbuf + 1)) (u32 (nxt + 1)))
      as (mv & Hr); try (apply wrap_range; lia).
    cbv zeta in *. set (r := move_snd _ _ _ _ _ _ _ _) in *. clearbody r.
    destruct Hr as (H1 & H2 & H3 & H4 & H5 & H6 & H7). exists (s :: mv).
    rewrite wrap_sub in H3. rewrite wrap_add in H4, H5. cbn [app length admit_all].
    rewrite <- app_assoc in H2. split; [congruence|]. split; [exact H2|].
    split; [rewrite H3; apply (f_equal (wrap 32)); lia|].
    split; [rewrite H4; apply (f_equal (wrap 32)); lia|].
    split; [rewrite H5; apply (f_equal (wrap 32)); lia|].
    split; auto. intros _. destruct mv as [|x mv]; [|apply H6; discriminate].
    rewrite H5. cbn [length]. rewrite wrap_sub.
    replace (nxt + 1 + Z.of_nat 0 - 1) with nxt by lia. rewrite (wrap_id 32 nxt); auto.
  - exists []. cbn. rewrite app_nil_r, Z.sub_0_r, !Z.add_0_r, !wrap_id by auto.
    repeat split; auto; congruence.
Qed.

Lemma admit_all_ext k1 k wnd nxt mv :
  (forall sn s, admit_seg k1 wnd sn s = admit_seg k wnd sn s) ->
  admit_all k1 wnd nxt mv = admit_all k wnd nxt mv.
Proof. intros H. revert nxt. induction mv; intros; cbn [admit_all]; f_equal; auto. Qed.

(** ** The whole flush *)

Lemma update_probe_state k :
  exists a b c, update_probe k = set_probe c (set_probe_wait a (set_ts_probe b k)).
Proof.
  unfold update_probe. destruct (k_rmt_wnd k =? 0).
  - destruct (k_probe_wait k =? 0); [|destruct (0 <=? _)].
    + eexists _, _, (k_probe k). unfold set_probe, set_probe_wait, set_ts_probe. kred. reflexivity.
    + eexists _, _, _. reflexivity.
    + exists (k_probe_wait k), (k_ts_probe k), (k_probe k). destruct k. reflexivity.
  - eexists _, _, (k_probe k). unfold set_probe, set_probe_wait, set_ts_probe. kred. reflexivity.
Qed.

(** Acknowledging and probing only touches the probe fields and [ackcount]. *)
Lemma flush_control_state k :
  exists a b, fst (flush_control k) = set_probe 0 (set_probe_wait a (set_ts_probe b (set_ackcount 0 k))).
Proof.
  unfold flush_control. cbv zeta. cbn [fst].
  destruct (update_probe_state (set_ackcount 0 k)) as (a & b & c & ->).
  exists a, b. reflexivity.
Qed.

Lemma update_probe_mtu k : k_mtu (update_probe k) = k_mtu k.
Proof. destruct (update_probe_state k) as (a & b & c & ->). reflexivity. Qed.

Lemma flush_cwnd_state k cw resent change lost :
  exists a b c, flush_cwnd k cw resent change lost = set_ssthresh a (set_cwnd b (set_incr c k)).
Proof. unfold flush_cwnd. cbv zeta. eexists _, _, _. reflexivity. Qed.

Lemma flush_admit_state k :
  exists a b c d e, flush_admit k =
    set_snd_queue a (set_snd_buf b (set_nsnd_que c (set_nsnd_buf d (set_snd_nxt e k)))).
Proof. unfold flush_admit. cbv zeta. eexists _, _, _, _, _. reflexivity. Qed.

Lemma flush_data_state wnd k b :
  let k2 := flush_admit k in
  let fs := flush_segs k2 wnd (flush_resent k2) (flush_rtomin k2) (k_snd_buf k2)
              (mkFlush b 0 false (k_xmit k2) (k_state k2)) in
  exists e1 e2 e3 e4 e5, flush_data wnd k b =
    (set_ssthresh e1 (set_cwnd e2 (set_incr e3 (set_snd_buf (fst fs) (set_xmit e4 (set_state e5 k2))))),
     ikcp_output (ob_ptr (fl_out (snd fs))) (ob_out (fl_out (snd fs)))).
Proof.
  cbv zeta. unfold flush_data. cbv zeta.
  match goal with |- context [flush_cwnd ?k3 ?u ?v ?w ?l] =>
    destruct (flush_cwnd_state k3 u v w l) as (e1 & e2 & e3 & ->) end.
  eexists _, _, _, _, _. reflexivity.
Qed.

Section Flush.
(** [P] is what every segment on the wire has to satisfy; the hypotheses
    list the segments a flush can send. *)
Context (k : ikcpcb) (P : IKCPSEG -> Prop).
Hypothesis mtu_ok : 28 <= k_mtu k < 1073741824.
Hypothesis nxt_ok : in_u 32 (k_snd_nxt k).
Hypothesis nque_ok : in_u 32 (k_nsnd_que k).
Hypothesis nbuf_ok : in_u 32 (k_nsnd_buf k).

(** A control segment: the template with a command, a number and a time. *)
Definition control_seg (cmd sn ts : Z) : IKCPSEG :=
  sset_cmd cmd (sset_sn sn (sset_ts ts (flush_template k))).

Hypothesis acks_ok :
  Forall (fun a => P (control_seg IKCP_CMD_ACK (fst a) (snd a)))
    (ztake (k_ackcount k) (k_acklist k)).
Hypothesis probe_ok : forall cmd sn ts,
  cmd = IKCP_CMD_WASK \/ cmd = IKCP_CMD_WINS -> P (control_seg cmd sn ts).
Hypothesis buf_ok : Forall (sendable P k) (k_snd_buf k).
Hypothesis que_ok : forall i s wnd,
  k_snd_queue k !! i = Some s ->
  sendable P k (admit_seg k wnd (u32 (k_snd_nxt k + Z.of_nat i)) s).

Lemma flush_control_ok : ob_ok (k_mtu k) P (snd (flush_control k)).
Proof.
  unfold flush_control. cbv zeta. cbn [snd]. rewrite update_probe_mtu. kred.
  destruct (flush_acks_ok (k_mtu k) P mtu_ok (ztake (k_ackcount k) (k_acklist k))
              (flush_template k) (mkOut [] [])) as [H1 H2]; auto using ob_ok_empty.
  set (sb := flush_acks _ _ _ _) in *. cbv zeta in H2. set (pr := k_probe _). clearbody sb pr.
  destruct (flush_probe_ok (k_mtu k) P mtu_ok pr IKCP_ASK_SEND IKCP_CMD_WASK sb)
    as [H3 H4]; auto; try (rewrite H2; reflexivity).
  { rewrite H2. apply probe_ok. auto. }
  set (sb2 := flush_probe _ _ _ _ sb) in *. clearbody sb2.
  assert (H5 : fst sb2 = control_seg (sg_cmd (fst sb2)) (sg_sn (fst sb)) (sg_ts (fst sb)))
    by (rewrite H4, H2; reflexivity).
  apply flush_probe_ok; auto; rewrite H5; [reflexivity..|]. apply probe_ok. auto.
Qed.

Lemma flush_admit_ok k1 a b :
  k1 = set_probe 0 (set_probe_wait a (set_ts_probe b (set_ackcount 0 k))) ->
  let k2 := flush_admit k1 in
  exists mv wnd, k_snd_queue k = mv ++ k_snd_queue k2 /\
    k_snd_buf k2 = k_snd_buf k ++ admit_all k wnd (k_snd_nxt k) mv /\
    k_snd_nxt k2 = u32 (k_snd_nxt k + zlen mv) /\
    k_nsnd_que k2 = u32 (k_nsnd_que k - zlen mv) /\
    k_nsnd_buf k2 = u32 (k_nsnd_buf k + zlen mv) /\
    Forall (sendable P k) (k_snd_buf k2).
Proof.
  intros -> k2. unfold k2, flush_admit. cbv zeta. kred.
  match goal with |- context [move_snd ?k1 ?w ?c] =>
    destruct (move_snd_spec k1 w c (k_snd_queue k) (k_snd_buf k)
              (k_nsnd_que k) (k_nsnd_buf k) (k_snd_nxt k)) as (mv & Hm); auto;
    exists mv, w; rewrite (admit_all_ext k1 k) in Hm by reflexivity end.
  cbv zeta in Hm.
  set (r := move_snd _ _ _ _ _ _ _ _) in *. clearbody r.
  destruct Hm as (H1 & H2 & H3 & H4 & H5 & _). repeat split; auto.
  rewrite H2. apply Forall_app. split; auto. apply Forall_lookup. intros i x Hx.
  apply admit_all_lookup in Hx as (s & Hs & ->); auto.
  apply que_ok. rewrite H1. apply lookup_app_l_Some. exact Hs.
Qed.

(** What a flush does to the data: it moves a prefix of the queue to the end
    of [snd_buf], numbered from [snd_nxt] on, and keeps the data of every
    segment it sends; each datagram is a whole number of segments. *)
Definition flushed (k' : ikcpcb) : Prop :=
  exists mv adm, k_snd_queue k = mv ++ k_snd_queue k' /\
    length adm = length mv /\
    (forall i x, adm !! i = Some x -> exists s, mv !! i = Some s /\
      sg_conv x = k_conv k /\ sg_cmd x = IKCP_CMD_PUSH /\ sg_frg x = sg_frg s /\
      sg_sn x = u32 (k_snd_nxt k + Z.of_nat i) /\ sg_len x = sg_len s /\ sg_data x = sg_data s) /\
    Forall2 same_data (k_snd_buf k ++ adm) (k_snd_buf k') /\
    k_snd_nxt k' = u32 (k_snd_nxt k + zlen mv) /\
    k_nsnd_que k' = u32 (k_nsnd_que k - zlen mv) /\
    k_nsnd_buf k' = u32 (k_nsnd_buf k + zlen mv).

(** What it leaves alone. *)
Definition flush_frame (k' : ikcpcb) : Prop :=
  k_conv k' = k_conv k /\ k_mtu k' = k_mtu k /\ k_mss k' = k_mss k /\ k_stream k' = k_stream k /\
  k_snd_una k' = k_snd_una k /\ k_rcv_nxt k' = k_rcv_nxt k /\ k_rcv_wnd k' = k_rcv_wnd k /\
  k_rcv_queue k' = k_rcv_queue k /\ k_rcv_buf k' = k_rcv_buf k /\
  k_nrcv_buf k' = k_nrcv_buf k /\ k_nrcv_que k' = k_nrcv_que k /\
  k_acklist k' = k_acklist k /\ k_updated k' = k_updated k /\ k_snd_wnd k' = k_snd_wnd k /\
  k_rmt_wnd k' = k_rmt_wnd k /\ k_ackblock k' = k_ackblock k.

Lemma flush_data_ok wnd k1 b :
  (exists x y, k1 = set_probe 0 (set_probe_wait x (set_ts_probe y (set_ackcount 0 k)))) ->
  ob_ok (k_mtu k) P b ->
  let r := flush_data wnd k1 b in
  flushed (fst r) /\ flush_frame (fst r) /\ k_ackcount (fst r) = 0 /\
  Forall (dgram_ok (k_mtu k) P) (snd r).
Proof.
  intros (x & y & Hk1) Hob. cbv zeta.
  destruct (flush_data_state wnd k1 b) as (e1 & e2 & e3 & e4 & e5 & ->).
  destruct (flush_admit_ok _ x y Hk1) as (mv & wd & Hq & Hb & Hn & Hnq & Hnb & Hsend).
  assert (Hf : flush_frame (flush_admit k1) /\ k_ackcount (flush_admit k1) = 0).
  { destruct (flush_admit_state k1) as (z1 & z2 & z3 & z4 & z5 & ->).
    rewrite Hk1. unfold flush_frame. kred. repeat split. }
  destruct Hf as [Hf Hack]. revert Hq Hb Hn Hnq Hnb Hsend Hf Hack.
  generalize (flush_admit k1). clear k1 Hk1. intros k2 Hq Hb Hn Hnq Hnb Hsend Hf Hack.
  pose proof (flush_segs_same k2 wnd (flush_resent k2) (flush_rtomin k2)
    (k_snd_buf k2) (mkFlush b 0 false (k_xmit k2) (k_state k2))) as Hsame.
  pose proof (flush_segs_ok P k2 wnd (flush_resent k2) (flush_rtomin k2)
    (k_snd_buf k2) (mkFlush b 0 false (k_xmit k2) (k_state k2))) as Hout.
  unfold flush_frame in Hf. unfold sendable in Hsend, Hout.
  destruct Hf as (F1 & F2 & F3 & F4 & F5 & F6 & F7 & F8 & F9 & F10 & F11 & F12 & F13 & F14 & F15 & F16).
  rewrite F2, F6 in Hout. cbn [fl_out] in Hout. specialize (Hout mtu_ok Hsend Hob).
  revert Hsame Hout. generalize (flush_segs k2 wnd (flush_resent k2) (flush_rtomin k2)
    (k_snd_buf k2) (mkFlush b 0 false (k_xmit k2) (k_state k2))). intros fs Hsame Hout.
  cbn [fst snd]. split; [|split; [|split; [exact Hack|apply output_ok; exact Hout]]].
  - unfold flushed. kred. exists mv, (admit_all k wd (k_snd_nxt k) mv).
    rewrite length_admit_all, <- Hb. repeat (split; [assumption || reflexivity|]).
    split; [|auto]. intros i z Hx. apply admit_all_lookup in Hx as (s & Hs & ->); auto.
    exists s. repeat (split; auto).
  - unfold flush_frame. kred. repeat (split; [assumption|]). assumption.
Qed.

Lemma flush_ok :
  k_updated k <> 0 ->
  let r := ikcp_flush k in
  flushed (fst r) /\ flush_frame (fst r) /\ k_ackcount (fst r) = 0 /\
  Forall (dgram_ok (k_mtu k) P) (snd r).
Proof.
  intros Hu. unfold ikcp_flush. destruct (Z.eqb_spec (k_updated k) 0) as [|_]; [congruence|].
  cbv zeta. apply flush_data_ok; [apply flush_control_state|apply flush_control_ok].
Qed.
End Flush.
