(* ===== verification/KcpPeer.v ===== *)
(** * KCP endpoints: the invariants of the two halves of a connection

    [lg] is everything an endpoint was ever asked to send, as the (fragment
    number, bytes) pairs of its segments in order; the segment with sequence
    number [i] is the [i]-th.  [snd_inv] ties the send half of a control block
    to the log it sends, [rcv_inv] the receive half to the log of its peer. *)

From Stdlib Require Import Sorting.Sorted.
From S2P Require Import Prelude KcpTypes KcpRecv KcpSend KcpInput KcpFlush.
From S2P Require Import KcpRecvFacts KcpSendFacts KcpInputFacts KcpFlushFacts.

Abbreviation frag := (Z * list byte)%type.

Definition frag_of (s : IKCPSEG) : frag := (sg_frg s, sg_data s).

(** The segment numbered [sn] in a log. *)
Definition nth_frag (lg : list frag) (sn : Z) : option frag :=
  if sn <? 0 then None else lg !! Z.to_nat sn.

Definition log_ok (lg : list frag) : Prop :=
  zlen lg < 2147483648 /\ Forall (fun f => 0 <= fst f < 128) lg.

Lemma nth_frag_range lg sn f : nth_frag lg sn = Some f -> 0 <= sn < zlen lg.
Proof.
  unfold nth_frag. zcase; [discriminate|]. intros Hl. apply lookup_lt_Some in Hl. lia.
Qed.

Lemma nth_frag_app lg l sn f : nth_frag lg sn = Some f -> nth_frag (lg ++ l) sn = Some f.
Proof. unfold nth_frag. zcase; auto. intros. apply lookup_app_l_Some. auto. Qed.

Lemma nth_frag_byte lg sn f : log_ok lg -> nth_frag lg sn = Some f -> 0 <= fst f < 128.
Proof.
  intros [_ Hb]. unfold nth_frag. zcase; [discriminate|]. intros Hf.
  exact (Forall_lookup_1 _ _ _ _ Hb Hf).
Qed.

(** ** The receive half *)

(** The endpoint holds segment [i] of its peer's log. *)
Definition got (k : ikcpcb) (i : Z) : Prop :=
  0 <= i < k_rcv_nxt k \/ exists s, s ∈ k_rcv_buf k /\ sg_sn s = i.

(** A segment that carries what the log holds under its number. *)
Definition from_log (lg : list frag) (s : IKCPSEG) : Prop :=
  nth_frag lg (sg_sn s) = Some (frag_of s) /\ seg_full s.

(** The next segment is not waiting in [rcv_buf] while there is room. *)
Definition no_stall (k : ikcpcb) : Prop :=
  match k_rcv_buf k with
  | [] => True
  | s :: _ => sg_sn s <> k_rcv_nxt k \/ IKCP_WND_RCV <= k_nrcv_que k
  end.

(** The buffer and the queue hold what the log says. *)
Record rcv_data (lg : list frag) (k : ikcpcb) : Prop := {
  ri_wf : rcv_wf k;
  ri_wnd : IKCP_WND_RCV <= k_rcv_wnd k;
  ri_nxt : k_rcv_nxt k <= zlen lg;
  ri_buf : Forall (from_log lg) (k_rcv_buf k);
  ri_full : Forall seg_full (k_rcv_queue k);
  ri_len : zlen (k_rcv_queue k) <= k_rcv_nxt k;
  ri_que : forall j s, k_rcv_queue k !! j = Some s ->
           nth_frag lg (k_rcv_nxt k - zlen (k_rcv_queue k) + Z.of_nat j) = Some (frag_of s)
}.

(** Only segments the endpoint holds are waiting to be acknowledged. *)
Definition ack_inv (k : ikcpcb) : Prop :=
  0 <= k_ackcount k <= zlen (k_acklist k) /\
  Forall (fun a => got k (fst a)) (ztake (k_ackcount k) (k_acklist k)).

Record rcv_inv (lg : list frag) (k : ikcpcb) : Prop := {
  ri_data : rcv_data lg k;
  ri_stall : no_stall k;
  ri_acks : ack_inv k
}.

(** What the receive half consists of. *)
Definition rdata (k : ikcpcb) :=
  (k_rcv_nxt k, k_rcv_wnd k, (k_rcv_buf k, k_rcv_queue k), (k_nrcv_buf k, k_nrcv_que k)).
Definition rview (k : ikcpcb) := (rdata k, (k_acklist k, k_ackcount k)).

Lemma rcv_data_frame lg k k' : rdata k' = rdata k -> rcv_data lg k -> rcv_data lg k'.
Proof.
  unfold rdata. intros [= E1 E2 E3 E4 E5 E6] [[] ? ? ? ? ? ?].
  constructor; [constructor|..]; rewrite ?E1, ?E2, ?E3, ?E4, ?E5, ?E6; auto.
Qed.

Lemma no_stall_frame k k' : rdata k' = rdata k -> no_stall k -> no_stall k'.
Proof. unfold rdata, no_stall. intros [= -> _ -> _ _ ->]. auto. Qed.

Lemma got_frame k k' i : rdata k' = rdata k -> got k i -> got k' i.
Proof. unfold rdata, got. intros [= -> _ -> _ _ _]. auto. Qed.

Lemma rcv_inv_frame lg k k' : rview k' = rview k -> rcv_inv lg k -> rcv_inv lg k'.
Proof.
  intros E. assert (rdata k' = rdata k) as Ed by (unfold rview in E; congruence).
  intros [Hd Hs [Hc Ha]]. constructor; eauto using rcv_data_frame, no_stall_frame.
  assert (k_acklist k' = k_acklist k /\ k_ackcount k' = k_ackcount k) as [E1 E2]
    by (unfold rview in E; split; congruence).
  unfold ack_inv. rewrite E1, E2. split; auto.
  eapply Forall_impl; [exact Ha|]. intros a. apply got_frame. auto.
Qed.

(** What an endpoint holds, it keeps. *)
Definition rcv_grows (k k' : ikcpcb) : Prop :=
  k_rcv_nxt k <= k_rcv_nxt k' /\ forall i, got k i -> got k' i.

Lemma rcv_grows_refl k : rcv_grows k k.
Proof. split; auto. lia. Qed.

Lemma rcv_grows_trans a b c : rcv_grows a b -> rcv_grows b c -> rcv_grows a c.
Proof. intros [? ?] [? ?]. split; [lia|auto]. Qed.

Lemma rcv_grows_frame k k' : rdata k' = rdata k -> rcv_grows k k'.
Proof.
  intros E. split; [|intros i; apply got_frame; auto]. unfold rdata in E. injection E. lia.
Qed.

Lemma ack_inv_grows k k' :
  rcv_grows k k' -> k_acklist k' = k_acklist k -> k_ackcount k' = k_ackcount k ->
  ack_inv k -> ack_inv k'.
Proof.
  intros [_ Hg] E1 E2 [Hc Ha]. unfold ack_inv. rewrite E1, E2. split; auto.
  eapply Forall_impl; [exact Ha|]. intros a. apply Hg.
Qed.

(** The first segment not yet handed to the application. *)
Definition consumed (k : ikcpcb) : Z := k_rcv_nxt k - zlen (k_rcv_queue k).

(** ** The send half *)

Record in_flight (conv : Z) (lg : list frag) (k : ikcpcb) (s : IKCPSEG) : Prop := {
  if_conv : sg_conv s = conv;
  if_cmd : sg_cmd s = IKCP_CMD_PUSH;
  if_sn : sg_sn s < k_snd_nxt k;
  if_log : nth_frag lg (sg_sn s) = Some (frag_of s);
  if_fits : seg_fits (k_mss k) s
}.

Record snd_inv (conv : Z) (lg : list frag) (peer_got : Z -> Prop) (k : ikcpcb) : Prop := {
  si_conv : k_conv k = conv;
  si_stream : k_stream k = 0;
  si_mss : 0 < k_mss k;
  si_mtu : k_mtu k = k_mss k + IKCP_OVERHEAD /\ k_mtu k < 1073741824;
  si_nxt : 0 <= k_snd_nxt k <= zlen lg;
  si_que : map frag_of (k_snd_queue k) = zdrop (k_snd_nxt k) lg;
  si_fits : Forall (seg_fits (k_mss k)) (k_snd_queue k);
  si_nque : k_nsnd_que k = zlen (k_snd_queue k);
  si_buf : Forall (in_flight conv lg k) (k_snd_buf k);
  si_nbuf : k_nsnd_buf k = zlen (k_snd_buf k) /\ zlen (k_snd_buf k) <= k_snd_nxt k;
  si_kept : forall i, 0 <= i < k_snd_nxt k ->
            peer_got i \/ exists s, s ∈ k_snd_buf k /\ sg_sn s = i
}.

Definition sview (k : ikcpcb) :=
  (k_conv k, k_stream k, (k_mss k, k_mtu k), k_snd_nxt k, (k_snd_queue k, k_snd_buf k),
   (k_nsnd_que k, k_nsnd_buf k)).

Lemma in_flight_frame conv lg k k' s :
  k_snd_nxt k' = k_snd_nxt k -> k_mss k' = k_mss k -> in_flight conv lg k s -> in_flight conv lg k' s.
Proof. intros E1 E2 []. constructor; rewrite ?E1, ?E2; auto. Qed.

Lemma snd_inv_frame conv lg P k k' : sview k' = sview k -> snd_inv conv lg P k -> snd_inv conv lg P k'.
Proof.
  unfold sview. intros [= E1 E2 E3 E4 E5 E6 E7 E8 E9] []. constructor;
    rewrite ?E1, ?E2, ?E3, ?E4, ?E5, ?E6, ?E7, ?E8, ?E9; auto.
  eapply Forall_impl; [eassumption|]. intros s. apply in_flight_frame; auto.
Qed.

Lemma snd_inv_peer conv lg (P Q : Z -> Prop) k :
  (forall i, P i -> Q i) -> snd_inv conv lg P k -> snd_inv conv lg Q k.
Proof.
  intros HPQ []. constructor; auto. intros i Hi. destruct (si_kept0 i Hi); auto.
Qed.

Lemma snd_queue_length conv lg P k :
  snd_inv conv lg P k -> k_snd_nxt k + zlen (k_snd_queue k) = zlen lg.
Proof.
  intros []. apply (f_equal length) in si_que0. rewrite length_map, length_drop in si_que0. lia.
Qed.

(** ** Receiving *)

(** A run of segments found in the log one after the other is a slice of it. *)
Lemma slice_map lg q c :
  0 <= c -> (forall j s, q !! j = Some s -> nth_frag lg (c + Z.of_nat j) = Some (frag_of s)) ->
  map frag_of q = ztake (zlen q) (zdrop c lg).
Proof.
  intros Hc Hq. apply list_eq. intros j. rewrite list_lookup_fmap.
  destruct (q !! j) as [s|] eqn:E; cbn.
  - specialize (Hq j s E). apply lookup_lt_Some in E. unfold nth_frag in Hq.
    destruct (Z.ltb_spec (c + Z.of_nat j) 0); [lia|].
    rewrite lookup_take_lt by lia. rewrite lookup_drop, <- Hq. f_equal. lia.
  - apply lookup_ge_None in E. symmetry. apply lookup_take_ge. lia.
Qed.

Lemma consecutive_log lg nxt mv :
  0 <= nxt -> zlen lg < 2147483648 -> nxt <= zlen lg ->
  consecutive nxt mv -> Forall (from_log lg) mv ->
  nxt + zlen mv <= zlen lg /\
  forall j s, mv !! j = Some s -> sg_sn s = nxt + Z.of_nat j.
Proof.
  intros Hn Hlg Hle Hc Hf.
  assert (Hall : forall j s, mv !! j = Some s -> Z.of_nat j < 2147483648 -> sg_sn s = nxt + Z.of_nat j /\ nxt + Z.of_nat j < zlen lg).
  { intros j s Hj Hb. specialize (Hc j s Hj). rewrite wrap_id in Hc by (unfold in_u; zpow; lia).
    destruct (Forall_lookup_1 _ _ _ _ Hf Hj) as [Hl _]. apply nth_frag_range in Hl. lia. }
  assert (Hlen : zlen mv < 2147483648).
  { destruct (Z.ltb_spec (zlen mv) 2147483648); auto.
    destruct (lookup_lt_is_Some_2 mv (Z.to_nat 2147483647)) as [s Hs]; [lia|].
    destruct (Hall _ _ Hs); lia. }
  split.
  - destruct mv as [|x mv] using rev_ind; [cbn; lia|]. clear IHmv. rewrite length_app in *. cbn [length] in *.
    destruct (Hall (length mv) x) as [_ Hx]; [|lia|lia].
    rewrite lookup_app_r, Nat.sub_diag by lia. reflexivity.
  - intros j s Hj. apply (Hall j s Hj). apply lookup_lt_Some in Hj. lia.
Qed.

Lemma rcv_move_acks k :
  k_acklist (rcv_move k) = k_acklist k /\ k_ackcount (rcv_move k) = k_ackcount k /\
  k_rcv_wnd (rcv_move k) = k_rcv_wnd k /\ sview (rcv_move k) = sview k.
Proof. repeat split. Qed.

Lemma rcv_move_inv lg k :
  zlen lg < 2147483648 -> rcv_data lg k ->
  rcv_data lg (rcv_move k) /\ no_stall (rcv_move k) /\ rcv_grows k (rcv_move k) /\ consumed (rcv_move k) = consumed k /\
  exists mv, k_rcv_queue (rcv_move k) = k_rcv_queue k ++ mv.
Proof.
  intros Hlg [Hwf Hwnd Hnxt Hbuf Hfull Hlen Hque].
  destruct (rcv_move_spec k Hwf) as (Hwf' & mv & Hb & Hc & Hq & Hn & Hst).
  pose proof Hwf as [Hu _ _ _ _ _ _]. unfold in_u in Hu.
  rewrite Hb in Hbuf. apply Forall_app in Hbuf as [Hmv Hrest].
  destruct (consecutive_log lg (k_rcv_nxt k) mv ltac:(lia) Hlg Hnxt Hc Hmv) as [Hle Hsn].
  rewrite wrap_id in Hn by (unfold in_u; zpow; lia).
  destruct (rcv_move_acks k) as (E1 & E2 & E3 & _).
  revert Hwf' Hb Hrest Hq Hn Hst E1 E2 E3. generalize (rcv_move k).
  intros k' Hwf' Hb Hrest Hq Hn Hst E1 E2 E3.
  assert (Hgrow : rcv_grows k k').
  { split; [lia|]. intros i [Hi|(s & Hs & Hi)]; [left; lia|]. rewrite Hb in Hs.
    apply elem_of_app in Hs as [Hs|Hs]; [|right; eauto].
    apply list_elem_of_lookup in Hs as [j Hj]. left. pose proof (Hsn j s Hj).
    apply lookup_lt_Some in Hj. lia. }
  assert (Hcon : consumed k' = consumed k).
  { unfold consumed. rewrite Hq, Hn, length_app. lia. }
  split; [|split; [unfold no_stall; destruct (k_rcv_buf k'); auto; lia|eauto]].
  unfold consumed in Hcon. constructor; auto; rewrite ?E1, ?E2, ?E3; auto.
  - lia.
  - rewrite Hq. apply Forall_app. split; auto. eapply Forall_impl; [exact Hmv|]. intros s []. auto.
  - rewrite Hq, Hn, length_app. lia.
  - intros j s Hj. rewrite Hcon. rewrite Hq in Hj. apply lookup_app_Some in Hj as [Hj|[Hge Hj]]; auto.
    destruct (Forall_lookup_1 _ _ _ _ Hmv Hj) as [Hl _]. rewrite <- Hl, (Hsn _ _ Hj). f_equal. lia.
Qed.

Lemma got_placed k k' seg :
  k_rcv_nxt k' = k_rcv_nxt k ->
  (forall s, s ∈ k_rcv_buf k' <-> s ∈ k_rcv_buf k \/ s = seg) ->
  (forall i, got k i -> got k' i) /\ got k' (sg_sn seg).
Proof.
  intros Hn Hm. unfold got. rewrite Hn. split.
  - intros i [Hi|(s & Hs & Hi)]; [auto|right]. exists s. rewrite Hm. auto.
  - right. exists seg. rewrite Hm. auto.
Qed.

Lemma rcv_data_placed lg k k' :
  rcv_data lg k -> rcv_wf k' -> k_rcv_nxt k' = k_rcv_nxt k -> k_rcv_queue k' = k_rcv_queue k ->
  k_rcv_wnd k' = k_rcv_wnd k -> Forall (from_log lg) (k_rcv_buf k') -> rcv_data lg k'.
Proof.
  intros [] Hwf E1 E2 E3 Hb. constructor; rewrite ?E1, ?E2, ?E3; auto.
Qed.

(** [ikcp_parse_data] on a segment of the log. *)
Lemma parse_data_inv lg k seg :
  log_ok lg -> rcv_data lg k -> no_stall k -> from_log lg seg ->
  let k' := ikcp_parse_data k seg in
  rcv_data lg k' /\ no_stall k' /\ rcv_grows k k' /\ consumed k' = consumed k /\
  (in_window k (sg_sn seg) = true -> got k' (sg_sn seg)).
Proof.
  intros [Hlg _] Hd Hs Hseg. cbv zeta. rewrite parse_data_place.
  destruct (in_window k (sg_sn seg)) eqn:Hw;
    [|repeat (split; [auto using rcv_grows_refl|]); discriminate].
  pose proof Hseg as [Hsn _]. apply nth_frag_range in Hsn.
  pose proof Hd as [Hwf _ _ Hbuf _ _ _].
  destruct (place_seg_spec k seg Hwf) as (Hwf' & En & Eq & Ew & Hmem); auto.
  { unfold in_u. zpow. lia. }
  revert Hwf' En Eq Ew Hmem. generalize (place_seg k seg). intros k1 Hwf' En Eq Ew Hmem.
  assert (H1 : rcv_data lg k1 /\ (forall i, got k i -> got k1 i) /\ got k1 (sg_sn seg)).
  { destruct (decide _) as [Hex|_].
    - subst k1. split; [auto|split; [auto|]]. right.
      apply Exists_exists in Hex as (s & Hin & He). eauto.
    - split; [|apply got_placed; auto]. apply (rcv_data_placed lg k); auto.
      apply Forall_forall. intros s Hs'. apply Hmem in Hs' as [Hs'| ->]; auto.
      rewrite Forall_forall in Hbuf. auto. }
  destruct H1 as (H1 & H2 & H3).
  destruct (rcv_move_inv lg k1 Hlg H1) as (H4 & H5 & [H6 H7] & H8 & _).
  split; [auto|split; [auto|split; [split|split]]]; auto; [lia|].
  rewrite H8. unfold consumed. congruence.
Qed.

(** [ikcp_ack_push] of a segment that is held. *)
Lemma ack_push_inv k sn ts :
  rdata (ikcp_ack_push k sn ts) = rdata k /\ sview (ikcp_ack_push k sn ts) = sview k /\
  (ack_inv k -> forall k', rcv_grows k k' -> got k' sn ->
   k_acklist k' = k_acklist (ikcp_ack_push k sn ts) ->
   k_ackcount k' = k_ackcount (ikcp_ack_push k sn ts) -> ack_inv k').
Proof.
  repeat (split; [reflexivity|]). intros [Hc Ha] k' [_ Hg] Hsn El Ec.
  unfold ack_inv. rewrite El, Ec. unfold ikcp_ack_push. cbv zeta. kred.
  assert (Hl : zlen (ztake (k_ackcount k) (k_acklist k) ++ [(sn, ts)]) = k_ackcount k + 1).
  { rewrite length_app, length_take. cbn [length]. lia. }
  rewrite Hl. pose proof (wrap_range 32 (k_ackcount k + 1) ltac:(lia)).
  assert (u32 (k_ackcount k + 1) <= k_ackcount k + 1) by (apply Z.mod_le; zpow; lia).
  split; [lia|]. apply Forall_take, Forall_app. split; [|auto].
  eapply Forall_impl; [exact Ha|]. intros a. apply Hg.
Qed.

(** ** Segments of the peer *)

(** What the endpoint [k], which sends the log [lg], puts on the wire. *)
Record genuine (conv : Z) (lg : list frag) (k : ikcpcb) (s : IKCPSEG) : Prop := {
  ge_conv : sg_conv s = conv;
  ge_cmd : known_cmd (sg_cmd s) = true;
  ge_full : seg_full s;
  ge_len : sg_len s < 1073741824;
  ge_una : 0 <= sg_una s <= k_rcv_nxt k;
  ge_push : sg_cmd s = IKCP_CMD_PUSH -> nth_frag lg (sg_sn s) = Some (frag_of s);
  ge_ack : sg_cmd s = IKCP_CMD_ACK -> in_u 32 (sg_sn s) /\ got k (sg_sn s)
}.

Lemma genuine_mono conv lg l k k' s :
  rcv_grows k k' -> genuine conv lg k s -> genuine conv (lg ++ l) k' s.
Proof.
  intros [Hn Hg] []. constructor; auto; [lia|auto using nth_frag_app|].
  intros Hc. destruct (ge_ack0 Hc). auto.
Qed.

Lemma known_cmd_byte c : known_cmd c = true -> u8 c = c.
Proof.
  unfold known_cmd. intros Hc. apply wrap_id. unfold in_u. zpow.
  unfold IKCP_CMD_PUSH, IKCP_CMD_ACK, IKCP_CMD_WASK, IKCP_CMD_WINS in Hc.
  repeat (apply orb_true_iff in Hc as [Hc|Hc]); apply Z.eqb_eq in Hc; lia.
Qed.

Lemma genuine_wire_ok conv lg k s : in_u 64 conv -> genuine conv lg k s -> wire_ok conv s.
Proof.
  intros Hc []. constructor; auto; [rewrite ge_conv0; apply wrap_id; auto| |lia].
  rewrite known_cmd_byte; auto.
Qed.

Lemma push_segment_log lg s :
  log_ok lg -> nth_frag lg (sg_sn s) = Some (frag_of s) -> seg_full s -> sg_len s < 1073741824 ->
  sg_sn (push_segment (wire_header s) (payload s)) = sg_sn s /\
  from_log lg (push_segment (wire_header s) (payload s)).
Proof.
  intros Hlg Hl Hf Hlen. pose proof (nth_frag_range _ _ _ Hl) as Hr.
  pose proof (nth_frag_byte _ _ _ Hlg Hl) as Hb. destruct Hlg as [Hlg _]. cbn [frag_of fst] in Hb.
  rewrite payload_full by auto. unfold seg_full in Hf.
  assert (E1 : u32 (sg_sn s) = sg_sn s) by (apply wrap_id; unfold in_u; zpow; lia).
  assert (E2 : u8 (sg_frg s) = sg_frg s) by (apply wrap_id; unfold in_u; zpow; lia).
  assert (E3 : u32 (sg_len s) = sg_len s) by (apply wrap_id; unfold in_u; zpow; lia).
  unfold push_segment, from_log, frag_of, seg_full. cbn [wire_header h_len h_sn h_frg].
  rewrite E1, E2, E3. unfold ikcp_segment_new.
  assert (Hd : sg_data s = if 0 <? sg_len s then sg_data s else replicate (Z.to_nat (sg_len s)) Byte.x00).
  { zcase; auto. rewrite Hf. destruct (sg_data s); [reflexivity|cbn in *; lia]. }
  destruct (0 <? sg_len s); kred; repeat split; auto; rewrite <- Hd; auto.
Qed.

(** [input_push] on a data segment of the peer. *)
Lemma input_push_inv lg k s :
  log_ok lg -> rcv_inv lg k ->
  nth_frag lg (sg_sn s) = Some (frag_of s) -> seg_full s -> sg_len s < 1073741824 ->
  let k' := input_push k (wire_header s) (payload s) in
  rcv_inv lg k' /\ rcv_grows k k' /\ consumed k' = consumed k /\ sview k' = sview k.
Proof.
  intros Hlg Hinv Hl Hf Hlen. pose proof Hinv as [Hd Hst Hack]. pose proof (nth_frag_range _ _ _ Hl) as Hr.
  destruct (push_segment_log lg s Hlg Hl Hf Hlen) as [Hsn Hfl]. pose proof Hlg as [Hlt _].
  cbv zeta. unfold input_push. cbn [wire_header h_sn h_ts].
  rewrite !(wrap_id 32 (sg_sn s)) by (unfold in_u; zpow; lia).
  destruct (Z.ltb_spec (itimediff (sg_sn s) (u32 (k_rcv_nxt k + k_rcv_wnd k))) 0) as [Hw|];
    [|auto using rcv_grows_refl].
  set (ts := u32 (sg_ts s)). destruct (ack_push_inv k (sg_sn s) ts) as (Er & Es & Ha).
  specialize (Ha Hack). revert Er Es Ha. generalize (ikcp_ack_push k (sg_sn s) ts). intros k1 Er Es Ha.
  pose proof (rcv_data_frame lg k k1 Er Hd) as Hd1. pose proof (no_stall_frame k k1 Er Hst) as Hst1.
  pose proof (rcv_grows_frame k k1 Er) as Hg1.
  assert (Ec : consumed k1 = consumed k) by (unfold rdata in Er; unfold consumed; congruence).
  assert (En : k_rcv_nxt k1 = k_rcv_nxt k) by (unfold rdata in Er; congruence).
  assert (Ew : k_rcv_wnd k1 = k_rcv_wnd k) by (unfold rdata in Er; congruence).
  destruct (Z.leb_spec 0 (itimediff (sg_sn s) (k_rcv_nxt k1))) as [Hge|Hlt2].
  - destruct (parse_data_inv lg k1 (push_segment (wire_header s) (payload s)))
      as (H1 & H2 & H3 & H4 & H5); auto.
    rewrite Hsn in H5. specialize (H5 ltac:(unfold in_window; rewrite Ew, En in *; repeat zcase; cbn; lia)).
    assert (E : sview (ikcp_parse_data k1 (push_segment (wire_header s) (payload s))) = sview k1 /\
                k_acklist (ikcp_parse_data k1 (push_segment (wire_header s) (payload s))) = k_acklist k1 /\
                k_ackcount (ikcp_parse_data k1 (push_segment (wire_header s) (payload s))) = k_ackcount k1).
    { rewrite parse_data_place. destruct (in_window _ _); [|auto]. unfold place_seg. cbv zeta.
      destruct (pl_repeat _); repeat split. }
    destruct E as (E1 & E2 & E3). revert H1 H2 H3 H4 H5 E1 E2 E3.
    generalize (ikcp_parse_data k1 (push_segment (wire_header s) (payload s))). intros k' H1 H2 H3 H4 H5 E1 E2 E3.
    pose proof (rcv_grows_trans _ _ _ Hg1 H3) as Hg. split; [constructor; auto|].
    split; [auto|split; congruence].
  - destruct Hd1 as [Hwf _ Hn _ _ _ _]. destruct Hwf as [Hu _ _ _ _ _ _]. unfold in_u in Hu.
    assert (Hgot : got k1 (sg_sn s)).
    { left. rewrite itimediff_small in Hlt2 by lia. lia. }
    split; [constructor; auto|]; auto. apply (rcv_data_frame lg k); auto.
Qed.

(** ** Acknowledgements *)

Lemma in_flight_same conv lg k s x : same_data s x -> in_flight conv lg k s -> in_flight conv lg k x.
Proof.
  intros (E1 & E2 & E3 & E4 & E5 & E6) []. constructor; try congruence.
  - rewrite E4, if_log0. unfold frag_of. congruence.
  - unfold seg_fits, seg_full in *. rewrite E5, E6. auto.
Qed.

(** Everything of the send half but the segments in flight is as before. *)
Definition sframe (k : ikcpcb) :=
  (k_conv k, k_stream k, (k_mss k, k_mtu k), k_snd_nxt k, k_snd_queue k, k_nsnd_que k).

(** Dropping held segments from [snd_buf], or touching only timers. *)
Lemma snd_inv_buf conv lg (P : Z -> Prop) k k' :
  snd_inv conv lg P k -> sframe k' = sframe k ->
  (forall x, x ∈ k_snd_buf k' -> exists s, s ∈ k_snd_buf k /\ same_data s x) ->
  (forall s, s ∈ k_snd_buf k -> P (sg_sn s) \/ exists x, x ∈ k_snd_buf k' /\ sg_sn x = sg_sn s) ->
  zlen (k_snd_buf k') <= zlen (k_snd_buf k) -> k_nsnd_buf k' = zlen (k_snd_buf k') ->
  snd_inv conv lg P k'.
Proof.
  unfold sframe. intros [? ? ? ? ? ? ? ? Hb ? Hk] [= E1 E2 E3 E4 E5 E6 E7] Hsub Hcov Hlen Hn.
  constructor; rewrite ?E1, ?E2, ?E3, ?E4, ?E5, ?E6, ?E7; auto.
  - apply Forall_forall. intros x Hx. destruct (Hsub x Hx) as (s & Hs & Hsame).
    rewrite Forall_forall in Hb. apply (in_flight_frame conv lg k); auto.
    apply (in_flight_same conv lg k s); auto.
  - split; auto. lia.
  - intros i Hi. destruct (Hk i Hi) as [HP|(s & Hs & <-)]; auto.
Qed.

Lemma shrink_buf_views k :
  rview (ikcp_shrink_buf k) = rview k /\ sview (ikcp_shrink_buf k) = sview k.
Proof. unfold ikcp_shrink_buf. destruct (k_snd_buf k) eqn:E; split; reflexivity. Qed.

Lemma update_ack_views k rtt :
  rview (ikcp_update_ack k rtt) = rview k /\ sview (ikcp_update_ack k rtt) = sview k.
Proof. split; reflexivity. Qed.

Lemma in_flight_sn conv lg (P : Z -> Prop) k s :
  log_ok lg -> snd_inv conv lg P k -> s ∈ k_snd_buf k -> 0 <= sg_sn s < 2147483648.
Proof.
  intros [Hlg _] [] Hs. rewrite Forall_forall in si_buf0. destruct (si_buf0 s Hs).
  apply nth_frag_range in if_log0. lia.
Qed.

Lemma parse_una_inv conv lg (P : Z -> Prop) k una :
  log_ok lg -> 0 <= una < 2147483648 -> (forall i, 0 <= i < una -> P i) ->
  snd_inv conv lg P k -> snd_inv conv lg P (ikcp_parse_una k una).
Proof.
  intros Hlg Hu HP Hi. pose proof (in_flight_sn conv lg P k) as Hsn.
  pose proof Hi as [_ _ _ _ _ _ _ _ _ [Hn Hle] _].
  destruct (parse_una_spec una (k_snd_buf k) (k_nsnd_buf k)) as (d & Hd & Hdrop & Hcnt & _).
  unfold ikcp_parse_una. cbv zeta.
  assert (Hlt : k_snd_nxt k < 2147483648) by (destruct Hlg, Hi; lia).
  specialize (Hcnt ltac:(rewrite Hn; lia)). pose proof (f_equal length Hd) as Hlen. rewrite length_app in Hlen.
  rewrite wrap_id in Hcnt by (unfold in_u; zpow; lia).
  set (r := parse_una_loop _ _ _) in *. clearbody r.
  apply (snd_inv_buf conv lg P k); auto; kred; try lia.
  - intros x Hx. exists x. split; [|apply same_data_refl]. rewrite Hd. apply elem_of_app. auto.
  - intros s Hs. pose proof (Hsn s Hlg Hi Hs). rewrite Hd in Hs. apply elem_of_app in Hs as [Hs|Hs]; [left|eauto].
    rewrite Forall_forall in Hdrop. specialize (Hdrop s Hs). apply HP.
    rewrite itimediff_small in Hdrop by lia. lia.
Qed.

Lemma parse_ack_inv conv lg (P : Z -> Prop) k sn :
  log_ok lg -> P sn -> snd_inv conv lg P k -> snd_inv conv lg P (ikcp_parse_ack k sn).
Proof.
  intros Hlg HP Hi. unfold ikcp_parse_ack. destruct (ack_outside k sn); auto. cbv zeta.
  pose proof Hi as [_ _ _ _ Hnx _ _ _ _ [Hn Hle] _]. destruct Hlg as [Hlg _].
  destruct (parse_ack_loop_spec sn (k_snd_buf k) (k_nsnd_buf k)) as [[E1 E2]|(l1 & s & l2 & E & Es & E1 & E2)];
    set (r := parse_ack_loop _ _ _) in *; clearbody r; rewrite E1, E2.
  - apply (snd_inv_frame conv lg P k); auto.
  - rewrite E in Hn, Hle. rewrite length_app in Hn, Hle. cbn [length] in Hn, Hle.
    rewrite wrap_id by (unfold in_u; zpow; lia).
    apply (snd_inv_buf conv lg P k); auto; kred; rewrite ?E, ?length_app; cbn [length]; try lia.
    + intros x Hx. exists x. split; [|apply same_data_refl]. rewrite elem_of_app, elem_of_cons.
      apply elem_of_app in Hx. tauto.
    + intros x Hx. rewrite elem_of_app, elem_of_cons in Hx. destruct Hx as [Hx|[-> |Hx]].
      * right. exists x. rewrite elem_of_app. auto.
      * left. congruence.
      * right. exists x. rewrite elem_of_app. auto.
Qed.

Lemma same_but_fastack_data a b : same_but_fastack a b -> same_data a b.
Proof. unfold same_but_fastack. intros ->. repeat split. Qed.

(** Timers and counters of the segments in flight do not matter. *)
Lemma snd_inv_timers conv lg (P : Z -> Prop) k k' :
  snd_inv conv lg P k -> sframe k' = sframe k -> k_nsnd_buf k' = k_nsnd_buf k ->
  Forall2 same_data (k_snd_buf k) (k_snd_buf k') -> snd_inv conv lg P k'.
Proof.
  intros Hi E En H2. pose proof Hi as [_ _ _ _ _ _ _ _ _ [Hn _] _].
  pose proof (Forall2_length _ _ _ H2) as Hl.
  apply (snd_inv_buf conv lg P k); auto; try lia.
  - intros x Hx. apply list_elem_of_lookup in Hx as [j Hj].
    destruct (Forall2_lookup_r _ _ _ _ _ H2 Hj) as (s & Hs & Hsame).
    exists s. split; auto. apply list_elem_of_lookup. eauto.
  - intros s Hs. apply list_elem_of_lookup in Hs as [j Hj].
    destruct (Forall2_lookup_l _ _ _ _ _ H2 Hj) as (x & Hx & Hsame).
    right. exists x. split; [apply list_elem_of_lookup; eauto|]. apply Hsame.
Qed.

Lemma parse_fastack_inv conv lg (P : Z -> Prop) k sn :
  snd_inv conv lg P k -> snd_inv conv lg P (ikcp_parse_fastack k sn).
Proof.
  intros Hi. unfold ikcp_parse_fastack. destruct (ack_outside k sn); auto.
  apply (snd_inv_timers conv lg P k); auto. kred.
  eapply Forall2_impl; [apply parse_fastack_loop_spec|]. apply same_but_fastack_data.
Qed.

Lemma input_finish_views una k a :
  rview (input_finish una k a) = rview k /\
  (forall conv lg P, snd_inv conv lg P k -> snd_inv conv lg P (input_finish una k a)).
Proof.
  unfold input_finish. cbv zeta.
  set (k1 := if a_flag a then ikcp_parse_fastack k (a_maxack a) else k).
  assert (H1 : rview k1 = rview k /\
    (forall conv lg P, snd_inv conv lg P k -> snd_inv conv lg P k1)).
  { subst k1. destruct (a_flag a); auto. split; [|intros; apply parse_fastack_inv; auto].
    unfold ikcp_parse_fastack. destruct (ack_outside _ _); reflexivity. }
  destruct H1 as [<- H1]. clearbody k1. destruct (0 <? _); auto.
  unfold input_cwnd. destruct (_ <? _); auto. cbv zeta.
  split; [reflexivity|]. intros conv lg P Hi. apply (snd_inv_frame conv lg P k1); auto.
Qed.

(** ** A whole datagram *)

(** Both halves of an endpoint that sends [lg] and whose peer, with control
    block [kp], sends [lgp]. *)
Record peer_inv (conv : Z) (lg lgp : list frag) (P : Z -> Prop) (k : ikcpcb) : Prop := {
  pi_snd : snd_inv conv lg P k;
  pi_rcv : rcv_inv lgp k
}.

(** How receiving may change an endpoint. *)
Definition advances (k k' : ikcpcb) : Prop := rcv_grows k k' /\ consumed k' = consumed k.

Lemma advances_refl k : advances k k.
Proof. split; auto using rcv_grows_refl. Qed.

Lemma advances_trans a b c : advances a b -> advances b c -> advances a c.
Proof. intros [? E1] [? E2]. split; [eapply rcv_grows_trans; eauto|congruence]. Qed.

Lemma advances_frame k k' : rview k' = rview k -> advances k k'.
Proof.
  intros E. assert (rdata k' = rdata k) as Ed by (unfold rview in E; congruence).
  split; [apply rcv_grows_frame; auto|]. unfold rdata in Ed. unfold consumed. congruence.
Qed.

Lemma peer_inv_frame conv lg lgp P k k' :
  sview k' = sview k -> rview k' = rview k -> peer_inv conv lg lgp P k -> peer_inv conv lg lgp P k'.
Proof. intros E1 E2 []. split; [eapply snd_inv_frame; eauto|eapply rcv_inv_frame; eauto]. Qed.

Lemma parse_una_views k una : rview (ikcp_parse_una k una) = rview k.
Proof. reflexivity. Qed.

Lemma parse_ack_views k sn : rview (ikcp_parse_ack k sn) = rview k.
Proof. unfold ikcp_parse_ack. destruct (ack_outside k sn); reflexivity. Qed.

Lemma input_una_inv conv lg (P : Z -> Prop) k h :
  log_ok lg -> 0 <= h_una h < 2147483648 -> (forall i, 0 <= i < h_una h -> P i) ->
  snd_inv conv lg P k -> snd_inv conv lg P (input_una k h) /\ rview (input_una k h) = rview k.
Proof.
  intros Hlg Hu HP Hi. unfold input_una. cbv zeta.
  assert (H1 : snd_inv conv lg P (ikcp_parse_una (set_rmt_wnd (h_wnd h) k) (h_una h)))
    by (apply parse_una_inv; auto; apply (snd_inv_frame conv lg P k); auto).
  destruct (shrink_buf_views (ikcp_parse_una (set_rmt_wnd (h_wnd h) k) (h_una h))) as [-> E].
  split; [|reflexivity]. eapply snd_inv_frame; [exact E|exact H1].
Qed.

Lemma input_ack_inv conv lg (P : Z -> Prop) k h :
  log_ok lg -> P (h_sn h) -> snd_inv conv lg P k ->
  snd_inv conv lg P (input_ack k h) /\ rview (input_ack k h) = rview k.
Proof.
  intros Hlg HP Hi. unfold input_ack. cbv zeta.
  set (k1 := if 0 <=? itimediff (k_current k) (h_ts h) then _ else k).
  assert (E : rview k1 = rview k /\ sview k1 = sview k) by (subst k1; destruct (0 <=? _); auto).
  clearbody k1. destruct E as [E1 E2].
  assert (H1 : snd_inv conv lg P (ikcp_parse_ack k1 (h_sn h)))
    by (apply parse_ack_inv; auto; apply (snd_inv_frame conv lg P k); auto).
  destruct (shrink_buf_views (ikcp_parse_ack k1 (h_sn h))) as [-> E].
  rewrite parse_ack_views. split; [|exact E1]. eapply snd_inv_frame; [exact E|exact H1].
Qed.

(** Processing one segment that the peer [kp] sent. *)
Lemma step_seg_inv conv lg lgp kp k a s :
  log_ok lg -> log_ok lgp -> k_rcv_nxt kp <= zlen lg ->
  genuine conv lgp kp s -> peer_inv conv lg lgp (got kp) k ->
  peer_inv conv lg lgp (got kp) (fst (step_seg (k, a) s)) /\ advances k (fst (step_seg (k, a) s)).
Proof.
  intros Hlg Hlgp Hkp [? Hcmd Hfull Hlen Huna Hpush Hack] [Hs Hr].
  unfold step_seg, input_seg. cbv zeta. cbn [fst snd].
  pose proof Hlg as [Hlt _].
  assert (Eu : h_una (wire_header s) = sg_una s) by (apply wrap_id; unfold in_u; zpow; lia).
  destruct (input_una_inv conv lg (got kp) k (wire_header s) Hlg) as [H1 H2]; auto.
  { lia. }
  { intros i Hi. left. lia. }
  revert H1 H2. generalize (input_una k (wire_header s)). intros k1 H1 H2.
  assert (H3 : peer_inv conv lg lgp (got kp) k1)
    by (split; auto; eapply rcv_inv_frame; eauto).
  pose proof (advances_frame _ _ H2) as Ha.
  cbn [wire_header h_cmd]. rewrite known_cmd_byte by auto.
  destruct (Z.eqb_spec (sg_cmd s) IKCP_CMD_ACK) as [Ec|_].
  - destruct (Hack Ec) as [Hu Hg].
    destruct (input_ack_inv conv lg (got kp) k1 (wire_header s) Hlg) as [H4 H5]; auto.
    { cbn [wire_header h_sn]. rewrite wrap_id; auto. }
    cbn [fst]. split.
    + split; auto. apply (rcv_inv_frame lgp k1); auto. apply H3.
    + eapply advances_trans; [exact Ha|]. apply advances_frame. auto.
  - destruct (Z.eqb_spec (sg_cmd s) IKCP_CMD_PUSH) as [Ec|_]; cbn [fst].
    + destruct (input_push_inv lgp k1 s) as (H4 & H5 & H6 & H7); auto; [apply H3|].
      split; [split; auto; eapply snd_inv_frame; eauto|].
      eapply advances_trans; [exact Ha|]. split; auto.
    + destruct (sg_cmd s =? IKCP_CMD_WASK); cbn [fst]; auto.
      split; [apply (peer_inv_frame conv lg lgp (got kp) k1); auto|].
      eapply advances_trans; [exact Ha|]. apply advances_frame. reflexivity.
Qed.

Lemma fold_step_inv conv lg lgp kp ss k a :
  log_ok lg -> log_ok lgp -> k_rcv_nxt kp <= zlen lg ->
  Forall (genuine conv lgp kp) ss -> peer_inv conv lg lgp (got kp) k ->
  let k' := fst (fold_left step_seg ss (k, a)) in
  peer_inv conv lg lgp (got kp) k' /\ advances k k'.
Proof.
  intros Hlg Hlgp Hkp Hss. revert k a. induction Hss as [|s ss Hs _ IH]; intros k a Hk; cbn [fold_left].
  { split; auto using advances_refl. }
  destruct (step_seg_inv conv lg lgp kp k a s Hlg Hlgp Hkp Hs Hk) as [H1 H2].
  destruct (step_seg (k, a) s) as [k1 a1]. cbn [fst] in *.
  destruct (IH k1 a1 H1) as [H3 H4]. split; auto. eapply advances_trans; eauto.
Qed.

(** [ikcp_input] on a datagram of the peer. *)
Lemma input_inv conv lg lgp kp mtu d k :
  in_u 64 conv -> log_ok lg -> log_ok lgp -> k_rcv_nxt kp <= zlen lg -> mtu < 1073741824 ->
  dgram_ok mtu (genuine conv lgp kp) d -> peer_inv conv lg lgp (got kp) k ->
  exists k', ikcp_input k (Some d) (zlen d) = Some (0, k') /\
    peer_inv conv lg lgp (got kp) k' /\ advances k k'.
Proof.
  intros Hc Hlg Hlgp Hkp Hm (ss & -> & Hss & Hl) Hk.
  assert (Hmin : IKCP_OVERHEAD <= zlen (wire ss)).
  { destruct ss as [|s ss]; [cbn in Hl; lia|]. apply Forall_cons in Hss as [[? ? Hf ? ? ? ?] _].
    change (s :: ss) with ([s] ++ ss). rewrite wire_app, wire_one, length_app.
    pose proof (length_wire_seg s Hf). unfold seg_full in Hf. lia. }
  rewrite input_wire; [|rewrite (si_conv _ _ _ _ (pi_snd _ _ _ _ _ Hk));
    eapply Forall_impl; [exact Hss|]; intros s; apply genuine_wire_ok; auto|lia].
  destruct (fold_step_inv conv lg lgp kp ss k (mkScan false 0 0) Hlg Hlgp Hkp Hss Hk) as [H1 H2].
  cbv zeta. eexists. split; [reflexivity|].
  destruct (fold_left _ _ _) as [k1 a1]. cbn [fst snd] in *.
  destruct (input_finish_views (k_snd_una k) k1 a1) as [E1 E2].
  destruct H1 as [H3 H4]. split; [split; auto; eapply rcv_inv_frame; eauto|].
  eapply advances_trans; [exact H2|]. apply advances_frame. auto.
Qed.

(** ** Sending *)

Definition msg_block (mss : Z) (msg : list byte) : list frag := map frag_of (msg_frags mss msg).

Lemma countdown_range n : Forall (fun f => 0 <= f < Z.of_nat n) (countdown n).
Proof.
  induction n as [|n IH]; cbn [countdown]; constructor; [lia|].
  eapply Forall_impl; [exact IH|]. cbn. lia.
Qed.

Lemma length_countdown n : length (countdown n) = n.
Proof. induction n; cbn; auto. Qed.

Lemma length_msg_frags mss msg :
  mss_ok mss -> zlen msg < 1073741824 -> zlen (msg_frags mss msg) = frag_count mss (zlen msg).
Proof.
  intros Hm Hl. destruct (msg_frags_spec mss msg Hm Hl) as [H _].
  apply (f_equal length) in H. rewrite length_map, length_countdown in H. rewrite H.
  unfold mss_ok in Hm. pose proof (frag_count_pos mss (zlen msg) ltac:(lia)). lia.
Qed.

(** [ikcp_send] either refuses the message and does nothing, or queues its
    fragments at the end of the log. *)
Lemma send_inv conv lg lgp (P : Z -> Prop) k msg :
  log_ok lg -> peer_inv conv lg lgp P k -> zlen msg < 1073741824 ->
  let b := msg_block (k_mss k) msg in
  let r := ikcp_send k msg (zlen msg) in
  (fst r = -2 /\ snd r = k) \/
  (fst r = 0 /\ rview (snd r) = rview k /\ zlen b = frag_count (k_mss k) (zlen msg) /\ 0 < zlen b < 128 /\
   map fst b = countdown (length b) /\ concat (map snd b) = msg /\
   (zlen (lg ++ b) < 2147483648 -> log_ok (lg ++ b) /\ snd_inv conv (lg ++ b) P (snd r))).
Proof.
  intros Hlg [Hs _] Hlen. pose proof Hs as [Hc Hst Hm0 [Hmt1 Hmt2] Hnx Hq Hfit Hnq Hbuf [Hnb Hnb2] Hk].
  unfold IKCP_OVERHEAD in Hmt1. assert (Hm : mss_ok (k_mss k)) by (unfold mss_ok; lia).
  cbv zeta. rewrite (send_message_mode k msg Hst Hm Hlen).
  destruct (Z.leb_spec IKCP_WND_RCV (frag_count (k_mss k) (zlen msg))) as [|Hcnt]; [auto|right].
  unfold IKCP_WND_RCV in Hcnt. cbn [fst snd].
  destruct (msg_frags_spec (k_mss k) msg Hm Hlen) as (H1 & H2 & H3).
  pose proof (length_msg_frags (k_mss k) msg Hm Hlen) as Hn.
  pose proof (frag_count_pos (k_mss k) (zlen msg) Hm0) as Hpos.
  assert (Hb : zlen (msg_block (k_mss k) msg) = frag_count (k_mss k) (zlen msg))
    by (unfold msg_block; rewrite length_map; lia).
  assert (Hfst : map fst (msg_block (k_mss k) msg) = countdown (length (msg_block (k_mss k) msg))).
  { unfold msg_block. rewrite map_map. cbn [frag_of fst]. rewrite length_map.
    transitivity (countdown (Z.to_nat (frag_count (k_mss k) (zlen msg)))); [exact H1|f_equal; lia]. }
  split; [reflexivity|]. split; [reflexivity|]. split; [exact Hb|]. split; [lia|].
  split; [exact Hfst|]. split; [unfold msg_block; rewrite map_map; exact H2|].
  intros Hl. pose proof (snd_queue_length _ _ _ _ Hs) as Htot.
  assert (Hok : log_ok (lg ++ msg_block (k_mss k) msg)).
  { destruct Hlg as [_ Hlg]. split; auto. apply Forall_app. split; auto.
    pose proof (countdown_range (length (msg_block (k_mss k) msg))) as Hr. rewrite <- Hfst in Hr.
    apply Forall_map in Hr. eapply Forall_impl; [exact Hr|]. cbn. lia. }
  split; auto. rewrite length_app in Hl. constructor; kred; auto; rewrite ?length_app.
  - lia.
  - rewrite map_app, Hq, drop_app_le by lia. reflexivity.
  - apply Forall_app; auto.
  - rewrite wrap_id; [lia|]. unfold in_u. zpow. lia.
  - eapply Forall_impl; [exact Hbuf|]. intros s []. constructor; auto using nth_frag_app.
Qed.

(** ** Flushing *)

Lemma dgram_ok_impl m1 m2 (P Q : IKCPSEG -> Prop) d :
  m1 <= m2 -> (forall s, P s -> Q s) -> dgram_ok m1 P d -> dgram_ok m2 Q d.
Proof.
  intros Hm HPQ (ss & Hd & Hss & Hl). exists ss. repeat split; auto; [|lia|lia].
  eapply Forall_impl; eauto.
Qed.

Lemma got_u32 lg k i : log_ok lg -> rcv_data lg k -> got k i -> in_u 32 i.
Proof.
  unfold in_u. intros [Hlg _] [? ? Hn Hb ? ? ?] [Hi|(s & Hs & <-)]; zpow; [lia|].
  rewrite Forall_forall in Hb. destruct (Hb s Hs) as [Hl _]. apply nth_frag_range in Hl. lia.
Qed.

Section FlushInv.
Context (conv : Z) (lg lgp : list frag) (P : Z -> Prop) (k : ikcpcb).
Hypothesis log_lg : log_ok lg.
Hypothesis log_lgp : log_ok lgp.
Hypothesis inv : peer_inv conv lg lgp P k.

Lemma rcv_nxt_nonneg : 0 <= k_rcv_nxt k.
Proof. destruct inv as [_ [[[Hn ? ? ? ? ? ?] ? ? ? ? ? ?] _ _]]. unfold in_u in Hn. lia. Qed.

Lemma control_genuine cmd sn ts :
  cmd = IKCP_CMD_ACK /\ got k sn \/ cmd = IKCP_CMD_WASK \/ cmd = IKCP_CMD_WINS ->
  genuine conv lg k (control_seg k cmd sn ts).
Proof.
  pose proof rcv_nxt_nonneg. destruct inv as [Hs Hr]. intros Hc.
  constructor; unfold control_seg, flush_template; kred; try reflexivity.
  - apply Hs.
  - destruct Hc as [[-> _]|[-> | ->]]; reflexivity.
  - lia.
  - destruct Hc as [[-> _]|[-> | ->]]; discriminate.
  - intros ->. destruct Hc as [[_ Hg]|[Hc|Hc]]; try discriminate. split; auto.
    apply (got_u32 lgp k); auto. apply Hr.
Qed.

Lemma flight_sendable s :
  sg_conv s = conv -> sg_cmd s = IKCP_CMD_PUSH -> nth_frag lg (sg_sn s) = Some (frag_of s) ->
  seg_fits (k_mss k) s -> sendable (genuine conv lg k) k s.
Proof.
  intros Hc Hcmd Hl [Hf Hle]. pose proof rcv_nxt_nonneg.
  destruct inv as [[? ? ? [Hm1 Hm2] ? ? ? ? ? ? ?] Hr]. unfold IKCP_OVERHEAD in Hm1.
  split; [auto|split; [lia|]]. intros x (E1 & E2 & E3 & E4 & E5 & E6) Hu.
  constructor; try congruence.
  - rewrite E2, Hcmd. reflexivity.
  - lia.
  - rewrite Hu. lia.
  - intros _. rewrite E4, Hl. unfold frag_of. congruence.
  - rewrite E2, Hcmd. discriminate.
Qed.

Lemma queue_log i s :
  k_snd_queue k !! i = Some s -> nth_frag lg (k_snd_nxt k + Z.of_nat i) = Some (frag_of s).
Proof.
  intros Hs. destruct inv as [[? ? ? ? Hn Hq ? ? ? ? ?] _].
  assert (E : map frag_of (k_snd_queue k) !! i = Some (frag_of s)).
  { rewrite list_lookup_fmap, Hs. reflexivity. }
  rewrite Hq, lookup_drop in E. unfold nth_frag. destruct (Z.ltb_spec (k_snd_nxt k + Z.of_nat i) 0); [lia|].
  rewrite <- E. f_equal. lia.
Qed.

Lemma queue_sendable i s wnd :
  k_snd_queue k !! i = Some s ->
  sendable (genuine conv lg k) k (admit_seg k wnd (u32 (k_snd_nxt k + Z.of_nat i)) s).
Proof.
  intros Hs. pose proof (queue_log i s Hs) as Hl. pose proof (nth_frag_range _ _ _ Hl).
  destruct log_lg as [Hlt _]. destruct inv as [[? ? ? ? ? ? Hfit ? ? ? ?] _].
  rewrite wrap_id by (unfold in_u; zpow; lia).
  pose proof (Forall_lookup_1 _ _ _ _ Hfit Hs) as Hf.
  apply flight_sendable; cbn [admit_seg sg_conv sg_cmd sg_sn]; auto.
Qed.

Lemma flushed_snd_inv k' :
  flushed k k' -> flush_frame k k' -> snd_inv conv lg P k'.
Proof.
  intros (mv & adm & Hq & Hla & Hadm & Hsame & Hn & Hnq & Hnb)
    (E1 & E2 & E3 & E4 & _). pose proof queue_log as Hql.
  destruct inv as [Hs _]. pose proof (snd_queue_length _ _ _ _ Hs) as Htot.
  pose proof Hs as [Hcv ? ? ? Hnx Hqm Hfit Hnqz Hbuf [Hnbz Hnb2] Hkept]. destruct log_lg as [Hlt _].
  rewrite Hq, length_app in Htot. pose proof (Forall2_length _ _ _ Hsame) as Hlen. rewrite length_app in Hlen.
  rewrite wrap_id in Hn, Hnq, Hnb by (unfold in_u; zpow; rewrite ?Hnqz, ?Hq, ?length_app in *; lia).
  rewrite Hq in Hnqz, Hfit, Hqm. apply Forall_app in Hfit as [Hfm Hfit]. rewrite length_app in Hnqz.
  assert (Hin : Forall (in_flight conv lg k') (k_snd_buf k ++ adm)).
  { apply Forall_app. split.
    - eapply Forall_impl; [exact Hbuf|]. intros s []. constructor; rewrite ?E3; auto. lia.
    - apply Forall_lookup. intros i x Hx. destruct (Hadm i x Hx) as (s & Hsi & F1 & F2 & F3 & F4 & F5 & F6).
      assert (Hl : nth_frag lg (k_snd_nxt k + Z.of_nat i) = Some (frag_of s))
        by (apply Hql; rewrite Hq; apply lookup_app_l_Some; auto).
      pose proof (nth_frag_range _ _ _ Hl). pose proof (lookup_lt_Some _ _ _ Hsi).
      rewrite wrap_id in F4 by (unfold in_u; zpow; lia).
      pose proof (Forall_lookup_1 _ _ _ _ Hfm Hsi) as [Hfull Hfle].
      constructor; rewrite ?F4, ?E3; [congruence|congruence|lia|rewrite Hl; unfold frag_of; congruence|].
      unfold seg_fits, seg_full in *. rewrite F5, F6. auto. }
  assert (Hcov : forall s, s ∈ k_snd_buf k ++ adm -> exists x, x ∈ k_snd_buf k' /\ sg_sn x = sg_sn s).
  { intros s Hx. apply list_elem_of_lookup in Hx as [j Hj].
    destruct (Forall2_lookup_l _ _ _ _ _ Hsame Hj) as (x & Hx & E).
    exists x. split; [apply list_elem_of_lookup; eauto|]. apply E. }
  constructor; rewrite ?E1, ?E2, ?E3, ?E4, ?Hn; auto; try lia.
  - rewrite map_app in Hqm. replace (Z.to_nat (k_snd_nxt k + zlen mv))
      with (Z.to_nat (k_snd_nxt k) + length mv)%nat by lia.
    rewrite <- drop_drop, <- Hqm, drop_app_all by (rewrite length_map; reflexivity). reflexivity.
  - apply Forall_lookup. intros i x Hx.
    destruct (Forall2_lookup_r _ _ _ _ _ Hsame Hx) as (s & Hsi & E).
    apply (in_flight_same conv lg k' s); auto. exact (Forall_lookup_1 _ _ _ _ Hin Hsi).
  - intros i Hi. destruct (Z.ltb_spec i (k_snd_nxt k)) as [Hlo|Hhi].
    + destruct (Hkept i ltac:(lia)) as [|(s & Hss & <-)]; auto. right. apply Hcov, elem_of_app. auto.
    + right. destruct (lookup_lt_is_Some_2 adm (Z.to_nat (i - k_snd_nxt k))) as [x Hx]; [lia|].
      destruct (Hadm _ _ Hx) as (s & Hsi & _ & _ & _ & F4 & _).
      rewrite wrap_id in F4 by (unfold in_u; zpow; lia).
      destruct (Hcov x) as (y & Hy & Ey); [|exists y; split; auto; lia].
      apply elem_of_app. right. apply list_elem_of_lookup. eauto.
Qed.
End FlushInv.

Lemma genuine_frame conv lg k k' s :
  rdata k' = rdata k -> genuine conv lg k s -> genuine conv lg k' s.
Proof.
  intros E Hg. rewrite <- (app_nil_r lg). apply (genuine_mono conv lg [] k); auto.
  apply rcv_grows_frame. auto.
Qed.

(** No datagram is longer than this, whatever MTU is configured. *)
Definition mtu_max : Z := 1073741823.

(** The result of an operation that may call the output callback. *)
Definition sent_ok (conv : Z) (lg lgp : list frag) (P : Z -> Prop) (k : ikcpcb)
    (r : ikcpcb * list (list byte)) : Prop :=
  peer_inv conv lg lgp P (fst r) /\ advances k (fst r) /\
  Forall (dgram_ok mtu_max (genuine conv lg (fst r))) (snd r).

Lemma flush_inv conv lg lgp (P : Z -> Prop) k :
  log_ok lg -> log_ok lgp -> peer_inv conv lg lgp P k -> sent_ok conv lg lgp P k (ikcp_flush k).
Proof.
  intros Hlg Hlgp Hi. destruct (Z.eqb_spec (k_updated k) 0) as [Hu|Hu].
  { unfold ikcp_flush. rewrite Hu. split; [auto|split; [apply advances_refl|constructor]]. }
  pose proof Hi as [Hs Hr]. pose proof Hs as [Hcv _ Hm [Hm1 Hm2] Hnx Hq Hfit Hnq Hbuf [Hnb Hnb2] _].
  unfold IKCP_OVERHEAD in Hm1. pose proof (snd_queue_length _ _ _ _ Hs) as Htot.
  pose proof Hlg as [Hlt _]. destruct Hr as [Hd Hst [Hc Hacks]].
  destruct (flush_ok k (genuine conv lg k)) as (H1 & H2 & H3 & H4); auto;
    try (unfold in_u; zpow; lia).
  - eapply Forall_impl; [exact Hacks|]. intros a Ha. apply (control_genuine conv lg lgp P k); auto.
  - intros. apply (control_genuine conv lg lgp P k); auto.
  - eapply Forall_impl; [exact Hbuf|]. intros s []. apply (flight_sendable conv lg lgp P k); auto.
  - intros. apply (queue_sendable conv lg lgp P k); auto.
  - pose proof (flushed_snd_inv conv lg lgp P k Hlg Hi _ H1 H2) as Hs'.
    revert H1 H2 H3 H4 Hs'. destruct (ikcp_flush k) as [k' out]. cbn [fst snd]. intros _ H2 H3 H4 Hs'.
    destruct H2 as (_ & _ & _ & _ & _ & R1 & R2 & R3 & R4 & R5 & R6 & R7 & _).
    assert (Ed : rdata k' = rdata k) by (unfold rdata; congruence).
    split; [split; [auto|]|split].
    + split; [eapply rcv_data_frame; eauto|eapply no_stall_frame; eauto|].
      unfold ack_inv. cbn [fst]. rewrite H3. split; [lia|constructor].
    + split; [apply rcv_grows_frame; auto|unfold consumed; cbn [fst]; congruence].
    + eapply Forall_impl; [exact H4|]. intros d. apply dgram_ok_impl; [unfold mtu_max; lia|].
      intros s. apply genuine_frame. auto.
Qed.

Lemma update_inv conv lg lgp (P : Z -> Prop) k now :
  log_ok lg -> log_ok lgp -> peer_inv conv lg lgp P k ->
  sent_ok conv lg lgp P k (ikcp_update k now).
Proof.
  intros Hlg Hlgp Hi. unfold ikcp_update. cbv zeta.
  set (k1 := set_current now k). set (k2 := if k_updated k1 =? 0 then _ else k1).
  set (k3 := if (_ || _) then set_ts_flush (k_current k2) k2 else k2).
  assert (E : sview k3 = sview k /\ rview k3 = rview k).
  { subst k3. destruct (_ || _); subst k2; destruct (k_updated k1 =? 0); split; reflexivity. }
  clearbody k3. destruct E as [E1 E2]. pose proof (peer_inv_frame conv lg lgp P k k3 E1 E2 Hi) as H3.
  destruct (0 <=? _).
  - set (k4 := if 0 <=? _ then _ else set_ts_flush _ k3).
    assert (E : sview k4 = sview k3 /\ rview k4 = rview k3) by (subst k4; destruct (0 <=? _); auto).
    clearbody k4. destruct E as [E3 E4].
    destruct (flush_inv conv lg lgp P k4 Hlg Hlgp) as (H5 & H6 & H7).
    { eapply peer_inv_frame; eauto. }
    split; [auto|split; auto]. eapply advances_trans; [|exact H6]. apply advances_frame. congruence.
  - split; [auto|split; [|constructor]]. apply advances_frame. auto.
Qed.

(** ** Configuration *)

Lemma nodelay_views k a b c d :
  sview (snd (ikcp_nodelay k a b c d)) = sview k /\ rview (snd (ikcp_nodelay k a b c d)) = rview k.
Proof.
  unfold ikcp_nodelay. cbv zeta. cbn [snd].
  destruct (0 <=? a), (0 <=? b), (0 <=? c), (0 <=? d); split; reflexivity.
Qed.

Lemma wndsize_inv conv lg lgp (P : Z -> Prop) k a b :
  b < 2147483648 -> peer_inv conv lg lgp P k ->
  peer_inv conv lg lgp P (snd (ikcp_wndsize k a b)) /\ advances k (snd (ikcp_wndsize k a b)).
Proof.
  intros Hb [Hs [[[] ? ? ? ? ? ?] Hst Ha]]. unfold ikcp_wndsize. cbv zeta. cbn [snd].
  set (k1 := if 0 <? a then _ else k).
  assert (E : sview k1 = sview k /\ rview k1 = rview k) by (subst k1; destruct (0 <? a); auto).
  clearbody k1. destruct E as [E1 E2].
  assert (Hk : peer_inv conv lg lgp P k1)
    by (apply (peer_inv_frame conv lg lgp P k); auto; repeat (constructor; auto)).
  pose proof (advances_frame _ _ E2) as Hadv. destruct (0 <? b); auto.
  destruct Hk as [Hs1 [[[] ? ? ? ? ? ?] Hst1 Ha1]].
  split; [split; [eapply snd_inv_frame; [|exact Hs1]; reflexivity|]|].
  - constructor; auto. constructor; auto; kred; unfold imax, IKCP_WND_RCV in *; repeat zcase; try lia.
    all: constructor; kred; auto; repeat zcase; lia.
  - eapply advances_trans; [exact Hadv|]. split; [|reflexivity]. split; [kred; lia|]. auto.
Qed.

Lemma setmtu_inv conv lg lgp (P : Z -> Prop) k mtu ok :
  k_mtu k <= mtu < 1073741824 -> peer_inv conv lg lgp P k ->
  peer_inv conv lg lgp P (snd (ikcp_setmtu k mtu ok)) /\ advances k (snd (ikcp_setmtu k mtu ok)).
Proof.
  intros Hm [Hs Hr]. unfold ikcp_setmtu.
  destruct (_ || _); [split; [split|]; auto using advances_refl|].
  destruct (negb ok); [split; [split|]; auto using advances_refl|]. cbn [snd].
  destruct Hs as [? ? Hm0 [Hm1 Hm2] ? ? Hfit ? Hbuf ? ?]. unfold IKCP_OVERHEAD in *.
  assert (Hfits : forall s, seg_fits (k_mss k) s -> seg_fits (mtu - 28) s)
    by (intros s [Hf Hl]; split; [auto|lia]).
  split; [split; [|eapply rcv_inv_frame; [|exact Hr]; reflexivity]|apply advances_frame; reflexivity].
  constructor; kred; rewrite ?(wrap_id 32 (mtu - 28)) by (unfold in_u; zpow; lia); auto;
    unfold IKCP_OVERHEAD; try lia.
  - eapply Forall_impl; eauto.
  - eapply Forall_impl; [exact Hbuf|]. intros s []. constructor; kred; auto.
Qed.
