(* ===== verification/KcpSys.v ===== *)
(** * Two KCP endpoints and the network between them

    A connection is two control blocks and everything either of them ever gave
    to its output callback.  The network may lose, delay, reorder and repeat
    datagrams: an endpoint may be given any datagram its peer ever emitted, at
    any time and any number of times.  Applications send and receive, clocks
    tick and options change in any order. *)

From Stdlib Require Import Sorting.Sorted.
From stdpp Require Import relations.
From S2P Require Import Prelude KcpTypes KcpRecv KcpSend KcpInput KcpFlush.
From S2P Require Import KcpRecvFacts KcpSendFacts KcpInputFacts KcpFlushFacts.
From S2P Require Import KcpPeer.

(** ** Messages as blocks of the log *)

(** The fragments of one message. *)
Record block_ok (b : list frag) : Prop := {
  bo_len : 0 < zlen b < 128;
  bo_frg : map fst b = countdown (length b);
  bo_size : zlen (concat (map snd b)) < 1073741824
}.

Definition block_msg (b : list frag) : list byte := concat (map snd b).

(** The queue of the receiver starts with all of block [b]. *)
Lemma msg_span_block b q :
  map fst b = countdown (length b) -> 0 < zlen b -> map frag_of (take (length b) q) = b ->
  msg_span q = take (length b) q.
Proof.
  revert q. induction b as [|f b IH]; intros q Hc Hl Hq; cbn [length] in *; [lia|].
  destruct q as [|s q]; [discriminate|]. cbn [take map countdown] in *.
  injection Hq as Hf Hq. injection Hc as Hf0 Hc. cbn [msg_span].
  rewrite <- Hf in Hf0. cbn [frag_of fst] in Hf0. rewrite Hf0. f_equal.
  destruct b as [|g b]; [reflexivity|]. destruct (Z.eqb_spec (Z.of_nat (length (g :: b))) 0); [cbn in *; lia|].
  apply IH; auto.
Qed.

Lemma span_len_payload q :
  Forall seg_full q -> span_len q = zlen (concat (map payload q)).
Proof.
  induction 1 as [|s q Hs _ IH]; cbn; auto. rewrite length_app, IH, payload_full by auto.
  unfold seg_full in Hs. lia.
Qed.

Lemma payload_frags q : Forall seg_full q -> concat (map payload q) = concat (map snd (map frag_of q)).
Proof.
  induction 1 as [|s q Hs _ IH]; cbn; auto. rewrite IH, payload_full by auto. reflexivity.
Qed.

(** ** Receiving a message *)

Lemma drop_wf k n :
  rcv_wf k -> rcv_wf (set_rcv_queue (drop n (k_rcv_queue k))
    (set_nrcv_que (zlen (drop n (k_rcv_queue k))) k)).
Proof. intros []. constructor; kred; auto. rewrite length_drop. lia. Qed.

(** Handing the first [n] segments of the queue to the application. *)
Lemma drop_data lg k n :
  rcv_data lg k -> (n <= length (k_rcv_queue k))%nat ->
  let k' := set_rcv_queue (drop n (k_rcv_queue k)) (set_nrcv_que (zlen (drop n (k_rcv_queue k))) k) in
  rcv_data lg k' /\ rcv_grows k k' /\ consumed k' = consumed k + Z.of_nat n.
Proof.
  intros [Hwf Hw Hn Hb Hf Hl Hq] Hle. cbv zeta. split; [|split; [split; [kred; lia|auto]|]].
  - constructor; kred; auto using drop_wf, Forall_drop.
    + rewrite length_drop. lia.
    + intros j s Hj. rewrite lookup_drop in Hj. rewrite <- (Hq _ _ Hj), length_drop. f_equal. lia.
  - unfold consumed. kred. rewrite length_drop. lia.
Qed.

Lemma msg_span_le q : (length (msg_span q) <= length q)%nat.
Proof. induction q as [|s q IH]; cbn; [lia|]. destruct (sg_frg s =? 0); cbn; lia. Qed.

(** A complete message is at the head of the queue. *)
Definition head_complete (k : ikcpcb) : Prop :=
  exists s q, k_rcv_queue k = s :: q /\
    (sg_frg s = 0 \/ u32 (sg_frg s + 1) <= k_nrcv_que k).

Lemma peeksize_complete k : 0 <= ikcp_peeksize k -> head_complete k.
Proof.
  unfold ikcp_peeksize, head_complete. destruct (k_rcv_queue k) as [|s q]; [lia|].
  intros Hp. exists s, q. split; auto. destruct (Z.eqb_spec (sg_frg s) 0); auto.
  destruct (Z.ltb_spec (k_nrcv_que k) (u32 (sg_frg s + 1))); [lia|auto].
Qed.

(** [ikcp_recv] in terms of the queue. *)
Lemma recv_inv lg k len :
  log_ok lg -> rcv_inv lg k ->
  let '(n, buf, k') := ikcp_recv k len in
  (n < 0 /\ k' = k /\ buf = [] /\ (n <> -3 -> ikcp_peeksize k < 0)) \/
  (n = ikcp_peeksize k /\ 0 <= n /\ buf = concat (map payload (msg_span (k_rcv_queue k))) /\
   rcv_inv lg k' /\ rcv_grows k k' /\ sview k' = sview k /\
   consumed k' = consumed k + (if len <? 0 then 0 else zlen (msg_span (k_rcv_queue k)))).
Proof.
  intros [Hlg _] [Hd Hst Hack]. unfold ikcp_recv. destruct (k_rcv_queue k) as [|s0 q0] eqn:Eq.
  { left. split; [lia|]. split; [auto|]. split; [auto|]. intros _. unfold ikcp_peeksize. rewrite Eq. lia. }
  rewrite <- Eq. clear Eq s0 q0. cbv zeta.
  destruct (Z.ltb_spec (ikcp_peeksize k) 0) as [|Hp]; [left; split; [lia|]; split; [auto|]; split; auto|].
  destruct (Z.ltb_spec (if len <? 0 then s32 (- len) else len) (ikcp_peeksize k)).
  { left. split; [lia|]. split; [auto|]. split; [auto|]. congruence. }
  right. pose proof (peeksize_is_merged k (len <? 0) Hp) as Hm.
  destruct (recv_merge_span (len <? 0) (k_rcv_queue k) 0 [] (k_nrcv_que k)) as (_ & H2 & H3 & H4); [reflexivity|].
  set (m := recv_merge _ _ _ _ _) in *. clearbody m. cbn [app] in H2.
  set (k1 := if len <? 0 then k else _).
  assert (H1 : rcv_data lg k1 /\ rcv_grows k k1 /\ sview k1 = sview k /\
     k_acklist k1 = k_acklist k /\ k_ackcount k1 = k_ackcount k /\
     consumed k1 = consumed k + (if len <? 0 then 0 else zlen (msg_span (k_rcv_queue k)))).
  { subst k1. destruct (len <? 0).
    - repeat (split; [auto using rcv_grows_refl|]). lia.
    - pose proof (msg_span_le (k_rcv_queue k)) as Hle.
      destruct (drop_data lg k _ Hd Hle) as (D1 & D2 & D3).
      assert (E : mg_nque m = zlen (drop (length (msg_span (k_rcv_queue k))) (k_rcv_queue k))).
      { destruct Hd as [[? ? ? ? ? Hnq Hq] ? ? ? ? ? ?]. rewrite H4 by (unfold in_u; zpow; lia).
        rewrite length_drop, Hnq, wrap_id by (unfold in_u; zpow; lia). lia. }
      rewrite H3, E. repeat (split; [auto|]). exact D3. }
  clearbody k1. destruct H1 as (D1 & D2 & D3 & D4 & D5 & D6).
  destruct (rcv_move_inv lg k1 Hlg D1) as (M1 & M2 & M3 & M4 & _).
  destruct (rcv_move_acks k1) as (A1 & A2 & _ & A4).
  revert M1 M2 M3 M4 A1 A2 A4. generalize (rcv_move k1). intros k2 M1 M2 M3 M4 A1 A2 A4.
  set (k3 := if _ && _ then _ else k2).
  assert (E : rview k3 = rview k2 /\ sview k3 = sview k2) by (subst k3; destruct (_ && _); auto).
  clearbody k3. destruct E as [E1 E2]. split; [auto|]. split; [lia|]. split; [auto|].
  pose proof (rcv_grows_trans _ _ _ D2 M3) as Hg. split; [|split; [|split]].
  - apply (rcv_inv_frame lg k2); auto. constructor; auto.
    apply (ack_inv_grows k); auto; congruence.
  - eapply rcv_grows_trans; [exact Hg|]. apply rcv_grows_frame. unfold rview in E1. congruence.
  - congruence.
  - rewrite <- D6, <- M4. apply advances_frame. auto.
Qed.

(** ** The connection *)

Record node := mkNode {
  n_kcp : ikcpcb;
  n_net : list (list byte);          (* every datagram it emitted *)
  n_sent : list (Z * list byte);     (* the messages accepted, each with the mss then *)
  n_rcvd : list (list byte)          (* the messages its application received *)
}.

Definition log (n : node) : list frag :=
  concat (map (fun m => msg_block (fst m) (snd m)) (n_sent n)).

(** One call into an endpoint.  [net] is what its peer has emitted so far. *)
Inductive node_step (net : list (list byte)) (n : node) : node -> Prop :=
| do_send msg ret k' :
    zlen msg < 1073741824 -> ikcp_send (n_kcp n) msg (zlen msg) = (ret, k') ->
    let n' := mkNode k' (n_net n)
      (if ret =? 0 then n_sent n ++ [(k_mss (n_kcp n), msg)] else n_sent n) (n_rcvd n) in
    zlen (log n') < 2147483648 -> node_step net n n'
| do_input d ret k' :
    d ∈ net -> ikcp_input (n_kcp n) (Some d) (zlen d) = Some (ret, k') ->
    node_step net n (mkNode k' (n_net n) (n_sent n) (n_rcvd n))
| do_recv len ret buf k' :
    ikcp_recv (n_kcp n) len = (ret, buf, k') ->
    node_step net n (mkNode k' (n_net n) (n_sent n)
      (if (0 <=? ret) && (0 <=? len) then n_rcvd n ++ [buf] else n_rcvd n))
| do_update now k' out :
    ikcp_update (n_kcp n) now = (k', out) ->
    node_step net n (mkNode k' (n_net n ++ out) (n_sent n) (n_rcvd n))
| do_flush k' out :
    ikcp_flush (n_kcp n) = (k', out) ->
    node_step net n (mkNode k' (n_net n ++ out) (n_sent n) (n_rcvd n))
| do_nodelay a b c d ret k' :
    ikcp_nodelay (n_kcp n) a b c d = (ret, k') ->
    node_step net n (mkNode k' (n_net n) (n_sent n) (n_rcvd n))
| do_interval a ret k' :
    ikcp_interval (n_kcp n) a = (ret, k') ->
    node_step net n (mkNode k' (n_net n) (n_sent n) (n_rcvd n))
| do_wndsize a b ret k' :
    b < 2147483648 -> ikcp_wndsize (n_kcp n) a b = (ret, k') ->
    node_step net n (mkNode k' (n_net n) (n_sent n) (n_rcvd n))
| do_setmtu mtu ok ret k' :
    k_mtu (n_kcp n) <= mtu < 1073741824 -> ikcp_setmtu (n_kcp n) mtu ok = (ret, k') ->
    node_step net n (mkNode k' (n_net n) (n_sent n) (n_rcvd n)).

Inductive step : node * node -> node * node -> Prop :=
| step_left a a' b : node_step (n_net b) a a' -> step (a, b) (a', b)
| step_right a b b' : node_step (n_net a) b b' -> step (a, b) (a, b').

Definition start (conv : Z) : node := mkNode (new_kcpcb conv) [] [] [].

Definition reachable (conv : Z) (w : node * node) : Prop :=
  rtc step (start conv, start conv) w.

(** ** The invariant of a connection *)

Record delivered (sent : list (Z * list byte)) (k : ikcpcb) (rcvd : list (list byte))
    (done rest : list (Z * list byte)) : Prop := {
  dl_split : sent = done ++ rest;
  dl_rcvd : rcvd = map snd done;
  dl_count : consumed k = zlen (concat (map (fun m => msg_block (fst m) (snd m)) done))
}.

Definition entry_ok (m : Z * list byte) : Prop :=
  block_ok (msg_block (fst m) (snd m)) /\ block_msg (msg_block (fst m) (snd m)) = snd m.

(** What holds of an endpoint [a] whose peer is [b]. *)
Record node_inv (conv : Z) (a b : node) : Prop := {
  ni_log : log_ok (log a);
  ni_peer : peer_inv conv (log a) (log b) (got (n_kcp b)) (n_kcp a);
  ni_net : Forall (dgram_ok mtu_max (genuine conv (log a) (n_kcp a))) (n_net a);
  ni_sent : Forall entry_ok (n_sent a);
  ni_dlv : exists done rest, delivered (n_sent b) (n_kcp a) (n_rcvd a) done rest
}.

Lemma log_app k net sent l rcvd n :
  n_sent n = sent ++ l ->
  log n = log (mkNode k net sent rcvd) ++ concat (map (fun m => msg_block (fst m) (snd m)) l).
Proof. intros E. unfold log. cbn [n_sent]. rewrite E, map_app, concat_app. reflexivity. Qed.

Lemma rcv_inv_app lg l k : rcv_inv lg k -> rcv_inv (lg ++ l) k.
Proof.
  intros [[] ? ?]. constructor; auto. constructor; auto using nth_frag_app.
  - rewrite length_app. lia.
  - eapply Forall_impl; [exact ri_buf|]. intros s []. split; auto using nth_frag_app.
Qed.

(** The peer of an endpoint does not notice what the endpoint does. *)
Lemma node_inv_peer conv a b b' l :
  rcv_grows (n_kcp b) (n_kcp b') -> n_sent b' = n_sent b ++ l ->
  node_inv conv a b -> node_inv conv a b'.
Proof.
  intros [_ Hg] Hs [Hl [Hsnd Hrcv] Hn He (done & rest & [D1 D2 D3])]. split; auto.
  - split; [eapply snd_inv_peer; eauto|].
    rewrite (log_app (n_kcp b) (n_net b) (n_sent b) l (n_rcvd b) b' Hs).
    destruct b as [kb nb sb rb]. cbn [n_kcp n_net n_sent n_rcvd]. apply rcv_inv_app. exact Hrcv.
  - exists done, (rest ++ l). split; auto. rewrite Hs, D1, app_assoc. reflexivity.
Qed.

Lemma start_inv conv : in_u 64 conv -> node_inv conv (start conv) (start conv).
Proof.
  intros Hc. constructor.
  - split; [cbn; lia|constructor].
  - constructor.
    + constructor; cbn; auto; try (unfold IKCP_MTU_DEF, IKCP_OVERHEAD; lia).
    + constructor; [|exact I|split; [cbn; lia|constructor]].
      constructor; cbn; try constructor; cbn; try constructor;
        try (unfold in_u, IKCP_WND_RCV; zpow; lia).
      intros j s Hs. rewrite lookup_nil in Hs. discriminate.
  - constructor.
  - constructor.
  - exists [], []. split; reflexivity.
Qed.

Lemma Forall_genuine_grows conv lg l k k' (net : list (list byte)) :
  rcv_grows k k' -> Forall (dgram_ok mtu_max (genuine conv lg k)) net ->
  Forall (dgram_ok mtu_max (genuine conv (lg ++ l) k')) net.
Proof.
  intros Hg Hn. eapply Forall_impl; [exact Hn|]. intros d. apply dgram_ok_impl; [lia|].
  intros s. apply genuine_mono. auto.
Qed.

(** An operation that moves nothing between the endpoint and its application. *)
Lemma node_inv_quiet conv a b k' out :
  node_inv conv a b -> sent_ok conv (log a) (log b) (got (n_kcp b)) (n_kcp a) (k', out) ->
  node_inv conv (mkNode k' (n_net a ++ out) (n_sent a) (n_rcvd a)) b.
Proof.
  intros [Hl Hp Hn He (done & rest & [D1 D2 D3])] (Hp' & [Hg Hc] & Ho).
  cbn [fst snd] in *. constructor; auto.
  - cbn [n_net n_kcp]. apply Forall_app. split; auto.
    pose proof (Forall_genuine_grows conv (log a) [] _ _ _ Hg Hn) as H. rewrite app_nil_r in H. exact H.
  - exists done, rest. split; cbn [n_kcp n_rcvd]; congruence.
Qed.

Lemma quiet_step conv a b k' :
  node_inv conv a b ->
  peer_inv conv (log a) (log b) (got (n_kcp b)) k' -> advances (n_kcp a) k' ->
  node_inv conv (mkNode k' (n_net a) (n_sent a) (n_rcvd a)) b.
Proof.
  intros Ha Hp Hadv. pose proof (node_inv_quiet conv a b k' [] Ha) as H.
  rewrite app_nil_r in H. apply H. split; [|split]; auto.
Qed.

Lemma log_slice (n b : node) done rest k :
  n_sent b = done ++ rest -> consumed k = zlen (concat (map (fun m => msg_block (fst m) (snd m)) done)) ->
  zdrop (consumed k) (log b) = concat (map (fun m => msg_block (fst m) (snd m)) rest).
Proof.
  intros E Hc. unfold log. rewrite E, map_app, concat_app, Hc. apply drop_app_all. lia.
Qed.

Lemma rcv_queue_slice lg k :
  rcv_data lg k -> map frag_of (k_rcv_queue k) = ztake (zlen (k_rcv_queue k)) (zdrop (consumed k) lg).
Proof.
  intros [_ _ _ _ _ Hl Hq]. apply slice_map; [unfold consumed; lia|]. exact Hq.
Qed.

(** When a message is complete, the head of the queue is exactly the next
    block that was sent. *)
Lemma complete_block lg k b more :
  rcv_data lg k -> zdrop (consumed k) lg = b ++ more -> block_ok b -> head_complete k ->
  msg_span (k_rcv_queue k) = take (length b) (k_rcv_queue k) /\
  map frag_of (take (length b) (k_rcv_queue k)) = b /\ zlen b <= zlen (k_rcv_queue k).
Proof.
  intros Hd Hb [Hlen Hfrg _] (s & q & Eq & Hcomp). pose proof (rcv_queue_slice lg k Hd) as Hs.
  rewrite Hb in Hs.
  assert (Hle : zlen b <= zlen (k_rcv_queue k)).
  { destruct b as [|f b]; [cbn in Hlen; lia|]. rewrite Eq in Hs. cbn [map length app] in *.
    rewrite Nat2Z.id in Hs. cbn [take] in Hs. injection Hs as Hf _. cbn [countdown] in Hfrg. injection Hfrg as Hf0 _.
    rewrite <- Hf in Hf0. cbn [frag_of fst] in Hf0. rewrite Eq. cbn [length].
    destruct Hcomp as [H0|Hge]; [rewrite Hf0 in H0; lia|].
    destruct Hd as [[? ? ? ? ? Hnq ?] ? ? ? ? ? ?]. rewrite Hnq, Eq, Hf0 in Hge. cbn [length] in Hge.
    rewrite wrap_id in Hge by (unfold in_u; zpow; lia). lia. }
  assert (Ht : map frag_of (take (length b) (k_rcv_queue k)) = b).
  { rewrite <- firstn_map, Hs, Nat2Z.id, take_take, Nat.min_l by lia. apply take_app_length. }
  split; [|auto]. apply msg_span_block; auto. lia.
Qed.

Lemma recv_step conv a b len ret buf k' :
  node_inv conv a b -> log_ok (log b) -> Forall entry_ok (n_sent b) ->
  ikcp_recv (n_kcp a) len = (ret, buf, k') ->
  node_inv conv (mkNode k' (n_net a) (n_sent a)
    (if (0 <=? ret) && (0 <=? len) then n_rcvd a ++ [buf] else n_rcvd a)) b /\
  rcv_grows (n_kcp a) k'.
Proof.
  intros [Hl [Hsnd Hrcv] Hn He (done & rest & [D1 D2 D3])] Hlb Hb E.
  pose proof (recv_inv (log b) (n_kcp a) len Hlb Hrcv) as H. rewrite E in H.
  destruct H as [(Hr & -> & -> & _)|(Hret & Hr & Hbuf & Hrcv' & Hg & Hsv & Hc)].
  - destruct (Z.leb_spec 0 ret); [lia|]. cbn [andb]. split; [|apply rcv_grows_refl].
    constructor; auto; [split; auto|]. exists done, rest. split; auto.
  - split; auto. constructor; cbn [n_kcp n_net n_sent n_rcvd]; auto.
    + split; auto. apply (snd_inv_frame conv (log a) (got (n_kcp b)) (n_kcp a)); auto.
    + pose proof (Forall_genuine_grows conv (log a) [] _ _ _ Hg Hn) as H. rewrite app_nil_r in H. exact H.
    + destruct (Z.leb_spec 0 ret); [|lia]. cbn [andb].
      destruct (Z.ltb_spec len 0), (Z.leb_spec 0 len); try lia.
      { exists done, rest. split; cbn [n_kcp]; auto. lia. }
      pose proof (log_slice a b done rest _ D1 D3) as Hsl.
      rewrite Hret in Hr. pose proof (peeksize_complete _ Hr) as Hcomp.
      destruct Hrcv as [Hd _ _]. destruct rest as [|m rest].
      { pose proof (rcv_queue_slice _ _ Hd) as Hq. rewrite Hsl in Hq. cbn in Hq. rewrite take_nil in Hq.
        destruct Hcomp as (s & q & Eq & _). rewrite Eq in Hq. discriminate. }
      cbn [map concat] in Hsl. rewrite D1 in Hb. apply Forall_app in Hb as [_ Hb].
      apply Forall_cons in Hb as [[Hbk Hmsg] _].
      destruct (complete_block _ _ _ _ Hd Hsl Hbk Hcomp) as (S1 & S2 & S3).
      exists (done ++ [m]), rest. split; cbn [n_kcp].
      * rewrite D1, <- app_assoc. reflexivity.
      * rewrite D2, map_app, Hbuf, S1. f_equal. cbn [map]. f_equal.
        rewrite payload_frags by (apply Forall_take; apply Hd). rewrite S2. exact Hmsg.
      * rewrite Hc, D3, S1, map_app, concat_app, length_app, length_take. cbn [map concat].
        rewrite app_nil_r. lia.
Qed.

Lemma send_step conv a b msg ret k' :
  node_inv conv a b -> node_inv conv b a -> zlen msg < 1073741824 ->
  ikcp_send (n_kcp a) msg (zlen msg) = (ret, k') ->
  let a' := mkNode k' (n_net a)
    (if ret =? 0 then n_sent a ++ [(k_mss (n_kcp a), msg)] else n_sent a) (n_rcvd a) in
  zlen (log a') < 2147483648 -> node_inv conv a' b /\ node_inv conv b a'.
Proof.
  intros Ha Hb Hlen E a' Hlog. pose proof Ha as [Hl Hp Hn He Hd].
  destruct (send_inv conv (log a) (log b) (got (n_kcp b)) (n_kcp a) msg Hl Hp Hlen) as [[H1 H2]|H];
    rewrite E in *; cbn [fst snd] in *.
  - subst ret k'. subst a'. cbn [Z.eqb]. destruct a. auto.
  - destruct H as (-> & Hrv & Hbn & Hbl & Hbf & Hbm & Hs). subst a'. cbn [Z.eqb] in *.
    pose proof (rcv_grows_frame (n_kcp a) k') as Hg.
    assert (rdata k' = rdata (n_kcp a)) as Ed by (unfold rview in Hrv; congruence). specialize (Hg Ed).
    set (a' := mkNode k' _ _ _) in *.
    assert (El : log a' = log a ++ msg_block (k_mss (n_kcp a)) msg).
    { rewrite (log_app (n_kcp a) (n_net a) (n_sent a) [(k_mss (n_kcp a), msg)] (n_rcvd a) a' eq_refl).
      cbn [map concat fst snd]. rewrite app_nil_r. destruct a. reflexivity. }
    rewrite El in Hlog. destruct (Hs Hlog) as [Hok Hsnd].
    split; [|apply (node_inv_peer conv b a a' [(k_mss (n_kcp a), msg)]); auto].
    constructor; rewrite ?El; auto.
    + split; auto. apply (rcv_inv_frame _ (n_kcp a)); auto. apply Hp.
    + apply (Forall_genuine_grows conv (log a) _ (n_kcp a)); auto.
    + apply Forall_app. split; auto. constructor; auto. split; cbn [fst snd]; auto.
      constructor; auto. rewrite Hbm. exact Hlen.
    + destruct Hd as (done & rest & [D1 D2 D3]). exists done, rest. split; auto.
      subst a'. cbn [n_kcp]. rewrite <- D3. unfold rdata in Ed. unfold consumed. congruence.
Qed.

Lemma node_step_inv conv a a' b :
  in_u 64 conv -> node_inv conv a b -> node_inv conv b a -> node_step (n_net b) a a' ->
  node_inv conv a' b /\ node_inv conv b a'.
Proof.
  intros Hconv Ha Hb Hstep.
  assert (Hq : forall k' out,
    sent_ok conv (log a) (log b) (got (n_kcp b)) (n_kcp a) (k', out) ->
    node_inv conv (mkNode k' (n_net a ++ out) (n_sent a) (n_rcvd a)) b /\
    node_inv conv b (mkNode k' (n_net a ++ out) (n_sent a) (n_rcvd a))).
  { intros k' out H. split; [apply node_inv_quiet; auto|]. apply (node_inv_peer conv b a _ []); auto.
    - apply H.
    - cbn. rewrite app_nil_r. reflexivity. }
  assert (Hq0 : forall k', peer_inv conv (log a) (log b) (got (n_kcp b)) k' /\ advances (n_kcp a) k' ->
    node_inv conv (mkNode k' (n_net a) (n_sent a) (n_rcvd a)) b /\
    node_inv conv b (mkNode k' (n_net a) (n_sent a) (n_rcvd a))).
  { intros k' [H1 H2]. destruct (Hq k' []) as [H3 H4]; [split; [|split]; auto|].
    rewrite app_nil_r in H3, H4. auto. }
  pose proof Ha as [Hla Hpa Hna Hea _]. pose proof Hb as [Hlb Hpb Hnb Heb _].
  assert (Hfr : forall k', sview k' = sview (n_kcp a) /\ rview k' = rview (n_kcp a) ->
    peer_inv conv (log a) (log b) (got (n_kcp b)) k' /\ advances (n_kcp a) k').
  { intros k' [E1 E2]. split; [eapply peer_inv_frame; eauto|apply advances_frame; auto]. }
  destruct Hstep as [msg ret k' Hlen E n' Hlog|d ret k' Hd E|len ret buf k' E|now k' out E|k' out E|
      x y z t ret k' E|x ret k' E|x y ret k' Hy E|mtu ok ret k' Hm E].
  - apply (send_step conv a b msg ret k'); auto.
  - assert (Hkp : k_rcv_nxt (n_kcp b) <= zlen (log a)) by apply Hpb.
    rewrite Forall_forall in Hnb. specialize (Hnb d Hd).
    destruct (input_inv conv (log a) (log b) (n_kcp b) mtu_max d (n_kcp a)) as (k1 & E1 & H1 & H2); auto.
    { unfold mtu_max. lia. }
    apply Hq0. rewrite E1 in E. injection E as _ <-. auto.
  - destruct (recv_step conv a b len ret buf k' Ha Hlb Heb E) as [H1 H2].
    split; auto. apply (node_inv_peer conv b a _ []); auto. cbn. rewrite app_nil_r. reflexivity.
  - apply Hq. rewrite <- E. apply update_inv; auto.
  - apply Hq. rewrite <- E. apply flush_inv; auto.
  - apply Hq0, Hfr. replace k' with (snd (ret, k')) by reflexivity. rewrite <- E. apply nodelay_views.
  - apply Hq0, Hfr. unfold ikcp_interval in E. injection E as _ <-. auto.
  - apply Hq0. replace k' with (snd (ret, k')) by reflexivity. rewrite <- E. apply wndsize_inv; auto.
  - apply Hq0. replace k' with (snd (ret, k')) by reflexivity. rewrite <- E. apply setmtu_inv; auto.
Qed.

Lemma step_inv conv w w' :
  in_u 64 conv -> node_inv conv (fst w) (snd w) -> node_inv conv (snd w) (fst w) -> step w w' ->
  node_inv conv (fst w') (snd w') /\ node_inv conv (snd w') (fst w').
Proof.
  intros Hc H1 H2 Hs. destruct Hs as [a a' b Hs|a b b' Hs]; cbn [fst snd] in *.
  - apply (node_step_inv conv a a' b); auto.
  - apply and_comm. apply (node_step_inv conv b b' a); auto.
Qed.

Lemma reachable_inv conv w :
  in_u 64 conv -> reachable conv w ->
  node_inv conv (fst w) (snd w) /\ node_inv conv (snd w) (fst w).
Proof.
  intros Hc Hr. unfold reachable in Hr.
  refine (rtc_ind_r (fun w => node_inv conv (fst w) (snd w) /\ node_inv conv (snd w) (fst w))
    (start conv, start conv) _ _ w Hr).
  - split; apply start_inv; auto.
  - intros y z _ Hs [H1 H2]. apply (step_inv conv y z); auto.
Qed.

(** ** What the applications see *)

(** The messages an endpoint was given, in order. *)
Definition messages (n : node) : list (list byte) := map snd (n_sent n).

Lemma delivered_prefix conv a b :
  node_inv conv a b -> exists later, messages b = n_rcvd a ++ later.
Proof.
  intros [_ _ _ _ (done & rest & [D1 D2 D3])]. exists (map snd rest).
  unfold messages. rewrite D1, D2, map_app. reflexivity.
Qed.

Lemma waitsnd_zero conv lg P k :
  log_ok lg -> snd_inv conv lg P k -> ikcp_waitsnd k = 0 ->
  k_snd_nxt k = zlen lg /\ forall i, 0 <= i < zlen lg -> P i.
Proof.
  intros [Hlg _] Hs. pose proof (snd_queue_length _ _ _ _ Hs) as Ht.
  destruct Hs as [? ? ? ? ? ? ? Hnq ? [Hnb Hle] Hk]. unfold ikcp_waitsnd.
  rewrite wrap_id by (unfold in_u; zpow; lia). rewrite (swrap_id 32) by (zpow; lia).
  intros Hz. split; [lia|]. intros i Hi. destruct (Hk i ltac:(lia)) as [|(s & Hs & _)]; auto.
  destruct (k_snd_buf k); [inversion Hs|cbn in *; lia].
Qed.

(** A complete message can be received: its size is not negative. *)
Lemma peeksize_block lg k b more :
  rcv_data lg k -> zdrop (consumed k) lg = b ++ more -> block_ok b -> zlen b <= zlen (k_rcv_queue k) ->
  0 <= ikcp_peeksize k.
Proof.
  intros Hd Hb Hbk Hle. pose proof Hbk as [Hlen Hfrg Hsize].
  destruct (k_rcv_queue k) as [|s q] eqn:Eq; [cbn in Hle; lia|].
  assert (Hf : sg_frg s = zlen b - 1).
  { pose proof (rcv_queue_slice lg k Hd) as Hs. rewrite Hb, Eq in Hs.
    destruct b as [|f b]; [cbn in Hlen; lia|]. cbn [map length app] in *. rewrite Nat2Z.id in Hs.
    cbn [take] in Hs. injection Hs as Hf _. cbn [countdown] in Hfrg. injection Hfrg as Hf0 _.
    rewrite <- Hf in Hf0. cbn [frag_of fst] in Hf0. lia. }
  pose proof Hd as [[? ? ? ? ? Hnq Hq31] ? ? ? Hfull ? ?]. rewrite Eq in Hnq.
  assert (Hu : u32 (sg_frg s + 1) = zlen b) by (rewrite Hf, wrap_id by (unfold in_u; zpow; lia); lia).
  assert (Hcomp : head_complete k) by (exists s, q; split; auto; right; lia).
  destruct (complete_block lg k b more Hd Hb Hbk Hcomp) as (S1 & S2 & _).
  assert (Hspan : 0 <= span_len (msg_span (k_rcv_queue k)) < 1073741824).
  { rewrite span_len_payload by (rewrite S1; apply Forall_take; auto).
    rewrite S1, payload_frags, S2 by (apply Forall_take; auto). lia. }
  unfold ikcp_peeksize. rewrite Eq. rewrite Eq in Hspan. destruct (Z.eqb_spec (sg_frg s) 0) as [Hz|Hz].
  - cbn [msg_span span_len] in Hspan. rewrite Hz in Hspan. cbn [Z.eqb span_len] in Hspan.
    rewrite (swrap_id 32) by (zpow; lia). lia.
  - destruct (Z.ltb_spec (k_nrcv_que k) (u32 (sg_frg s + 1))); [lia|].
    rewrite peek_loop_s32 by (left; discriminate). change 0 with (s32 0) at 2.
    rewrite peek_loop_span, Z.add_0_l. rewrite (swrap_id 32) by (zpow; lia). lia.
Qed.

(** An endpoint that holds everything and cannot receive has delivered
    everything. *)
Lemma all_delivered conv a b len :
  node_inv conv a b -> Forall entry_ok (n_sent b) -> log_ok (log b) ->
  (forall i, 0 <= i < zlen (log b) -> got (n_kcp a) i) ->
  fst (fst (ikcp_recv (n_kcp a) len)) < 0 -> fst (fst (ikcp_recv (n_kcp a) len)) <> -3 ->
  n_rcvd a = messages b.
Proof.
  intros [_ [_ Hrcv] _ _ (done & rest & [D1 D2 D3])] He Hlb Hall Hneg H3.
  pose proof (recv_inv (log b) (n_kcp a) len Hlb Hrcv) as H.
  destruct (ikcp_recv (n_kcp a) len) as [[n buf] k']. cbn [fst] in *.
  destruct H as [(_ & _ & _ & Hp)|(_ & Hpos & _)]; [|lia]. specialize (Hp H3). clear H3 Hneg.
  destruct Hrcv as [Hd Hst _]. pose proof (log_slice a b done rest _ D1 D3) as Hsl.
  unfold messages. rewrite D1, D2, map_app. destruct rest as [|m rest]; [rewrite app_nil_r; reflexivity|exfalso].
  rewrite D1 in He. apply Forall_app in He as [_ He]. apply Forall_cons in He as [[[Hbl Hbf Hbs] _] _].
  cbn [map concat] in Hsl. set (b0 := msg_block (fst m) (snd m)) in *.
  pose proof (rcv_queue_slice _ _ Hd) as Hq. rewrite Hsl in Hq.
  pose proof Hd as [[Hn Hw Hah Hso _ Hnq _] Hw2 Hnl Hbuf Hfull Hlen Hque]. unfold in_u in Hn.
  assert (Hshort : zlen (k_rcv_queue (n_kcp a)) < zlen b0).
  { destruct (Z.ltb_spec (zlen (k_rcv_queue (n_kcp a))) (zlen b0)) as [|Hge]; auto. exfalso.
    pose proof (peeksize_block _ _ _ _ Hd Hsl ltac:(constructor; auto) Hge). lia. }
  assert (Hlog : consumed (n_kcp a) + zlen b0 <= zlen (log b)).
  { apply (f_equal length) in Hsl. rewrite length_drop, length_app in Hsl. lia. }
  unfold consumed in Hlog. destruct (Hall (k_rcv_nxt (n_kcp a)) ltac:(lia)) as [|(s & Hs & Hsn)]; [lia|].
  unfold no_stall, IKCP_WND_RCV in Hst. destruct (k_rcv_buf (n_kcp a)) as [|h t]; [inversion Hs|].
  destruct Hst as [Hh|]; [|lia]. apply elem_of_cons in Hs as [-> |Hs]; [congruence|].
  inversion Hso as [|? ? _ Hf]; subst. rewrite Forall_forall in Hf. specialize (Hf s Hs).
  unfold before in Hf. rewrite Hsn in Hf. pose proof (off_range (k_rcv_nxt (n_kcp a)) (sg_sn h)).
  unfold off at 2 in Hf. rewrite Z.sub_diag in Hf. change (u32 0) with 0 in Hf. lia.
Qed.
