(* ===== verification/KcpConn.v ===== *)
(** * KCP connections: in-order, exactly-once, complete delivery

    The end-to-end theorems over [KcpSys.reachable], and an executable
    scheduler that produces reachable connections. *)

From stdpp Require Import relations.
From S2P Require Import Prelude KcpTypes KcpRecv KcpSend KcpInput KcpFlush.
From S2P Require Import KcpRecvFacts KcpSendFacts KcpInputFacts KcpFlushFacts.
From S2P Require Import KcpPeer KcpSys.

(** ** Running a schedule *)

Inductive action :=
| ASend (msg : list byte)
| AInput (i : nat)           (* the i-th datagram the peer ever emitted *)
| ARecv (len : Z)
| AUpdate (now : Z)
| ANodelay (a b c d : Z)
| AWndsize (a b : Z).

Definition act (net : list (list byte)) (n : node) (a : action) : option node :=
  match a with
  | ASend msg =>
      if zlen msg <? 1073741824 then
        let r := ikcp_send (n_kcp n) msg (zlen msg) in
        let n' := mkNode (snd r) (n_net n)
          (if fst r =? 0 then n_sent n ++ [(k_mss (n_kcp n), msg)] else n_sent n) (n_rcvd n) in
        if zlen (log n') <? 2147483648 then Some n' else None
      else None
  | AInput i =>
      d ← net !! i;
      r ← ikcp_input (n_kcp n) (Some d) (zlen d);
      Some (mkNode (snd r) (n_net n) (n_sent n) (n_rcvd n))
  | ARecv len =>
      let r := ikcp_recv (n_kcp n) len in
      Some (mkNode (snd r) (n_net n) (n_sent n)
        (if (0 <=? fst (fst r)) && (0 <=? len) then n_rcvd n ++ [snd (fst r)] else n_rcvd n))
  | AUpdate now =>
      let r := ikcp_update (n_kcp n) now in
      Some (mkNode (fst r) (n_net n ++ snd r) (n_sent n) (n_rcvd n))
  | ANodelay a b c d =>
      Some (mkNode (snd (ikcp_nodelay (n_kcp n) a b c d)) (n_net n) (n_sent n) (n_rcvd n))
  | AWndsize a b =>
      if b <? 2147483648
      then Some (mkNode (snd (ikcp_wndsize (n_kcp n) a b)) (n_net n) (n_sent n) (n_rcvd n))
      else None
  end.

Lemma act_step net n a n' : act net n a = Some n' -> node_step net n n'.
Proof.
  destruct a as [msg|i|len|now|x y z t|x y]; cbn [act]; intros H.
  - destruct (Z.ltb_spec (zlen msg) 1073741824) as [Hm|]; [|discriminate]. cbv zeta in H.
    destruct (ikcp_send (n_kcp n) msg (zlen msg)) as [r k'] eqn:E. cbn [fst snd] in H.
    match type of H with (if ?c then _ else _) = _ => destruct c eqn:Hl; [|discriminate] end.
    injection H as <-. apply Z.ltb_lt in Hl. eapply do_send; eauto.
  - destruct (net !! i) as [d|] eqn:Ed; [|discriminate]. cbn [mbind option_bind] in H.
    destruct (ikcp_input _ _ _) as [[r k']|] eqn:E; [|discriminate]. cbn [mbind option_bind snd] in H.
    injection H as <-. eapply do_input; eauto. apply list_elem_of_lookup. eauto.
  - injection H as <-. destruct (ikcp_recv (n_kcp n) len) as [[r b] k'] eqn:E. eapply do_recv; eauto.
  - injection H as <-. destruct (ikcp_update (n_kcp n) now) as [k' out] eqn:E. eapply do_update; eauto.
  - injection H as <-. destruct (ikcp_nodelay (n_kcp n) x y z t) as [r k'] eqn:E. eapply do_nodelay; eauto.
  - destruct (Z.ltb_spec y 2147483648); [|discriminate]. injection H as <-.
    destruct (ikcp_wndsize (n_kcp n) x y) as [r k'] eqn:E. eapply do_wndsize; eauto.
Qed.

(** [true] acts on the left endpoint. *)
Fixpoint run (w : node * node) (l : list (bool * action)) : option (node * node) :=
  match l with
  | [] => Some w
  | (side, a) :: l =>
      w' ← (if side then n ← act (n_net (snd w)) (fst w) a; Some (n, snd w)
            else n ← act (n_net (fst w)) (snd w) a; Some (fst w, n));
      run w' l
  end.

Lemma run_steps w l w' : run w l = Some w' -> rtc step w w'.
Proof.
  revert w. induction l as [|[side a] l IH]; intros w H; cbn [run] in H.
  { injection H as <-. apply rtc_refl. }
  destruct w as [x y]. cbn [fst snd] in H. destruct side.
  - destruct (act (n_net y) x a) as [n|] eqn:E; [|discriminate]. cbn [mbind option_bind] in H.
    eapply rtc_l; [apply step_left; eapply act_step; eauto|auto].
  - destruct (act (n_net x) y a) as [n|] eqn:E; [|discriminate]. cbn [mbind option_bind] in H.
    eapply rtc_l; [apply step_right; eapply act_step; eauto|auto].
Qed.

(** A message of 1500 bytes goes out in two segments; the second datagram
    arrives first and twice, and the first acknowledgement is never given to
    the sender. *)
Definition demo_msg : list byte := replicate 1500 (zb 65).

Definition demo_schedule : list (bool * action) :=
  [(true, ANodelay 1 10 2 1); (true, ASend demo_msg); (true, ASend [zb 66]);
   (true, AUpdate 10); (false, AInput 1); (false, AInput 1); (false, AUpdate 12);
   (false, ARecv 4096); (false, AInput 0); (false, ARecv 4096);
   (false, AUpdate 150); (false, ARecv 4096); (true, AInput 1)].

Definition demo_conv : Z := 4660.

Definition demo_final : node * node :=
  default (start demo_conv, start demo_conv) (run (start demo_conv, start demo_conv) demo_schedule).

Lemma demo_reachable : reachable demo_conv demo_final.
Proof.
  apply (run_steps _ demo_schedule). unfold demo_final.
  destruct (run _ demo_schedule) eqn:E; [reflexivity|]. vm_compute in E. discriminate.
Qed.

(** ** Theorems *)

(** C1: Two endpoints in message mode, over a network that may lose, delay,
    reorder and repeat datagrams but neither forges nor alters them.  Whatever
    calls the applications make and in whatever order, what one has received is
    a prefix of what the other one sent: no message is lost in the middle,
    repeated, reordered, split, merged or altered.  The calls are: sending a
    message below 2^30 bytes, fewer than 2^31 fragments in all on each side;
    giving a datagram of the peer to [ikcp_input]; receiving into a buffer of
    any size; [ikcp_update] at any time and [ikcp_flush]; [ikcp_nodelay] and
    [ikcp_interval] with any values; [ikcp_wndsize] with a receive window below
    2^31; [ikcp_setmtu] with an MTU below 2^30 that is not smaller than the one
    before. *)
Theorem kcp_in_order_exactly_once conv a b :
  in_u 64 conv -> reachable conv (a, b) ->
  (exists later, messages b = n_rcvd a ++ later) /\ (exists later, messages a = n_rcvd b ++ later).
Proof.
  intros Hc Hr. destruct (reachable_inv conv (a, b) Hc Hr) as [H1 H2].
  split; eapply delivered_prefix; eauto.
Qed.

Theorem kcp_in_order_exactly_once_witness :
  n_rcvd (snd demo_final) = [demo_msg; [zb 66]] /\
  (exists later, messages (snd demo_final) = n_rcvd (fst demo_final) ++ later) /\
  (exists later, messages (fst demo_final) = n_rcvd (snd demo_final) ++ later).
Proof.
  split; [vm_compute; reflexivity|].
  apply (kcp_in_order_exactly_once demo_conv (fst demo_final) (snd demo_final));
    [unfold in_u, demo_conv; zpow; lia|].
  rewrite <- surjective_pairing. apply demo_reachable.
Defined.

(** C2: nothing is lost: once the sender has nothing waiting and the receiver's
    [ikcp_recv] finds no message, every message sent has been received. *)
Theorem kcp_complete_delivery conv a b len :
  in_u 64 conv -> reachable conv (a, b) -> ikcp_waitsnd (n_kcp a) = 0 ->
  fst (fst (ikcp_recv (n_kcp b) len)) = -1 \/ fst (fst (ikcp_recv (n_kcp b) len)) = -2 ->
  n_rcvd b = messages a.
Proof.
  intros Hc Hr Hw Hn. destruct (reachable_inv conv (a, b) Hc Hr) as [H1 H2]. cbn [fst snd] in *.
  pose proof H1 as [Hl [Hs _] _ He _].
  destruct (waitsnd_zero conv (log a) _ _ Hl Hs Hw) as [_ Hgot].
  apply (all_delivered conv b a len); auto; lia.
Qed.

Theorem kcp_complete_delivery_witness :
  ikcp_waitsnd (n_kcp (fst demo_final)) = 0 /\
  n_rcvd (snd demo_final) = messages (fst demo_final).
Proof.
  split; [vm_compute; reflexivity|].
  apply (kcp_complete_delivery demo_conv (fst demo_final) (snd demo_final) 4096).
  - unfold in_u, demo_conv. zpow. lia.
  - rewrite <- surjective_pairing. apply demo_reachable.
  - vm_compute. reflexivity.
  - left. vm_compute. reflexivity.
Defined.

(** every datagram an endpoint emits fits the largest MTU, and its peer
    accepts it, whenever and however often it arrives. *)
Theorem kcp_peer_datagram_accepted conv a b d :
  in_u 64 conv -> reachable conv (a, b) -> d ∈ n_net a ->
  zlen d < 1073741824 /\ exists k', ikcp_input (n_kcp b) (Some d) (zlen d) = Some (0, k').
Proof.
  intros Hc Hr Hd. destruct (reachable_inv conv (a, b) Hc Hr) as [H1 H2]. cbn [fst snd] in *.
  pose proof H1 as [Hl1 Hp1 Hn1 _ _]. pose proof H2 as [Hl2 Hp2 _ _ _].
  rewrite Forall_forall in Hn1. specialize (Hn1 d Hd).
  split; [destruct Hn1 as (ss & _ & _ & ?); unfold mtu_max in *; lia|].
  destruct (input_inv conv (log b) (log a) (n_kcp a) mtu_max d (n_kcp b)) as (k' & E & _); eauto.
  - apply Hp1.
  - unfold mtu_max. lia.
Qed.

Theorem kcp_peer_datagram_accepted_witness :
  exists d, d ∈ n_net (fst demo_final) /\ zlen d < 1073741824 /\
  exists k', ikcp_input (n_kcp (snd demo_final)) (Some d) (zlen d) = Some (0, k').
Proof.
  exists (default [] (n_net (fst demo_final) !! 1%nat)).
  assert (H : default [] (n_net (fst demo_final) !! 1%nat) ∈ n_net (fst demo_final)).
  { apply list_elem_of_lookup. exists 1%nat. vm_compute. reflexivity. }
  split; [exact H|].
  apply (kcp_peer_datagram_accepted demo_conv (fst demo_final) (snd demo_final)); [| |exact H].
  - unfold in_u, demo_conv. zpow. lia.
  - rewrite <- surjective_pairing. apply demo_reachable.
Defined.
