(* ===== verification/KcpRobust.v ===== *)
(** * KCP under arbitrary input

    Nothing here trusts the peer: the bytes given to [ikcp_input] are any bytes
    at all, and the control block stays well formed. *)

From Stdlib Require Import Sorting.Sorted.
From S2P Require Import Prelude KcpTypes KcpRecv KcpSend KcpInput KcpFlush.
From S2P Require Import KcpRecvFacts KcpSendFacts KcpInputFacts KcpFlushFacts.
From S2P Require Import KcpPeer.

(** ** Well-formed control blocks *)

(** Counters agree with the queues, segments hold the bytes they announce and
    those to be sent fit the MTU, and the acknowledgement array has room for
    what it lists. *)
Record kcp_wf (k : ikcpcb) : Prop := {
  kw_rcv : rcv_wf k;
  kw_full : Forall seg_full (k_rcv_buf k) /\ Forall seg_full (k_rcv_queue k);
  kw_mtu : 0 < k_mss k /\ k_mtu k = k_mss k + IKCP_OVERHEAD /\ k_mtu k < 1073741824;
  kw_nxt : in_u 32 (k_snd_nxt k);
  kw_buf : k_nsnd_buf k = zlen (k_snd_buf k) /\ Forall (seg_fits (k_mss k)) (k_snd_buf k);
  kw_que : k_nsnd_que k = zlen (k_snd_queue k) /\ Forall (seg_fits (k_mss k)) (k_snd_queue k);
  kw_wait : zlen (k_snd_buf k) + zlen (k_snd_queue k) < 4294967296;
  kw_acks : 0 <= k_ackcount k <= zlen (k_acklist k) /\ zlen (k_acklist k) <= k_ackblock k
}.

(** The parts of a block that acknowledgement handling leaves alone. *)
Definition unacked (k : ikcpcb) :=
  ((rdata k, (k_acklist k, k_ackcount k, k_ackblock k)),
   ((k_mss k, k_mtu k, k_snd_nxt k), (k_snd_queue k, k_nsnd_que k))).

Lemma kcp_wf_frame k k' :
  unacked k' = unacked k ->
  k_nsnd_buf k' = zlen (k_snd_buf k') -> zlen (k_snd_buf k') <= zlen (k_snd_buf k) ->
  Forall (seg_fits (k_mss k)) (k_snd_buf k') ->
  kcp_wf k -> kcp_wf k'.
Proof.
  intros E Hn Hl Hfit [[] [] ? ? [] [] ? []]. unfold unacked, rdata in E.
  injection E as E1 E2 E3 E4 E5 E6 A1 A2 A3 B1 B2 B3 B4 B5.
  constructor; [constructor|..]; rewrite ?E1, ?E2, ?E3, ?E4, ?E5, ?E6, ?A1, ?A2, ?A3, ?B1, ?B2, ?B3, ?B4, ?B5; auto.
  lia.
Qed.

(** The same, when [snd_buf] does not change either. *)
Lemma kcp_wf_same k k' :
  unacked k' = unacked k -> k_nsnd_buf k' = k_nsnd_buf k -> k_snd_buf k' = k_snd_buf k ->
  kcp_wf k -> kcp_wf k'.
Proof.
  intros E E1 E2 Hwf. pose proof Hwf as [_ _ _ _ [Hn Hf] _ _ _].
  apply (kcp_wf_frame k); rewrite ?E1, ?E2; auto. lia.
Qed.

(** ** Headers *)

Lemma decode32u_range p v q : ikcp_decode32u p = Some (v, q) -> in_u 32 v.
Proof.
  do 4 (destruct p as [|? p]; [discriminate|]). intros H. injection H as <- _.
  apply wrap_range. lia.
Qed.

Lemma decode_header_range conv data h rest :
  decode_header conv data = Some (h, rest) -> in_u 32 (h_sn h) /\ in_u 32 (h_len h).
Proof.
  unfold decode_header. intros H.
  repeat match type of H with
    | (_ ← ?x; _) = _ => destruct x as [[? ?]|] eqn:?; cbn [mbind option_bind] in H; [|discriminate]
    end.
  injection H as <- _. cbn. split; eapply decode32u_range; eauto.
Qed.

(** ** The acknowledgement array *)


(** The block size doubles until it is large enough. *)
Lemma grow_block_spec fuel b n :
  0 < b -> n <= b * 2 ^ Z.of_nat fuel -> b * 2 ^ Z.of_nat fuel < 2 ^ 64 ->
  n <= grow_block fuel b n /\ (grow_block fuel b n = b \/ grow_block fuel b n < 2 * n) /\
  exists j, 0 <= j /\ grow_block fuel b n = b * 2 ^ j.
Proof.
  revert b. induction fuel as [|fuel IH]; intros b Hb Hn Hlt; cbn [grow_block].
  { cbn in Hn. split; [lia|split; auto]. exists 0. lia. }
  destruct (Z.ltb_spec b n) as [Hlt2|]; [|split; [lia|split; auto]; exists 0; lia].
  rewrite Nat2Z.inj_succ, Z.pow_succ_r in Hn, Hlt by lia.
  assert (0 < 2 ^ Z.of_nat fuel) by (apply Z.pow_pos_nonneg; lia).
  replace (u64 (Z.shiftl b 1)) with (2 * b).
  - destruct (IH (2 * b)) as (H1 & H2 & j & Hj & H3); try lia.
    split; auto. split; [lia|]. exists (j + 1). split; [lia|].
    rewrite H3, Z.pow_add_r by lia. lia.
  - rewrite Z.shiftl_mul_pow2 by lia. rewrite wrap_id; [lia|]. unfold in_u. nia.
Qed.

Lemma grow_block_more fuel extra b n :
  n <= grow_block fuel b n -> grow_block (fuel + extra) b n = grow_block fuel b n.
Proof.
  revert b. induction fuel as [|fuel IH]; intros b; cbn [grow_block plus].
  - intros H. destruct extra; cbn [grow_block]; auto. destruct (Z.ltb_spec b n); auto. lia.
  - destruct (b <? n); auto.
Qed.

(** For every count below 2^31 the array is at least as long as it has to be,
    less than twice as long, and a power of two. *)
Lemma grow_block_fits n :
  8 < n <= 2147483648 ->
  let b := u32 (grow_block 64 8 n) in n <= b < 2 * n /\ exists j, 0 <= j /\ b = 8 * 2 ^ j.
Proof.
  intros Hn. cbv zeta. change 64%nat with (28 + 36)%nat.
  destruct (grow_block_spec 28 8 n) as (H1 & H2 & j & Hj & H3); [lia|cbn; lia|cbn; lia|].
  rewrite grow_block_more by auto. rewrite wrap_id by (unfold in_u; zpow; lia).
  split; [lia|eauto].
Qed.

Lemma ack_push_room k sn ts :
  kcp_wf k -> k_ackcount k < 2147483648 ->
  let k' := ikcp_ack_push k sn ts in
  kcp_wf k' /\ k_ackcount k' = k_ackcount k + 1 /\
  ztake (k_ackcount k') (k_acklist k') = ztake (k_ackcount k) (k_acklist k) ++ [(sn, ts)].
Proof.
  intros [Hr ? ? ? ? ? ? [Ha Hb]] Hc. cbv zeta. unfold ikcp_ack_push. cbv zeta. kred.
  rewrite wrap_id by (unfold in_u; zpow; lia).
  assert (Hl : zlen (ztake (k_ackcount k) (k_acklist k) ++ [(sn, ts)]) = k_ackcount k + 1).
  { rewrite length_app, length_take. cbn [length]. lia. }
  split; [|split; [reflexivity|]].
  - constructor; auto; [destruct Hr; constructor; auto|]. kred. rewrite Hl. split; [lia|].
    destruct (Z.ltb_spec (k_ackblock k) (k_ackcount k + 1)); [|lia].
    destruct (Z.leb_spec (k_ackcount k + 1) 8) as [H8|H8].
    + cbn [grow_block]. destruct (Z.ltb_spec 8 (k_ackcount k + 1)); [lia|]. change (u32 8) with 8. lia.
    + pose proof (grow_block_fits (k_ackcount k + 1) ltac:(lia)) as Hg. cbv zeta in Hg. lia.
  - rewrite take_ge by lia. reflexivity.
Qed.

(** ** One segment from anywhere *)

Lemma parse_una_wf k una : kcp_wf k -> kcp_wf (ikcp_parse_una k una).
Proof.
  intros Hwf. pose proof Hwf as [_ _ _ _ [Hn Hf] _ Hl _].
  destruct (parse_una_spec una (k_snd_buf k) (k_nsnd_buf k)) as (d & Hd & _ & Hc & _).
  specialize (Hc ltac:(lia)). pose proof (f_equal length Hd) as Hlen. rewrite length_app in Hlen.
  rewrite Hd in Hf. apply Forall_app in Hf as [_ Hf].
  rewrite wrap_id in Hc by (unfold in_u; zpow; lia).
  unfold ikcp_parse_una. cbv zeta. apply (kcp_wf_frame k); auto; kred; lia.
Qed.

Lemma parse_ack_wf k sn : kcp_wf k -> kcp_wf (ikcp_parse_ack k sn).
Proof.
  intros Hwf. unfold ikcp_parse_ack. destruct (ack_outside k sn); auto. cbv zeta.
  pose proof Hwf as [_ _ _ _ [Hn Hf] _ Hl _].
  destruct (parse_ack_loop_spec sn (k_snd_buf k) (k_nsnd_buf k)) as [[E1 E2]|(l1 & s & l2 & E & Es & E1 & E2)];
    rewrite E1, E2.
  - apply (kcp_wf_same k); auto.
  - rewrite E, length_app in Hl. cbn [length] in Hl. rewrite E in Hf.
    apply Forall_app in Hf as [Hf1 Hf2]. apply Forall_cons in Hf2 as [_ Hf2].
    apply (kcp_wf_frame k); auto; kred; rewrite ?Hn, ?E, ?length_app; cbn [length]; try lia.
    + rewrite wrap_id; [lia|]. unfold in_u. zpow. lia.
    + apply Forall_app; auto.
Qed.

Lemma shrink_buf_wf k : kcp_wf k -> kcp_wf (ikcp_shrink_buf k).
Proof.
  intros Hwf. apply (kcp_wf_same k); auto; unfold ikcp_shrink_buf; destruct (k_snd_buf k) eqn:E; auto.
Qed.

Lemma input_una_wf k h : kcp_wf k -> kcp_wf (input_una k h).
Proof. intros Hwf. apply shrink_buf_wf, parse_una_wf. apply (kcp_wf_same k); auto. Qed.

Lemma input_ack_wf k h : kcp_wf k -> kcp_wf (input_ack k h).
Proof.
  intros Hwf. apply shrink_buf_wf, parse_ack_wf. destruct (0 <=? _); auto. apply (kcp_wf_same k); auto.
Qed.

Lemma elem_Forall_app {A} (P : A -> Prop) l1 l2 :
  (forall x, x ∈ l1 ++ l2 -> P x) -> Forall P l1 /\ Forall P l2.
Proof. intros H. apply Forall_app, Forall_forall. auto. Qed.

Lemma parse_data_other k seg :
  let k' := ikcp_parse_data k seg in
  k_snd_buf k' = k_snd_buf k /\ k_nsnd_buf k' = k_nsnd_buf k /\
  k_acklist k' = k_acklist k /\ k_ackcount k' = k_ackcount k /\ k_ackblock k' = k_ackblock k /\
  k_mss k' = k_mss k /\ k_mtu k' = k_mtu k /\ k_snd_nxt k' = k_snd_nxt k /\
  k_snd_queue k' = k_snd_queue k /\ k_nsnd_que k' = k_nsnd_que k.
Proof.
  cbv zeta. rewrite parse_data_place. destruct (in_window _ _); [|repeat split].
  unfold place_seg. cbv zeta. destruct (pl_repeat _); repeat split.
Qed.

Lemma parse_data_wf k seg :
  kcp_wf k -> in_u 32 (sg_sn seg) -> seg_full seg -> kcp_wf (ikcp_parse_data k seg).
Proof.
  intros [Hr [Hf1 Hf2] ? ? ? ? ? ?] Hsn Hfull.
  destruct (parse_data_functional k seg Hr Hsn) as (Hr' & mv & Hq & _ & _ & Hmem).
  destruct (parse_data_other k seg) as (E1 & E2 & E3 & E4 & E5 & E6 & E7 & E8 & E9 & E10).
  assert (Hall : forall x, x ∈ mv ++ k_rcv_buf (ikcp_parse_data k seg) -> seg_full x).
  { intros x Hx. apply Hmem in Hx as [Hx|[_ ->]]; auto. rewrite Forall_forall in Hf1. auto. }
  apply elem_Forall_app in Hall as [Hm Hb].
  constructor; rewrite ?E1, ?E2, ?E3, ?E4, ?E5, ?E6, ?E7, ?E8, ?E9, ?E10; auto.
  split; auto. rewrite Hq. apply Forall_app; auto.
Qed.

Lemma push_segment_full h payload :
  0 <= h_len h -> zlen payload = h_len h ->
  seg_full (push_segment h payload) /\ sg_sn (push_segment h payload) = h_sn h.
Proof.
  intros Hl Hp. unfold push_segment, seg_full. destruct (Z.ltb_spec 0 (h_len h)); kred; auto.
  unfold ikcp_segment_new. kred. rewrite length_replicate. split; [lia|reflexivity].
Qed.

Lemma input_push_wf k h payload :
  kcp_wf k -> k_ackcount k < 2147483648 -> in_u 32 (h_sn h) -> 0 <= h_len h -> zlen payload = h_len h ->
  kcp_wf (input_push k h payload) /\ k_ackcount (input_push k h payload) <= k_ackcount k + 1.
Proof.
  intros Hwf Hc Hsn Hl Hp. unfold input_push. destruct (_ <? 0); [|split; [auto|lia]]. cbv zeta.
  destruct (ack_push_room k (h_sn h) (h_ts h) Hwf Hc) as (H1 & H2 & _).
  destruct (push_segment_full h payload Hl Hp) as [Hf Hs].
  destruct (0 <=? _); [|split; [auto|lia]]. split; [apply parse_data_wf; auto; rewrite Hs; auto|].
  destruct (parse_data_other (ikcp_ack_push k (h_sn h) (h_ts h)) (push_segment h payload))
    as (_ & _ & _ & -> & _). lia.
Qed.

Lemma ackcount_una k h : k_ackcount (input_una k h) = k_ackcount k.
Proof. unfold input_una, ikcp_shrink_buf, ikcp_parse_una. cbv zeta. kred. case_match; reflexivity. Qed.

Lemma ackcount_ack k h : k_ackcount (input_ack k h) = k_ackcount k.
Proof.
  unfold input_ack, ikcp_shrink_buf, ikcp_parse_ack. cbv zeta.
  set (k1 := if 0 <=? itimediff (k_current k) (h_ts h) then _ else k).
  assert (E : k_ackcount k1 = k_ackcount k) by (subst k1; destruct (0 <=? _); reflexivity).
  clearbody k1. rewrite <- E. destruct (ack_outside k1 (h_sn h)); [|kred]; case_match; reflexivity.
Qed.

Lemma input_seg_wf k a h payload :
  kcp_wf k -> k_ackcount k < 2147483648 -> in_u 32 (h_sn h) -> 0 <= h_len h -> zlen payload = h_len h ->
  let k' := fst (input_seg k a h payload) in kcp_wf k' /\ k_ackcount k' <= k_ackcount k + 1.
Proof.
  intros Hwf Hc Hsn Hl Hp. cbv zeta. unfold input_seg. cbv zeta.
  pose proof (input_una_wf k h Hwf) as H1. rewrite <- (ackcount_una k h) in *.
  revert H1 Hc. generalize (input_una k h). intros k1 H1 Hc.
  destruct (h_cmd h =? IKCP_CMD_ACK); cbn [fst].
  { rewrite ackcount_ack. split; [apply input_ack_wf; auto|lia]. }
  destruct (h_cmd h =? IKCP_CMD_PUSH); cbn [fst]; [apply input_push_wf; auto|].
  destruct (h_cmd h =? IKCP_CMD_WASK); cbn [fst]; [|split; [auto|lia]].
  split; [|kred; lia]. apply (kcp_wf_same k1); auto.
Qed.

(** ** A whole datagram from anywhere *)

Definition input_code (ret : Z) : Prop := ret = 0 \/ ret = -1 \/ ret = -2 \/ ret = -3.

Lemma input_loop_wf fuel k a data r :
  kcp_wf k -> k_ackcount k + zlen data / IKCP_OVERHEAD <= 2147483648 ->
  input_loop fuel k a data (zlen data) = Some r -> kcp_wf (snd (fst r)) /\ input_code (fst (fst r)).
Proof.
  unfold IKCP_OVERHEAD, input_code. revert k a data. induction fuel as [|fuel IH]; intros k a data Hwf Hc H; [discriminate|].
  cbn [input_loop] in H. destruct (Z.ltb_spec (zlen data) IKCP_OVERHEAD) as [|Hlen]; [injection H as <-; auto|].
  destruct (decode_ok data Hlen) as (conv & rest & h & E1 & E2 & Hh). rewrite E1 in H.
  cbn [mbind option_bind] in H. destruct (negb _); [injection H as <-; auto|].
  rewrite E2 in H. cbn [mbind option_bind] in H.
  destruct (decode_header_range _ _ _ _ E2) as [Hsn _].
  destruct (_ || _); [injection H as <-; auto|]. destruct (negb _); [injection H as <-; auto|].
  unfold read_bytes in H.
  destruct ((0 <=? h_len h) && (h_len h <=? zlen (zdrop IKCP_OVERHEAD data))) eqn:Hr; [|discriminate].
  cbn [mbind option_bind] in H. apply andb_true_iff in Hr as [_ Hr]. apply Z.leb_le in Hr.
  pose proof (Z.div_mod (zlen data) 28 ltac:(lia)) as Hdm. pose proof (Z.mod_pos_bound (zlen data) 28 ltac:(lia)) as Hmb.
  destruct (input_seg_wf k a h (ztake (h_len h) (zdrop IKCP_OVERHEAD data)) Hwf) as [H1 H2]; auto;
    [unfold IKCP_OVERHEAD in *; lia|rewrite length_take; lia|].
  revert H H1 H2. generalize (input_seg k a h (ztake (h_len h) (zdrop IKCP_OVERHEAD data))).
  intros [k1 a1] H H1 H2. cbn [fst snd] in *.
  replace (zlen data - IKCP_OVERHEAD - h_len h)
    with (zlen (zdrop (h_len h) (zdrop IKCP_OVERHEAD data))) in H
    by (rewrite length_drop, length_drop in *; unfold IKCP_OVERHEAD in *; lia).
  apply (IH _ _ _ H1) in H; auto. rewrite !length_drop. unfold IKCP_OVERHEAD in *.
  assert (Z.of_nat (length data - Z.to_nat 28 - Z.to_nat (h_len h)) / 28 <= zlen data / 28 - 1); [|lia].
  replace (zlen data / 28 - 1) with ((zlen data - 28) / 28).
  - apply Z.div_le_mono; lia.
  - replace (zlen data - 28) with (zlen data + (-1) * 28) by lia. rewrite Z.div_add by lia. lia.
Qed.

Lemma finish_wf una k a : kcp_wf k -> kcp_wf (input_finish una k a).
Proof.
  intros Hwf. unfold input_finish. cbv zeta.
  set (k1 := if a_flag a then ikcp_parse_fastack k (a_maxack a) else k).
  assert (H1 : kcp_wf k1).
  { subst k1. destruct (a_flag a); auto. unfold ikcp_parse_fastack. destruct (ack_outside _ _); auto.
    pose proof Hwf as [_ _ _ _ [Hn Hf] _ _ _].
    pose proof (parse_fastack_loop_spec (a_maxack a) (k_snd_buf k)) as H2.
    pose proof (Forall2_length _ _ _ H2). apply (kcp_wf_frame k); auto; kred; [lia..|].
    apply Forall_lookup. intros i x Hx. destruct (Forall2_lookup_r _ _ _ _ _ H2 Hx) as (y & Hy & ->).
    exact (Forall_lookup_1 _ _ _ _ Hf Hy). }
  clearbody k1. destruct (0 <? _); auto. unfold input_cwnd. destruct (_ <? _); auto.
  apply (kcp_wf_same k1); auto.
Qed.

Lemma input_wf k data :
  kcp_wf k -> k_ackcount k + zlen data / IKCP_OVERHEAD <= 2147483648 ->
  exists ret k', ikcp_input k (Some data) (zlen data) = Some (ret, k') /\
    kcp_wf k' /\ input_code ret.
Proof.
  intros Hwf Hc. destruct (input_total k data) as [[ret k'] E]. exists ret, k'.
  split; [exact E|]. unfold ikcp_input, input_code in *.
  destruct (s32 (zlen data) <? IKCP_OVERHEAD); [injection E as <- <-; auto|].
  destruct (input_loop _ _ _ _ _) as [[[r k1] a]|] eqn:El; [|discriminate].
  destruct (input_loop_wf _ _ _ _ _ Hwf Hc El) as [H1 H2]. cbn [fst snd] in *.
  destruct (r <? 0); injection E as <- <-; auto using finish_wf.
Qed.

(** ** The other calls *)

(** Taking the head message off the queue. *)
Lemma recv_taken_wf k pk :
  kcp_wf k ->
  let m := recv_merge pk (k_rcv_queue k) 0 [] (k_nrcv_que k) in
  kcp_wf (if pk then k else set_rcv_queue (mg_que m) (set_nrcv_que (mg_nque m) k)).
Proof.
  intros Hwf. cbv zeta. pose proof Hwf as [Hr [Hf1 Hf2] ? ? ? ? ? ?].
  destruct (recv_merge_span pk (k_rcv_queue k) 0 [] (k_nrcv_que k)) as (_ & _ & H3 & H4); [reflexivity|].
  set (m := recv_merge _ _ _ _ _) in *. clearbody m. destruct pk; auto.
  assert (E : mg_nque m = zlen (drop (length (msg_span (k_rcv_queue k))) (k_rcv_queue k))).
  { destruct Hr as [? ? ? ? ? Hnq Hq].
    assert (length (msg_span (k_rcv_queue k)) <= length (k_rcv_queue k))%nat.
    { clear. induction (k_rcv_queue k) as [|x l IH]; cbn; [lia|]. destruct (sg_frg x =? 0); cbn; lia. }
    rewrite H4 by (unfold in_u; zpow; lia). rewrite length_drop, Hnq, wrap_id by (unfold in_u; zpow; lia). lia. }
  rewrite H3, E. constructor; auto; kred; auto using Forall_drop.
  destruct Hr. constructor; kred; auto. rewrite length_drop. lia.
Qed.

Lemma recv_wf k len : kcp_wf k -> kcp_wf (snd (ikcp_recv k len)).
Proof.
  intros Hwf. unfold ikcp_recv. destruct (k_rcv_queue k) as [|s q] eqn:Eq; [auto|]. rewrite <- Eq. cbv zeta.
  destruct (_ <? 0); [auto|]. destruct (_ <? _); [auto|]. cbn [snd].
  pose proof (recv_taken_wf k (len <? 0) Hwf) as H1. cbv zeta in H1.
  set (k1 := if len <? 0 then k else _) in *.
  clearbody k1. pose proof H1 as [Hr1 [Hb1 Hq1] ? ? ? ? ? ?].
  destruct (rcv_move_spec k1 Hr1) as (Hr2 & mv & M1 & _ & M2 & _ & _).
  assert (H2 : kcp_wf (rcv_move k1)).
  { rewrite M1 in Hb1. apply Forall_app in Hb1 as [Hmv Hb1].
    constructor; auto. split; [exact Hb1|]. rewrite M2. apply Forall_app. auto. }
  revert H2. generalize (rcv_move k1). intros k2 H2.
  destruct (_ && _); [apply (kcp_wf_same k2)|]; auto.
Qed.

Lemma send_wf k msg :
  kcp_wf k -> zlen msg < 1073741824 ->
  zlen (k_snd_buf k) + zlen (k_snd_queue k) + 128 < 4294967296 ->
  kcp_wf (snd (ikcp_send k msg (zlen msg))).
Proof.
  intros [? ? [Hm1 [Hm2 Hm3]] ? [? ?] [Hn Hf] Hw ?] Hl Hb. unfold IKCP_OVERHEAD in Hm2.
  assert (Hm : mss_ok (k_mss k)) by (unfold mss_ok; lia).
  destruct (send_bytes k msg Hm Hl Hf Hn ltac:(lia)) as (n & _ & _ & H1 & H2 & H3 & _).
  revert H1 H2 H3. rewrite send_any by auto. cbv zeta.
  destruct (negb _ && _); [|destruct (_ <=? _)]; cbn [snd]; kred; intros H1 H2 H3;
    constructor; auto; kred; auto; unfold IKCP_OVERHEAD; try lia;
    match goal with H : rcv_wf k |- _ => destruct H; constructor; auto end.
Qed.

Definition any_seg (s : IKCPSEG) : Prop := True.

(** A flush keeps the block well formed and every datagram within the MTU. *)
Lemma flush_wf k :
  kcp_wf k ->
  kcp_wf (fst (ikcp_flush k)) /\ Forall (fun d => 0 < zlen d <= k_mtu k) (snd (ikcp_flush k)) /\
  k_mtu (fst (ikcp_flush k)) = k_mtu k.
Proof.
  intros Hwf. destruct (Z.eqb_spec (k_updated k) 0) as [Hu|Hu].
  { unfold ikcp_flush. rewrite Hu. split; [auto|split; [constructor|reflexivity]]. }
  pose proof Hwf as [Hr Hf [Hm1 [Hm2 Hm3]] Hnx [Hnb Hfb] [Hnq Hfq] Hw Ha]. unfold IKCP_OVERHEAD in Hm2.
  assert (Hs : forall s, seg_fits (k_mss k) s -> sendable any_seg k s).
  { intros s [H1 H2]. split; [auto|split; [lia|]]. intros; exact I. }
  destruct (flush_ok k any_seg) as ((mv & adm & Q1 & Q2 & Q3 & Q4 & Q5 & Q6 & Q7) & H2 & H3 & H4); auto;
    try (unfold in_u; zpow; lia).
  - apply Forall_forall. intros; exact I.
  - intros; exact I.
  - eapply Forall_impl; [exact Hfb|]. auto.
  - intros i s wnd Hsi. apply Hs. pose proof (Forall_lookup_1 _ _ _ _ Hfq Hsi) as [Hx Hy]. split; auto.
  - revert Q1 Q2 Q3 Q4 Q5 Q6 Q7 H2 H3 H4. destruct (ikcp_flush k) as [k' out]. cbn [fst snd].
    intros Q1 Q2 Q3 Q4 Q5 Q6 Q7 H2 H3 H4.
    destruct H2 as (_ & F2 & F3 & _ & _ & R1 & R2 & R3 & R4 & R5 & R6 & R7 & _ & _ & _ & R8).
    assert (Hfits : Forall (seg_fits (k_mss k)) (k_snd_buf k ++ adm)).
    { apply Forall_app. split; auto. apply Forall_lookup. intros i x Hx.
      destruct (Q3 i x Hx) as (s & Hsi & _ & _ & _ & _ & E1 & E2).
      rewrite Q1 in Hfq. apply Forall_app in Hfq as [Hfm _].
      pose proof (Forall_lookup_1 _ _ _ _ Hfm Hsi). unfold seg_fits, seg_full in *. rewrite E1, E2. auto. }
    pose proof (Forall2_length _ _ _ Q4) as Hl. rewrite length_app in Hl.
    rewrite Q1, length_app in Hnq, Hw. rewrite Q1 in Hfq. apply Forall_app in Hfq as [_ Hfq].
    rewrite wrap_id in Q6, Q7 by (unfold in_u; zpow; lia).
    split; [|split; [|exact F2]].
    + constructor; rewrite ?F2, ?F3, ?R3, ?R4, ?R7, ?R8, ?H3; auto; unfold IKCP_OVERHEAD; try lia.
      * destruct Hr. constructor; rewrite ?R1, ?R2, ?R3, ?R4, ?R5, ?R6; auto.
      * rewrite Q5. apply wrap_range. lia.
      * split; [lia|]. apply Forall_lookup. intros i x Hx.
        destruct (Forall2_lookup_r _ _ _ _ _ Q4 Hx) as (s & Hsi & (_ & _ & _ & _ & E1 & E2)).
        pose proof (Forall_lookup_1 _ _ _ _ Hfits Hsi). unfold seg_fits, seg_full in *. rewrite E1, E2. auto.
      * split; [lia|auto].
    + eapply Forall_impl; [exact H4|]. intros d (ss & _ & _ & Hd). exact Hd.
Qed.

Lemma update_wf k now :
  kcp_wf k ->
  kcp_wf (fst (ikcp_update k now)) /\ Forall (fun d => 0 < zlen d <= k_mtu k) (snd (ikcp_update k now)) /\
  k_mtu (fst (ikcp_update k now)) = k_mtu k.
Proof.
  intros Hwf. unfold ikcp_update. cbv zeta.
  set (k1 := set_current now k). set (k2 := if k_updated k1 =? 0 then _ else k1).
  set (k3 := if (_ || _) then set_ts_flush (k_current k2) k2 else k2).
  assert (E : unacked k3 = unacked k /\ k_nsnd_buf k3 = k_nsnd_buf k /\ k_snd_buf k3 = k_snd_buf k /\ k_mtu k3 = k_mtu k).
  { subst k3. destruct (_ || _); subst k2; destruct (k_updated k1 =? 0); repeat split. }
  clearbody k3. destruct E as (E1 & E2 & E3 & E4). pose proof (kcp_wf_same k k3 E1 E2 E3 Hwf) as H3.
  destruct (0 <=? _); [|split; [auto|split; [constructor|auto]]].
  set (k4 := if 0 <=? _ then _ else set_ts_flush _ k3).
  assert (E : unacked k4 = unacked k3 /\ k_nsnd_buf k4 = k_nsnd_buf k3 /\ k_snd_buf k4 = k_snd_buf k3 /\ k_mtu k4 = k_mtu k3)
    by (subst k4; destruct (0 <=? _); repeat split).
  clearbody k4. destruct E as (G1 & G2 & G3 & G4). rewrite <- E4, <- G4.
  apply flush_wf. apply (kcp_wf_same k3); auto.
Qed.

Lemma wndsize_wf k a b : b < 2147483648 -> kcp_wf k -> kcp_wf (snd (ikcp_wndsize k a b)).
Proof.
  intros Hb Hwf. unfold ikcp_wndsize. cbv zeta. cbn [snd].
  set (k1 := if 0 <? a then _ else k).
  assert (H1 : kcp_wf k1) by (subst k1; destruct (0 <? a); auto; apply (kcp_wf_same k); auto).
  clearbody k1. destruct (Z.ltb_spec 0 b); auto.
  destruct H1 as [Hr ? ? ? ? ? ? ?]. constructor; auto. destruct Hr. constructor; auto. kred.
  unfold imax, IKCP_WND_RCV. zcase; lia.
Qed.

Lemma setmtu_wf k mtu ok :
  k_mtu k <= mtu < 1073741824 -> kcp_wf k -> kcp_wf (snd (ikcp_setmtu k mtu ok)).
Proof.
  intros Hm Hwf. unfold ikcp_setmtu. destruct (_ || _); [auto|]. destruct (negb ok); [auto|]. cbn [snd].
  destruct Hwf as [Hr ? [Hm1 [Hm2 Hm3]] ? [? Hb] [? Hq] ? ?]. unfold IKCP_OVERHEAD in *.
  assert (Hfits : forall s, seg_fits (k_mss k) s -> seg_fits (mtu - 28) s)
    by (intros s [Hf Hl]; split; [auto|lia]).
  constructor; kred; rewrite ?(wrap_id 32 (mtu - 28)) by (unfold in_u; zpow; lia); auto;
    unfold IKCP_OVERHEAD; try lia.
  - destruct Hr. constructor; auto.
  - split; auto. eapply Forall_impl; eauto.
  - split; auto. eapply Forall_impl; eauto.
Qed.

Lemma nodelay_wf k a b c d : kcp_wf k -> kcp_wf (snd (ikcp_nodelay k a b c d)).
Proof.
  intros Hwf. apply (kcp_wf_same k); auto; unfold ikcp_nodelay; cbv zeta; cbn [snd];
    destruct (0 <=? a), (0 <=? b), (0 <=? c), (0 <=? d); reflexivity.
Qed.

(** ** Every call *)

(** One call of the API, with the datagrams it gives to the output callback.
    The bounds are those of the C types: sizes below 2^30 and counters that
    have not come near 2^32. *)
Inductive api (k : ikcpcb) : ikcpcb -> list (list byte) -> Prop :=
| api_send msg ret k' :
    zlen msg < 1073741824 -> zlen (k_snd_buf k) + zlen (k_snd_queue k) + 128 < 4294967296 ->
    ikcp_send k msg (zlen msg) = (ret, k') -> api k k' []
| api_input data ret k' :
    k_ackcount k + zlen data / IKCP_OVERHEAD <= 2147483648 ->
    ikcp_input k (Some data) (zlen data) = Some (ret, k') -> api k k' []
| api_recv len ret buf k' : ikcp_recv k len = (ret, buf, k') -> api k k' []
| api_update now k' out : ikcp_update k now = (k', out) -> api k k' out
| api_flush k' out : ikcp_flush k = (k', out) -> api k k' out
| api_nodelay a b c d ret k' : ikcp_nodelay k a b c d = (ret, k') -> api k k' []
| api_interval a ret k' : ikcp_interval k a = (ret, k') -> api k k' []
| api_wndsize a b ret k' :
    b < 2147483648 -> ikcp_wndsize k a b = (ret, k') -> api k k' []
| api_setmtu mtu ok ret k' :
    k_mtu k <= mtu < 1073741824 -> ikcp_setmtu k mtu ok = (ret, k') -> api k k' []
| api_stream v : api k (set_stream v k) [].

Lemma api_wf k k' out :
  kcp_wf k -> api k k' out -> kcp_wf k' /\ Forall (fun d => 0 < zlen d <= k_mtu k') out.
Proof.
  intros Hwf Hs.
  destruct Hs as [msg ret k' Hl Hb E|data ret k' Hc E|len ret buf k' E|now k' out E|k' out E|
    a b c d ret k' E|a ret k' E|a b ret k' Hb E|mtu ok ret k' Hm E|v]; try (split; [|constructor]).
  - replace k' with (snd (ret, k')) by reflexivity. rewrite <- E. apply send_wf; auto.
  - destruct (input_wf k data Hwf Hc) as (r & k1 & E1 & H1 & _). congruence.
  - replace k' with (snd (ret, buf, k')) by reflexivity. rewrite <- E. apply recv_wf; auto.
  - pose proof (update_wf k now Hwf) as H. rewrite E in H. cbn [fst snd] in H.
    destruct H as (H1 & H2 & ->). auto.
  - pose proof (flush_wf k Hwf) as H. rewrite E in H. cbn [fst snd] in H.
    destruct H as (H1 & H2 & ->). auto.
  - replace k' with (snd (ret, k')) by reflexivity. rewrite <- E. apply nodelay_wf; auto.
  - unfold ikcp_interval in E. injection E as _ <-. apply (kcp_wf_same k); auto.
  - replace k' with (snd (ret, k')) by reflexivity. rewrite <- E. apply wndsize_wf; auto.
  - replace k' with (snd (ret, k')) by reflexivity. rewrite <- E. apply setmtu_wf; auto.
  - apply (kcp_wf_same k); auto.
Qed.

Lemma new_wf conv : kcp_wf (new_kcpcb conv).
Proof.
  constructor; cbn; try (unfold in_u, IKCP_MTU_DEF, IKCP_OVERHEAD; zpow; lia); auto; [|split; [reflexivity|constructor]..].
  constructor; cbn; try constructor; unfold in_u, IKCP_WND_RCV; zpow; lia.
Qed.

(** What a sequence of calls makes of a block, and all it output. *)
Inductive api_run : ikcpcb -> ikcpcb -> list (list byte) -> Prop :=
| run_nil k : api_run k k []
| run_call k k1 k2 o1 o2 : api k k1 o1 -> api_run k1 k2 o2 -> api_run k k2 (o1 ++ o2).

(** ** Theorems *)

(** C3: from [ikcp_create] on, with any bytes from the network and any sequence
    of calls within these bounds, the control block stays well formed: the
    counters are the queue lengths, [rcv_buf] is strictly ordered inside the
    half space ahead of [rcv_nxt], no segment announces bytes it does not
    hold, and the acknowledgement array never overflows.  The bounds: messages
    below 2^30 bytes, sent while fewer than 2^32 - 128 segments are queued;
    datagrams that cannot take the list of acknowledgements past 2^31 entries
    (a segment has at least 24 bytes); a receive window below 2^31; and an MTU
    that [ikcp_setmtu] only makes larger, below 2^30 (a smaller one breaks the
    block, [kcp_setmtu_overruns_buffer]).  Receiving, [ikcp_update], [ikcp_flush],
    [ikcp_nodelay], [ikcp_interval] and the stream flag are free. *)
Theorem kcp_always_well_formed conv k k' out :
  ikcp_create conv true true = Some k -> api_run k k' out -> kcp_wf k'.
Proof.
  intros [= <-] Hr. revert Hr. pose proof (new_wf conv) as H0. revert H0.
  generalize (new_kcpcb conv). intros k H0 Hr. induction Hr as [|k k1 k2 o1 o2 Ha _ IH]; auto.
  apply IH. apply (api_wf k k1 o1); auto.
Qed.

(** A block that got 70 bytes of noise between a send and an update. *)
Definition noisy : ikcpcb :=
  let k := snd (ikcp_send (new_kcpcb 7) (replicate 40 (zb 1)) 40) in
  let k := match ikcp_input k (Some (le_enc 8 7 ++ replicate 62 (zb 81))) 70 with
           | Some r => snd r | None => k end in
  fst (ikcp_update k 500).

Theorem kcp_always_well_formed_witness : kcp_wf noisy /\ length (k_snd_queue noisy) = 1%nat.
Proof.
  split; [|vm_compute; reflexivity].
  eapply (kcp_always_well_formed 7 (new_kcpcb 7) noisy); [reflexivity|].
  eapply run_call; [eapply (api_send _ (replicate 40 (zb 1))); [vm_compute; reflexivity..|
    change (zlen (replicate 40 (zb 1))) with 40; apply surjective_pairing]|].
  eapply run_call; [eapply (api_input _ (le_enc 8 7 ++ replicate 62 (zb 81)) (-2));
    [vm_compute; discriminate|vm_compute; reflexivity]|].
  eapply run_call; [eapply (api_update _ 500)|apply run_nil].
  vm_compute. reflexivity.
Defined.

(** C4: [ikcp_input] always returns, with one of its four codes, and reads no
    byte outside the datagram it was given. *)
Theorem kcp_input_never_overreads k data :
  kcp_wf k -> k_ackcount k + zlen data / IKCP_OVERHEAD <= 2147483648 ->
  exists ret k', ikcp_input k (Some data) (zlen data) = Some (ret, k') /\
    kcp_wf k' /\ (ret = 0 \/ ret = -1 \/ ret = -2 \/ ret = -3).
Proof. intros Hwf Hc. destruct (input_wf k data Hwf Hc) as (r & k' & H1 & H2 & H3). eauto. Qed.

Theorem kcp_input_never_overreads_witness :
  exists ret k', ikcp_input (new_kcpcb 7) (Some (le_enc 8 7 ++ replicate 62 (zb 81))) 70 = Some (ret, k') /\
    kcp_wf k' /\ (ret = 0 \/ ret = -1 \/ ret = -2 \/ ret = -3).
Proof.
  apply (kcp_input_never_overreads (new_kcpcb 7) (le_enc 8 7 ++ replicate 62 (zb 81)));
    [apply new_wf|vm_compute; discriminate].
Defined.

(** every datagram given to the output callback is non-empty and at most
    the MTU long. *)
Theorem kcp_output_within_mtu k k' out :
  kcp_wf k -> api k k' out -> Forall (fun d => 0 < zlen d <= k_mtu k') out.
Proof. intros Hwf Hs. apply (api_wf k k' out Hwf Hs). Qed.

Definition big_send : ikcpcb :=
  snd (ikcp_send (set_nocwnd 1 (new_kcpcb 7)) (replicate 3000 (zb 1)) 3000).

Theorem kcp_output_within_mtu_witness :
  map length (snd (ikcp_update big_send 500)) = [1400; 1400; 284]%nat /\
  Forall (fun d => 0 < zlen d <= k_mtu (fst (ikcp_update big_send 500))) (snd (ikcp_update big_send 500)).
Proof.
  split; [vm_compute; reflexivity|].
  apply (kcp_output_within_mtu big_send); [|apply (api_update _ 500), surjective_pairing].
  assert (H : kcp_wf (set_nocwnd 1 (new_kcpcb 7))) by (apply (kcp_wf_same (new_kcpcb 7)); [reflexivity..|apply new_wf]).
  apply (send_wf _ (replicate 3000 (zb 1))) in H; [exact H|vm_compute; reflexivity..].
Defined.

(** shrinking the MTU while a longer segment waits makes the next flush
    write past the end of [kcp->buffer], which [ikcp_setmtu] has just
    reallocated to three times (mtu + 28) bytes. *)
Theorem kcp_setmtu_overruns_buffer :
  let k := snd (ikcp_send (new_kcpcb 7) (replicate 1000 (zb 1)) 1000) in
  let k := set_nocwnd 1 k in
  exists k', ikcp_setmtu k 50 true = (0, k') /\ k_mtu k' = 50 /\
    Exists (fun d => (k_mtu k' + IKCP_OVERHEAD) * 3 < zlen d) (snd (ikcp_update k' 500)).
Proof.
  cbv zeta. eexists. split; [reflexivity|]. split; [reflexivity|].
  replace (snd (ikcp_update _ 500)) with
    [concat (snd (ikcp_update (snd (ikcp_setmtu (set_nocwnd 1 (snd (ikcp_send (new_kcpcb 7)
       (replicate 1000 (zb 1)) 1000))) 50 true)) 500))] by (vm_compute; reflexivity).
  apply Exists_cons_hd. vm_compute. reflexivity.
Qed.
