(* ===== verification/KcpTiming.v ===== *)
(** * KCP timing, windows and acknowledgements

    The retransmission timer, the flush clock, the send window, the congestion
    window and the removal of acknowledged segments. *)

From Stdlib Require Import Sorting.Sorted.
From S2P Require Import Prelude KcpTypes KcpRecv KcpSend KcpInput KcpFlush.
From S2P Require Import KcpRecvFacts KcpSendFacts KcpInputFacts KcpFlushFacts.
From S2P Require Import KcpPeer KcpRobust.

(** ** The retransmission timer *)

Lemma update_ack_rto k rtt :
  0 <= k_rx_minrto k <= IKCP_RTO_MAX ->
  k_rx_minrto k <= k_rx_rto (ikcp_update_ack k rtt) <= IKCP_RTO_MAX.
Proof.
  unfold IKCP_RTO_MAX. intros Hm. unfold ikcp_update_ack. cbv zeta. kred. unfold ibound, IKCP_RTO_MAX.
  rewrite (wrap_id 32 (k_rx_minrto k)) by (unfold in_u; zpow; lia).
  rewrite imin_spec, imax_spec. rewrite (swrap_id 32); zpow; lia.
Qed.

(** The estimator of RFC 6298 with alpha 1/8 and beta 1/4, in integers. *)
Record rtt_est := mkEst { e_srtt : Z; e_rttval : Z }.

Definition estimate (e : rtt_est) (rtt : Z) : rtt_est :=
  if e_srtt e =? 0 then mkEst rtt (rtt / 2)
  else mkEst (Z.max 1 ((7 * e_srtt e + rtt) / 8)) ((3 * e_rttval e + Z.abs (rtt - e_srtt e)) / 4).

Definition est_of (k : ikcpcb) : rtt_est := mkEst (k_rx_srtt k) (k_rx_rttval k).

Definition est_ok (e : rtt_est) : Prop := 0 <= e_srtt e < 268435456 /\ 0 <= e_rttval e < 268435456.

Lemma smooth_ok e rtt :
  est_ok e -> 0 <= rtt < 268435456 ->
  smooth_srtt (e_srtt e) rtt = e_srtt (estimate e rtt) /\
  smooth_rttval (e_rttval e) (e_srtt e) rtt = e_rttval (estimate e rtt) /\ est_ok (estimate e rtt).
Proof.
  unfold est_ok, estimate, smooth_srtt, smooth_rttval. intros [H1 H2] H3.
  destruct (Z.eqb_spec (e_srtt e) 0); cbn [e_srtt e_rttval].
  - rewrite Z.quot_div_nonneg by lia. repeat split; auto; try lia; Z.div_mod_to_equations; lia.
  - rewrite !(swrap_id 32) by (rewrite ?(swrap_id 32) by (zpow; lia); zpow;
      try (destruct (Z.ltb_spec (rtt - e_srtt e) 0)); try rewrite Z.quot_div_nonneg by lia;
      Z.div_mod_to_equations; lia).
    assert (E : (if rtt - e_srtt e <? 0 then - (rtt - e_srtt e) else rtt - e_srtt e) = Z.abs (rtt - e_srtt e))
      by (destruct (Z.ltb_spec (rtt - e_srtt e) 0); lia).
    rewrite E, !Z.quot_div_nonneg by lia.
    destruct (Z.ltb_spec ((7 * e_srtt e + rtt) / 8) 1);
      repeat split; try lia; Z.div_mod_to_equations; lia.
Qed.

(** ** Flow control *)

Lemma move_snd_window k wnd w que buf nque nbuf nxt :
  in_u 32 nxt -> in_u 32 nque -> in_u 32 nbuf -> in_u 32 (k_snd_una k) ->
  0 <= w < 1073741824 -> off (k_snd_una k) nxt < 1073741824 -> zlen que < 1073741824 ->
  let r := move_snd k wnd w que buf nque nbuf nxt in
  off (k_snd_una k) nxt <= off (k_snd_una k) (ss_nxt r) <= Z.max (off (k_snd_una k) nxt) w /\
  (ss_que r <> [] -> w <= off (k_snd_una k) (ss_nxt r)).
Proof.
  intros Hn Hq Hb Hu Hw Ho Hl. cbv zeta.
  destruct (move_snd_spec k wnd w que buf nque nbuf nxt Hn Hq Hb) as (mv & H1 & _ & _ & _ & H5 & H6 & H7).
  set (r := move_snd _ _ _ _ _ _ _ _) in *. clearbody r. rewrite H1, length_app in Hl.
  assert (Eo : off (k_snd_una k) (ss_nxt r) = off (k_snd_una k) nxt + zlen mv).
  { rewrite H5. unfold off in *. rewrite wrap_sub. zwrap. }
  assert (Ew : off (k_snd_una k) (u32 (k_snd_una k + w)) = w).
  { apply off_same. unfold in_u. zpow. lia. }
  split; [split; [lia|]|].
  - destruct mv as [|x mv]; [cbn in Eo; lia|]. specialize (H6 ltac:(discriminate)).
    assert (Ep : off (k_snd_una k) (u32 (ss_nxt r - 1)) = off (k_snd_una k) (ss_nxt r) - 1).
    { cbn [length] in Eo. unfold off in *. pose proof (off_range (k_snd_una k) nxt). unfold off in *. zwrap. }
    rewrite (itimediff_off (k_snd_una k)), Ep, Ew in H6 by (cbn [length] in *; lia). lia.
  - intros Hne. specialize (H7 Hne). rewrite (itimediff_off (k_snd_una k)), Ew in H7 by lia. lia.
Qed.

Lemma flush_admit_nxt k :
  let m := move_snd k (u32 (ikcp_wnd_unused k)) (flush_window k) (k_snd_queue k) (k_snd_buf k)
             (k_nsnd_que k) (k_nsnd_buf k) (k_snd_nxt k) in
  k_snd_nxt (flush_admit k) = ss_nxt m /\ k_snd_queue (flush_admit k) = ss_que m /\
  k_snd_una (flush_admit k) = k_snd_una k.
Proof. repeat split. Qed.

(** The send side after a flush is what [move_snd] made of it. *)
Lemma flush_snd_nxt k :
  k_updated k <> 0 ->
  exists k1, k_snd_una k1 = k_snd_una k /\
    let m := move_snd k1 (u32 (ikcp_wnd_unused k1)) (flush_window k) (k_snd_queue k) (k_snd_buf k)
               (k_nsnd_que k) (k_nsnd_buf k) (k_snd_nxt k) in
    k_snd_nxt (fst (ikcp_flush k)) = ss_nxt m /\ k_snd_queue (fst (ikcp_flush k)) = ss_que m /\
    k_snd_una (fst (ikcp_flush k)) = k_snd_una k.
Proof.
  intros Hu. unfold ikcp_flush. destruct (Z.eqb_spec (k_updated k) 0); [congruence|].
  destruct (flush_control_state k) as (a & b & E). cbv zeta.
  destruct (flush_data_state (u32 (ikcp_wnd_unused k)) (fst (flush_control k)) (snd (flush_control k)))
    as (e1 & e2 & e3 & e4 & e5 & ->).
  pose proof (flush_admit_nxt (fst (flush_control k))) as H. cbv zeta in H.
  revert H. generalize (flush_admit (fst (flush_control k))). intros k2 H.
  exists (fst (flush_control k)). revert H. rewrite E. intros H. cbn [fst].
  split; [reflexivity|]. kred. exact H.
Qed.

(** ** The flush clock *)

Lemma check_loop_pos cur p tm r :
  0 < tm -> check_loop cur p tm = Some r ->
  0 < r <= tm /\ Forall (fun s => r <= itimediff (sg_resendts s) cur) p.
Proof.
  revert tm. induction p as [|s p IH]; intros tm Ht; cbn [check_loop].
  - intros [= <-]. split; [lia|constructor].
  - destruct (Z.leb_spec (itimediff (sg_resendts s) cur) 0) as [|Hd]; [discriminate|].
    intros Hr. destruct (Z.ltb_spec (itimediff (sg_resendts s) cur) tm); apply IH in Hr as [H1 H2]; try lia;
      (split; [lia|constructor; [lia|exact H2]]).
Qed.

(** When [ikcp_check] asks to wait, nothing was due at [cur] and the answer is
    no later than the flush time, any resend time and [interval]. *)
Lemma check_spec k cur :
  k_updated k <> 0 -> in_u 32 cur -> in_u 32 (k_ts_flush k) -> 0 <= k_interval k < 2147483648 ->
  let w := itimediff (ikcp_check k cur) cur in
  in_u 32 (ikcp_check k cur) /\ 0 <= w <= k_interval k /\
  (0 < w -> -10000 <= itimediff cur (k_ts_flush k) < 0 /\ w <= - itimediff cur (k_ts_flush k) /\
            Forall (fun s => w <= itimediff (sg_resendts s) cur) (k_snd_buf k)).
Proof.
  intros Hu Hc Hf Hi. cbv zeta. unfold ikcp_check.
  destruct (Z.eqb_spec (k_updated k) 0); [congruence|]. cbv zeta.
  assert (H0 : itimediff cur cur = 0) by (unfold itimediff; rewrite Z.sub_diag; reflexivity).
  assert (Hnow : in_u 32 cur /\ 0 <= itimediff cur cur <= k_interval k /\
    (0 < itimediff cur cur -> -10000 <= itimediff cur (k_ts_flush k) < 0 /\
      itimediff cur cur <= - itimediff cur (k_ts_flush k) /\
      Forall (fun s => itimediff cur cur <= itimediff (sg_resendts s) cur) (k_snd_buf k)))
    by (rewrite H0; split; [auto|split; [lia|intros; lia]]).
  destruct ((10000 <=? itimediff cur (k_ts_flush k)) || (itimediff cur (k_ts_flush k) <? -10000)) eqn:Hj.
  { rewrite H0. exact Hnow. }
  apply orb_false_iff in Hj as [Hj1 Hj2]. apply Z.leb_gt in Hj1. apply Z.ltb_ge in Hj2.
  destruct (Z.leb_spec 0 (itimediff cur (k_ts_flush k))) as [|Hd]; [exact Hnow|].
  assert (Hneg : itimediff (k_ts_flush k) cur = - itimediff cur (k_ts_flush k))
    by (unfold itimediff in *; zwrap).
  destruct (check_loop cur (k_snd_buf k) 2147483647) as [tm|] eqn:El; [|exact Hnow].
  apply check_loop_pos in El as [Ht Hall]; [|lia]. rewrite Hneg.
  set (m := if tm <? - itimediff cur (k_ts_flush k) then tm else - itimediff cur (k_ts_flush k)).
  assert (Hm : 0 < m <= - itimediff cur (k_ts_flush k) /\ m <= tm) by (subst m; zcase; lia).
  clearbody m. rewrite (wrap_id 32 m) by (unfold in_u; zpow; lia).
  set (v := if k_interval k <=? m then k_interval k else m).
  assert (Hv : 0 <= v <= m /\ v <= k_interval k) by (subst v; zcase; lia). clearbody v.
  assert (Ev : itimediff (u32 (cur + v)) cur = v) by (unfold itimediff; zwrap).
  rewrite Ev. split; [apply wrap_range; lia|]. split; [lia|]. intros _. split; [lia|split; [lia|]].
  eapply Forall_impl; [exact Hall|]. cbn. lia.
Qed.

Lemma update_quiet k now :
  k_updated k <> 0 -> -10000 <= itimediff now (k_ts_flush k) < 0 ->
  ikcp_update k now = (set_current now k, []).
Proof.
  intros Hu Hd. unfold ikcp_update. cbv zeta. kred. destruct (Z.eqb_spec (k_updated k) 0); [congruence|]. kred.
  destruct (Z.leb_spec 10000 (itimediff now (k_ts_flush k))); [lia|].
  destruct (Z.ltb_spec (itimediff now (k_ts_flush k)) (-10000)); [lia|]. cbn [orb]. kred.
  destruct (Z.leb_spec 0 (itimediff now (k_ts_flush k))); [lia|]. reflexivity.
Qed.

(** ** Window probes *)

Definition probe_ok (k : ikcpcb) : Prop :=
  k_probe_wait k = 0 \/ IKCP_PROBE_INIT <= k_probe_wait k <= IKCP_PROBE_LIMIT.

Lemma update_probe_ok k :
  probe_ok k -> probe_ok (update_probe k) /\
  (k_rmt_wnd k = 0 -> IKCP_PROBE_INIT <= k_probe_wait (update_probe k)) /\
  (k_rmt_wnd k <> 0 -> k_probe_wait (update_probe k) = 0 /\ k_probe (update_probe k) = k_probe k) /\
  (k_rmt_wnd k = 0 -> k_probe_wait k <> 0 -> 0 <= itimediff (k_current k) (k_ts_probe k) ->
   k_probe (update_probe k) = Z.lor (k_probe k) IKCP_ASK_SEND /\
   k_probe_wait (update_probe k) = Z.min IKCP_PROBE_LIMIT (k_probe_wait k * 3 / 2)).
Proof.
  unfold probe_ok, IKCP_PROBE_INIT, IKCP_PROBE_LIMIT. intros Hp. unfold update_probe.
  unfold IKCP_PROBE_INIT, IKCP_PROBE_LIMIT.
  destruct (Z.eqb_spec (k_rmt_wnd k) 0) as [Hz|Hz]; [|kred; repeat split; auto; try contradiction; lia].
  destruct (Z.eqb_spec (k_probe_wait k) 0) as [Hw|Hw]; [kred; repeat split; try contradiction; lia|].
  destruct (Z.leb_spec 0 (itimediff (k_current k) (k_ts_probe k))) as [Ht|Ht];
    [|repeat split; auto; try contradiction; lia].
  kred. destruct (Z.ltb_spec (k_probe_wait k) 7000); [lia|].
  rewrite (wrap_id 32) by (unfold in_u; zpow; Z.div_mod_to_equations; lia).
  assert (E : k_probe_wait k + k_probe_wait k / 2 = k_probe_wait k * 3 / 2)
    by (Z.div_mod_to_equations; lia).
  rewrite E. destruct (Z.ltb_spec 120000 (k_probe_wait k * 3 / 2));
    repeat split; try contradiction; try lia; Z.div_mod_to_equations; lia.
Qed.

(** ** The congestion window *)

Lemma flush_cwnd_bounds k cw resent change lost :
  0 <= k_cwnd k -> 2 <= k_ssthresh k ->
  let k' := flush_cwnd k cw resent change lost in
  1 <= k_cwnd k' /\ 2 <= k_ssthresh k' /\ (lost = true -> k_cwnd k' = 1 /\ k_incr k' = k_mss k).
Proof.
  intros Hc Hs. cbv zeta. unfold flush_cwnd, at_least, IKCP_THRESH_MIN. cbv zeta. kred.
  destruct lost; cbn; repeat split; auto; try lia;
    destruct (change =? 0); repeat zcase; try lia;
    match goal with |- context [u32 ?x] => pose proof (wrap_range 32 x ltac:(lia)); lia | _ => idtac end.
Qed.

Lemma grow_cwnd_bound cwnd incr ssthresh rmt_wnd mss :
  fst (grow_cwnd cwnd incr ssthresh rmt_wnd mss) <= rmt_wnd.
Proof.
  unfold grow_cwnd. cbv zeta.
  match goal with |- fst (if rmt_wnd <? ?x then _ else _) <= _ =>
    destruct (Z.ltb_spec rmt_wnd x) end; cbn [fst]; lia.
Qed.

Lemma grow_cwnd_slow_start cwnd incr ssthresh rmt_wnd mss :
  0 <= cwnd < ssthresh -> ssthresh <= rmt_wnd < 4294967296 ->
  fst (grow_cwnd cwnd incr ssthresh rmt_wnd mss) = cwnd + 1.
Proof.
  intros Hc Hs. unfold grow_cwnd. cbv zeta. destruct (Z.ltb_spec cwnd ssthresh); [|lia]. cbn [fst].
  rewrite wrap_id by (unfold in_u; zpow; lia). destruct (Z.ltb_spec rmt_wnd (cwnd + 1)); cbn [fst]; lia.
Qed.

(** ** Acknowledged segments *)

(** On an ordered buffer, removing an acknowledged segment is a filter. *)
Lemma parse_ack_filter base sn p n :
  Forall (ahead base) p -> StronglySorted (before base) p -> in_u 32 sn -> off base sn < 2147483648 ->
  fst (parse_ack_loop sn p n) = filter (fun s => sg_sn s <> sn) p.
Proof.
  induction p as [|s p IH]; intros Ha Hs Hu Ho; [reflexivity|].
  inversion Ha as [|? ? [Hsu Hso] Ha']; inversion Hs as [|? ? Hs' Hb]; subst. cbn [parse_ack_loop].
  assert (Hrest : forall x, x ∈ p -> off base (sg_sn s) < off base (sg_sn x))
    by (rewrite Forall_forall in Hb; exact Hb).
  assert (Hkeep : off base sn <= off base (sg_sn s) -> filter (fun x => sg_sn x <> sn) p = p).
  { intros Hle. clear -Hrest Hle. induction p as [|x p IHp]; [reflexivity|].
    rewrite filter_cons_True.
    - f_equal. apply IHp. intros y Hy. apply Hrest, elem_of_cons. auto.
    - intros He. specialize (Hrest x ltac:(apply elem_of_cons; auto)). rewrite He in Hrest. lia. }
  destruct (Z.eqb_spec sn (sg_sn s)) as [He|He].
  - rewrite filter_cons_False by congruence. symmetry. apply Hkeep. rewrite He. lia.
  - rewrite (itimediff_off base) by auto. rewrite filter_cons_True by congruence.
    destruct (Z.ltb_spec (off base sn - off base (sg_sn s)) 0); cbn [fst].
    + rewrite Hkeep by lia. reflexivity.
    + rewrite IH; auto.
Qed.

Lemma parse_una_filter base una p n :
  Forall (ahead base) p -> StronglySorted (before base) p -> off base una < 2147483648 ->
  fst (parse_una_loop una p n) = filter (fun s => off base una <= off base (sg_sn s)) p.
Proof.
  revert n. induction p as [|s p IH]; intros n Ha Hs Ho; [reflexivity|].
  inversion Ha as [|? ? [Hsu Hso] Ha']; inversion Hs as [|? ? Hs' Hb]; subst. cbn [parse_una_loop].
  rewrite (itimediff_off base) by auto. destruct (Z.ltb_spec 0 (off base una - off base (sg_sn s))).
  - rewrite filter_cons_False by lia. apply IH; auto.
  - rewrite filter_cons_True by lia. cbn [fst]. f_equal.
    assert (Hrest : forall x, x ∈ p -> off base una <= off base (sg_sn x))
      by (rewrite Forall_forall in Hb; intros x Hx; specialize (Hb x Hx); unfold before in Hb; lia).
    clear -Hrest. induction p as [|x p IHp]; [reflexivity|]. rewrite filter_cons_True.
    + f_equal. apply IHp. intros y Hy. apply Hrest, elem_of_cons. auto.
    + apply Hrest, elem_of_cons. auto.
Qed.

(** The send buffer is ordered and lies between [snd_una] and [snd_nxt]. *)
Record snd_ordered (k : ikcpcb) : Prop := {
  so_una : in_u 32 (k_snd_una k);
  so_nxt : in_u 32 (k_snd_nxt k);
  so_half : off (k_snd_una k) (k_snd_nxt k) < 2147483648;
  so_sorted : StronglySorted (before (k_snd_una k)) (k_snd_buf k);
  so_buf : Forall (fun s => in_u 32 (sg_sn s) /\
             off (k_snd_una k) (sg_sn s) < off (k_snd_una k) (k_snd_nxt k)) (k_snd_buf k)
}.

Lemma snd_ordered_ahead k : snd_ordered k -> Forall (ahead (k_snd_una k)) (k_snd_buf k).
Proof. intros []. eapply Forall_impl; [exact so_buf0|]. intros s [? ?]. split; auto. lia. Qed.

Lemma off_self base : off base base = 0.
Proof. unfold off. rewrite Z.sub_diag. reflexivity. Qed.

Lemma itimediff_refl base : itimediff base base = 0.
Proof. unfold itimediff. rewrite Z.sub_diag. reflexivity. Qed.

Lemma filter_all {A} (P : A -> Prop) `{!forall x, Decision (P x)} l : Forall P l -> filter P l = l.
Proof. induction 1; [reflexivity|]. rewrite filter_cons_True by auto. f_equal. auto. Qed.

Lemma parse_ack_buf k sn :
  snd_ordered k -> in_u 32 sn ->
  k_snd_buf (ikcp_parse_ack k sn) = filter (fun s => sg_sn s <> sn) (k_snd_buf k).
Proof.
  intros Hk Hsn. pose proof (snd_ordered_ahead k Hk) as Ha. destruct Hk as [Hu Hn Hh Hs Hb].
  unfold ikcp_parse_ack. destruct (ack_outside k sn) eqn:Ho.
  - symmetry. apply filter_all. eapply Forall_impl; [exact Hb|]. cbn. intros s [_ Hlt] <-.
    unfold ack_outside in Ho. rewrite (itimediff_off (k_snd_una k)) in Ho by (rewrite ?off_self; lia).
    rewrite (itimediff_off (k_snd_una k) _ (k_snd_nxt k)) in Ho by lia. rewrite off_self in Ho.
    pose proof (off_range (k_snd_una k) (sg_sn s)). apply orb_true_iff in Ho as [Ho|Ho].
    + apply Z.ltb_lt in Ho. lia.
    + apply Z.leb_le in Ho. lia.
  - cbv zeta. kred. unfold ack_outside in Ho. apply orb_false_iff in Ho as [Ho _]. apply Z.ltb_ge in Ho.
    apply (parse_ack_filter (k_snd_una k)); auto. unfold itimediff, off in *. zwrap.
Qed.

(** ** Theorems *)

(** the retransmission timeout stays between [rx_minrto] and 60 seconds,
    whatever round-trip time the peer's timestamps suggest. *)
Theorem kcp_rto_bounded k rtt :
  0 <= k_rx_minrto k <= IKCP_RTO_MAX ->
  k_rx_minrto k <= k_rx_rto (ikcp_update_ack k rtt) <= IKCP_RTO_MAX.
Proof. apply update_ack_rto. Qed.

Theorem kcp_rto_bounded_witness :
  100 <= k_rx_rto (ikcp_update_ack (new_kcpcb 7) 1234567890) <= 60000.
Proof. apply (kcp_rto_bounded (new_kcpcb 7) 1234567890). vm_compute. split; discriminate. Defined.

(** for round-trip times below 2^28 ms [ikcp_update_ack] computes the
    smoothed estimate without overflow, keeps it in that range, and sets the
    timeout to the estimate plus four deviations, clamped. *)
Theorem kcp_rtt_estimator k rtt :
  est_ok (est_of k) -> 0 <= rtt < 268435456 -> 0 <= k_interval k < 1073741824 ->
  0 <= k_rx_minrto k <= IKCP_RTO_MAX ->
  let k' := ikcp_update_ack k rtt in
  est_of k' = estimate (est_of k) rtt /\ est_ok (est_of k') /\
  k_rx_rto k' = Z.min IKCP_RTO_MAX (Z.max (k_rx_minrto k)
     (e_srtt (est_of k') + Z.max (k_interval k) (4 * e_rttval (est_of k')))).
Proof.
  intros He Hr Hi Hm. destruct (smooth_ok (est_of k) rtt He Hr) as (H1 & H2 & H3).
  cbv zeta. unfold est_of, ikcp_update_ack in *. cbn [e_srtt e_rttval] in *. cbv zeta. kred.
  rewrite H1, H2. set (e := estimate _ _) in *. assert (Ee : mkEst (e_srtt e) (e_rttval e) = e) by (destruct e; reflexivity).
  rewrite Ee. split; [auto|]. split; [auto|]. clearbody e. unfold est_ok in H3. unfold IKCP_RTO_MAX in *.
  unfold ibound, IKCP_RTO_MAX. rewrite !imax_spec, !imin_spec.
  rewrite (swrap_id 32 (4 * e_rttval e)) by (zpow; lia).
  rewrite (wrap_id 32 (4 * e_rttval e)) by (unfold in_u; zpow; lia).
  rewrite (wrap_id 32 (e_srtt e + _)) by (unfold in_u; zpow; lia).
  rewrite (swrap_id 32 (e_srtt e + _)) by (zpow; lia).
  rewrite (wrap_id 32 (k_rx_minrto k)) by (unfold in_u; zpow; lia).
  rewrite (wrap_id 32 (e_srtt e + _)) by (unfold in_u; zpow; lia).
  rewrite (swrap_id 32) by (zpow; lia). lia.
Qed.

Theorem kcp_rtt_estimator_witness :
  let k := ikcp_update_ack (new_kcpcb 7) 80 in
  est_of (ikcp_update_ack k 120) = mkEst 85 40 /\ k_rx_rto (ikcp_update_ack k 120) = 245 /\
  est_of (ikcp_update_ack k 120) = estimate (est_of k) 120.
Proof.
  cbv zeta. split; [vm_compute; reflexivity|]. split; [vm_compute; reflexivity|].
  apply (kcp_rtt_estimator (ikcp_update_ack (new_kcpcb 7) 80) 120); vm_compute; repeat split; discriminate.
Defined.

(** beyond that range [int] arithmetic overflows: after one
    acknowledgement whose timestamp lies 2^30 ms back, [7 * rx_srtt] does not
    fit an [int]. *)
Theorem kcp_rtt_overflow :
  let k := ikcp_update_ack (new_kcpcb 7) (itimediff (2 ^ 30 + 5) 5) in
  2 ^ 31 <= 7 * k_rx_srtt k.
Proof. vm_compute. discriminate. Qed.

(** What may be in flight: the least of the send window, the window the peer
    announced, and the congestion window where that is on. *)
Definition may_send (k : ikcpcb) : Z :=
  let wnd := Z.min (k_snd_wnd k) (k_rmt_wnd k) in
  if k_nocwnd k =? 0 then Z.min wnd (k_cwnd k) else wnd.

Lemma flush_window_may_send k : flush_window k = may_send k.
Proof. unfold flush_window, may_send. rewrite !imin_spec. destruct (_ =? 0); lia. Qed.

(** C5: a flush never puts more segments in flight than the three windows
    allow (unless more already were), and leaves none queued while it has
    room. *)
Theorem kcp_flow_control k :
  kcp_wf k -> k_updated k <> 0 -> in_u 32 (k_snd_una k) -> 0 <= may_send k < 1073741824 ->
  off (k_snd_una k) (k_snd_nxt k) < 1073741824 -> zlen (k_snd_queue k) < 1073741824 ->
  let k' := fst (ikcp_flush k) in
  let inflight k := off (k_snd_una k) (k_snd_nxt k) in
  inflight k <= inflight k' <= Z.max (inflight k) (may_send k) /\
  (k_snd_queue k' <> [] -> may_send k <= inflight k').
Proof.
  rewrite <- flush_window_may_send.
  intros Hwf Hu Hun Hw Ho Hl. cbv zeta. destruct (flush_snd_nxt k Hu) as (k1 & E1 & E2 & E3 & E4).
  rewrite E2, E3, E4, <- E1. destruct Hwf as [? ? ? Hn [Hnb ?] [Hnq ?] Hwt ?].
  apply move_snd_window; rewrite ?E1; auto; unfold in_u; zpow; lia.
Qed.

Definition window_two (k : ikcpcb) : ikcpcb :=
  set_updated 1 (snd (ikcp_wndsize (set_nocwnd 1 k) 2 0)).

Lemma window_two_wf k : kcp_wf k -> kcp_wf (window_two k).
Proof.
  intros Hk. apply (kcp_wf_same (snd (ikcp_wndsize (set_nocwnd 1 k) 2 0))); [reflexivity..|].
  apply wndsize_wf; [lia|]. apply (kcp_wf_same k); auto.
Qed.

Definition windowed : ikcpcb :=
  window_two (snd (ikcp_send (new_kcpcb 7) (replicate 4999 (zb 1)) 4999)).

Theorem kcp_flow_control_witness :
  off (k_snd_una (fst (ikcp_flush windowed))) (k_snd_nxt (fst (ikcp_flush windowed))) = 2 /\
  off 0 0 <= off (k_snd_una (fst (ikcp_flush windowed))) (k_snd_nxt (fst (ikcp_flush windowed))) <= 2.
Proof.
  split; [vm_compute; reflexivity|].
  assert (Hwf : kcp_wf windowed).
  { apply window_two_wf. apply (send_wf _ (replicate 4999 (zb 1))); [apply new_wf|vm_compute; reflexivity..]. }
  apply (kcp_flow_control windowed Hwf); vm_compute; repeat split; discriminate.
Defined.

(** [ikcp_check] is sound: between the time it is called and the time it
    answers, [ikcp_update] only records the clock and sends nothing; and the
    answer is at most [interval] ahead. *)
Theorem kcp_check_sound k cur now :
  k_updated k <> 0 -> in_u 32 cur -> in_u 32 now -> in_u 32 (k_ts_flush k) ->
  0 <= k_interval k < 2147483648 ->
  itimediff (ikcp_check k cur) cur <= k_interval k /\
  (0 <= itimediff now cur < itimediff (ikcp_check k cur) cur ->
   ikcp_update k now = (set_current now k, []) /\
   Forall (fun s => 0 < itimediff (sg_resendts s) now) (k_snd_buf k)).
Proof.
  intros Hu Hc Hn Hf Hi. destruct (check_spec k cur Hu Hc Hf Hi) as (_ & Hb & Hs).
  split; [lia|]. intros Hw. destruct (Hs ltac:(lia)) as (H1 & H2 & H3). clear Hs.
  revert Hb Hw H2 H3. generalize (itimediff (ikcp_check k cur) cur). intros w Hb Hw H2 H3. split.
  - apply update_quiet; auto. clear H3. unfold itimediff in *. zwrap.
  - eapply Forall_impl; [exact H3|]. intros s Hr. cbn in Hr. unfold itimediff in *. clear H3. zwrap.
Qed.

Definition clocked : ikcpcb := fst (ikcp_update big_send 1000).

Theorem kcp_check_sound_witness :
  ikcp_check clocked 1010 = 1100 /\
  (0 <= itimediff 1099 1010 < itimediff (ikcp_check clocked 1010) 1010 ->
   ikcp_update clocked 1099 = (set_current 1099 clocked, []) /\
   Forall (fun s => 0 < itimediff (sg_resendts s) 1099) (k_snd_buf clocked)).
Proof.
  split; [vm_compute; reflexivity|].
  apply (kcp_check_sound clocked 1010 1099); vm_compute; repeat split; discriminate.
Defined.

(** It is enough to look at the sequence numbers. *)
Lemma snd_ordered_sns k una nxt sns :
  k_snd_una k = una -> k_snd_nxt k = nxt -> map sg_sn (k_snd_buf k) = sns ->
  in_u 32 una -> in_u 32 nxt -> off una nxt < 2147483648 ->
  StronglySorted (fun a b => off una a < off una b) sns ->
  Forall (fun sn => in_u 32 sn /\ off una sn < off una nxt) sns -> snd_ordered k.
Proof.
  intros <- <- <- ? ? ? Hs Hf. constructor; auto; [|apply Forall_map in Hf; exact Hf].
  clear Hf. induction (k_snd_buf k) as [|s p IH]; [constructor|]. cbn [map] in Hs.
  inversion Hs as [|? ? Hs' Hall]; subst. constructor; auto.
  rewrite Forall_forall in Hall. apply Forall_forall. intros x Hx. apply (Hall (sg_sn x)). apply list_elem_of_fmap. eauto.
Qed.

Lemma clocked_ordered : snd_ordered clocked.
Proof.
  apply (snd_ordered_sns _ 0 3 [0; 1; 2]); [vm_compute; reflexivity..| | | | |];
    try (split; [discriminate|reflexivity]); try reflexivity; repeat constructor; discriminate.
Qed.

(** while the peer's window is closed the probe interval grows by half
    from 7 seconds up to 120 seconds and a probe is asked for each time it
    runs out; when the window opens the timer is cleared. *)
Theorem kcp_probe_schedule k :
  probe_ok k -> probe_ok (update_probe k) /\
  (k_rmt_wnd k = 0 -> IKCP_PROBE_INIT <= k_probe_wait (update_probe k)) /\
  (k_rmt_wnd k <> 0 -> k_probe_wait (update_probe k) = 0 /\ k_probe (update_probe k) = k_probe k) /\
  (k_rmt_wnd k = 0 -> k_probe_wait k <> 0 -> 0 <= itimediff (k_current k) (k_ts_probe k) ->
   k_probe (update_probe k) = Z.lor (k_probe k) IKCP_ASK_SEND /\
   k_probe_wait (update_probe k) = Z.min IKCP_PROBE_LIMIT (k_probe_wait k * 3 / 2)).
Proof. apply update_probe_ok. Qed.

Theorem kcp_probe_schedule_witness :
  let k := set_current 9000 (set_ts_probe 8000 (set_probe_wait 7000 (set_rmt_wnd 0 (new_kcpcb 7)))) in
  k_probe_wait (update_probe k) = 10500 /\ probe_ok (update_probe k).
Proof.
  cbv zeta. split; [vm_compute; reflexivity|].
  apply kcp_probe_schedule. right. vm_compute. split; discriminate.
Defined.

(** a flush always leaves a congestion window of at least one segment and
    a threshold of at least two, and a timeout resets the window to one. *)
Theorem kcp_cwnd_after_flush k cw resent change lost :
  0 <= k_cwnd k -> 2 <= k_ssthresh k ->
  let k' := flush_cwnd k cw resent change lost in
  1 <= k_cwnd k' /\ 2 <= k_ssthresh k' /\ (lost = true -> k_cwnd k' = 1 /\ k_incr k' = k_mss k).
Proof. apply flush_cwnd_bounds. Qed.

Theorem kcp_cwnd_after_flush_witness :
  let k' := flush_cwnd (set_cwnd 16 (new_kcpcb 7)) 16 4294967295 0 true in
  k_cwnd k' = 1 /\ k_ssthresh k' = 8 /\ 1 <= k_cwnd k'.
Proof.
  cbv zeta. split; [reflexivity|]. split; [reflexivity|].
  apply (kcp_cwnd_after_flush (set_cwnd 16 (new_kcpcb 7)) 16 4294967295 0 true); vm_compute; discriminate.
Defined.

(** acknowledging [sn] removes exactly the segment with that number from an
    ordered send buffer, wherever it is, and nothing when there is none. *)
Theorem kcp_ack_removes_exactly k sn :
  snd_ordered k -> in_u 32 sn ->
  k_snd_buf (ikcp_parse_ack k sn) = filter (fun s => sg_sn s <> sn) (k_snd_buf k).
Proof. apply parse_ack_buf. Qed.

Theorem kcp_ack_removes_exactly_witness :
  map sg_sn (k_snd_buf (ikcp_parse_ack clocked 1)) = [0; 2] /\
  k_snd_buf (ikcp_parse_ack clocked 1) = filter (fun s => sg_sn s <> 1) (k_snd_buf clocked).
Proof.
  split; [vm_compute; reflexivity|]. apply kcp_ack_removes_exactly; [apply clocked_ordered|vm_compute; split; [discriminate|reflexivity]].
Defined.

(** a cumulative acknowledgement removes exactly the segments before
    [una] from an ordered send buffer. *)
Theorem kcp_una_removes_prefix k una :
  snd_ordered k -> off (k_snd_una k) una < 2147483648 ->
  k_snd_buf (ikcp_parse_una k una) =
  filter (fun s => off (k_snd_una k) una <= off (k_snd_una k) (sg_sn s)) (k_snd_buf k).
Proof.
  intros Hk Ho. pose proof (snd_ordered_ahead k Hk). destruct Hk.
  unfold ikcp_parse_una. cbv zeta. kred. apply parse_una_filter; auto.
Qed.

Theorem kcp_una_removes_prefix_witness :
  map sg_sn (k_snd_buf (ikcp_parse_una clocked 2)) = [2] /\
  k_snd_buf (ikcp_parse_una clocked 2) = 
  filter (fun s => off (k_snd_una clocked) 2 <= off (k_snd_una clocked) (sg_sn s)) (k_snd_buf clocked).
Proof.
  split; [vm_compute; reflexivity|].
  apply (kcp_una_removes_prefix clocked 2); [apply clocked_ordered|vm_compute; reflexivity].
Defined.
