(* ===== verification/KcpApi.v ===== *)
(** * KCP calls: functional specifications

    What the codec, [ikcp_send], [ikcp_parse_data] and [ikcp_recv] compute, on
    every branch. *)

From Stdlib Require Import Sorting.Sorted.
From S2P Require Import Prelude KcpTypes KcpRecv KcpSend KcpInput KcpFlush.
From S2P Require Import KcpRecvFacts KcpSendFacts KcpInputFacts KcpFlushFacts.
From S2P Require Import KcpPeer KcpRobust.

(** ** The codec *)

(** the header that [ikcp_input] reads is the one [ikcp_encode_seg] wrote,
    field by field at the width of each, and nothing after it is consumed. *)
Theorem kcp_header_roundtrip s rest :
  decode_seg (ikcp_encode_seg [] s ++ rest) = Some (wire_header s, rest).
Proof. apply decode_encode_seg. Qed.

(** conversely every 28 bytes are the encoding of the header read from
    them. *)
Theorem kcp_header_parse_total data :
  IKCP_OVERHEAD <= zlen data ->
  exists h, decode_seg data = Some (h, zdrop IKCP_OVERHEAD data) /\
    ikcp_encode_seg [] (header_seg h) = ztake IKCP_OVERHEAD data.
Proof. apply decode_seg_total. Qed.

Theorem kcp_header_parse_total_witness :
  exists h, decode_seg (le_enc 30 1234567) = Some (h, zdrop IKCP_OVERHEAD (le_enc 30 1234567)) /\
    ikcp_encode_seg [] (header_seg h) = ztake IKCP_OVERHEAD (le_enc 30 1234567).
Proof. apply kcp_header_parse_total. vm_compute. discriminate. Defined.

(** ** Sending *)

(** in message mode [ikcp_send] refuses exactly the messages of 128
    fragments or more and then changes nothing; any other it queues, cut into
    full segments numbered downwards to zero that hold the message's bytes. *)
Theorem kcp_send_message k msg :
  k_stream k = 0 -> mss_ok (k_mss k) -> zlen msg < 1073741824 ->
  let count := frag_count (k_mss k) (zlen msg) in
  if IKCP_WND_RCV <=? count then ikcp_send k msg (zlen msg) = (-2, k)
  else exists segs,
    ikcp_send k msg (zlen msg) =
      (0, set_snd_queue (k_snd_queue k ++ segs) (set_nsnd_que (u32 (k_nsnd_que k + count)) k)) /\
    map sg_frg segs = countdown (Z.to_nat count) /\ concat (map sg_data segs) = msg /\
    Forall (seg_fits (k_mss k)) segs.
Proof.
  intros Hs Hm Hl. cbv zeta. rewrite (send_message_mode k msg Hs Hm Hl).
  destruct (Z.leb_spec IKCP_WND_RCV (frag_count (k_mss k) (zlen msg))); [reflexivity|].
  exists (msg_frags (k_mss k) msg). split; [reflexivity|]. apply msg_frags_spec; auto.
Qed.

Theorem kcp_send_message_witness :
  frag_count 1372 3000 = 3 /\
  exists segs,
    ikcp_send (new_kcpcb 7) (replicate 3000 (zb 5)) 3000 =
      (0, set_snd_queue ([] ++ segs) (set_nsnd_que (u32 (0 + 3)) (new_kcpcb 7))) /\
    map sg_frg segs = countdown 3 /\ concat (map sg_data segs) = replicate 3000 (zb 5) /\
    Forall (seg_fits 1372) segs.
Proof.
  split; [reflexivity|].
  pose proof (kcp_send_message (new_kcpcb 7) (replicate 3000 (zb 5)) eq_refl) as H.
  rewrite length_replicate in H. apply H; [split; reflexivity|reflexivity].
Defined.

(** in either mode the bytes queued grow by a prefix of what was given:
    all of it when the call returns 0; when it returns -2, nothing in message
    mode, and in stream mode only what completed the last segment. *)
Theorem kcp_send_keeps_bytes k msg :
  mss_ok (k_mss k) -> zlen msg < 1073741824 -> Forall (seg_fits (k_mss k)) (k_snd_queue k) ->
  k_nsnd_que k = zlen (k_snd_queue k) -> zlen (k_snd_queue k) + 128 < 4294967296 ->
  let r := ikcp_send k msg (zlen msg) in
  let q := k_snd_queue (snd r) in
  exists n, 0 <= n <= zlen msg /\
    concat (map sg_data q) = concat (map sg_data (k_snd_queue k)) ++ ztake n msg /\
    Forall (seg_fits (k_mss k)) q /\ k_nsnd_que (snd r) = zlen q /\
    zlen (k_snd_queue k) <= zlen q < zlen (k_snd_queue k) + 128 /\
    (fst r = 0 /\ n = zlen msg \/ fst r = -2 /\ (k_stream k = 0 -> n = 0)).
Proof. apply send_bytes. Qed.

(** A stream-mode block with 60 bytes queued, and room for 22 in a segment. *)
Definition streaming : ikcpcb :=
  snd (ikcp_send (set_stream 1 (snd (ikcp_setmtu (new_kcpcb 7) 50 true))) (replicate 60 (zb 1)) 60).

Theorem kcp_send_keeps_bytes_witness :
  map sg_len (k_snd_queue (snd (ikcp_send streaming (replicate 30 (zb 2)) 30))) = [22; 22; 22; 22; 2] /\
  exists n, 0 <= n <= 30 /\
    concat (map sg_data (k_snd_queue (snd (ikcp_send streaming (replicate 30 (zb 2)) 30)))) =
    concat (map sg_data (k_snd_queue streaming)) ++ ztake n (replicate 30 (zb 2)).
Proof.
  split; [vm_compute; reflexivity|].
  destruct (kcp_send_keeps_bytes streaming (replicate 30 (zb 2))) as (n & H1 & H2 & _).
  - split; reflexivity.
  - reflexivity.
  - assert (E : forallb (fun s => (sg_len s =? zlen (sg_data s)) && (sg_len s <=? k_mss streaming))
                  (k_snd_queue streaming) = true) by (vm_compute; reflexivity).
    apply Forall_forall. intros s Hs. rewrite forallb_forall in E.
    apply list_elem_of_In, E, andb_true_iff in Hs as [Ha Hb]. split; [apply Z.eqb_eq, Ha|apply Z.leb_le, Hb].
  - reflexivity.
  - reflexivity.
  - exists n. split; [exact H1|exact H2].
Defined.

(** in stream mode [ikcp_send] may report failure after it has queued a
    part of the buffer: a caller that sends the buffer again sends that part
    twice. *)
Theorem kcp_stream_send_fails_after_queueing :
  let k := streaming in
  let msg := replicate 2900 (zb 2) in
  fst (ikcp_send k msg 2900) = -2 /\
  concat (map sg_data (k_snd_queue (snd (ikcp_send k msg 2900)))) =
  concat (map sg_data (k_snd_queue k)) ++ ztake 6 msg.
Proof. vm_compute. split; reflexivity. Qed.

(** ** Receiving *)

(** [ikcp_parse_data] accepts a segment exactly when it is inside the
    receive window and not yet buffered; accepted segments are kept in order,
    and those that have become consecutive move to the queue. *)
Theorem kcp_parse_data_spec k seg :
  rcv_wf k -> in_u 32 (sg_sn seg) ->
  let k' := ikcp_parse_data k seg in
  rcv_wf k' /\ exists mv,
    k_rcv_queue k' = k_rcv_queue k ++ mv /\
    consecutive (k_rcv_nxt k) mv /\
    k_rcv_nxt k' = u32 (k_rcv_nxt k + zlen mv) /\
    (forall s, s ∈ mv ++ k_rcv_buf k' <-> s ∈ k_rcv_buf k \/ (accepted k seg /\ s = seg)).
Proof. apply parse_data_functional. Qed.

Definition numbered (sn : Z) : IKCPSEG := sset_sn sn (ikcp_segment_new 0).

Theorem kcp_parse_data_spec_witness :
  let k := ikcp_parse_data (ikcp_parse_data (new_kcpcb 7) (numbered 2)) (numbered 1) in
  map sg_sn (k_rcv_buf k) = [1; 2] /\ k_rcv_nxt (ikcp_parse_data k (numbered 0)) = 3 /\
  rcv_wf (ikcp_parse_data k (numbered 0)).
Proof.
  cbv zeta. split; [vm_compute; reflexivity|]. split; [vm_compute; reflexivity|].
  assert (Hu : forall i, 0 <= i < 3 -> in_u 32 (sg_sn (numbered i))) by (intros i Hi; cbn; unfold in_u; zpow; lia).
  apply kcp_parse_data_spec; [|apply Hu; lia].
  apply parse_data_functional; [|apply Hu; lia].
  apply parse_data_functional; [|apply Hu; lia]. apply (kw_rcv _ (new_wf 7)).
Defined.

(** The head message of the queue: its segments are all there, its size fits
    an [int]. *)
Definition head_size (k : ikcpcb) : Z := span_len (msg_span (k_rcv_queue k)).

Lemma span_nonempty s q : exists t, msg_span (s :: q) = s :: t.
Proof. cbn. eauto. Qed.

Lemma peeksize_spec k :
  0 <= head_size k < 2147483648 ->
  ikcp_peeksize k =
    match k_rcv_queue k with
    | [] => -1
    | s :: _ => if (sg_frg s =? 0) || negb (k_nrcv_que k <? u32 (sg_frg s + 1)) then head_size k else -1
    end.
Proof.
  unfold head_size, ikcp_peeksize. intros Hs. destruct (k_rcv_queue k) as [|s q]; [reflexivity|].
  destruct (sg_frg s =? 0) eqn:Ef; cbn [orb].
  - cbn [msg_span] in *. rewrite Ef in *. cbn [span_len] in *. rewrite (swrap_id 32) by (zpow; lia). lia.
  - destruct (k_nrcv_que k <? u32 (sg_frg s + 1)); cbn [negb]; [reflexivity|].
    rewrite peek_loop_s32 by (left; discriminate). change 0 with (s32 0) at 1.
    rewrite peek_loop_span, Z.add_0_l. apply (swrap_id 32); zpow; lia.
Qed.

(** [ikcp_recv] on every branch: -1 on an empty queue, -2 while the first
    message is incomplete, -3 when the buffer is too small, all without
    effect; otherwise it returns the message's length and its bytes, and the
    message is removed from the queue unless [len] is negative (peek). *)
Theorem kcp_recv_spec k len :
  kcp_wf k -> 0 <= head_size k < 2147483648 -> - 2147483648 < len < 2147483648 ->
  let '(ret, buf, k') := ikcp_recv k len in
  match k_rcv_queue k with
  | [] => ret = -1 /\ buf = [] /\ k' = k
  | s :: _ =>
      if negb ((sg_frg s =? 0) || negb (k_nrcv_que k <? u32 (sg_frg s + 1)))
      then ret = -2 /\ buf = [] /\ k' = k
      else if Z.abs len <? head_size k then ret = -3 /\ buf = [] /\ k' = k
      else ret = head_size k /\ buf = concat (map payload (msg_span (k_rcv_queue k))) /\ kcp_wf k' /\
           exists mv, k_rcv_queue k' =
             (if len <? 0 then k_rcv_queue k else drop (length (msg_span (k_rcv_queue k))) (k_rcv_queue k)) ++ mv
  end.
Proof.
  intros Hwf Hs Hl. pose proof (peeksize_spec k Hs) as Hp. pose proof (recv_wf k len Hwf) as Hwf'.
  unfold ikcp_recv in *. destruct (k_rcv_queue k) as [|s q] eqn:Eq; [auto|]. cbv zeta in *.
  assert (Ea : (if len <? 0 then s32 (- len) else len) = Z.abs len).
  { destruct (Z.ltb_spec len 0); [rewrite (swrap_id 32) by (zpow; lia)|]; lia. }
  rewrite Ea in *. clear Ea.
  destruct ((sg_frg s =? 0) || negb (k_nrcv_que k <? u32 (sg_frg s + 1))); cbn [negb].
  2: { rewrite Hp. destruct (Z.ltb_spec (-1) 0); [auto|lia]. }
  rewrite <- Hp in *. destruct (Z.ltb_spec (ikcp_peeksize k) 0); [lia|].
  destruct (Z.ltb_spec (Z.abs len) (ikcp_peeksize k)); [auto|]. cbn [snd] in Hwf'.
  pose proof (peeksize_is_merged k (len <? 0) ltac:(lia)) as Hm. rewrite Eq in Hm.
  destruct (recv_merge_span (len <? 0) (s :: q) 0 [] (k_nrcv_que k)) as (_ & H2 & H3 & _); [reflexivity|].
  pose proof (recv_taken_wf k (len <? 0) Hwf) as Hk1. cbv zeta in Hk1. rewrite Eq in Hk1.
  set (m := recv_merge _ _ _ _ _) in *. clearbody m. cbn [app] in H2.
  split; [exact Hm|]. split; [exact H2|]. split; [exact Hwf'|]. clear Hwf'.
  set (k1 := if len <? 0 then k else _) in *. pose proof (kw_rcv _ Hk1) as Hr1.
  assert (E1 : k_rcv_queue k1 = if len <? 0 then s :: q else drop (length (msg_span (s :: q))) (s :: q)).
  { subst k1. destruct (len <? 0); kred; [exact Eq|exact H3]. }
  rewrite <- E1. clearbody k1.
  destruct (rcv_move_spec k1 Hr1) as (_ & mv & _ & _ & M & _). exists mv.
  revert M. generalize (rcv_move k1). intros k2 M. destruct (_ && _); [|exact M].
  rewrite <- M. reflexivity.
Qed.

(** A queue holding the two fragments of one message. *)
Definition two_fragments : ikcpcb :=
  let k := new_kcpcb 7 in
  let seg sn frg b := sset_len 2 (sset_data [zb b; zb b] (sset_frg frg (numbered sn))) in
  ikcp_parse_data (ikcp_parse_data k (seg 1 0 9)) (seg 0 1 8).

Theorem kcp_recv_spec_witness :
  fst (ikcp_recv two_fragments 10) = (4, [zb 8; zb 8; zb 9; zb 9]) /\
  fst (ikcp_recv two_fragments 3) = (-3, []) /\
  (let '(ret, buf, k') := ikcp_recv two_fragments 10 in
   ret = head_size two_fragments /\ buf = concat (map payload (msg_span (k_rcv_queue two_fragments))) /\ kcp_wf k' /\
   exists mv, k_rcv_queue k' = drop (length (msg_span (k_rcv_queue two_fragments))) (k_rcv_queue two_fragments) ++ mv).
Proof.
  split; [vm_compute; reflexivity|]. split; [vm_compute; reflexivity|].
  apply (kcp_recv_spec two_fragments 10); [|vm_compute; split; [discriminate|reflexivity]|lia].
  apply parse_data_wf; [apply parse_data_wf; [apply new_wf| |]| |];
    first [reflexivity|vm_compute; split; [discriminate|reflexivity]].
Defined.
