(* ===== verification/Http.v ===== *)
(** * HTTP message heads

    [phr_parse_request], [phr_parse_response], [phr_parse_headers] and their
    helpers of src/http.c, as compiled without SSE 4.2.

    A pair [buf], [buf_end] is the list of bytes from [buf] up to [buf_end];
    [buf == buf_end] is the empty list.  A token is the list of its bytes. *)

From S2P Require Import Prelude.

(** [RFail ret] is [*ret = ret; return NULL]; [RBad] is a read at or after
    [buf_end] (or a loop that does not end). *)
Inductive res (A : Type) :=
| ROk (a : A)
| RFail (ret : Z)
| RBad.
Arguments ROk {A} _.
Arguments RFail {A} _.
Arguments RBad {A}.

#[export] Instance res_ret : MRet res := fun A a => ROk a.
#[export] Instance res_bind : MBind res := fun A B f r =>
  match r with ROk a => f a | RFail e => RFail e | RBad => RBad end.

Definition IS_PRINTABLE_ASCII (c : byte) : bool := u32 (bz c - 32) <? 95.

(** The control characters that end a token: not HT, and not above DEL. *)
Definition is_ctl (c : byte) : bool := ((bz c <? 32) && negb (bz c =? 9)) || (bz c =? 127).

(** [*buf++ != ch], without and with the test for the end. *)
Definition EXPECT_CHAR_NO_CHECK (ch : Z) (buf : list byte) : res (list byte) :=
  match buf with
  | [] => RBad
  | c :: buf => if bz c =? ch then ROk buf else RFail (-1)
  end.

Definition EXPECT_CHAR (ch : Z) (buf : list byte) : res (list byte) :=
  match buf with [] => RFail (-2) | _ => EXPECT_CHAR_NO_CHECK ch buf end.

(** The bytes from [start] up to [buf], a suffix of it. *)
Definition slice (start buf : list byte) : list byte :=
  take (length start - length buf) start.

(** The loop of [ADVANCE_TOKEN]. *)
Fixpoint advance_loop (buf : list byte) : res (list byte) :=
  match buf with
  | [] => RFail (-2)
  | c :: rest =>
      if bz c =? 32 then ROk buf
      else if negb (IS_PRINTABLE_ASCII c) && ((bz c <? 32) || (bz c =? 127)) then RFail (-1)
      else advance_loop rest
  end.

Definition ADVANCE_TOKEN (buf : list byte) : res (list byte * list byte) :=
  rest ← advance_loop buf; ROk (slice buf rest, rest).

(** The rows of [token_char_map], 32 characters each; the last four are zero. *)
Definition token_rows : list (list Z) := [
  [0;0;0;0;0;0;0;0;0;0;0;0;0;0;0;0;0;0;0;0;0;0;0;0;0;0;0;0;0;0;0;0];
  [0;1;0;1;1;1;1;1;0;0;1;1;0;1;1;0;1;1;1;1;1;1;1;1;1;1;0;0;0;0;0;0];
  [0;1;1;1;1;1;1;1;1;1;1;1;1;1;1;1;1;1;1;1;1;1;1;1;1;1;1;0;0;0;1;1];
  [1;1;1;1;1;1;1;1;1;1;1;1;1;1;1;1;1;1;1;1;1;1;1;1;1;1;1;0;1;0;1;0]].

Definition token_char_map (c : byte) : bool :=
  negb (default 0 (concat token_rows !! Z.to_nat (bz c)) =? 0).

(** ** Tokens *)

(** Eight printable characters in a row, or where that stops. *)
Fixpoint doit (n : nat) (buf : list byte) : res (bool * list byte) :=
  match n with
  | O => ROk (true, buf)
  | S n =>
      match buf with
      | [] => RBad
      | c :: rest => if IS_PRINTABLE_ASCII c then doit n rest else ROk (false, buf)
      end
  end.

(** The unrolled loop: [true] when it jumped to FOUND_CTL. *)
Fixpoint skip_eights (fuel : nat) (buf : list byte) : res (bool * list byte) :=
  match fuel with
  | O => RBad
  | S fuel =>
      if 8 <=? zlen buf then
        '(all, buf) ← doit 8 buf;
        if (all : bool) then skip_eights fuel buf
        else match buf with
             | [] => RBad
             | c :: rest => if is_ctl c then ROk (true, buf) else skip_eights fuel rest
             end
      else ROk (false, buf)
  end.

(** The loop over what is left. *)
Fixpoint to_ctl (buf : list byte) : res (list byte) :=
  match buf with
  | [] => RFail (-2)
  | c :: rest => if negb (IS_PRINTABLE_ASCII c) && is_ctl c then ROk buf else to_ctl rest
  end.

Definition get_token_to_eol (start : list byte) : res (list byte * list byte) :=
  '(found, buf) ← skip_eights (S (length start)) start;
  buf ← (if (found : bool) then ROk buf else to_ctl buf);
  match buf with
  | [] => RBad
  | c :: rest =>
      if bz c =? 13 then
        rest ← EXPECT_CHAR 10 rest; ROk (slice start buf, rest)
      else if bz c =? 10 then ROk (slice start buf, rest)
      else RFail (-1)
  end.

(** The loop of [is_complete] after it has been positioned. *)
Fixpoint complete_loop (ret_cnt : Z) (buf : list byte) : res (list byte) :=
  match buf with
  | [] => RFail (-2)
  | c :: rest =>
      if bz c =? 13 then
        match rest with
        | [] => RFail (-2)
        | d :: rest =>
            if bz d =? 10 then
              if ret_cnt + 1 =? 2 then ROk rest else complete_loop (ret_cnt + 1) rest
            else RFail (-1)
        end
      else if bz c =? 10 then
        if ret_cnt + 1 =? 2 then ROk rest else complete_loop (ret_cnt + 1) rest
      else complete_loop 0 rest
  end.

Definition is_complete (buf : list byte) (last_len : Z) : res (list byte) :=
  if last_len <? 3 then complete_loop 0 buf
  else if zlen buf <? last_len - 3 then RBad
  else complete_loop 0 (zdrop (last_len - 3) buf).

Definition PARSE_INT (mul : Z) (buf : list byte) : res (Z * list byte) :=
  match buf with
  | [] => RBad
  | c :: rest => if (bz c <? 48) || (57 <? bz c) then RFail (-1) else ROk (mul * (bz c - 48), rest)
  end.

Definition PARSE_INT_3 (buf : list byte) : res (Z * list byte) :=
  '(a, buf) ← PARSE_INT 100 buf;
  '(b, buf) ← PARSE_INT 10 buf;
  '(c, buf) ← PARSE_INT 1 buf;
  ROk (a + b + c, buf).

Fixpoint token_loop (next_char : Z) (buf : list byte) : res (list byte) :=
  match buf with
  | [] => RFail (-2)
  | c :: rest =>
      if bz c =? next_char then ROk buf
      else if negb (token_char_map c) then RFail (-1)
      else token_loop next_char rest
  end.

Definition parse_token (next_char : Z) (buf : list byte) : res (list byte * list byte) :=
  rest ← token_loop next_char buf; ROk (slice buf rest, rest).

(** The minor version and what follows it. *)
Definition parse_http_version (buf : list byte) : res (Z * list byte) :=
  if zlen buf <? 9 then RFail (-2)
  else
    buf ← EXPECT_CHAR_NO_CHECK 72 buf;
    buf ← EXPECT_CHAR_NO_CHECK 84 buf;
    buf ← EXPECT_CHAR_NO_CHECK 84 buf;
    buf ← EXPECT_CHAR_NO_CHECK 80 buf;
    buf ← EXPECT_CHAR_NO_CHECK 47 buf;
    buf ← EXPECT_CHAR_NO_CHECK 49 buf;
    buf ← EXPECT_CHAR_NO_CHECK 46 buf;
    PARSE_INT 1 buf.

(** ** Headers *)

(** A null [name] marks the continuation of the value before. *)
Record phr_header := mkHdr { hd_name : option (list byte); hd_value : list byte }.

Definition is_blank (c : byte) : bool := (bz c =? 32) || (bz c =? 9).

Fixpoint skip_blanks (buf : list byte) : res (list byte) :=
  match buf with
  | [] => RFail (-2)
  | c :: rest => if negb (is_blank c) then ROk buf else skip_blanks rest
  end.

(** Dropping trailing blanks: the loop walks down from the end. *)
Fixpoint drop_blanks (rev_value : list byte) : list byte :=
  match rev_value with
  | [] => []
  | c :: more => if negb (is_blank c) then rev_value else drop_blanks more
  end.

Definition trim (value : list byte) : list byte := rev (drop_blanks (rev value)).

(** [name ":" blanks] *)
Definition header_name (buf : list byte) : res (option (list byte) * list byte) :=
  '(name, buf) ← parse_token 58 buf;
  if zlen name =? 0 then RFail (-1)
  else
    match buf with
    | [] => RBad
    | _ :: buf => buf ← skip_blanks buf; ROk (Some name, buf)
    end.

Fixpoint parse_headers (fuel : nat) (buf : list byte) (headers : list phr_header) (max_headers : Z)
    : res (list phr_header * list byte) :=
  match fuel with
  | O => RBad
  | S fuel =>
      match buf with
      | [] => RFail (-2)
      | c :: rest =>
          if bz c =? 13 then rest ← EXPECT_CHAR 10 rest; ROk (headers, rest)
          else if bz c =? 10 then ROk (headers, rest)
          else if zlen headers =? max_headers then RFail (-1)
          else
            '(name, buf) ←
              (if negb (negb (zlen headers =? 0) && is_blank c) then header_name buf
               else ROk (None, buf));
            '(value, buf) ← get_token_to_eol buf;
            parse_headers fuel buf (headers ++ [mkHdr name (trim value)]) max_headers
      end
  end.

(** ** Requests *)

(** An optional line end. *)
Definition skip_eol (buf : list byte) : res (list byte) :=
  match buf with
  | [] => RFail (-2)
  | c :: rest =>
      if bz c =? 13 then EXPECT_CHAR 10 rest
      else if bz c =? 10 then ROk rest else ROk buf
  end.

(** [do { ++buf; CHECK_EOF(); } while ( *buf == ' ');] from a [buf] that is not
    at the end. *)
Fixpoint spaces_loop (buf : list byte) : res (list byte) :=
  match buf with
  | [] => RFail (-2)
  | c :: rest => if bz c =? 32 then spaces_loop rest else ROk buf
  end.

Definition skip_spaces (buf : list byte) : res (list byte) :=
  match buf with [] => RBad | _ :: rest => spaces_loop rest end.

(** The line end after the version. *)
Definition version_eol (buf : list byte) : res (list byte) :=
  match buf with
  | [] => RBad
  | c :: rest =>
      if bz c =? 13 then EXPECT_CHAR 10 rest
      else if bz c =? 10 then ROk rest
      else RFail (-1)
  end.

Record request := mkReq {
  rq_method : list byte; rq_path : list byte; rq_minor : Z; rq_headers : list phr_header
}.

Definition parse_request (buf : list byte) (max_headers : Z) : res (request * list byte) :=
  buf ← skip_eol buf;
  '(method, buf) ← parse_token 32 buf;
  buf ← skip_spaces buf;
  '(path, buf) ← ADVANCE_TOKEN buf;
  buf ← skip_spaces buf;
  if (zlen method =? 0) || (zlen path =? 0) then RFail (-1)
  else
    '(minor, buf) ← parse_http_version buf;
    buf ← version_eol buf;
    '(headers, buf) ← parse_headers (S (length buf)) buf [] max_headers;
    ROk (mkReq method path minor headers, buf).

(** The slow-loris test and the number of bytes consumed. *)
Definition run_parser {A} (parser : list byte -> res (A * list byte)) (buf : list byte) (last_len : Z)
    : res (Z * A) :=
  _ ← (if last_len =? 0 then ROk buf else is_complete buf last_len);
  '(a, rest) ← parser buf;
  ROk (s32 (zlen buf - zlen rest), a).

Definition phr_parse_request (buf : list byte) (max_headers last_len : Z) : res (Z * request) :=
  run_parser (fun b => parse_request b max_headers) buf last_len.

(** ** Responses *)

Record response := mkResp {
  rs_minor : Z; rs_status : Z; rs_msg : list byte; rs_headers : list phr_header
}.

(** Removing the spaces before the message; [after] is the buffer from the
    end of the message on, which the loop would run into. *)
Fixpoint strip_spaces (msg after : list byte) : res (list byte) :=
  match msg with
  | [] => match after with [] => RBad | c :: _ => if bz c =? 32 then RBad else ROk [] end
  | c :: rest => if bz c =? 32 then strip_spaces rest after else ROk msg
  end.

Definition response_msg (msg after : list byte) : res (list byte) :=
  match msg with
  | [] => ROk []
  | c :: _ => if bz c =? 32 then strip_spaces msg after else RFail (-1)
  end.

Definition parse_response (buf : list byte) (max_headers : Z) : res (response * list byte) :=
  '(minor, buf) ← parse_http_version buf;
  match buf with
  | [] => RBad
  | c :: _ =>
      if negb (bz c =? 32) then RFail (-1)
      else
        buf ← skip_spaces buf;
        if zlen buf <? 4 then RFail (-2)
        else
          '(status, buf) ← PARSE_INT_3 buf;
          '(msg, rest) ← get_token_to_eol buf;
          msg ← response_msg msg (drop (length msg) buf);
          '(headers, rest) ← parse_headers (S (length rest)) rest [] max_headers;
          ROk (mkResp minor status msg headers, rest)
  end.

Definition phr_parse_response (buf : list byte) (max_headers last_len : Z) : res (Z * response) :=
  run_parser (fun b => parse_response b max_headers) buf last_len.

Definition phr_parse_headers (buf : list byte) (max_headers last_len : Z) : res (Z * list phr_header) :=
  run_parser (fun b => parse_headers (S (length b)) b [] max_headers) buf last_len.
