(* ===== verification/HttpFacts.v ===== *)
(** * HTTP heads: memory safety, termination and incremental parsing

    Every parser of Http.v reads only inside its buffer and ends; and what it
    answers on a buffer it keeps answering when more bytes arrive, unless the
    answer was -2. *)

From S2P Require Import Prelude Http.

(** ** Characters *)

Lemma printable_not_ctl c : IS_PRINTABLE_ASCII c = true -> is_ctl c = false.
Proof. destruct c; vm_compute; congruence. Qed.

Lemma to_ctl_cond c : negb (IS_PRINTABLE_ASCII c) && is_ctl c = is_ctl c.
Proof.
  destruct (IS_PRINTABLE_ASCII c) eqn:E; cbn; [symmetry; apply printable_not_ctl; auto|reflexivity].
Qed.

(** ** Suffixes *)

Definition suffix_of (rest buf : list byte) : Prop := exists pre, buf = pre ++ rest.

Lemma suffix_refl b : suffix_of b b.
Proof. exists []. reflexivity. Qed.

Lemma suffix_cons c rest buf : suffix_of rest buf -> suffix_of rest (c :: buf).
Proof. intros [p ->]. exists (c :: p). reflexivity. Qed.

Lemma suffix_trans a b c : suffix_of a b -> suffix_of b c -> suffix_of a c.
Proof. intros [p ->] [q ->]. exists (q ++ p). rewrite app_assoc. reflexivity. Qed.

Lemma suffix_len a b : suffix_of a b -> (length a <= length b)%nat.
Proof. intros [p ->]. rewrite length_app. lia. Qed.

Lemma slice_app pre rest : slice (pre ++ rest) rest = pre.
Proof. unfold slice. rewrite length_app, Nat.add_sub. apply take_app_length. Qed.

Lemma slice_more buf rest more :
  suffix_of rest buf -> slice (buf ++ more) (rest ++ more) = slice buf rest.
Proof.
  intros [p ->]. rewrite <- app_assoc, !slice_app. reflexivity.
Qed.

(** ** Good parsers *)

(** A parser with a value [A], for buffers of at least [n] bytes, leaving at
    least [m]. *)
Definition good {A} (n m : Z) (p : list byte -> res (A * list byte)) : Prop :=
  forall buf, n <= zlen buf ->
  match p buf with
  | ROk (a, rest) =>
      suffix_of rest buf /\ m <= zlen rest /\ forall more, p (buf ++ more) = ROk (a, rest ++ more)
  | RFail e => e = -1 /\ (forall more, p (buf ++ more) = RFail (-1)) \/ e = -2
  | RBad => False
  end.

(** The same for a parser without a value. *)
Definition goodu (n m : Z) (p : list byte -> res (list byte)) : Prop :=
  good n m (fun b => rest ← p b; ROk (tt, rest)).

Lemma good_bind {A B} n m k (p : list byte -> res (A * list byte)) (f : A -> list byte -> res (B * list byte)) :
  good n m p -> (forall a, good m k (f a)) -> good n k (fun b => '(a, b) ← p b; f a b).
Proof.
  intros Hp Hf buf Hn. specialize (Hp buf Hn). unfold mbind, res_bind.
  destruct (p buf) as [[a rest]|e|]; [|destruct Hp as [[-> Hm]|Hm]; [left|right]; auto|auto].
  - destruct Hp as (Hs & Hl & Hm). specialize (Hf a rest Hl).
    destruct (f a rest) as [[b rest']|e|] eqn:E; auto.
    + destruct Hf as (Hs' & Hl' & Hm'). split; [eapply suffix_trans; eauto|].
      split; auto. intros more. rewrite Hm. apply Hm'.
    + destruct Hf as [[-> Hm']|]; auto. left. split; auto. intros more. rewrite Hm. apply Hm'.
  - split; auto. intros more. rewrite Hm. reflexivity.
Qed.

Lemma goodu_bind {B} n m k (p : list byte -> res (list byte)) (f : list byte -> res (B * list byte)) :
  goodu n m p -> good m k f -> good n k (fun b => b ← p b; f b).
Proof.
  intros Hp Hf. pose proof (good_bind n m k _ (fun _ => f) Hp (fun _ => Hf)) as H.
  intros buf Hn. specialize (H buf Hn). unfold mbind, res_bind in *.
  assert (E : forall b, match match p b with ROk a => ROk (tt, a) | RFail e => RFail e | RBad => RBad end with
     | ROk a => let '(_, b) := a in f b | RFail e => RFail e | RBad => RBad end =
     match p b with ROk a => f a | RFail e => RFail e | RBad => RBad end) by (intros b; destruct (p b); auto).
  rewrite E in H. destruct (match p buf with ROk a => f a | RFail e => RFail e | RBad => RBad end) as [[b rest]|e|]; auto.
  - destruct H as (H1 & H2 & H3). repeat split; auto. intros more. specialize (H3 more). rewrite E in H3. auto.
  - destruct H as [[He H3]|]; auto. left. split; auto. intros more. specialize (H3 more). rewrite E in H3. auto.
Qed.

Lemma goodu_intro n m p :
  (forall buf, n <= zlen buf ->
   match p buf with
   | ROk rest => suffix_of rest buf /\ m <= zlen rest /\ forall more, p (buf ++ more) = ROk (rest ++ more)
   | RFail e => e = -1 /\ (forall more, p (buf ++ more) = RFail (-1)) \/ e = -2
   | RBad => False
   end) -> goodu n m p.
Proof.
  intros H buf Hn. specialize (H buf Hn). unfold mbind, res_bind. destruct (p buf); auto.
  - destruct H as (H1 & H2 & H3). repeat split; auto. intros more. rewrite H3. reflexivity.
  - destruct H as [[-> H3]|]; auto. left. split; auto. intros more. rewrite H3. reflexivity.
Qed.

Lemma goodu_elim n m p buf :
  goodu n m p -> n <= zlen buf ->
  match p buf with
  | ROk rest => suffix_of rest buf /\ m <= zlen rest /\ forall more, p (buf ++ more) = ROk (rest ++ more)
  | RFail e => e = -1 /\ (forall more, p (buf ++ more) = RFail (-1)) \/ e = -2
  | RBad => False
  end.
Proof.
  intros H Hn. specialize (H buf Hn). unfold mbind, res_bind in H. destruct (p buf) eqn:E; auto.
  - destruct H as (H1 & H2 & H3). repeat split; auto. intros more. specialize (H3 more).
    destruct (p (buf ++ more)); congruence.
  - destruct H as [[-> H3]|]; auto. left. split; auto. intros more. specialize (H3 more).
    destruct (p (buf ++ more)); congruence.
Qed.

Lemma good_weaken {A} n n' m m' (p : list byte -> res (A * list byte)) :
  n <= n' -> m' <= m -> good n m p -> good n' m' p.
Proof.
  intros Hn Hm Hp buf Hl. specialize (Hp buf ltac:(lia)). destruct (p buf) as [[a rest]|e|]; auto.
  destruct Hp as (H1 & H2 & H3). repeat split; auto. lia.
Qed.

(** The bytes a parser without a value passed over, as its value. *)
Lemma good_slice n m p :
  goodu n m p -> good n m (fun b => rest ← p b; ROk (slice b rest, rest)).
Proof.
  intros Hp buf Hn. pose proof (goodu_elim n m p buf Hp Hn) as H. unfold mbind, res_bind.
  destruct (p buf) as [rest|e|]; auto.
  - destruct H as (H1 & H2 & H3). repeat split; auto. intros more. rewrite H3, slice_more; auto.
  - destruct H as [[-> H3]|]; auto. left. split; auto. intros more. rewrite H3. reflexivity.
Qed.

(** Loops that look at one character at a time. *)
Ltac by_chars :=
  apply goodu_intro; intros buf _; induction buf as [|c buf IH]; cbn -[Z.of_nat]; [auto|].

Lemma advance_loop_good : goodu 0 1 advance_loop.
Proof.
  by_chars. destruct (bz c =? 32); [repeat split; auto using suffix_refl; cbn [length]; lia|].
  destruct (_ && _); [auto|]. destruct (advance_loop buf) as [rest|e|]; auto.
  destruct IH as (H1 & H2 & H3). auto using suffix_cons.
Qed.

Lemma token_loop_good next : goodu 0 1 (token_loop next).
Proof.
  by_chars. destruct (bz c =? next); [repeat split; auto using suffix_refl; cbn [length]; lia|].
  destruct (negb _); [auto|]. destruct (token_loop next buf) as [rest|e|]; auto.
  destruct IH as (H1 & H2 & H3). auto using suffix_cons.
Qed.

Lemma skip_blanks_good : goodu 0 1 skip_blanks.
Proof.
  by_chars. destruct (negb _); [repeat split; auto using suffix_refl; cbn [length]; lia|].
  destruct (skip_blanks buf) as [rest|e|]; auto.
  destruct IH as (H1 & H2 & H3). auto using suffix_cons.
Qed.

Lemma spaces_loop_good : goodu 0 1 spaces_loop.
Proof.
  by_chars. destruct (bz c =? 32); [|repeat split; auto using suffix_refl; cbn [length]; lia].
  destruct (spaces_loop buf) as [rest|e|]; auto.
  destruct IH as (H1 & H2 & H3). auto using suffix_cons.
Qed.

Lemma to_ctl_good : goodu 0 1 to_ctl.
Proof.
  by_chars. destruct (negb _ && _); [repeat split; auto using suffix_refl; cbn [length]; lia|].
  destruct (to_ctl buf) as [rest|e|]; auto.
  destruct IH as (H1 & H2 & H3). auto using suffix_cons.
Qed.

Lemma expect_good ch : goodu 0 0 (EXPECT_CHAR ch).
Proof.
  apply goodu_intro. intros buf _. destruct buf as [|c buf]; cbn -[Z.of_nat]; auto.
  destruct (bz c =? ch); [|auto]. repeat split; [apply suffix_cons, suffix_refl|lia].
Qed.

Lemma expect_no_check_good ch n m : 0 <= m < n -> m + 1 = n -> goodu n m (EXPECT_CHAR_NO_CHECK ch).
Proof.
  intros Hn Hnm. apply goodu_intro. intros buf Hl. destruct buf as [|c buf]; cbn -[Z.of_nat] in *; [lia|].
  destruct (bz c =? ch); [|auto]. repeat split; [apply suffix_cons, suffix_refl|lia].
Qed.

Lemma skip_spaces_good : goodu 1 1 skip_spaces.
Proof.
  apply goodu_intro. intros buf Hl. destruct buf as [|c buf]; cbn -[Z.of_nat] in *; [lia|].
  pose proof (goodu_elim 0 1 _ buf spaces_loop_good ltac:(lia)) as H.
  destruct (spaces_loop buf) as [rest|e|]; auto.
  destruct H as (H1 & H2 & H3). auto using suffix_cons.
Qed.

Lemma eol_good (keep : bool) n :
  0 <= n -> (keep = false -> 1 <= n) ->
  goodu n 0 (fun buf => match buf with
    | [] => if keep then RFail (-2) else RBad
    | c :: rest => if bz c =? 13 then EXPECT_CHAR 10 rest
                   else if bz c =? 10 then ROk rest
                   else if keep then ROk buf else RFail (-1)
    end).
Proof.
  intros Hn Hk. apply goodu_intro. intros buf Hl. destruct buf as [|c buf].
  { cbn in Hl. destruct keep; auto. specialize (Hk eq_refl). lia. }
  cbn [app]. destruct (bz c =? 13).
  - pose proof (goodu_elim 0 0 _ buf (expect_good 10) ltac:(lia)) as H.
    destruct (EXPECT_CHAR 10 buf) as [rest|e|]; auto.
    destruct H as (H1 & H2 & H3). auto using suffix_cons.
  - destruct (bz c =? 10); [repeat split; [apply suffix_cons, suffix_refl|lia]|].
    destruct keep; [|auto]. repeat split; [apply suffix_refl|cbn [length]; lia].
Qed.

Lemma skip_eol_good : goodu 0 0 skip_eol.
Proof. apply (eol_good true); [lia|discriminate]. Qed.

Lemma version_eol_good : goodu 1 0 version_eol.
Proof. apply (eol_good false); lia. Qed.

Lemma parse_int_good mul n m : 0 <= m < n -> m + 1 = n -> good n m (PARSE_INT mul).
Proof.
  intros Hn Hnm buf Hl. destruct buf as [|c buf]; cbn -[Z.of_nat] in *; [lia|].
  destruct (_ || _); [auto|]. repeat split; [apply suffix_cons, suffix_refl|lia].
Qed.

(** ** [get_token_to_eol] *)

Lemma doit_spec n buf :
  (n <= length buf)%nat ->
  exists all b, doit n buf = ROk (all, b) /\ to_ctl buf = to_ctl b /\
    (if all then (length b = length buf - n)%nat
     else (length b <= length buf)%nat /\ exists c r, b = c :: r /\ IS_PRINTABLE_ASCII c = false).
Proof.
  revert buf. induction n as [|n IH]; intros buf Hl; cbn [doit].
  { exists true, buf. repeat split; auto. lia. }
  destruct buf as [|c buf]; cbn [length] in *; [lia|]. destruct (IS_PRINTABLE_ASCII c) eqn:E.
  - destruct (IH buf ltac:(lia)) as (all & b & H1 & H2 & H3). exists all, b. split; auto.
    split; [cbn [to_ctl]; rewrite E; exact H2|]. destruct all; [lia|].
    destruct H3 as [H3 H4]. split; [lia|auto].
  - exists false, (c :: buf). repeat split; auto. exists c, buf. auto.
Qed.

Lemma skip_eights_spec fuel buf :
  (length buf < fuel)%nat ->
  exists found b, skip_eights fuel buf = ROk (found, b) /\
    to_ctl buf = if (found : bool) then ROk b else to_ctl b.
Proof.
  revert buf. induction fuel as [|fuel IH]; intros buf Hf; [lia|]. cbn [skip_eights].
  destruct (Z.leb_spec 8 (zlen buf)) as [H8|H8]; [|exists false, buf; auto].
  destruct (doit_spec 8 buf ltac:(lia)) as (all & b & -> & H2 & H3). cbn [mbind res_bind].
  unfold mbind, res_bind. destruct all.
  - destruct (IH b ltac:(lia)) as (found & b' & H4 & H5). exists found, b'. split; auto. congruence.
  - destruct H3 as (Hlen & c & r & -> & Hc). cbn [to_ctl length] in H2, Hlen. rewrite Hc in H2. cbn [negb andb] in H2.
    destruct (is_ctl c) eqn:Hctl; [exists true, (c :: r); auto|].
    destruct (IH r ltac:(lia)) as (found & b' & H4 & H5). exists found, b'. split; auto. congruence.
Qed.

(** The eight-at-a-time loop makes no difference. *)
Definition eol_of (start buf : list byte) : res (list byte * list byte) :=
  match buf with
  | [] => RBad
  | c :: rest =>
      if bz c =? 13 then rest ← EXPECT_CHAR 10 rest; ROk (slice start buf, rest)
      else if bz c =? 10 then ROk (slice start buf, rest)
      else RFail (-1)
  end.

Lemma get_token_eq start :
  get_token_to_eol start = (buf ← to_ctl start; eol_of start buf).
Proof.
  unfold get_token_to_eol. destruct (skip_eights_spec (S (length start)) start ltac:(lia)) as (found & b & -> & ->).
  destruct found; reflexivity.
Qed.

Lemma get_token_good : good 0 0 get_token_to_eol.
Proof.
  intros start _. rewrite get_token_eq. pose proof (goodu_elim 0 1 _ start to_ctl_good ltac:(lia)) as H.
  assert (Em : forall more, get_token_to_eol (start ++ more) = (buf ← to_ctl (start ++ more); eol_of (start ++ more) buf))
    by (intros; apply get_token_eq).
  unfold mbind, res_bind in *. destruct (to_ctl start) as [b|e|]; auto.
  - destruct H as (Hs & Hl & Hm). destruct b as [|c b]; [cbn in Hl; lia|]. cbn [eol_of].
    assert (Ec : forall more, get_token_to_eol (start ++ more) = eol_of (start ++ more) (c :: b ++ more)).
    { intros more. rewrite Em, Hm. reflexivity. }
    assert (Esl : forall more, slice (start ++ more) (c :: b ++ more) = slice start (c :: b))
      by (intros; apply (slice_more start (c :: b)); auto).
    assert (Hsb : suffix_of b start) by (eapply suffix_trans; [apply suffix_cons, suffix_refl|exact Hs]).
    destruct (bz c =? 13) eqn:E13.
    + pose proof (goodu_elim 0 0 _ b (expect_good 10) ltac:(lia)) as He. unfold mbind, res_bind.
      destruct (EXPECT_CHAR 10 b) as [rest|e|]; auto.
      * destruct He as (H1 & H2 & H3). split; [eapply suffix_trans; eauto|]. split; auto.
        intros more. rewrite Ec. unfold eol_of. rewrite E13, H3, Esl. reflexivity.
      * destruct He as [[-> H3]|]; auto. left. split; auto. intros more. rewrite Ec. unfold eol_of.
        rewrite E13, H3. reflexivity.
    + destruct (bz c =? 10) eqn:E10.
      * split; auto. split; [lia|]. intros more. rewrite Ec. unfold eol_of. rewrite E13, E10, Esl. reflexivity.
      * left. split; auto. intros more. rewrite Ec. unfold eol_of. rewrite E13, E10. reflexivity.
  - destruct H as [[-> Hm]|]; auto. left. split; auto. intros more. rewrite Em, Hm. reflexivity.
Qed.

(** ** The rest of the grammar *)

Lemma parse_token_good next : good 0 1 (parse_token next).
Proof. apply good_slice, token_loop_good. Qed.

Lemma ADVANCE_TOKEN_good : good 0 1 ADVANCE_TOKEN.
Proof. apply good_slice, advance_loop_good. Qed.

(** A parser guarded by a minimum length. *)
Lemma good_guard {A} n m (p : list byte -> res (A * list byte)) :
  good n m p -> good 0 m (fun b => if zlen b <? n then RFail (-2) else p b).
Proof.
  intros Hp buf _. destruct (Z.ltb_spec (zlen buf) n) as [|Hl]; [auto|]. specialize (Hp buf Hl).
  assert (E : forall more, (zlen (buf ++ more) <? n) = false)
    by (intros; apply Z.ltb_ge; rewrite length_app; lia).
  destruct (p buf) as [[a rest]|e|]; auto.
  - destruct Hp as (H1 & H2 & H3). repeat split; auto. intros more. rewrite E. auto.
  - destruct Hp as [[-> H3]|]; auto. left. split; auto. intros more. rewrite E. auto.
Qed.

Lemma parse_http_version_good : good 0 1 parse_http_version.
Proof.
  apply (good_guard 9).
  apply (goodu_bind 9 8 1); [apply expect_no_check_good; lia|].
  apply (goodu_bind 8 7 1); [apply expect_no_check_good; lia|].
  apply (goodu_bind 7 6 1); [apply expect_no_check_good; lia|].
  apply (goodu_bind 6 5 1); [apply expect_no_check_good; lia|].
  apply (goodu_bind 5 4 1); [apply expect_no_check_good; lia|].
  apply (goodu_bind 4 3 1); [apply expect_no_check_good; lia|].
  apply (goodu_bind 3 2 1); [apply expect_no_check_good; lia|].
  apply parse_int_good; lia.
Qed.

(** Prepending a character that was looked at. *)
Lemma good_any_fail {A} n m : good n m (fun _ => RFail (-1) : res (A * list byte)).
Proof. intros buf _. auto. Qed.

Lemma good_ret {A} n (a : A) : 0 <= n -> good n n (fun b => ROk (a, b)).
Proof. intros Hn buf Hl. repeat split; auto using suffix_refl. Qed.

Lemma good_if {A} n m (c : bool) (p q : list byte -> res (A * list byte)) :
  good n m p -> good n m q -> good n m (fun b => if c then p b else q b).
Proof. destruct c; auto. Qed.

Lemma skip_one_good {A} n (p : list byte -> res (A * list byte)) :
  good 0 n p -> good 1 n (fun b => match b with [] => RBad | _ :: b => p b end).
Proof.
  intros Hp buf Hl. destruct buf as [|c buf]; [cbn in Hl; lia|].
  specialize (Hp buf ltac:(lia)). cbn [app]. destruct (p buf) as [[a rest]|e|]; auto.
  destruct Hp as (H1 & H2 & H3). auto using suffix_cons.
Qed.

Lemma header_name_good : good 0 1 header_name.
Proof.
  unfold header_name. eapply good_bind; [apply parse_token_good|]. intros name.
  apply good_if; [apply good_any_fail|].
  apply (skip_one_good 1 (fun buf => buf ← skip_blanks buf; ROk (Some name, buf))).
  eapply goodu_bind; [apply skip_blanks_good|]. apply good_ret. lia.
Qed.

(** One header: its name or a continuation, and its value. *)
Definition one_header (named : bool) (buf : list byte) : res (phr_header * list byte) :=
  '(name, buf) ← (if named then header_name buf else ROk (None, buf));
  '(value, buf) ← get_token_to_eol buf;
  ROk (mkHdr name (trim value), buf).

Lemma one_header_good named : good 0 0 (one_header named).
Proof.
  unfold one_header. eapply (good_bind 0 0 0).
  - apply good_if; [eapply good_weaken; [| |apply header_name_good]; lia|apply good_ret; lia].
  - intros name. eapply (good_bind 0 0 0); [apply get_token_good|]. intros value. apply good_ret. lia.
Qed.

Lemma parse_headers_S fuel buf headers max :
  parse_headers (S fuel) buf headers max =
  match buf with
  | [] => RFail (-2)
  | c :: rest =>
      if bz c =? 13 then rest ← EXPECT_CHAR 10 rest; ROk (headers, rest)
      else if bz c =? 10 then ROk (headers, rest)
      else if zlen headers =? max then RFail (-1)
      else
        '(h, buf) ← one_header (negb (negb (zlen headers =? 0) && is_blank c)) buf;
        parse_headers fuel buf (headers ++ [h]) max
  end.
Proof.
  cbn [parse_headers]. destruct buf as [|c rest]; auto. destruct (bz c =? 13); auto. destruct (bz c =? 10); auto.
  destruct (zlen headers =? max); auto. unfold one_header, mbind, res_bind.
  destruct (if negb (negb (zlen headers =? 0) && is_blank c) then header_name (c :: rest) else ROk (None, c :: rest))
    as [[name b]|e|]; auto.
  destruct (get_token_to_eol b) as [[v b']|e|]; auto.
Qed.

(** A header takes at least one byte. *)
Lemma to_ctl_suffix buf b : to_ctl buf = ROk b -> suffix_of b buf.
Proof.
  intros E. pose proof (goodu_elim 0 1 _ buf to_ctl_good ltac:(lia)) as H. rewrite E in H. apply H.
Qed.

Lemma get_token_shrinks buf v b : get_token_to_eol buf = ROk (v, b) -> (length b < length buf)%nat.
Proof.
  rewrite get_token_eq. unfold mbind, res_bind. destruct (to_ctl buf) as [r|e|] eqn:E; try discriminate.
  apply to_ctl_suffix, suffix_len in E. unfold eol_of. destruct r as [|c r]; [discriminate|]. cbn [length] in E.
  destruct (bz c =? 13).
  - unfold EXPECT_CHAR, EXPECT_CHAR_NO_CHECK, mbind, res_bind. destruct r as [|d r]; [discriminate|].
    destruct (bz d =? 10); [|discriminate]. intros [= <- <-]. cbn [length] in E. lia.
  - destruct (bz c =? 10); [|discriminate]. intros [= <- <-]. lia.
Qed.

Lemma one_header_shrinks named buf h b : one_header named buf = ROk (h, b) -> (length b < length buf)%nat.
Proof.
  unfold one_header, mbind, res_bind.
  destruct (if named then header_name buf else ROk (None, buf)) as [[name r]|e|] eqn:E; try discriminate.
  destruct (get_token_to_eol r) as [[v r']|e|] eqn:E2; try discriminate. intros [= <- <-].
  apply get_token_shrinks in E2. assert (length r <= length buf)%nat; [|lia].
  destruct named; [|injection E as <- <-; lia].
  pose proof (header_name_good buf ltac:(lia)) as H. rewrite E in H. apply suffix_len, H.
Qed.

(** More fuel than bytes is enough, and more of it changes nothing. *)
Lemma parse_headers_fuel f1 f2 buf headers max :
  (length buf < f1)%nat -> (length buf < f2)%nat ->
  parse_headers f1 buf headers max = parse_headers f2 buf headers max.
Proof.
  revert f2 buf headers. induction f1 as [|f1 IH]; intros [|f2] buf headers H1 H2; try lia.
  rewrite !parse_headers_S. destruct buf as [|c rest]; auto. destruct (bz c =? 13); auto.
  destruct (bz c =? 10); auto. destruct (zlen headers =? max); auto. unfold mbind, res_bind.
  destruct (one_header _ (c :: rest)) as [[h b]|e|] eqn:E; auto.
  apply one_header_shrinks in E. apply IH; lia.
Qed.

Definition headers_parser (max : Z) (buf : list byte) : res (list phr_header * list byte) :=
  parse_headers (S (length buf)) buf [] max.

Lemma parse_headers_good fuel headers max buf :
  (length buf < fuel)%nat ->
  match parse_headers fuel buf headers max with
  | ROk (a, rest) => suffix_of rest buf /\ forall more fuel', (length (buf ++ more) < fuel')%nat ->
      parse_headers fuel' (buf ++ more) headers max = ROk (a, rest ++ more)
  | RFail e => e = -1 /\ (forall more fuel', (length (buf ++ more) < fuel')%nat ->
      parse_headers fuel' (buf ++ more) headers max = RFail (-1)) \/ e = -2
  | RBad => False
  end.
Proof.
  revert buf headers. induction fuel as [|fuel IH]; intros buf headers Hf; [lia|].
  rewrite parse_headers_S. destruct buf as [|c rest]; [auto|]. cbn [length app] in *.
  assert (HS : forall more fuel', (S (length (rest ++ more)) < fuel')%nat -> exists f, fuel' = S f)
    by (intros ? [|f] ?; [lia|eauto]).
  destruct (bz c =? 13) eqn:E13.
  { pose proof (goodu_elim 0 0 _ rest (expect_good 10) ltac:(lia)) as H. unfold mbind, res_bind.
    destruct (EXPECT_CHAR 10 rest) as [r|e|]; auto.
    - destruct H as (H1 & H2 & H3). split; [auto using suffix_cons|]. intros more fuel' Hl.
      destruct (HS _ _ Hl) as [f ->]. rewrite parse_headers_S, E13, H3. reflexivity.
    - destruct H as [[-> H3]|]; auto. left. split; auto. intros more fuel' Hl.
      destruct (HS _ _ Hl) as [f ->]. rewrite parse_headers_S, E13, H3. reflexivity. }
  destruct (bz c =? 10) eqn:E10.
  { split; [apply suffix_cons, suffix_refl|]. intros more fuel' Hl.
    destruct (HS _ _ Hl) as [f ->]. rewrite parse_headers_S, E13, E10. reflexivity. }
  destruct (zlen headers =? max) eqn:Em.
  { left. split; auto. intros more fuel' Hl. destruct (HS _ _ Hl) as [f ->].
    rewrite parse_headers_S, E13, E10, Em. reflexivity. }
  set (named := negb _) in *. pose proof (one_header_good named (c :: rest) ltac:(lia)) as H.
  unfold mbind, res_bind. destruct (one_header named (c :: rest)) as [[h b]|e|] eqn:E; auto.
  - apply one_header_shrinks in E. cbn [length] in E. destruct H as (H1 & _ & H3).
    specialize (IH b (headers ++ [h]) ltac:(lia)).
    assert (Hmore : forall more f, parse_headers (S f) (c :: rest ++ more) headers max =
              parse_headers f (b ++ more) (headers ++ [h]) max).
    { intros more f. rewrite parse_headers_S, E13, E10, Em. fold named.
      change (c :: rest ++ more) with ((c :: rest) ++ more). rewrite H3. reflexivity. }
    destruct (parse_headers fuel b (headers ++ [h]) max) as [[a r]|e|]; auto.
    + destruct IH as [I1 I2]. split; [eapply suffix_trans; eauto|]. intros more fuel' Hl.
      destruct (HS _ _ Hl) as [f ->]. rewrite Hmore. apply I2. rewrite length_app in *. lia.
    + destruct IH as [[-> I2]|]; auto. left. split; auto. intros more fuel' Hl.
      destruct (HS _ _ Hl) as [f ->]. rewrite Hmore. apply I2. rewrite length_app in *. lia.
  - destruct H as [[-> H3]|]; auto. left. split; auto. intros more fuel' Hl.
    destruct (HS _ _ Hl) as [f ->]. rewrite parse_headers_S, E13, E10, Em. fold named.
    change (c :: rest ++ more) with ((c :: rest) ++ more). rewrite H3. reflexivity.
Qed.

Lemma headers_parser_good max : good 0 0 (headers_parser max).
Proof.
  intros buf _. unfold headers_parser. pose proof (parse_headers_good (S (length buf)) [] max buf ltac:(lia)) as H.
  destruct (parse_headers _ _ _ _) as [[a rest]|e|]; auto.
  - destruct H as [H1 H2]. split; [auto|split; [lia|auto]].
  - destruct H as [[-> H2]|]; auto.
Qed.

Lemma parse_request_good max : good 0 0 (fun b => parse_request b max).
Proof.
  unfold parse_request. eapply goodu_bind; [apply skip_eol_good|].
  eapply good_bind; [apply parse_token_good|]. intros method.
  eapply goodu_bind; [apply skip_spaces_good|].
  eapply (good_bind 1 1 0); [eapply good_weaken; [| |apply ADVANCE_TOKEN_good]; lia|]. intros path.
  eapply goodu_bind; [apply skip_spaces_good|].
  apply good_if; [apply good_any_fail|].
  eapply (good_bind 1 1 0); [eapply good_weaken; [| |apply parse_http_version_good]; lia|]. intros minor.
  eapply goodu_bind; [apply version_eol_good|].
  apply (good_bind 0 0 0 (headers_parser max)); [apply headers_parser_good|]. intros headers.
  apply good_ret. lia.
Qed.

(** ** Responses *)

Lemma parse_int_3_good : good 4 1 PARSE_INT_3.
Proof.
  unfold PARSE_INT_3. apply (good_bind 4 3 1); [apply parse_int_good; lia|]. intros a.
  apply (good_bind 3 2 1); [apply parse_int_good; lia|]. intros b.
  apply (good_bind 2 1 1); [apply parse_int_good; lia|]. intros c. apply good_ret. lia.
Qed.

(** What follows a token is the line end: the loop that strips spaces stops
    there at the latest. *)
Lemma to_ctl_head buf b : to_ctl buf = ROk b -> exists c r, b = c :: r /\ is_ctl c = true.
Proof.
  induction buf as [|c buf IH]; cbn [to_ctl]; [discriminate|]. rewrite to_ctl_cond.
  destruct (is_ctl c) eqn:E; [intros [= <-]; eauto|auto].
Qed.

Lemma get_token_value buf v b :
  get_token_to_eol buf = ROk (v, b) -> exists c r, drop (length v) buf = c :: r /\ is_ctl c = true.
Proof.
  rewrite get_token_eq. unfold mbind, res_bind. destruct (to_ctl buf) as [t|e|] eqn:E; try discriminate.
  pose proof (to_ctl_suffix _ _ E) as [pre Hpre]. destruct (to_ctl_head _ _ E) as (c & r & -> & Hc).
  intros H. exists c, r. split; auto.
  assert (Hv : v = slice buf (c :: r)).
  { unfold eol_of in H. destruct (bz c =? 13).
    - unfold mbind, res_bind in H. destruct (EXPECT_CHAR 10 r); [injection H as <- _; auto|discriminate..].
    - destruct (bz c =? 10); [injection H as <- _; auto|discriminate]. }
  rewrite Hv, Hpre, slice_app. apply drop_app_all. reflexivity.
Qed.

Lemma strip_spaces_ok msg c r : is_ctl c = true -> exists m, forall l, strip_spaces msg (c :: r ++ l) = ROk m.
Proof.
  intros Hc. induction msg as [|d msg IH]; cbn [strip_spaces].
  - exists []. intros l. destruct (Z.eqb_spec (bz c) 32) as [E|]; auto. unfold is_ctl in Hc. rewrite E in Hc. discriminate.
  - destruct (bz d =? 32); [exact IH|]. eauto.
Qed.

(** [get_token_to_eol] with its message stripped. *)
Definition message (buf : list byte) : res (list byte * list byte) :=
  '(msg, rest) ← get_token_to_eol buf;
  msg ← response_msg msg (drop (length msg) buf);
  ROk (msg, rest).

Lemma message_good : good 0 0 message.
Proof.
  intros buf _. pose proof (get_token_good buf ltac:(lia)) as H. unfold message, mbind, res_bind.
  destruct (get_token_to_eol buf) as [[v b]|e|] eqn:E; auto.
  - destruct H as (H1 & H2 & H3). destruct (get_token_value _ _ _ E) as (c & r & Hd & Hc).
    assert (Hl : (length v <= length buf)%nat).
    { destruct (Nat.leb_spec (length v) (length buf)) as [|Hgt]; auto. rewrite drop_ge in Hd by lia. discriminate. }
    assert (Hdm : forall more, drop (length v) (buf ++ more) = c :: r ++ more).
    { intros more. rewrite drop_app_le by auto. rewrite Hd. reflexivity. }
    assert (Er : (exists m, forall more, response_msg v (drop (length v) (buf ++ more)) = ROk m) \/
                 (forall more, response_msg v (drop (length v) (buf ++ more)) = RFail (-1))).
    { unfold response_msg. destruct v as [|d v]; [left; eauto|]. destruct (bz d =? 32) eqn:E32; [left|right; auto].
      destruct (strip_spaces_ok (d :: v) c r Hc) as [m Hm]. exists m. intros more. rewrite Hdm. apply Hm. }
    assert (E0 : drop (length v) buf = drop (length v) (buf ++ [])) by (rewrite app_nil_r; reflexivity).
    destruct Er as [[m Hm]|Hm]; rewrite E0, Hm.
    + repeat split; auto. intros more. rewrite H3, Hm. reflexivity.
    + left. split; auto. intros more. rewrite H3, Hm. reflexivity.
  - destruct H as [[-> H3]|]; auto. left. split; auto. intros more. rewrite H3. reflexivity.
Qed.

(** The status line and the headers after the version. *)
Definition status_line (max minor : Z) (buf : list byte) : res (response * list byte) :=
  '(status, buf) ← PARSE_INT_3 buf;
  '(msg, rest) ← message buf;
  '(headers, rest) ← headers_parser max rest;
  ROk (mkResp minor status msg headers, rest).

Lemma status_line_good max minor : good 4 0 (status_line max minor).
Proof.
  unfold status_line. apply (good_bind 4 1 0); [apply parse_int_3_good|]. intros status.
  apply (good_bind 1 0 0); [eapply good_weaken; [| |apply message_good]; lia|]. intros msg.
  apply (good_bind 0 0 0); [apply headers_parser_good|]. intros headers. apply good_ret. lia.
Qed.

Definition after_version (max minor : Z) (buf : list byte) : res (response * list byte) :=
  match buf with
  | [] => RBad
  | c :: _ => if negb (bz c =? 32) then RFail (-1)
              else buf ← skip_spaces buf; if zlen buf <? 4 then RFail (-2) else status_line max minor buf
  end.

Lemma after_version_good max minor : good 1 0 (after_version max minor).
Proof.
  assert (H : good 1 0 (fun buf => buf ← skip_spaces buf; if zlen buf <? 4 then RFail (-2) else status_line max minor buf)).
  { eapply goodu_bind; [apply skip_spaces_good|].
    apply (good_weaken 0 1 0 0); [lia|lia|]. apply good_guard, status_line_good. }
  intros buf Hl. specialize (H buf Hl). unfold after_version. destruct buf as [|c buf]; [cbn in Hl; lia|].
  cbn [app]. destruct (negb (bz c =? 32)); auto.
Qed.

Lemma parse_response_eq buf max :
  parse_response buf max = ('(minor, buf) ← parse_http_version buf; after_version max minor buf).
Proof.
  unfold parse_response, after_version, status_line, message, headers_parser, mbind, res_bind.
  destruct (parse_http_version buf) as [[minor b]|e|]; auto. destruct b as [|c b]; auto.
  destruct (negb _); auto. destruct (skip_spaces (c :: b)) as [r|e|]; auto. destruct (zlen r <? 4); auto.
  destruct (PARSE_INT_3 r) as [[st r']|e|]; auto. destruct (get_token_to_eol r') as [[m r'']|e|]; auto.
  destruct (response_msg m (drop (length m) r')); auto.
Qed.

Lemma good_ext {A} n m (p q : list byte -> res (A * list byte)) :
  (forall b, q b = p b) -> good n m p -> good n m q.
Proof.
  intros E Hp buf Hl. specialize (Hp buf Hl). rewrite E. destruct (p buf) as [[a rest]|e|]; auto.
  - destruct Hp as (H1 & H2 & H3). repeat split; auto. intros more. rewrite E. apply H3.
  - destruct Hp as [[-> H3]|]; auto. left. split; auto. intros more. rewrite E. apply H3.
Qed.

Lemma parse_response_good max : good 0 0 (fun b => parse_response b max).
Proof.
  eapply good_ext; [intros b; apply parse_response_eq|].
  eapply good_bind; [apply parse_http_version_good|]. intros minor. apply after_version_good.
Qed.

(** ** The slow-loris test *)

Lemma complete_loop_safe n buf :
  match complete_loop n buf with ROk _ => True | RFail e => e = -1 \/ e = -2 | RBad => False end.
Proof.
  revert n. assert (H : forall len b n, (length b <= len)%nat ->
    match complete_loop n b with ROk _ => True | RFail e => e = -1 \/ e = -2 | RBad => False end).
  { induction len as [|len IH]; intros b n Hl; (destruct b as [|c b]; [cbn; auto|cbn [length] in Hl; try lia]).
    cbn [complete_loop]. destruct (bz c =? 13).
    - destruct b as [|d b]; [auto|]. destruct (bz d =? 10); [|auto].
      destruct (n + 1 =? 2); [auto|]. apply IH. cbn [length] in Hl. lia.
    - destruct (bz c =? 10); [destruct (n + 1 =? 2); [auto|]|]; apply IH; lia. }
  intros n. apply (H (length buf)). lia.
Qed.

Lemma is_complete_safe buf last_len :
  last_len <= zlen buf ->
  match is_complete buf last_len with ROk _ => True | RFail e => e = -1 \/ e = -2 | RBad => False end.
Proof.
  intros Hl. unfold is_complete. destruct (last_len <? 3); [apply complete_loop_safe|].
  destruct (Z.ltb_spec (zlen buf) (last_len - 3)); [lia|]. apply complete_loop_safe.
Qed.

(** What a call of the API answers. *)
Definition http_answer {A} (buf : list byte) (r : res (Z * A)) : Prop :=
  match r with
  | ROk (n, _) => 0 <= n <= zlen buf
  | RFail e => e = -1 \/ e = -2
  | RBad => False
  end.

Lemma run_parser_safe {A} (p : list byte -> res (A * list byte)) buf last_len :
  good 0 0 p -> last_len <= zlen buf -> zlen buf < 2147483648 -> http_answer buf (run_parser p buf last_len).
Proof.
  intros Hp Hl Hb. unfold run_parser, http_answer, mbind, res_bind.
  pose proof (is_complete_safe buf last_len Hl) as Hc.
  assert (H0 : match (if last_len =? 0 then ROk buf else is_complete buf last_len) with
               | ROk _ => True | RFail e => e = -1 \/ e = -2 | RBad => False end)
    by (destruct (last_len =? 0); auto).
  destruct (if last_len =? 0 then _ else _) as [x|e|]; auto.
  specialize (Hp buf ltac:(lia)). destruct (p buf) as [[a rest]|e|]; auto.
  - destruct Hp as (H1 & _ & _). apply suffix_len in H1. rewrite (swrap_id 32) by (zpow; lia). lia.
  - destruct Hp as [[-> _]| ->]; auto.
Qed.

(** Parsing again with more bytes. *)
Lemma run_parser_more {A} (p : list byte -> res (A * list byte)) buf more :
  good 0 0 p -> zlen (buf ++ more) < 2147483648 ->
  run_parser p buf 0 <> RFail (-2) -> run_parser p (buf ++ more) 0 = run_parser p buf 0.
Proof.
  intros Hp Hb. unfold run_parser. cbn [Z.eqb]. unfold mbind, res_bind.
  specialize (Hp buf ltac:(lia)). destruct (p buf) as [[a rest]|e|]; [|destruct Hp as [[-> H3]| ->]|tauto].
  - destruct Hp as (H1 & _ & H3). intros _. rewrite H3, !length_app. f_equal. f_equal. f_equal. lia.
  - intros _. rewrite H3. reflexivity.
  - tauto.
Qed.
