(* ===== verification/HttpProps.v ===== *)
(** * HTTP heads: round trip and theorems

    A printed request is read back, and the theorems of Http.v. *)

From Stdlib Require Import Strings.String.
From S2P Require Import Prelude Http HttpFacts.

(** ** Printing *)

Definition CRLF : list byte := [zb 13; zb 10].

Definition print_header (h : phr_header) : list byte :=
  default [] (hd_name h) ++ [zb 58; zb 32] ++ hd_value h ++ CRLF.

Definition print_version (minor : Z) : list byte :=
  [zb 72; zb 84; zb 84; zb 80; zb 47; zb 49; zb 46; zb (48 + minor)].

Definition print_request (r : request) : list byte :=
  rq_method r ++ [zb 32] ++ rq_path r ++ [zb 32] ++ print_version (rq_minor r) ++ CRLF
  ++ concat (map print_header (rq_headers r)) ++ CRLF.

Definition path_char (c : byte) : bool := (32 <? bz c) && negb (bz c =? 127).

Definition no_blank_ends (v : list byte) : Prop :=
  (forall c r, v = c :: r -> is_blank c = false) /\ (forall c r, rev v = c :: r -> is_blank c = false).

Record header_ok (h : phr_header) : Prop := {
  ho_name : exists n, hd_name h = Some n /\ n <> [] /\ Forall (fun c => token_char_map c = true) n;
  ho_value : Forall (fun c => is_ctl c = false) (hd_value h);
  ho_ends : no_blank_ends (hd_value h)
}.

Record request_ok (max : Z) (r : request) : Prop := {
  ro_method : rq_method r <> [] /\ Forall (fun c => token_char_map c = true) (rq_method r);
  ro_path : rq_path r <> [] /\ Forall (fun c => path_char c = true) (rq_path r);
  ro_minor : 0 <= rq_minor r <= 9;
  ro_headers : Forall header_ok (rq_headers r);
  ro_count : zlen (rq_headers r) <= max
}.

(** ** Reading back *)

Lemma token_char_sep c : token_char_map c = true -> bz c <> 32 /\ bz c <> 58 /\ bz c <> 13 /\ bz c <> 10.
Proof. destruct c; vm_compute; intros H; repeat split; discriminate || (intros; discriminate). Qed.

Lemma path_char_sep c :
  path_char c = true ->
  bz c <> 32 /\ negb (IS_PRINTABLE_ASCII c) && ((bz c <? 32) || (bz c =? 127)) = false.
Proof. destruct c; vm_compute; intros H; repeat split; try discriminate; try reflexivity. Qed.

Lemma eqb_ne a b : a <> b -> (a =? b) = false.
Proof. intros. apply Z.eqb_neq. auto. Qed.

Lemma token_loop_run next tok d rest :
  next = 32 \/ next = 58 -> bz d = next -> Forall (fun c => token_char_map c = true) tok ->
  token_loop next (tok ++ d :: rest) = ROk (d :: rest).
Proof.
  intros Hn Hd. induction 1 as [|c tok Hc _ IH]; cbn [app token_loop].
  - rewrite Hd, Z.eqb_refl. reflexivity.
  - destruct (token_char_sep c Hc) as (H1 & H2 & _). rewrite eqb_ne by (destruct Hn; subst; auto).
    rewrite Hc. exact IH.
Qed.

Lemma parse_token_run next tok d rest :
  next = 32 \/ next = 58 -> bz d = next -> Forall (fun c => token_char_map c = true) tok ->
  parse_token next (tok ++ d :: rest) = ROk (tok, d :: rest).
Proof.
  intros H1 H2 H3. unfold parse_token. rewrite token_loop_run by auto. cbn.
  rewrite slice_app. reflexivity.
Qed.

Lemma advance_run path rest :
  Forall (fun c => path_char c = true) path ->
  ADVANCE_TOKEN (path ++ zb 32 :: rest) = ROk (path, zb 32 :: rest).
Proof.
  intros Hp. unfold ADVANCE_TOKEN.
  assert (E : advance_loop (path ++ zb 32 :: rest) = ROk (zb 32 :: rest)).
  { induction Hp as [|c path Hc _ IH]; [reflexivity|]. cbn [app advance_loop].
    destruct (path_char_sep c Hc) as [H1 H2]. rewrite eqb_ne, H2 by auto. exact IH. }
  rewrite E. cbn. rewrite slice_app. reflexivity.
Qed.

Lemma to_ctl_run v rest :
  Forall (fun c => is_ctl c = false) v -> to_ctl (v ++ zb 13 :: rest) = ROk (zb 13 :: rest).
Proof.
  induction 1 as [|c v Hc _ IH]; [reflexivity|]. cbn [app to_ctl]. rewrite to_ctl_cond, Hc. exact IH.
Qed.

Lemma get_token_run v rest :
  Forall (fun c => is_ctl c = false) v -> get_token_to_eol (v ++ CRLF ++ rest) = ROk (v, rest).
Proof.
  intros Hv. rewrite get_token_eq. cbn [CRLF app]. rewrite to_ctl_run by auto. cbn.
  rewrite slice_app. reflexivity.
Qed.

Lemma trim_id v : no_blank_ends v -> trim v = v.
Proof.
  intros [_ H]. unfold trim. rewrite <- (rev_involutive v) at 2. f_equal.
  destruct (rev v) as [|c r] eqn:E; [reflexivity|]. cbn. rewrite (H c r eq_refl). reflexivity.
Qed.

Lemma skip_blanks_run v rest :
  no_blank_ends v -> skip_blanks (zb 32 :: v ++ CRLF ++ rest) = ROk (v ++ CRLF ++ rest).
Proof.
  intros [H _]. change (skip_blanks (v ++ CRLF ++ rest) = ROk (v ++ CRLF ++ rest)).
  destruct v as [|c v]; [reflexivity|]. cbn [app skip_blanks]. rewrite (H c v eq_refl). reflexivity.
Qed.

Lemma header_run h rest :
  header_ok h -> one_header true (print_header h ++ rest) = ROk (h, rest).
Proof.
  intros [(n & Hn & Hne & Hc) Hv He]. unfold one_header, header_name, print_header. rewrite Hn. cbv [default id].
  rewrite <- !app_assoc. cbn [app]. rewrite parse_token_run by auto. cbn [mbind res_bind].
  unfold mbind, res_bind. destruct (Z.eqb_spec (zlen n) 0); [destruct n; [congruence|cbn in *; lia]|].
  rewrite skip_blanks_run by auto. rewrite get_token_run, trim_id by auto. destruct h. cbn in *. congruence.
Qed.

(** The first character of a header is a token character. *)
Lemma header_head h rest :
  header_ok h -> exists c r, print_header h ++ rest = c :: r /\ token_char_map c = true.
Proof.
  intros [(n & Hn & Hne & Hc) _ _]. unfold print_header. rewrite Hn. destruct n as [|c n]; [congruence|].
  inversion Hc; subst. cbn. eauto.
Qed.

Lemma headers_run hs rest acc max fuel :
  Forall header_ok hs -> zlen acc + zlen hs <= max ->
  (length (concat (map print_header hs) ++ CRLF ++ rest) < fuel)%nat ->
  parse_headers fuel (concat (map print_header hs) ++ CRLF ++ rest) acc max = ROk (acc ++ hs, rest).
Proof.
  intros Hh. revert acc fuel. induction Hh as [|h hs Hok _ IH]; intros acc [|fuel] Hm Hf; try lia.
  - rewrite parse_headers_S. cbn. rewrite app_nil_r. reflexivity.
  - rewrite parse_headers_S. cbn [map concat] in *. rewrite <- app_assoc in *.
    destruct (header_head h (concat (map print_header hs) ++ CRLF ++ rest) Hok) as (c & r & E & Hc).
    destruct (token_char_sep c Hc) as (_ & _ & H13 & H10). rewrite E, !eqb_ne by auto.
    rewrite eqb_ne by (cbn [length] in Hm; lia).
    assert (En : negb (negb (zlen acc =? 0) && is_blank c) = true).
    { assert (is_blank c = false) as ->; [|rewrite andb_false_r; reflexivity].
      clear -Hc. destruct c; vm_compute in *; congruence. }
    rewrite En, <- E, header_run by auto. cbn [mbind res_bind]. unfold mbind, res_bind.
    rewrite IH; [rewrite <- app_assoc; reflexivity| |].
    + rewrite length_app. cbn [length] in *. lia.
    + rewrite E in Hf. apply (f_equal length) in E. rewrite length_app in E. cbn [length] in *.
      assert (0 < length (print_header h))%nat; [|lia].
      unfold print_header. rewrite !length_app. cbn. lia.
Qed.

Lemma version_run minor rest :
  0 <= minor <= 9 -> zlen rest > 0 ->
  parse_http_version (print_version minor ++ rest) = ROk (minor, rest).
Proof.
  intros Hm Hr. unfold parse_http_version. rewrite length_app.
  destruct (Z.ltb_spec (Z.of_nat (length (print_version minor) + length rest)) 9) as [H|_]; [cbn in H; lia|].
  clear Hr. assert (Hc : minor = 0 \/ minor = 1 \/ minor = 2 \/ minor = 3 \/ minor = 4 \/ minor = 5
                  \/ minor = 6 \/ minor = 7 \/ minor = 8 \/ minor = 9) by lia.
  repeat destruct Hc as [-> | Hc]; subst; reflexivity.
Qed.

Lemma skip_spaces_run c rest : bz c <> 32 -> skip_spaces (zb 32 :: c :: rest) = ROk (c :: rest).
Proof. intros H. cbn [skip_spaces spaces_loop]. rewrite eqb_ne by auto. reflexivity. Qed.

Lemma nonempty_len {A} (l : list A) : l <> [] -> (zlen l =? 0) = false.
Proof. destruct l; [congruence|]. intros _. apply Z.eqb_neq. cbn. lia. Qed.

Lemma request_run max r body :
  request_ok max r -> parse_request (print_request r ++ body) max = ROk (r, body).
Proof.
  intros [[Hm1 Hm2] [Hp1 Hp2] Hv Hh Hc]. unfold parse_request, print_request. rewrite <- !app_assoc. cbn [app].
  destruct (rq_method r) as [|m ms] eqn:Em; [congruence|]. destruct (rq_path r) as [|q qs] eqn:Ep; [congruence|].
  assert (Hm : token_char_map m = true) by (inversion Hm2; auto).
  assert (Hq : bz q <> 32) by (inversion Hp2; subst; apply path_char_sep; auto).
  destruct (token_char_sep m Hm) as (_ & _ & H13 & H10).
  assert (Es : forall l, skip_eol (m :: l) = ROk (m :: l)).
  { intros l. cbn [skip_eol]. rewrite !eqb_ne by auto. reflexivity. }
  change ((m :: ms) ++ zb 32 :: (q :: qs) ++ ?x) with (m :: (ms ++ zb 32 :: (q :: qs) ++ x)).
  rewrite Es. cbn [mbind res_bind].
  change (m :: ms ++ ?x) with ((m :: ms) ++ x). rewrite parse_token_run by auto. cbn [mbind res_bind].
  change ((q :: qs) ++ ?x) with (q :: qs ++ x). rewrite skip_spaces_run by auto. cbn [mbind res_bind].
  change (q :: qs ++ ?x) with ((q :: qs) ++ x). rewrite advance_run by auto. cbn [mbind res_bind].
  change (print_version (rq_minor r) ++ ?x) with (zb 72 :: tl (print_version (rq_minor r)) ++ x).
  rewrite skip_spaces_run by discriminate. cbn [mbind res_bind].
  change (zb 72 :: tl (print_version (rq_minor r)) ++ ?x) with (print_version (rq_minor r) ++ x).
  rewrite !nonempty_len by discriminate. cbn [orb]. rewrite version_run by (auto; cbn; lia). cbn [mbind res_bind].
  change (version_eol (CRLF ++ ?x)) with (@ROk (list byte) x). cbn [mbind res_bind].
  change (CRLF ++ ?x) with (zb 13 :: zb 10 :: x).
  unfold mbind, res_bind. cbn [version_eol EXPECT_CHAR EXPECT_CHAR_NO_CHECK Z.eqb].
  change (bz (zb 13) =? 13) with true. change (bz (zb 10) =? 10) with true. cbv iota.
  change (zb 13 :: zb 10 :: body) with (CRLF ++ body).
  rewrite headers_run; auto. cbn [app]. destruct r. cbn in *. congruence.
Qed.

(** ** Theorems *)

(** C10: The HTTP head parsers ([phr_parse_request], [phr_parse_response],
    [phr_parse_headers]) return on every buffer, never read at or past its end,
    and answer a count of consumed bytes between 0 and the length, -1 or -2;
    this holds with the slow-loris test on, for any previous length. *)
Theorem http_parsers_safe buf max last_len :
  last_len <= zlen buf < 2 ^ 31 ->
  http_answer buf (phr_parse_request buf max last_len) /\
  http_answer buf (phr_parse_response buf max last_len) /\
  http_answer buf (phr_parse_headers buf max last_len).
Proof.
  change (2 ^ 31) with 2147483648. intros [H1 H2]. repeat split.
  - apply run_parser_safe; auto. apply parse_request_good.
  - apply run_parser_safe; auto. apply parse_response_good.
  - apply run_parser_safe; auto. apply (headers_parser_good max).
Qed.

(** Incremental parsing: whatever a parser answers on the bytes received so
    far, unless it was "incomplete" (-2), it answers again on those bytes
    followed by any others; so waiting for more data changes no verdict. *)
Theorem http_verdict_stable buf more max :
  zlen (buf ++ more) < 2 ^ 31 ->
  (phr_parse_request buf max 0 <> RFail (-2) ->
   phr_parse_request (buf ++ more) max 0 = phr_parse_request buf max 0) /\
  (phr_parse_response buf max 0 <> RFail (-2) ->
   phr_parse_response (buf ++ more) max 0 = phr_parse_response buf max 0) /\
  (phr_parse_headers buf max 0 <> RFail (-2) ->
   phr_parse_headers (buf ++ more) max 0 = phr_parse_headers buf max 0).
Proof.
  change (2 ^ 31) with 2147483648. intros H. repeat split; apply run_parser_more; auto.
  - apply parse_request_good.
  - apply parse_response_good.
  - apply (headers_parser_good max).
Qed.

(** C11: Round trip: a well-formed request, printed as
    "METHOD SP PATH SP HTTP/1.N CRLF (NAME: VALUE CRLF)* CRLF" and followed by
    any body, is read back field by field, and exactly the head is consumed. *)
Theorem http_request_roundtrip max r body :
  request_ok max r -> zlen (print_request r ++ body) < 2 ^ 31 ->
  phr_parse_request (print_request r ++ body) max 0 = ROk (zlen (print_request r), r).
Proof.
  change (2 ^ 31) with 2147483648. intros Hr Hl. unfold phr_parse_request, run_parser. cbn [Z.eqb].
  cbn [mbind res_bind]. rewrite request_run by auto. cbn [mbind res_bind]. rewrite length_app in *.
  unfold mbind, res_bind. rewrite (swrap_id 32) by (zpow; lia). f_equal. f_equal. lia.
Qed.

Definition demo_request : request :=
  mkReq [zb 71; zb 69; zb 84] [zb 47] 1 [mkHdr (Some [zb 72]) [zb 97; zb 32; zb 98]].

Lemma demo_request_ok : request_ok 100 demo_request.
Proof.
  constructor; cbn [demo_request rq_method rq_path rq_minor rq_headers].
  - split; [discriminate|]. repeat constructor.
  - split; [discriminate|]. repeat constructor.
  - lia.
  - constructor; [|constructor]. constructor; cbn [hd_name hd_value].
    + exists [zb 72]. split; [reflexivity|]. split; [discriminate|]. repeat constructor.
    + repeat constructor.
    + split; intros c r H; injection H as <- _; reflexivity.
  - cbn. lia.
Qed.

Lemma http_parsers_safe_witness :
  0 <= zlen (print_request demo_request) < 2 ^ 31 /\
  http_answer (print_request demo_request) (phr_parse_request (print_request demo_request) 2 0).
Proof.
  assert (H : 0 <= zlen (print_request demo_request) < 2 ^ 31) by (split; reflexivity || discriminate).
  split; [exact H|]. exact (proj1 (http_parsers_safe (print_request demo_request) 2 0 H)).
Defined.

Lemma http_verdict_stable_witness :
  phr_parse_request (print_request demo_request ++ [zb 0]) 2 0 =
  phr_parse_request (print_request demo_request) 2 0.
Proof.
  apply (proj1 (http_verdict_stable (print_request demo_request) [zb 0] 2 ltac:(reflexivity))). discriminate.
Defined.

Lemma http_request_roundtrip_witness :
  phr_parse_request (print_request demo_request ++ [zb 7]) 100 0 =
  ROk (zlen (print_request demo_request), demo_request).
Proof. apply (http_request_roundtrip 100 demo_request [zb 7] demo_request_ok). reflexivity. Defined.
