(* ===== verification/DispatchRead.v ===== *)
(** * The dispatch server's read loop

    The loop of src/dispatch.cpp that receives a request: its static buffer,
    the calls of [recv] and of [phr_parse_request], and what a request that
    arrives in one or several pieces meets. *)

From Stdlib Require Import Strings.String.
From S2P Require Import Prelude Http HttpFacts HttpProps.

(** ** The loop *)

Definition buf_len : Z := 16 * 1024.
Definition _hdr_cnt : Z := 128.

(** What one call of [recv] gives. *)
Inductive recv_event := Recv (bytes : list byte) | Closed | RecvError.

(** How the loop is left: the client closed, the request was parsed ([pret] and
    its parts), or [write_rsp] with a status; [Waiting] after the last event. *)
Inductive read_outcome := ClientClosed | Parsed (pret : Z) (r : request) | Respond (status : Z) | Waiting.

(** [recv] writes at [pkt_buf + actual_len]; the buffer is never cleared. *)
Definition recv_into (pkt_buf : list byte) (actual_len : Z) (bytes : list byte) : list byte :=
  ztake actual_len pkt_buf ++ bytes ++ zdrop (actual_len + zlen bytes) pkt_buf.

(** The bytes [recv] may return: at least one, at most what it was asked for. *)
Definition recv_fits (actual_len : Z) (bytes : list byte) : bool :=
  (1 <=? zlen bytes) && (zlen bytes <=? buf_len - actual_len).

Fixpoint read_loop (pkt_buf : list byte) (actual_len : Z) (evs : list recv_event) : list byte * read_outcome :=
  match evs with
  | [] => (pkt_buf, Waiting)
  | Closed :: _ => (pkt_buf, ClientClosed)
  | RecvError :: evs => read_loop pkt_buf actual_len evs
  | Recv bytes :: evs =>
      let pkt_buf := recv_into pkt_buf actual_len bytes in
      let prev_len := actual_len in
      let actual_len := actual_len + zlen bytes in
      match phr_parse_request pkt_buf _hdr_cnt prev_len with
      | ROk (pret, r) => (pkt_buf, Parsed pret r)
      | RFail pret =>
          if pret =? -1 then (pkt_buf, Respond 400)
          else if pret <? -2 then (pkt_buf, Respond 500)
          else if buf_len <=? actual_len then (pkt_buf, Respond 413)
          else read_loop pkt_buf actual_len evs
      | RBad => (pkt_buf, Waiting)
      end
  end.

(** ** Zero bytes end every parser *)

Definition zeros (z : list byte) : Prop := Forall (fun c => bz c = 0) z /\ 9 <= zlen z.

(** On zeros the parser fails, or (unless [strict]) passes them on. *)
Definition kills {A} (strict : bool) (p : list byte -> res (A * list byte)) : Prop :=
  forall z, zeros z -> p z = RFail (-1) \/ strict = false /\ exists a, p z = ROk (a, z).

(** The same after a prefix that was incomplete. *)
Definition dead {A} (strict : bool) (n : Z) (p : list byte -> res (A * list byte)) : Prop :=
  forall buf z, n <= zlen buf -> zeros z -> p buf = RFail (-2) ->
  p (buf ++ z) = RFail (-1) \/ strict = false /\ exists a, p (buf ++ z) = ROk (a, z).

Definition lift (p : list byte -> res (list byte)) : list byte -> res (unit * list byte) :=
  fun b => rest ← p b; ROk (tt, rest).

Lemma dead_bind {A B} s s' n m (p : list byte -> res (A * list byte)) (f : A -> list byte -> res (B * list byte)) :
  good n m p -> dead s' n p -> (s' = false -> forall a, kills s (f a)) -> (forall a, dead s m (f a)) ->
  dead s n (fun b => '(a, b) ← p b; f a b).
Proof.
  intros Hg Hp Hk Hf buf z Hn Hz. specialize (Hg buf Hn). unfold mbind, res_bind.
  destruct (p buf) as [[a rest]|e|] eqn:E; try discriminate.
  - destruct Hg as (_ & Hl & Hm). rewrite Hm. intros H. apply (Hf a rest z Hl Hz H).
  - intros [= ->]. destruct (Hp buf z Hn Hz E) as [-> | (Hs & a & ->)]; [auto|]. apply (Hk Hs a z Hz).
Qed.

Lemma kills_bind {A B} s s' (p : list byte -> res (A * list byte)) (f : A -> list byte -> res (B * list byte)) :
  kills s' p -> (s' = false -> forall a, kills s (f a)) -> kills s (fun b => '(a, b) ← p b; f a b).
Proof.
  intros Hp Hf z Hz. unfold mbind, res_bind. destruct (Hp z Hz) as [-> | (Hs & a & ->)]; [auto|apply (Hf Hs a z Hz)].
Qed.

Lemma lift_bind {B} (p : list byte -> res (list byte)) (f : list byte -> res (B * list byte)) b :
  (b ← p b; f b) = ('(_, b) ← lift p b; f b).
Proof. unfold lift, mbind, res_bind. destruct (p b); reflexivity. Qed.

Lemma dead_ext {A} s n (p q : list byte -> res (A * list byte)) :
  (forall b, q b = p b) -> dead s n p -> dead s n q.
Proof. intros E H buf z. rewrite !E. apply H. Qed.

Lemma kills_ext {A} s (p q : list byte -> res (A * list byte)) :
  (forall b, q b = p b) -> kills s p -> kills s q.
Proof. intros E H z. rewrite E. apply H. Qed.

Lemma dead_weaken {A} s n (p : list byte -> res (A * list byte)) : dead s 0 p -> dead s n p.
Proof. intros H buf z _. apply H. lia. Qed.

Lemma dead_bindu {B} s s' n m (p : list byte -> res (list byte)) (f : list byte -> res (B * list byte)) :
  goodu n m p -> dead s' n (lift p) -> (s' = false -> kills s f) -> dead s m f -> dead s n (fun b => b ← p b; f b).
Proof.
  intros. eapply dead_ext; [intros b; apply lift_bind|]. eapply (dead_bind s s' n m (lift p) (fun _ => f)); auto.
Qed.

Lemma kills_bindu {B} s s' (p : list byte -> res (list byte)) (f : list byte -> res (B * list byte)) :
  kills s' (lift p) -> (s' = false -> kills s f) -> kills s (fun b => b ← p b; f b).
Proof. intros. eapply kills_ext; [intros b; apply lift_bind|]. eapply (kills_bind s s' (lift p) (fun _ => f)); auto. Qed.

Lemma zeros_cons z : zeros z -> exists c r, z = c :: r /\ bz c = 0.
Proof. intros [H1 H2]. destruct z as [|c r]; [cbn in H2; lia|]. inversion H1; subst. eauto. Qed.

Lemma byte_zero c : bz c = 0 -> c = zb 0.
Proof. intros H. destruct c; vm_compute in *; congruence. Qed.

(** ** The parsers *)

Ltac on_zeros := let z := fresh "z" in let Hz := fresh "Hz" in
  intros z Hz; destruct (zeros_cons z Hz) as (? & ? & -> & ?%byte_zero); subst; cbn; eauto.

Lemma token_kills next : next = 32 \/ next = 58 -> kills true (parse_token next).
Proof. intros [-> | ->]; on_zeros. Qed.

Lemma token_dead next : next = 32 \/ next = 58 -> dead true 0 (parse_token next).
Proof.
  intros Hn buf z _ Hz. destruct (zeros_cons z Hz) as (c & r & -> & ->%byte_zero). unfold parse_token, mbind, res_bind.
  destruct (token_loop next buf) eqn:E; try discriminate. intros [= ->]. left.
  assert (token_loop next (buf ++ zb 0 :: r) = RFail (-1)) as ->; [|reflexivity].
  induction buf as [|c buf IH]; cbn [app token_loop] in *.
  { destruct Hn as [-> | ->]; reflexivity. }
  destruct (bz c =? next); [discriminate|]. destruct (negb _); [discriminate|auto].
Qed.

Lemma advance_kills : kills true ADVANCE_TOKEN.
Proof. on_zeros. Qed.

Lemma advance_dead : dead true 0 ADVANCE_TOKEN.
Proof.
  intros buf z _ Hz. destruct (zeros_cons z Hz) as (c & r & -> & ->%byte_zero). unfold ADVANCE_TOKEN, mbind, res_bind.
  destruct (advance_loop buf) eqn:E; try discriminate. intros [= ->]. left.
  assert (advance_loop (buf ++ zb 0 :: r) = RFail (-1)) as ->; [|reflexivity].
  induction buf as [|c buf IH]; cbn [app advance_loop] in *; [reflexivity|].
  destruct (bz c =? 32); [discriminate|]. destruct (_ && _); [discriminate|auto].
Qed.

Lemma skip_eol_kills : kills false (lift skip_eol).
Proof. on_zeros. Qed.

Lemma skip_eol_dead : dead false 0 (lift skip_eol).
Proof.
  intros buf z _ Hz. destruct (zeros_cons z Hz) as (c & r & -> & ->%byte_zero).
  destruct buf as [|d buf]; [cbn; eauto|]. unfold lift, mbind, res_bind. cbn [app skip_eol].
  destruct (bz d =? 13); [|destruct (bz d =? 10); discriminate].
  destruct buf as [|e buf]; [cbn; auto|]. cbn [app EXPECT_CHAR EXPECT_CHAR_NO_CHECK].
  destruct (bz e =? 10); discriminate.
Qed.

Lemma spaces_loop_dead buf z :
  zeros z -> spaces_loop buf = RFail (-2) -> spaces_loop (buf ++ z) = ROk z.
Proof.
  intros Hz. destruct (zeros_cons z Hz) as (c & r & -> & ->%byte_zero).
  induction buf as [|c buf IH]; cbn [app spaces_loop]; [reflexivity|]. destruct (bz c =? 32); [auto|discriminate].
Qed.

Lemma skip_spaces_dead : dead false 1 (lift skip_spaces).
Proof.
  intros buf z Hn Hz. destruct buf as [|c buf]; [cbn in Hn; lia|]. unfold lift, mbind, res_bind. cbn [app skip_spaces].
  destruct (spaces_loop buf) eqn:E; try discriminate. intros [= ->]. rewrite (spaces_loop_dead buf z Hz E). eauto.
Qed.

Lemma skip_blanks_dead : dead false 0 (lift skip_blanks).
Proof.
  intros buf z _ Hz. unfold lift, mbind, res_bind.
  destruct (skip_blanks buf) eqn:E; try discriminate. intros [= ->].
  assert (skip_blanks (buf ++ z) = ROk z) as ->; [|eauto].
  destruct (zeros_cons z Hz) as (c & r & -> & ->%byte_zero).
  induction buf as [|c buf IH]; cbn [app skip_blanks] in *; [reflexivity|]. destruct (negb _); [discriminate|auto].
Qed.

Lemma version_kills : kills true parse_http_version.
Proof.
  intros z Hz. left. unfold parse_http_version. destruct (Z.ltb_spec (zlen z) 9) as [H|_]; [destruct Hz; lia|].
  destruct (zeros_cons z Hz) as (c & r & -> & ->%byte_zero). reflexivity.
Qed.

Lemma expect_complete {B} ch b (f : list byte -> res (B * list byte)) :
  (forall r, f r <> RFail (-2)) -> (b ← EXPECT_CHAR_NO_CHECK ch b; f b) <> RFail (-2).
Proof.
  intros Hf. unfold mbind, res_bind. destruct b as [|c b]; [discriminate|]. cbn [EXPECT_CHAR_NO_CHECK].
  destruct (bz c =? ch); [apply Hf|discriminate].
Qed.

Lemma version_dead : dead false 0 parse_http_version.
Proof.
  intros buf z _ Hz. unfold parse_http_version at 1. destruct (Z.ltb_spec (zlen buf) 9) as [Hb|_].
  2:{ intros H. exfalso. revert H. repeat (apply expect_complete; intros ?).
      unfold PARSE_INT. repeat case_match; discriminate. }
  intros _. unfold parse_http_version. destruct (Z.ltb_spec (zlen (buf ++ z)) 9) as [H|_].
  { destruct Hz as [_ Hz]. rewrite length_app in H. lia. }
  destruct (zeros_cons z Hz) as (c & r & -> & ->%byte_zero).
  do 9 (destruct buf as [|? buf];
    [unfold mbind, res_bind; repeat (
       cbn [app EXPECT_CHAR_NO_CHECK PARSE_INT]; change (bz (zb 0)) with 0; cbn [Z.eqb Z.ltb Z.compare orb];
       match goal with |- context [if ?b then _ else _] => destruct b end);
     first [left; reflexivity | right; split; [reflexivity|eexists; reflexivity]]|]).
  exfalso. cbn [length] in Hb. lia.
Qed.

Lemma version_eol_kills : kills true (lift version_eol).
Proof. on_zeros. Qed.

Lemma version_eol_dead : dead true 1 (lift version_eol).
Proof.
  intros buf z Hn Hz. destruct buf as [|c buf]; [cbn in Hn; lia|]. unfold lift, mbind, res_bind. cbn [app version_eol].
  destruct (bz c =? 13); [|destruct (bz c =? 10); discriminate].
  destruct (zeros_cons z Hz) as (d & r & -> & ->%byte_zero).
  destruct buf as [|e buf]; [cbn; auto|]. cbn [app EXPECT_CHAR EXPECT_CHAR_NO_CHECK].
  destruct (bz e =? 10); discriminate.
Qed.

(** ** Headers *)

Lemma eol_kills : kills true get_token_to_eol.
Proof.
  intros z Hz. left. rewrite get_token_eq. destruct (zeros_cons z Hz) as (c & r & -> & ->%byte_zero). reflexivity.
Qed.

Lemma eol_dead : dead true 0 get_token_to_eol.
Proof.
  intros buf z _ Hz. rewrite !get_token_eq. pose proof (goodu_elim 0 1 _ buf to_ctl_good ltac:(lia)) as H.
  destruct (zeros_cons z Hz) as (c & r & -> & ->%byte_zero). unfold mbind, res_bind in *.
  destruct (to_ctl buf) as [b|e|] eqn:E; try discriminate.
  - destruct H as (_ & _ & Hm). rewrite Hm. unfold eol_of. destruct b as [|d b]; [discriminate|]. cbn [app].
    destruct (bz d =? 13); [|destruct (bz d =? 10); discriminate]. unfold mbind, res_bind.
    destruct b as [|f b]; [cbn; auto|]. cbn [app EXPECT_CHAR EXPECT_CHAR_NO_CHECK]. destruct (bz f =? 10); discriminate.
  - intros [= ->]. left. assert (to_ctl (buf ++ zb 0 :: r) = ROk (zb 0 :: r)) as ->; [|reflexivity].
    clear H. induction buf as [|d buf IH]; cbn [app to_ctl] in *; [reflexivity|].
    destruct (_ && _); [discriminate|auto].
Qed.

Lemma ret_dead {A} s n (a : A) : dead s n (fun b => ROk (a, b)).
Proof. intros buf z _ _. discriminate. Qed.

Lemma header_name_kills : kills true header_name.
Proof.
  unfold header_name. eapply kills_bind; [apply token_kills; auto|]. discriminate.
Qed.

Lemma header_name_dead : dead false 0 header_name.
Proof.
  unfold header_name. eapply dead_bind; [apply parse_token_good|apply token_dead; auto|discriminate|].
  intros name buf z Hn Hz. destruct (zlen name =? 0); [discriminate|].
  destruct buf as [|c buf]; [cbn in Hn; lia|]. cbn [app]. intros H. revert H.
  apply (dead_bindu false false 0 1 skip_blanks (fun b => ROk (Some name, b)));
    [apply skip_blanks_good|apply skip_blanks_dead| |apply ret_dead|lia|auto].
  intros _ z' _. right. eauto.
Qed.

Lemma one_header_kills named : kills true (one_header named).
Proof.
  unfold one_header. eapply (kills_bind true named).
  - destruct named; [apply header_name_kills|]. intros z _. right. eauto.
  - intros _ name. eapply kills_bind; [apply eol_kills|]. discriminate.
Qed.

Lemma one_header_dead named : dead true 0 (one_header named).
Proof.
  unfold one_header. eapply (dead_bind true false 0 0).
  - apply good_if; [eapply good_weaken; [| |apply header_name_good]; lia|apply good_ret; lia].
  - destruct named; [apply header_name_dead|apply ret_dead].
  - intros _ name. eapply kills_bind; [apply eol_kills|]. discriminate.
  - intros name. eapply dead_bind; [apply get_token_good|apply eol_dead|discriminate|]. intros. apply ret_dead.
Qed.

Lemma headers_kill fuel headers max z : zeros z -> parse_headers (S fuel) z headers max = RFail (-1).
Proof.
  intros Hz. rewrite parse_headers_S. pose proof (one_header_kills) as H.
  destruct (zeros_cons z Hz) as (c & r & -> & ->%byte_zero). cbn [Z.eqb]. change (bz (zb 0)) with 0. cbn [Z.eqb].
  destruct (zlen headers =? max); auto. unfold mbind, res_bind.
  destruct (H (negb (negb (zlen headers =? 0) && is_blank (zb 0))) _ Hz) as [-> | [? _]]; [auto|discriminate].
Qed.

Lemma headers_dead fuel buf headers max z :
  (length buf < fuel)%nat -> zeros z -> parse_headers fuel buf headers max = RFail (-2) ->
  forall fuel', (length (buf ++ z) < fuel')%nat -> parse_headers fuel' (buf ++ z) headers max = RFail (-1).
Proof.
  revert buf headers. induction fuel as [|fuel IH]; intros buf headers Hf Hz H [|fuel'] Hf'; try lia.
  destruct buf as [|c rest]; [apply headers_kill; auto|]. cbn [app length] in *.
  rewrite parse_headers_S in H |- *. destruct (zeros_cons z Hz) as (d & r & Ez & ->%byte_zero).
  destruct (bz c =? 13).
  { revert H. unfold mbind, res_bind. destruct rest as [|e rest]; [rewrite Ez; reflexivity|].
    cbn [app EXPECT_CHAR EXPECT_CHAR_NO_CHECK]. destruct (bz e =? 10); discriminate. }
  destruct (bz c =? 10); [discriminate|]. destruct (zlen headers =? max); [discriminate|].
  set (named := negb _) in *. pose proof (one_header_good named (c :: rest) ltac:(lia)) as Hg.
  pose proof (one_header_dead named (c :: rest) z ltac:(lia) Hz) as Hd.
  change (c :: rest ++ z) with ((c :: rest) ++ z). unfold mbind, res_bind in *.
  destruct (one_header named (c :: rest)) as [[h b]|e|] eqn:E; [|injection H as ->|discriminate].
  - apply one_header_shrinks in E. cbn [length] in E. destruct Hg as (_ & _ & Hm). rewrite Hm.
    rewrite length_app in Hf'. apply IH; auto; [lia|rewrite length_app; lia].
  - destruct (Hd eq_refl) as [-> | [? _]]; [reflexivity|discriminate].
Qed.

(** ** Requests *)

Lemma request_dead max : dead true 0 (fun b => parse_request b max).
Proof.
  unfold parse_request. eapply dead_bindu; [apply skip_eol_good|apply skip_eol_dead| |].
  { intros _. eapply kills_bind; [apply token_kills; auto|discriminate]. }
  eapply dead_bind; [apply parse_token_good|apply token_dead; auto|discriminate|]. intros method.
  eapply dead_bindu; [apply skip_spaces_good|apply skip_spaces_dead| |].
  { intros _. eapply kills_bind; [apply advance_kills|discriminate]. }
  eapply (dead_bind true true 1 1);
    [eapply good_weaken; [| |apply ADVANCE_TOKEN_good]; lia|apply dead_weaken, advance_dead|discriminate|].
  intros path. eapply dead_bindu; [apply skip_spaces_good|apply skip_spaces_dead| |].
  { intros _. intros z Hz. destruct (_ || _); [auto|]. revert z Hz.
    eapply kills_bind; [apply version_kills|discriminate]. }
  intros b z Hb Hz. destruct (_ || _); [discriminate|]. revert b z Hb Hz.
  eapply (dead_bind true false 1 1);
    [eapply good_weaken; [| |apply parse_http_version_good]; lia|apply dead_weaken, version_dead| |].
  { intros _ minor. eapply kills_bindu; [apply version_eol_kills|discriminate]. }
  intros minor. eapply dead_bindu; [apply version_eol_good|apply version_eol_dead|discriminate|].
  intros b z _ Hz. unfold mbind, res_bind.
  destruct (parse_headers (S (length b)) b [] max) as [[h r]|e|] eqn:E; try discriminate. intros [= ->].
  rewrite (headers_dead (S (length b)) b [] max z ltac:(lia) Hz E); [auto|lia].
Qed.

(** A proper prefix of a printed request is incomplete. *)
Lemma prefix_incomplete max r p q :
  request_ok max r -> print_request r = p ++ q -> q <> [] -> parse_request p max = RFail (-2).
Proof.
  intros Hr E Hq. pose proof (request_run max r [] Hr) as H. rewrite app_nil_r, E in H.
  pose proof (parse_request_good max p ltac:(lia)) as Hg. cbv beta in Hg.
  destruct (parse_request p max) as [[a rest]|e|].
  - destruct Hg as (_ & _ & Hm). rewrite Hm in H. injection H as _ H. apply app_nil in H. tauto.
  - destruct Hg as [[-> Hm]| ->]; [|reflexivity]. rewrite Hm in H. discriminate.
  - destruct Hg.
Qed.

Lemma zeros_replicate n : (9 <= n)%nat -> zeros (replicate n (zb 0)).
Proof.
  intros Hn. split; [|rewrite length_replicate; lia]. apply Forall_replicate. reflexivity.
Qed.

Lemma recv_first pkt_buf bytes : recv_into pkt_buf 0 bytes = bytes ++ zdrop (zlen bytes) pkt_buf.
Proof. reflexivity. Qed.

Lemma first_parse buf max r rest :
  zlen buf < 2147483648 -> parse_request buf max = ROk (r, rest) ->
  phr_parse_request buf max 0 = ROk (zlen buf - zlen rest, r).
Proof.
  intros Hl H. unfold phr_parse_request, run_parser. cbn [Z.eqb]. cbn [mbind res_bind]. rewrite H.
  pose proof (parse_request_good max buf ltac:(lia)) as Hg. cbv beta in Hg. rewrite H in Hg.
  destruct Hg as (Hs%suffix_len & _). unfold mbind, res_bind. rewrite (swrap_id 32) by (zpow; lia). reflexivity.
Qed.

Lemma recv_into_len pkt_buf actual bytes :
  zlen pkt_buf = buf_len -> 0 <= actual -> recv_fits actual bytes = true ->
  zlen (recv_into pkt_buf actual bytes) = buf_len.
Proof.
  intros Hl Ha Hf. unfold recv_fits in Hf. apply andb_true_iff in Hf as [H1%Z.leb_le H2%Z.leb_le].
  unfold recv_into. rewrite !length_app, length_take, length_drop. lia.
Qed.

(** ** Theorems *)

Definition events_fit (actual_len : Z) (evs : list recv_event) : Prop :=
  forall pre bytes post, evs = pre ++ Recv bytes :: post ->
  recv_fits (actual_len + zlen (concat (map (fun e => match e with Recv b => b | _ => [] end) pre))) bytes = true.

(** The loop keeps the buffer's size, and answers one of the statuses it
    names: the parser is never asked to read past the buffer, nor gives an
    error other than -1 or -2. *)
(** The read loop of the dispatch server keeps [pkt_buf] at its size and
    within its bounds whatever [recv] returns, and is left only by a parsed
    request, a closed connection, or the statuses 400 and 413: the 500 branch
    ("this should never happen") is dead. *)
Theorem read_loop_outcomes pkt_buf actual evs :
  zlen pkt_buf = buf_len -> 0 <= actual <= buf_len -> events_fit actual evs ->
  let (pkt_buf', o) := read_loop pkt_buf actual evs in
  zlen pkt_buf' = buf_len /\
  match o with
  | Parsed pret _ => 0 <= pret <= buf_len
  | Respond status => status = 400 \/ status = 413
  | ClientClosed => exists pre post, evs = pre ++ Closed :: post
  | Waiting => forall pre post, evs <> pre ++ Closed :: post
  end.
Proof.
  revert pkt_buf actual. induction evs as [|ev evs IH]; intros pkt_buf actual Hl Ha Hfit; cbn [read_loop].
  { split; auto. intros [|? ?] ?; discriminate. }
  destruct ev as [bytes| |]; [|split; [auto|exists [], evs; auto]|].
  - assert (Hf : recv_fits actual bytes = true).
    { specialize (Hfit [] bytes evs eq_refl). cbn in Hfit. rewrite Z.add_0_r in Hfit. exact Hfit. }
    pose proof (recv_into_len pkt_buf actual bytes Hl ltac:(lia) Hf) as Hl'.
    set (pb := recv_into pkt_buf actual bytes) in *.
    unfold recv_fits in Hf. apply andb_true_iff in Hf as [Hf1%Z.leb_le Hf2%Z.leb_le].
    assert (Hs : http_answer pb (phr_parse_request pb _hdr_cnt actual)).
    { apply run_parser_safe; [apply parse_request_good|lia|rewrite Hl'; reflexivity]. }
    destruct (phr_parse_request pb _hdr_cnt actual) as [[pret r]|e|]; [split; auto; unfold http_answer in Hs; lia| |destruct Hs].
    destruct Hs as [-> | ->]; [cbn; auto|].
    change (-2 =? -1) with false. change (-2 <? -2) with false. cbv iota.
    destruct (Z.leb_spec buf_len (actual + zlen bytes)); [auto|].
    assert (Hfit' : events_fit (actual + zlen bytes) evs).
    { intros pre b post ->. specialize (Hfit (Recv bytes :: pre) b post eq_refl). cbn [map concat] in Hfit.
      rewrite length_app in Hfit. rewrite <- Hfit. f_equal. lia. }
    specialize (IH pb (actual + zlen bytes) Hl' ltac:(lia) Hfit').
    destruct (read_loop pb (actual + zlen bytes) evs) as [pb' o]. destruct IH as [I1 I2].
    split; auto. destruct o; auto.
    + destruct I2 as (pre & post & ->). exists (Recv bytes :: pre), post. reflexivity.
    + intros [|? pre] post [= _ He]. exact (I2 pre post He).
  - assert (Hfit' : events_fit actual evs).
    { intros pre b post ->. apply (Hfit (RecvError :: pre) b post eq_refl). }
    specialize (IH pkt_buf actual Hl Ha Hfit').
    destruct (read_loop pkt_buf actual evs) as [pb' o]. destruct IH as [I1 I2].
    split; auto. destruct o; auto.
    + destruct I2 as (pre & post & ->). exists (RecvError :: pre), post. reflexivity.
    + intros [|? pre] post [= _ He]. exact (I2 pre post He).
Qed.

(** A well-formed request with at most 128 headers that arrives in one piece
    (with any body, and whatever earlier connections left in the buffer) is
    parsed: the loop stops with its fields and the offset of its body. *)
Theorem read_loop_whole_request pkt_buf r body evs :
  zlen pkt_buf = buf_len -> request_ok _hdr_cnt r ->
  recv_fits 0 (print_request r ++ body) = true ->
  read_loop pkt_buf 0 (Recv (print_request r ++ body) :: evs) =
  (recv_into pkt_buf 0 (print_request r ++ body), Parsed (zlen (print_request r)) r).
Proof.
  intros Hl Hr Hf. pose proof (recv_into_len pkt_buf 0 _ Hl ltac:(lia) Hf) as Hl'. cbn [read_loop].
  rewrite recv_first, <- app_assoc in *. rewrite (first_parse _ _ r (body ++ zdrop (zlen (print_request r ++ body)) pkt_buf)).
  - f_equal. f_equal. rewrite length_app. lia.
  - rewrite Hl'. reflexivity.
  - apply request_run; auto.
Qed.

(** The parser is given [buf_len], the capacity of the buffer, as the length
    of the data (dispatch.cpp), not [actual_len]: on the server's first
    connection, whose buffer is still zero, every well-formed request whose head
    does not arrive in a single [recv] is answered 400, although the parser
    calls the bytes received so far incomplete (-2). *)
Theorem read_loop_rejects_split_request r p q evs :
  request_ok _hdr_cnt r -> print_request r = p ++ q -> q <> [] -> zlen p + 9 <= buf_len ->
  phr_parse_request p _hdr_cnt 0 = RFail (-2) /\
  snd (read_loop (replicate (Z.to_nat buf_len) (zb 0)) 0 (Recv p :: evs)) = Respond 400.
Proof.
  intros Hr E Hq Hl. pose proof (prefix_incomplete _ _ _ _ Hr E Hq) as H2. split.
  { unfold phr_parse_request, run_parser. cbn [Z.eqb]. cbn [mbind res_bind]. rewrite H2. reflexivity. }
  cbn [read_loop]. rewrite recv_first. rewrite Nat2Z.id, drop_replicate.
  set (z := replicate _ _). assert (Hz : zeros z) by (apply zeros_replicate; lia).
  assert (phr_parse_request (p ++ z) _hdr_cnt 0 = RFail (-1)) as ->; [|reflexivity].
  unfold phr_parse_request, run_parser. cbn [Z.eqb]. cbn [mbind res_bind].
  destruct (request_dead _hdr_cnt p z ltac:(lia) Hz H2) as [-> | [? _]]; [reflexivity|discriminate].
Qed.

(** ** A reply left in the buffer

    [snprintf] writes the reply into [pkt_buf] itself. *)
Definition eol : list byte := CRLF.

Definition left_reply : list byte :=
  bytes_of "HTTP/1.1 200 OK" ++ eol ++ bytes_of "Content-Length: 0" ++ eol
  ++ bytes_of "Connection: close" ++ eol ++ eol.

Definition used_buf : list byte :=
  left_reply ++ replicate (Z.to_nat buf_len - length left_reply) (zb 0).

(** The buffer is not cleared between connections, and the reply to one client
    is formatted into it: when the next client has sent only its request line,
    without the line end, the loop takes the header lines of the previous reply
    for that client's and goes on to answer the request. *)
Theorem read_loop_reads_stale_reply :
  zlen used_buf = buf_len /\
  phr_parse_request (bytes_of "GET /a HTTP/1.1") _hdr_cnt 0 = RFail (-2) /\
  snd (read_loop used_buf 0 [Recv (bytes_of "GET /a HTTP/1.1")]) =
    Parsed (zlen left_reply)
      (mkReq (bytes_of "GET") (bytes_of "/a") 1
        [mkHdr (Some (bytes_of "Content-Length")) (bytes_of "0");
         mkHdr (Some (bytes_of "Connection")) (bytes_of "close")]).
Proof. split; [vm_compute; reflexivity|]. split; vm_compute; reflexivity. Qed.

(** ** Witnesses *)

Lemma demo_request_ok' : request_ok _hdr_cnt demo_request.
Proof. destruct demo_request_ok as [H1 H2 H3 H4 H5]. constructor; auto. Qed.

Lemma read_loop_outcomes_witness :
  zlen used_buf = buf_len /\
  zlen (fst (read_loop used_buf 0 [RecvError; Closed])) = buf_len.
Proof.
  assert (H : zlen used_buf = buf_len) by (vm_compute; reflexivity). split; [exact H|].
  assert (He : events_fit 0 [RecvError; Closed]).
  { intros pre b post E. destruct pre as [|? [|? [|? ?]]]; discriminate. }
  exact (proj1 (read_loop_outcomes used_buf 0 [RecvError; Closed] H ltac:(split; vm_compute; discriminate) He)).
Defined.

Lemma read_loop_whole_request_witness :
  snd (read_loop used_buf 0 [Recv (print_request demo_request ++ [])]) =
  Parsed (zlen (print_request demo_request)) demo_request.
Proof.
  assert (H : zlen used_buf = buf_len) by (vm_compute; reflexivity).
  rewrite (read_loop_whole_request used_buf demo_request [] [] H demo_request_ok' ltac:(reflexivity)). reflexivity.
Defined.

Lemma read_loop_rejects_split_request_witness :
  snd (read_loop (replicate (Z.to_nat buf_len) (zb 0)) 0
         [Recv (take 9 (print_request demo_request)); Recv (drop 9 (print_request demo_request))]) = Respond 400.
Proof.
  refine (proj2 (read_loop_rejects_split_request demo_request (take 9 (print_request demo_request))
    (drop 9 (print_request demo_request)) [Recv (drop 9 (print_request demo_request))] demo_request_ok' _ _ _)).
  - symmetry. apply take_drop.
  - discriminate.
  - vm_compute. discriminate.
Defined.
