(* ===== verification/HttpChunked.v ===== *)
(** * Chunked bodies

    [phr_decode_chunked] of src/http.c: the resumable decoder that removes the
    chunk headers in place. *)

From S2P Require Import Prelude.

Inductive chunked_state :=
| CHUNKED_IN_CHUNK_SIZE
| CHUNKED_IN_CHUNK_EXT
| CHUNKED_IN_CHUNK_DATA
| CHUNKED_IN_CHUNK_CRLF
| CHUNKED_IN_TRAILERS_LINE_HEAD
| CHUNKED_IN_TRAILERS_LINE_MIDDLE.

Record phr_chunked_decoder := mkDec {
  bytes_left_in_chunk : Z;
  consume_trailer : bool;
  _hex_count : Z;
  _state : chunked_state;
  _total_read : Z;
  _total_overhead : Z
}.

Definition set_left (n : Z) (d : phr_chunked_decoder) :=
  mkDec n (consume_trailer d) (_hex_count d) (_state d) (_total_read d) (_total_overhead d).
Definition set_hex (n : Z) (d : phr_chunked_decoder) :=
  mkDec (bytes_left_in_chunk d) (consume_trailer d) n (_state d) (_total_read d) (_total_overhead d).
Definition set_state (s : chunked_state) (d : phr_chunked_decoder) :=
  mkDec (bytes_left_in_chunk d) (consume_trailer d) (_hex_count d) s (_total_read d) (_total_overhead d).
Definition set_read (n : Z) (d : phr_chunked_decoder) :=
  mkDec (bytes_left_in_chunk d) (consume_trailer d) (_hex_count d) (_state d) n (_total_overhead d).
Definition set_overhead (n : Z) (d : phr_chunked_decoder) :=
  mkDec (bytes_left_in_chunk d) (consume_trailer d) (_hex_count d) (_state d) (_total_read d) n.

Definition decode_hex (ch : Z) : Z :=
  if (48 <=? ch) && (ch <=? 57) then ch - 48
  else if (65 <=? ch) && (ch <=? 70) then ch - 65 + 10
  else if (97 <=? ch) && (ch <=? 102) then ch - 97 + 10
  else -1.

(** [memmove(buf + dst, buf + src, n)] on the whole buffer. *)
Definition memmove (buf : list byte) (dst src n : Z) : list byte :=
  ztake dst buf ++ ztake n (zdrop src buf) ++ zdrop (dst + n) buf.

(** The locals of the call, and how a case of the switch ends: [goto Exit] with
    [ret], [goto Complete], or the next round (a fall through is the next round
    in the state just set). *)
Record locals := mkLoc { dec : phr_chunked_decoder; buf : list byte; dst : Z; src : Z }.

Inductive outcome := Exit (ret : Z) (l : locals) | Complete (l : locals) | Loop (l : locals).

Definition set_dec (d : phr_chunked_decoder) (l : locals) := mkLoc d (buf l) (dst l) (src l).
Definition set_src (n : Z) (l : locals) := mkLoc (dec l) (buf l) (dst l) n.

(** The loops over [src] see the unread bytes [rest]; [src] is their offset. *)
Fixpoint size_loop (rest : list byte) (l : locals) : outcome :=
  match rest with
  | [] => Exit (-2) l
  | c :: rest =>
      let v := decode_hex (sbz c) in
      if v =? -1 then
        if _hex_count (dec l) =? 0 then Exit (-1) l
        else if (sbz c =? 32) || (sbz c =? 9) || (sbz c =? 59) || (sbz c =? 10) || (sbz c =? 13) then
          Loop (set_dec (set_state CHUNKED_IN_CHUNK_EXT (set_hex 0 (dec l))) l)
        else Exit (-1) l
      else if _hex_count (dec l) =? 8 * 2 then Exit (-1) l
      else
        let d := set_left (u64 (bytes_left_in_chunk (dec l) * 16 + v)) (dec l) in
        size_loop rest (set_src (src l + 1) (set_dec (set_hex (s8 (_hex_count d + 1)) d) l))
  end.

(** [for (;; ++src) { if (src == bufsz) goto Exit; if (stop(buf[src])) break; }] *)
Fixpoint scan (stop : byte -> bool) (rest : list byte) (l : locals) (k : byte -> locals -> outcome) : outcome :=
  match rest with
  | [] => Exit (-2) l
  | c :: rest => if stop c then k c l else scan stop rest (set_src (src l + 1) l) k
  end.

Definition is_lf (c : byte) : bool := sbz c =? 10.
Definition not_cr (c : byte) : bool := negb (sbz c =? 13).

(** [if (dst != src) memmove(...); src += n; dst += n] *)
Definition emit (n : Z) (l : locals) : locals :=
  mkLoc (dec l) (if negb (dst l =? src l) then memmove (buf l) (dst l) (src l) n else buf l)
    (dst l + n) (src l + n).

(** One round of the switch. *)
Definition decode_case (bufsz : Z) (l : locals) : outcome :=
  let rest := zdrop (src l) (ztake bufsz (buf l)) in
  match _state (dec l) with
  | CHUNKED_IN_CHUNK_SIZE => size_loop rest l
  | CHUNKED_IN_CHUNK_EXT =>
      scan is_lf rest l (fun _ l =>
        let l := set_src (src l + 1) l in
        if bytes_left_in_chunk (dec l) =? 0 then
          if consume_trailer (dec l) then Loop (set_dec (set_state CHUNKED_IN_TRAILERS_LINE_HEAD (dec l)) l)
          else Complete l
        else Loop (set_dec (set_state CHUNKED_IN_CHUNK_DATA (dec l)) l))
  | CHUNKED_IN_CHUNK_DATA =>
      let avail := bufsz - src l in
      if avail <? bytes_left_in_chunk (dec l) then
        let l := emit avail l in
        Exit (-2) (set_dec (set_left (u64 (bytes_left_in_chunk (dec l) - avail)) (dec l)) l)
      else
        let l := emit (bytes_left_in_chunk (dec l)) l in
        Loop (set_dec (set_state CHUNKED_IN_CHUNK_CRLF (set_left 0 (dec l))) l)
  | CHUNKED_IN_CHUNK_CRLF =>
      scan not_cr rest l (fun c l =>
        if negb (sbz c =? 10) then Exit (-1) l
        else Loop (set_dec (set_state CHUNKED_IN_CHUNK_SIZE (dec l)) (set_src (src l + 1) l)))
  | CHUNKED_IN_TRAILERS_LINE_HEAD =>
      scan not_cr rest l (fun c l =>
        let l := set_src (src l + 1) l in
        if sbz c =? 10 then Complete l
        else Loop (set_dec (set_state CHUNKED_IN_TRAILERS_LINE_MIDDLE (dec l)) l))
  | CHUNKED_IN_TRAILERS_LINE_MIDDLE =>
      scan is_lf rest l (fun _ l =>
        Loop (set_dec (set_state CHUNKED_IN_TRAILERS_LINE_HEAD (dec l)) (set_src (src l + 1) l)))
  end.

(** [while (1)]; [None] when the fuel is out. *)
Fixpoint decode_loop (fuel : nat) (bufsz : Z) (l : locals) : option (Z * locals) :=
  match fuel with
  | O => None
  | S fuel =>
      match decode_case bufsz l with
      | Exit ret l => Some (ret, l)
      | Complete l => Some (bufsz - src l, l)
      | Loop l => decode_loop fuel bufsz l
      end
  end.

(** Of two rounds in a row at least one reads a byte. *)
Definition decode_fuel (bufsz : Z) : nat := 2 * Z.to_nat bufsz + 2.

(** The result, the decoder, the buffer and [*bufsz].  [buf] may be longer than
    [bufsz]. *)
Definition phr_decode_chunked (decoder : phr_chunked_decoder) (b : list byte) (bufsz : Z)
    : option (Z * phr_chunked_decoder * list byte * Z) :=
  let d := set_read (u64 (_total_read decoder + bufsz)) decoder in
  '(ret, l) ← decode_loop (decode_fuel bufsz) bufsz (mkLoc d b 0 0);
  let b := if negb (dst l =? src l) then memmove (buf l) (dst l) (src l) (bufsz - src l) else buf l in
  let d := dec l in
  if ret =? -2 then
    let d := set_overhead (u64 (_total_overhead d + (bufsz - dst l))) d in
    let ret :=
      if (100 * 1024 <=? _total_overhead d)
         && (u64 (_total_read d - _total_overhead d) <? _total_read d / 4) then -1 else ret in
    Some (ret, d, b, dst l)
  else Some (ret, d, b, dst l).

Definition phr_decode_chunked_is_in_data (decoder : phr_chunked_decoder) : bool :=
  match _state decoder with CHUNKED_IN_CHUNK_DATA => true | _ => false end.
