(* ===== verification/HttpChunkedFacts.v ===== *)
(** * Chunked bodies: the decoder as a function of streams

    The in-place decoder of HttpChunked.v refines a machine that reads a list
    and emits a list; that machine does not care how its input is cut. *)

From S2P Require Import Prelude HttpChunked.

(** ** The machine on lists *)

(** How a round ends, with what it emits and what is left unread. *)
Inductive aout :=
| AExit (ret : Z) (d : phr_chunked_decoder) (out rest : list byte)
| AComplete (d : phr_chunked_decoder) (out rest : list byte)
| ALoop (d : phr_chunked_decoder) (out rest : list byte).

Definition after_size (c : byte) : bool :=
  (sbz c =? 32) || (sbz c =? 9) || (sbz c =? 59) || (sbz c =? 10) || (sbz c =? 13).

Fixpoint asize (d : phr_chunked_decoder) (rest : list byte) : aout :=
  match rest with
  | [] => AExit (-2) d [] []
  | c :: tl =>
      let v := decode_hex (sbz c) in
      if v =? -1 then
        if _hex_count d =? 0 then AExit (-1) d [] rest
        else if after_size c then ALoop (set_state CHUNKED_IN_CHUNK_EXT (set_hex 0 d)) [] rest
        else AExit (-1) d [] rest
      else if _hex_count d =? 8 * 2 then AExit (-1) d [] rest
      else asize (set_hex (s8 (_hex_count d + 1)) (set_left (u64 (bytes_left_in_chunk d * 16 + v)) d)) tl
  end.

(** [k] gets the byte that stopped the scan and what follows it. *)
Fixpoint ascan (stop : byte -> bool) (d : phr_chunked_decoder) (rest : list byte)
    (k : byte -> list byte -> aout) : aout :=
  match rest with
  | [] => AExit (-2) d [] []
  | c :: tl => if stop c then k c tl else ascan stop d tl k
  end.

Definition acase (d : phr_chunked_decoder) (rest : list byte) : aout :=
  match _state d with
  | CHUNKED_IN_CHUNK_SIZE => asize d rest
  | CHUNKED_IN_CHUNK_EXT =>
      ascan is_lf d rest (fun _ tl =>
        if bytes_left_in_chunk d =? 0 then
          if consume_trailer d then ALoop (set_state CHUNKED_IN_TRAILERS_LINE_HEAD d) [] tl
          else AComplete d [] tl
        else ALoop (set_state CHUNKED_IN_CHUNK_DATA d) [] tl)
  | CHUNKED_IN_CHUNK_DATA =>
      if zlen rest <? bytes_left_in_chunk d then
        AExit (-2) (set_left (u64 (bytes_left_in_chunk d - zlen rest)) d) rest []
      else
        ALoop (set_state CHUNKED_IN_CHUNK_CRLF (set_left 0 d))
          (ztake (bytes_left_in_chunk d) rest) (zdrop (bytes_left_in_chunk d) rest)
  | CHUNKED_IN_CHUNK_CRLF =>
      ascan not_cr d rest (fun c tl =>
        if negb (sbz c =? 10) then AExit (-1) d [] (c :: tl)
        else ALoop (set_state CHUNKED_IN_CHUNK_SIZE d) [] tl)
  | CHUNKED_IN_TRAILERS_LINE_HEAD =>
      ascan not_cr d rest (fun c tl =>
        if sbz c =? 10 then AComplete d [] tl
        else ALoop (set_state CHUNKED_IN_TRAILERS_LINE_MIDDLE d) [] tl)
  | CHUNKED_IN_TRAILERS_LINE_MIDDLE =>
      ascan is_lf d rest (fun _ tl => ALoop (set_state CHUNKED_IN_TRAILERS_LINE_HEAD d) [] tl)
  end.

Definition ares : Type := Z * phr_chunked_decoder * list byte * list byte.

Definition emitting (out : list byte) (r : option ares) : option ares :=
  '(ret, d, o, rest) ← r; Some (ret, d, out ++ o, rest).

Fixpoint arun (fuel : nat) (d : phr_chunked_decoder) (rest : list byte) : option ares :=
  match fuel with
  | O => None
  | S fuel =>
      match acase d rest with
      | AExit ret d out rest => Some (ret, d, out, rest)
      | AComplete d out rest => Some (zlen rest, d, out, rest)
      | ALoop d out rest => emitting out (arun fuel d rest)
      end
  end.

(** ** The in-place decoder refines it *)

(** The decoded bytes, then junk, then the unread bytes. *)
Definition layout (l : locals) (d : phr_chunked_decoder) (out rest : list byte) : Prop :=
  dec l = d /\ exists junk, buf l = out ++ junk ++ rest /\
    dst l = zlen out /\ src l = zlen out + zlen junk.

Definition matches (bufsz : Z) (out : list byte) (o : outcome) (a : aout) : Prop :=
  match o, a with
  | Exit r l, AExit r' d e rest => r = r' /\ layout l d (out ++ e) rest /\ zlen (buf l) = bufsz
  | Complete l, AComplete d e rest => layout l d (out ++ e) rest /\ zlen (buf l) = bufsz
  | Loop l, ALoop d e rest => layout l d (out ++ e) rest /\ zlen (buf l) = bufsz
  | _, _ => False
  end.

Lemma layout_next l d out c rest :
  layout l d out (c :: rest) -> layout (set_src (src l + 1) l) d out rest.
Proof.
  intros (H1 & junk & H2 & H3 & H4). split; auto. exists (junk ++ [c]). cbn.
  rewrite H2, length_app, <- !app_assoc. repeat split; auto. cbn. lia.
Qed.

Lemma layout_dec l d d' out rest : layout l d out rest -> layout (set_dec d' l) d' out rest.
Proof. intros (H1 & junk & H2 & H3 & H4). split; auto. exists junk. auto. Qed.

Lemma layout_rest l d out rest : layout l d out rest -> zdrop (src l) (ztake (zlen (buf l)) (buf l)) = rest.
Proof.
  intros (_ & junk & H2 & _ & H4). rewrite Nat2Z.id, take_ge by lia. rewrite H2, app_assoc. apply drop_app_all.
  rewrite length_app. lia.
Qed.

Lemma layout_avail l d out rest : layout l d out rest -> zlen (buf l) - src l = zlen rest.
Proof. intros (_ & junk & H2 & _ & H4). rewrite H2, !length_app. lia. Qed.

(** Moving bytes down over the junk. *)
Lemma memmove_eq out junk e rest :
  memmove (out ++ junk ++ e ++ rest) (zlen out) (zlen out + zlen junk) (zlen e) =
  out ++ e ++ drop (length out + length e) (out ++ junk ++ e ++ rest).
Proof.
  unfold memmove. f_equal; [rewrite Nat2Z.id; apply take_app_length|]. f_equal.
  - rewrite app_assoc, drop_app_all by (rewrite length_app; lia). rewrite Nat2Z.id. apply take_app_length.
  - f_equal. lia.
Qed.

Lemma layout_emit l d out e rest :
  layout l d out (e ++ rest) ->
  layout (emit (zlen e) l) d (out ++ e) rest /\ zlen (buf (emit (zlen e) l)) = zlen (buf l).
Proof.
  intros (H1 & junk & H2 & H3 & H4). unfold emit, layout. cbn [dec buf dst src]. rewrite H2, H3, H4.
  destruct (Z.eqb_spec (zlen out) (zlen out + zlen junk)) as [E|E]; cbn [negb].
  - destruct junk; [|cbn in E; lia]. cbn [app length]. split; [|reflexivity]. split; auto. exists [].
    cbn [app length]. rewrite <- app_assoc, length_app. repeat split; lia.
  - rewrite memmove_eq. set (all := out ++ junk ++ e ++ rest).
    assert (Hall : drop (length out + length e) all =
              take (length junk) (drop (length out + length e) all) ++ rest).
    { rewrite <- (take_drop (length junk) (drop (length out + length e) all)) at 1. f_equal. rewrite drop_drop.
      unfold all. rewrite !app_assoc. apply drop_app_all. rewrite !length_app. lia. }
    assert (Hlen : length (drop (length out + length e) all) = (length junk + length rest)%nat)
      by (rewrite length_drop; unfold all; rewrite !length_app; lia).
    split.
    + split; auto. exists (take (length junk) (drop (length out + length e) all)).
      rewrite Hall at 1. rewrite <- app_assoc. split; [reflexivity|]. rewrite length_app, length_take, Hlen. lia.
    + rewrite !length_app, Hlen. unfold all. rewrite !length_app. lia.
Qed.

Lemma size_sim l d out rest :
  layout l d out rest -> matches (zlen (buf l)) out (size_loop rest l) (asize d rest).
Proof.
  revert l d. induction rest as [|c rest IH]; intros l d Hl; cbn [size_loop asize].
  { cbn. rewrite app_nil_r. auto. }
  pose proof Hl as (Hd & _). rewrite Hd.
  destruct (decode_hex (sbz c) =? -1).
  - destruct (_hex_count d =? 0); [cbn; rewrite app_nil_r; auto|]. fold (after_size c).
    destruct (after_size c); [|cbn; rewrite app_nil_r; auto]. cbn. rewrite app_nil_r.
    split; [|reflexivity]. eapply layout_dec, Hl.
  - destruct (_hex_count d =? 8 * 2); [cbn; rewrite app_nil_r; auto|]. 
    set (d' := set_hex _ (set_left _ d)).
    apply (IH (set_src (src l + 1) (set_dec d' l)) d').
    apply (layout_next (set_dec d' l) d' out c rest), (layout_dec l d), Hl.
Qed.

Lemma scan_sim stop l d out rest k k' :
  layout l d out rest ->
  (forall c tl l', layout l' d out (c :: tl) -> zlen (buf l') = zlen (buf l) ->
     matches (zlen (buf l)) out (k c l') (k' c tl)) ->
  matches (zlen (buf l)) out (scan stop rest l k) (ascan stop d rest k').
Proof.
  revert l. induction rest as [|c rest IH]; intros l Hl Hk; cbn [scan ascan].
  { cbn. rewrite app_nil_r. auto. }
  destruct (stop c); [apply Hk; auto|].
  apply (IH (set_src (src l + 1) l)); [eapply layout_next, Hl|]. intros c' tl l' H1 H2. apply Hk; auto.
Qed.

Lemma case_sim l d out rest :
  layout l d out rest -> 0 <= bytes_left_in_chunk d ->
  matches (zlen (buf l)) out (decode_case (zlen (buf l)) l) (acase d rest).
Proof.
  intros Hl Hnn. unfold decode_case, acase. rewrite (layout_rest _ _ _ _ Hl). pose proof Hl as (Hd & _). rewrite Hd.
  destruct (_state d).
  - apply size_sim, Hl.
  - apply scan_sim; auto. intros c tl l' Hl' Hb. pose proof (layout_next _ _ _ _ _ Hl') as Hn.
    pose proof Hn as (Hd' & _). rewrite Hd'. destruct (bytes_left_in_chunk d =? 0);
      [destruct (consume_trailer d)|]; cbn; rewrite app_nil_r; split; auto; eapply layout_dec, Hn.
  - rewrite (layout_avail _ _ _ _ Hl). destruct (Z.ltb_spec (zlen rest) (bytes_left_in_chunk d)) as [Hlt|Hge].
    + rewrite <- (app_nil_r rest) in Hl at 1. destruct (layout_emit _ _ _ _ _ Hl) as [H1 H2].
      pose proof H1 as (Hd' & _). cbn [matches]. rewrite Hd'. split; auto. split; [eapply layout_dec, H1|exact H2].
    + rewrite <- (take_drop (Z.to_nat (bytes_left_in_chunk d)) rest) in Hl.
      destruct (layout_emit _ _ _ _ _ Hl) as [H1 H2].
      rewrite length_take, Nat.min_l, Z2Nat.id in H1, H2 by lia.
      pose proof H1 as (Hd' & _). cbn [matches]. rewrite Hd'. split; [eapply layout_dec, H1|exact H2].
  - apply scan_sim; auto. intros c tl l' Hl' Hb. pose proof Hl' as (Hd' & _).
    destruct (negb (sbz c =? 10)); cbn; rewrite app_nil_r; [auto|]. split; auto. cbn. rewrite Hd'.
    eapply layout_dec, layout_next, Hl'.
  - apply scan_sim; auto. intros c tl l' Hl' Hb. pose proof (layout_next _ _ _ _ _ Hl') as Hn.
    pose proof Hn as (Hd' & _). rewrite Hd'. destruct (sbz c =? 10); cbn; rewrite app_nil_r; split; auto.
    eapply layout_dec, Hn.
  - apply scan_sim; auto. intros c tl l' Hl' Hb. pose proof Hl' as (Hd' & _). cbn. rewrite app_nil_r, Hd'.
    split; auto. eapply layout_dec, layout_next, Hl'.
Qed.

(** ** The decoder's invariant *)

(** While a size is being read, [_hex_count] digits of it are; the size they
    give cannot overflow. *)
Record dec_wf (d : phr_chunked_decoder) : Prop := {
  dw_hex : 0 <= _hex_count d <= 16;
  dw_left : 0 <= bytes_left_in_chunk d < 2 ^ 64;
  dw_size : _state d = CHUNKED_IN_CHUNK_SIZE -> bytes_left_in_chunk d < 16 ^ _hex_count d;
  dw_none : _state d <> CHUNKED_IN_CHUNK_SIZE -> _hex_count d = 0;
  dw_crlf : _state d = CHUNKED_IN_CHUNK_CRLF -> bytes_left_in_chunk d = 0
}.

(** What a round ends with, whatever it is. *)
Definition ends_wf (n : nat) (a : aout) : Prop :=
  match a with
  | AExit ret d _ rest => (ret = -1 \/ ret = -2) /\ dec_wf d /\ (length rest <= n)%nat
  | AComplete d _ rest | ALoop d _ rest => dec_wf d /\ (length rest <= n)%nat
  end.

Lemma decode_hex_range c : -1 <= decode_hex c < 16.
Proof.
  unfold decode_hex. destruct (_ && _) eqn:E1; [lia|]. destruct (_ && _) eqn:E2 in |- *; [lia|].
  destruct (_ && _) eqn:E3 in |- *; lia.
Qed.

Lemma digit_fits left n v : 0 <= left < 16 ^ n -> 0 <= n < 16 -> 0 <= v < 16 ->
  0 <= left * 16 + v < 16 ^ (n + 1) /\ u64 (left * 16 + v) = left * 16 + v /\ left * 16 + v < 2 ^ 64.
Proof.
  intros Hl Hn Hv. rewrite Z.pow_add_r by lia. change (16 ^ 1) with 16.
  assert (H : 16 ^ n <= 16 ^ 15) by (apply Z.pow_le_mono_r; lia).
  change (16 ^ 15) with 1152921504606846976 in H. change (2 ^ 64) with 18446744073709551616.
  split; [lia|]. split; [|lia]. apply wrap_id. unfold in_u. zpow. lia.
Qed.

Lemma step_wf d v :
  dec_wf d -> _state d = CHUNKED_IN_CHUNK_SIZE -> _hex_count d <> 16 -> 0 <= v < 16 ->
  let d' := set_hex (s8 (_hex_count d + 1)) (set_left (u64 (bytes_left_in_chunk d * 16 + v)) d) in
  dec_wf d' /\ _state d' = CHUNKED_IN_CHUNK_SIZE /\ _hex_count d' = _hex_count d + 1 /\
  bytes_left_in_chunk d' = bytes_left_in_chunk d * 16 + v.
Proof.
  intros [Hh Hl Hs Hn Hc] E H16 Hv. cbn [_state _hex_count bytes_left_in_chunk set_hex set_left].
  destruct (digit_fits (bytes_left_in_chunk d) (_hex_count d) v) as (D1 & D2 & D3); auto; [split; [lia|auto]|lia|].
  assert (Es : s8 (_hex_count d + 1) = _hex_count d + 1) by (apply swrap_id; zpow; lia).
  rewrite Es, D2. split; [|auto].
  constructor; cbn [_state _hex_count bytes_left_in_chunk set_hex set_left]; [lia|lia|intros; lia|congruence..].
Qed.

Lemma asize_wf d rest :
  dec_wf d -> _state d = CHUNKED_IN_CHUNK_SIZE -> ends_wf (length rest) (asize d rest).
Proof.
  revert d. induction rest as [|c rest IH]; intros d Hw E; cbn [asize]; [cbn; auto|].
  pose proof (decode_hex_range (sbz c)) as Hv. destruct (Z.eqb_spec (decode_hex (sbz c)) (-1)).
  - destruct (_hex_count d =? 0); [cbn; auto|]. destruct (after_size c); [|cbn; auto].
    destruct Hw as [H1 H2 H3 H4 H5]. cbn. split; [|lia]. constructor; cbn; auto; try lia; congruence.
  - change (8 * 2) with 16. destruct (Z.eqb_spec (_hex_count d) 16); [cbn; auto|].
    destruct (step_wf d (decode_hex (sbz c))) as (W & S & _); auto; [lia|]. specialize (IH _ W S).
    destruct (asize _ rest); cbn in *; intuition lia.
Qed.

Lemma ascan_wf n stop d rest k :
  dec_wf d -> (length rest <= n)%nat ->
  (forall c tl, (S (length tl) <= length rest)%nat -> ends_wf n (k c tl)) -> ends_wf n (ascan stop d rest k).
Proof.
  intros Hw. induction rest as [|c rest IH]; intros Hn Hk; cbn [ascan].
  { cbn. split; [auto|]. split; [auto|lia]. }
  cbn [length] in *. destruct (stop c); [apply Hk; lia|]. apply IH; [lia|]. intros. apply Hk. lia.
Qed.

(** What a case that leaves the size alone shows of the next state. *)
Lemma wf_state s d n :
  dec_wf d -> _state d <> CHUNKED_IN_CHUNK_SIZE -> 0 <= n < 2 ^ 64 ->
  (s = CHUNKED_IN_CHUNK_SIZE \/ s = CHUNKED_IN_CHUNK_CRLF -> n = 0) -> dec_wf (set_state s (set_left n d)).
Proof.
  intros [H1 H2 H3 H4 H5] E Hn Hs. constructor; cbn; auto.
  intros ->. rewrite (H4 E), Hs by auto. reflexivity.
Qed.

Lemma set_left_id d : set_left (bytes_left_in_chunk d) d = d.
Proof. destruct d. reflexivity. Qed.

Lemma acase_wf d rest : dec_wf d -> ends_wf (length rest) (acase d rest).
Proof.
  intros Hw. pose proof Hw as [H1 H2 H3 H4 H5]. unfold acase. destruct (_state d) eqn:E.
  - apply asize_wf; auto.
  - apply ascan_wf; auto. intros c tl Hl. destruct (Z.eqb_spec (bytes_left_in_chunk d) 0).
    + destruct (consume_trailer d); cbn; (split; [|lia]); auto.
      rewrite <- (set_left_id d). apply wf_state; auto; first [congruence|intros [|]; discriminate].
    + cbn. split; [|lia]. rewrite <- (set_left_id d). apply wf_state; auto; first [congruence|intros [|]; discriminate].
  - destruct (Z.ltb_spec (zlen rest) (bytes_left_in_chunk d)) as [Hlt|Hge].
    + cbn. split; auto. split; [|lia].
      assert (u64 (bytes_left_in_chunk d - zlen rest) = bytes_left_in_chunk d - zlen rest) as ->
        by (apply wrap_id; unfold in_u; zpow; lia).
      constructor; cbn; auto; [lia|congruence|congruence].
    + cbn. rewrite length_drop. split; [|lia]. apply wf_state; auto; [congruence|lia].
  - apply ascan_wf; auto. intros c tl Hl. destruct (negb (sbz c =? 10)); cbn; [split; [auto|]; split; [auto|lia]|].
    split; [|lia]. rewrite <- (set_left_id d). apply wf_state; auto. congruence.
  - apply ascan_wf; auto. intros c tl Hl. destruct (sbz c =? 10); cbn; (split; [|lia]); auto.
    rewrite <- (set_left_id d). apply wf_state; auto; first [congruence|intros [|]; discriminate].
  - apply ascan_wf; auto. intros c tl Hl. cbn. split; [|lia].
    rewrite <- (set_left_id d). apply wf_state; auto; first [congruence|intros [|]; discriminate].
Qed.

(** ** Termination *)

Definition rank (d : phr_chunked_decoder) : nat :=
  match _state d with CHUNKED_IN_CHUNK_SIZE | CHUNKED_IN_CHUNK_DATA => 1 | _ => 0 end.

Definition measure (d : phr_chunked_decoder) (rest : list byte) : nat := 2 * length rest + rank d.

Lemma asize_loop d rest d' e rest' :
  asize d rest = ALoop d' e rest' -> e = [] /\ (length rest' <= length rest)%nat /\ rank d' = O.
Proof.
  revert d. induction rest as [|c rest IH]; intros d; cbn [asize]; [discriminate|].
  destruct (_ =? -1).
  - destruct (_ =? 0); [discriminate|]. destruct (after_size c); [|discriminate]. intros [= <- <- <-]. auto.
  - destruct (_ =? _); [discriminate|]. intros H%IH. cbn [length]. intuition lia.
Qed.

Lemma ascan_loop stop d rest k d' e rest' :
  ascan stop d rest k = ALoop d' e rest' ->
  exists c tl, (S (length tl) <= length rest)%nat /\ k c tl = ALoop d' e rest'.
Proof.
  induction rest as [|c rest IH]; cbn [ascan length]; [discriminate|].
  destruct (stop c); [intros H; exists c, rest; auto|]. intros (c' & tl & H1 & H2)%IH. exists c', tl. auto.
Qed.

Lemma acase_decreases d rest d' e rest' :
  acase d rest = ALoop d' e rest' -> (measure d' rest' < measure d rest)%nat.
Proof.
  unfold acase, measure, rank. destruct (_state d).
  - intros (_ & H & Hr)%asize_loop. unfold rank in Hr. lia.
  - intros (c & tl & Hl & H)%ascan_loop. destruct (_ =? 0); [destruct (consume_trailer d); [|discriminate]|];
      injection H as <- <- <-; cbn; lia.
  - destruct (_ <? _); [discriminate|]. intros [= <- <- <-]. cbn. rewrite length_drop. lia.
  - intros (c & tl & Hl & H)%ascan_loop. destruct (negb _); [discriminate|]. injection H as <- <- <-. cbn. lia.
  - intros (c & tl & Hl & H)%ascan_loop. destruct (_ =? 10); [discriminate|]. injection H as <- <- <-. cbn. lia.
  - intros (c & tl & Hl & H)%ascan_loop. injection H as <- <- <-. cbn. lia.
Qed.

(** ** Runs *)

Lemma arun_S fuel d rest :
  arun (S fuel) d rest =
  match acase d rest with
  | AExit ret d out rest => Some (ret, d, out, rest)
  | AComplete d out rest => Some (zlen rest, d, out, rest)
  | ALoop d out rest => emitting out (arun fuel d rest)
  end.
Proof. reflexivity. Qed.

(** Enough fuel gives a result, and more gives the same. *)
Lemma arun_total fuel d rest :
  (measure d rest < fuel)%nat -> dec_wf d ->
  exists ret d' out rest', arun fuel d rest = Some (ret, d', out, rest') /\ dec_wf d' /\
    (ret = -1 \/ ret = -2 \/ ret = zlen rest') /\ (length rest' <= length rest)%nat.
Proof.
  revert d rest. induction fuel as [|fuel IH]; intros d rest Hm Hw; [lia|]. rewrite arun_S.
  pose proof (acase_wf d rest Hw) as He. destruct (acase d rest) as [ret d' e rest'|d' e rest'|d' e rest'] eqn:E; cbn in He.
  - exists ret, d', e, rest'. intuition auto.
  - exists (zlen rest'), d', e, rest'. intuition auto.
  - apply acase_decreases in E. destruct He as [Hw' Hl].
    destruct (IH d' rest' ltac:(lia) Hw') as (ret & d2 & o & r2 & -> & H1 & H2 & H3).
    exists ret, d2, (e ++ o), r2. split; [reflexivity|]. split; [auto|]. split; [auto|lia].
Qed.

Lemma arun_fuel f1 f2 d rest r :
  arun f1 d rest = Some r -> (f1 <= f2)%nat -> arun f2 d rest = Some r.
Proof.
  revert f2 d rest r. induction f1 as [|f1 IH]; intros [|f2] d rest r H Hl; try discriminate; [lia|].
  rewrite arun_S in *. destruct (acase d rest); auto. unfold emitting, mbind, option_bind in *.
  destruct (arun f1 d0 rest0) as [r0|] eqn:E; [|discriminate]. rewrite (IH f2 _ _ _ E ltac:(lia)). exact H.
Qed.

(** The in-place loop and the machine agree. *)
Lemma run_sim fuel l d out rest ret d' e rest' :
  layout l d out rest -> dec_wf d -> arun fuel d rest = Some (ret, d', e, rest') ->
  exists l', decode_loop fuel (zlen (buf l)) l = Some (ret, l') /\ layout l' d' (out ++ e) rest' /\
    zlen (buf l') = zlen (buf l).
Proof.
  revert l d out rest ret d' e rest'. induction fuel as [|fuel IH]; intros l d out rest ret d' e rest' Hl Hw; [discriminate|].
  rewrite arun_S. cbn [decode_loop]. pose proof (case_sim l d out rest Hl ltac:(apply Hw)) as Hs.
  pose proof (acase_wf d rest Hw) as Hw'.
  destruct (decode_case (zlen (buf l)) l) as [r1 l1|l1|l1], (acase d rest) as [r2 d2 e2 rest2|d2 e2 rest2|d2 e2 rest2];
    cbn [matches] in Hs; try contradiction.
  - destruct Hs as (-> & H1 & H2). intros [= <- <- <- <-]. exists l1. auto.
  - destruct Hs as (H1 & H2). intros [= <- <- <- <-]. exists l1. split; [|auto]. rewrite <- H2.
    rewrite (layout_avail _ _ _ _ H1). reflexivity.
  - destruct Hs as (H1 & H2). unfold emitting, mbind, option_bind.
    destruct (arun fuel d2 rest2) as [[[[r3 d3] e3] rest3]|] eqn:E; [|discriminate]. intros [= <- <- <- <-].
    destruct (IH l1 d2 (out ++ e2) rest2 _ _ _ _ H1 ltac:(apply Hw') E) as (l' & I1 & I2 & I3).
    exists l'. rewrite <- H2. split; [exact I1|]. rewrite app_assoc. split; [exact I2|congruence].
Qed.
