(* ===== verification/HttpChunkedProps.v ===== *)
(** * Chunked bodies: the theorems

    The decoder works in place and ends, takes its input in any pieces, and
    undoes the encoding. *)

From Stdlib Require Import Strings.String.
From S2P Require Import Prelude HttpChunked HttpChunkedFacts.

(** ** More input *)

(** What a round does when [more] follows its input. *)
Definition amore (more : list byte) (a b : aout) : Prop :=
  match a with
  | AExit ret d e rest =>
      if ret =? -2 then
        rest = [] /\ b = match acase d more with
                         | AExit r d' o r' => AExit r d' (e ++ o) r'
                         | AComplete d' o r' => AComplete d' (e ++ o) r'
                         | ALoop d' o r' => ALoop d' (e ++ o) r'
                         end
      else b = AExit ret d e (rest ++ more)
  | AComplete d e rest => b = AComplete d e (rest ++ more)
  | ALoop d e rest => b = ALoop d e (rest ++ more)
  end.

Lemma amore_again more d o :
  acase d more = o ->
  o = match acase d more with
      | AExit r d' o r' => AExit r d' ([] ++ o) r'
      | AComplete d' o r' => AComplete d' ([] ++ o) r'
      | ALoop d' o r' => ALoop d' ([] ++ o) r'
      end.
Proof. intros <-. destruct (acase d more); reflexivity. Qed.

Lemma asize_more d rest more :
  _state d = CHUNKED_IN_CHUNK_SIZE -> amore more (asize d rest) (asize d (rest ++ more)).
Proof.
  revert d. induction rest as [|c rest IH]; intros d E; cbn [asize app].
  { cbn. split; auto. apply amore_again. unfold acase. rewrite E. reflexivity. }
  destruct (_ =? -1).
  - destruct (_ =? 0); [reflexivity|]. destruct (after_size c); reflexivity.
  - destruct (_ =? _); [reflexivity|]. apply IH. exact E.
Qed.

Lemma ascan_more stop d rest more k :
  (forall l, acase d l = ascan stop d l k) ->
  (forall c tl, amore more (k c tl) (k c (tl ++ more))) ->
  amore more (ascan stop d rest k) (ascan stop d (rest ++ more) k).
Proof.
  intros Hd Hk. induction rest as [|c rest IH]; cbn [ascan app].
  { cbn. split; auto. apply amore_again. apply Hd. }
  destruct (stop c); auto.
Qed.

Lemma acase_more d rest more : dec_wf d -> amore more (acase d rest) (acase d (rest ++ more)).
Proof.
  intros [Hh [Hl0 Hl1] _ _ _]. destruct (_state d) eqn:E.
  - unfold acase. rewrite E. apply asize_more, E.
  - assert (Hd : forall l, acase d l = ascan is_lf d l (fun _ tl =>
        if bytes_left_in_chunk d =? 0 then
          if consume_trailer d then ALoop (set_state CHUNKED_IN_TRAILERS_LINE_HEAD d) [] tl
          else AComplete d [] tl
        else ALoop (set_state CHUNKED_IN_CHUNK_DATA d) [] tl)) by (intros; unfold acase; rewrite E; reflexivity).
    rewrite !Hd. apply ascan_more; [exact Hd|]. intros c tl.
    destruct (_ =? 0); [destruct (consume_trailer d)|]; reflexivity.
  - unfold acase. rewrite E. rewrite length_app.
    destruct (Z.ltb_spec (zlen rest) (bytes_left_in_chunk d)) as [Hlt|Hge].
    + cbn [amore]. split; auto. set (d1 := set_left (u64 (bytes_left_in_chunk d - zlen rest)) d).
      assert (El : bytes_left_in_chunk d1 = bytes_left_in_chunk d - zlen rest)
        by (cbn; apply wrap_id; unfold in_u; zpow; lia).
      unfold acase. assert (_state d1 = CHUNKED_IN_CHUNK_DATA) as -> by exact E. rewrite El.
      replace (zlen more <? bytes_left_in_chunk d - zlen rest)
        with (Z.of_nat (length rest + length more) <? bytes_left_in_chunk d)
        by (destruct (Z.ltb_spec (Z.of_nat (length rest + length more)) (bytes_left_in_chunk d));
            destruct (Z.ltb_spec (zlen more) (bytes_left_in_chunk d - zlen rest)); lia).
      destruct (Z.ltb_spec (Z.of_nat (length rest + length more)) (bytes_left_in_chunk d)).
      * f_equal. unfold set_left. cbn [consume_trailer _hex_count _state _total_read _total_overhead d1].
        f_equal. f_equal. lia.
      * replace (Z.to_nat (bytes_left_in_chunk d)) with (length rest + Z.to_nat (bytes_left_in_chunk d - zlen rest))%nat by lia.
        rewrite take_app_add, drop_app_add. reflexivity.
    + destruct (Z.ltb_spec (Z.of_nat (length rest + length more)) (bytes_left_in_chunk d)); [lia|].
      cbn [amore]. rewrite take_app_le, drop_app_le by lia. reflexivity.
  - assert (Hd : forall l, acase d l = ascan not_cr d l (fun c tl =>
        if negb (sbz c =? 10) then AExit (-1) d [] (c :: tl)
        else ALoop (set_state CHUNKED_IN_CHUNK_SIZE d) [] tl)) by (intros; unfold acase; rewrite E; reflexivity).
    rewrite !Hd. apply ascan_more; [exact Hd|]. intros c tl. destruct (negb _); reflexivity.
  - assert (Hd : forall l, acase d l = ascan not_cr d l (fun c tl =>
        if sbz c =? 10 then AComplete d [] tl
        else ALoop (set_state CHUNKED_IN_TRAILERS_LINE_MIDDLE d) [] tl)) by (intros; unfold acase; rewrite E; reflexivity).
    rewrite !Hd. apply ascan_more; [exact Hd|]. intros c tl. destruct (_ =? 10); reflexivity.
  - assert (Hd : forall l, acase d l = ascan is_lf d l (fun _ tl =>
        ALoop (set_state CHUNKED_IN_TRAILERS_LINE_HEAD d) [] tl)) by (intros; unfold acase; rewrite E; reflexivity).
    rewrite !Hd. apply ascan_more; [exact Hd|]. reflexivity.
Qed.

Lemma emitting_app a b r : emitting a (emitting b r) = emitting (a ++ b) r.
Proof. destruct r as [[[[ret d] o] rest]|]; cbn; [rewrite app_assoc|]; reflexivity. Qed.

(** A run stopped by the end of the input goes on with more of it. *)
Lemma arun_split f1 f2 d a b d1 o1 r1 r :
  dec_wf d -> arun f1 d a = Some (-2, d1, o1, r1) -> arun f2 d1 b = Some r ->
  r1 = [] /\ arun (f1 + f2) d (a ++ b) = emitting o1 (Some r).
Proof.
  revert d a o1. induction f1 as [|f1 IH]; intros d a o1 Hw H1 H2; [discriminate|].
  rewrite arun_S in H1. pose proof (acase_more d a b Hw) as Hm. pose proof (acase_wf d a Hw) as Hw'.
  cbn [Nat.add]. rewrite arun_S. destruct (acase d a) as [ret d2 e rest|d2 e rest|d2 e rest] eqn:E; cbn [amore] in Hm.
  - injection H1 as -> -> -> ->. cbn [Z.eqb] in Hm. change (-2 =? -2) with true in Hm. destruct Hm as [-> ->].
    split; auto. destruct f2 as [|f2]; [discriminate|]. rewrite arun_S in H2.
    destruct (acase d1 b) as [r2 d3 o3 rest3|d3 o3 rest3|d3 o3 rest3]; try (injection H2 as <-; reflexivity).
    unfold emitting, mbind, option_bind in H2. destruct (arun f2 d3 rest3) as [r3|] eqn:E3; [|discriminate].
    rewrite (arun_fuel f2 (f1 + S f2) _ _ _ E3) by lia. rewrite <- H2. destruct r3 as [[[? ?] ?] ?].
    cbn. rewrite app_assoc. reflexivity.
  - injection H1 as H1 _ _ _. lia.
  - rewrite Hm. unfold emitting in H1. unfold mbind, option_bind in H1.
    destruct (arun f1 d2 rest) as [[[[r2 d3] o3] rest3]|] eqn:E2; [|discriminate]. injection H1 as -> -> <- ->.
    destruct (IH d2 rest o3 ltac:(apply Hw') E2 H2) as [-> I]. split; auto. rewrite I. apply emitting_app.
Qed.

(** ** The totals *)

Definition tot (r o : Z) (d : phr_chunked_decoder) : phr_chunked_decoder := set_overhead o (set_read r d).

Definition atot (r o : Z) (a : aout) : aout :=
  match a with
  | AExit ret d e rest => AExit ret (tot r o d) e rest
  | AComplete d e rest => AComplete (tot r o d) e rest
  | ALoop d e rest => ALoop (tot r o d) e rest
  end.

Lemma asize_tot r o d rest : asize (tot r o d) rest = atot r o (asize d rest).
Proof.
  revert d. induction rest as [|c rest IH]; intros d; cbn [asize]; [reflexivity|].
  cbn [_hex_count bytes_left_in_chunk tot set_overhead set_read]. destruct (_ =? -1).
  - destruct (_ =? 0); [reflexivity|]. destruct (after_size c); reflexivity.
  - destruct (_ =? _); [reflexivity|].
    apply (IH (set_hex (s8 (_hex_count d + 1)) (set_left (u64 (bytes_left_in_chunk d * 16 + decode_hex (sbz c))) d))).
Qed.

Lemma ascan_tot r o stop d rest k k' :
  (forall c tl, k' c tl = atot r o (k c tl)) ->
  ascan stop (tot r o d) rest k' = atot r o (ascan stop d rest k).
Proof.
  intros Hk. induction rest as [|c rest IH]; cbn [ascan]; [reflexivity|]. destruct (stop c); auto.
Qed.

Lemma acase_tot r o d rest : acase (tot r o d) rest = atot r o (acase d rest).
Proof.
  unfold acase. cbn [_state tot set_overhead set_read]. destruct (_state d).
  - apply asize_tot.
  - apply ascan_tot. intros c tl. cbn. destruct (_ =? 0); [destruct (consume_trailer d)|]; reflexivity.
  - cbn [bytes_left_in_chunk]. destruct (_ <? _); reflexivity.
  - apply ascan_tot. intros c tl. destruct (negb _); reflexivity.
  - apply ascan_tot. intros c tl. destruct (_ =? 10); reflexivity.
  - apply ascan_tot. intros c tl. reflexivity.
Qed.

Lemma arun_tot r o fuel d rest :
  arun fuel (tot r o d) rest =
  ('(ret, d', e, rest') ← arun fuel d rest; Some (ret, tot r o d', e, rest')).
Proof.
  revert d rest. induction fuel as [|fuel IH]; intros d rest; [reflexivity|].
  rewrite !arun_S, acase_tot. destruct (acase d rest); try reflexivity. cbn [atot]. rewrite IH.
  destruct (arun fuel d0 rest0) as [[[[? ?] ?] ?]|]; reflexivity.
Qed.

(** A run does not change the totals. *)
Lemma arun_totals fuel d rest ret d' e rest' :
  arun fuel d rest = Some (ret, d', e, rest') ->
  _total_read d' = _total_read d /\ _total_overhead d' = _total_overhead d.
Proof.
  intros H. pose proof (arun_tot (_total_read d) (_total_overhead d) fuel d rest) as Ht.
  replace (tot (_total_read d) (_total_overhead d) d) with d in Ht by (destruct d; reflexivity).
  rewrite H in Ht. cbn in Ht. injection Ht as ->. auto.
Qed.

(** ** One call *)

(** The test at the end of the call, for a call that is incomplete. *)
Definition overhead_exceeded (read overhead : Z) : bool :=
  (100 * 1024 <=? overhead) && (u64 (read - overhead) <? read / 4).

(** A call is a run of the machine: the decoded bytes are at the front of the
    buffer and the unread ones follow them. *)
Lemma decode_run d b :
  dec_wf d ->
  exists ret d1 out rest tail,
    arun (decode_fuel (zlen b)) (set_read (u64 (_total_read d + zlen b)) d) b = Some (ret, d1, out, rest) /\
    dec_wf d1 /\ (ret = -1 \/ ret = -2 \/ ret = zlen rest) /\
    length (out ++ rest ++ tail) = length b /\
    let d2 := set_overhead (u64 (_total_overhead d + (zlen b - zlen out))) d1 in
    phr_decode_chunked d b (zlen b) =
    Some (if ret =? -2 then
            (if overhead_exceeded (_total_read d2) (_total_overhead d2) then -1 else -2, d2, out ++ rest ++ tail, zlen out)
          else (ret, d1, out ++ rest ++ tail, zlen out)).
Proof.
  intros Hw. set (d0 := set_read _ d).
  assert (Hw0 : dec_wf d0) by (destruct Hw; constructor; auto).
  destruct (arun_total (decode_fuel (zlen b)) d0 b) as (ret & d1 & out & rest & Er & Hw1 & Hr & _); auto.
  { unfold measure, decode_fuel, rank. destruct (_state d0); lia. }
  assert (Hl0 : layout (mkLoc d0 b 0 0) d0 [] b) by (split; auto; exists []; auto).
  destruct (run_sim _ _ _ _ _ _ _ _ _ Hl0 Hw0 Er) as (l' & El & Hl & Hb). cbn [buf app] in El, Hl, Hb.
  pose proof Hl as (Hd & junk & Hbuf & Hdst & Hsrc).
  assert (Hfinal : exists tail,
    (if negb (dst l' =? src l') then memmove (buf l') (dst l') (src l') (zlen b - src l') else buf l') = out ++ rest ++ tail
    /\ length (out ++ rest ++ tail) = length b).
  { rewrite <- Hb, (layout_avail _ _ _ _ Hl). rewrite Hdst, Hsrc.
    destruct (Z.eqb_spec (zlen out) (zlen out + zlen junk)) as [E|E]; cbn [negb].
    - destruct junk; [|cbn in E; lia]. exists []. rewrite app_nil_r. split; [exact Hbuf|]. rewrite Hbuf in Hb. cbn [app] in Hb. lia.
    - rewrite Hbuf in *. replace (out ++ junk ++ rest) with (out ++ junk ++ rest ++ []) by (rewrite app_nil_r; reflexivity).
      rewrite memmove_eq, app_nil_r. eexists. split; [reflexivity|].
      rewrite !length_app, length_drop, !length_app. rewrite !length_app in Hb. lia. }
  destruct Hfinal as (tail & Et & Hlt). exists ret, d1, out, rest, tail.
  destruct (arun_totals _ _ _ _ _ _ _ Er) as [T1 T2].
  split; [exact Er|]. split; [exact Hw1|]. split; [exact Hr|]. split; [exact Hlt|].
  cbv zeta. unfold phr_decode_chunked. fold d0. rewrite El. cbn [mbind option_bind]. unfold mbind, option_bind.
  rewrite Et, Hd, Hdst. destruct (ret =? -2) eqn:E2; [|reflexivity].
  cbn [_total_overhead _total_read set_overhead]. rewrite T2. unfold overhead_exceeded.
  change (_total_overhead d0) with (_total_overhead d).
  apply Z.eqb_eq in E2. subst ret. destruct (_ && _); reflexivity.
Qed.

(** *** What is left is the end of the input *)

Definition aleft (a : aout) : list byte :=
  match a with AExit _ _ _ rest | AComplete _ _ rest | ALoop _ _ rest => rest end.

(** A round that wants more input has read all of it. *)
Definition all_read (a : aout) : Prop := match a with AExit ret _ _ rest => ret = -2 -> rest = [] | _ => True end.

Lemma asize_left d s : aleft (asize d s) `suffix_of` s /\ all_read (asize d s).
Proof.
  revert d. induction s as [|c s IH]; intros d; cbn [asize]; [split; [reflexivity|intros _; reflexivity]|]. cbv zeta.
  assert (forall r d' o, aleft (AExit r d' o (c :: s)) `suffix_of` c :: s) as Hs by reflexivity.
  repeat case_match; try (split; [apply Hs || reflexivity|cbn; (discriminate || exact I)]).
  destruct (IH (set_hex (s8 (_hex_count d + 1)) (set_left (u64 (bytes_left_in_chunk d * 16 + decode_hex (sbz c))) d))) as [IH1 IH2].
  split; [apply suffix_cons_r, IH1|exact IH2].
Qed.

Lemma ascan_left stop d s k :
  (forall c tl, c :: tl `suffix_of` s -> aleft (k c tl) `suffix_of` c :: tl /\ all_read (k c tl)) ->
  aleft (ascan stop d s k) `suffix_of` s /\ all_read (ascan stop d s k).
Proof.
  induction s as [|c s IH]; intros Hk; cbn [ascan]; [split; [reflexivity|intros _; reflexivity]|]. destruct (stop c).
  - apply Hk. reflexivity.
  - destruct IH as [H1 H2]; [intros c' tl Hs; apply Hk, suffix_cons_r, Hs|]. split; [apply suffix_cons_r, H1|exact H2].
Qed.

Lemma acase_left d s : aleft (acase d s) `suffix_of` s /\ all_read (acase d s).
Proof.
  unfold acase. destruct (_state d); try (apply ascan_left; intros c tl _; repeat case_match; cbn;
    split; (discriminate || exact I || reflexivity || (apply suffix_cons_r; reflexivity))).
  - apply asize_left.
  - destruct (_ <? _); cbn; [split; [apply suffix_nil|auto]|]. split; [|exact I].
    exists (ztake (bytes_left_in_chunk d) s). symmetry. apply take_drop.
Qed.

Lemma arun_left fuel d s ret d' out rest :
  arun fuel d s = Some (ret, d', out, rest) -> rest `suffix_of` s /\ (ret = -2 -> rest = []).
Proof.
  revert d s out. induction fuel as [|fuel IH]; intros d s out; [discriminate|]. rewrite arun_S.
  destruct (acase_left d s) as [H1 H2]. destruct (acase d s) as [r d1 o1 s1|d1 o1 s1|d1 o1 s1]; cbn [aleft all_read] in *.
  - intros E. injection E as <- <- <- <-. auto.
  - intros E. injection E as <- <- <- <-. split; [exact H1|]. lia.
  - destruct (arun fuel d1 s1) as [[[[r2 d2] o2] s2]|] eqn:E; [|discriminate]. intros [= <- <- <- <-].
    destruct (IH _ _ _ E) as [H3 H4]. split; [etransitivity; [exact H3|exact H1]|exact H4].
Qed.

(** The result of a call that ended with [ret] in the state [d], with [n] of
    [len] bytes decoded. *)
Definition call_result (len n ret : Z) (d : phr_chunked_decoder) : Z * phr_chunked_decoder :=
  if ret =? -2 then
    let d := set_overhead (u64 (_total_overhead d + (len - n))) d in
    (if overhead_exceeded (_total_read d) (_total_overhead d) then -1 else -2, d)
  else (ret, d).

(** C13: [phr_decode_chunked] works in place what a decoder does that takes its
    input off a list and puts its output on another ([arun]).  From any
    well-formed decoder and on any buffer it ends: the buffer then begins with the
    decoded bytes [out], counted, and has right after them the unread bytes
    [rest], which are the end of the input; the result is -1, or -2 when all was
    read and more is wanted (-1 when the overhead is too large), or the number of
    unread bytes; and the decoder stays well formed, its chunk size never
    overflowing. *)
Theorem chunked_in_place d b :
  dec_wf d ->
  exists ret d1 out rest tail,
    arun (decode_fuel (zlen b)) (set_read (u64 (_total_read d + zlen b)) d) b = Some (ret, d1, out, rest) /\
    (let '(r, d') := call_result (zlen b) (zlen out) ret d1 in
     phr_decode_chunked d b (zlen b) = Some (r, d', out ++ rest ++ tail, zlen out) /\ dec_wf d') /\
    length (out ++ rest ++ tail) = length b /\ (exists read, b = read ++ rest) /\
    (ret = -1 \/ ret = -2 /\ rest = [] \/ ret = zlen rest).
Proof.
  intros Hw. destruct (decode_run d b Hw) as (ret & d1 & out & rest & tail & Er & Hw1 & Hr & Hl & E).
  destruct (arun_left _ _ _ _ _ _ _ Er) as [Hs Hn]. exists ret, d1, out, rest, tail. split; [exact Er|]. split; [|split; [exact Hl|split; [exact Hs|]]].
  - destruct (arun_totals _ _ _ _ _ _ _ Er) as [_ T]. change (_total_overhead d1 = _total_overhead d) in T.
    cbv zeta in E. unfold call_result. rewrite T. destruct (ret =? -2); (split; [exact E|]); [|exact Hw1]. destruct Hw1. constructor; auto.
  - destruct Hr as [->|[->| ->]]; auto.
Qed.

Lemma overhead_small read o : o < 100 * 1024 -> overhead_exceeded read o = false.
Proof. intros H. unfold overhead_exceeded. destruct (Z.leb_spec (100 * 1024) o); [lia|reflexivity]. Qed.

Lemma tot_eta (d : phr_chunked_decoder) r : set_read r d = tot r (_total_overhead d) d.
Proof. destruct d. reflexivity. Qed.

(** Feeding in pieces: as long as the overhead limit (100 KB) is out of reach,
    decoding [a], getting -2, and then decoding [b] gives together the same
    bytes, the same result and the same unread remainder as decoding [a ++ b] at
    once; if more input is still needed the decoder is in the same state. *)
Theorem chunked_split d a b d1 a' n1 ret d2 b' n2 :
  dec_wf d -> 0 <= _total_overhead d ->
  _total_overhead d + zlen (a ++ b) < 100 * 1024 ->
  phr_decode_chunked d a (zlen a) = Some (-2, d1, a', n1) ->
  phr_decode_chunked d1 b (zlen b) = Some (ret, d2, b', n2) ->
  exists c' d2',
    phr_decode_chunked d (a ++ b) (zlen (a ++ b)) = Some (ret, d2', c', n1 + n2) /\
    ztake (n1 + n2) c' = ztake n1 a' ++ ztake n2 b' /\
    ztake ret (zdrop (n1 + n2) c') = ztake ret (zdrop n2 b') /\
    (ret = -2 -> d2' = d2).
Proof.
  intros Hw H0 Hlim Ha Hb. rewrite length_app in Hlim.
  destruct (decode_run d a Hw) as (r1 & e1 & o1 & s1 & t1 & R1 & W1 & A1 & L1 & E1). cbv zeta in E1.
  rewrite E1 in Ha. clear E1. rewrite !length_app in L1.
  set (dd1 := set_overhead _ e1) in Ha.
  assert (Hov : _total_overhead dd1 = _total_overhead d + (zlen a - zlen o1))
    by (cbn; apply wrap_id; unfold in_u; zpow; lia).
  destruct (Z.eqb_spec r1 (-2)) as [->|Hne].
  2:{ injection Ha as -> _ _ _. congruence. }
  rewrite overhead_small in Ha by lia. injection Ha as <- <- <-.
  assert (Wd : dec_wf dd1) by (destruct W1; constructor; auto).
  destruct (decode_run dd1 b Wd) as (r2 & e2 & o2 & s2 & t2 & R2 & W2 & A2 & L2 & E2). cbv zeta in E2.
  rewrite E2 in Hb. clear E2. rewrite !length_app in L2.
  destruct (decode_run d (a ++ b) Hw) as (r3 & e3 & o3 & s3 & t3 & R3 & W3 & A3 & L3 & E3). cbv zeta in E3.
  rewrite E3. clear E3. rewrite !length_app in L3.
  (* the two runs, as one *)
  destruct (arun_totals _ _ _ _ _ _ _ R1) as [T1 T1'].
  assert (R2' : exists e2', arun (decode_fuel (zlen b)) e1 b = Some (r2, e2', o2, s2) /\
            e2 = tot (u64 (_total_read dd1 + zlen b)) (_total_overhead dd1) e2').
  { rewrite tot_eta in R2. replace (tot _ _ dd1) with (tot (u64 (_total_read dd1 + zlen b)) (_total_overhead dd1) e1) in R2
      by reflexivity.
    rewrite arun_tot in R2. destruct (arun (decode_fuel (zlen b)) e1 b) as [[[[x y] z] w]|]; [|discriminate].
    cbn in R2. injection R2 as -> <- -> ->. eauto. }
  destruct R2' as (e2' & R2' & Ee2).
  assert (Wd0 : dec_wf (set_read (u64 (_total_read d + zlen a)) d)) by (destruct Hw; constructor; auto).
  destruct (arun_split _ _ _ _ _ _ _ _ _ Wd0 R1 R2') as [-> R].
  cbn [emitting mbind option_bind] in R.
  (* and the same with the other total *)
  set (rd := u64 (_total_read d + zlen (a ++ b))) in *.
  assert (R' : arun (decode_fuel (zlen a) + decode_fuel (zlen b)) (set_read rd d) (a ++ b) =
            Some (r2, tot rd (_total_overhead d) e2', o1 ++ o2, s2)).
  { rewrite tot_eta. rewrite tot_eta in R.
    replace (tot rd (_total_overhead d) d) with (tot rd (_total_overhead d) (tot (u64 (_total_read d + zlen a)) (_total_overhead d) d))
      by reflexivity. rewrite arun_tot, R. reflexivity. }
  assert (E : Some (r3, e3, o3, s3) = Some (r2, tot rd (_total_overhead d) e2', o1 ++ o2, s2)).
  { rewrite <- R', <- R3. destruct (Nat.le_ge_cases (decode_fuel (zlen (a ++ b))) (decode_fuel (zlen a) + decode_fuel (zlen b))).
    - rewrite R3. symmetry. eapply arun_fuel; [exact R3|auto].
    - rewrite R'. eapply arun_fuel; [exact R'|auto]. }
  injection E as -> -> -> ->. rewrite !length_app.
  assert (Et : ztake (zlen o1 + zlen o2) ((o1 ++ o2) ++ s2 ++ t3) = o1 ++ o2)
    by (apply take_app_all; rewrite length_app; lia).
  assert (Ed : zdrop (zlen o1 + zlen o2) ((o1 ++ o2) ++ s2 ++ t3) = s2 ++ t3)
    by (apply drop_app_all; rewrite length_app; lia).
  assert (Et1 : ztake (zlen o1) (o1 ++ [] ++ t1) = o1) by (apply take_app_all; lia).
  assert (Et2 : ztake (zlen o2) (o2 ++ s2 ++ t2) = o2) by (apply take_app_all; lia).
  assert (Ed2 : zdrop (zlen o2) (o2 ++ s2 ++ t2) = s2 ++ t2) by (apply drop_app_all; lia).
  replace (Z.of_nat (length o1 + length o2)) with (zlen o1 + zlen o2) by lia.
  destruct (Z.eqb_spec r2 (-2)) as [->|Hne2].
  - set (ov3 := u64 (_total_overhead d + _)).
    assert (Hov3 : ov3 = _total_overhead d + (zlen a + zlen b - (zlen o1 + zlen o2)))
      by (unfold ov3; rewrite wrap_id; [lia|unfold in_u; zpow; lia]).
    cbn [_total_overhead set_overhead]. rewrite overhead_small by lia.
    rewrite overhead_small in Hb.
    2:{ cbn [_total_overhead set_overhead]. rewrite Hov. rewrite wrap_id by (unfold in_u; zpow; lia). lia. }
    injection Hb as <- <- <- <-. eexists _, _. split; [reflexivity|]. rewrite Et, Ed, Et1, Et2, Ed2.
    split; [reflexivity|]. split; [reflexivity|]. intros _. rewrite Ee2. unfold tot, set_overhead, set_read. cbn.
    f_equal.
    + unfold rd. rewrite T1. cbn. rewrite length_app. unfold wrap. rewrite Zplus_mod_idemp_l. f_equal. lia.
    + rewrite Hov3. change (u64 (_total_overhead d + (zlen a - zlen o1))) with (_total_overhead dd1). rewrite Hov.
      rewrite wrap_id by (unfold in_u; zpow; lia). lia.
  - injection Hb as <- <- <- <-. eexists _, _. split; [reflexivity|]. rewrite Et, Ed, Et1, Et2, Ed2.
    split; [reflexivity|]. split; [|congruence].
    destruct A2 as [->|[->| ->]]; [reflexivity|congruence|].
    rewrite !take_app_all by lia. reflexivity.
Qed.

(** ** The encoding *)

Definition LF : byte := zb 10.
Definition CR : byte := zb 13.

Definition is_hex (c : byte) : bool := negb (decode_hex (sbz c) =? -1).

Definition hex_val (ds : list byte) (acc : Z) : Z :=
  fold_left (fun acc c => acc * 16 + decode_hex (sbz c)) ds acc.

(** The size line of a chunk: digits, and an extension (with the CR). *)
Record size_line := mkSize { sz_digits : list byte; sz_ext : list byte }.

Record size_ok (l : size_line) : Prop := {
  so_hex : Forall (fun c => is_hex c = true) (sz_digits l);
  so_len : (1 <= length (sz_digits l) <= 16)%nat;
  so_sep : match sz_ext l with [] => True | c :: _ => after_size c = true end;
  so_lf : Forall (fun c => is_lf c = false) (sz_ext l)
}.

Definition print_size (l : size_line) : list byte := sz_digits l ++ sz_ext l ++ [LF].

Record chunk_ok (c : size_line * list byte) : Prop := {
  co_size : size_ok (fst c);
  co_val : hex_val (sz_digits (fst c)) 0 = zlen (snd c);
  co_data : snd c <> []
}.

Definition print_chunk (c : size_line * list byte) : list byte := print_size (fst c) ++ snd c ++ [CR; LF].

(** A trailer line: not empty, without a line end inside. *)
Definition trailer_ok (t : list byte) : Prop :=
  match t with [] => False | c :: t => not_cr c = true /\ Forall (fun c => is_lf c = false) (c :: t) end.

Definition print_body (trailers : bool) (cs : list (size_line * list byte)) (last : size_line) (ts : list (list byte))
    : list byte :=
  concat (map print_chunk cs) ++ print_size last
  ++ (if trailers then concat (map (fun t => t ++ [LF]) ts) ++ [CR; LF] else []).

(** A decoder between two chunks. *)
Definition between (d : phr_chunked_decoder) : Prop :=
  _state d = CHUNKED_IN_CHUNK_SIZE /\ _hex_count d = 0 /\ bytes_left_in_chunk d = 0.

Lemma between_wf d : between d -> dec_wf d.
Proof.
  intros (H1 & H2 & H3). constructor; rewrite ?H1, ?H2, ?H3; try lia; try congruence; auto.
Qed.

Lemma hex_not_sep c : after_size c = true -> decode_hex (sbz c) = -1.
Proof. destruct c; vm_compute; intros H; reflexivity || discriminate. Qed.

Definition sized (v : Z) (d : phr_chunked_decoder) : phr_chunked_decoder :=
  set_state CHUNKED_IN_CHUNK_EXT (set_hex 0 (set_left v d)).

Lemma asize_run ds c tl d :
  Forall (fun c => is_hex c = true) ds -> after_size c = true -> dec_wf d -> _state d = CHUNKED_IN_CHUNK_SIZE ->
  1 <= _hex_count d + zlen ds <= 16 ->
  asize d (ds ++ c :: tl) = ALoop (sized (hex_val ds (bytes_left_in_chunk d)) d) [] (c :: tl).
Proof.
  intros Hds Hc. revert d. induction Hds as [|x ds Hx _ IH]; intros d Hw Es Hl; cbn [app asize].
  - rewrite (hex_not_sep c Hc), Hc. cbn [length] in Hl. change (-1 =? -1) with true. cbv iota.
    destruct (Z.eqb_spec (_hex_count d) 0); [lia|]. destruct d. reflexivity.
  - unfold is_hex in Hx. apply negb_true_iff in Hx. rewrite Hx. cbn [length] in Hl. change (8 * 2) with 16.
    destruct (Z.eqb_spec (_hex_count d) 16); [lia|]. apply Z.eqb_neq in Hx.
    pose proof (decode_hex_range (sbz x)) as Hr.
    destruct (step_wf d (decode_hex (sbz x)) Hw Es n ltac:(lia)) as (W & S & Hh & Hb).
    rewrite (IH _ W S) by (rewrite Hh; lia). rewrite Hb. destruct d. reflexivity.
Qed.

Lemma ascan_run stop d pre c tl k :
  Forall (fun c => stop c = false) pre -> stop c = true -> ascan stop d (pre ++ c :: tl) k = k c tl.
Proof. intros Hp Hc. induction Hp as [|x pre Hx _ IH]; cbn [app ascan]; [rewrite Hc|rewrite Hx]; auto. Qed.

(** The size line, read in two rounds. *)
Lemma size_line_run f d l tl :
  size_ok l -> between d ->
  arun (S (S f)) d (print_size l ++ tl) =
  let v := hex_val (sz_digits l) 0 in
  let d' := sized v d in
  if v =? 0 then
    if consume_trailer d then arun f (set_state CHUNKED_IN_TRAILERS_LINE_HEAD d') tl
    else Some (zlen tl, d', [], tl)
  else arun f (set_state CHUNKED_IN_CHUNK_DATA d') tl.
Proof.
  intros [Hh Hl Hs Hf] Hb. pose proof (between_wf d Hb) as Hw. destruct Hb as (B1 & B2 & B3).
  unfold print_size. rewrite <- !app_assoc. cbn [app].
  assert (E : exists c r, sz_ext l ++ LF :: tl = c :: r /\ after_size c = true).
  { destruct (sz_ext l) as [|c r]; cbn [app]; eauto. }
  destruct E as (c & r & E & Hc). rewrite arun_S. unfold acase at 1. rewrite B1, E.
  rewrite asize_run; auto; [|rewrite B2; lia]. rewrite B3. set (v := hex_val _ 0). cbn [emitting].
  rewrite arun_S. unfold acase. cbn [_state sized set_state]. rewrite <- E, ascan_run by (auto; reflexivity).
  change (bytes_left_in_chunk (sized v d)) with v. change (consume_trailer (sized v d)) with (consume_trailer d).
  destruct (v =? 0); [destruct (consume_trailer d)|]; cbn [emitting]; unfold emitting, mbind, option_bind.
  - destruct (arun f _ tl) as [[[[? ?] ?] ?]|]; reflexivity.
  - reflexivity.
  - destruct (arun f _ tl) as [[[[? ?] ?] ?]|]; reflexivity.
Qed.

Lemma chunk_run f d c tl :
  chunk_ok c -> between d ->
  arun (4 + f) d (print_chunk c ++ tl) = emitting (snd c) (arun f d tl).
Proof.
  intros [Hs Hv Hd] Hb. unfold print_chunk. rewrite <- !app_assoc. cbn [Nat.add]. rewrite size_line_run by auto.
  cbv zeta. rewrite Hv. destruct (Z.eqb_spec (zlen (snd c)) 0) as [E|_].
  { destruct (snd c); [congruence|cbn in E; lia]. }
  rewrite arun_S. unfold acase at 1. cbn [_state sized set_state set_hex set_left bytes_left_in_chunk].
  rewrite length_app. destruct (Z.ltb_spec (Z.of_nat (length (snd c) + length ([CR; LF] ++ tl))) (zlen (snd c))); [lia|].
  rewrite take_app_all, drop_app_all by lia. rewrite arun_S. unfold acase at 1. cbn [_state set_state].
  change ([CR; LF] ++ tl) with ([CR] ++ LF :: tl). rewrite ascan_run by (try (constructor; [|constructor]); reflexivity).
  change (negb (sbz LF =? 10)) with false. cbv iota. rewrite emitting_app, app_nil_r. f_equal. f_equal.
  destruct Hb as (B1 & B2 & B3). destruct d. cbn in *. subst. reflexivity.
Qed.

Lemma chunks_run f d cs tl :
  Forall chunk_ok cs -> between d ->
  arun (4 * length cs + f) d (concat (map print_chunk cs) ++ tl) =
  emitting (concat (map snd cs)) (arun f d tl).
Proof.
  intros Hc Hb. induction Hc as [|c cs Hok _ IH]; cbn [map concat length].
  - cbn. destruct (arun f d tl) as [[[[? ?] ?] ?]|]; reflexivity.
  - rewrite <- app_assoc. replace (4 * S (length cs) + f)%nat with (4 + (4 * length cs + f))%nat by lia.
    rewrite chunk_run, IH by auto. apply emitting_app.
Qed.

Lemma trailer_run f d t tl :
  trailer_ok t -> _state d = CHUNKED_IN_TRAILERS_LINE_HEAD ->
  arun (2 + f) d (t ++ LF :: tl) = arun f d tl.
Proof.
  intros Ht E. destruct t as [|c t]; [destruct Ht|]. destruct Ht as [Hc Hl]. inversion_clear Hl as [|? ? Hc' Hl'].
  cbn [Nat.add app]. rewrite arun_S. unfold acase at 1. rewrite E. cbn [ascan]. rewrite Hc.
  unfold is_lf in Hc'. rewrite Hc'. rewrite arun_S. unfold acase at 1. cbn [_state set_state].
  rewrite ascan_run by (auto; reflexivity). rewrite !emitting_app. cbn [app].
  replace (set_state _ (set_state _ d)) with d by (destruct d; cbn in *; subst; reflexivity).
  destruct (arun f d tl) as [[[[? ?] ?] ?]|]; reflexivity.
Qed.

Lemma trailers_run f d ts tl :
  Forall trailer_ok ts -> _state d = CHUNKED_IN_TRAILERS_LINE_HEAD ->
  arun (2 * length ts + S f) d (concat (map (fun t => t ++ [LF]) ts) ++ [CR; LF] ++ tl) = Some (zlen tl, d, [], tl).
Proof.
  intros Ht E. induction Ht as [|t ts Hok _ IH]; cbn [map concat length].
  - cbn [Nat.mul Nat.add app]. rewrite arun_S. unfold acase. rewrite E. reflexivity.
  - rewrite <- !app_assoc. replace (2 * S (length ts) + S f)%nat with (2 + (2 * length ts + S f))%nat by lia.
    cbn [app]. rewrite trailer_run by auto. exact IH.
Qed.

Lemma body_run d cs last ts rest :
  between d -> Forall chunk_ok cs -> size_ok last -> hex_val (sz_digits last) 0 = 0 -> Forall trailer_ok ts ->
  exists fuel d', arun fuel d (print_body (consume_trailer d) cs last ts ++ rest) =
    Some (zlen rest, d', concat (map snd cs), rest).
Proof.
  intros Hb Hc Hl Hv Ht. unfold print_body. exists (4 * length cs + S (S (2 * length ts + 1)))%nat.
  rewrite <- !app_assoc. rewrite chunks_run, size_line_run by auto. cbv zeta. rewrite Hv. cbn [Z.eqb].
  destruct (consume_trailer d).
  - rewrite <- app_assoc. rewrite trailers_run by auto. eexists. cbn. rewrite app_nil_r. reflexivity.
  - eexists. cbn. rewrite app_nil_r. reflexivity.
Qed.

Lemma arun_det f1 f2 d rest r1 r2 : arun f1 d rest = Some r1 -> arun f2 d rest = Some r2 -> r1 = r2.
Proof.
  intros H1 H2. destruct (Nat.le_ge_cases f1 f2) as [H|H].
  - rewrite (arun_fuel _ _ _ _ _ H1 H) in H2. congruence.
  - rewrite (arun_fuel _ _ _ _ _ H2 H) in H1. congruence.
Qed.

(** C12: Round trip: a body in chunked encoding (size lines with any extension,
    non-empty chunks, a zero chunk, and trailers when the decoder consumes
    them) decodes to the concatenation of its chunks; the result is the number
    of bytes that follow the body, and these follow the decoded data. *)
Theorem chunked_roundtrip d cs last ts rest :
  between d -> Forall chunk_ok cs -> size_ok last -> hex_val (sz_digits last) 0 = 0 -> Forall trailer_ok ts ->
  let body := print_body (consume_trailer d) cs last ts ++ rest in
  let data := concat (map snd cs) in
  exists d' b',
    phr_decode_chunked d body (zlen body) = Some (zlen rest, d', b', zlen data) /\
    ztake (zlen data) b' = data /\ ztake (zlen rest) (zdrop (zlen data) b') = rest.
Proof.
  intros Hb Hc Hl Hv Ht body data.
  destruct (decode_run d body (between_wf d Hb)) as (ret & d1 & out & r & tail & R & _ & _ & _ & E). cbv zeta in E.
  destruct (body_run (set_read (u64 (_total_read d + zlen body)) d) cs last ts rest Hb Hc Hl Hv Ht) as (f & d' & R').
  pose proof (arun_det _ _ _ _ _ _ R R') as Ed. injection Ed as -> -> -> ->. fold data in E.
  destruct (Z.eqb_spec (zlen rest) (-2)); [lia|]. exists d', (data ++ rest ++ tail). split; [exact E|].
  rewrite take_app_all, drop_app_all by lia. split; [reflexivity|]. apply take_app_all. lia.
Qed.

(** ** Witnesses *)

Definition fresh_decoder : phr_chunked_decoder := mkDec 0 false 0 CHUNKED_IN_CHUNK_SIZE 0 0.

Definition demo_chunk : size_line * list byte := (mkSize (bytes_of "b") [CR], bytes_of "hello world").

Lemma fresh_between : between fresh_decoder.
Proof. split; [reflexivity|split; reflexivity]. Qed.

Lemma demo_chunk_ok : chunk_ok demo_chunk.
Proof.
  constructor; [|reflexivity|discriminate].
  constructor; cbn; [repeat constructor|lia|reflexivity|repeat constructor].
Qed.

Lemma demo_last_ok : size_ok (mkSize (bytes_of "0") [CR]).
Proof. constructor; cbn; [repeat constructor|lia|reflexivity|repeat constructor]. Qed.

Lemma chunked_in_place_witness :
  exists d' tail, phr_decode_chunked fresh_decoder (bytes_of "2;x" ++ LF :: bytes_of "abcd") 8 =
    Some (-1, d', bytes_of "ab" ++ bytes_of "cd" ++ tail, 2) /\ length tail = 4%nat.
Proof.
  destruct (chunked_in_place fresh_decoder (bytes_of "2;x" ++ LF :: bytes_of "abcd") (between_wf _ fresh_between))
    as (ret & d1 & out & rest & tail & H1 & H2 & H3 & _).
  vm_compute in H1. injection H1 as <- <- <- <-. destruct H2 as [H2 _]. eexists _, tail. split; [exact H2|].
  cbn in H3. lia.
Defined.

Lemma chunked_split_witness :
  exists d1 a' d2 b',
    phr_decode_chunked fresh_decoder (bytes_of "3;xy") 4 = Some (-2, d1, a', 0) /\
    phr_decode_chunked d1 (LF :: bytes_of "ab") 3 = Some (-2, d2, b', 2) /\
    exists c' d2', phr_decode_chunked fresh_decoder (bytes_of "3;xy" ++ LF :: bytes_of "ab") 7 = Some (-2, d2', c', 2) /\
      d2' = d2.
Proof.
  eexists _, _, _, _. split; [vm_compute; reflexivity|]. split; [vm_compute; reflexivity|].
  edestruct (chunked_split fresh_decoder (bytes_of "3;xy") (LF :: bytes_of "ab"))
    as (c' & d2' & H1 & _ & _ & H2).
  - exact (between_wf _ fresh_between).
  - discriminate.
  - reflexivity.
  - vm_compute. reflexivity.
  - vm_compute. reflexivity.
  - exists c', d2'. split; [exact H1|exact (H2 eq_refl)].
Defined.

Lemma chunked_roundtrip_witness :
  exists d' b',
    phr_decode_chunked fresh_decoder
      (print_body false [demo_chunk] (mkSize (bytes_of "0") [CR]) [] ++ [CR; LF]) 21 = Some (2, d', b', 11) /\
    ztake 11 b' = bytes_of "hello world".
Proof.
  destruct (chunked_roundtrip fresh_decoder [demo_chunk] (mkSize (bytes_of "0") [CR]) [] [CR; LF] fresh_between
    (Forall_cons_2 _ _ _ demo_chunk_ok (Forall_nil_2 _)) demo_last_ok eq_refl (Forall_nil_2 _)) as (d' & b' & H1 & H2 & _).
  exists d', b'. split; [exact H1|exact H2].
Defined.
