(* ===== verification/Mt64.v ===== *)
(** * The 64-bit Mersenne twister

    src/mt19937-64.c: seeding, generation and tempering, with the static
    variables [mt] and [mti] passed as a state.  Words are integers below
    2^64. *)

From S2P Require Import Prelude.

Definition NN : Z := 312.
Definition MM : Z := 156.
Definition MATRIX_A : Z := 0xB5026F5AA96619E9.
Definition UM : Z := 0xFFFFFFFF80000000.
Definition LM : Z := 0x7FFFFFFF.

(** [mti = NN + 1]: not seeded. *)
Record mt_state := mkMt { mt : list Z; mti : Z }.

Definition mt_get (m : list Z) (i : Z) : Z := default 0 (m !! Z.to_nat i).
Definition mt_set (m : list Z) (i v : Z) : list Z := <[Z.to_nat i := v]> m.

(** ** Seeding *)

Definition init_word (prev i : Z) : Z :=
  u64 (6364136223846793005 * Z.lxor prev (Z.shiftr prev 62) + i).

(** [for (mti=1; mti<NN; mti++)], [n] rounds of it. *)
Fixpoint init_loop (n : nat) (i : Z) (m : list Z) : list Z :=
  match n with
  | O => m
  | S n => init_loop n (i + 1) (mt_set m i (init_word (mt_get m (i - 1)) i))
  end.

Definition init_genrand64 (seed : Z) (s : mt_state) : mt_state :=
  mkMt (init_loop (Z.to_nat NN - 1) 1 (mt_set (mt s) 0 seed)) NN.

(** [i] and [m] after [i++] and the wrap to 1. *)
Definition next_i (m : list Z) (i : Z) : list Z * Z :=
  if NN <=? i + 1 then (mt_set m 0 (mt_get m (NN - 1)), 1) else (m, i + 1).

Definition mix (m : list Z) (i mult : Z) : Z :=
  Z.lxor (mt_get m i) (u64 (Z.lxor (mt_get m (i - 1)) (Z.shiftr (mt_get m (i - 1)) 62) * mult)).

(** The first loop, [k] rounds; [None]: [init_key] is read past its end. *)
Fixpoint key_loop (k : nat) (m : list Z) (i j : Z) (init_key : list Z) : option (list Z * Z) :=
  match k with
  | O => Some (m, i)
  | S k =>
      key ← init_key !! Z.to_nat j;
      let m := mt_set m i (u64 (mix m i 3935559000370003845 + key + j)) in
      let (m, i) := next_i m i in
      key_loop k m i (if zlen init_key <=? j + 1 then 0 else j + 1) init_key
  end.

Fixpoint unkey_loop (k : nat) (m : list Z) (i : Z) : list Z :=
  match k with
  | O => m
  | S k =>
      let m := mt_set m i (u64 (mix m i 2862933555777941757 - i)) in
      let (m, i) := next_i m i in
      unkey_loop k m i
  end.

Definition init_by_array64 (init_key : list Z) (s : mt_state) : option mt_state :=
  let s := init_genrand64 19650218 s in
  let k := if zlen init_key <? NN then NN else zlen init_key in
  '(m, i) ← key_loop (Z.to_nat k) (mt s) 1 0 init_key;
  let m := unkey_loop (Z.to_nat (NN - 1)) m i in
  Some (mkMt (mt_set m 0 (Z.shiftl 1 63)) (mti s)).

(** ** Generation *)

Definition mag01 (b : Z) : Z := if b =? 0 then 0 else MATRIX_A.

(** The new word from the words at [i], [i+1] and [i+MM]. *)
Definition twist (u l m : Z) : Z :=
  let x := Z.lor (Z.land u UM) (Z.land l LM) in
  Z.lxor (Z.lxor m (Z.shiftr x 1)) (mag01 (Z.land x 1)).

(** [for (i=0;i<NN-MM;i++)] *)
Fixpoint gen_low (n : nat) (i : Z) (m : list Z) : list Z :=
  match n with
  | O => m
  | S n => gen_low n (i + 1) (mt_set m i (twist (mt_get m i) (mt_get m (i + 1)) (mt_get m (i + MM))))
  end.

(** [for (;i<NN-1;i++)] *)
Fixpoint gen_high (n : nat) (i : Z) (m : list Z) : list Z :=
  match n with
  | O => m
  | S n => gen_high n (i + 1) (mt_set m i (twist (mt_get m i) (mt_get m (i + 1)) (mt_get m (i + (MM - NN)))))
  end.

Definition gen_last (m : list Z) : list Z :=
  mt_set m (NN - 1) (twist (mt_get m (NN - 1)) (mt_get m 0) (mt_get m (MM - 1))).

Definition generate (m : list Z) : list Z :=
  gen_last (gen_high (Z.to_nat (MM - 1)) (NN - MM) (gen_low (Z.to_nat (NN - MM)) 0 m)).

Definition temper (x : Z) : Z :=
  let x := Z.lxor x (Z.land (Z.shiftr x 29) 0x5555555555555555) in
  let x := Z.lxor x (Z.land (u64 (Z.shiftl x 17)) 0x71D67FFFEDA60000) in
  let x := Z.lxor x (Z.land (u64 (Z.shiftl x 37)) 0xFFF7EEE000000000) in
  Z.lxor x (Z.shiftr x 43).

Definition genrand64_int64 (s : mt_state) : Z * mt_state :=
  let s :=
    if NN <=? mti s then
      let s := if mti s =? NN + 1 then init_genrand64 5489 s else s in
      mkMt (generate (mt s)) 0
    else s in
  (temper (mt_get (mt s) (mti s)), mkMt (mt s) (mti s + 1)).

(** The static storage before any call. *)
Definition mt_start : mt_state := mkMt (replicate (Z.to_nat NN) 0) (NN + 1).

Fixpoint genrand_n (n : nat) (s : mt_state) : list Z * mt_state :=
  match n with
  | O => ([], s)
  | S n => let (x, s) := genrand64_int64 s in let (xs, s) := genrand_n n s in (x :: xs, s)
  end.
