(* ===== verification/Mt64Props.v ===== *)
(** * The Mersenne twister: theorems

    The in-place block generator computes the linear recurrence; tempering can
    be undone, so that 312 outputs give the state away; seeding gives a full
    state of 64-bit words. *)

From S2P Require Import Prelude Mt64.

(** ** Lists as arrays *)

Lemma get_set_same m i v : 0 <= i < zlen m -> mt_get (mt_set m i v) i = v.
Proof.
  intros H. unfold mt_get, mt_set. rewrite list_lookup_insert_eq by lia. reflexivity.
Qed.

Lemma set_len m i v : length (mt_set m i v) = length m.
Proof. apply length_insert. Qed.

(** ** The recurrence *)

(** The last 312 words of the sequence; a step appends the next one. *)
Definition next_word (w : list Z) : Z := twist (mt_get w 0) (mt_get w 1) (mt_get w MM).

Definition step (w : list Z) : list Z := tl w ++ [next_word w].

Fixpoint steps (n : nat) (w : list Z) : list Z :=
  match n with O => w | S n => steps n (step w) end.

Definition full (w : list Z) : Prop := length w = Z.to_nat NN.

Lemma step_full w : full w -> full (step w).
Proof.
  unfold full, step. intros H. rewrite length_app. destruct w as [|x w]; [discriminate|].
  cbn [tl length] in *. lia.
Qed.

Lemma steps_full n w : full w -> full (steps n w).
Proof. revert w. induction n; intros w H; cbn [steps]; auto using step_full. Qed.

Lemma steps_add a b w : steps (a + b) w = steps b (steps a w).
Proof. revert w. induction a as [|a IH]; intros w; cbn [steps Nat.add]; auto. Qed.

Lemma steps_S n w : steps (S n) w = step (steps n w).
Proof. replace (S n) with (n + 1)%nat by lia. rewrite steps_add. reflexivity. Qed.

(** The word a step appends is the next output before tempering. *)
Definition last_word (w : list Z) : Z := mt_get w (NN - 1).

Lemma last_step w : full w -> last_word (step w) = next_word w.
Proof.
  unfold last_word, mt_get, step, full. intros H. destruct w as [|x w]; [discriminate|]. cbn [tl length] in *.
  change (Z.to_nat (NN - 1)) with 311%nat. change (Z.to_nat NN) with 312%nat in H.
  rewrite lookup_app_r by lia. replace (311 - length w)%nat with O by lia. reflexivity.
Qed.

(** A window that slides: what is at [j] now was last [311 - j] steps ago. *)
Lemma step_shift w (j : nat) : full w -> (j < 311)%nat -> step w !! j = w !! S j.
Proof.
  unfold full, step. intros H Hj. destruct w as [|x w]; [discriminate|]. cbn [tl length] in *.
  change (Z.to_nat NN) with 312%nat in H. rewrite lookup_app_l by lia. reflexivity.
Qed.

Lemma steps_shift n w (j : nat) : full w -> (j + n < 312)%nat -> steps n w !! j = w !! (j + n)%nat.
Proof.
  revert w. induction n as [|n IH]; intros w H Hj; cbn [steps].
  - rewrite Nat.add_0_r. reflexivity.
  - rewrite IH by (auto using step_full; lia). rewrite step_shift by (auto; lia). f_equal. lia.
Qed.

Lemma block_word w (j : nat) :
  full w -> (j < 312)%nat -> mt_get (steps 312 w) (Z.of_nat j) = last_word (steps (S j) w).
Proof.
  intros H Hj. replace 312%nat with (S j + (311 - j))%nat by lia. rewrite steps_add.
  unfold mt_get, last_word. rewrite Nat2Z.id, steps_shift by (auto using steps_full; lia).
  replace (j + (311 - j))%nat with 311%nat by lia. reflexivity.
Qed.

(** ** The block generator *)

(** The window after [i] rounds: the array, rotated. *)
Definition rotate (i : nat) (m : list Z) : list Z := drop i m ++ take i m.

Lemma rotate_get i m (j : nat) :
  full m -> (i <= 312)%nat -> (j < 312)%nat ->
  mt_get (rotate i m) (Z.of_nat j) = mt_get m (Z.of_nat (if (i + j <? 312)%nat then i + j else i + j - 312)).
Proof.
  intros Hm Hi Hj. unfold full in Hm. change (Z.to_nat NN) with 312%nat in Hm. unfold mt_get, rotate. rewrite !Nat2Z.id.
  destruct (Nat.ltb_spec (i + j) 312) as [H|H].
  - rewrite lookup_app_l by (rewrite length_drop; lia). rewrite lookup_drop. reflexivity.
  - rewrite lookup_app_r by (rewrite length_drop; lia). rewrite length_drop, lookup_take_lt by lia.
    do 2 f_equal. lia.
Qed.

Lemma rotate_set i m v :
  full m -> (i < 312)%nat -> rotate (S i) (mt_set m (Z.of_nat i) v) = tl (rotate i m) ++ [v].
Proof.
  intros Hm Hi. unfold full in Hm. change (Z.to_nat NN) with 312%nat in Hm. unfold rotate, mt_set. rewrite Nat2Z.id.
  rewrite insert_take_drop by lia.
  assert (Ht : length (take i m) = i) by (rewrite length_take; lia).
  replace (S i) with (length (take i m) + 1)%nat at 1 by lia. rewrite drop_app_add.
  replace (S i) with (length (take i m) + 1)%nat at 2 by lia. rewrite take_app_add. cbn [drop take].
  rewrite drop_0. change (take 0 (drop (S i) m)) with (@nil Z).
  destruct (drop i m) as [|x r] eqn:E.
  - apply (f_equal length) in E. rewrite length_drop in E. cbn in E. lia.
  - replace (drop (S i) m) with r; [cbn [tl app]; rewrite <- app_assoc; reflexivity|].
    replace (S i) with (i + 1)%nat by lia. rewrite <- drop_drop, E. reflexivity.
Qed.

(** One assignment of the generator is one step. *)
Lemma gen_step i m (a b : Z) :
  full m -> (i < 312)%nat ->
  a = Z.of_nat (if (i + 1 <? 312)%nat then i + 1 else 0) ->
  b = Z.of_nat (if (i + 156 <? 312)%nat then i + 156 else i - 156) ->
  let m' := mt_set m (Z.of_nat i) (twist (mt_get m (Z.of_nat i)) (mt_get m a) (mt_get m b)) in
  full m' /\ rotate (S i) m' = step (rotate i m).
Proof.
  intros Hm Hi -> ->. cbv zeta. split; [unfold full; rewrite set_len; auto|].
  rewrite rotate_set by auto. unfold step, next_word. f_equal. f_equal.
  change MM with (Z.of_nat 156). change 1 with (Z.of_nat 1). change 0 with (Z.of_nat 0).
  rewrite !rotate_get by (auto; lia). rewrite Nat.add_0_r.
  destruct (Nat.ltb_spec i 312); [|lia].
  replace (if (i + 1 <? 312)%nat then (i + 1)%nat else 0%nat) with (if (i + 1 <? 312)%nat then (i + 1)%nat else (i + 1 - 312)%nat)
    by (destruct (Nat.ltb_spec (i + 1) 312); lia).
  replace (if (i + 156 <? 312)%nat then (i + 156)%nat else (i - 156)%nat)
    with (if (i + 156 <? 312)%nat then (i + 156)%nat else (i + 156 - 312)%nat)
    by (destruct (Nat.ltb_spec (i + 156) 312); lia).
  reflexivity.
Qed.

Lemma gen_low_steps n i m :
  full m -> (i + n <= 156)%nat ->
  full (gen_low n (Z.of_nat i) m) /\ rotate (i + n) (gen_low n (Z.of_nat i) m) = steps n (rotate i m).
Proof.
  revert i m. induction n as [|n IH]; intros i m Hm Hi; cbn [gen_low steps].
  - rewrite Nat.add_0_r. auto.
  - destruct (gen_step i m (Z.of_nat i + 1) (Z.of_nat i + MM) Hm) as [H1 H2]; try lia.
    + destruct (Nat.ltb_spec (i + 1) 312); lia.
    + change MM with 156. destruct (Nat.ltb_spec (i + 156) 312); lia.
    + cbv zeta in *. rewrite <- H2. replace (Z.of_nat i + 1) with (Z.of_nat (S i)) in * by lia.
      replace (i + S n)%nat with (S i + n)%nat by lia. apply IH; [exact H1|lia].
Qed.

Lemma gen_high_steps n i m :
  full m -> (156 <= i)%nat -> (i + n <= 311)%nat ->
  full (gen_high n (Z.of_nat i) m) /\ rotate (i + n) (gen_high n (Z.of_nat i) m) = steps n (rotate i m).
Proof.
  revert i m. induction n as [|n IH]; intros i m Hm Hl Hi; cbn [gen_high steps].
  - rewrite Nat.add_0_r. auto.
  - destruct (gen_step i m (Z.of_nat i + 1) (Z.of_nat i + (MM - NN)) Hm) as [H1 H2]; try lia.
    + destruct (Nat.ltb_spec (i + 1) 312); lia.
    + change (MM - NN) with (-156). destruct (Nat.ltb_spec (i + 156) 312); lia.
    + cbv zeta in *. rewrite <- H2. replace (Z.of_nat i + 1) with (Z.of_nat (S i)) in * by lia.
      replace (i + S n)%nat with (S i + n)%nat by lia. apply IH; [exact H1|lia|lia].
Qed.

#[local] Opaque steps rotate gen_low gen_high.

Lemma rotate_zero m : rotate 0 m = m.
Proof. Transparent rotate. unfold rotate. rewrite drop_0, take_0, app_nil_r. reflexivity. Qed.

Lemma rotate_full m : full m -> rotate 312 m = m.
Proof.
  unfold rotate, full. change (Z.to_nat NN) with 312%nat. intros H. rewrite drop_ge, take_ge by lia. reflexivity.
Qed.
#[local] Opaque rotate.

Lemma generate_steps m : full m -> full (generate m) /\ generate m = steps 312 m.
Proof.
  intros Hm. unfold generate.
  destruct (gen_low_steps 156 0 m Hm ltac:(lia)) as [L1 L2]. rewrite rotate_zero in L2.
  destruct (gen_high_steps 155 156 _ L1 ltac:(lia) ltac:(lia)) as [H1 H2].
  replace (Z.to_nat (MM - 1)) with 155%nat by reflexivity. replace (Z.to_nat (NN - MM)) with 156%nat by reflexivity.
  replace (NN - MM) with (Z.of_nat 156) by reflexivity. replace 0 with (Z.of_nat 0) by reflexivity.
  set (m1 := gen_low 156 (Z.of_nat 0) m) in *. set (m2 := gen_high 155 (Z.of_nat 156) m1) in *.
  destruct (gen_step 311 m2 0 (MM - 1) H1 ltac:(lia) eq_refl eq_refl) as [G1 G2]. cbv zeta in G1, G2.
  replace (Z.of_nat 311) with (NN - 1) in G1, G2 by reflexivity. fold (gen_last m2) in G1, G2. split; [exact G1|].
  replace (156 + 155)%nat with 311%nat in H2 by reflexivity. replace (0 + 156)%nat with 156%nat in L2 by reflexivity.
  rewrite H2, L2, <- steps_add, <- steps_S, (rotate_full _ G1) in G2. exact G2.
Qed.

(** ** The outputs *)

(** [w]: the last 312 words of the sequence, the newest being the last output. *)
Definition at_window (s : mt_state) (w : list Z) : Prop :=
  full w /\
  (mti s = NN /\ mt s = w \/
   exists (j : nat) old, mti s = Z.of_nat j /\ (j < 312)%nat /\ full old /\ mt s = steps 312 old /\ w = steps j old).

Lemma genrand_window s w :
  at_window s w ->
  fst (genrand64_int64 s) = temper (last_word (step w)) /\ at_window (snd (genrand64_int64 s)) (step w).
Proof.
  intros [Hw H]. pose proof (step_full w Hw) as Hw'. unfold genrand64_int64.
  destruct H as [[Hi Hm] | (j & old & Hi & Hj & Ho & Hm & Hs)].
  - rewrite Hi. change (NN <=? NN) with true. change (NN =? NN + 1) with false. cbv iota zeta.
    cbn [mt mti]. rewrite Hm. destruct (generate_steps w Hw) as [_ ->]. cbn [mt mti fst snd].
    change 0 with (Z.of_nat 0) at 1. rewrite block_word by (auto; lia). rewrite steps_S.
    replace (steps 0 w) with w by reflexivity. split; [reflexivity|].
    split; auto. right. exists 1%nat, w. rewrite (steps_S 0). repeat split; auto. lia.
  - destruct (Z.leb_spec NN (mti s)); [unfold NN in *; lia|]. cbn [mt mti fst snd]. rewrite Hm, Hi.
    rewrite block_word, steps_S, <- Hs by auto. split; [reflexivity|]. split; auto.
    destruct (Nat.eq_dec j 311%nat) as [->|Hne].
    + left. split; [reflexivity|]. cbn [mt]. rewrite Hs, <- steps_S. reflexivity.
    + right. exists (S j), old. rewrite (steps_S j), <- Hs. cbn [mti mt]. repeat split; auto; lia.
Qed.

(** The [k]-th output from a window. *)
Definition mt_stream (w : list Z) (k : nat) : Z := temper (last_word (steps (S k) w)).

Lemma genrand_n_window n s w :
  at_window s w ->
  fst (genrand_n n s) = map (mt_stream w) (seq 0 n) /\ at_window (snd (genrand_n n s)) (steps n w).
Proof.
  revert s w. induction n as [|n IH]; intros s w H; cbn [genrand_n]; [auto|].
  destruct (genrand_window s w H) as [H1 H2]. destruct (genrand64_int64 s) as [x s']. cbn [fst snd] in *.
  destruct (IH s' (step w) H2) as [I1 I2]. destruct (genrand_n n s') as [xs s'']. cbn [fst snd] in *.
  replace (steps (S n) w) with (steps n (step w)) by reflexivity. split; [|exact I2].
  cbn [seq map]. f_equal; [exact H1|]. rewrite I1, <- seq_shift, map_map. apply map_ext. reflexivity.
Qed.

(** ** Words *)

Definition word (x : Z) : Prop := 0 <= x < 2 ^ 64.

Lemma word_u64 x : word (u64 x).
Proof. apply wrap_range. lia. Qed.

Lemma word_bits x : word x <-> 0 <= x /\ forall i, 64 <= i -> Z.testbit x i = false.
Proof.
  unfold word. split.
  - intros [H0 H]. split; auto. intros i Hi. destruct (Z.eq_dec x 0) as [->|]; [apply Z.bits_0|].
    apply Z.bits_above_log2; [lia|]. apply Z.log2_lt_pow2; try lia. eapply Z.lt_le_trans; [exact H|].
    apply Z.pow_le_mono_r; lia.
  - intros [H0 H]. split; auto. replace x with (x mod 2 ^ 64); [apply Z.mod_pos_bound; lia|].
    apply Z.bits_inj'. intros i Hi. destruct (Z.lt_ge_cases i 64).
    + apply Z.mod_pow2_bits_low. lia.
    + rewrite Z.mod_pow2_bits_high, H by lia. reflexivity.
Qed.

Lemma word_lxor a b : word a -> word b -> word (Z.lxor a b).
Proof.
  rewrite !word_bits. intros [A1 A2] [B1 B2]. split; [apply Z.lxor_nonneg; tauto|].
  intros i Hi. rewrite Z.lxor_spec, A2, B2 by auto. reflexivity.
Qed.

Lemma word_lor a b : word a -> word b -> word (Z.lor a b).
Proof.
  rewrite !word_bits. intros [A1 A2] [B1 B2]. split; [apply Z.lor_nonneg; tauto|].
  intros i Hi. rewrite Z.lor_spec, A2, B2 by auto. reflexivity.
Qed.

Lemma word_land a b : word a -> word (Z.land a b).
Proof.
  rewrite !word_bits. intros [A1 A2]. split; [apply Z.land_nonneg; tauto|].
  intros i Hi. rewrite Z.land_spec, A2 by auto. reflexivity.
Qed.

Lemma word_shiftr a n : 0 <= n -> word a -> word (Z.shiftr a n).
Proof.
  rewrite !word_bits. intros Hn [A1 A2]. split; [apply Z.shiftr_nonneg; auto|].
  intros i Hi. rewrite Z.shiftr_spec, A2 by lia. reflexivity.
Qed.

Lemma word_temper x : word x -> word (temper x).
Proof.
  intros H. unfold temper. apply word_lxor; [|apply word_shiftr; [lia|]]; apply word_lxor; try (apply word_land, word_u64);
    apply word_lxor; try (apply word_land, word_u64); apply word_lxor; auto; apply word_land, word_shiftr; auto; lia.
Qed.

Lemma word_twist u l m : word u -> word l -> word m -> word (twist u l m).
Proof.
  intros Hu Hl Hm. unfold twist. apply word_lxor; [apply word_lxor; auto; apply word_shiftr; [lia|]; apply word_lor; apply word_land; auto|].
  unfold mag01. destruct (_ =? 0); split; reflexivity || discriminate.
Qed.

Lemma mt_get_word m i : Forall word m -> word (mt_get m i).
Proof.
  intros H. unfold mt_get. destruct (m !! Z.to_nat i) as [x|] eqn:E; cbn.
  - eapply Forall_lookup_1 in E; eauto.
  - split; reflexivity || discriminate.
Qed.

Lemma step_words w : Forall word w -> Forall word (step w).
Proof.
  intros H. unfold step. apply Forall_app. split; [destruct w; [auto|inversion H; auto]|].
  constructor; auto. apply word_twist; apply mt_get_word, H.
Qed.

Lemma steps_words n w : Forall word w -> Forall word (steps n w).
Proof. Transparent steps. revert w. induction n; intros w H; cbn [steps]; auto using step_words. Qed.
#[local] Opaque steps.

(** ** Tempering *)

Definition linear (f : Z -> Z) : Prop := forall a b, f (Z.lxor a b) = Z.lxor (f a) (f b).

Lemma lin_id : linear (fun x => x).
Proof. intros a b. reflexivity. Qed.

Lemma lin_comp f g : linear f -> linear g -> linear (fun x => f (g x)).
Proof. intros Hf Hg a b. rewrite Hg. apply Hf. Qed.

Lemma lin_lxor f g : linear f -> linear g -> linear (fun x => Z.lxor (f x) (g x)).
Proof.
  intros Hf Hg a b. rewrite Hf, Hg, !Z.lxor_assoc. f_equal. rewrite <- !Z.lxor_assoc. f_equal. apply Z.lxor_comm.
Qed.

Lemma lin_land c f : linear f -> linear (fun x => Z.land (f x) c).
Proof.
  intros Hf a b. rewrite Hf. apply Z.bits_inj'. intros i Hi. rewrite Z.land_spec, !Z.lxor_spec, !Z.land_spec.
  destruct (Z.testbit (f a) i), (Z.testbit (f b) i), (Z.testbit c i); reflexivity.
Qed.

Lemma lin_shiftr n f : linear f -> linear (fun x => Z.shiftr (f x) n).
Proof. intros Hf a b. rewrite Hf. apply Z.shiftr_lxor. Qed.

Lemma u64_land x : u64 x = Z.land x (Z.ones 64).
Proof. rewrite Z.land_ones by lia. reflexivity. Qed.

Lemma lin_shl n f : linear f -> linear (fun x => u64 (Z.shiftl (f x) n)).
Proof.
  intros Hf a b. rewrite Hf, Z.shiftl_lxor, !u64_land. apply (lin_land _ _ lin_id).
Qed.

Create HintDb lin.
#[local] Hint Resolve lin_id lin_comp lin_lxor lin_land lin_shiftr lin_shl : lin.

Lemma temper_linear : linear temper.
Proof. unfold temper. auto 20 with lin. Qed.

(** A linear map that fixes the 64 unit words fixes every word. *)
Lemma linear_fix f n :
  linear f -> (forall i, (i < n)%nat -> f (2 ^ Z.of_nat i) = 2 ^ Z.of_nat i) ->
  forall x, 0 <= x < 2 ^ Z.of_nat n -> f x = x.
Proof.
  intros Hf. induction n as [|n IH]; intros Hb x Hx.
  - change (2 ^ Z.of_nat 0) with 1 in Hx. replace x with 0 by lia.
    specialize (Hf 0 0). change (Z.lxor 0 0) with 0 in Hf. rewrite Z.lxor_nilpotent in Hf. exact Hf.
  - rewrite Nat2Z.inj_succ, Z.pow_succ_r in Hx by lia. destruct (Z.lt_ge_cases x (2 ^ Z.of_nat n)) as [H|H].
    + apply IH; [intros i Hi; apply Hb; lia|lia].
    + set (p := 2 ^ Z.of_nat n) in *.
      assert (E : x = Z.lxor p (x - p)).
      { rewrite <- Z.add_nocarry_lxor; [lia|]. apply Z.bits_inj'. intros i Hi. rewrite Z.land_spec, Z.bits_0.
        unfold p at 1. rewrite Z.pow2_bits_eqb by lia. destruct (Z.eqb_spec (Z.of_nat n) i) as [<-|]; [|reflexivity].
        cbn [andb]. destruct (Z.eq_dec (x - p) 0) as [->|]; [apply Z.bits_0|]. apply Z.bits_above_log2; [lia|].
        apply Z.log2_lt_pow2; fold p; lia. }
      pose proof (Hb n ltac:(lia)) as Hp. fold p in Hp.
      rewrite E, Hf, Hp, (IH (fun i Hi => Hb i (Nat.lt_lt_succ_r _ _ Hi)) (x - p)) by lia. reflexivity.
Qed.

(** Undoing the four steps of [temper], the last first. *)
Definition untemper (y : Z) : Z :=
  let y := Z.lxor y (Z.shiftr y 43) in
  let y := Z.lxor y (Z.land (u64 (Z.shiftl y 37)) 0xFFF7EEE000000000) in
  let c x := Z.lxor y (Z.land (u64 (Z.shiftl x 17)) 0x71D67FFFEDA60000) in
  let y := c (c (c y)) in
  let d x := Z.lxor y (Z.land (Z.shiftr x 29) 0x5555555555555555) in
  d (d y).

Lemma untemper_linear : linear untemper.
Proof. unfold untemper. auto 60 with lin. Qed.

Lemma untemper_temper x : word x -> untemper (temper x) = x.
Proof.
  intros H. apply (linear_fix (fun x => untemper (temper x)) 64); [|clear H|exact H].
  - apply lin_comp; [apply untemper_linear|apply temper_linear].
  - intros i Hi. do 64 (destruct i as [|i]; [vm_compute; reflexivity|]). lia.
Qed.

(** ** Seeding *)

Lemma set_full m i v : full m -> full (mt_set m i v).
Proof. unfold full. rewrite set_len. auto. Qed.

Lemma set_words m i v : Forall word m -> word v -> Forall word (mt_set m i v).
Proof. intros Hm Hv. unfold mt_set. apply Forall_insert; auto. Qed.

Lemma get_set_other m i j v : 0 <= i -> 0 <= j -> i <> j -> mt_get (mt_set m i v) j = mt_get m j.
Proof. intros Hi Hj Hne. unfold mt_get, mt_set. rewrite list_lookup_insert_ne by lia. reflexivity. Qed.

(** The array after seeding: each word from the one before it. *)
Lemma init_loop_spec n i m :
  full m -> 1 <= i -> i + Z.of_nat n <= NN ->
  let m' := init_loop n i m in
  full m' /\ (forall j, 0 <= j < i -> mt_get m' j = mt_get m j) /\
  (forall j, i <= j < i + Z.of_nat n -> mt_get m' j = init_word (mt_get m' (j - 1)) j).
Proof.
  revert i m. induction n as [|n IH]; intros i m Hm Hi Hn; cbn [init_loop]; cbv zeta.
  { split; [auto|]. split; [auto|]. intros j Hj. lia. }
  set (m1 := mt_set m i _).
  destruct (IH (i + 1) m1 ltac:(apply set_full; auto) ltac:(lia) ltac:(lia)) as (I1 & I2 & I3). cbv zeta in *.
  split; auto. split.
  - intros j Hj. rewrite I2 by lia. apply get_set_other; lia.
  - intros j Hj. destruct (Z.eq_dec j i) as [->|Hne]; [|apply I3; lia].
    rewrite !I2 by lia. unfold m1 at 1. rewrite get_set_same by (unfold full in Hm; rewrite Hm; unfold NN in *; lia).
    f_equal. symmetry. apply get_set_other; lia.
Qed.

Lemma init_loop_words n i m : Forall word m -> Forall word (init_loop n i m).
Proof.
  revert i m. induction n as [|n IH]; intros i m H; cbn [init_loop]; auto.
  apply IH, set_words; auto. apply word_u64.
Qed.

(** Ready to generate: a full array of words, and an index within it. *)
Definition mt_ok (s : mt_state) : Prop := full (mt s) /\ Forall word (mt s) /\ 0 <= mti s <= NN.

Lemma init_ok seed s :
  full (mt s) -> Forall word (mt s) -> word seed -> mt_ok (init_genrand64 seed s) /\ mti (init_genrand64 seed s) = NN.
Proof.
  intros Hf Hw Hs. unfold init_genrand64. split; [|reflexivity]. split; [|split]; cbn [mt mti].
  - apply init_loop_spec; [apply set_full; auto|lia|reflexivity].
  - apply init_loop_words, set_words; auto.
  - unfold NN. lia.
Qed.

Lemma word_mix m i mult : Forall word m -> word (mix m i mult).
Proof. intros H. unfold mix. apply word_lxor; [apply mt_get_word; auto|apply word_u64]. Qed.

Definition seeding (m : list Z) (i : Z) : Prop := full m /\ Forall word m /\ 1 <= i < NN.

Lemma next_i_ok m i : seeding m i -> seeding (fst (next_i m i)) (snd (next_i m i)).
Proof.
  intros (H1 & H2 & H3). unfold next_i. destruct (Z.leb_spec NN (i + 1)); cbn [fst snd].
  - split; [apply set_full; auto|]. split; [apply set_words; auto; apply mt_get_word; auto|unfold NN; lia].
  - split; [auto|]. split; [auto|lia].
Qed.

(** The key is read within its bounds, in turn from its start. *)
Lemma key_loop_ok k m i j key :
  seeding m i -> 0 <= j < zlen key ->
  exists m' i', key_loop k m i j key = Some (m', i') /\ seeding m' i'.
Proof.
  revert m i j. induction k as [|k IH]; intros m i j Hs Hj; cbn [key_loop]; [eauto|].
  destruct (lookup_lt_is_Some_2 key (Z.to_nat j) ltac:(lia)) as [x Hx]. rewrite Hx. cbn [mbind option_bind].
  set (m1 := mt_set m i _). assert (Hs1 : seeding m1 i).
  { destruct Hs as (H1 & H2 & H3). split; [apply set_full; auto|]. split; auto. apply set_words; auto. apply word_u64. }
  pose proof (next_i_ok m1 i Hs1) as Hn. destruct (next_i m1 i) as [m2 i2]. cbn [fst snd] in Hn.
  apply IH; auto. destruct (Z.leb_spec (zlen key) (j + 1)); lia.
Qed.

Lemma unkey_loop_ok k m i : seeding m i -> full (unkey_loop k m i) /\ Forall word (unkey_loop k m i).
Proof.
  revert m i. induction k as [|k IH]; intros m i Hs; cbn [unkey_loop]; [destruct Hs as (?&?&_); auto|].
  set (m1 := mt_set m i _). assert (Hs1 : seeding m1 i).
  { destruct Hs as (H1 & H2 & H3). split; [apply set_full; auto|]. split; auto. apply set_words; auto. apply word_u64. }
  pose proof (next_i_ok m1 i Hs1) as Hn. destruct (next_i m1 i) as [m2 i2]. apply IH. exact Hn.
Qed.

(** ** Theorems *)

(** The state at the first call: the default seed if none was set. *)
Definition seeded (s : mt_state) : mt_state :=
  if mti s =? NN + 1 then init_genrand64 5489 s else s.

Lemma genrand_seeded n s : genrand_n (S n) s = genrand_n (S n) (seeded s).
Proof.
  unfold seeded. destruct (Z.eqb_spec (mti s) (NN + 1)) as [E|]; [|reflexivity].
  cbn [genrand_n]. unfold genrand64_int64 at 1 2. rewrite E. reflexivity.
Qed.

(** Just after seeding (or not seeded at all, when 5489 is used), the outputs
    of [genrand64_int64] are the tempered words of the linear recurrence
    x[k+312] = x[k+156] ^ twist(x[k], x[k+1]): the three in-place loops and the
    wrap-around of [mti] compute exactly that sequence, for any number of calls. *)
Theorem mt_outputs_recurrence n s :
  full (mt s) -> mti s = NN \/ mti s = NN + 1 ->
  fst (genrand_n (S n) s) = map (mt_stream (mt (seeded s))) (seq 0 (S n)).
Proof.
  intros Hf Hi. rewrite genrand_seeded. apply genrand_n_window.
  unfold seeded. destruct Hi as [Hi|Hi]; rewrite Hi.
  - change (NN =? NN + 1) with false. split; [exact Hf|]. left. auto.
  - change (NN + 1 =? NN + 1) with true. cbv iota.
    assert (Hs : full (mt (init_genrand64 5489 s))).
    { cbn [mt init_genrand64]. apply init_loop_spec; [apply set_full; auto|lia|reflexivity]. }
    split; [exact Hs|]. left. split; reflexivity.
Qed.

(** Within a block only the index moves. *)
Lemma genrand_n_block n s :
  mti s + Z.of_nat n <= NN -> snd (genrand_n n s) = mkMt (mt s) (mti s + Z.of_nat n).
Proof.
  revert s. induction n as [|n IH]; intros s Hn; cbn [genrand_n].
  - destruct s. cbn. f_equal. lia.
  - unfold genrand64_int64. destruct (Z.leb_spec NN (mti s)); [lia|].
    specialize (IH (mkMt (mt s) (mti s + 1))). cbn [mt mti] in IH.
    destruct (genrand_n n (mkMt (mt s) (mti s + 1))) as [xs s']. cbn [snd] in *. rewrite IH by lia. f_equal. lia.
Qed.

Lemma genrand_first_block n s :
  full (mt s) -> mti s = NN -> Z.of_nat (S n) <= NN ->
  snd (genrand_n (S n) s) = mkMt (steps 312 (mt s)) (Z.of_nat (S n)).
Proof.
  intros Hf Hi Hn. cbn [genrand_n]. unfold genrand64_int64. rewrite Hi.
  change (NN <=? NN) with true. change (NN =? NN + 1) with false. cbv iota zeta. cbn [mt mti].
  destruct (generate_steps (mt s) Hf) as [_ ->].
  pose proof (genrand_n_block n (mkMt (steps 312 (mt s)) (0 + 1))) as H. cbn [mt mti] in H.
  destruct (genrand_n n _) as [xs s']. cbn [snd] in *. rewrite H by lia. f_equal. lia.
Qed.

(** Tempering loses nothing: 312 outputs in a row, the first one just after
    seeding, are the whole internal state once tempering is undone word by word,
    so that they determine every later output of the generator. *)
Theorem mt_state_from_outputs s :
  mt_ok s -> mti s = NN ->
  snd (genrand_n 312 s) = mkMt (map untemper (fst (genrand_n 312 s))) NN.
Proof.
  intros (Hf & Hw & _) Hi. rewrite (genrand_first_block 311) by (auto; reflexivity || discriminate). f_equal.
  assert (H0 : at_window s (mt s)) by (split; auto).
  destruct (genrand_n_window 312 s (mt s) H0) as [-> _]. rewrite map_map.
  apply list_eq_same_length with (n := 312%nat);
    [rewrite length_map, length_seq; reflexivity|apply steps_full, Hf|].
  intros i x y Hi' Hx Hy. rewrite list_lookup_fmap, lookup_seq_lt in Hy by lia. cbn in Hy. injection Hy as <-.
  unfold mt_stream. rewrite untemper_temper by (apply mt_get_word, steps_words, Hw).
  rewrite <- block_word by (auto; lia). unfold mt_get. rewrite Nat2Z.id, Hx. reflexivity.
Qed.

(** Seeding is total and well formed: [init_genrand64] fills all 312 words by
    its recurrence; [init_by_array64] with a non-empty key reads the key within
    its bounds, ends, and leaves a state of 64-bit words with mt[0] = 2^63 (so
    never all zero), ready to generate; every output is then a 64-bit word. *)
Theorem mt_seeding s seed key :
  full (mt s) -> Forall word (mt s) -> word seed -> key <> [] ->
  (let s' := init_genrand64 seed s in
   mt_ok s' /\ mti s' = NN /\ mt_get (mt s') 0 = seed /\
   forall j, 1 <= j < NN -> mt_get (mt s') j = init_word (mt_get (mt s') (j - 1)) j) /\
  exists s', init_by_array64 key s = Some s' /\ mt_ok s' /\ mti s' = NN /\ mt_get (mt s') 0 = 2 ^ 63 /\
    word (fst (genrand64_int64 s')).
Proof.
  intros Hf Hw Hs Hk. split.
  - destruct (init_ok seed s Hf Hw Hs) as [H1 H2]. cbv zeta. split; [auto|]. split; [auto|].
    assert (H0 : full (mt_set (mt s) 0 seed)) by (apply set_full; auto).
    destruct (init_loop_spec (Z.to_nat NN - 1) 1 (mt_set (mt s) 0 seed) H0 ltac:(lia) ltac:(reflexivity)) as (_ & I2 & I3).
    cbv zeta in *. unfold init_genrand64. cbn [mt]. split.
    + rewrite I2 by lia. apply get_set_same. unfold full in Hf. rewrite Hf. unfold NN. lia.
    + intros j Hj. apply I3. unfold NN in *. lia.
  - assert (Hg : word 19650218) by (split; reflexivity || discriminate).
    destruct (init_ok 19650218 s Hf Hw Hg) as [(G1 & G2 & _) G3]. unfold init_by_array64.
    set (s1 := init_genrand64 19650218 s) in *.
    destruct (key_loop_ok (Z.to_nat (if zlen key <? NN then NN else zlen key)) (mt s1) 1 0 key) as (m & i & E & Hm).
    { split; [auto|]. split; [auto|unfold NN; lia]. }
    { destruct key; [congruence|cbn; lia]. }
    rewrite E. cbn [mbind option_bind]. destruct (unkey_loop_ok (Z.to_nat (NN - 1)) m i Hm) as [U1 U2].
    set (m2 := unkey_loop _ m i) in *. eexists. split; [reflexivity|].
    assert (Hok : mt_ok (mkMt (mt_set m2 0 (Z.shiftl 1 63)) (mti s1))).
    { split; [apply set_full, U1|]. split; [apply set_words; [exact U2|split; reflexivity || discriminate]|].
      cbn [mti]. rewrite G3. unfold NN. lia. }
    split; [exact Hok|]. split; [exact G3|]. split.
    + cbn [mt]. rewrite get_set_same; [reflexivity|]. unfold full in U1. rewrite U1. unfold NN. lia.
    + set (s2 := mkMt _ _) in *. destruct Hok as (O1 & O2 & _).
      assert (Hat : at_window s2 (mt s2)) by (split; [exact O1|left; split; [exact G3|reflexivity]]).
      destruct (genrand_window s2 (mt s2) Hat) as [-> _]. apply word_temper, mt_get_word, step_words, O2.
Qed.

(** The reference program's first outputs for its own key, and the known first
    output for the default seed. *)
Example mt_reference :
  option_map (fun s => fst (genrand_n 3 s)) (init_by_array64 [0x12345; 0x23456; 0x34567; 0x45678] mt_start) =
    Some [7266447313870364031; 4946485549665804864; 16945909448695747420] /\
  fst (genrand_n 1 mt_start) = [14514284786278117030].
Proof. split; vm_compute; reflexivity. Qed.

(** ** Witnesses *)

Lemma mt_start_ok : full (mt mt_start) /\ Forall word (mt mt_start).
Proof. split; [reflexivity|]. apply Forall_replicate. split; reflexivity || discriminate. Qed.

Lemma mt_outputs_recurrence_witness :
  fst (genrand_n 1 mt_start) = [mt_stream (mt (seeded mt_start)) 0].
Proof. exact (mt_outputs_recurrence 0 mt_start (proj1 mt_start_ok) (or_intror eq_refl)). Defined.

Lemma mt_state_from_outputs_witness :
  let s := init_genrand64 1 mt_start in
  snd (genrand_n 312 s) = mkMt (map untemper (fst (genrand_n 312 s))) NN.
Proof.
  assert (H1 : word 1) by (split; reflexivity || discriminate).
  destruct (init_ok 1 mt_start (proj1 mt_start_ok) (proj2 mt_start_ok) H1) as [H2 H3].
  exact (mt_state_from_outputs (init_genrand64 1 mt_start) H2 H3).
Defined.

Lemma mt_seeding_witness :
  exists s, init_by_array64 [0x12345; 0x23456] mt_start = Some s /\ mt_get (mt s) 0 = 2 ^ 63.
Proof.
  destruct (mt_seeding mt_start 1 [0x12345; 0x23456] (proj1 mt_start_ok) (proj2 mt_start_ok)) as [_ (s & E & _ & _ & H & _)].
  - split; reflexivity || discriminate.
  - discriminate.
  - exists s. split; [exact E|exact H].
Defined.
