(* ===== verification/Enums.v ===== *)
(** * Enumerations and properties by name

    [enumToInt] of src/enum.c with the tables of src/enum/, and the table of
    player properties of src/prop.c.  A string is a NUL-terminated C string
    without its end. *)

From Stdlib Require Import Strings.String Sorting.Sorted.
From S2P Require Import Prelude.

#[local] Open Scope string_scope.
#[local] Open Scope Z_scope.

#[export] Instance string_eq_decision : EqDecision string := String.string_dec.

Record EnumTblEnt := mkEnt { ent_id : Z; enumStr : option string }.

(** The id of the entry that ends a table; also the answer for no match. *)
Definition NO_ENUM : Z := u32 (-1).

(** [None]: the table is read past its end. *)
Fixpoint enumToInt (str : string) (tbl : list EnumTblEnt) : option Z :=
  match tbl with
  | [] => None
  | e :: tbl =>
      if s32 (ent_id e) =? -1 then Some NO_ENUM
      else
        match enumStr e with
        | Some s => if String.eqb str s then Some (ent_id e) else enumToInt str tbl
        | None => enumToInt str tbl
        end
  end.

(** ** The tables *)

Definition ItemQualityTbl : list EnumTblEnt := [
  mkEnt 0 (Some "QUALITY_NONE");
  mkEnt 1 (Some "QUALITY_WHITE");
  mkEnt 2 (Some "QUALITY_GREEN");
  mkEnt 3 (Some "QUALITY_BLUE");
  mkEnt 4 (Some "QUALITY_PURPLE");
  mkEnt 5 (Some "QUALITY_ORANGE");
  mkEnt 105 (Some "QUALITY_ORANGE_SP");
  mkEnt (u32 (-1)) None].

Definition WeaponTypeTbl : list EnumTblEnt := [
  mkEnt 0 (Some "WEAPON_NONE");
  mkEnt 1 (Some "WEAPON_SWORD_ONE_HAND");
  mkEnt 2 (Some "WEAPON_CROSSBOW");
  mkEnt 3 (Some "WEAPON_STAFF");
  mkEnt 4 (Some "WEAPON_DOUBLE_DAGGER");
  mkEnt 5 (Some "WEAPON_KATANA");
  mkEnt 6 (Some "WEAPON_SHURIKEN");
  mkEnt 7 (Some "WEAPON_STICK");
  mkEnt 8 (Some "WEAPON_SPEAR");
  mkEnt 9 (Some "WEAPON_SHIELD_SMALL");
  mkEnt 10 (Some "WEAPON_CATALYST");
  mkEnt 11 (Some "WEAPON_CLAYMORE");
  mkEnt 12 (Some "WEAPON_BOW");
  mkEnt 13 (Some "WEAPON_POLE");
  mkEnt (u32 (-1)) None].

Definition OpenStateCondTbl : list EnumTblEnt := [
  mkEnt 0 (Some "OPEN_STATE_COND_PLAYER_LEVEL");
  mkEnt 1 (Some "OPEN_STATE_COND_QUEST");
  mkEnt 2 (Some "OPEN_STATE_OFFERING_LEVEL");
  mkEnt 3 (Some "OPEN_STATE_CITY_REPUTATION_LEVEL");
  mkEnt 4 (Some "OPEN_STATE_COND_PARENT_QUEST");
  mkEnt (u32 (-1)) None].

Definition GrowCurveTbl : list EnumTblEnt := [
  mkEnt 0 (Some "GROW_CURVE_NONE");
  mkEnt 1 (Some "GROW_CURVE_HP");
  mkEnt 2 (Some "GROW_CURVE_ATTACK");
  mkEnt 3 (Some "GROW_CURVE_STAMINA");
  mkEnt 4 (Some "GROW_CURVE_STRIKE");
  mkEnt 5 (Some "GROW_CURVE_ANTI_STRIKE");
  mkEnt 6 (Some "GROW_CURVE_ANTI_STRIKE1");
  mkEnt 7 (Some "GROW_CURVE_ANTI_STRIKE2");
  mkEnt 8 (Some "GROW_CURVE_ANTI_STRIKE3");
  mkEnt 9 (Some "GROW_CURVE_STRIKE_HURT");
  mkEnt 10 (Some "GROW_CURVE_ELEMENT");
  mkEnt 11 (Some "GROW_CURVE_KILL_EXP");
  mkEnt 12 (Some "GROW_CURVE_DEFENSE");
  mkEnt 13 (Some "GROW_CURVE_ATTACK_BOMB");
  mkEnt 14 (Some "GROW_CURVE_HP_LITTLEMONSTER");
  mkEnt 15 (Some "GROW_CURVE_ELEMENT_MASTERY");
  mkEnt 16 (Some "GROW_CURVE_PROGRESSION");
  mkEnt 17 (Some "GROW_CURVE_DEFENDING");
  mkEnt 18 (Some "GROW_CURVE_MHP");
  mkEnt 19 (Some "GROW_CURVE_MATK");
  mkEnt 20 (Some "GROW_CURVE_TOWERATK");
  mkEnt 21 (Some "GROW_CURVE_HP_S5");
  mkEnt 22 (Some "GROW_CURVE_HP_S4");
  mkEnt 23 (Some "GROW_CURVE_HP_2");
  mkEnt 31 (Some "GROW_CURVE_ATTACK_S5");
  mkEnt 32 (Some "GROW_CURVE_ATTACK_S4");
  mkEnt 33 (Some "GROW_CURVE_ATTACK_S3");
  mkEnt 34 (Some "GROW_CURVE_STRIKE_S5");
  mkEnt 41 (Some "GROW_CURVE_DEFENSE_S5");
  mkEnt 42 (Some "GROW_CURVE_DEFENSE_S4");
  mkEnt 1101 (Some "GROW_CURVE_ATTACK_101");
  mkEnt 1102 (Some "GROW_CURVE_ATTACK_102");
  mkEnt 1103 (Some "GROW_CURVE_ATTACK_103");
  mkEnt 1104 (Some "GROW_CURVE_ATTACK_104");
  mkEnt 1105 (Some "GROW_CURVE_ATTACK_105");
  mkEnt 1201 (Some "GROW_CURVE_ATTACK_201");
  mkEnt 1202 (Some "GROW_CURVE_ATTACK_202");
  mkEnt 1203 (Some "GROW_CURVE_ATTACK_203");
  mkEnt 1204 (Some "GROW_CURVE_ATTACK_204");
  mkEnt 1205 (Some "GROW_CURVE_ATTACK_205");
  mkEnt 1301 (Some "GROW_CURVE_ATTACK_301");
  mkEnt 1302 (Some "GROW_CURVE_ATTACK_302");
  mkEnt 1303 (Some "GROW_CURVE_ATTACK_303");
  mkEnt 1304 (Some "GROW_CURVE_ATTACK_304");
  mkEnt 1305 (Some "GROW_CURVE_ATTACK_305");
  mkEnt 2101 (Some "GROW_CURVE_CRITICAL_101");
  mkEnt 2102 (Some "GROW_CURVE_CRITICAL_102");
  mkEnt 2103 (Some "GROW_CURVE_CRITICAL_103");
  mkEnt 2104 (Some "GROW_CURVE_CRITICAL_104");
  mkEnt 2105 (Some "GROW_CURVE_CRITICAL_105");
  mkEnt 2201 (Some "GROW_CURVE_CRITICAL_201");
  mkEnt 2202 (Some "GROW_CURVE_CRITICAL_202");
  mkEnt 2203 (Some "GROW_CURVE_CRITICAL_203");
  mkEnt 2204 (Some "GROW_CURVE_CRITICAL_204");
  mkEnt 2205 (Some "GROW_CURVE_CRITICAL_205");
  mkEnt 2301 (Some "GROW_CURVE_CRITICAL_301");
  mkEnt 2302 (Some "GROW_CURVE_CRITICAL_302");
  mkEnt 2303 (Some "GROW_CURVE_CRITICAL_303");
  mkEnt 2304 (Some "GROW_CURVE_CRITICAL_304");
  mkEnt 2305 (Some "GROW_CURVE_CRITICAL_305");
  mkEnt (u32 (-1)) None].

Definition FightPropTbl : list EnumTblEnt := [
  mkEnt 0 (Some "FIGHT_PROP_NONE");
  mkEnt 1 (Some "FIGHT_PROP_BASE_HP");
  mkEnt 2 (Some "FIGHT_PROP_HP");
  mkEnt 3 (Some "FIGHT_PROP_HP_PERCENT");
  mkEnt 4 (Some "FIGHT_PROP_BASE_ATTACK");
  mkEnt 5 (Some "FIGHT_PROP_ATTACK");
  mkEnt 6 (Some "FIGHT_PROP_ATTACK_PERCENT");
  mkEnt 7 (Some "FIGHT_PROP_BASE_DEFENSE");
  mkEnt 8 (Some "FIGHT_PROP_DEFENSE");
  mkEnt 9 (Some "FIGHT_PROP_DEFENSE_PERCENT");
  mkEnt 10 (Some "FIGHT_PROP_BASE_SPEED");
  mkEnt 11 (Some "FIGHT_PROP_SPEED_PERCENT");
  mkEnt 12 (Some "FIGHT_PROP_HP_MP_PERCENT");
  mkEnt 13 (Some "FIGHT_PROP_ATTACK_MP_PERCENT");
  mkEnt 20 (Some "FIGHT_PROP_CRITICAL");
  mkEnt 21 (Some "FIGHT_PROP_ANTI_CRITICAL");
  mkEnt 22 (Some "FIGHT_PROP_CRITICAL_HURT");
  mkEnt 23 (Some "FIGHT_PROP_CHARGE_EFFICIENCY");
  mkEnt 24 (Some "FIGHT_PROP_ADD_HURT");
  mkEnt 25 (Some "FIGHT_PROP_SUB_HURT");
  mkEnt 26 (Some "FIGHT_PROP_HEAL_ADD");
  mkEnt 27 (Some "FIGHT_PROP_HEALED_ADD");
  mkEnt 28 (Some "FIGHT_PROP_ELEMENT_MASTERY");
  mkEnt 29 (Some "FIGHT_PROP_PHYSICAL_SUB_HURT");
  mkEnt 30 (Some "FIGHT_PROP_PHYSICAL_ADD_HURT");
  mkEnt 31 (Some "FIGHT_PROP_DEFENCE_IGNORE_RATIO");
  mkEnt 32 (Some "FIGHT_PROP_DEFENCE_IGNORE_DELTA");
  mkEnt 40 (Some "FIGHT_PROP_FIRE_ADD_HURT");
  mkEnt 41 (Some "FIGHT_PROP_ELEC_ADD_HURT");
  mkEnt 42 (Some "FIGHT_PROP_WATER_ADD_HURT");
  mkEnt 43 (Some "FIGHT_PROP_GRASS_ADD_HURT");
  mkEnt 44 (Some "FIGHT_PROP_WIND_ADD_HURT");
  mkEnt 45 (Some "FIGHT_PROP_ROCK_ADD_HURT");
  mkEnt 46 (Some "FIGHT_PROP_ICE_ADD_HURT");
  mkEnt 47 (Some "FIGHT_PROP_HIT_HEAD_ADD_HURT");
  mkEnt 50 (Some "FIGHT_PROP_FIRE_SUB_HURT");
  mkEnt 51 (Some "FIGHT_PROP_ELEC_SUB_HURT");
  mkEnt 52 (Some "FIGHT_PROP_WATER_SUB_HURT");
  mkEnt 53 (Some "FIGHT_PROP_GRASS_SUB_HURT");
  mkEnt 54 (Some "FIGHT_PROP_WIND_SUB_HURT");
  mkEnt 55 (Some "FIGHT_PROP_ROCK_SUB_HURT");
  mkEnt 56 (Some "FIGHT_PROP_ICE_SUB_HURT");
  mkEnt 60 (Some "FIGHT_PROP_EFFECT_HIT");
  mkEnt 61 (Some "FIGHT_PROP_EFFECT_RESIST");
  mkEnt 62 (Some "FIGHT_PROP_FREEZE_RESIST");
  mkEnt 63 (Some "FIGHT_PROP_TORPOR_RESIST");
  mkEnt 64 (Some "FIGHT_PROP_DIZZY_RESIST");
  mkEnt 65 (Some "FIGHT_PROP_FREEZE_SHORTEN");
  mkEnt 66 (Some "FIGHT_PROP_TORPOR_SHORTEN");
  mkEnt 67 (Some "FIGHT_PROP_DIZZY_SHORTEN");
  mkEnt 70 (Some "FIGHT_PROP_MAX_FIRE_ENERGY");
  mkEnt 71 (Some "FIGHT_PROP_MAX_ELEC_ENERGY");
  mkEnt 72 (Some "FIGHT_PROP_MAX_WATER_ENERGY");
  mkEnt 73 (Some "FIGHT_PROP_MAX_GRASS_ENERGY");
  mkEnt 74 (Some "FIGHT_PROP_MAX_WIND_ENERGY");
  mkEnt 75 (Some "FIGHT_PROP_MAX_ICE_ENERGY");
  mkEnt 76 (Some "FIGHT_PROP_MAX_ROCK_ENERGY");
  mkEnt 80 (Some "FIGHT_PROP_SKILL_CD_MINUS_RATIO");
  mkEnt 81 (Some "FIGHT_PROP_SHIELD_COST_MINUS_RATIO");
  mkEnt 1000 (Some "FIGHT_PROP_CUR_FIRE_ENERGY");
  mkEnt 1001 (Some "FIGHT_PROP_CUR_ELEC_ENERGY");
  mkEnt 1002 (Some "FIGHT_PROP_CUR_WATER_ENERGY");
  mkEnt 1003 (Some "FIGHT_PROP_CUR_GRASS_ENERGY");
  mkEnt 1004 (Some "FIGHT_PROP_CUR_WIND_ENERGY");
  mkEnt 1005 (Some "FIGHT_PROP_CUR_ICE_ENERGY");
  mkEnt 1006 (Some "FIGHT_PROP_CUR_ROCK_ENERGY");
  mkEnt 1010 (Some "FIGHT_PROP_CUR_HP");
  mkEnt 2000 (Some "FIGHT_PROP_MAX_HP");
  mkEnt 2001 (Some "FIGHT_PROP_CUR_ATTACK");
  mkEnt 2002 (Some "FIGHT_PROP_CUR_DEFENSE");
  mkEnt 2003 (Some "FIGHT_PROP_CUR_SPEED");
  mkEnt 3000 (Some "FIGHT_PROP_NONEXTRA_ATTACK");
  mkEnt 3001 (Some "FIGHT_PROP_NONEXTRA_DEFENSE");
  mkEnt 3002 (Some "FIGHT_PROP_NONEXTRA_CRITICAL");
  mkEnt 3003 (Some "FIGHT_PROP_NONEXTRA_ANTI_CRITICAL");
  mkEnt 3004 (Some "FIGHT_PROP_NONEXTRA_CRITICAL_HURT");
  mkEnt 3005 (Some "FIGHT_PROP_NONEXTRA_CHARGE_EFFICIENCY");
  mkEnt 3006 (Some "FIGHT_PROP_NONEXTRA_ELEMENT_MASTERY");
  mkEnt 3007 (Some "FIGHT_PROP_NONEXTRA_PHYSICAL_SUB_HURT");
  mkEnt 3008 (Some "FIGHT_PROP_NONEXTRA_FIRE_ADD_HURT");
  mkEnt 3009 (Some "FIGHT_PROP_NONEXTRA_ELEC_ADD_HURT");
  mkEnt 3010 (Some "FIGHT_PROP_NONEXTRA_WATER_ADD_HURT");
  mkEnt 3011 (Some "FIGHT_PROP_NONEXTRA_GRASS_ADD_HURT");
  mkEnt 3012 (Some "FIGHT_PROP_NONEXTRA_WIND_ADD_HURT");
  mkEnt 3013 (Some "FIGHT_PROP_NONEXTRA_ROCK_ADD_HURT");
  mkEnt 3014 (Some "FIGHT_PROP_NONEXTRA_ICE_ADD_HURT");
  mkEnt 3015 (Some "FIGHT_PROP_NONEXTRA_FIRE_SUB_HURT");
  mkEnt 3016 (Some "FIGHT_PROP_NONEXTRA_ELEC_SUB_HURT");
  mkEnt 3017 (Some "FIGHT_PROP_NONEXTRA_WATER_SUB_HURT");
  mkEnt 3018 (Some "FIGHT_PROP_NONEXTRA_GRASS_SUB_HURT");
  mkEnt 3019 (Some "FIGHT_PROP_NONEXTRA_WIND_SUB_HURT");
  mkEnt 3020 (Some "FIGHT_PROP_NONEXTRA_ROCK_SUB_HURT");
  mkEnt 3021 (Some "FIGHT_PROP_NONEXTRA_ICE_SUB_HURT");
  mkEnt 3022 (Some "FIGHT_PROP_NONEXTRA_SKILL_CD_MINUS_RATIO");
  mkEnt 3023 (Some "FIGHT_PROP_NONEXTRA_SHIELD_COST_MINUS_RATIO");
  mkEnt 3024 (Some "FIGHT_PROP_NONEXTRA_PHYSICAL_ADD_HURT");
  mkEnt (u32 (-1)) None].

Definition enum_tables : list (list EnumTblEnt) := [ItemQualityTbl; WeaponTypeTbl; OpenStateCondTbl; GrowCurveTbl; FightPropTbl].

(** ** Player properties *)

Record PropMinMaxData := mkProp { prop_id : Z; prop_name : string; prop_min : Z; prop_max : Z }.

(** The bounds are [long long]. *)
Definition PROP_MINMAX (i : Z) (name : string) (min max : Z) : PropMinMaxData :=
  mkProp i name (s64 min) (s64 max).
Definition PROP (i : Z) (name : string) : PropMinMaxData :=
  PROP_MINMAX i name 0x8000000000000000 0x7fffffffffffffff.
Definition PROP_MIN (i : Z) (name : string) (min : Z) : PropMinMaxData :=
  PROP_MINMAX i name min 0x7fffffffffffffff.

Definition PlayerProps : list PropMinMaxData := [
  PROP 0 "PROP_NONE";
  PROP_MIN 1001 "PROP_EXP" 0;
  PROP 1002 "PROP_BREAK_LEVEL";
  PROP 1003 "PROP_SATIATION_VAL";
  PROP 1004 "PROP_SATIATION_PENALTY_TIME";
  PROP_MINMAX 4001 "PROP_LEVEL" 0 90;
  PROP 10001 "PROP_LAST_CHANGE_AVATAR_TIME";
  PROP_MINMAX 10002 "PROP_MAX_SPRING_VOLUME" 0 8500000;
  PROP_MIN 10003 "PROP_CUR_SPRING_VOLUME" 1;
  PROP 10004 "PROP_IS_SPRING_AUTO_USE";
  PROP_MINMAX 10005 "PROP_SPRING_AUTO_USE_PERCENT" 0 100;
  PROP 10006 "PROP_IS_FLYABLE";
  PROP 10007 "PROP_IS_WEATHER_LOCKED";
  PROP 10008 "PROP_IS_GAME_TIME_LOCKED";
  PROP 10009 "PROP_IS_TRANSFERABLE";
  PROP_MINMAX 10010 "PROP_MAX_STAMINA" 0 24000;
  PROP_MIN 10011 "PROP_CUR_PERSIST_STAMINA" 1;
  PROP 10012 "PROP_CUR_TEMPORARY_STAMINA";
  PROP_MINMAX 10013 "PROP_PLAYER_LEVEL" 1 60;
  PROP_MIN 10014 "PROP_PLAYER_EXP" 0;
  PROP 10015 "PROP_PLAYER_HCOIN";
  PROP 10016 "PROP_PLAYER_SCOIN";
  PROP_MINMAX 10017 "PROP_PLAYER_MP_SETTING_TYPE" 0 2;
  PROP_MINMAX 10018 "PROP_IS_MP_MODE_AVAILABLE" 0 1;
  PROP_MINMAX 10019 "PROP_PLAYER_WORLD_LEVEL" 0 9;
  PROP_MINMAX 10020 "PROP_PLAYER_RESIN" 0 2000;
  PROP 10022 "PROP_PLAYER_WAIT_SUB_HCOIN";
  PROP 10023 "PROP_PLAYER_WAIT_SUB_SCOIN";
  PROP 10024 "PROP_IS_ONLY_MP_WITH_PS_PLAYER";
  PROP 10025 "PROP_PLAYER_MCOIN";
  PROP 10026 "PROP_PLAYER_WAIT_SUB_MCOIN";
  PROP_MINMAX 10027 "PROP_PLAYER_LEGENDARY_KEY" 0 3;
  PROP 10028 "PROP_IS_HAS_FIRST_SHARE";
  PROP_MINMAX 10029 "PROP_PLAYER_FORGE_POINT" 0 300000;
  PROP 10035 "PROP_CUR_CLIMATE_METER";
  PROP 10036 "PROP_CUR_CLIMATE_TYPE";
  PROP 10037 "PROP_CUR_CLIMATE_AREA_ID";
  PROP 10038 "PROP_CUR_CLIMATE_AREA_CLIMATE_TYPE";
  PROP_MINMAX 10039 "PROP_PLAYER_WORLD_LEVEL_LIMIT" 0 9;
  PROP 10040 "PROP_PLAYER_WORLD_LEVEL_ADJUST_CD";
  PROP 10041 "PROP_PLAYER_LEGENDARY_DAILY_TASK_NUM"].

(** ** Lookup *)

(** Up to the first entry that ends it, a table of distinct names without
    holes. *)
Definition names (tbl : list EnumTblEnt) : list string := omap enumStr tbl.

Definition table_ok (tbl : list EnumTblEnt) : bool :=
  match rev tbl with
  | e :: es =>
      (s32 (ent_id e) =? -1) && (match enumStr e with None => true | Some _ => false end)
      && forallb (fun e => negb (s32 (ent_id e) =? -1) && negb (ent_id e =? NO_ENUM)
                           && match enumStr e with None => false | Some _ => true end) es
      && bool_decide (NoDup (names tbl))
  | [] => false
  end.

Lemma enumToInt_body s es e :
  s32 (ent_id e) = -1 ->
  forallb (fun e => negb (s32 (ent_id e) =? -1) && negb (ent_id e =? NO_ENUM)
                    && match enumStr e with None => false | Some _ => true end) es = true ->
  NoDup (names es) ->
  (forall i, enumToInt s (es ++ [e])%list = Some i /\ i <> NO_ENUM <-> In (mkEnt i (Some s)) es) /\
  ((forall i, ~ In (mkEnt i (Some s)) es) -> enumToInt s (es ++ [e])%list = Some NO_ENUM).
Proof.
  intros He. induction es as [|[i n] es IH]; cbn [app enumToInt forallb ent_id enumStr].
  { rewrite He. intros _ _. split; [intros i; split; [intros [[= <-] H]; congruence|intros []]|auto]. }
  intros [[[H1 H2]%andb_true_iff H3]%andb_true_iff Hes]%andb_true_iff. apply negb_true_iff in H1, H2. rewrite H1.
  destruct n as [n|]; [|discriminate]. cbn. intros [Hn Hd]%NoDup_cons. destruct (IH Hes Hd) as [IH1 IH2].
  destruct (String.eqb_spec s n) as [->|Hne].
  - split.
    + intros j. split.
      * intros [[= <-] _]. auto.
      * intros [[= <-]|Hin]; [apply Z.eqb_neq in H2; auto|]. exfalso. apply Hn. unfold names.
        apply list_elem_of_omap. exists (mkEnt j (Some n)). split; [apply list_elem_of_In; exact Hin|reflexivity].
    + intros H. exfalso. apply (H i). auto.
  - split.
    + intros j. rewrite IH1. split; [auto|]. intros [[= _ E]|Hin]; [congruence|auto].
    + intros H. apply IH2. intros j Hj. apply (H j). auto.
Qed.

Lemma table_lookup tbl s :
  table_ok tbl = true ->
  (forall i, enumToInt s tbl = Some i /\ i <> NO_ENUM <-> In (mkEnt i (Some s)) tbl) /\
  ((forall i, ~ In (mkEnt i (Some s)) tbl) -> enumToInt s tbl = Some NO_ENUM).
Proof.
  unfold table_ok. destruct (rev tbl) as [|e es] eqn:E; [discriminate|].
  intros [[[H1 H2]%andb_true_iff H3]%andb_true_iff H4%bool_decide_eq_true]%andb_true_iff.
  apply Z.eqb_eq in H1. assert (Et : tbl = (rev es ++ [e])%list) by (rewrite <- (rev_involutive tbl), E; reflexivity).
  subst tbl. clear E. destruct (enumStr e) as [n|] eqn:En; [discriminate|].
  assert (Hf : forallb (fun e => negb (s32 (ent_id e) =? -1) && negb (ent_id e =? NO_ENUM)
                    && match enumStr e with None => false | Some _ => true end) (rev es) = true).
  { rewrite forallb_forall in *. intros x Hx. apply H3. apply in_rev. exact Hx. }
  assert (Hd : NoDup (names (rev es))).
  { unfold names in *. rewrite omap_app in H4. apply NoDup_app in H4. tauto. }
  destruct (enumToInt_body s (rev es) e H1 Hf Hd) as [B1 B2].
  assert (Hin : forall i, In (mkEnt i (Some s)) (rev es ++ [e])%list <-> In (mkEnt i (Some s)) (rev es)).
  { intros i. rewrite in_app_iff. split; [|auto]. intros [H|[H|[]]]; [auto|]. subst e. discriminate. }
  split.
  - intros i. rewrite Hin. apply B1.
  - intros H. apply B2. intros i Hi. apply (H i). apply Hin, Hi.
Qed.

(** ** Theorems *)

(** In every table of src/enum/, the lookup by name is exact: it gives an id
    just when the table has an entry of that name and id, -1 (as an unsigned)
    for any other string, and it never runs past the end of the table. *)
Theorem enum_lookup_exact tbl s :
  In tbl enum_tables ->
  (forall i, enumToInt s tbl = Some i /\ i <> NO_ENUM <-> In (mkEnt i (Some s)) tbl) /\
  ((forall i, ~ In (mkEnt i (Some s)) tbl) -> enumToInt s tbl = Some NO_ENUM).
Proof.
  intros Ht. apply table_lookup.
  assert (Ha : forallb table_ok enum_tables = true) by (vm_compute; reflexivity).
  rewrite forallb_forall in Ha. apply Ha, Ht.
Qed.

(** The player properties have strictly increasing ids, and the bounds of each
    are ordered as signed 64-bit integers, those without a bound spanning the
    whole type. *)
Theorem player_props_ordered :
  Sorted Z.lt (map prop_id PlayerProps) /\
  Forall (fun p => - 2 ^ 63 <= prop_min p <= prop_max p /\ prop_max p <= 2 ^ 63 - 1) PlayerProps /\
  forall i n, prop_min (PROP i n) = - 2 ^ 63 /\ prop_max (PROP i n) = 2 ^ 63 - 1.
Proof.
  split; [|split].
  - repeat constructor.
  - repeat constructor; vm_compute; discriminate.
  - intros i n. split; reflexivity.
Qed.

Lemma enum_lookup_exact_witness :
  In WeaponTypeTbl enum_tables /\ enumToInt "WEAPON_CLAYMORE" WeaponTypeTbl = Some 11.
Proof.
  assert (H : In WeaponTypeTbl enum_tables) by (cbn; auto). split; [exact H|].
  apply (proj1 (enum_lookup_exact WeaponTypeTbl "WEAPON_CLAYMORE" H)). cbn. auto 20.
Defined.
