(* ===== verification/TomlText.v ===== *)
(** * TOML: characters and strings

    The character level of src/toml.c: [read_unicode_escape], the two string
    normalizers and [normalize_key].

    A [char *] is the list of bytes from it up to the terminating NUL; reading
    it is [hd0], which is 0 at the end.  A pair [sp], [sq] is the list at [sp]
    and the number [sq - sp]. *)

From Stdlib Require Import Strings.String.
From S2P Require Import Prelude.

(** ** Results *)

(** [Stuck] is a loop out of fuel or a null pointer followed. *)
Inductive result (E A : Type) :=
| Ok (a : A)
| Err (e : E)
| Stuck.
Arguments Ok {E A} _.
Arguments Err {E A} _.
Arguments Stuck {E A}.

#[export] Instance result_ret E : MRet (result E) := fun A a => Ok a.
#[export] Instance result_bind E : MBind (result E) := fun A B f r =>
  match r with Ok a => f a | Err e => Err e | Stuck => Stuck end.

Definition map_err {E F A} (f : E -> F) (r : result E A) : result F A :=
  match r with Ok a => Ok a | Err e => Err (f e) | Stuck => Stuck end.

(** ** Characters *)

Abbreviation TAB := 9.
Abbreviation LF := 10.
Abbreviation CR := 13.
Abbreviation SP := 32.
Abbreviation DQ := 34.
Abbreviation SQ := 39.
Abbreviation BSLASH := 92.

Definition hd0 (s : list byte) : Z := match s with [] => 0 | c :: _ => bz c end.

(** [s[i]] *)
Definition at_ (i : nat) (s : list byte) : Z := hd0 (drop i s).

Definition isdigit (c : Z) : bool := (48 <=? c) && (c <=? 57).
Definition isupper (c : Z) : bool := (65 <=? c) && (c <=? 90).
Definition islower (c : Z) : bool := (97 <=? c) && (c <=? 122).
Definition isalnum (c : Z) : bool := isdigit c || isupper c || islower c.

(** [strchr(set, c)] for a [c] that is not NUL. *)
Definition strchr (set : list Z) (c : Z) : bool := existsb (Z.eqb c) set.

Fixpoint strspn (set : list Z) (s : list byte) : nat :=
  match s with
  | [] => O
  | c :: s => if strchr set (bz c) then S (strspn set s) else O
  end.

(** What [strcmp] sees of a string that holds a NUL. *)
Fixpoint cstr (s : list byte) : list byte :=
  match s with
  | [] => []
  | c :: s => if bz c =? 0 then [] else c :: cstr s
  end.

(** [strcmp(a, b) == 0] *)
Definition streq (a b : list byte) : bool := bool_decide (cstr a = cstr b).

Definition hexval (ch : Z) : Z :=
  if (48 <=? ch) && (ch <=? 57) then ch - 48
  else if (65 <=? ch) && (ch <=? 70) then ch - 65 + 10
  else if (97 <=? ch) && (ch <=? 102) then Z.lxor ch 32 - 65 + 10
  else -1.

Definition continuation (code shift : Z) : byte :=
  zb (Z.lor 0x80 (Z.land (Z.shiftr code shift) 0x3f)).

(** The bytes written to [buf]; [None] is -1. *)
Definition read_unicode_escape (code : Z) : option (list byte) :=
  if (0xd800 <=? code) && (code <=? 0xdfff) then None
  else if 0x10FFFF <? code then None
  else if code <? 0 then None
  else if code <=? 0x7F then Some [zb code]
  else if code <=? 0x7FF then
    Some [zb (Z.lor 0xc0 (Z.shiftr code 6)); continuation code 0]
  else if code <=? 0xFFFF then
    Some [zb (Z.lor 0xe0 (Z.shiftr code 12)); continuation code 6; continuation code 0]
  else if code <=? 0x1FFFFF then
    Some [zb (Z.lor 0xf0 (Z.shiftr code 18)); continuation code 12; continuation code 6; continuation code 0]
  else if code <=? 0x3FFFFFF then
    Some [zb (Z.lor 0xf8 (Z.shiftr code 24)); continuation code 18; continuation code 12; continuation code 6;
          continuation code 0]
  else if code <=? 0x7FFFFFFF then
    Some [zb (Z.lor 0xfc (Z.shiftr code 30)); continuation code 24; continuation code 18; continuation code 12;
          continuation code 6; continuation code 0]
  else None.

Definition u8_length : list Z := [1;1;1;1;1;1;1;1;0;0;0;0;2;2;3;4].
Definition u8length (c : Z) : Z := default 0 (u8_length !! Z.to_nat (Z.shiftr (Z.land c 0xFF) 4)).

(** ** Normalizing *)

(** The messages put in [errbuf]. *)
Inductive message :=
| InvalidUtf8 (off : Z)
| NewlineInKey
| InvalidChar (ch : Z)
| LastBackslash
| ExpectsHexChars (ch : Z) (nhex : nat)
| InvalidHexChars
| IllegalUcs
| IllegalEscape (ch : Z)
| Msg (s : String.string).
Arguments Msg s%_string.

(** A character of [l] bytes, all with the high bit set. *)
Fixpoint take_multibyte (l : nat) (sp : list byte) : option (list byte * list byte) :=
  match l with
  | O => Some ([], sp)
  | S l =>
      match sp with
      | [] => None
      | c :: sp =>
          if negb (Z.land (bz c) 0x80 =? 0x80) then None
          else '(cs, sp) ← take_multibyte l sp; Some (c :: cs, sp)
      end
  end.

(** Characters that must be escaped. *)
Definition control (multiline : bool) (ch : Z) : bool :=
  ((ch <=? 0x08) || ((0x0a <=? ch) && (ch <=? 0x1f)) || (ch =? 0x7f))
  && negb (multiline && ((ch =? CR) || (ch =? LF))).

(** [dst] is what has been written, [off] its length. *)
Fixpoint norm_lit (fuel : nat) (sp : list byte) (n : Z) (dst : list byte) (multiline is_key : bool)
    : result message (list byte) :=
  match fuel with
  | O => Stuck
  | S fuel =>
      if n <=? 0 then Ok dst
      else
        let l := u8length (hd0 sp) in
        if l =? 0 then Err (InvalidUtf8 (zlen dst))
        else if 1 <? l then
          match take_multibyte (Z.to_nat l) sp with
          | None => Err (InvalidUtf8 (zlen dst))
          | Some (cs, sp) => norm_lit fuel sp (n - l) (dst ++ cs) multiline is_key
          end
        else
          let ch := hd0 sp in
          if is_key && (ch =? LF) then Err NewlineInKey
          else if control multiline ch then Err (InvalidChar ch)
          else norm_lit fuel (tl sp) (n - 1) (dst ++ [zb ch]) multiline is_key
  end.

Definition norm_lit_str (sp : list byte) (n : Z) (multiline is_key : bool) : result message (list byte) :=
  norm_lit (S (length sp)) sp n [] multiline is_key.

(** The hex digits of [\u] and [\U]: the code, and where they end. *)
Fixpoint read_hex (nhex : nat) (total : nat) (esc : Z) (sp : list byte) (n ucs : Z)
    : result message (Z * list byte * Z) :=
  match nhex with
  | O => Ok (ucs, sp, n)
  | S nhex =>
      if n <=? 0 then Err (ExpectsHexChars esc total)
      else
        let v := hexval (hd0 sp) in
        if v =? -1 then Err InvalidHexChars
        else read_hex nhex total esc (tl sp) (n - 1) (ucs * 16 + v)
  end.

(** The single-character escapes. *)
Definition simple_escape (ch : Z) : option Z :=
  if ch =? 98 then Some 8
  else if ch =? 116 then Some 9
  else if ch =? 110 then Some 10
  else if ch =? 102 then Some 12
  else if ch =? 114 then Some 13
  else if ch =? DQ then Some DQ
  else if ch =? BSLASH then Some BSLASH
  else None.

Fixpoint norm_basic (fuel : nat) (sp : list byte) (n : Z) (dst : list byte) (multiline is_key : bool)
    : result message (list byte) :=
  match fuel with
  | O => Stuck
  | S fuel =>
      if n <=? 0 then Ok dst
      else
        let l := u8length (hd0 sp) in
        if l =? 0 then Err (InvalidUtf8 (zlen dst))
        else if 1 <? l then
          match take_multibyte (Z.to_nat l) sp with
          | None => Err (InvalidUtf8 (zlen dst))
          | Some (cs, sp) => norm_basic fuel sp (n - l) (dst ++ cs) multiline is_key
          end
        else
          let ch := hd0 sp in
          let sp := tl sp in
          let n := n - 1 in
          if is_key && (ch =? LF) then Err NewlineInKey
          else if negb (ch =? BSLASH) then
            if control multiline ch then Err (InvalidChar ch)
            else norm_basic fuel sp n (dst ++ [zb ch]) multiline is_key
          else if n <=? 0 then Err LastBackslash
          else if multiline && (at_ (strspn [SP; TAB; CR] sp) sp =? LF) then
            let k := strspn [SP; TAB; CR; LF] sp in
            norm_basic fuel (drop k sp) (n - Z.of_nat k) dst multiline is_key
          else
            let ch := hd0 sp in
            let sp := tl sp in
            let n := n - 1 in
            if (ch =? 117) || (ch =? 85) then
              let nhex := if ch =? 117 then 4%nat else 8%nat in
              '(ucs, sp, n) ← read_hex nhex nhex ch sp n 0;
              match read_unicode_escape ucs with
              | None => Err IllegalUcs
              | Some cs => norm_basic fuel sp n (dst ++ cs) multiline is_key
              end
            else
              match simple_escape ch with
              | None => Err (IllegalEscape ch)
              | Some c => norm_basic fuel sp n (dst ++ [zb c]) multiline is_key
              end
  end.

Definition norm_basic_str (sp : list byte) (n : Z) (multiline is_key : bool) : result message (list byte) :=
  norm_basic (S (length sp)) sp n [] multiline is_key.
