(* ===== verification/TomlLex.v ===== *)
(** * TOML: tokens

    [next_token], [scan_string] and the scanners of dates and times of
    src/toml.c.  The cursor [p] is the list of bytes from it to the end of the
    document. *)

From Stdlib Require Import Strings.String.
From S2P Require Import Prelude TomlText.

#[local] Open Scope string_scope.
#[local] Open Scope Z_scope.

Inductive tokentype :=
| INVALID | DOT | COMMA | EQUAL | LBRACE | RBRACE | NEWLINE | LBRACKET | RBRACKET | STRING.

#[export] Instance tokentype_eq_decision : EqDecision tokentype.
Proof. solve_decision. Defined.

Record token := mkTok { tok : tokentype; lineno : Z; ptr : list byte; len : Z; eof : bool }.

(** What the [e_...] functions report. *)
Inductive toml_error :=
| e_internal
| e_syntax (lineno : Z) (msg : message)
| e_badkey (lineno : Z)
| e_keyexists (lineno : Z)
| e_forbid (lineno : Z) (msg : message).

Abbreviation toml := (result toml_error).

(** The bytes from [orig] up to [q], a suffix of it. *)
Definition span_len (orig q : list byte) : Z := zlen orig - zlen q.

Definition set_token (t : tokentype) (line : Z) (p : list byte) (n : Z) : token := mkTok t line p n false.
Definition set_eof (line : Z) : token := mkTok NEWLINE line [] 0 true.

(** ** Dates and times *)

(** [n] digits; -1 when there are fewer. *)
Fixpoint scan_digits_loop (n : nat) (ret : Z) (p : list byte) : Z :=
  match n with
  | O => ret
  | S n => if isdigit (hd0 p) then scan_digits_loop n (10 * ret + (hd0 p - 48)) (tl p) else -1
  end.

Definition scan_digits (p : list byte) (n : nat) : Z := scan_digits_loop n 0 p.

(** The three fields, and whether all were there. *)
Definition scan_date (p : list byte) : Z * Z * Z * bool :=
  let year := scan_digits p 4 in
  let month := if (0 <=? year) && (at_ 4 p =? 45) then scan_digits (drop 5 p) 2 else -1 in
  let day := if (0 <=? month) && (at_ 7 p =? 45) then scan_digits (drop 8 p) 2 else -1 in
  (year, month, day, (0 <=? year) && (0 <=? month) && (0 <=? day)).

Definition scan_time (p : list byte) : Z * Z * Z * bool :=
  let hour := scan_digits p 2 in
  let minute := if (0 <=? hour) && (at_ 2 p =? 58) then scan_digits (drop 3 p) 2 else -1 in
  let second := if (0 <=? minute) && (at_ 5 p =? 58) then scan_digits (drop 6 p) 2 else -1 in
  (hour, minute, second, (0 <=? hour) && (0 <=? minute) && (0 <=? second)).

(** ** Strings *)

(** [strncmp(p, qqq, 3) == 0] for the quote [q]. *)
Definition triple (q : Z) (p : list byte) : bool :=
  (at_ 0 p =? q) && (at_ 1 p =? q) && (at_ 2 p =? q).

(** [strstr(q, qqq)], with the byte before what it finds: [prev] is the one
    before [s]. *)
Fixpoint strstr3 (q : Z) (prev : Z) (s : list byte) : option (Z * list byte) :=
  if triple q s then Some (prev, s)
  else match s with [] => None | c :: s => strstr3 q (bz c) s end.

(** [while (q[3] == quote)], at most twice; [None]: too many. *)
Definition more_quotes (q : Z) (s : list byte) : option (list byte) :=
  if at_ 3 s =? q then
    if at_ 4 s =? q then
      if at_ 5 s =? q then None else Some (drop 2 s)
    else Some (drop 1 s)
  else Some s.

(** The closing quotes of a multi-line basic string: not after a backslash.
    [Err]: there are none. *)
Fixpoint find_close (fuel : nat) (prev : Z) (s : list byte) : result unit (list byte) :=
  match fuel with
  | O => Stuck
  | S fuel =>
      match strstr3 DQ prev s with
      | None => Err tt
      | Some (prev, q) => if prev =? BSLASH then find_close fuel (hd0 q) (tl q) else Ok q
      end
  end.

Definition is_hex_digit (c : Z) : bool :=
  isdigit c || ((65 <=? c) && (c <=? 70)) || ((97 <=? c) && (c <=? 102)).

(** The letters and marks that may follow a backslash, other than u and U. *)
Definition is_escape (c : Z) : bool := strchr [98; 116; 110; 102; 114; DQ; BSLASH] c.

(** Checking the escapes of a multi-line basic string of [n] bytes; [Some msg]
    is an error. *)
Fixpoint check_escapes (n : nat) (p : list byte) (escape : bool) (hexreq : nat) : option message :=
  match n with
  | O =>
      if escape then Some (Msg "expect an escape char")
      else match hexreq with O => None | _ => Some (Msg "expected more hex char") end
  | S n =>
      let c := hd0 p in
      if escape then
        if is_escape c then check_escapes n (tl p) false hexreq
        else if c =? 117 then check_escapes n (tl p) false 4
        else if c =? 85 then check_escapes n (tl p) false 8
        else if at_ (strspn [SP; TAB; CR] p) p =? LF then check_escapes n (tl p) false hexreq
        else Some (Msg "bad escape char")
      else
        match hexreq with
        | S h => if is_hex_digit c then check_escapes n (tl p) false h else Some (Msg "expect hex char")
        | O => check_escapes n (tl p) (c =? BSLASH) O
        end
  end.

(** A basic string from after its quote on: where the loop stops. *)
Fixpoint scan_basic (p : list byte) (escape : bool) (hexreq : nat) : result message (list byte) :=
  match p with
  | [] => Ok []
  | b :: rest =>
      let c := bz b in
      if escape then
        if is_escape c then scan_basic rest false hexreq
        else if c =? 117 then scan_basic rest false 4
        else if c =? 85 then scan_basic rest false 8
        else Err (Msg "bad escape char")
      else
        match hexreq with
        | S h => if is_hex_digit c then scan_basic rest false h else Err (Msg "expect hex char")
        | O =>
            if c =? BSLASH then scan_basic rest true O
            else if c =? LF then Ok p
            else if c =? DQ then Ok p
            else scan_basic rest false O
        end
  end.

(** A literal string from after its quote on. *)
Fixpoint scan_literal (p : list byte) : list byte :=
  match p with
  | [] => []
  | b :: rest => if (bz b =? LF) || (bz b =? SQ) then p else scan_literal rest
  end.

(** Digits and [.:+-Tt Zz]. *)
Definition timestamp_chars : list Z :=
  [48; 49; 50; 51; 52; 53; 54; 55; 56; 57; 46; 58; 43; 45; 84; 116; SP; 90; 122].

(** [for (; p[-1] == ' '; p--)]: [rp] is what was read, reversed. *)
Fixpoint squeeze (rp : list byte) : nat :=
  match rp with
  | [] => O
  | b :: rp => if bz b =? SP then S (squeeze rp) else O
  end.

(** Numbers, booleans and bare keys. *)
Fixpoint scan_bare (p : list byte) (dotisspecial : bool) : list byte :=
  match p with
  | [] => []
  | b :: rest =>
      let ch := bz b in
      if ch =? LF then p
      else if (ch =? 46) && dotisspecial then p
      else if isupper ch || islower ch
              || strchr [48; 49; 50; 51; 52; 53; 54; 55; 56; 57; 43; 45; 95; 46] ch then scan_bare rest dotisspecial
      else p
  end.

Definition scan_string (p : list byte) (line : Z) (dotisspecial : bool) : toml token :=
  let str q := Ok (set_token STRING line p (span_len p q)) in
  let error s := Err (e_syntax line (Msg s)) in
  if triple SQ p then
    match strstr3 SQ SQ (drop 3 p) with
    | None => error "unterminated triple-s-quote"
    | Some (_, q) =>
        match more_quotes SQ q with
        | None => error "too many ''' in triple-s-quote"
        | Some q => str (drop 3 q)
        end
    end
  else if triple DQ p then
    match find_close (S (length p)) DQ (drop 3 p) with
    | Stuck => Stuck
    | Err _ => error "unterminated triple-d-quote"
    | Ok q =>
        match more_quotes DQ q with
        | None => error "too many quotes in triple-d-quote"
        | Some q =>
            match check_escapes (length (drop 3 p) - length q) (drop 3 p) false O with
            | Some m => Err (e_syntax line m)
            | None => str (drop 3 q)
            end
        end
    end
  else if hd0 p =? SQ then
    let q := scan_literal (tl p) in
    if negb (hd0 q =? SQ) then error "unterminated s-quote" else str (tl q)
  else if hd0 p =? DQ then
    q ← map_err (e_syntax line) (scan_basic (tl p) false O);
    if negb (hd0 q =? DQ) then error "unterminated quote" else str (tl q)
  else if snd (scan_date p) || snd (scan_time p) then
    let n := strspn timestamp_chars p in
    Ok (set_token STRING line p (Z.of_nat (n - squeeze (rev (take n p)))))
  else str (scan_bare p dotisspecial).

(** ** The tokenizer *)

Fixpoint skip_comment (p : list byte) : list byte :=
  match p with
  | [] => []
  | c :: rest => if bz c =? LF then p else skip_comment rest
  end.

Fixpoint newlines (s : list byte) : Z :=
  match s with [] => 0 | c :: s => (if bz c =? LF then 1 else 0) + newlines s end.

Definition punctuation (c : Z) : option tokentype :=
  if c =? 44 then Some COMMA
  else if c =? 61 then Some EQUAL
  else if c =? 123 then Some LBRACE
  else if c =? 125 then Some RBRACE
  else if c =? 91 then Some LBRACKET
  else if c =? 93 then Some RBRACKET
  else if c =? LF then Some NEWLINE
  else None.

Fixpoint make_token (fuel : nat) (p : list byte) (line : Z) (dotisspecial : bool) : toml token :=
  match fuel with
  | O => Stuck
  | S fuel =>
      match p with
      | [] => Ok (set_eof line)
      | b :: rest =>
          let c := bz b in
          if c =? 35 then make_token fuel (skip_comment rest) line dotisspecial
          else if dotisspecial && (c =? 46) then Ok (set_token DOT line p 1)
          else
            match punctuation c with
            | Some t => Ok (set_token t line p 1)
            | None =>
                if (c =? CR) || (c =? SP) || (c =? TAB) then make_token fuel rest line dotisspecial
                else scan_string p line dotisspecial
            end
      end
  end.

Definition next_token (t : token) (dotisspecial : bool) : toml token :=
  let p := zdrop (len t) (ptr t) in
  make_token (S (length p)) p (lineno t + newlines (ztake (len t) (ptr t))) dotisspecial.

Definition eat_token (t : token) (typ : tokentype) (isdotspecial : bool) : toml token :=
  if bool_decide (tok t = typ) then next_token t isdotspecial else Err e_internal.

Fixpoint skip_newlines_loop (fuel : nat) (t : token) (isdotspecial : bool) : toml token :=
  match fuel with
  | O => Stuck
  | S fuel =>
      if bool_decide (tok t = NEWLINE) then
        t ← next_token t isdotspecial;
        if eof t then Ok t else skip_newlines_loop fuel t isdotspecial
      else Ok t
  end.

Definition skip_newlines (t : token) (isdotspecial : bool) : toml token :=
  skip_newlines_loop (2 + length (ptr t)) t isdotspecial.

(** ** Keys *)

Definition bare_key_char (c : byte) : bool := isalnum (bz c) || (bz c =? 95) || (bz c =? 45).

(** The key; its length is what [keylen] is set to. *)
Definition normalize_key (strtok : token) : toml (list byte) :=
  let sp := ptr strtok in
  let ch := hd0 sp in
  if (ch =? SQ) || (ch =? DQ) then
    let multiline := (at_ 1 sp =? ch) && (at_ 2 sp =? ch) in
    let k := if multiline then 3%nat else 1%nat in
    let n := len strtok - 2 * Z.of_nat k in
    map_err (e_syntax (lineno strtok))
      (if ch =? SQ then norm_lit_str (drop k sp) n multiline true
       else norm_basic_str (drop k sp) n multiline true)
  else if forallb bare_key_char (ztake (len strtok) sp) then Ok (ztake (len strtok) sp)
  else Err (e_badkey (lineno strtok)).
