(* ===== verification/TomlValue.v ===== *)
(** * TOML: values

    The conversions of the raw text of a value: [toml_value_bool],
    [toml_value_int], [toml_value_double], [toml_value_timestamp],
    [toml_value_string] and [valtype] of src/toml.c. *)

From Stdlib Require Import Strings.String.
From S2P Require Import Prelude TomlText TomlLex.

(** ** Booleans *)

Definition toml_value_bool (src : list byte) : option bool :=
  if streq src (bytes_of "true") then Some true
  else if streq src (bytes_of "false") then Some false
  else None.

(** ** [strtoll]

    As the C standard has it: white space, a sign, for base 16 (and for base 0
    when it is there) the prefix 0x, digits.  The result, whether it is out of
    range, and the text from [*endp] on. *)

Definition is_c_space (c : Z) : bool := (c =? SP) || ((9 <=? c) && (c <=? 13)).

Fixpoint skip_c_space (s : list byte) : list byte :=
  match s with [] => [] | c :: r => if is_c_space (bz c) then skip_c_space r else s end.

Definition digit_val (c : Z) : Z :=
  if isdigit c then c - 48
  else if islower c then c - 87
  else if isupper c then c - 55
  else 99.

(** The digits of [base], their value, how many, and the rest. *)
Fixpoint strto_digits (base : Z) (s : list byte) (acc : Z) (n : nat) : Z * nat * list byte :=
  match s with
  | [] => (acc, n, [])
  | c :: r => if digit_val (bz c) <? base then strto_digits base r (acc * base + digit_val (bz c)) (S n) else (acc, n, s)
  end.

(** "0x" before a hex digit. *)
Definition hex_prefix (s : list byte) : bool :=
  (at_ 0 s =? 48) && ((at_ 1 s =? 120) || (at_ 1 s =? 88)) && is_hex_digit (at_ 2 s).

Record strto := mkStrto { st_val : Z; st_range : bool; st_rest : list byte }.

Definition INT64_MIN : Z := - 2 ^ 63.
Definition INT64_MAX : Z := 2 ^ 63 - 1.

Definition strtoll (buf : list byte) (base : Z) : strto :=
  let s := skip_c_space buf in
  let neg := hd0 s =? 45 in
  let s := if neg || (hd0 s =? 43) then tl s else s in
  let '(base, s) :=
    if ((base =? 0) || (base =? 16)) && hex_prefix s then (16, drop 2 s)
    else ((if base =? 0 then (if hd0 s =? 48 then 8 else 10) else base), s) in
  let '(v, n, rest) := strto_digits base s 0 0 in
  match n with
  | O => mkStrto 0 false buf
  | _ =>
      let v := if neg then - v else v in
      if v <? INT64_MIN then mkStrto INT64_MIN true rest
      else if INT64_MAX <? v then mkStrto INT64_MAX true rest
      else mkStrto v false rest
  end.

(** ** Integers *)

(** The buffer of 100 bytes the text is copied to. *)
Definition BUFSZ : Z := 100.

(** Stripping underscores: [p] is what has been copied. *)
Fixpoint strip_int (s : list byte) (p : list byte) : option (list byte) :=
  match s with
  | [] => if zlen p =? BUFSZ then None else Some p
  | c :: s =>
      if BUFSZ <=? zlen p then None
      else if bz c =? 95 then
        if hd0 s =? 95 then None
        else if hd0 s =? 0 then None
        else strip_int s p
      else strip_int s (p ++ [c])
  end.

Definition toml_value_int (src : list byte) : option Z :=
  let have_sign := (hd0 src =? 43) || (hd0 src =? 45) in
  let p := if have_sign then take 1 src else [] in
  let s := if have_sign then drop 1 src else src in
  let finish base s :=
    p ← strip_int s p;
    let r := strtoll p base in
    if st_range r || negb (hd0 (st_rest r) =? 0) then None else Some (st_val r) in
  if hd0 s =? 95 then None
  else if hd0 s =? 48 then
    let c := at_ 1 s in
    let base := if c =? 120 then 16 else if c =? 111 then 8 else if c =? 98 then 2 else 0 in
    if base =? 0 then
      if c =? 0 then Some 0 else None
    else
      let s := drop 2 s in
      if hd0 s =? 0 then None
      else if have_sign then None
      else if hd0 s =? 95 then None
      else finish base s
  else finish 0 s.

(** ** Floating point

    [strtod] is the platform's: its value, whether [errno] was set, the text
    from [*endp] on, and whether the value is infinite or not a number. *)
Class Strtod := {
  double : Type;
  strtod : list byte -> double * bool * list byte;
  isnan : double -> bool;
  isinf : double -> bool
}.

(** The first dot: what is before it and what is after it. *)
Fixpoint find_dot (prev : Z) (s : list byte) : option (Z * list byte) :=
  match s with
  | [] => None
  | c :: s => if bz c =? 46 then Some (prev, s) else find_dot (bz c) s
  end.

(** The text copied, and whether an underscore was stripped. *)
Fixpoint strip_double (s : list byte) (p : list byte) (have_us : bool) : option (list byte * bool) :=
  match s with
  | [] => if zlen p =? BUFSZ then None else Some (p, have_us)
  | c :: s =>
      let ch := bz c in
      if BUFSZ <=? zlen p then None
      else if ch =? 95 then
        if (hd0 s =? 95) || (hd0 s =? 101) || (hd0 s =? 0) then None else strip_double s p true
      else if (ch =? 73) || (ch =? 78) || (ch =? 70) || (ch =? 65) then None
      else if (ch =? 101) && (hd0 s =? 95) then None
      else strip_double s (p ++ [c]) have_us
  end.

Definition toml_value_double `{Strtod} (src : list byte) : option double :=
  let have_sign := (hd0 src =? 43) || (hd0 src =? 45) in
  let p := if have_sign then take 1 src else [] in
  let s := if have_sign then drop 1 src else src in
  if hd0 s =? 95 then None
  else if (match find_dot 0 s with
           | Some (prev, after) => negb (isdigit prev) || negb (isdigit (hd0 after))
           | None => false
           end) then None
  else if (hd0 s =? 48) && negb (at_ 1 s =? 0) && negb (strchr [101; 69; 46] (at_ 1 s)) then None
  else
    '(p, have_us) ← strip_double s p false;
    let '(v, err, rest) := strtod p in
    if err || negb (hd0 rest =? 0) then None
    else if have_us && (isnan v || isinf v) then None
    else Some v.

(** ** Timestamps *)

(** [kind] is a character, 0 when unset; [z] the zone. *)
Record timestamp := mkTs {
  ts_kind : Z; year : Z; month : Z; day : Z; hour : Z; minute : Z; second : Z; millisec : Z;
  ts_z : option (list byte)
}.

Definition is_leap (y : Z) : bool :=
  (Z.rem y 4 =? 0) && (negb (Z.rem y 100 =? 0) || (Z.rem y 400 =? 0)).

(** [unit] goes to 0 after three digits. *)
Fixpoint parse_millisec_loop (p : list byte) (ret unit : Z) : Z * list byte :=
  match p with
  | [] => (ret, [])
  | c :: r =>
      if isdigit (bz c) then parse_millisec_loop r (ret + (bz c - 48) * unit) (unit / 10) else (ret, p)
  end.

Definition parse_millisec (p : list byte) : Z * list byte := parse_millisec_loop p 0 100.

(** The zone: its text, and the rest; [None] is -1. *)
Definition parse_zone (p : list byte) : option (list byte * list byte) :=
  if (hd0 p =? 90) || (hd0 p =? 122) then Some ([zb 90], tl p)
  else if (hd0 p =? 43) || (hd0 p =? 45) then
    let q := tl p in
    if negb (isdigit (at_ 0 q) && isdigit (at_ 1 q)) then None
    else
      let z := take 3 p in
      let q := drop 2 q in
      if hd0 q =? 58 then
        if negb (isdigit (at_ 1 q) && isdigit (at_ 2 q)) then None
        else Some (z ++ take 3 q, drop 3 q)
      else Some (z, q)
  else Some ([], p).

(** The date at the front: the fields set so far, what follows, and whether a
    time must follow. *)
Definition value_date (p : list byte) : option (timestamp * list byte * bool) :=
  let '(Y, M, D, ok) := scan_date p in
  let ts k := mkTs k Y M D 0 0 0 0 None in
  if negb ok then Some (ts 0, p, false)
  else if (M <? 1) || (D <? 1) || (12 <? M) || (31 <? D) then None
  else if (M =? 2) && ((if is_leap Y then 29 else 28) <? D) then None
  else
    let p := drop 10 p in
    if hd0 p =? 0 then Some (ts 68, p, false)
    else if negb ((hd0 p =? 84) || (hd0 p =? 116) || (hd0 p =? SP)) then None
    else Some (ts 68, tl p, true).

Definition value_time (ts : timestamp) (p : list byte) : option (timestamp * list byte) :=
  let '(h, m, s, ok) := scan_time p in
  let set k ms z := mkTs k (year ts) (month ts) (day ts) h m s ms z in
  if negb ok then Some (set (ts_kind ts) 0 None, p)
  else if (s <? 0) || (m <? 0) || (h <? 0) || (23 <? h) || (59 <? m) || (60 <? s) then None
  else
    let kind := if ts_kind ts =? 68 then 108 else 116 in
    let p := drop 8 p in
    let '(ms, p) := if hd0 p =? 46 then parse_millisec (tl p) else (0, p) in
    if hd0 p =? 0 then Some (set kind ms None, p)
    else '(z, p) ← parse_zone p; Some (set 100 ms (Some z), p).

Definition toml_value_timestamp (src : list byte) : option timestamp :=
  '(ts, p, must_parse_time) ← value_date src;
  '(ts, p) ← value_time ts p;
  if negb (hd0 p =? 0) then None
  else if must_parse_time && (ts_kind ts =? 68) then None
  else Some ts.

(** ** Strings *)

(** [src + srclen - k]: the last [k] bytes. *)
Definition last_bytes (k : nat) (s : list byte) : list byte := drop (length s - k) s.

(** [Err]: -1 or the message of the normalizer. *)
Definition toml_value_string (src : list byte) : result (option message) (list byte) :=
  let qchar := hd0 src in
  let srclen := zlen src in
  let norm sp n multiline :=
    map_err Some (if qchar =? SQ then norm_lit_str sp n multiline false else norm_basic_str sp n multiline false) in
  if negb ((qchar =? SQ) || (qchar =? DQ)) then Err None
  else if (qchar =? at_ 1 src) && (qchar =? at_ 2 src) then
    let sp := drop 3 src in
    let n := srclen - 6 in
    if negb ((0 <=? n) && triple qchar (last_bytes 3 src)) then Err None
    else
      let skip := if hd0 sp =? LF then 1%nat
                  else if (hd0 sp =? CR) && (at_ 1 sp =? LF) then 2%nat else O in
      norm (drop skip sp) (n - Z.of_nat skip) true
  else
    let n := srclen - 2 in
    if negb ((0 <=? n) && (hd0 (last_bytes 1 src) =? qchar)) then Err None
    else norm (drop 1 src) n false.

(** The kind of a value in an array. *)
Definition valtype `{Strtod} (val : list byte) : Z :=
  if (hd0 val =? SQ) || (hd0 val =? DQ) then 115
  else if (match toml_value_bool val with Some _ => true | None => false end) then 98
  else if (match toml_value_int val with Some _ => true | None => false end) then 105
  else if (match toml_value_double val with Some _ => true | None => false end) then 100
  else
    match toml_value_timestamp val with
    | Some ts =>
        if negb (year ts =? 0) && negb (hour ts =? 0) then 84
        else if negb (year ts =? 0) then 68
        else 116
    | None => 117
    end.
