(* ===== verification/TomlTree.v ===== *)
(** * TOML: tables and arrays

    The document tree of src/toml.c and the operations that extend and read
    it.  A pointer into the tree is an index or a path; the node it points to
    is put back after it has been changed. *)

From S2P Require Import Prelude TomlText TomlLex TomlValue.

(** A key/value pair; [val] is null until it has been read. *)
Record toml_keyval := mkKv { kv_key : list byte; kv_keylen : Z; kv_val : option (list byte) }.

(** A table, an array, and an element of an array, of which one pointer is
    set. *)
Inductive toml_table :=
| Table (key : list byte) (keylen : Z) (implicit readonly : bool)
    (kval : list toml_keyval) (arr : list toml_array) (tab : list toml_table)
with toml_array :=
| Array (key : list byte) (keylen : Z) (kind : Z) (type : Z) (item : list toml_arritem)
with toml_arritem :=
| ItemVal (valtype : Z) (val : list byte)
| ItemArr (a : toml_array)
| ItemTab (t : toml_table).

Definition t_key (t : toml_table) := let '(Table k _ _ _ _ _ _) := t in k.
Definition t_keylen (t : toml_table) := let '(Table _ n _ _ _ _ _) := t in n.
Definition t_implicit (t : toml_table) := let '(Table _ _ i _ _ _ _) := t in i.
Definition t_readonly (t : toml_table) := let '(Table _ _ _ r _ _ _) := t in r.
Definition t_kval (t : toml_table) := let '(Table _ _ _ _ kv _ _) := t in kv.
Definition t_arr (t : toml_table) := let '(Table _ _ _ _ _ a _) := t in a.
Definition t_tab (t : toml_table) := let '(Table _ _ _ _ _ _ tb) := t in tb.
Definition a_key (a : toml_array) := let '(Array k _ _ _ _) := a in k.
Definition a_keylen (a : toml_array) := let '(Array _ n _ _ _) := a in n.
Definition a_kind (a : toml_array) := let '(Array _ _ k _ _) := a in k.
Definition a_type (a : toml_array) := let '(Array _ _ _ t _) := a in t.
Definition a_item (a : toml_array) := let '(Array _ _ _ _ i) := a in i.

Definition with_keylen (n : Z) (t : toml_table) :=
  let '(Table k _ i r kv a tb) := t in Table k n i r kv a tb.
Definition with_implicit (i : bool) (t : toml_table) :=
  let '(Table k n _ r kv a tb) := t in Table k n i r kv a tb.
Definition with_readonly (r : bool) (t : toml_table) :=
  let '(Table k n i _ kv a tb) := t in Table k n i r kv a tb.
Definition with_kval (kv : list toml_keyval) (t : toml_table) :=
  let '(Table k n i r _ a tb) := t in Table k n i r kv a tb.
Definition with_arr (a : list toml_array) (t : toml_table) :=
  let '(Table k n i r kv _ tb) := t in Table k n i r kv a tb.
Definition with_tab (tb : list toml_table) (t : toml_table) :=
  let '(Table k n i r kv a _) := t in Table k n i r kv a tb.
Definition with_akeylen (n : Z) (a : toml_array) :=
  let '(Array k _ kd ty it) := a in Array k n kd ty it.
Definition with_kind (kd : Z) (a : toml_array) :=
  let '(Array k n _ ty it) := a in Array k n kd ty it.
Definition with_type (ty : Z) (a : toml_array) :=
  let '(Array k n kd _ it) := a in Array k n kd ty it.
Definition with_item (it : list toml_arritem) (a : toml_array) :=
  let '(Array k n kd ty _) := a in Array k n kd ty it.

(** [CALLOC] *)
Definition empty_table : toml_table := Table [] 0 false false [] [] [].
Definition new_table (key : list byte) (keylen : Z) (implicit : bool) : toml_table :=
  Table key keylen implicit false [] [] [].
Definition new_array (key : list byte) (keylen kind : Z) : toml_array := Array key keylen kind 0 [].

(** ** Lookup *)

(** The index of the first entry with the key. *)
Fixpoint find_key {A} (key_of : A -> list byte) (key : list byte) (l : list A) : option nat :=
  match l with
  | [] => None
  | x :: l => if streq key (key_of x) then Some O else S <$> find_key key_of key l
  end.

(** 'v', 'a', 't' with the index, or 0. *)
Inductive key_at := KVal (i : nat) | KArr (i : nat) | KTab (i : nat) | KNone.

Definition check_key (tab : toml_table) (key : list byte) : key_at :=
  match find_key kv_key key (t_kval tab) with
  | Some i => KVal i
  | None =>
      match find_key a_key key (t_arr tab) with
      | Some i => KArr i
      | None =>
          match find_key t_key key (t_tab tab) with
          | Some i => KTab i
          | None => KNone
          end
      end
  end.

Definition toml_table_unparsed (tab : toml_table) (key : list byte) : option (list byte) :=
  i ← find_key kv_key key (t_kval tab); kv ← t_kval tab !! i; kv_val kv.

Definition toml_table_array (tab : toml_table) (key : list byte) : option toml_array :=
  i ← find_key a_key key (t_arr tab); t_arr tab !! i.

Definition toml_table_table (tab : toml_table) (key : list byte) : option toml_table :=
  i ← find_key t_key key (t_tab tab); t_tab tab !! i.

Definition toml_table_len (tbl : toml_table) : Z := zlen (t_kval tbl) + zlen (t_arr tbl) + zlen (t_tab tbl).

(** The key and its length; [keyidx] is not negative. *)
Definition toml_table_key (tab : toml_table) (keyidx : nat) : option (list byte * Z) :=
  match t_kval tab !! keyidx with
  | Some kv => Some (kv_key kv, kv_keylen kv)
  | None =>
      let keyidx := (keyidx - length (t_kval tab))%nat in
      match t_arr tab !! keyidx with
      | Some a => Some (a_key a, a_keylen a)
      | None =>
          let keyidx := (keyidx - length (t_arr tab))%nat in
          match t_tab tab !! keyidx with
          | Some t => Some (t_key t, t_keylen t)
          | None => None
          end
      end
  end.

Definition toml_array_len (arr : toml_array) : Z := zlen (a_item arr).

(** [(0 <= idx && idx < arr->nitem) ? arr->item[idx].p : 0] *)
Definition item_at (arr : toml_array) (idx : Z) : option toml_arritem :=
  if (0 <=? idx) && (idx <? zlen (a_item arr)) then a_item arr !! Z.to_nat idx else None.

Definition toml_array_unparsed (arr : toml_array) (idx : Z) : option (list byte) :=
  match item_at arr idx with Some (ItemVal _ v) => Some v | _ => None end.
Definition toml_array_array (arr : toml_array) (idx : Z) : option toml_array :=
  match item_at arr idx with Some (ItemArr a) => Some a | _ => None end.
Definition toml_array_table (arr : toml_array) (idx : Z) : option toml_table :=
  match item_at arr idx with Some (ItemTab t) => Some t | _ => None end.

(** The typed getters: [None] is [ok = false].  Of a string, the length is
    stored in [u.sl] and then the pointer over it in [u.s], which is in the same
    union: what is left is a C string, which ends at the first NUL. *)
Definition get_string (raw : option (list byte)) : option (list byte) :=
  src ← raw; match toml_value_string src with Ok s => Some (cstr s) | _ => None end.

Definition toml_table_string (tbl : toml_table) (key : list byte) := get_string (toml_table_unparsed tbl key).
Definition toml_table_bool (tbl : toml_table) (key : list byte) := toml_table_unparsed tbl key ≫= toml_value_bool.
Definition toml_table_int (tbl : toml_table) (key : list byte) := toml_table_unparsed tbl key ≫= toml_value_int.
Definition toml_table_double `{Strtod} (tbl : toml_table) (key : list byte) :=
  toml_table_unparsed tbl key ≫= toml_value_double.
Definition toml_table_timestamp (tbl : toml_table) (key : list byte) :=
  toml_table_unparsed tbl key ≫= toml_value_timestamp.
Definition toml_array_string (arr : toml_array) (idx : Z) := get_string (toml_array_unparsed arr idx).
Definition toml_array_bool (arr : toml_array) (idx : Z) := toml_array_unparsed arr idx ≫= toml_value_bool.
Definition toml_array_int (arr : toml_array) (idx : Z) := toml_array_unparsed arr idx ≫= toml_value_int.
Definition toml_array_double `{Strtod} (arr : toml_array) (idx : Z) :=
  toml_array_unparsed arr idx ≫= toml_value_double.
Definition toml_array_timestamp (arr : toml_array) (idx : Z) := toml_array_unparsed arr idx ≫= toml_value_timestamp.

(** ** Creating *)

(** The table with the new entry, which is the last of its list. *)
Definition create_keyval_in_table (tab : toml_table) (keytok : token) : toml toml_table :=
  newkey ← normalize_key keytok;
  match check_key tab newkey with
  | KNone => Ok (with_kval (t_kval tab ++ [mkKv newkey (zlen newkey) None]) tab)
  | _ => Err (e_keyexists (lineno keytok))
  end.

(** The table, and the index of the new table in it. *)
Definition create_keytable_in_table (tab : toml_table) (keytok : token) : toml (toml_table * nat) :=
  newkey ← normalize_key keytok;
  match check_key tab newkey with
  | KNone => Ok (with_tab (t_tab tab ++ [new_table newkey (zlen newkey) false]) tab, length (t_tab tab))
  | KTab i =>
      match t_tab tab !! i with
      | Some dest =>
          if t_implicit dest then Ok (with_tab (<[i := with_implicit false dest]> (t_tab tab)) tab, i)
          else Err (e_keyexists (lineno keytok))
      | None => Stuck
      end
  | _ => Err (e_keyexists (lineno keytok))
  end.

Definition create_keyarray_in_table (tab : toml_table) (keytok : token) (kind : Z) : toml (toml_table * nat) :=
  newkey ← normalize_key keytok;
  match check_key tab newkey with
  | KNone => Ok (with_arr (t_arr tab ++ [new_array newkey (zlen newkey) kind]) tab, length (t_arr tab))
  | _ => Err (e_keyexists (lineno keytok))
  end.

(** [create_value_in_array], [create_array_in_array], [create_table_in_array]. *)
Definition create_in_array (it : toml_arritem) (parent : toml_array) : toml_array :=
  with_item (a_item parent ++ [it]) parent.

(** Replacing what a pointer that was handed out points to. *)
Definition set_val (i : nat) (v : list byte) (tab : toml_table) : toml_table :=
  with_kval (alter (fun kv => mkKv (kv_key kv) (kv_keylen kv) (Some v)) i (t_kval tab)) tab.
Definition set_tab (i : nat) (t : toml_table) (tab : toml_table) : toml_table :=
  with_tab (<[i := t]> (t_tab tab)) tab.
Definition set_arr (i : nat) (a : toml_array) (tab : toml_table) : toml_table :=
  with_arr (<[i := a]> (t_arr tab)) tab.
