(* ===== verification/TomlParse.v ===== *)
(** * TOML: the parser

    [parse_keyval], [parse_array], [parse_inline_table], the table headers and
    [toml_parse] of src/toml.c.  The functions that are given a table or an
    array return it as they leave it. *)

From Stdlib Require Import Strings.String.
From S2P Require Import Prelude TomlText TomlLex TomlValue TomlTree.

#[local] Open Scope string_scope.
#[local] Open Scope Z_scope.

Definition is_tok (t : token) (k : tokentype) : bool := bool_decide (tok t = k).

(** The text of a token. *)
Definition tok_text (t : token) : list byte := ztake (len t) (ptr t).

Definition syntax {A} (t : token) (s : String.string) : toml A := Err (e_syntax (lineno t) (Msg s)).
Arguments syntax {A} t s%_string.

(** A pointer that has to be there. *)
Definition deref {A} (o : option A) : toml A := match o with Some a => Ok a | None => Stuck end.

(** The kind of an array ('v', 'a', 't', 'm'ixed) after an element of kind [k];
    the type of its values likewise. *)
Definition add_kind (k : Z) (arr : toml_array) : toml_array :=
  with_kind (if a_kind arr =? 0 then k else if negb (a_kind arr =? k) then 109 else a_kind arr) arr.

Definition add_type (vt : Z) (arr : toml_array) : toml_array :=
  with_type (if zlen (a_item arr) =? 1 then vt else if negb (a_type arr =? vt) then 109 else a_type arr) arr.

Section parser.
Context `{Strtod}.

Fixpoint parse_keyval (fuel : nat) (t : token) (tab : toml_table) : toml (token * toml_table) :=
  match fuel with
  | O => Stuck
  | S fuel =>
      if t_readonly tab then Err (e_forbid (lineno t) (Msg "cannot insert new entry into existing table"))
      else
        let key := t in
        t ← eat_token t STRING true;
        if is_tok t DOT then
          subtabstr ← normalize_key key;
          '(tab, i) ← match find_key t_key subtabstr (t_tab tab) with
                      | Some i => Ok (with_tab (alter (with_keylen (zlen subtabstr)) i (t_tab tab)) tab, i)
                      | None => create_keytable_in_table tab key
                      end;
          t ← next_token t true;
          subtab ← deref (t_tab tab !! i);
          '(t, subtab) ← parse_keyval fuel t subtab;
          Ok (t, set_tab i subtab tab)
        else if negb (is_tok t EQUAL) then syntax t "missing ="
        else
          t ← next_token t false;
          match tok t with
          | STRING =>
              let i := length (t_kval tab) in
              tab ← create_keyval_in_table tab key;
              let tab := set_val i (tok_text t) tab in
              t ← next_token t true;
              Ok (t, tab)
          | LBRACKET =>
              '(tab, i) ← create_keyarray_in_table tab key 0;
              arr ← deref (t_arr tab !! i);
              '(t, arr) ← parse_array fuel t arr;
              Ok (t, set_arr i arr tab)
          | LBRACE =>
              '(tab, i) ← create_keytable_in_table tab key;
              nxttab ← deref (t_tab tab !! i);
              '(t, nxttab) ← parse_inline_table fuel t nxttab;
              Ok (t, set_tab i nxttab tab)
          | _ => syntax t "syntax error"
          end
  end

with parse_array (fuel : nat) (t : token) (arr : toml_array) : toml (token * toml_array) :=
  match fuel with
  | O => Stuck
  | S fuel => t ← eat_token t LBRACKET false; array_loop fuel t arr
  end

with array_loop (fuel : nat) (t : token) (arr : toml_array) : toml (token * toml_array) :=
  match fuel with
  | O => Stuck
  | S fuel =>
      let finish t arr := t ← eat_token t RBRACKET true; Ok (t, arr) in
      t ← skip_newlines t false;
      if is_tok t RBRACKET then finish t arr
      else
        '(t, arr) ←
          match tok t with
          | STRING =>
              let val := tok_text t in
              let arr := add_type (valtype val) (create_in_array (ItemVal (valtype val) val) (add_kind 118 arr)) in
              t ← eat_token t STRING false;
              Ok (t, arr)
          | LBRACKET =>
              '(t, subarr) ← parse_array fuel t (new_array [] 0 0);
              Ok (t, create_in_array (ItemArr subarr) (add_kind 97 arr))
          | LBRACE =>
              '(t, subtab) ← parse_inline_table fuel t empty_table;
              Ok (t, create_in_array (ItemTab subtab) (add_kind 116 arr))
          | _ => syntax t "syntax error"
          end;
        t ← skip_newlines t false;
        if is_tok t COMMA then t ← eat_token t COMMA false; array_loop fuel t arr
        else finish t arr
  end

with parse_inline_table (fuel : nat) (t : token) (tab : toml_table) : toml (token * toml_table) :=
  match fuel with
  | O => Stuck
  | S fuel => t ← eat_token t LBRACE true; inline_loop fuel t tab
  end

with inline_loop (fuel : nat) (t : token) (tab : toml_table) : toml (token * toml_table) :=
  match fuel with
  | O => Stuck
  | S fuel =>
      let finish t tab := t ← eat_token t RBRACE true; Ok (t, with_readonly true tab) in
      if is_tok t NEWLINE then syntax t "newline not allowed in inline table"
      else if is_tok t RBRACE then finish t tab
      else if negb (is_tok t STRING) then syntax t "expect a string"
      else
        '(t, tab) ← parse_keyval fuel t tab;
        if is_tok t NEWLINE then syntax t "newline not allowed in inline table"
        else if is_tok t COMMA then t ← eat_token t COMMA true; inline_loop fuel t tab
        else finish t tab
  end.

(** ** Table headers *)

(** An entry of [ctx->tpath]. *)
Record path_key := mkPk { pk_key : list byte; pk_keylen : Z; pk_tok : token }.

(** At most 10 entries: each round adds one. *)
Fixpoint fill_tabpath (fuel : nat) (t : token) (tpath : list path_key) : toml (token * list path_key) :=
  match fuel with
  | O => Stuck
  | S fuel =>
      if 10 <=? zlen tpath then syntax t "table path is too deep; max allowed is 10."
      else if negb (is_tok t STRING) then syntax t "invalid or missing key"
      else
        key ← normalize_key t;
        let tpath := tpath ++ [mkPk key (zlen key) t] in
        t ← next_token t true;
        if is_tok t RBRACKET then Ok (t, tpath)
        else if negb (is_tok t DOT) then syntax t "invalid key"
        else t ← next_token t true; fill_tabpath fuel t tpath
  end%list.

(** A pointer to a table: from the root, a table of a table or of an array. *)
Inductive path_step := InTab (i : nat) | InArr (i j : nat).

Fixpoint get_at (path : list path_step) (t : toml_table) : option toml_table :=
  match path with
  | [] => Some t
  | InTab i :: path => t ← t_tab t !! i; get_at path t
  | InArr i j :: path =>
      a ← t_arr t !! i;
      match a_item a !! j with Some (ItemTab t) => get_at path t | _ => None end
  end.

Fixpoint update_at (path : list path_step) (f : toml_table -> toml_table) (t : toml_table) : toml_table :=
  match path with
  | [] => f t
  | InTab i :: path => with_tab (alter (update_at path f) i (t_tab t)) t
  | InArr i j :: path =>
      with_arr (alter (fun a =>
        with_item (alter (fun it => match it with ItemTab t => ItemTab (update_at path f t) | _ => it end) j (a_item a)) a)
        i (t_arr t)) t
  end.

(** The tree with the tables that were missing, and the path to the last. *)
Fixpoint walk_tabpath (tpath : list path_key) (curtab : toml_table) : toml (toml_table * list path_step) :=
  match tpath with
  | [] => Ok (curtab, [])
  | k :: tpath =>
      match check_key curtab (pk_key k) with
      | KTab i =>
          nexttab ← deref (t_tab curtab !! i);
          '(nexttab, path) ← walk_tabpath tpath nexttab;
          Ok (set_tab i nexttab curtab, InTab i :: path)
      | KArr i =>
          nextarr ← deref (t_arr curtab !! i);
          if negb (a_kind nextarr =? 116) then Err e_internal
          else if zlen (a_item nextarr) =? 0 then Err e_internal
          else
            let j := (length (a_item nextarr) - 1)%nat in
            match a_item nextarr !! j with
            | Some (ItemTab nexttab) =>
                '(nexttab, path) ← walk_tabpath tpath nexttab;
                Ok (set_arr i (with_item (<[j := ItemTab nexttab]> (a_item nextarr)) nextarr) curtab, InArr i j :: path)
            | _ => Stuck
            end
      | KVal _ => Err (e_keyexists (lineno (pk_tok k)))
      | KNone =>
          let i := length (t_tab curtab) in
          let nexttab := new_table (cstr (pk_key k)) (pk_keylen k) true in
          '(nexttab, path) ← walk_tabpath tpath nexttab;
          Ok (with_tab (t_tab curtab ++ [nexttab]) curtab, InTab i :: path)
      end
  end%list.

(** [x.y.z]: the table [z], made or made explicit in [curtab]. *)
Definition select_table (z : token) (curtab : toml_table) : toml (toml_table * path_step) :=
  '(curtab, i) ← create_keytable_in_table curtab z;
  Ok (curtab, InTab i).

(** [[x.y.z]]: a new table at the end of the array [z] of [curtab]. *)
Definition select_array (z : token) (curtab : toml_table) : toml (toml_table * path_step) :=
  zstr ← normalize_key z;
  '(curtab, i) ← match find_key a_key zstr (t_arr curtab) with
                 | Some i => Ok (with_arr (alter (with_akeylen (zlen zstr)) i (t_arr curtab)) curtab, i)
                 | None => create_keyarray_in_table curtab z 116
                 end;
  arr ← deref (t_arr curtab !! i);
  if negb (a_kind arr =? 116) then Err (e_syntax (lineno z) (Msg "array mismatch"))
  else
    let dest := Table (bytes_of "__anon__") 0 false false [] [] [] in
    Ok (set_arr i (create_in_array (ItemTab dest) arr) curtab, InArr i (length (a_item arr))).

(** The root and the path of the current table. *)
Definition parse_select (t : token) (root : toml_table) : toml (token * toml_table * list path_step) :=
  let llb := (1 <? zlen (ptr t)) && (at_ 1 (ptr t) =? 91) in
  t ← eat_token t LBRACKET true;
  t ← (if llb then eat_token t LBRACKET true else Ok t);
  '(t, tpath) ← fill_tabpath 11 t [];
  z ← deref (last tpath);
  '(root, path) ← walk_tabpath (removelast tpath) root;
  curtab ← deref (get_at path root);
  '(curtab, last_step) ← (if llb then select_array (pk_tok z) curtab else select_table (pk_tok z) curtab);
  let root := update_at path (fun _ => curtab) root in
  if negb (is_tok t RBRACKET) then syntax t "expects ]"
  else if llb && negb ((1 <? zlen (ptr t)) && (at_ 1 (ptr t) =? 93)) then syntax t "expects ]]"
  else
    t ← (if llb then eat_token t RBRACKET true else Ok t);
    t ← eat_token t RBRACKET true;
    if negb (is_tok t NEWLINE) then syntax t "extra chars after ] or ]]"
    else Ok (t, root, path ++ [last_step])%list.

(** ** Documents *)

(** [depth] bounds the nesting of the values, [fuel] the number of lines. *)
Fixpoint parse_loop (fuel depth : nat) (t : token) (root : toml_table) (curtab : list path_step) : toml toml_table :=
  match fuel with
  | O => Stuck
  | S fuel =>
      if eof t then Ok root
      else
        match tok t with
        | NEWLINE => t ← next_token t true; parse_loop fuel depth t root curtab
        | STRING =>
            cur ← deref (get_at curtab root);
            '(t, cur) ← parse_keyval depth t cur;
            let root := update_at curtab (fun _ => cur) root in
            if negb (is_tok t NEWLINE) then syntax t "extra chars after value"
            else t ← eat_token t NEWLINE true; parse_loop fuel depth t root curtab
        | LBRACKET =>
            '(t, root, curtab) ← parse_select t root;
            parse_loop fuel depth t root curtab
        | _ => syntax t "syntax error"
        end
  end.

Definition toml_parse (doc : list byte) : toml toml_table :=
  let doc := cstr doc in
  parse_loop (length doc + 2) (4 * length doc + 4) (mkTok NEWLINE 1 doc 0 false) empty_table [].

End parser.

(** ** TOML: reading a file

    [toml_parse_file] of src/toml.c: the file is read into a buffer that grows
    by 1 KiB, and by 20 KiB once it has 20.  The file is the bytes that are
    left of it; [fread] takes as many as there is room for and the end of the
    file is seen when there are fewer. *)
#[local] Open Scope list_scope.
#[local] Open Scope Z_scope.

(** The buffer has [bufsz] bytes, of which [buf] are read; [eof] is [feof]. *)
Record reading := mkReading { rd_buf : list byte; rd_bufsz : Z; rd_inc : Z; rd_file : list byte; rd_eof : bool }.

Definition read_step (r : reading) : reading :=
  let inc := if rd_bufsz r =? 1024 * 20 then 1024 * 20 else rd_inc r in
  let bufsz := if zlen (rd_buf r) =? rd_bufsz r then rd_bufsz r + inc else rd_bufsz r in
  let room := bufsz - zlen (rd_buf r) in
  mkReading (rd_buf r ++ ztake room (rd_file r)) bufsz inc (zdrop room (rd_file r)) (zlen (rd_file r) <? room).

Fixpoint read_all (fuel : nat) (r : reading) : option reading :=
  match fuel with
  | O => None
  | S fuel => if rd_eof r then Some r else read_all fuel (read_step r)
  end.

(** The NUL that is tagged on, and the size of the buffer it goes in. *)
Definition cap (r : reading) : list byte * Z :=
  (rd_buf r ++ [zb 0], if zlen (rd_buf r) =? rd_bufsz r then rd_bufsz r + 1 else rd_bufsz r).

Definition toml_parse_file `{Strtod} (file : list byte) : toml toml_table :=
  match read_all (length file + 2) (mkReading [] 0 1024 file false) with
  | Some r => toml_parse (fst (cap r))
  | None => Stuck
  end.

(** ** The whole file is read *)

Definition reading_ok (file : list byte) (r : reading) : Prop :=
  rd_buf r ++ rd_file r = file /\ zlen (rd_buf r) <= rd_bufsz r /\ 1024 <= rd_inc r /\
  (rd_eof r = true -> rd_file r = [] /\ zlen (rd_buf r) < rd_bufsz r).

Lemma read_step_ok file r : reading_ok file r -> rd_eof r = false -> reading_ok file (read_step r).
Proof.
  intros (H1 & H2 & H3 & _) _. unfold read_step. cbv zeta. set (inc := if rd_bufsz r =? 1024 * 20 then 1024 * 20 else rd_inc r).
  assert (Hi : 1024 <= inc) by (unfold inc; destruct (_ =? _); lia).
  set (bufsz := if zlen (rd_buf r) =? rd_bufsz r then rd_bufsz r + inc else rd_bufsz r).
  assert (Hb : zlen (rd_buf r) < bufsz) by (unfold bufsz; destruct (Z.eqb_spec (zlen (rd_buf r)) (rd_bufsz r)); lia).
  unfold reading_ok. cbn [rd_buf rd_file rd_bufsz rd_inc rd_eof]. split; [|split; [|split; [exact Hi|]]].
  - rewrite <- app_assoc, take_drop. exact H1.
  - rewrite length_app, length_take. lia.
  - intros He%Z.ltb_lt. split; [apply drop_ge; lia|]. rewrite length_app, length_take. lia.
Qed.

Lemma read_step_progress r :
  zlen (rd_buf r) <= rd_bufsz r -> 1024 <= rd_inc r -> rd_eof (read_step r) = true \/ (length (rd_file (read_step r)) < length (rd_file r))%nat.
Proof.
  intros H2 H3. unfold read_step. cbv zeta. cbn [rd_file rd_eof]. set (inc := if rd_bufsz r =? 1024 * 20 then 1024 * 20 else rd_inc r).
  assert (Hi : 1024 <= inc) by (unfold inc; destruct (_ =? _); lia).
  set (bufsz := if zlen (rd_buf r) =? rd_bufsz r then rd_bufsz r + inc else rd_bufsz r).
  assert (Hb : zlen (rd_buf r) < bufsz) by (unfold bufsz; destruct (Z.eqb_spec (zlen (rd_buf r)) (rd_bufsz r)); lia).
  destruct (Z.ltb_spec (zlen (rd_file r)) (bufsz - zlen (rd_buf r))); [auto|]. right. rewrite length_drop. lia.
Qed.

Lemma read_all_ok fuel file r :
  reading_ok file r -> (length (rd_file r) + 2 <= fuel)%nat -> exists r', read_all fuel r = Some r' /\ reading_ok file r' /\ rd_eof r' = true.
Proof.
  revert r. induction fuel as [|fuel IH]; intros r Hr Hf; [lia|]. cbn [read_all]. destruct (rd_eof r) eqn:E; [eauto|].
  pose proof (read_step_ok file r Hr E) as Hs. destruct Hr as (_ & H2 & H3 & _).
  destruct (read_step_progress r H2 H3) as [He|Hl].
  - destruct fuel as [|fuel]; [lia|]. cbn [read_all]. rewrite He. eauto.
  - apply IH; [exact Hs|lia].
Qed.

Lemma cstr_cap s : cstr (s ++ [zb 0]) = cstr s.
Proof. induction s as [|c s IH]; [reflexivity|]. cbn [app cstr]. rewrite IH. reflexivity. Qed.

(** What is in the buffer when the loop ends, and that the NUL fits. *)
Lemma read_file file :
  exists r, read_all (length file + 2) (mkReading [] 0 1024 file false) = Some r /\ fst (cap r) = file ++ [zb 0] /\ zlen (fst (cap r)) <= snd (cap r).
Proof.
  destruct (read_all_ok (length file + 2) file (mkReading [] 0 1024 file false)) as (r & E & (H1 & H2 & _ & H4) & He).
  { split; [reflexivity|]. cbn. split; [lia|]. split; [lia|discriminate]. }
  { cbn. lia. }
  exists r. split; [exact E|]. destruct (H4 He) as [Hf Hb]. rewrite Hf, app_nil_r in H1. unfold cap. cbn [fst snd].
  split; [congruence|]. rewrite length_app. cbn [length]. destruct (Z.eqb_spec (zlen (rd_buf r)) (rd_bufsz r)); lia.
Qed.

Section file.
Context `{Strtod}.

Lemma toml_parse_cstr s s' : cstr s = cstr s' -> toml_parse s = toml_parse s'.
Proof. unfold toml_parse. intros ->. reflexivity. Qed.

Lemma parse_file_eq file : toml_parse_file file = toml_parse file.
Proof.
  unfold toml_parse_file. destruct (read_file file) as (r & -> & -> & _). apply toml_parse_cstr, cstr_cap.
Qed.
End file.
