(* ===== verification/TomlLexFacts.v ===== *)
(** * TOML: the tokenizer ends and makes progress

    The string normalizers and the tokenizer never run out of fuel; a token
    lies in the text that was left, and every token other than a string takes
    a byte of it. *)

From Stdlib Require Import Strings.String.
From S2P Require Import Prelude TomlText TomlLex.

(** ** Results *)

(** A result that is not [Stuck], with a property of its value. *)
Definition holds {E A} (P : A -> Prop) (r : result E A) : Prop :=
  match r with Ok a => P a | Err _ => True | Stuck => False end.

Lemma holds_bind {E A B} (P : A -> Prop) (Q : B -> Prop) (r : result E A) (f : A -> result E B) :
  holds P r -> (forall a, P a -> holds Q (f a)) -> holds Q (r ≫= f).
Proof. unfold mbind, result_bind. destruct r; cbn; auto. Qed.

Lemma holds_weaken {E A} (P Q : A -> Prop) (r : result E A) :
  holds P r -> (forall a, P a -> Q a) -> holds Q r.
Proof. destruct r; cbn; auto. Qed.

Lemma holds_map_err {E F A} (P : A -> Prop) (f : E -> F) (r : result E A) :
  holds P r -> holds P (map_err f r).
Proof. destruct r; cbn; auto. Qed.

Lemma holds_ok {E A} (P : A -> Prop) (r : result E A) a : holds P r -> r = Ok a -> P a.
Proof. intros H ->. exact H. Qed.

Lemma holds_Ok {E A} (P : A -> Prop) a : P a -> holds P (Ok a : result E A).
Proof. auto. Qed.

(** One step of a parser: the callee's lemma for the head of a bind. *)
Ltac step_bind L := eapply holds_bind; [apply L; auto|].

(** ** Normalizers *)

Lemma hd0_nil_ctl multiline : control multiline (hd0 []) = true.
Proof. destruct multiline; reflexivity. Qed.

Lemma hd0_cons_lt s : hd0 s <> 0 -> exists c r, s = c :: r.
Proof. destruct s; [cbn; congruence|eauto]. Qed.

Lemma take_multibyte_len l sp cs r :
  take_multibyte l sp = Some (cs, r) -> sp = cs ++ r /\ length cs = l.
Proof.
  revert sp cs r. induction l as [|l IH]; intros sp cs r; cbn [take_multibyte].
  - intros [= <- <-]. auto.
  - destruct sp as [|c sp]; [discriminate|]. destruct (negb _); [discriminate|].
    destruct (take_multibyte l sp) as [[cs' r']|] eqn:E; [|discriminate]. cbn. intros [= <- <-].
    destruct (IH _ _ _ E) as [-> <-]. auto.
Qed.

Lemma u8length_range c : 0 <= u8length c <= 4.
Proof.
  unfold u8length. destruct (u8_length !! _) as [x|] eqn:E; cbn; [|lia].
  assert (H : Forall (fun x => 0 <= x <= 4) u8_length) by (repeat constructor; discriminate).
  apply (Forall_lookup_1 _ _ _ _ H E).
Qed.

Lemma norm_lit_holds fuel sp n dst ml ik :
  (length sp < fuel)%nat -> holds (fun _ => True) (norm_lit fuel sp n dst ml ik).
Proof.
  revert sp n dst. induction fuel as [|fuel IH]; intros sp n dst Hf; [lia|]. cbn [norm_lit].
  destruct (n <=? 0); [exact I|]. destruct (u8length (hd0 sp) =? 0); [exact I|].
  destruct (Z.ltb_spec 1 (u8length (hd0 sp))) as [Hl|_].
  - destruct (take_multibyte _ sp) as [[cs r]|] eqn:E; [|exact I]. apply take_multibyte_len in E as [-> E].
    apply IH. rewrite length_app in Hf. lia.
  - destruct (ik && (hd0 sp =? LF)); [exact I|]. destruct (control ml (hd0 sp)) eqn:Ec; [exact I|].
    destruct sp as [|c sp]; [rewrite hd0_nil_ctl in Ec; discriminate|]. apply IH. cbn [tl length] in *. lia.
Qed.

Lemma read_hex_holds nhex tot esc sp n ucs :
  holds (fun '(_, r, _) => (length r <= length sp)%nat) (read_hex nhex tot esc sp n ucs).
Proof.
  revert sp n ucs. induction nhex as [|nhex IH]; intros sp n ucs; cbn [read_hex]; [cbn; lia|].
  destruct (n <=? 0); [exact I|]. destruct (hexval (hd0 sp) =? -1); [exact I|].
  eapply holds_weaken; [apply IH|]. intros [[u r] m] H. destruct sp; cbn [tl length] in *; lia.
Qed.

Lemma norm_basic_holds fuel sp n dst ml ik :
  (length sp < fuel)%nat -> holds (fun _ => True) (norm_basic fuel sp n dst ml ik).
Proof.
  revert sp n dst. induction fuel as [|fuel IH]; intros sp n dst Hf; [lia|]. cbn [norm_basic].
  destruct (n <=? 0); [exact I|]. destruct (u8length (hd0 sp) =? 0); [exact I|].
  destruct (Z.ltb_spec 1 (u8length (hd0 sp))) as [Hl|_].
  { destruct (take_multibyte _ sp) as [[cs r]|] eqn:E; [|exact I]. apply take_multibyte_len in E as [-> E].
    apply IH. rewrite length_app in Hf. lia. }
  destruct (ik && (hd0 sp =? LF)); [exact I|].
  destruct (Z.eqb_spec (hd0 sp) BSLASH) as [Eb|_]; cbn [negb].
  - destruct sp as [|c sp]; [discriminate Eb|]. cbn [tl length] in *. destruct (n - 1 <=? 0); [exact I|].
    destruct (ml && _); [apply IH; rewrite length_drop; lia|].
    assert (Htl : (length (tl sp) < fuel)%nat) by (destruct sp; cbn [tl length] in *; lia).
    destruct (_ || _).
    + eapply holds_bind; [apply read_hex_holds|]. intros [[u r] m] Hr. destruct (read_unicode_escape u); [|exact I].
      apply IH. lia.
    + destruct (simple_escape (hd0 sp)); [|exact I]. apply IH. lia.
  - destruct (control ml (hd0 sp)) eqn:Ec; [exact I|].
    destruct sp as [|c sp]; [rewrite hd0_nil_ctl in Ec; discriminate|]. apply IH. cbn [tl length] in *. lia.
Qed.

Lemma normalize_key_holds t : holds (fun _ => True) (normalize_key t).
Proof.
  unfold normalize_key. destruct (_ || _).
  - apply holds_map_err. destruct (_ =? SQ); [apply norm_lit_holds|apply norm_basic_holds]; lia.
  - destruct (forallb _ _); exact I.
Qed.

(** ** Tokens *)

(** A token of what follows it; [eof] has nothing. *)
Definition tok_ok (t : token) : Prop :=
  0 <= len t <= zlen (ptr t) /\
  (if eof t then tok t = NEWLINE /\ ptr t = [] else ptr t <> [] /\ (tok t = STRING \/ len t = 1)).

(** The text from the token on. *)
Definition left_of (t : token) : nat := length (ptr t).

Lemma strstr3_len q prev s p r : strstr3 q prev s = Some (p, r) -> (length r <= length s)%nat /\ triple q r = true.
Proof.
  revert prev. induction s as [|c s IH]; intros prev; cbn [strstr3].
  - destruct (triple q []) eqn:E; [|discriminate]. intros [= <- <-]. auto.
  - destruct (triple q (c :: s)) eqn:E; [intros [= <- <-]; auto|].
    intros H. apply IH in H. cbn [length]. split; [lia|tauto].
Qed.

Lemma triple_cons q r : q <> 0 -> triple q r = true -> (1 <= length r)%nat.
Proof.
  unfold triple, at_. destruct r as [|c r]; [|cbn; lia].
  intros Hq [[H _]%andb_true_iff _]%andb_true_iff. apply Z.eqb_eq in H. cbn in H. congruence.
Qed.

Lemma more_quotes_len q s r : more_quotes q s = Some r -> (length r <= length s)%nat.
Proof.
  unfold more_quotes. destruct (_ =? _); [destruct (_ =? _); [destruct (_ =? _); [discriminate|]|]|];
    intros [= <-]; rewrite ?length_drop; lia.
Qed.

Lemma find_close_holds fuel prev s :
  (length s < fuel)%nat -> holds (fun q => (length q <= length s)%nat) (find_close fuel prev s).
Proof.
  revert prev s. induction fuel as [|fuel IH]; intros prev s Hf; [lia|]. cbn [find_close].
  destruct (strstr3 DQ prev s) as [[p q]|] eqn:E; [|exact I]. apply strstr3_len in E as [El Et].
  apply triple_cons in Et; [|discriminate]. destruct (p =? BSLASH); [|exact El].
  destruct q as [|c q]; [cbn in Et; lia|]. cbn [tl length hd0] in *.
  eapply holds_weaken; [apply IH; lia|]. intros r Hr. cbn beta in *. lia.
Qed.

Lemma scan_basic_holds p esc h :
  holds (fun q => (length q <= length p)%nat) (scan_basic p esc h).
Proof.
  revert esc h. induction p as [|b p IH]; intros esc h; cbn [scan_basic]; [cbn; lia|].
  assert (W : forall e k, holds (fun q => (length q <= length (b :: p))%nat) (scan_basic p e k)).
  { intros e k. eapply holds_weaken; [apply IH|]. intros q Hq. cbn beta in *. cbn [length]. lia. }
  destruct esc.
  - destruct (is_escape _); [apply W|]. destruct (_ =? 117); [apply W|]. destruct (_ =? 85); [apply W|exact I].
  - destruct h; [|destruct (is_hex_digit _); [apply W|exact I]].
    destruct (_ =? BSLASH); [apply W|]. destruct (_ =? LF); [cbn; lia|]. destruct (_ =? DQ); [cbn; lia|apply W].
Qed.

Lemma scan_literal_len p : (length (scan_literal p) <= length p)%nat.
Proof. induction p as [|b p IH]; cbn [scan_literal length]; [lia|]. destruct (_ || _); cbn [length]; lia. Qed.

Lemma scan_bare_len p d : (length (scan_bare p d) <= length p)%nat.
Proof.
  induction p as [|b p IH]; cbn [scan_bare length]; [lia|]. destruct (_ =? LF); cbn [length]; [lia|].
  destruct (_ && d); cbn [length]; [lia|]. destruct (_ || _); cbn [length]; lia.
Qed.

Lemma strspn_len set s : (strspn set s <= length s)%nat.
Proof. induction s as [|c s IH]; cbn [strspn length]; [lia|]. destruct (strchr _ _); lia. Qed.

(** A string token. *)
Definition is_string (p : list byte) (t : token) : Prop :=
  tok t = STRING /\ eof t = false /\ ptr t = p /\ 0 <= len t <= zlen p.

Lemma str_holds p line q : (length q <= length p)%nat -> holds (is_string p) (Ok (set_token STRING line p (span_len p q)) : toml token).
Proof. intros Hq. cbn. repeat split; unfold span_len; cbn; lia. Qed.

Lemma tl_len {A} (l : list A) : (length (tl l) <= length l)%nat.
Proof. destruct l; cbn; lia. Qed.

Lemma scan_string_holds p line d : holds (is_string p) (scan_string p line d).
Proof.
  unfold scan_string. cbv zeta. destruct (triple SQ p).
  { destruct (strstr3 _ _ _) as [[a q]|] eqn:E; [|exact I]. apply strstr3_len in E as [E _].
    destruct (more_quotes SQ q) as [q'|] eqn:E'; [|exact I]. apply more_quotes_len in E'.
    apply str_holds. rewrite length_drop in *. lia. }
  destruct (triple DQ p).
  { pose proof (find_close_holds (S (length p)) DQ (drop 3 p)) as H. rewrite length_drop in H. specialize (H ltac:(lia)).
    destruct (find_close _ _ _) as [q| |]; [|exact I|destruct H]. cbn in H.
    destruct (more_quotes DQ q) as [q'|] eqn:E'; [|exact I]. apply more_quotes_len in E'.
    destruct (check_escapes _ _ _ _); [exact I|]. apply str_holds. rewrite length_drop. lia. }
  destruct (_ =? SQ).
  { destruct (negb _); [exact I|]. apply str_holds. pose proof (scan_literal_len (tl p)).
    pose proof (tl_len (scan_literal (tl p))). pose proof (tl_len p). lia. }
  destruct (_ =? DQ).
  { eapply holds_bind; [apply holds_map_err, scan_basic_holds|]. intros q Hq. cbn beta in Hq. destruct (negb _); [exact I|].
    apply str_holds. pose proof (tl_len q). pose proof (tl_len p). lia. }
  destruct (_ || _); [|apply str_holds, scan_bare_len].
  cbn. pose proof (strspn_len timestamp_chars p). repeat split; cbn; lia.
Qed.

Lemma skip_comment_len p : (length (skip_comment p) <= length p)%nat.
Proof. induction p as [|c p IH]; cbn [skip_comment length]; [lia|]. destruct (_ =? LF); cbn [length]; lia. Qed.

Lemma make_token_holds fuel p line d :
  (length p < fuel)%nat -> holds (fun t => tok_ok t /\ (left_of t <= length p)%nat) (make_token fuel p line d).
Proof.
  revert p line. induction fuel as [|fuel IH]; intros p line Hf; [lia|]. cbn [make_token].
  destruct p as [|b rest]; [cbn; unfold tok_ok, left_of; cbn; repeat split; lia|].
  assert (W : forall r l, (length r <= length rest)%nat ->
            holds (fun t => tok_ok t /\ (left_of t <= length (b :: rest))%nat) (make_token fuel r l d)).
  { intros r l Hr. cbn [length] in *. eapply holds_weaken; [apply IH; lia|].
    intros t [H1 H2]. split; [exact H1|]. lia. }
  assert (P : forall k l, holds (fun t => tok_ok t /\ (left_of t <= length (b :: rest))%nat)
                    (Ok (set_token k l (b :: rest) 1) : toml token)).
  { intros k l. cbn. unfold tok_ok, left_of. cbn [set_token len ptr eof tok length]. repeat split; auto; try discriminate; lia. }
  destruct (_ =? 35); [apply W, skip_comment_len|].
  destruct (d && _); [apply P|]. destruct (punctuation _); [apply P|].
  destruct (_ || _); [apply W; lia|].
  eapply holds_weaken; [apply scan_string_holds|]. intros t (H1 & H2 & H3 & H4). unfold tok_ok, left_of.
  rewrite H2, H3. split; [|lia]. split; [exact H4|]. split; [discriminate|auto].
Qed.

Lemma next_token_holds t d :
  tok_ok t -> holds (fun t' => tok_ok t' /\ (left_of t' <= left_of t - Z.to_nat (len t))%nat) (next_token t d).
Proof.
  intros Ht. unfold next_token. eapply holds_weaken; [apply make_token_holds; lia|].
  intros t' [H1 H2]. split; [exact H1|]. unfold left_of in *. rewrite length_drop in H2. exact H2.
Qed.

(** A token that is not a string takes a byte. *)
Lemma punct_left t : tok_ok t -> tok t <> STRING -> eof t = false -> len t = 1 /\ (1 <= left_of t)%nat.
Proof. intros [H1 H2] Hs He. rewrite He in H2. unfold left_of. destruct H2 as [_ [|H2]]; [congruence|]. lia. Qed.

Lemma not_eof_left t : tok_ok t -> eof t = false -> (1 <= left_of t)%nat.
Proof. intros [_ H2] He. rewrite He in H2. unfold left_of. destruct (ptr t); [tauto|cbn; lia]. Qed.

Lemma eof_newline t : tok_ok t -> tok t <> NEWLINE -> eof t = false.
Proof. intros [_ H] Hn. destruct (eof t); [|reflexivity]. tauto. Qed.

(** Going over a token that must be of a kind. *)
Lemma eat_token_holds t k d :
  tok_ok t -> holds (fun t' => tok_ok t' /\ (left_of t' <= left_of t)%nat /\
                       (k <> STRING -> k <> NEWLINE -> (left_of t' < left_of t)%nat)) (eat_token t k d).
Proof.
  intros Ht. unfold eat_token. case_bool_decide as E; [|exact I].
  eapply holds_weaken; [apply next_token_holds, Ht|]. intros t' [H1 H2]. split; [exact H1|]. split; [lia|].
  intros Hs Hn. destruct (punct_left t Ht) as [Hl Hp]; [congruence|apply eof_newline; congruence|]. rewrite Hl in H2.
  change (Z.to_nat 1) with 1%nat in H2. lia.
Qed.

Lemma next_token_end t d : ptr t = [] -> exists line, next_token t d = Ok (set_eof line).
Proof. intros E. unfold next_token. rewrite E, drop_nil. eauto. Qed.

Lemma skip_newlines_loop_holds fuel t d :
  tok_ok t -> (2 + left_of t <= fuel)%nat ->
  holds (fun t' => tok_ok t' /\ (left_of t' <= left_of t)%nat) (skip_newlines_loop fuel t d).
Proof.
  revert t. induction fuel as [|fuel IH]; intros t Ht Hf; [lia|]. cbn [skip_newlines_loop].
  case_bool_decide as E; [|split; auto; lia]. destruct (eof t) eqn:He.
  - pose proof Ht as [_ Hp]. rewrite He in Hp. destruct (next_token_end t d (proj2 Hp)) as [line ->].
    cbn. unfold tok_ok, left_of. cbn. repeat split; lia.
  - eapply holds_bind; [apply next_token_holds, Ht|]. intros t' [H1 H2].
    destruct (eof t'); [split; [exact H1|lia]|].
    destruct (punct_left t Ht) as [Hl Hp]; [congruence|exact He|]. rewrite Hl in H2. change (Z.to_nat 1) with 1%nat in H2.
    eapply holds_weaken; [apply IH; [exact H1|lia]|]. intros t2 [H3 H4]. split; [exact H3|lia].
Qed.

Lemma skip_newlines_holds t d :
  tok_ok t -> holds (fun t' => tok_ok t' /\ (left_of t' <= left_of t)%nat) (skip_newlines t d).
Proof. intros Ht. apply skip_newlines_loop_holds; auto. Qed.
