(* ===== verification/TomlParseFacts.v ===== *)
(** * TOML: the parser ends in a well-formed document

    The invariant of the tree (keys are distinct in every table, the kinds of
    arrays tell the truth), its preservation by every operation, and the bound
    on the recursion of the parser. *)

From Stdlib Require Import Strings.String.
From S2P Require Import Prelude TomlText TomlLex TomlValue TomlTree TomlParse TomlLexFacts.

(** ** The invariant *)

(** The keys of a table as [strcmp] sees them. *)
Definition all_keys (t : toml_table) : list (list byte) :=
  map (fun kv => cstr (kv_key kv)) (t_kval t) ++ map (fun a => cstr (a_key a)) (t_arr t)
  ++ map (fun t => cstr (t_key t)) (t_tab t).

Definition is_val (i : toml_arritem) : Prop := match i with ItemVal _ _ => True | _ => False end.
Definition is_arr (i : toml_arritem) : Prop := match i with ItemArr _ => True | _ => False end.
Definition is_tab (i : toml_arritem) : Prop := match i with ItemTab _ => True | _ => False end.

(** 0: no element yet; 'v', 'a', 't': all elements are of that kind. *)
Definition kind_ok (kind : Z) (items : list toml_arritem) : Prop :=
  (kind = 0 -> items = []) /\ (kind = 118 -> Forall is_val items) /\
  (kind = 97 -> Forall is_arr items) /\ (kind = 116 -> Forall is_tab items).

Section facts.
Context `{Strtod}.

Inductive tab_ok : toml_table -> Prop :=
| tab_ok_intro t :
    NoDup (all_keys t) -> Forall (fun kv => kv_val kv <> None) (t_kval t) ->
    Forall arr_ok (t_arr t) -> Forall tab_ok (t_tab t) -> tab_ok t
with arr_ok : toml_array -> Prop :=
| arr_ok_intro a : kind_ok (a_kind a) (a_item a) -> Forall item_ok (a_item a) -> arr_ok a
with item_ok : toml_arritem -> Prop :=
| val_ok v : item_ok (ItemVal (valtype v) v)
| sub_arr_ok a : arr_ok a -> item_ok (ItemArr a)
| sub_tab_ok t : tab_ok t -> item_ok (ItemTab t).

Lemma tab_ok_inv t :
  tab_ok t -> NoDup (all_keys t) /\ Forall (fun kv => kv_val kv <> None) (t_kval t) /\
              Forall arr_ok (t_arr t) /\ Forall tab_ok (t_tab t).
Proof. intros Ht. inversion Ht; subst. auto. Qed.

Lemma arr_ok_inv a : arr_ok a -> kind_ok (a_kind a) (a_item a) /\ Forall item_ok (a_item a).
Proof. intros Ha. inversion Ha; subst. auto. Qed.

Lemma new_table_ok k n i : tab_ok (new_table k n i).
Proof. constructor; cbn; constructor. Qed.

Lemma new_array_ok k n kd : kind_ok kd [] -> arr_ok (new_array k n kd).
Proof. intros Hk. constructor; cbn; auto. Qed.

Lemma kind_nil kd : kind_ok kd [].
Proof. repeat split; auto. Qed.

(** ** Fields that an operation leaves *)

Lemma key_with_keylen n t : t_key (with_keylen n t) = t_key t.
Proof. destruct t; reflexivity. Qed.
Lemma key_with_implicit n t : t_key (with_implicit n t) = t_key t.
Proof. destruct t; reflexivity. Qed.
Lemma key_with_readonly n t : t_key (with_readonly n t) = t_key t.
Proof. destruct t; reflexivity. Qed.
Lemma key_with_kval n t : t_key (with_kval n t) = t_key t.
Proof. destruct t; reflexivity. Qed.
Lemma key_with_arr n t : t_key (with_arr n t) = t_key t.
Proof. destruct t; reflexivity. Qed.
Lemma key_with_tab n t : t_key (with_tab n t) = t_key t.
Proof. destruct t; reflexivity. Qed.
Lemma key_with_item n a : a_key (with_item n a) = a_key a.
Proof. destruct a; reflexivity. Qed.
Lemma key_with_akeylen n a : a_key (with_akeylen n a) = a_key a.
Proof. destruct a; reflexivity. Qed.
Lemma tabs_with_tab l t : t_tab (with_tab l t) = l.
Proof. destruct t; reflexivity. Qed.
Lemma arrs_with_arr l t : t_arr (with_arr l t) = l.
Proof. destruct t; reflexivity. Qed.
Lemma kvals_with_kval l t : t_kval (with_kval l t) = l.
Proof. destruct t; reflexivity. Qed.

Lemma fields_eq t t' :
  t_kval t' = t_kval t -> t_arr t' = t_arr t -> t_tab t' = t_tab t -> tab_ok t -> tab_ok t'.
Proof.
  intros E1 E2 E3 Ht. apply tab_ok_inv in Ht. constructor; unfold all_keys in *; rewrite ?E1, ?E2, ?E3; tauto.
Qed.

Lemma ok_with_keylen n t : tab_ok t -> tab_ok (with_keylen n t).
Proof. apply fields_eq; destruct t; reflexivity. Qed.
Lemma ok_with_implicit n t : tab_ok t -> tab_ok (with_implicit n t).
Proof. apply fields_eq; destruct t; reflexivity. Qed.
Lemma ok_with_readonly n t : tab_ok t -> tab_ok (with_readonly n t).
Proof. apply fields_eq; destruct t; reflexivity. Qed.
Lemma ok_with_akeylen n a : arr_ok a -> arr_ok (with_akeylen n a).
Proof. intros Ha%arr_ok_inv. constructor; destruct a; cbn in *; tauto. Qed.

(** Replacing an entry by one with the same key. *)
Lemma map_insert_same {A B} (f : A -> B) (l : list A) i x y :
  l !! i = Some x -> f y = f x -> map f (<[i := y]> l) = map f l.
Proof.
  revert i. induction l as [|z l IH]; intros [|i]; cbn; try discriminate.
  - intros [= ->] ->. reflexivity.
  - intros Hi Hf. f_equal. apply IH; auto.
Qed.

Lemma map_alter_same {A B} (f : A -> B) (g : A -> A) (l : list A) i :
  (forall x, f (g x) = f x) -> map f (alter g i l) = map f l.
Proof. intros Hg. revert i. induction l as [|z l IH]; intros [|i]; cbn; congruence. Qed.

Lemma ok_set_tab i t x tab :
  t_tab tab !! i = Some x -> t_key t = t_key x -> tab_ok t -> tab_ok tab -> tab_ok (set_tab i t tab).
Proof.
  intros Hi Hk Ht Htab. destruct (tab_ok_inv _ Htab) as (H1 & H2 & H3 & H4). unfold set_tab.
  destruct tab as [k n im r kv ar tb]. cbn in *. constructor; unfold all_keys in *; cbn in *; auto.
  - rewrite (map_insert_same _ _ _ x); [exact H1|exact Hi|congruence].
  - apply Forall_insert; auto.
Qed.

Lemma ok_set_arr i a x tab :
  t_arr tab !! i = Some x -> a_key a = a_key x -> arr_ok a -> tab_ok tab -> tab_ok (set_arr i a tab).
Proof.
  intros Hi Hk Ht Htab. destruct (tab_ok_inv _ Htab) as (H1 & H2 & H3 & H4). unfold set_arr.
  destruct tab as [k n im r kv ar tb]. cbn in *. constructor; unfold all_keys in *; cbn in *; auto.
  - rewrite (map_insert_same _ _ _ x); [exact H1|exact Hi|congruence].
  - apply Forall_insert; auto.
Qed.

Lemma Forall_alter {A} (P : A -> Prop) (f : A -> A) (l : list A) i :
  Forall P l -> (forall x, P x -> P (f x)) -> Forall P (alter f i l).
Proof. intros Hl Hf. revert i. induction Hl as [|x l Hx Hl IH]; intros [|i]; cbn; constructor; auto. Qed.

Lemma ok_alter_tab f i tab :
  (forall t, t_key (f t) = t_key t) -> (forall t, tab_ok t -> tab_ok (f t)) -> tab_ok tab ->
  tab_ok (with_tab (alter f i (t_tab tab)) tab).
Proof.
  intros Hk Hf (H1 & H2 & H3 & H4)%tab_ok_inv. destruct tab as [k n im r kv ar tb]. cbn in *.
  constructor; unfold all_keys in *; cbn in *; auto.
  - rewrite map_alter_same; [exact H1|]. intros x. rewrite Hk. reflexivity.
  - apply Forall_alter; auto.
Qed.

Lemma ok_alter_arr f i tab :
  (forall a, a_key (f a) = a_key a) -> (forall a, arr_ok a -> arr_ok (f a)) -> tab_ok tab ->
  tab_ok (with_arr (alter f i (t_arr tab)) tab).
Proof.
  intros Hk Hf (H1 & H2 & H3 & H4)%tab_ok_inv. destruct tab as [k n im r kv ar tb]. cbn in *.
  constructor; unfold all_keys in *; cbn in *; auto.
  - rewrite map_alter_same; [exact H1|]. intros x. rewrite Hk. reflexivity.
  - apply Forall_alter; auto.
Qed.

(** ** Lookup *)

Lemma streq_true a b : streq a b = true <-> cstr a = cstr b.
Proof. unfold streq. apply bool_decide_eq_true. Qed.

Lemma find_key_none {A} (f : A -> list byte) key l :
  find_key f key l = None -> cstr key ∉ map (fun x => cstr (f x)) l.
Proof.
  induction l as [|x l IH]; cbn [find_key map]; [intros _; apply not_elem_of_nil|].
  destruct (streq key (f x)) eqn:E; [discriminate|]. destruct (find_key f key l) eqn:E2; [discriminate|].
  intros _. apply not_elem_of_cons. split; [|auto]. intros Hc. apply streq_true in Hc. congruence.
Qed.

Lemma find_key_some {A} (f : A -> list byte) key l i :
  find_key f key l = Some i -> exists x, l !! i = Some x /\ cstr (f x) = cstr key.
Proof.
  revert i. induction l as [|x l IH]; intros i; cbn [find_key]; [discriminate|].
  destruct (streq key (f x)) eqn:E.
  - intros [= <-]. exists x. apply streq_true in E. auto.
  - destruct (find_key f key l) as [j|]; [|discriminate]. cbn. intros [= <-]. apply IH. reflexivity.
Qed.

Lemma check_key_none tab key : check_key tab key = KNone -> cstr key ∉ all_keys tab.
Proof.
  unfold check_key, all_keys. destruct (find_key kv_key _ _) eqn:E1; [discriminate|].
  destruct (find_key a_key _ _) eqn:E2; [discriminate|]. destruct (find_key t_key _ _) eqn:E3; [discriminate|]. intros _.
  rewrite !not_elem_of_app. repeat split; eapply find_key_none; eauto.
Qed.

Lemma check_key_tab tab key i : check_key tab key = KTab i -> exists x, t_tab tab !! i = Some x.
Proof.
  unfold check_key. destruct (find_key kv_key _ _); [discriminate|]. destruct (find_key a_key _ _); [discriminate|].
  destruct (find_key t_key _ _) eqn:E3; [|discriminate]. intros [= <-]. apply find_key_some in E3 as (x & E & _). eauto.
Qed.

Lemma check_key_arr tab key i : check_key tab key = KArr i -> exists x, t_arr tab !! i = Some x.
Proof.
  unfold check_key. destruct (find_key kv_key _ _); [discriminate|]. destruct (find_key a_key _ _) eqn:E; [|destruct (find_key t_key _ _); discriminate].
  intros [= <-]. apply find_key_some in E as (x & E & _). eauto.
Qed.

(** ** Creating *)

Lemma nodup_insert {A} (l1 l2 l : list A) x : l = l1 ++ l2 -> NoDup l -> x ∉ l -> NoDup (l1 ++ x :: l2).
Proof. intros -> Hn Hx. rewrite <- Permutation_middle. apply NoDup_cons; auto. Qed.

Lemma ok_add_kval kv tab :
  cstr (kv_key kv) ∉ all_keys tab -> kv_val kv <> None -> tab_ok tab -> tab_ok (with_kval (t_kval tab ++ [kv]) tab).
Proof.
  intros Hk Hv (H1 & H2 & H3 & H4)%tab_ok_inv. destruct tab as [k n im r kvs ar tb]. cbn in *.
  constructor; unfold all_keys in *; cbn in *; auto.
  - rewrite map_app, <- app_assoc. cbn [map app]. eapply nodup_insert; [reflexivity|exact H1|exact Hk].
  - apply Forall_app; auto.
Qed.

Lemma ok_add_arr a tab :
  cstr (a_key a) ∉ all_keys tab -> arr_ok a -> tab_ok tab -> tab_ok (with_arr (t_arr tab ++ [a]) tab).
Proof.
  intros Hk Hv (H1 & H2 & H3 & H4)%tab_ok_inv. destruct tab as [k n im r kvs ar tb]. cbn in *.
  constructor; unfold all_keys in *; cbn in *; auto.
  - rewrite map_app, <- app_assoc, app_assoc. cbn [map app].
    eapply nodup_insert; [rewrite <- app_assoc; reflexivity|exact H1|exact Hk].
  - apply Forall_app; auto.
Qed.

Lemma ok_add_tab t tab :
  cstr (t_key t) ∉ all_keys tab -> tab_ok t -> tab_ok tab -> tab_ok (with_tab (t_tab tab ++ [t]) tab).
Proof.
  intros Hk Hv (H1 & H2 & H3 & H4)%tab_ok_inv. destruct tab as [k n im r kvs ar tb]. cbn in *.
  constructor; unfold all_keys in *; cbn in *; auto.
  - rewrite map_app, !app_assoc. cbn [map app]. eapply nodup_insert; [|exact H1|exact Hk].
    rewrite app_nil_r, !app_assoc. reflexivity.
  - apply Forall_app; auto.
Qed.

Lemma lookup_last {A} (l : list A) x : (l ++ [x]) !! length l = Some x.
Proof. rewrite lookup_app_r, Nat.sub_diag by lia. reflexivity. Qed.

(** The new table, or the one that was implicit: where it is. *)
Lemma create_keytable_holds tab keytok :
  tab_ok tab ->
  holds (fun '(tab', i) => tab_ok tab' /\ t_key tab' = t_key tab /\ exists t, t_tab tab' !! i = Some t /\ tab_ok t)
    (create_keytable_in_table tab keytok).
Proof.
  intros Ht. unfold create_keytable_in_table. eapply holds_bind; [apply normalize_key_holds|]. intros key _.
  destruct (check_key tab key) as [i|i|i|] eqn:E; try exact I.
  - destruct (check_key_tab _ _ _ E) as [x Hx]. rewrite Hx. destruct (t_implicit x); [|exact I]. cbn.
    assert (Hox : tab_ok x) by (destruct (tab_ok_inv _ Ht) as (_ & _ & _ & H4); eapply Forall_lookup_1; eauto).
    pose proof (ok_with_implicit false x Hox) as Hi. split; [|split].
    + eapply (ok_set_tab i _ x); auto. apply key_with_implicit.
    + apply key_with_tab.
    + exists (with_implicit false x). rewrite tabs_with_tab, list_lookup_insert_eq by (apply lookup_lt_Some in Hx; lia). auto.
  - cbn. split; [|split].
    + apply ok_add_tab; auto; [apply check_key_none; exact E|apply new_table_ok].
    + apply key_with_tab.
    + eexists. rewrite tabs_with_tab, lookup_last. split; [reflexivity|apply new_table_ok].
Qed.

Lemma create_keyarray_holds tab keytok kind :
  tab_ok tab ->
  holds (fun '(tab', i) => tab_ok tab' /\ t_key tab' = t_key tab /\
           exists a, t_arr tab' !! i = Some a /\ arr_ok a)
    (create_keyarray_in_table tab keytok kind).
Proof.
  intros Ht. unfold create_keyarray_in_table. eapply holds_bind; [apply normalize_key_holds|]. intros key _.
  destruct (check_key tab key) as [i|i|i|] eqn:E; try exact I. cbn.
  pose proof (new_array_ok key (zlen key) kind (kind_nil kind)) as Ha. split; [|split].
  - apply ok_add_arr; auto. apply check_key_none; exact E.
  - apply key_with_arr.
  - eexists. rewrite arrs_with_arr, lookup_last. auto.
Qed.

(** The pair with its value set. *)
Lemma create_keyval_holds tab keytok v :
  tab_ok tab ->
  holds (fun tab' => tab_ok (set_val (length (t_kval tab)) v tab') /\ t_key tab' = t_key tab)
    (create_keyval_in_table tab keytok).
Proof.
  intros Ht. unfold create_keyval_in_table. eapply holds_bind; [apply normalize_key_holds|]. intros key _.
  destruct (check_key tab key) as [i|i|i|] eqn:E; try exact I. cbn. split; [|apply key_with_kval].
  assert (Hs : set_val (length (t_kval tab)) v (with_kval (t_kval tab ++ [mkKv key (zlen key) None]) tab) =
          with_kval (t_kval tab ++ [mkKv key (zlen key) (Some v)]) tab).
  { destruct tab as [k n im r kvs ar tb]. unfold set_val. cbn. f_equal.
    rewrite alter_app_r_alt, Nat.sub_diag by lia. reflexivity. }
  rewrite Hs. apply ok_add_kval; [apply check_key_none; exact E|discriminate|exact Ht].
Qed.

(** ** Arrays *)

Lemma ok_add_item k it arr :
  arr_ok arr -> item_ok it -> k <> 0 -> k <> 109 ->
  (k = 118 -> is_val it) -> (k = 97 -> is_arr it) -> (k = 116 -> is_tab it) ->
  arr_ok (create_in_array it (add_kind k arr)).
Proof.
  intros [(K0 & K1 & K2 & K3) Hi]%arr_ok_inv Hit Hk Hm Hv Ha Ht. destruct arr as [key n kd ty items]. cbn in *.
  unfold create_in_array, add_kind. cbn. constructor; cbn; [|apply Forall_app; auto].
  destruct (Z.eqb_spec kd 0) as [->|Hne].
  - rewrite K0 by reflexivity. cbn [app]. repeat split; intros; try (constructor; auto); congruence.
  - destruct (Z.eqb_spec kd k) as [->|Hkd]; cbn [negb].
    + repeat split; intros; try congruence; apply Forall_app; auto.
    + repeat split; discriminate.
Qed.

Lemma ok_add_type vt arr : arr_ok arr -> arr_ok (add_type vt arr).
Proof. intros Ha%arr_ok_inv. destruct arr. constructor; cbn in *; tauto. Qed.

Lemma key_add_item k it arr : a_key (create_in_array it (add_kind k arr)) = a_key arr.
Proof. destruct arr; reflexivity. Qed.
Lemma key_add_type vt arr : a_key (add_type vt arr) = a_key arr.
Proof. destruct arr; reflexivity. Qed.

(** ** Values *)

(** What a call leaves: a token no further back, and a well-formed node with
    the same key. *)
Definition kv_post (t : token) (tab : toml_table) : token * toml_table -> Prop :=
  fun '(t', tab') => (tok_ok t' /\ (left_of t' <= left_of t)%nat) /\ tab_ok tab' /\ t_key tab' = t_key tab.
Definition arr_post (t : token) (arr : toml_array) : token * toml_array -> Prop :=
  fun '(t', arr') => (tok_ok t' /\ (left_of t' <= left_of t)%nat) /\ arr_ok arr' /\ a_key arr' = a_key arr.

Definition parse_ok (fuel : nat) : Prop :=
  (forall t tab, (2 * left_of t < fuel)%nat -> tok_ok t -> tab_ok tab ->
     holds (kv_post t tab) (parse_keyval fuel t tab)) /\
  (forall t arr, (2 * left_of t + 1 < fuel)%nat -> tok_ok t -> arr_ok arr ->
     holds (arr_post t arr) (parse_array fuel t arr)) /\
  (forall t arr, (2 * left_of t + 2 < fuel)%nat -> tok_ok t -> arr_ok arr ->
     holds (arr_post t arr) (array_loop fuel t arr)) /\
  (forall t tab, (2 * left_of t + 1 < fuel)%nat -> tok_ok t -> tab_ok tab ->
     holds (kv_post t tab) (parse_inline_table fuel t tab)) /\
  (forall t tab, (2 * left_of t + 1 < fuel)%nat -> tok_ok t -> tab_ok tab ->
     holds (kv_post t tab) (inline_loop fuel t tab)).

Lemma kv_done t tab t' tab' :
  tok_ok t' -> (left_of t' <= left_of t)%nat -> tab_ok tab' -> t_key tab' = t_key tab -> kv_post t tab (t', tab').
Proof. intros H1 H2 H3 H4. split; [split|split]; assumption. Qed.

Lemma arr_done t arr t' arr' :
  tok_ok t' -> (left_of t' <= left_of t)%nat -> arr_ok arr' -> a_key arr' = a_key arr -> arr_post t arr (t', arr').
Proof. intros H1 H2 H3 H4. split; [split|split]; assumption. Qed.

(** Going over a token that is known. *)
Lemma next_known t k d :
  tok_ok t -> tok t = k -> k <> STRING -> k <> NEWLINE ->
  holds (fun t' => tok_ok t' /\ (left_of t' < left_of t)%nat) (next_token t d).
Proof.
  intros Ht Hk Hs Hn. eapply holds_weaken; [apply next_token_holds, Ht|]. intros t' [H1 H2]. split; [exact H1|].
  destruct (punct_left t Ht) as [Hl Hp]; [congruence|apply eof_newline; congruence|]. rewrite Hl in H2.
  change (Z.to_nat 1) with 1%nat in H2. lia.
Qed.

Lemma is_tok_true t k : is_tok t k = true -> tok t = k.
Proof. apply bool_decide_eq_true_1. Qed.

Lemma deref_lookup {A} (o : option A) x : o = Some x -> deref o = Ok x.
Proof. intros ->. reflexivity. Qed.

(** The table that a dotted key goes through: there, or made. *)
Lemma dotted_table tab key sub :
  tab_ok tab ->
  holds (fun '(tab', i) => tab_ok tab' /\ t_key tab' = t_key tab /\ exists t, t_tab tab' !! i = Some t /\ tab_ok t)
    (match find_key t_key sub (t_tab tab) with
     | Some i => Ok (with_tab (alter (with_keylen (zlen sub)) i (t_tab tab)) tab, i)
     | None => create_keytable_in_table tab key
     end).
Proof.
  intros Ht. destruct (find_key t_key sub (t_tab tab)) as [i|] eqn:E; [|apply create_keytable_holds, Ht].
  apply find_key_some in E as (x & Hx & _). cbn.
  assert (Hox : tab_ok x) by (destruct (tab_ok_inv _ Ht) as (_ & _ & _ & H4); eapply Forall_lookup_1; eauto).
  split; [|split].
  - apply ok_alter_tab; auto using key_with_keylen, ok_with_keylen.
  - apply key_with_tab.
  - exists (with_keylen (zlen sub) x). rewrite tabs_with_tab, list_lookup_alter_eq, Hx. split; [reflexivity|apply ok_with_keylen, Hox].
Qed.

Lemma parse_ok_keyval fuel :
  parse_ok fuel ->
  forall t tab, (2 * left_of t < S fuel)%nat -> tok_ok t -> tab_ok tab ->
     holds (kv_post t tab) (parse_keyval (S fuel) t tab).
Proof.
  intros (IHk & IHa & _ & IHi & _) t tab Hf Ht Htab. cbn [parse_keyval].
  destruct (t_readonly tab); [exact I|]. step_bind (eat_token_holds t STRING true). intros t1 (Ht1 & Hl1 & _).
  destruct (is_tok t1 DOT) eqn:Ed.
  { eapply holds_bind; [apply normalize_key_holds|]. intros sub _.
    eapply holds_bind; [apply dotted_table, Htab|]. intros [tab' i] (Htab' & Hkey & x & Hx & Hox).
    eapply holds_bind; [eapply next_known; [exact Ht1|apply is_tok_true, Ed|discriminate|discriminate]|].
    intros t2 [Ht2 Hl2]. rewrite Hx. cbn [deref mbind result_bind].
    eapply holds_bind; [apply IHk; [lia|exact Ht2|exact Hox]|]. intros [t3 x'] ((Ht3 & Hl3) & Hx' & Hk').
    apply kv_done; [exact Ht3|lia|apply (ok_set_tab i x' x); auto|]. unfold set_tab. rewrite key_with_tab. exact Hkey. }
  destruct (is_tok t1 EQUAL) eqn:Ee; cbn [negb]; [|exact I].
  eapply holds_bind; [eapply next_known; [exact Ht1|apply is_tok_true, Ee|discriminate|discriminate]|].
  intros t2 [Ht2 Hl2]. destruct (tok t2) eqn:Etok; try exact I.
  - eapply holds_bind; [apply create_keytable_holds, Htab|]. intros [tab' i] (Htab' & Hkey & x & Hx & Hox).
    rewrite Hx. cbn [deref mbind result_bind].
    eapply holds_bind; [apply IHi; [lia|exact Ht2|exact Hox]|]. intros [t3 x'] ((Ht3 & Hl3) & Hx' & Hk').
    apply kv_done; [exact Ht3|lia|apply (ok_set_tab i x' x); auto|]. unfold set_tab. rewrite key_with_tab. exact Hkey.
  - eapply holds_bind; [apply create_keyarray_holds, Htab|]. intros [tab' i] (Htab' & Hkey & x & Hx & Hox).
    rewrite Hx. cbn [deref mbind result_bind].
    eapply holds_bind; [apply IHa; [lia|exact Ht2|exact Hox]|]. intros [t3 x'] ((Ht3 & Hl3) & Hx' & Hk').
    apply kv_done; [exact Ht3|lia|apply (ok_set_arr i x' x); auto|]. unfold set_arr. rewrite key_with_arr. exact Hkey.
  - eapply holds_bind; [apply (create_keyval_holds _ _ (tok_text t2)), Htab|]. intros tab' [Htab' Hkey].
    step_bind (next_token_holds t2 true). intros t3 [Ht3 Hl3].
    apply kv_done; [exact Ht3|lia|exact Htab'|]. unfold set_val. rewrite key_with_kval. exact Hkey.
Qed.

Lemma parse_ok_array fuel :
  parse_ok fuel ->
  forall t arr, (2 * left_of t + 1 < S fuel)%nat -> tok_ok t -> arr_ok arr ->
     holds (arr_post t arr) (parse_array (S fuel) t arr).
Proof.
  intros (_ & _ & IHl & _) t arr Hf Ht Harr. cbn [parse_array].
  step_bind (eat_token_holds t LBRACKET false). intros t1 (Ht1 & _ & Hl1).
  specialize (Hl1 ltac:(discriminate) ltac:(discriminate)).
  eapply holds_weaken; [apply IHl; [lia|exact Ht1|exact Harr]|]. intros [t2 arr'] ((H1 & H2) & H3 & H4). apply arr_done; [exact H1|lia|exact H3|exact H4].
Qed.

Lemma parse_ok_inline fuel :
  parse_ok fuel ->
  forall t tab, (2 * left_of t + 1 < S fuel)%nat -> tok_ok t -> tab_ok tab ->
     holds (kv_post t tab) (parse_inline_table (S fuel) t tab).
Proof.
  intros (_ & _ & _ & _ & IHl) t tab Hf Ht Htab. cbn [parse_inline_table].
  step_bind (eat_token_holds t LBRACE true). intros t1 (Ht1 & _ & Hl1).
  specialize (Hl1 ltac:(discriminate) ltac:(discriminate)).
  eapply holds_weaken; [apply IHl; [lia|exact Ht1|exact Htab]|]. intros [t2 arr'] ((H1 & H2) & H3 & H4). apply kv_done; [exact H1|lia|exact H3|exact H4].
Qed.

(** The element of an array. *)
Lemma array_item_holds fuel t arr :
  parse_ok fuel -> (2 * left_of t + 1 < fuel)%nat -> tok_ok t -> arr_ok arr ->
  holds (arr_post t arr)
    (match tok t with
     | STRING =>
         t' ← eat_token t STRING false;
         Ok (t', add_type (valtype (tok_text t))
                   (create_in_array (ItemVal (valtype (tok_text t)) (tok_text t)) (add_kind 118 arr)))
     | LBRACKET =>
         '(t, subarr) ← parse_array fuel t (new_array [] 0 0);
         Ok (t, create_in_array (ItemArr subarr) (add_kind 97 arr))
     | LBRACE =>
         '(t, subtab) ← parse_inline_table fuel t empty_table;
         Ok (t, create_in_array (ItemTab subtab) (add_kind 116 arr))
     | _ => syntax t "syntax error"%string
     end).
Proof.
  intros (_ & IHa & _ & IHi & _) Hf Ht Harr. destruct (tok t); try exact I.
  - eapply holds_bind; [apply IHi; [lia|exact Ht|apply new_table_ok]|]. intros [t1 x] ((Ht1 & Hl1) & Hx & _).
    apply arr_done; [exact Ht1|lia| |apply key_add_item].
    apply ok_add_item; auto; try (intros; exact I); try discriminate. constructor. exact Hx.
  - eapply holds_bind; [apply IHa; [lia|exact Ht|apply new_array_ok, kind_nil]|]. intros [t1 x] ((Ht1 & Hl1) & Hx & _).
    apply arr_done; [exact Ht1|lia| |apply key_add_item].
    apply ok_add_item; auto; try (intros; exact I); try discriminate. constructor. exact Hx.
  - step_bind (eat_token_holds t STRING false). intros t1 (Ht1 & Hl1 & _).
    apply arr_done; [exact Ht1|lia| |rewrite key_add_type; apply key_add_item].
    apply ok_add_type, ok_add_item; auto; try (intros; exact I); try discriminate. constructor.
Qed.

Lemma parse_ok_loop fuel :
  parse_ok fuel ->
  forall t arr, (2 * left_of t + 2 < S fuel)%nat -> tok_ok t -> arr_ok arr ->
     holds (arr_post t arr) (array_loop (S fuel) t arr).
Proof.
  intros IH t arr Hf Ht Harr. cbn [array_loop].
  assert (Hfin : forall t1 arr1, tok_ok t1 -> (left_of t1 <= left_of t)%nat -> arr_ok arr1 -> a_key arr1 = a_key arr ->
            holds (arr_post t arr) (t2 ← eat_token t1 RBRACKET true; Ok (t2, arr1))).
  { intros t1 arr1 H1 H2 H3 H4. step_bind (eat_token_holds t1 RBRACKET true). intros t2 (H5 & H6 & _).
    apply arr_done; auto; lia. }
  step_bind (skip_newlines_holds t false). intros t1 [Ht1 Hl1]. destruct (is_tok t1 RBRACKET); [apply Hfin; auto|].
  eapply holds_bind; [apply (array_item_holds fuel t1 arr IH); auto; lia|]. intros [t2 arr2] ((Ht2 & Hl2) & Ha2 & Hk2).
  step_bind (skip_newlines_holds t2 false). intros t3 [Ht3 Hl3].
  destruct (is_tok t3 COMMA); [|apply Hfin; auto; lia].
  step_bind (eat_token_holds t3 COMMA false). intros t4 (Ht4 & _ & Hl4).
  specialize (Hl4 ltac:(discriminate) ltac:(discriminate)).
  eapply holds_weaken; [apply (proj1 (proj2 (proj2 IH))); [lia|exact Ht4|exact Ha2]|]. intros [t5 arr5] ((H1 & H2) & H3 & H4).
  apply arr_done; [exact H1|lia|exact H3|congruence].
Qed.

Lemma parse_ok_inline_loop fuel :
  parse_ok fuel ->
  forall t tab, (2 * left_of t + 1 < S fuel)%nat -> tok_ok t -> tab_ok tab ->
     holds (kv_post t tab) (inline_loop (S fuel) t tab).
Proof.
  intros IH t tab Hf Ht Htab. cbn [inline_loop].
  assert (Hfin : forall t1 tab1, tok_ok t1 -> (left_of t1 <= left_of t)%nat -> tab_ok tab1 -> t_key tab1 = t_key tab ->
            holds (kv_post t tab) (t2 ← eat_token t1 RBRACE true; Ok (t2, with_readonly true tab1))).
  { intros t1 tab1 H1 H2 H3 H4. step_bind (eat_token_holds t1 RBRACE true). intros t2 (H5 & H6 & _).
    apply kv_done; [exact H5|lia|apply ok_with_readonly, H3|rewrite key_with_readonly; exact H4]. }
  destruct (is_tok t NEWLINE); [exact I|]. destruct (is_tok t RBRACE); [apply Hfin; auto|].
  destruct (is_tok t STRING); cbn [negb]; [|exact I].
  eapply holds_bind; [apply (proj1 IH); auto; lia|]. intros [t1 tab1] ((Ht1 & Hl1) & Hx1 & Hk1).
  destruct (is_tok t1 NEWLINE); [exact I|]. destruct (is_tok t1 COMMA); [|apply Hfin; auto].
  step_bind (eat_token_holds t1 COMMA true). intros t2 (Ht2 & _ & Hl2).
  specialize (Hl2 ltac:(discriminate) ltac:(discriminate)).
  eapply holds_weaken; [apply (proj2 (proj2 (proj2 (proj2 IH)))); [lia|exact Ht2|exact Hx1]|].
  intros [t3 tab3] ((H1 & H2) & H3 & H4). apply kv_done; [exact H1|lia|exact H3|congruence].
Qed.

(** No fuel is needed beyond twice the text that is left. *)
Lemma parse_ok_all fuel : parse_ok fuel.
Proof.
  induction fuel as [|fuel IH].
  - repeat split; intros; lia.
  - split; [apply parse_ok_keyval, IH|]. split; [apply parse_ok_array, IH|]. split; [apply parse_ok_loop, IH|].
    split; [apply parse_ok_inline, IH|apply parse_ok_inline_loop, IH].
Qed.

End facts.
