(* ===== verification/TomlDocFacts.v ===== *)
(** * TOML: headers and documents keep the tree well-formed

    A pointer to a table of the tree stays valid when the table is changed;
    the table headers and the main loop keep the invariant and end. *)

From Stdlib Require Import Strings.String.
From S2P Require Import Prelude TomlText TomlLex TomlValue TomlTree TomlParse TomlLexFacts TomlParseFacts.

Section doc.
Context `{Strtod}.

Lemma tab_in tab i x : tab_ok tab -> t_tab tab !! i = Some x -> tab_ok x.
Proof. intros (_ & _ & _ & H4)%tab_ok_inv Hx. eapply Forall_lookup_1; eauto. Qed.

Lemma arr_in tab i x : tab_ok tab -> t_arr tab !! i = Some x -> arr_ok x.
Proof. intros (_ & _ & H3 & _)%tab_ok_inv Hx. eapply Forall_lookup_1; eauto. Qed.

Lemma item_tab_in a j t : arr_ok a -> a_item a !! j = Some (ItemTab t) -> tab_ok t.
Proof.
  intros [_ Hi]%arr_ok_inv Hx. pose proof (Forall_lookup_1 _ _ _ _ Hi Hx) as Ho. inversion Ho; subst. assumption.
Qed.

(** An element that is a table may become another table. *)
Lemma Forall_insert_lookup {A} (P : A -> Prop) l j x y :
  Forall P l -> l !! j = Some x -> (P x -> P y) -> Forall P (<[j := y]> l).
Proof. intros Hl Hj Hxy. apply Forall_insert; [exact Hl|]. apply Hxy. eapply Forall_lookup_1; eauto. Qed.

Lemma ok_set_item a j t t' :
  arr_ok a -> a_item a !! j = Some (ItemTab t) -> tab_ok t' -> arr_ok (with_item (<[j := ItemTab t']> (a_item a)) a).
Proof.
  intros Ha Hj Ht'. destruct (arr_ok_inv _ Ha) as [(K0 & K1 & K2 & K3) Hi]. destruct a as [k n kd ty items]. cbn in *.
  constructor; cbn; [|apply Forall_insert; [exact Hi|constructor; exact Ht']]. split; [|split; [|split]].
  - intros E. rewrite (K0 E) in Hj. discriminate.
  - intros E. eapply Forall_insert_lookup; [apply K1, E|exact Hj|auto].
  - intros E. eapply Forall_insert_lookup; [apply K2, E|exact Hj|auto].
  - intros E. eapply Forall_insert_lookup; [apply K3, E|exact Hj|auto].
Qed.

(** ** Pointers *)

Lemma get_at_ok path root cur : tab_ok root -> get_at path root = Some cur -> tab_ok cur.
Proof.
  revert root. induction path as [|[i|i j] path IH]; intros root Hr; cbn [get_at].
  - intros [= <-]. exact Hr.
  - destruct (t_tab root !! i) as [x|] eqn:E; [|discriminate]. cbn. apply IH. eapply tab_in; eauto.
  - destruct (t_arr root !! i) as [a|] eqn:E; [|discriminate]. cbn.
    destruct (a_item a !! j) as [[| |x]|] eqn:E2; try discriminate. apply IH. eapply item_tab_in; [|exact E2]. eapply arr_in; eauto.
Qed.

Lemma get_at_app p q root : get_at (p ++ q) root = get_at p root ≫= get_at q.
Proof.
  revert root. induction p as [|[i|i j] p IH]; intros root; cbn [get_at app]; [reflexivity| |].
  - destruct (t_tab root !! i); cbn; auto.
  - destruct (t_arr root !! i) as [a|]; cbn; [|reflexivity]. destruct (a_item a !! j) as [[| |x]|]; cbn; auto.
Qed.

Lemma alter_lookup {A} (f : A -> A) (l : list A) i x : l !! i = Some x -> alter f i l = <[i := f x]> l.
Proof. intros Hx. rewrite list_insert_alter. apply list_alter_ext; [|reflexivity]. intros y Hy. congruence. Qed.

(** Changing the table that a pointer points to. *)
Lemma update_at_ok path root cur cur' :
  tab_ok root -> get_at path root = Some cur -> tab_ok cur' -> t_key cur' = t_key cur ->
  let root' := update_at path (fun _ => cur') root in
  tab_ok root' /\ t_key root' = t_key root /\ get_at path root' = Some cur'.
Proof.
  intros Hr Hg Hc Hk. cbn zeta. revert root Hr Hg. induction path as [|[i|i j] path IH]; intros root Hr; cbn [get_at update_at].
  - intros [= ->]. auto.
  - destruct (t_tab root !! i) as [x|] eqn:E; [|discriminate]. cbn. intros Hg.
    destruct (IH x (tab_in _ _ _ Hr E) Hg) as (H1 & H2 & H3). rewrite (alter_lookup _ _ _ _ E). split; [|split].
    + apply (ok_set_tab i _ x); auto.
    + apply key_with_tab.
    + rewrite tabs_with_tab, list_lookup_insert_eq by (apply lookup_lt_Some in E; exact E). exact H3.
  - destruct (t_arr root !! i) as [a|] eqn:E; [|discriminate]. cbn.
    destruct (a_item a !! j) as [[| |x]|] eqn:E2; try discriminate. intros Hg.
    pose proof (arr_in _ _ _ Hr E) as Ha. destruct (IH x (item_tab_in _ _ _ Ha E2) Hg) as (H1 & H2 & H3).
    rewrite (alter_lookup _ _ _ _ E), (alter_lookup _ _ _ _ E2). split; [|split].
    + apply (ok_set_arr i _ a); auto; [apply key_with_item|eapply ok_set_item; eauto].
    + apply key_with_arr.
    + rewrite arrs_with_arr, list_lookup_insert_eq by (apply lookup_lt_Some in E; exact E). cbn.
      destruct a as [k n kd ty items]. cbn in *.
      rewrite list_lookup_insert_eq by (apply lookup_lt_Some in E2; exact E2). exact H3.
Qed.

(** ** Headers *)

Definition tpath_post (t : token) : token * list path_key -> Prop :=
  fun '(t', tp) => (tok_ok t' /\ (left_of t' <= left_of t)%nat) /\ tp <> [].

Lemma fill_tabpath_holds fuel t tp :
  tok_ok t -> 11 <= Z.of_nat fuel + zlen tp -> 1 <= Z.of_nat fuel -> holds (tpath_post t) (fill_tabpath fuel t tp).
Proof.
  revert t tp. induction fuel as [|fuel IH]; intros t tp Ht Hf H1; [lia|]. cbn [fill_tabpath].
  destruct (Z.leb_spec 10 (zlen tp)); [exact I|]. destruct (negb _); [exact I|].
  eapply holds_bind; [apply normalize_key_holds|]. intros key _.
  step_bind (next_token_holds t true). intros t1 [Ht1 Hl1].
  destruct (is_tok t1 RBRACKET).
  { cbn. split; [split; [exact Ht1|lia]|]. destruct tp; discriminate. }
  destruct (negb _); [exact I|]. step_bind (next_token_holds t1 true). intros t2 [Ht2 Hl2].
  eapply holds_weaken; [apply IH; [exact Ht2|rewrite length_app; cbn [length]; lia|lia]|].
  intros [t3 tp'] ((H3 & H4) & H5). split; [split; [exact H3|lia]|exact H5].
Qed.

Definition walk_post (tab : toml_table) : toml_table * list path_step -> Prop :=
  fun '(tab', path) => tab_ok tab' /\ t_key tab' = t_key tab /\ exists c, get_at path tab' = Some c /\ tab_ok c.

Lemma cstr_cstr s : cstr (cstr s) = cstr s.
Proof. induction s as [|c s IH]; cbn [cstr]; [reflexivity|]. destruct (bz c =? 0) eqn:E; cbn [cstr]; [reflexivity|]. rewrite E. congruence. Qed.

(** A table of the table, walked on. *)
Lemma walk_into_tab i x tab p path :
  tab_ok tab -> t_tab tab !! i = Some x -> walk_post x (p, path) -> walk_post tab (set_tab i p tab, InTab i :: path).
Proof.
  intros Ht Hx (H1 & H2 & c & H3 & H4). split; [|split; [apply key_with_tab|]].
  - eapply ok_set_tab; eauto.
  - exists c. split; [|exact H4]. cbn [get_at]. unfold set_tab.
    rewrite tabs_with_tab, list_lookup_insert_eq by (apply lookup_lt_Some in Hx; exact Hx). exact H3.
Qed.

Lemma walk_tabpath_holds tp tab : tab_ok tab -> holds (walk_post tab) (walk_tabpath tp tab).
Proof.
  revert tab. induction tp as [|k tp IH]; intros tab Ht; cbn [walk_tabpath].
  { cbn. split; [exact Ht|]. split; [reflexivity|]. exists tab. auto. }
  destruct (check_key tab (pk_key k)) as [i|i|i|] eqn:E; [exact I| | |].
  - destruct (check_key_arr _ _ _ E) as [a Ha]. rewrite Ha. cbn [deref mbind result_bind].
    destruct (a_kind a =? 116) eqn:Ek; cbn [negb]; [|exact I]. destruct (Z.eqb_spec (zlen (a_item a)) 0) as [|Hn]; [exact I|].
    pose proof (arr_in _ _ _ Ht Ha) as Hao. apply Z.eqb_eq in Ek.
    destruct (arr_ok_inv _ Hao) as [(_ & _ & _ & Kt) _]. specialize (Kt Ek).
    destruct (lookup_lt_is_Some_2 (a_item a) (length (a_item a) - 1)) as [it Hit]; [lia|].
    pose proof (Forall_lookup_1 _ _ _ _ Kt Hit) as Hk. rewrite Hit. destruct it as [| |x]; try destruct Hk.
    eapply holds_bind; [apply IH; eapply item_tab_in; eauto|]. intros [x' path] (H1 & H2 & c & H3 & H4). cbn.
    split; [|split; [apply key_with_arr|]].
    + apply (ok_set_arr i _ a); auto; [apply key_with_item|eapply ok_set_item; eauto].
    + exists c. split; [|exact H4]. cbn [get_at]. unfold set_arr.
      rewrite arrs_with_arr, list_lookup_insert_eq by (apply lookup_lt_Some in Ha; exact Ha). cbn.
      destruct a as [ka na kd ty items]. cbn in *. rewrite list_lookup_insert_eq by (apply lookup_lt_Some in Hit; exact Hit). exact H3.
  - destruct (check_key_tab _ _ _ E) as [x Hx]. rewrite Hx. cbn [deref mbind result_bind].
    eapply holds_bind; [apply IH; eapply tab_in; eauto|]. intros [x' path] Hw. apply (walk_into_tab i x); auto.
  - eapply holds_bind; [apply IH, (new_table_ok (cstr (pk_key k)) (pk_keylen k) true)|].
    intros [x' path] (H1 & H2 & c & H3 & H4). cbn in H2. cbn. split; [|split; [apply key_with_tab|]].
    + apply ok_add_tab; auto. rewrite H2, cstr_cstr. apply check_key_none, E.
    + exists c. split; [|exact H4]. cbn [get_at]. rewrite tabs_with_tab, lookup_last. exact H3.
Qed.

Definition select_post (tab : toml_table) : toml_table * path_step -> Prop :=
  fun '(tab', p) => walk_post tab (tab', [p]).

Lemma select_table_holds z tab : tab_ok tab -> holds (select_post tab) (select_table z tab).
Proof.
  intros Ht. unfold select_table. eapply holds_bind; [apply create_keytable_holds, Ht|].
  intros [tab' i] (H1 & H2 & t & H3 & H4). cbn. split; [exact H1|]. split; [exact H2|]. exists t. cbn [get_at]. rewrite H3. auto.
Qed.

(** The array that a [[header]] adds to. *)
Lemma header_array tab z sub :
  tab_ok tab ->
  holds (fun '(tab', i) => tab_ok tab' /\ t_key tab' = t_key tab /\ exists a, t_arr tab' !! i = Some a /\ arr_ok a)
    (match find_key a_key sub (t_arr tab) with
     | Some i => Ok (with_arr (alter (with_akeylen (zlen sub)) i (t_arr tab)) tab, i)
     | None => create_keyarray_in_table tab z 116
     end).
Proof.
  intros Ht. destruct (find_key a_key sub (t_arr tab)) as [i|] eqn:E; [|apply create_keyarray_holds, Ht].
  apply find_key_some in E as (x & Hx & _). cbn. pose proof (arr_in _ _ _ Ht Hx) as Hox. split; [|split].
  - apply ok_alter_arr; auto using key_with_akeylen, ok_with_akeylen.
  - apply key_with_arr.
  - exists (with_akeylen (zlen sub) x). rewrite arrs_with_arr, list_lookup_alter_eq, Hx. split; [reflexivity|apply ok_with_akeylen, Hox].
Qed.

Lemma select_array_holds z tab : tab_ok tab -> holds (select_post tab) (select_array z tab).
Proof.
  intros Ht. unfold select_array. eapply holds_bind; [apply normalize_key_holds|]. intros sub _.
  eapply holds_bind; [apply header_array, Ht|]. intros [tab' i] (H1 & H2 & a & H3 & H4).
  rewrite H3. cbn [deref mbind result_bind]. destruct (a_kind a =? 116) eqn:Ek; cbn [negb]; [|exact I].
  cbn [holds]. apply Z.eqb_eq in Ek. set (dest := Table _ 0 _ _ _ _ _).
  assert (Hd : tab_ok dest) by apply new_table_ok.
  assert (Hn : arr_ok (create_in_array (ItemTab dest) a)).
  { destruct (arr_ok_inv _ H4) as [(K0 & K1 & K2 & K3) Hi]. destruct a as [k n kd ty items]. cbn in *.
    constructor; cbn; [|apply Forall_app; repeat constructor; auto]. subst kd. repeat split; try discriminate.
    intros _. apply Forall_app. repeat constructor; auto. }
  split; [|split; [unfold set_arr; rewrite key_with_arr; exact H2|]].
  - apply (ok_set_arr i _ a); auto. destruct a; reflexivity.
  - exists dest. split; [|exact Hd]. cbn [get_at]. unfold set_arr.
    rewrite arrs_with_arr, list_lookup_insert_eq by (apply lookup_lt_Some in H3; exact H3). cbn.
    destruct a as [k n kd ty items]. cbn. rewrite lookup_last. reflexivity.
Qed.

(** The text left, the tree and the current table after a step. *)
Definition doc_post (n : nat) : token * toml_table * list path_step -> Prop :=
  fun '(t', root', path) => tok_ok t' /\ (left_of t' <= n)%nat /\ tab_ok root' /\ is_Some (get_at path root').

Lemma parse_select_holds t root :
  tok_ok t -> tok t = LBRACKET -> tab_ok root -> holds (doc_post (left_of t - 1)) (parse_select t root).
Proof.
  intros Ht Hk Hr. unfold parse_select. cbv zeta. set (llb := _ && _). clearbody llb.
  step_bind (eat_token_holds t LBRACKET true). intros t1 (Ht1 & _ & Hl1). specialize (Hl1 ltac:(discriminate) ltac:(discriminate)).
  eapply (holds_bind (fun t2 => tok_ok t2 /\ (left_of t2 <= left_of t1)%nat)).
  { destruct llb; [|cbn; auto]. eapply holds_weaken; [apply eat_token_holds, Ht1|]. cbn beta. tauto. }
  intros t2 [Ht2 Hl2].
  eapply holds_bind; [apply fill_tabpath_holds; [exact Ht2|lia|lia]|]. intros [t3 tp] ((Ht3 & Hl3) & Htp).
  destruct (last tp) as [z|] eqn:Elast; [|apply last_None in Elast; tauto]. cbn [deref mbind result_bind].
  eapply holds_bind; [apply walk_tabpath_holds, Hr|]. intros [root1 path] (Hr1 & _ & c & Hc & Hco). rewrite Hc. cbn [deref mbind result_bind].
  eapply (holds_bind (select_post c)); [destruct llb; [apply select_array_holds|apply select_table_holds]; exact Hco|].
  intros [c' step] (Hc' & Hck & c2 & Hg & _).
  destruct (negb (is_tok t3 RBRACKET)); [exact I|]. destruct (llb && _); [exact I|].
  eapply (holds_bind (fun t2 => tok_ok t2 /\ (left_of t2 <= left_of t3)%nat)).
  { destruct llb; [|cbn; auto]. eapply holds_weaken; [apply eat_token_holds, Ht3|]. cbn beta. tauto. }
  intros t4 [Ht4 Hl4]. step_bind (eat_token_holds t4 RBRACKET true). intros t5 (Ht5 & Hl5 & _).
  destruct (negb _); [exact I|]. cbn [holds mret result_ret].
  destruct (update_at_ok path root1 c c' Hr1 Hc Hc' Hck) as (H1 & H2 & H3).
  split; [exact Ht5|]. split; [lia|]. split; [exact H1|]. rewrite get_at_app, H3. cbn [mbind option_bind]. eauto.
Qed.

(** ** The main loop *)

Lemma parse_loop_holds fuel depth t root cur :
  (left_of t < fuel)%nat -> (2 * left_of t < depth)%nat -> tok_ok t -> tab_ok root -> is_Some (get_at cur root) ->
  holds tab_ok (parse_loop fuel depth t root cur).
Proof.
  revert t root cur. induction fuel as [|fuel IH]; intros t root cur Hf Hd Ht Hr [c Hc]; [lia|]. cbn [parse_loop].
  destruct (eof t) eqn:He; [exact Hr|]. pose proof (not_eof_left t Ht He) as Hne.
  destruct (tok t) eqn:Ek; try exact I.
  - step_bind (next_token_holds t true). intros t1 [Ht1 Hl1]. destruct (punct_left t Ht) as [Hlen _]; [congruence|exact He|].
    rewrite Hlen in Hl1. change (Z.to_nat 1) with 1%nat in Hl1. apply IH; [lia|lia|exact Ht1|exact Hr|eauto].
  - eapply holds_bind; [apply parse_select_holds; auto|]. intros [[t1 root1] path] (Ht1 & Hl1 & Hr1 & Hp1).
    apply IH; auto; lia.
  - rewrite Hc. cbn [deref mbind result_bind].
    eapply holds_bind; [apply (proj1 (parse_ok_all depth)); [lia|exact Ht|eapply get_at_ok; eauto]|].
    intros [t1 c1] ((Ht1 & Hl1) & Hc1 & Hk1). cbv zeta. destruct (is_tok t1 NEWLINE) eqn:En; cbn [negb]; [|exact I].
    apply is_tok_true in En. unfold eat_token. rewrite bool_decide_true by exact En.
    destruct (update_at_ok cur root c c1 Hr Hc Hc1 Hk1) as (H1 & _ & H3).
    assert (Hn : holds (fun t2 => tok_ok t2 /\ (left_of t2 < left_of t)%nat) (next_token t1 true)).
    { eapply holds_weaken; [apply next_token_holds, Ht1|]. intros t2 [Ht2 Hl2]. split; [exact Ht2|].
      destruct (eof t1) eqn:E1.
      - pose proof Ht1 as [_ Hp]. rewrite E1 in Hp. unfold left_of in Hl2. rewrite (proj2 Hp) in Hl2. cbn in Hl2. unfold left_of in *. lia.
      - destruct (punct_left t1 Ht1) as [Hlen Hp]; [congruence|exact E1|]. rewrite Hlen in Hl2.
        change (Z.to_nat 1) with 1%nat in Hl2. lia. }
    eapply holds_bind; [exact Hn|]. intros t2 [Ht2 Hl2]. apply IH; [lia|lia|exact Ht2|exact H1|eauto].
Qed.

Lemma cstr_len s : (length (cstr s) <= length s)%nat.
Proof. induction s as [|c s IH]; cbn [cstr length]; [lia|]. destruct (_ =? 0); cbn [length]; lia. Qed.

Lemma toml_parse_holds s : holds tab_ok (toml_parse s).
Proof.
  unfold toml_parse. cbv zeta. generalize (cstr s). intros d. rewrite Nat.add_comm. cbn [Nat.add parse_loop eof tok].
  unfold next_token. cbn [len ptr lineno]. change (Z.to_nat 0) with O. rewrite drop_0.
  eapply holds_bind; [apply make_token_holds; lia|]. intros t [Ht Hl].
  apply (parse_loop_holds (S (length d)) (4 * length d + 4)); [lia|lia|exact Ht|apply new_table_ok|].
  cbn. eauto.
Qed.

End doc.
