(* ===== verification/TomlInts.v ===== *)
(** * TOML: integers

    What [toml_value_int] makes of a decimal literal: an optional sign and
    groups of digits with an underscore between them. *)

From S2P Require Import Prelude TomlText TomlLex TomlValue.

(** ** Literals *)

Definition digit (c : byte) : Prop := isdigit (bz c) = true.

(** The groups with an underscore between them. *)
Fixpoint join (gs : list (list byte)) : list byte :=
  match gs with
  | [] => []
  | [g] => g
  | g :: gs => g ++ zb 95 :: join gs
  end.

(** Groups of digits, without a leading zero. *)
Definition decimal (gs : list (list byte)) : Prop :=
  gs <> [] /\ Forall (fun g => g <> [] /\ Forall digit g) gs /\ (hd0 (concat gs) <> 48 \/ gs = [[zb 48]]).

Definition dec_value (ds : list byte) : Z := fold_left (fun a c => a * 10 + (bz c - 48)) ds 0.

(** No sign, plus or minus. *)
Inductive sign := NoSign | Plus | Minus.
Definition sign_text (s : sign) : list byte := match s with NoSign => [] | Plus => [zb 43] | Minus => [zb 45] end.
Definition apply_sign (s : sign) (v : Z) : Z := match s with Minus => - v | _ => v end.

(** ** Digits *)

Lemma digit_range c : digit c -> 48 <= bz c <= 57.
Proof. unfold digit, isdigit. intros [H1 H2]%andb_true_iff. apply Z.leb_le in H1, H2. lia. Qed.

Lemma digit_eqb c k : digit c -> k < 48 \/ 57 < k -> (bz c =? k) = false.
Proof. intros Hc%digit_range Hk. apply Z.eqb_neq. lia. Qed.

Lemma digit_val_digit c : digit c -> digit_val (bz c) = bz c - 48.
Proof. unfold digit, digit_val. intros ->. reflexivity. Qed.

(** What follows a group: nothing, or an underscore and a digit. *)
Definition group_end (r : list byte) : Prop := r = [] \/ exists c r', r = zb 95 :: c :: r' /\ digit c.

Lemma strip_digits ds r p :
  Forall digit ds -> zlen p <= 100 ->
  strip_int (ds ++ r) p = if zlen p + zlen ds <=? 100 then strip_int r (p ++ ds) else None.
Proof.
  intros Hd. revert p. induction Hd as [|c ds Hc Hd IH]; intros p Hp.
  - rewrite app_nil_r, Z.add_0_r. cbn [app]. destruct (Z.leb_spec (zlen p) 100); [reflexivity|lia].
  - cbn [app strip_int]. unfold BUFSZ. destruct (Z.leb_spec 100 (zlen p)) as [H1|H1].
    { destruct (Z.leb_spec (zlen p + zlen (c :: ds)) 100) as [H2|_]; [|reflexivity]. cbn [length] in H2. lia. }
    rewrite (digit_eqb c 95) by (auto; lia). rewrite IH by (rewrite length_app; cbn [length]; lia).
    rewrite <- app_assoc. cbn [app]. rewrite length_app. cbn [length].
    replace (Z.of_nat (length p + 1) + zlen ds) with (zlen p + Z.of_nat (S (length ds))) by lia. reflexivity.
Qed.

Lemma join_cons g gs : gs <> [] -> join (g :: gs) = g ++ zb 95 :: join gs.
Proof. destruct gs; [congruence|reflexivity]. Qed.

Lemma join_starts gs : gs <> [] -> Forall (fun g => g <> [] /\ Forall digit g) gs -> exists c r, join gs = c :: r /\ digit c.
Proof.
  destruct gs as [|g gs]; [congruence|]. intros _ Hf. apply Forall_cons in Hf as [[Hg Hd] _].
  destruct g as [|c g]; [congruence|]. apply Forall_cons in Hd as [Hc _].
  destruct gs; cbn; eauto.
Qed.

Lemma strip_us s p :
  strip_int (zb 95 :: s) p =
  if 100 <=? zlen p then None else if hd0 s =? 95 then None else if hd0 s =? 0 then None else strip_int s p.
Proof. reflexivity. Qed.

Lemma strip_join gs p :
  gs <> [] -> Forall (fun g => g <> [] /\ Forall digit g) gs -> zlen p <= 100 ->
  strip_int (join gs) p = if zlen p + zlen (concat gs) <? 100 then Some (p ++ concat gs) else None.
Proof.
  intros Hne Hf. revert p. induction Hf as [|g gs [Hg Hd] Hf IH]; intros p Hp; [congruence|]. cbn [concat].
  destruct gs as [|g2 gs].
  - cbn [join]. rewrite app_nil_r. rewrite <- (app_nil_r g) at 1. rewrite strip_digits by auto.
    cbn [strip_int]. unfold BUFSZ. rewrite length_app.
    destruct (Z.leb_spec (zlen p + zlen g) 100), (Z.ltb_spec (zlen p + zlen g) 100);
      try destruct (Z.eqb_spec (Z.of_nat (length p + length g)) 100); auto; lia.
  - rewrite join_cons by congruence. rewrite strip_digits by auto. set (gs' := g2 :: gs) in *.
    destruct (join_starts gs' ltac:(discriminate) Hf) as (c & r & Ej & Hc).
    rewrite (length_app g (concat gs')).
    destruct (Z.leb_spec (zlen p + zlen g) 100) as [Hl|Hl].
    2:{ destruct (Z.ltb_spec (zlen p + Z.of_nat (length g + length (concat gs'))) 100); [lia|reflexivity]. }
    rewrite strip_us, (length_app p g).
    assert (Hcc : (1 <= length (concat gs'))%nat).
    { subst gs'. apply Forall_cons in Hf as [[Hg2 _] _]. cbn [concat]. rewrite length_app. destruct g2; [congruence|cbn; lia]. }
    destruct (Z.leb_spec 100 (Z.of_nat (length p + length g))) as [H1|H1].
    { destruct (Z.ltb_spec (zlen p + Z.of_nat (length g + length (concat gs'))) 100); [lia|reflexivity]. }
    replace (hd0 (join gs')) with (bz c) by (rewrite Ej; reflexivity). rewrite (digit_eqb c 95), (digit_eqb c 0) by (auto; lia).
    rewrite IH by (try discriminate; rewrite ?length_app; lia).
    rewrite !length_app, <- app_assoc.
    replace (Z.of_nat (length p + length g) + zlen (concat gs')) with (zlen p + Z.of_nat (length g + length (concat gs'))) by lia.
    reflexivity.
Qed.

(** ** [strtoll] on the digits *)

Lemma strto_dec ds acc n :
  Forall digit ds -> strto_digits 10 ds acc n = (fold_left (fun a c => a * 10 + (bz c - 48)) ds acc, (n + length ds)%nat, []).
Proof.
  intros Hd. revert acc n. induction Hd as [|c ds Hc Hd IH]; intros acc n; cbn [strto_digits fold_left length].
  - rewrite Nat.add_0_r. reflexivity.
  - rewrite digit_val_digit by exact Hc. apply digit_range in Hc as Hr. destruct (Z.ltb_spec (bz c - 48) 10); [|lia].
    rewrite IH. f_equal. f_equal. lia.
Qed.

Lemma dec_step ds acc :
  Forall digit ds -> fold_left (fun a c => a * 10 + (bz c - 48)) ds acc = acc * 10 ^ zlen ds + dec_value ds.
Proof.
  unfold dec_value. intros Hd. revert acc. induction Hd as [|c ds Hc Hd IH]; intros acc; cbn [fold_left length]; [lia|].
  rewrite IH, (IH (0 * 10 + (bz c - 48))). rewrite Nat2Z.inj_succ, Z.pow_succ_r by lia. ring.
Qed.

Lemma dec_value_cons c ds : Forall digit (c :: ds) -> dec_value (c :: ds) = (bz c - 48) * 10 ^ zlen ds + dec_value ds.
Proof. intros Hd. unfold dec_value at 1. cbn [fold_left]. rewrite dec_step; [ring|]. apply Forall_cons in Hd. tauto. Qed.

Lemma dec_value_nonneg ds : Forall digit ds -> 0 <= dec_value ds.
Proof.
  induction ds as [|c ds IH]; intros Hd; [cbn; lia|]. rewrite dec_value_cons by exact Hd. apply Forall_cons in Hd as [Hc Hd].
  apply digit_range in Hc. specialize (IH Hd). pose proof (Z.pow_nonneg 10 (zlen ds) ltac:(lia)). nia.
Qed.

(** Too many digits for the buffer are too many for the type. *)
Lemma dec_value_big ds : Forall digit ds -> hd0 ds <> 48 -> 99 <= zlen ds -> INT64_MAX + 2 <= dec_value ds.
Proof.
  destruct ds as [|c ds]; [cbn; lia|]. cbn [hd0 length]. intros Hd Hc Hl. rewrite dec_value_cons by exact Hd.
  apply Forall_cons in Hd as [Hd1 Hd]. apply digit_range in Hd1. pose proof (dec_value_nonneg ds Hd) as H0.
  assert (Hp : 10 ^ 98 <= 10 ^ zlen ds) by (apply Z.pow_le_mono_r; lia).
  assert (Hb : INT64_MAX + 2 <= 10 ^ 98) by (vm_compute; discriminate). nia.
Qed.

(** ** The conversion *)

Definition int64 (v : Z) : option Z := if (INT64_MIN <=? v) && (v <=? INT64_MAX) then Some v else None.

Lemma strtoll_dec s ds :
  ds <> [] -> Forall digit ds -> hd0 ds <> 48 ->
  strtoll (sign_text s ++ ds) 0 =
    (let v := apply_sign s (dec_value ds) in
     if v <? INT64_MIN then mkStrto INT64_MIN true []
     else if INT64_MAX <? v then mkStrto INT64_MAX true []
     else mkStrto v false []).
Proof.
  intros Hne Hd Hz. destruct ds as [|c ds]; [congruence|]. cbn [hd0] in Hz. apply Forall_cons_1 in Hd as Hd'. destruct Hd' as [Hc Hds].
  assert (E : strto_digits 10 (c :: ds) 0 0 = (dec_value (c :: ds), S (length ds), [])) by (rewrite strto_dec by exact Hd; reflexivity).
  assert (E0 : (bz c =? 48) = false) by (apply Z.eqb_neq; exact Hz).
  assert (Hs : is_c_space (bz c) = false).
  { apply digit_range in Hc. unfold is_c_space. destruct (Z.eqb_spec (bz c) 32); [lia|]. destruct (Z.leb_spec (bz c) 13); [lia|].
    apply andb_false_r. }
  assert (Hx : hex_prefix (c :: ds) = false) by (unfold hex_prefix, at_; cbn [drop hd0]; rewrite E0; reflexivity).
  assert (Hsk : skip_c_space (sign_text s ++ c :: ds) = sign_text s ++ c :: ds).
  { destruct s; cbn [sign_text app skip_c_space]; [rewrite Hs|..]; reflexivity. }
  assert (Hng : (hd0 (sign_text s ++ c :: ds) =? 45) = match s with Minus => true | _ => false end).
  { destruct s; cbn [sign_text app hd0]; [apply digit_eqb; auto; lia|reflexivity|reflexivity]. }
  assert (Htl : (if match s with Minus => true | _ => false end || (hd0 (sign_text s ++ c :: ds) =? 43)
                 then tl (sign_text s ++ c :: ds) else sign_text s ++ c :: ds) = c :: ds).
  { destruct s; cbn [sign_text app hd0 tl orb]; [rewrite (digit_eqb c 43) by (auto; lia)|..]; reflexivity. }
  unfold strtoll. cbv zeta. rewrite Hsk, Hng, Htl, Hx, andb_false_r. change (0 =? 0) with true. cbn [hd0].
  rewrite E0, E. destruct s; reflexivity.
Qed.

Lemma concat_digits gs : Forall (fun g => g <> [] /\ Forall digit g) gs -> Forall digit (concat gs).
Proof. induction 1 as [|g gs [_ Hg] _ IH]; cbn [concat]; [constructor|apply Forall_app; auto]. Qed.

Lemma hd_join gs : Forall (fun g => g <> [] /\ Forall digit g) gs -> hd0 (join gs) = hd0 (concat gs).
Proof.
  destruct 1 as [|g gs [Hg _] _]; [reflexivity|]. destruct g as [|c g]; [congruence|]. destruct gs; reflexivity.
Qed.

Lemma int_of_decimal s gs :
  decimal gs -> toml_value_int (sign_text s ++ join gs) = int64 (apply_sign s (dec_value (concat gs))).
Proof.
  intros (Hne & Hf & [Hz|Hz]).
  2:{ subst gs. destruct s; reflexivity. }
  pose proof (concat_digits _ Hf) as Hd. destruct (join_starts gs Hne Hf) as (c & r & Ej & Hc).
  pose proof (hd_join _ Hf) as Eh. rewrite Ej in Eh. cbn [hd0] in Eh.
  assert (Hcne : concat gs <> []).
  { intros E. rewrite E in Eh. apply digit_range in Hc. cbn [hd0] in Eh. lia. }
  set (v := apply_sign s (dec_value (concat gs))).
  assert (Hsg : (hd0 (sign_text s ++ join gs) =? 43) || (hd0 (sign_text s ++ join gs) =? 45) = match s with NoSign => false | _ => true end).
  { destruct s; cbn [sign_text app]; [rewrite Ej; cbn [hd0]; rewrite (digit_eqb c 43), (digit_eqb c 45) by (auto; lia)|..]; reflexivity. }
  unfold toml_value_int. cbv zeta. rewrite Hsg.
  assert (Es : (if match s with NoSign => false | _ => true end then drop 1 (sign_text s ++ join gs) else sign_text s ++ join gs) = join gs)
    by (destruct s; reflexivity).
  assert (Ep : (if match s with NoSign => false | _ => true end then take 1 (sign_text s ++ join gs) else []) = sign_text s)
    by (destruct s; reflexivity).
  rewrite Es, Ep. replace (hd0 (join gs)) with (bz c) by (rewrite Ej; reflexivity). rewrite (digit_eqb c 95) by (auto; lia).
  destruct (Z.eqb_spec (bz c) 48); [congruence|].
  assert (Hl : zlen (sign_text s) <= 1) by (destruct s; cbn; lia).
  rewrite strip_join by (auto; lia). unfold int64.
  destruct (Z.ltb_spec (zlen (sign_text s) + zlen (concat gs)) 100) as [Hlt|Hge].
  - cbn [mbind option_bind]. rewrite strtoll_dec by auto. fold v. cbv zeta.
    destruct (Z.ltb_spec v INT64_MIN), (Z.leb_spec INT64_MIN v); try lia; [reflexivity|].
    destruct (Z.ltb_spec INT64_MAX v), (Z.leb_spec v INT64_MAX); try lia; reflexivity.
  - cbn [mbind option_bind]. pose proof (dec_value_big _ Hd ltac:(congruence) ltac:(lia)) as Hb.
    assert (Hr : v < INT64_MIN \/ INT64_MAX < v) by (subst v; unfold INT64_MIN, INT64_MAX in *; destruct s; cbn [apply_sign]; lia).
    destruct (Z.leb_spec INT64_MIN v), (Z.leb_spec v INT64_MAX); try reflexivity; lia.
Qed.
