(* ===== verification/TomlStrings.v ===== *)
(** * TOML: basic strings

    The text of a basic string, as the language defines it: characters that
    stand for themselves, short escapes, and [\u] and [\U] escapes; what the
    tokenizer and [toml_value_string] make of it is the UTF-8 encoding of the
    characters. *)

From Stdlib Require Import Strings.String.
From S2P Require Import Prelude TomlText TomlLex TomlValue.

(** ** UTF-8 *)

(** Unicode scalar values. *)
Definition scalar (cp : Z) : Prop := 0 <= cp <= 0x10FFFF /\ ~ (0xd800 <= cp <= 0xdfff).

Definition utf8 (cp : Z) : list byte :=
  if cp <? 128 then [zb cp]
  else if cp <? 2048 then [zb (192 + cp / 64); zb (128 + cp mod 64)]
  else if cp <? 65536 then [zb (224 + cp / 4096); zb (128 + cp / 64 mod 64); zb (128 + cp mod 64)]
  else [zb (240 + cp / 262144); zb (128 + cp / 4096 mod 64); zb (128 + cp / 64 mod 64); zb (128 + cp mod 64)].

Lemma lor_small a n x : forallb (fun i => Z.lor a i =? a + i) (seqZ 0 n) = true -> 0 <= x < n -> Z.lor a x = a + x.
Proof.
  intros H Hx. apply forallb_forall with (x := x) in H; [apply Z.eqb_eq, H|]. apply list_elem_of_In, elem_of_seqZ. lia.
Qed.

Lemma continuation_eq cp s : 0 <= s -> continuation cp s = zb (128 + cp / 2 ^ s mod 64).
Proof.
  intros Hs. unfold continuation. rewrite Z.shiftr_div_pow2 by exact Hs.
  change 0x3f with (Z.ones 6). rewrite Z.land_ones by lia. change (2 ^ 6) with 64.
  rewrite (lor_small _ 64); [reflexivity|reflexivity|]. apply Z.mod_pos_bound. lia.
Qed.

Lemma shift_lor a n cp s : 0 <= s -> forallb (fun i => Z.lor a i =? a + i) (seqZ 0 n) = true -> 0 <= cp / 2 ^ s < n ->
  Z.lor a (Z.shiftr cp s) = a + cp / 2 ^ s.
Proof. intros Hs Hf Hx. rewrite Z.shiftr_div_pow2 by exact Hs. eapply lor_small; eauto. Qed.

Lemma div_bounds x b k : 0 < b -> 0 <= x < b * k -> 0 <= x / b < k.
Proof. intros Hb Hx. split; [apply Z.div_pos; lia|apply Z.div_lt_upper_bound; lia]. Qed.

Lemma read_unicode_escape_utf8 cp : scalar cp -> read_unicode_escape cp = Some (utf8 cp).
Proof.
  intros [H1 H2]. unfold read_unicode_escape, utf8.
  replace ((0xd800 <=? cp) && (cp <=? 0xdfff)) with false.
  2:{ destruct (Z.leb_spec 0xd800 cp), (Z.leb_spec cp 0xdfff); try reflexivity. lia. }
  destruct (Z.ltb_spec 0x10FFFF cp); [lia|]. destruct (Z.ltb_spec cp 0); [lia|].
  destruct (Z.leb_spec cp 0x7F) as [|H7]; [destruct (Z.ltb_spec cp 128); [reflexivity|lia]|].
  destruct (Z.ltb_spec cp 128); [lia|].
  destruct (Z.leb_spec cp 0x7FF) as [|H8].
  { destruct (Z.ltb_spec cp 2048); [|lia]. rewrite (shift_lor 0xc0 32 cp 6) by first [lia|reflexivity|apply div_bounds; lia].
    rewrite continuation_eq by lia. change (2 ^ 6) with 64. change (2 ^ 0) with 1. rewrite Z.div_1_r. reflexivity. }
  destruct (Z.ltb_spec cp 2048); [lia|].
  destruct (Z.leb_spec cp 0xFFFF) as [|H9].
  { destruct (Z.ltb_spec cp 65536); [|lia]. rewrite (shift_lor 0xe0 16 cp 12) by first [lia|reflexivity|apply div_bounds; lia].
    rewrite !continuation_eq by lia. change (2 ^ 12) with 4096. change (2 ^ 6) with 64. change (2 ^ 0) with 1. rewrite Z.div_1_r. reflexivity. }
  destruct (Z.ltb_spec cp 65536); [lia|]. destruct (Z.leb_spec cp 0x1FFFFF); [|lia].
  rewrite (shift_lor 0xf0 8 cp 18) by first [lia|reflexivity|apply div_bounds; lia].
  rewrite !continuation_eq by lia. change (2 ^ 18) with 262144. change (2 ^ 12) with 4096. change (2 ^ 6) with 64.
  change (2 ^ 0) with 1. rewrite Z.div_1_r. reflexivity.
Qed.

(** ** The bytes of a character *)

Lemma bz_zb_small x : 0 <= x < 256 -> bz (zb x) = x.
Proof. intros H. rewrite bz_zb. apply wrap_id. unfold in_u. lia. Qed.

Definition high (c : byte) : Prop := 128 <= bz c.

Lemma range_check (P : Z -> bool) a n x : forallb P (seqZ a n) = true -> a <= x < a + n -> P x = true.
Proof.
  intros H Hx. apply forallb_forall with (x := x) in H; [exact H|]. apply list_elem_of_In, elem_of_seqZ. exact Hx.
Qed.

Lemma high_bit c : high c -> (Z.land (bz c) 0x80 =? 0x80) = true.
Proof.
  intros H. pose proof (bz_range c). apply (range_check (fun x => Z.land x 0x80 =? 0x80) 128 128); [reflexivity|].
  unfold high in H. lia.
Qed.

Lemma u8length_range_eq k a n x :
  forallb (fun x => u8length x =? k) (seqZ a n) = true -> a <= x < a + n -> u8length x = k.
Proof. intros Hf Hx. apply Z.eqb_eq. exact (range_check _ _ _ _ Hf Hx). Qed.

Lemma u8length_ascii c : 0 <= c < 128 -> u8length c = 1.
Proof. apply (u8length_range_eq 1 0 128). reflexivity. Qed.

Lemma zb_high x : 128 <= x < 256 -> high (zb x).
Proof. intros H. unfold high. rewrite bz_zb_small; lia. Qed.

Lemma utf8_multi cp :
  scalar cp -> 128 <= cp ->
  Forall high (utf8 cp) /\ 1 < zlen (utf8 cp) /\ u8length (hd0 (utf8 cp)) = zlen (utf8 cp).
Proof.
  intros [H _] Hc. unfold utf8. destruct (Z.ltb_spec cp 128); [lia|].
  assert (Hm : forall x, 128 <= 128 + x mod 64 < 256) by (intros x; pose proof (Z.mod_pos_bound x 64); lia).
  destruct (Z.ltb_spec cp 2048); [|destruct (Z.ltb_spec cp 65536)].
  - pose proof (div_bounds cp 64 32 ltac:(lia) ltac:(lia)). cbn [hd0 length].
    split; [repeat constructor; apply zb_high; auto; lia|]. split; [lia|].
    rewrite bz_zb_small by lia. apply (u8length_range_eq 2 192 32); [reflexivity|lia].
  - pose proof (div_bounds cp 4096 16 ltac:(lia) ltac:(lia)). cbn [hd0 length].
    split; [repeat constructor; apply zb_high; auto; lia|]. split; [lia|].
    rewrite bz_zb_small by lia. apply (u8length_range_eq 3 224 16); [reflexivity|lia].
  - pose proof (div_bounds cp 262144 8 ltac:(lia) ltac:(lia)). cbn [hd0 length].
    split; [repeat constructor; apply zb_high; auto; lia|]. split; [lia|].
    rewrite bz_zb_small by lia. apply (u8length_range_eq 4 240 16); [reflexivity|lia].
Qed.

Lemma utf8_ascii cp : cp < 128 -> utf8 cp = [zb cp].
Proof. intros H. unfold utf8. destruct (Z.ltb_spec cp 128); [reflexivity|lia]. Qed.

Lemma take_multibyte_all cs r : Forall high cs -> take_multibyte (length cs) (cs ++ r) = Some (cs, r).
Proof.
  induction 1 as [|c cs Hc _ IH]; [reflexivity|]. cbn [length take_multibyte app]. rewrite high_bit by exact Hc.
  cbn [negb]. rewrite IH. reflexivity.
Qed.

(** ** The text of a basic string *)

(** The letter after the backslash, and the character. *)
Definition short_escapes : list (Z * Z) := [(98, 8); (116, 9); (110, 10); (102, 12); (114, 13); (DQ, DQ); (BSLASH, BSLASH)].

Definition hex_digits (ds : list byte) : Prop := Forall (fun c => is_hex_digit (bz c) = true) ds.
Definition hex_value (c : Z) : Z := if c <? 58 then c - 48 else if c <? 71 then c - 55 else c - 87.
Definition hex_num (ds : list byte) : Z := fold_left (fun a c => a * 16 + hex_value (bz c)) ds 0.

(** Characters that may stand for themselves. *)
Definition plain_char (cp : Z) : Prop := scalar cp /\ cp <> DQ /\ cp <> BSLASH /\ cp <> 127 /\ (cp = TAB \/ 32 <= cp).

(** A character, and a text that stands for it. *)
Inductive piece : Z -> list byte -> Prop :=
| plain cp : plain_char cp -> piece cp (utf8 cp)
| short_escape c cp : In (c, cp) short_escapes -> piece cp [zb BSLASH; zb c]
| escape4 cp ds : scalar cp -> length ds = 4%nat -> hex_digits ds -> hex_num ds = cp -> piece cp (zb BSLASH :: zb 117 :: ds)
| escape8 cp ds : scalar cp -> length ds = 8%nat -> hex_digits ds -> hex_num ds = cp -> piece cp (zb BSLASH :: zb 85 :: ds).

(** ** Normalizing it *)

Lemma hexval_hex c : is_hex_digit c = true -> hexval c = hex_value c.
Proof.
  intros H. assert (Hr : 48 <= c < 103).
  { unfold is_hex_digit, isdigit in H. destruct (Z.leb_spec 48 c), (Z.leb_spec c 57), (Z.leb_spec 65 c), (Z.leb_spec c 70),
      (Z.leb_spec 97 c), (Z.leb_spec c 102); cbn in H; try discriminate; lia. }
  pose proof (range_check (fun c => implb (is_hex_digit c) (hexval c =? hex_value c)) 48 55 c ltac:(reflexivity) ltac:(lia)) as Hb.
  cbn beta in Hb. rewrite H in Hb. apply Z.eqb_eq. exact Hb.
Qed.

Lemma hexval_nonneg c : is_hex_digit c = true -> (hexval c =? -1) = false.
Proof.
  intros H. assert (Hr : 48 <= c < 103).
  { unfold is_hex_digit, isdigit in H. destruct (Z.leb_spec 48 c), (Z.leb_spec c 57), (Z.leb_spec 65 c), (Z.leb_spec c 70),
      (Z.leb_spec 97 c), (Z.leb_spec c 102); cbn in H; try discriminate; lia. }
  pose proof (range_check (fun c => implb (is_hex_digit c) (negb (hexval c =? -1))) 48 55 c ltac:(reflexivity) ltac:(lia)) as Hb.
  cbn beta in Hb. rewrite H in Hb. apply negb_true_iff. exact Hb.
Qed.

Lemma read_hex_digits ds r tot esc n acc :
  hex_digits ds -> zlen ds <= n ->
  read_hex (length ds) tot esc (ds ++ r) n acc = Ok (fold_left (fun a c => a * 16 + hex_value (bz c)) ds acc, r, n - zlen ds).
Proof.
  intros Hd. revert n acc. induction Hd as [|c ds Hc _ IH]; intros n acc Hn; cbn [length read_hex app fold_left].
  - rewrite Z.sub_0_r. reflexivity.
  - cbn [length] in Hn. destruct (Z.leb_spec n 0); [lia|]. cbn [hd0 tl]. rewrite hexval_nonneg, hexval_hex by exact Hc.
    rewrite IH by lia. do 2 f_equal. lia.
Qed.

Lemma plain_ascii cp : plain_char cp -> cp < 128 ->
  0 <= cp /\ (cp =? BSLASH) = false /\ control false cp = false.
Proof.
  intros (_ & H1 & H2 & H3 & H4) Hc. split; [lia|]. split; [apply Z.eqb_neq, H2|].
  unfold control. destruct (Z.leb_spec cp 8); [lia|]. destruct (Z.eqb_spec cp 127); [lia|].
  destruct (Z.leb_spec 10 cp), (Z.leb_spec cp 31); cbn; try reflexivity; lia.
Qed.

Lemma norm_plain cp r n dst fuel :
  plain_char cp -> zlen (utf8 cp) <= n ->
  norm_basic (S fuel) (utf8 cp ++ r) n dst false false = norm_basic fuel r (n - zlen (utf8 cp)) (dst ++ utf8 cp) false false.
Proof.
  intros Hp Hn. cbn [norm_basic]. destruct (Z_lt_le_dec cp 128) as [Hc|Hc].
  - destruct (plain_ascii cp Hp Hc) as (H0 & H1 & H2). rewrite utf8_ascii in * by exact Hc. cbn [app hd0 length tl] in *.
    destruct (Z.leb_spec n 0); [lia|]. rewrite bz_zb_small, u8length_ascii by lia. cbn [Z.eqb Z.ltb Pos.compare Pos.compare_cont Z.compare andb].
    rewrite H1. cbn [negb]. rewrite H2. reflexivity.
  - destruct (utf8_multi cp (proj1 Hp) Hc) as (H1 & H2 & H3).
    assert (Eh : hd0 (utf8 cp ++ r) = hd0 (utf8 cp)) by (destruct (utf8 cp); [cbn in H2; lia|reflexivity]).
    destruct (Z.leb_spec n 0); [lia|]. rewrite Eh, H3. destruct (Z.eqb_spec (zlen (utf8 cp)) 0); [lia|].
    destruct (Z.ltb_spec 1 (zlen (utf8 cp))); [|lia]. rewrite Nat2Z.id, take_multibyte_all by exact H1. reflexivity.
Qed.

Lemma norm_piece cp t r n dst fuel :
  piece cp t -> zlen t <= n ->
  norm_basic (S fuel) (t ++ r) n dst false false = norm_basic fuel r (n - zlen t) (dst ++ utf8 cp) false false.
Proof.
  intros Hp Hn. destruct Hp as [cp Hp|c cp Hin|cp ds Hs Hl Hd <-|cp ds Hs Hl Hd <-].
  - apply norm_plain; auto.
  - cbn [length] in *. cbn [norm_basic app hd0 tl]. destruct (Z.leb_spec n 0); [lia|].
    change (bz (zb BSLASH)) with BSLASH. change (u8length BSLASH) with 1. cbn [Z.eqb Z.ltb Pos.compare Pos.compare_cont Z.compare andb Pos.eqb negb].
    destruct (Z.leb_spec (n - 1) 0); [lia|]. replace (n - 1 - 1) with (n - Z.of_nat 2) by lia.
    cbn in Hin. repeat (destruct Hin as [[= <- <-]|Hin]; [reflexivity|]). destruct Hin.
  - cbn [length] in *. rewrite Hl in Hn. cbn [norm_basic app hd0 tl]. destruct (Z.leb_spec n 0); [lia|].
    change (bz (zb BSLASH)) with BSLASH. change (u8length BSLASH) with 1. cbn [Z.eqb Z.ltb Pos.compare Pos.compare_cont Z.compare andb Pos.eqb negb].
    destruct (Z.leb_spec (n - 1) 0); [lia|]. change (bz (zb 117)) with 117. cbn [Z.eqb Pos.eqb orb].
    replace (4%nat) with (length ds) by exact Hl. rewrite read_hex_digits by (auto; lia). cbn [mbind result_bind].
    fold (hex_num ds). rewrite read_unicode_escape_utf8 by exact Hs. f_equal. lia.
  - cbn [length] in *. rewrite Hl in Hn. cbn [norm_basic app hd0 tl]. destruct (Z.leb_spec n 0); [lia|].
    change (bz (zb BSLASH)) with BSLASH. change (u8length BSLASH) with 1. cbn [Z.eqb Z.ltb Pos.compare Pos.compare_cont Z.compare andb Pos.eqb negb].
    destruct (Z.leb_spec (n - 1) 0); [lia|]. change (bz (zb 85)) with 85. cbn [Z.eqb Pos.eqb orb].
    replace (8%nat) with (length ds) by exact Hl. rewrite read_hex_digits by (auto; lia). cbn [mbind result_bind].
    fold (hex_num ds). rewrite read_unicode_escape_utf8 by exact Hs. f_equal. lia.
Qed.

Lemma piece_nonempty cp t : piece cp t -> t <> [].
Proof. destruct 1; try discriminate. unfold utf8. repeat destruct (_ <? _); discriminate. Qed.

Lemma pieces_length cps ts : Forall2 piece cps ts -> (length ts <= length (concat ts))%nat.
Proof.
  induction 1 as [|cp t cps ts Hp _ IH]; cbn [concat length]; [lia|]. rewrite length_app.
  apply piece_nonempty in Hp. destruct t; [congruence|cbn [length]; lia].
Qed.

Lemma norm_pieces cps ts r fuel n dst :
  Forall2 piece cps ts -> (length ts < fuel)%nat -> n = zlen (concat ts) ->
  norm_basic fuel (concat ts ++ r) n dst false false = Ok (dst ++ concat (map utf8 cps)).
Proof.
  intros Hp. revert fuel n dst. induction Hp as [|cp t cps ts Hp Hps IH]; intros fuel n dst Hf ->.
  - destruct fuel; [lia|]. cbn. rewrite app_nil_r. reflexivity.
  - destruct fuel as [|fuel]; [lia|]. cbn [concat map length] in *. rewrite length_app, <- app_assoc.
    rewrite norm_piece with (cp := cp) by (auto; lia). rewrite IH by lia. rewrite <- app_assoc. reflexivity.
Qed.

(** ** Scanning it *)

Lemma high_scan c r : high c -> scan_basic (c :: r) false O = scan_basic r false O.
Proof.
  intros Hc. cbn [scan_basic]. unfold high in Hc. destruct (Z.eqb_spec (bz c) BSLASH); [lia|].
  destruct (Z.eqb_spec (bz c) LF); [lia|]. destruct (Z.eqb_spec (bz c) DQ); [lia|]. reflexivity.
Qed.

Lemma high_scans cs r : Forall high cs -> scan_basic (cs ++ r) false O = scan_basic r false O.
Proof. induction 1 as [|c cs Hc _ IH]; [reflexivity|]. cbn [app]. rewrite high_scan; auto. Qed.

Lemma hex_scans ds r : hex_digits ds -> scan_basic (ds ++ r) false (length ds) = scan_basic r false O.
Proof.
  induction 1 as [|c ds Hc _ IH]; [reflexivity|]. cbn [app length scan_basic]. rewrite Hc. exact IH.
Qed.

Lemma scan_piece cp t r : piece cp t -> scan_basic (t ++ r) false O = scan_basic r false O.
Proof.
  destruct 1 as [cp Hp|c cp Hin|cp ds _ Hl Hd _|cp ds _ Hl Hd _].
  - destruct (Z_lt_le_dec cp 128) as [Hc|Hc]; [|apply high_scans, (utf8_multi cp (proj1 Hp) Hc)].
    rewrite utf8_ascii by exact Hc. cbn [app scan_basic]. destruct Hp as (Hs & H1 & H2 & _ & H3). destruct Hs as [Hs _].
    rewrite bz_zb_small by lia. destruct (Z.eqb_spec cp BSLASH); [congruence|]. destruct (Z.eqb_spec cp LF); [lia|].
    destruct (Z.eqb_spec cp DQ); [congruence|]. reflexivity.
  - cbn in Hin. repeat (destruct Hin as [[= <- <-]|Hin]; [reflexivity|]). destruct Hin.
  - cbn [app]. rewrite <- (hex_scans ds r Hd), Hl. reflexivity.
  - cbn [app]. rewrite <- (hex_scans ds r Hd), Hl. reflexivity.
Qed.

Lemma scan_pieces cps ts r : Forall2 piece cps ts -> scan_basic (concat ts ++ r) false O = scan_basic r false O.
Proof.
  induction 1 as [|cp t cps ts Hp _ IH]; [reflexivity|]. cbn [concat]. rewrite <- app_assoc, (scan_piece cp) by exact Hp. exact IH.
Qed.

(** A text does not begin with a quote. *)
Lemma piece_hd cp t : piece cp t -> hd0 t <> DQ /\ hd0 t <> SQ \/ hd0 t = SQ /\ cp = SQ.
Proof.
  destruct 1 as [cp Hp|c cp _|cp ds _ _ _ _|cp ds _ _ _ _]; try (left; split; discriminate).
  destruct Hp as (Hs & H1 & _). destruct (Z_lt_le_dec cp 128) as [Hc|Hc].
  - rewrite utf8_ascii by exact Hc. cbn [hd0]. destruct Hs as [Hs _]. rewrite bz_zb_small by lia.
    destruct (Z.eq_dec cp SQ); auto.
  - destruct (utf8_multi cp Hs Hc) as (H2 & H3 & _). left. destruct (utf8 cp) as [|c cs]; [cbn in H3; lia|].
    apply Forall_cons in H2 as [H2 _]. unfold high in H2. cbn [hd0]. lia.
Qed.

Lemma pieces_hd cps ts r : Forall2 piece cps ts -> cps <> [] -> hd0 (concat ts ++ r) <> DQ.
Proof.
  destruct 1 as [|cp t cps ts Hp _]; [congruence|]. intros _. cbn [concat]. pose proof (piece_nonempty _ _ Hp) as Hn.
  destruct (piece_hd _ _ Hp) as [[H _]|[H _]]; destruct t as [|c t]; try congruence; cbn [app hd0] in *; [exact H|rewrite H; discriminate].
Qed.

(** The text of the whole value. *)
Definition quoted (ts : list (list byte)) : list byte := zb DQ :: concat ts ++ [zb DQ].

Lemma not_triple cps ts r :
  Forall2 piece cps ts -> (cps = [] -> hd0 r <> DQ) -> triple DQ (quoted ts ++ r) = false.
Proof.
  intros Hp Hr. unfold triple, at_, quoted. cbn [app drop]. rewrite <- app_assoc. cbn [app].
  destruct cps as [|cp cps].
  - inversion Hp; subst. cbn [concat app drop]. rewrite drop_0. specialize (Hr eq_refl).
    destruct (Z.eqb_spec (hd0 r) DQ); [congruence|]. apply andb_false_r.
  - rewrite drop_0. pose proof (pieces_hd _ _ (zb DQ :: r) Hp ltac:(discriminate)) as Hh.
    destruct (Z.eqb_spec (hd0 (concat ts ++ zb DQ :: r)) DQ); [congruence|]. rewrite andb_false_r. reflexivity.
Qed.

Lemma scan_quoted cps ts r line d :
  Forall2 piece cps ts -> (cps = [] -> hd0 r <> DQ) ->
  scan_string (quoted ts ++ r) line d = Ok (set_token STRING line (quoted ts ++ r) (zlen (quoted ts))).
Proof.
  intros Hp Hr. unfold scan_string. cbv zeta. rewrite (not_triple cps) by auto.
  assert (E : quoted ts ++ r = zb DQ :: concat ts ++ zb DQ :: r) by (unfold quoted; cbn [app]; rewrite <- app_assoc; reflexivity).
  assert (E1 : triple SQ (quoted ts ++ r) = false) by (rewrite E; reflexivity).
  assert (E2 : hd0 (quoted ts ++ r) = DQ) by (rewrite E; reflexivity).
  rewrite E1, E2. cbn [Z.eqb Pos.eqb].
  assert (E3 : scan_basic (tl (quoted ts ++ r)) false O = Ok (zb DQ :: r)).
  { rewrite E. cbn [tl]. rewrite (scan_pieces cps) by exact Hp. reflexivity. }
  rewrite E3. cbn [map_err mbind result_bind hd0]. change (bz (zb DQ) =? DQ) with true. cbn [negb tl].
  do 2 f_equal. unfold span_len. rewrite length_app. lia.
Qed.

Lemma last_quoted ts : hd0 (last_bytes 1 (quoted ts)) = DQ.
Proof.
  unfold last_bytes, quoted. rewrite app_comm_cons, length_app. cbn [length].
  replace (S (length (concat ts)) + 1 - 1)%nat with (length (zb DQ :: concat ts) + 0)%nat by (cbn [length]; lia).
  rewrite drop_app_add. reflexivity.
Qed.

Lemma value_quoted cps ts : Forall2 piece cps ts -> toml_value_string (quoted ts) = Ok (concat (map utf8 cps)).
Proof.
  intros Hp. unfold toml_value_string. cbv zeta. change (hd0 (quoted ts)) with DQ.
  change (DQ =? SQ) with false. rewrite Z.eqb_refl. cbn [orb negb].
  assert (Et : (DQ =? at_ 1 (quoted ts)) && (DQ =? at_ 2 (quoted ts)) = false).
  { pose proof (not_triple cps ts [] Hp ltac:(discriminate)) as H. rewrite app_nil_r in H. unfold triple in H.
    change (at_ 0 (quoted ts)) with DQ in H. rewrite Z.eqb_refl in H. cbn [andb] in H.
    rewrite (Z.eqb_sym DQ (at_ 1 (quoted ts))), (Z.eqb_sym DQ (at_ 2 (quoted ts))). exact H. }
  rewrite Et, last_quoted, Z.eqb_refl. unfold quoted at 1 2. cbn [length]. rewrite length_app. cbn [length].
  destruct (Z.leb_spec 0 (Z.of_nat (S (length (concat ts) + 1)) - 2)); [|lia]. cbn [andb negb]. unfold norm_basic_str.
  unfold quoted. cbn [drop]. rewrite drop_0. rewrite (norm_pieces cps); [reflexivity|exact Hp|..]; [apply pieces_length in Hp|]; cbn [length]; rewrite length_app; cbn [length]; lia.
Qed.
