(* ===== verification/TomlPrint.v ===== *)
(** * TOML: printed documents

    Documents of the shape of a configuration file: entries before any header,
    then sections, each with its entries; values are strings, integers and
    booleans.  The tokens of a printed line. *)

From Stdlib Require Import Strings.String.
From S2P Require Import Prelude TomlText TomlLex TomlValue TomlTree TomlParse TomlInts TomlStrings.

(** ** Documents *)

Inductive value :=
| VStr (cps : list Z) (ts : list (list byte))
| VInt (s : sign) (gs : list (list byte))
| VBool (b : bool).

Definition value_text (v : value) : list byte :=
  match v with
  | VStr _ ts => quoted ts
  | VInt s gs => sign_text s ++ join gs
  | VBool b => bytes_of (if b then "true" else "false")
  end.

Definition value_ok (v : value) : Prop :=
  match v with VStr cps ts => Forall2 piece cps ts | VInt _ gs => decimal gs | VBool _ => True end.

(** A bare key that does not look like a date. *)
Definition key_ok (k : list byte) : Prop :=
  k <> [] /\ Forall (fun c => bare_key_char c = true) k /\ isdigit (hd0 k) = false.

Abbreviation entry := (list byte * value)%type.
Abbreviation section := (list byte * list entry)%type.

Definition print_entry (e : entry) : list byte := fst e ++ [zb SP; zb 61; zb SP] ++ value_text (snd e) ++ [zb LF].
Definition print_entries (es : list entry) : list byte := concat (map print_entry es).
Definition print_header (n : list byte) : list byte := zb 91 :: n ++ [zb 93; zb LF].
Definition print_section (s : section) : list byte := print_header (fst s) ++ print_entries (snd s).
Definition print_doc (d : list entry * list section) : list byte :=
  print_entries (fst d) ++ concat (map print_section (snd d)).

Definition entries_ok (es : list entry) : Prop :=
  Forall (fun e => key_ok (fst e) /\ value_ok (snd e)) es /\ NoDup (map fst es).
Definition doc_ok (d : list entry * list section) : Prop :=
  entries_ok (fst d) /\ Forall (fun s => key_ok (fst s) /\ entries_ok (snd s)) (snd d) /\
  NoDup (map fst (fst d) ++ map fst (snd d)).

(** The tree of a document. *)
Definition kv_of (e : entry) : toml_keyval := mkKv (fst e) (zlen (fst e)) (Some (value_text (snd e))).
Definition table_of (s : section) : toml_table := Table (fst s) (zlen (fst s)) false false (map kv_of (snd s)) [] [].
Definition tree_of (es : list entry) (secs : list section) : toml_table :=
  Table [] 0 false false (map kv_of es) [] (map table_of secs).

(** ** Tokens of a line *)

Lemma key_char_range c : bare_key_char c = true ->
  (48 <= bz c <= 57 \/ 65 <= bz c <= 90 \/ 97 <= bz c <= 122) \/ bz c = 95 \/ bz c = 45.
Proof.
  unfold bare_key_char, isalnum, isdigit, isupper, islower.
  intros [[[[[H1 H2]%andb_true_iff|[H1 H2]%andb_true_iff]%orb_true_iff|[H1 H2]%andb_true_iff]%orb_true_iff|H]%orb_true_iff|H]%orb_true_iff;
    rewrite ?Z.leb_le, ?Z.eqb_eq in *; lia.
Qed.

(** A character of numbers, booleans and bare keys. *)
Definition bare_char (c : byte) : bool :=
  isupper (bz c) || islower (bz c) || strchr [48; 49; 50; 51; 52; 53; 54; 55; 56; 57; 43; 45; 95; 46] (bz c).

Lemma byte_check (P : Z -> bool) : forallb P (seqZ 0 256) = true -> forall c, P (bz c) = true.
Proof. intros H c. pose proof (bz_range c). apply (range_check P 0 256); [exact H|lia]. Qed.

Lemma scan_bare_all s r d :
  Forall (fun c => bare_char c = true /\ (d = true -> bz c <> 46)) s ->
  (r = [] \/ exists c r', r = c :: r' /\ bare_char c = false) -> scan_bare (s ++ r) d = r.
Proof.
  intros Hs Hr. induction Hs as [|c s [Hc Hd] _ IH]; cbn [app].
  - destruct Hr as [->|(c & r' & -> & Hc)]; [reflexivity|]. cbn [scan_bare]. unfold bare_char in Hc. rewrite Hc.
    destruct (_ =? LF); [reflexivity|]. destruct (_ && d); reflexivity.
  - cbn [scan_bare]. unfold bare_char in Hc. rewrite Hc. destruct (Z.eqb_spec (bz c) LF) as [E|_].
    { rewrite E in Hc. discriminate. }
    destruct (Z.eqb_spec (bz c) 46) as [E|_]; [destruct d; [tauto|]|]; cbn [andb]; exact IH.
Qed.

Lemma next_after k line a b d :
  next_token (set_token k line (a ++ b) (zlen a)) d = make_token (S (length b)) b (line + newlines a) d.
Proof. unfold next_token. cbn [set_token len ptr lineno]. rewrite Nat2Z.id, drop_app_length, take_app_length. reflexivity. Qed.

(** Where [make_token] goes on to [scan_string]. *)
Definition starts_string (d : bool) (c : Z) : bool :=
  negb (c =? 35) && negb (d && (c =? 46)) && match punctuation c with Some _ => false | None => true end &&
  negb ((c =? CR) || (c =? SP) || (c =? TAB)).

Lemma make_string c p line d :
  starts_string d (bz c) = true -> make_token (S (length (c :: p))) (c :: p) line d = scan_string (c :: p) line d.
Proof.
  unfold starts_string. cbn [length make_token].
  destruct (bz c =? 35); [discriminate|]. destruct (d && (bz c =? 46)); [discriminate|].
  destruct (punctuation (bz c)); [discriminate|]. destruct (_ || _ || _); [discriminate|]. reflexivity.
Qed.

Lemma no_date_head p : isdigit (hd0 p) = false -> snd (scan_date p) = false /\ snd (scan_time p) = false.
Proof.
  intros H. assert (E : forall n, scan_digits p (S n) = -1) by (intros n; unfold scan_digits; cbn [scan_digits_loop]; rewrite H; reflexivity).
  unfold scan_date, scan_time. rewrite !E. auto.
Qed.

(** A text that is neither a date nor a time: no dash but the first, no colon. *)
Definition bare_value (s : list byte) : Prop :=
  s <> [] /\ Forall (fun c => bare_char c = true) s /\ Forall (fun c => bz c <> 45) (tl s).

Lemma no_date_bare s r :
  bare_value s -> snd (scan_date (s ++ zb LF :: r)) = false /\ snd (scan_time (s ++ zb LF :: r)) = false.
Proof.
  intros (_ & Hs & Ht). split.
  - assert (H : 0 <= scan_digits (s ++ zb LF :: r) 4 -> at_ 4 (s ++ zb LF :: r) <> 45).
    { destruct s as [|a [|b [|c [|d s]]]]; unfold scan_digits; cbn [app scan_digits_loop hd0 tl]; change (isdigit (bz (zb LF))) with false.
      1-4: repeat (destruct (isdigit _)); intros; lia.
      intros _. unfold at_. cbn [drop]. rewrite drop_0. destruct s as [|e s]; [discriminate|]. cbn [app hd0 tl] in *.
      do 3 apply Forall_cons_1 in Ht as [_ Ht]. apply Forall_cons_1 in Ht as [Ht _]. exact Ht. }
    unfold scan_date. destruct (Z.leb_spec 0 (scan_digits (s ++ zb LF :: r) 4)) as [H0|_]; [|reflexivity].
    specialize (H H0). destruct (Z.eqb_spec (at_ 4 (s ++ zb LF :: r)) 45); [tauto|]. reflexivity.
  - assert (H : 0 <= scan_digits (s ++ zb LF :: r) 2 -> at_ 2 (s ++ zb LF :: r) <> 58).
    { destruct s as [|a [|b s]]; unfold scan_digits; cbn [app scan_digits_loop hd0 tl]; change (isdigit (bz (zb LF))) with false.
      1-2: repeat (destruct (isdigit _)); intros; lia.
      intros _. unfold at_. cbn [drop]. rewrite drop_0. destruct s as [|e s]; [discriminate|]. cbn [app hd0] in *.
      do 2 apply Forall_cons_1 in Hs as [_ Hs]. apply Forall_cons_1 in Hs as [Hs _]. intros E. unfold bare_char in Hs. rewrite E in Hs. discriminate. }
    unfold scan_time. destruct (Z.leb_spec 0 (scan_digits (s ++ zb LF :: r) 2)) as [H0|_]; [|reflexivity].
    specialize (H H0). destruct (Z.eqb_spec (at_ 2 (s ++ zb LF :: r)) 58); [tauto|]. reflexivity.
Qed.

Lemma bare_not_quote c : bare_char c = true -> (bz c =? SQ) = false /\ (bz c =? DQ) = false.
Proof. intros H. split; apply Z.eqb_neq; intros E; unfold bare_char in H; rewrite E in H; discriminate. Qed.

(** [scan_string] on a bare text. *)
Lemma scan_string_bare s r line d :
  s <> [] -> Forall (fun c => bare_char c = true /\ (d = true -> bz c <> 46)) s ->
  (exists c r', r = c :: r' /\ bare_char c = false) ->
  snd (scan_date (s ++ r)) = false -> snd (scan_time (s ++ r)) = false ->
  scan_string (s ++ r) line d = Ok (set_token STRING line (s ++ r) (zlen s)).
Proof.
  intros Hne Hs Hr Hd Ht. unfold scan_string. cbv zeta. rewrite Hd, Ht. cbn [orb].
  rewrite scan_bare_all by auto. destruct s as [|c s]; [congruence|]. apply Forall_cons_1 in Hs as [[Hc _] _].
  destruct (bare_not_quote c Hc) as [E1 E2]. unfold triple, at_. cbn [app]. rewrite !drop_0. cbn [hd0]. rewrite E1, E2. cbn [andb].
  do 2 f_equal. unfold span_len. rewrite app_comm_cons, length_app. lia.
Qed.

Lemma key_bare k : key_ok k -> Forall (fun c => bare_char c = true /\ (true = true -> bz c <> 46)) k.
Proof.
  intros (_ & H & _). eapply Forall_impl; [exact H|]. intros c Hc. split; [|apply key_char_range in Hc; lia].
  pose proof (byte_check (fun x => implb (isalnum x || (x =? 95) || (x =? 45))
    (isupper x || islower x || strchr [48; 49; 50; 51; 52; 53; 54; 55; 56; 57; 43; 45; 95; 46] x)) ltac:(reflexivity) c) as Hb.
  cbn beta in Hb. unfold bare_key_char in Hc. rewrite Hc in Hb. exact Hb.
Qed.

Lemma key_starts k : key_ok k -> exists c k', k = c :: k' /\ starts_string true (bz c) = true.
Proof.
  intros (Hne & H & _). destruct k as [|c k]; [congruence|]. exists c, k. split; [reflexivity|].
  apply Forall_cons_1 in H as [H _]. revert H.
  pose proof (byte_check (fun x => implb (isalnum x || (x =? 95) || (x =? 45)) (starts_string true x)) ltac:(reflexivity) c) as Hb.
  cbn beta in Hb. unfold bare_key_char. intros E. rewrite E in Hb. exact Hb.
Qed.

(** The token of a key. *)
Lemma key_token k c r line :
  key_ok k -> bare_char c = false ->
  make_token (S (length (k ++ c :: r))) (k ++ c :: r) line true = Ok (set_token STRING line (k ++ c :: r) (zlen k)).
Proof.
  intros Hk Hc. destruct (key_starts k Hk) as (b & k' & E & Hs).
  assert (Em : forall r, make_token (S (length (k ++ r))) (k ++ r) line true = scan_string (k ++ r) line true).
  { intros r0. rewrite E. cbn [app]. apply make_string, Hs. }
  rewrite Em. pose proof Hk as (Hne & _ & Hdg).
  assert (Hh : isdigit (hd0 (k ++ c :: r)) = false) by (rewrite E in *; exact Hdg).
  destruct (no_date_head _ Hh) as [H1 H2]. apply scan_string_bare; auto; [apply key_bare, Hk|eauto].
Qed.

Lemma normalize_bare k line r :
  key_ok k -> normalize_key (set_token STRING line (k ++ r) (zlen k)) = Ok k.
Proof.
  intros (Hne & Hk & _). unfold normalize_key. cbn [set_token ptr len]. rewrite Nat2Z.id, take_app_length.
  destruct k as [|c k]; [congruence|]. cbn [app hd0].
  assert (Hq : ((bz c =? SQ) || (bz c =? DQ)) = false).
  { apply Forall_cons_1 in Hk as [Hc _]. apply key_char_range in Hc.
    destruct (Z.eqb_spec (bz c) SQ); [lia|]. destruct (Z.eqb_spec (bz c) DQ); [lia|reflexivity]. }
  rewrite Hq. assert (Hf : forallb bare_key_char (c :: k) = true).
  { apply forallb_forall. intros x Hx. rewrite Forall_forall in Hk. apply Hk. apply list_elem_of_In, Hx. }
  rewrite Hf. reflexivity.
Qed.

(** The token of a value, up to the end of its line. *)
Lemma bare_value_token s r line :
  bare_value s -> (exists c s', s = c :: s' /\ starts_string false (bz c) = true) ->
  make_token (S (length (s ++ zb LF :: r))) (s ++ zb LF :: r) line false =
  Ok (set_token STRING line (s ++ zb LF :: r) (zlen s)).
Proof.
  intros Hs (c & s' & E & Hc).
  assert (Em : forall r, make_token (S (length (s ++ r))) (s ++ r) line false = scan_string (s ++ r) line false).
  { intros r0. rewrite E. cbn [app]. apply make_string, Hc. }
  rewrite Em. destruct (no_date_bare s r Hs) as [H1 H2]. destruct Hs as (Hne & Hb & _).
  apply scan_string_bare; auto.
  - eapply Forall_impl; [exact Hb|]. intros x Hx. split; [exact Hx|discriminate].
  - exists (zb LF), r. split; reflexivity.
Qed.

Lemma join_bare gs : Forall (fun g => g <> [] /\ Forall digit g) gs -> Forall (fun c => bare_char c = true /\ bz c <> 45) (join gs).
Proof.
  assert (Hd : forall g, Forall digit g -> Forall (fun c => bare_char c = true /\ bz c <> 45) g).
  { intros g Hg. eapply Forall_impl; [exact Hg|]. intros c Hc.
    pose proof (byte_check (fun x => implb (isdigit x) (isupper x || islower x || strchr [48; 49; 50; 51; 52; 53; 54; 55; 56; 57; 43; 45; 95; 46] x))
      ltac:(reflexivity) c) as Hb.
    unfold digit in Hc. cbn beta in Hb. rewrite Hc in Hb. split; [exact Hb|]. apply digit_range in Hc. lia. }
  induction 1 as [|g gs [_ Hg] Hf IH]; [constructor|]. destruct gs as [|g2 gs]; [cbn [join]; auto|].
  rewrite join_cons by discriminate. apply Forall_app. split; [auto|]. constructor; [split; [reflexivity|discriminate]|exact IH].
Qed.

Lemma value_token v r line :
  value_ok v ->
  make_token (S (length (value_text v ++ zb LF :: r))) (value_text v ++ zb LF :: r) line false =
  Ok (set_token STRING line (value_text v ++ zb LF :: r) (zlen (value_text v))).
Proof.
  destruct v as [cps ts|s gs|b]; cbn [value_ok value_text]; intros Hv.
  - pose proof (scan_quoted cps ts (zb LF :: r) line false Hv ltac:(discriminate)) as Hs. rewrite <- Hs.
    unfold quoted. cbn [app]. apply make_string. reflexivity.
  - destruct Hv as (Hne & Hf & _). pose proof (join_bare gs Hf) as Hb. destruct (join_starts gs Hne Hf) as (c & j & Ej & Hc).
    assert (Hcs : starts_string false (bz c) = true).
    { pose proof (byte_check (fun x => implb (isdigit x) (starts_string false x)) ltac:(reflexivity) c) as H.
      cbn beta in H. unfold digit in Hc. rewrite Hc in H. exact H. }
    rewrite Ej in *. apply bare_value_token.
    + split; [destruct s; discriminate|]. destruct s; cbn [sign_text app tl]; split.
      all: try (apply Forall_cons in Hb as [Hc2 Hb]).
      all: repeat first [apply Forall_cons; split | eapply Forall_impl; [eassumption|intros; cbn beta in *; tauto] | reflexivity | tauto].
    + destruct s; cbn [sign_text app]; eauto.
  - apply bare_value_token.
    + destruct b; (split; [discriminate|split; repeat constructor; discriminate]).
    + destruct b; eexists _, _; split; reflexivity.
Qed.
