(* ===== verification/TomlPrintFacts.v ===== *)
(** * TOML: parsing a printed document

    One line at a time: an entry adds a pair to the current table, a header
    adds a table to the root. *)

From Stdlib Require Import Strings.String.
From S2P Require Import Prelude TomlText TomlLex TomlValue TomlTree TomlParse TomlLexFacts TomlParseFacts TomlInts TomlStrings TomlPrint.

Section print.
Context `{Strtod}.

Lemma punct_token c k p line d :
  d = true -> punctuation (bz c) = Some k ->
  make_token (S (length (c :: p))) (c :: p) line d = Ok (set_token k line (c :: p) 1).
Proof.
  intros -> Hk. cbn [length make_token].
  assert (H1 : (bz c =? 35) = false /\ (bz c =? 46) = false).
  { split; apply Z.eqb_neq; intros E; rewrite E in Hk; discriminate. }
  destruct H1 as [-> ->]. cbn [andb]. rewrite Hk. reflexivity.
Qed.

Lemma skip_space p line d : make_token (S (length (zb SP :: p))) (zb SP :: p) line d = make_token (S (length p)) p line d.
Proof. cbn [length make_token]. change (bz (zb SP)) with SP. cbn. destruct d; reflexivity. Qed.

Lemma eat_string_token k line p n d : eat_token (set_token k line p n) k d = next_token (set_token k line p n) d.
Proof. unfold eat_token. cbn [set_token tok]. rewrite bool_decide_true; reflexivity. Qed.

Lemma next_after1 k line c b d :
  next_token (set_token k line (c :: b) 1) d = make_token (S (length b)) b (line + newlines [c]) d.
Proof. exact (next_after k line [c] b d). Qed.

(** [k = v] *)
Lemma parse_entry n k v line r tab :
  key_ok k -> value_ok v -> t_readonly tab = false -> check_key tab k = KNone ->
  exists line', parse_keyval (S n) (set_token STRING line (print_entry (k, v) ++ r) (zlen k)) tab =
    Ok (set_token NEWLINE line' (zb LF :: r) 1, with_kval (t_kval tab ++ [kv_of (k, v)]) tab).
Proof.
  intros Hk Hv Hr Hc. eexists. cbn [parse_keyval]. rewrite Hr.
  assert (Et : print_entry (k, v) ++ r = k ++ zb SP :: zb 61 :: zb SP :: value_text v ++ zb LF :: r).
  { unfold print_entry. cbn [fst snd]. rewrite <- !app_assoc. reflexivity. }
  rewrite Et, eat_string_token, next_after, skip_space, (punct_token _ EQUAL) by reflexivity.
  cbn [mbind result_bind]. unfold is_tok at 1 2. cbn [set_token tok].
  rewrite (bool_decide_false (EQUAL = DOT)), (bool_decide_true (EQUAL = EQUAL)) by congruence. cbn [negb].
  rewrite next_after1, skip_space, value_token by exact Hv. cbn [mbind result_bind set_token tok].
  unfold create_keyval_in_table.
  rewrite normalize_bare by exact Hk. cbn [mbind result_bind]. rewrite Hc.
  assert (Ett : forall l, tok_text (set_token STRING l (value_text v ++ zb LF :: r) (zlen (value_text v))) = value_text v).
  { intros l. unfold tok_text. cbn [set_token len ptr]. rewrite Nat2Z.id. apply take_app_length. }
  rewrite Ett, next_after, (punct_token _ NEWLINE) by reflexivity. cbn [mbind result_bind]. do 3 f_equal.
  destruct tab as [tk tn ti tr kvs ar tb]. unfold set_val. cbn. f_equal.
  rewrite alter_app_r_alt, Nat.sub_diag by lia. reflexivity.
Qed.

Lemma is_tok_set k line p n k' : is_tok (set_token k line p n) k' = bool_decide (k = k').
Proof. reflexivity. Qed.

Lemma fill_single m n line r :
  key_ok n ->
  fill_tabpath (S m) (set_token STRING line (n ++ zb 93 :: r) (zlen n)) [] =
  Ok (set_token RBRACKET (line + newlines n) (zb 93 :: r) 1,
      [mkPk n (zlen n) (set_token STRING line (n ++ zb 93 :: r) (zlen n))]).
Proof.
  intros Hn. cbn [fill_tabpath length]. rewrite is_tok_set, bool_decide_true by reflexivity.
  rewrite normalize_bare by exact Hn. change (10 <=? Z.of_nat 0) with false. cbn [negb mbind result_bind app]. rewrite next_after, (punct_token _ RBRACKET) by reflexivity. reflexivity.
Qed.

(** [[n]] *)
Lemma parse_header n line r root :
  key_ok n -> check_key root n = KNone ->
  exists line', parse_select (set_token LBRACKET line (print_header n ++ r) 1) root =
    Ok (set_token NEWLINE line' (zb LF :: r) 1, with_tab (t_tab root ++ [new_table n (zlen n) false]) root,
        [InTab (length (t_tab root))]).
Proof.
  intros Hn Hc. eexists. unfold parse_select. cbv zeta. unfold print_header. cbn [app]. rewrite <- app_assoc. cbn [app].
  assert (Hl : (1 <? zlen (ptr (set_token LBRACKET line (zb 91 :: n ++ zb 93 :: zb LF :: r) 1))) &&
               (at_ 1 (ptr (set_token LBRACKET line (zb 91 :: n ++ zb 93 :: zb LF :: r) 1)) =? 91) = false).
  { destruct (key_starts n Hn) as (c & n' & -> & Hs). cbn [set_token ptr]. unfold at_. cbn [drop app]. cbn [hd0].
    destruct (Z.eqb_spec (bz c) 91) as [E|_]; [rewrite E in Hs; discriminate|]. apply andb_false_r. }
  rewrite Hl. rewrite eat_string_token, next_after1, key_token by (auto; reflexivity). cbn [mbind result_bind].
  rewrite fill_single by exact Hn.
  cbn [app last deref mbind result_bind removelast walk_tabpath get_at pk_tok].
  unfold select_table, create_keytable_in_table. rewrite normalize_bare by exact Hn. cbn [mbind result_bind]. rewrite Hc.
  cbn [mbind result_bind]. rewrite is_tok_set, bool_decide_true by reflexivity. cbn [negb andb update_at mbind result_bind].
  rewrite eat_string_token, next_after1, (punct_token _ NEWLINE) by reflexivity. cbn [mbind result_bind].
  rewrite is_tok_set, bool_decide_true by reflexivity. reflexivity.
Qed.

(** ** Fresh keys *)

Lemma cstr_id s : Forall (fun c => bz c <> 0) s -> cstr s = s.
Proof. induction 1 as [|c s Hc _ IH]; cbn [cstr]; [reflexivity|]. destruct (Z.eqb_spec (bz c) 0); congruence. Qed.

Lemma key_nonzero k : key_ok k -> Forall (fun c => bz c <> 0) k.
Proof. intros (_ & Hk & _). eapply Forall_impl; [exact Hk|]. intros c Hc%key_char_range. lia. Qed.

Lemma find_key_fresh {A} (f : A -> list byte) k (l : list A) :
  key_ok k -> Forall (fun x => key_ok (f x)) l -> k ∉ map f l -> find_key f k l = None.
Proof.
  intros Hk Hl Hn. induction Hl as [|x l Hx _ IH]; [reflexivity|]. cbn [find_key map] in *.
  apply not_elem_of_cons in Hn as [Hne Hn]. rewrite IH by exact Hn.
  destruct (streq k (f x)) eqn:E; [|reflexivity]. apply streq_true in E. rewrite !cstr_id in E by (apply key_nonzero; auto). congruence.
Qed.

Lemma Forall_map_compose {A B} (P : B -> Prop) (f : A -> B) l : Forall (fun x => P (f x)) l -> Forall P (map f l).
Proof. induction 1; constructor; auto. Qed.

Lemma check_key_fresh k kn kl im ro es secs :
  key_ok k -> Forall (fun e : entry => key_ok (fst e)) es -> Forall (fun s : section => key_ok (fst s)) secs ->
  k ∉ map fst es -> k ∉ map fst secs ->
  check_key (Table kn kl im ro (map kv_of es) [] (map table_of secs)) k = KNone.
Proof.
  intros Hk He Hs Hn1 Hn2. unfold check_key. cbn [t_kval t_arr t_tab find_key].
  rewrite (find_key_fresh kv_key), (find_key_fresh t_key); auto.
  - apply Forall_map_compose. exact Hs.
  - rewrite map_map. exact Hn2.
  - apply Forall_map_compose. exact He.
  - rewrite map_map. exact Hn1.
Qed.

(** ** The main loop on entries *)

(** The loop from a text on. *)
Definition loop_at (fuel depth : nat) (p : list byte) (line : Z) (root : toml_table) (cur : list path_step) : toml toml_table :=
  t ← make_token (S (length p)) p line true; parse_loop fuel depth t root cur.

Lemma loop_newline fuel depth line r root cur :
  parse_loop (S fuel) depth (set_token NEWLINE line (zb LF :: r) 1) root cur = loop_at fuel depth r (line + newlines [zb LF]) root cur.
Proof. unfold loop_at. cbn [parse_loop set_token eof tok]. rewrite <- next_after1 with (k := NEWLINE). reflexivity. Qed.

Section entries.
Variables (root_of : list entry -> toml_table) (cur : list path_step) (kn : list byte) (kl : Z).
Let cur_of (es : list entry) := Table kn kl false false (map kv_of es) [] [].
Hypothesis get_cur : forall es, get_at cur (root_of es) = Some (cur_of es).
Hypothesis put_cur : forall es es', update_at cur (fun _ => cur_of es') (root_of es) = root_of es'.

Lemma loop_entry fuel depth k v r line es :
  key_ok k -> value_ok v -> Forall (fun e => key_ok (fst e)) es -> k ∉ map fst es ->
  exists line', loop_at (S fuel) (S depth) (print_entry (k, v) ++ r) line (root_of es) cur =
    loop_at fuel (S depth) r line' (root_of (es ++ [(k, v)])) cur.
Proof.
  intros Hk Hv Hes Hn.
  assert (Hf : check_key (cur_of es) k = KNone) by (apply (check_key_fresh k kn kl false false es []); auto using Forall_nil; cbn; apply not_elem_of_nil).
  destruct (parse_entry depth k v line r (cur_of es) Hk Hv eq_refl Hf) as [line1 E].
  assert (Et : print_entry (k, v) ++ r = k ++ zb SP :: zb 61 :: zb SP :: value_text v ++ zb LF :: r).
  { unfold print_entry. cbn [fst snd]. rewrite <- !app_assoc. reflexivity. }
  eexists. unfold loop_at at 1. rewrite Et, key_token by (auto; reflexivity). rewrite <- Et. cbn [mbind result_bind].
  cbn [parse_loop]. cbn [set_token eof tok]. change (mkTok STRING line (print_entry (k, v) ++ r) (zlen k) false) with (set_token STRING line (print_entry (k, v) ++ r) (zlen k)).
  rewrite get_cur. cbn [deref mbind result_bind]. rewrite E. cbn [mbind result_bind]. unfold is_tok. cbn [set_token tok].
  rewrite bool_decide_true by reflexivity. cbn [negb]. change (mkTok NEWLINE line1 (zb LF :: r) 1 false) with (set_token NEWLINE line1 (zb LF :: r) 1).
  rewrite eat_string_token, next_after1. unfold loop_at.
  assert (Ek : with_kval (t_kval (cur_of es) ++ [kv_of (k, v)]) (cur_of es) = cur_of (es ++ [(k, v)])).
  { unfold cur_of. cbn. rewrite map_app. reflexivity. }
  rewrite Ek, put_cur. reflexivity.
Qed.

Lemma loop_entries fuel depth r line done es :
  Forall (fun e => key_ok (fst e) /\ value_ok (snd e)) (done ++ es) -> NoDup (map fst (done ++ es)) ->
  exists line', loop_at (length es + fuel) (S depth) (print_entries es ++ r) line (root_of done) cur =
    loop_at fuel (S depth) r line' (root_of (done ++ es)) cur.
Proof.
  revert line done. induction es as [|[k v] es IH]; intros line done Hok Hnd.
  { exists line. rewrite app_nil_r. reflexivity. }
  apply Forall_app in Hok as Hok2. destruct Hok2 as [Hdone Hes]. apply Forall_cons in Hes as [[Hk Hv] Hes]. cbn [fst snd] in *.
  destruct (loop_entry (length es + fuel) depth k v (print_entries es ++ r) line done) as [line1 E]; auto.
  - eapply Forall_impl; [exact Hdone|]. cbn beta. tauto.
  - rewrite map_app in Hnd. cbn [map fst] in Hnd. apply NoDup_app in Hnd as (_ & Hx & _). intros Hi. exact (Hx _ Hi ltac:(left)).
  - assert (Ed : done ++ (k, v) :: es = (done ++ [(k, v)]) ++ es) by (rewrite <- app_assoc; reflexivity).
    destruct (IH line1 (done ++ [(k, v)])) as [line2 E2]; rewrite <- ?Ed; auto.
    exists line2. unfold print_entries in *. cbn [map concat]. rewrite <- app_assoc. cbn [length Nat.add].
    rewrite E, E2, <- Ed. reflexivity.
Qed.
End entries.

(** ** Sections and documents *)

Lemma get_section es0 secs n es :
  get_at [InTab (length secs)] (tree_of es0 (secs ++ [(n, es)])) = Some (table_of (n, es)).
Proof.
  unfold tree_of. cbn [get_at t_tab]. rewrite map_app. cbn [map].
  replace (length secs) with (length (map table_of secs)) by apply length_map. rewrite lookup_last. reflexivity.
Qed.

Lemma put_section es0 secs n es es' :
  update_at [InTab (length secs)] (fun _ => table_of (n, es')) (tree_of es0 (secs ++ [(n, es)])) = tree_of es0 (secs ++ [(n, es')]).
Proof.
  unfold tree_of. cbn [update_at t_tab with_tab]. rewrite !map_app. cbn [map]. f_equal.
  rewrite alter_app_r_alt, length_map, Nat.sub_diag by (rewrite length_map; lia). reflexivity.
Qed.

Lemma loop_section fuel depth r line es0 secs cur n es :
  Forall (fun e => key_ok (fst e)) es0 -> Forall (fun s => key_ok (fst s)) secs ->
  key_ok n -> entries_ok es -> n ∉ map fst es0 -> n ∉ map fst secs ->
  exists line', loop_at (2 + length es + fuel) (S depth) (print_section (n, es) ++ r) line (tree_of es0 secs) cur =
    loop_at fuel (S depth) r line' (tree_of es0 (secs ++ [(n, es)])) [InTab (length secs)].
Proof.
  intros H0 Hs Hn [Hes Hnd] Hn1 Hn2.
  assert (Hc : check_key (tree_of es0 secs) n = KNone) by (apply check_key_fresh; auto).
  assert (Et : print_section (n, es) ++ r = print_header n ++ print_entries es ++ r) by (unfold print_section; rewrite <- app_assoc; reflexivity).
  destruct (parse_header n line (print_entries es ++ r) _ Hn Hc) as [line1 E]. rewrite <- Et in E.
  assert (Em : forall l, make_token (S (length (print_section (n, es) ++ r))) (print_section (n, es) ++ r) l true =
               Ok (set_token LBRACKET l (print_section (n, es) ++ r) 1)).
  { intros l. rewrite Et. apply punct_token; reflexivity. }
  destruct (loop_entries (fun es => tree_of es0 (secs ++ [(n, es)])) [InTab (length secs)] n (zlen n)
              (get_section es0 secs n) (put_section es0 secs n) fuel depth r (line1 + newlines [zb LF]) [] es Hes Hnd) as [line2 E2].
  exists line2. unfold loop_at at 1. rewrite Em. cbn [mbind result_bind]. cbn [Nat.add]. cbn [parse_loop]. cbn [set_token eof tok].
  change (mkTok LBRACKET line (print_section (n, es) ++ r) 1 false) with (set_token LBRACKET line (print_section (n, es) ++ r) 1).
  rewrite E. cbn [mbind result_bind]. change (tree_of es0 secs) with (Table [] 0 false false (map kv_of es0) [] (map table_of secs)).
  cbn [t_tab with_tab]. rewrite length_map.
  assert (Er : Table [] 0 false false (map kv_of es0) [] (map table_of secs ++ [new_table n (zlen n) false]) = tree_of es0 (secs ++ [(n, [])])).
  { unfold tree_of. rewrite map_app. reflexivity. }
  rewrite Er. transitivity (loop_at (length es + fuel) (S depth) (print_entries es ++ r) (line1 + newlines [zb LF]) (tree_of es0 (secs ++ [(n, [])])) [InTab (length secs)]).
  2:{ exact E2. }
  exact (loop_newline (length es + fuel) (S depth) line1 (print_entries es ++ r) _ _).
Qed.

Definition section_weight (s : section) : nat := 2 + length (snd s).
Definition sections_weight (secs : list section) : nat := sum_list_with section_weight secs.

Lemma loop_sections fuel depth line es0 done secs cur :
  Forall (fun e => key_ok (fst e)) es0 ->
  Forall (fun s => key_ok (fst s) /\ entries_ok (snd s)) (done ++ secs) ->
  NoDup (map fst es0 ++ map fst (done ++ secs)) ->
  loop_at (sections_weight secs + S fuel) (S depth) (concat (map print_section secs)) line (tree_of es0 done) cur =
  Ok (tree_of es0 (done ++ secs)).
Proof.
  intros H0. revert line done cur. induction secs as [|[n es] secs IH]; intros line done cur Hok Hnd.
  { rewrite app_nil_r. reflexivity. }
  apply Forall_app in Hok as Hok2. destruct Hok2 as [Hdone Hs]. apply Forall_cons in Hs as [[Hn Hes] Hs]. cbn [fst snd] in *.
  assert (Hds : Forall (fun s => key_ok (fst s)) done) by (eapply Forall_impl; [exact Hdone|cbn beta; tauto]).
  assert (Hnn : (n ∉ map fst es0) /\ (n ∉ map fst done)).
  { rewrite map_app in Hnd. cbn [map fst] in Hnd. apply NoDup_app in Hnd as (_ & Hx & Hy). apply NoDup_app in Hy as (_ & Hy & _). split.
    - intros Hi. apply (Hx _ Hi). apply elem_of_app. right. left.
    - intros Hi. apply (Hy _ Hi). left. }
  destruct (loop_section (sections_weight secs + S fuel) depth (concat (map print_section secs)) line es0 done cur n es) as [line1 E]; try tauto.
  assert (Ed : done ++ (n, es) :: secs = (done ++ [(n, es)]) ++ secs) by (rewrite <- app_assoc; reflexivity).
  cbn [map concat]. unfold sections_weight. cbn [sum_list_with]. fold (sections_weight secs). unfold section_weight. cbn [snd].
  replace (2 + length es + sections_weight secs + S fuel)%nat with (2 + length es + (sections_weight secs + S fuel))%nat by lia.
  rewrite E, Ed. apply IH; rewrite <- Ed; auto.
Qed.

Lemma entries_weight es : (length es <= length (print_entries es))%nat.
Proof.
  unfold print_entries. induction es as [|e es IH]; cbn [map concat length]; [lia|]. unfold print_entry at 1.
  rewrite !length_app. cbn [length]. lia.
Qed.

Lemma sections_weight_le secs : (sections_weight secs <= length (concat (map print_section secs)))%nat.
Proof.
  unfold sections_weight. induction secs as [|[n es] secs IH]; cbn [map concat length sum_list_with]; [lia|].
  rewrite length_app. unfold print_section at 1. rewrite length_app. unfold print_header, section_weight at 1. cbn [fst snd length].
  rewrite length_app. cbn [length]. pose proof (entries_weight es). lia.
Qed.

(** No byte of a document is NUL. *)
Definition nonzero (s : list byte) : Prop := Forall (fun c => bz c <> 0) s.

Lemma nonzero_concat l : Forall nonzero l -> nonzero (concat l).
Proof. induction 1; [constructor|]. apply Forall_app. auto. Qed.

Lemma piece_nonzero cp t : piece cp t -> nonzero t.
Proof.
  assert (Hx : forall ds, hex_digits ds -> nonzero ds).
  { intros ds Hd. eapply Forall_impl; [exact Hd|]. cbn beta. intros c Hc E. rewrite E in Hc. discriminate. }
  destruct 1 as [cp Hp|c cp Hin|cp ds _ _ Hd _|cp ds _ _ Hd _].
  - destruct (Z_lt_le_dec cp 128) as [Hc|Hc].
    + rewrite utf8_ascii by exact Hc. destruct Hp as ([Hs _] & _ & _ & _ & H5). constructor; [|constructor]. rewrite bz_zb_small; lia.
    + eapply Forall_impl; [apply (utf8_multi cp (proj1 Hp) Hc)|]. unfold high. intros c Hh. cbn beta in Hh. lia.
  - cbn in Hin. repeat (destruct Hin as [[= <- <-]|Hin]; [repeat constructor; discriminate|]). destruct Hin.
  - constructor; [discriminate|]. constructor; [discriminate|apply Hx, Hd].
  - constructor; [discriminate|]. constructor; [discriminate|apply Hx, Hd].
Qed.

Lemma value_nonzero v : value_ok v -> nonzero (value_text v).
Proof.
  destruct v as [cps ts|s gs|b]; cbn [value_ok value_text]; intros Hv.
  - constructor; [discriminate|]. apply Forall_app. split; [|repeat constructor; discriminate].
    apply nonzero_concat. induction Hv as [|cp t cps ts Hp _ IH]; constructor; [exact (piece_nonzero _ _ Hp)|exact IH].
  - apply Forall_app. split; [destruct s; repeat constructor; discriminate|].
    destruct Hv as (_ & Hf & _). eapply Forall_impl; [apply join_bare, Hf|]. intros c [Hc _] E. unfold bare_char in Hc.
    rewrite E in Hc. discriminate.
  - destruct b; repeat constructor; discriminate.
Qed.

Lemma entries_nonzero es : Forall (fun e => key_ok (fst e) /\ value_ok (snd e)) es -> nonzero (print_entries es).
Proof.
  intros Hes. apply nonzero_concat. induction Hes as [|[k v] es [Hk Hv] _ IH]; cbn [map]; constructor; auto.
  unfold print_entry. cbn [fst snd] in *. repeat (apply Forall_app; split); auto using key_nonzero; try (apply value_nonzero, Hv);
    repeat constructor; discriminate.
Qed.

Lemma doc_nonzero d : doc_ok d -> nonzero (print_doc d).
Proof.
  intros ([H1 _] & H2 & _). apply Forall_app. split; [apply entries_nonzero, H1|].
  apply nonzero_concat. induction H2 as [|[n es] secs [Hn [He _]] _ IH]; cbn [map]; constructor; auto.
  apply Forall_app. split; [|apply entries_nonzero, He]. constructor; [discriminate|]. apply Forall_app.
  split; [apply key_nonzero, Hn|]. repeat constructor; discriminate.
Qed.

Lemma parse_printed es0 secs : doc_ok (es0, secs) -> toml_parse (print_doc (es0, secs)) = Ok (tree_of es0 secs).
Proof.
  intros Hd. pose proof (doc_nonzero _ Hd) as Hz. destruct Hd as ([H0 Hnd0] & Hs & Hnd). cbn [fst snd] in *.
  unfold toml_parse. cbv zeta. rewrite cstr_id by exact Hz. set (doc := print_doc (es0, secs)) in *.
  assert (Hl : (length es0 + sections_weight secs <= length doc)%nat).
  { subst doc. unfold print_doc. cbn [fst snd]. rewrite length_app. pose proof (entries_weight es0). pose proof (sections_weight_le secs). lia. }
  replace (length doc + 2)%nat with (S (length es0 + (sections_weight secs + S (length doc - length es0 - sections_weight secs)))) by lia.
  replace (4 * length doc + 4)%nat with (S (4 * length doc + 3)) by lia.
  set (m := (length doc - length es0 - sections_weight secs)%nat). set (dep := (4 * length doc + 3)%nat).
  transitivity (loop_at (length es0 + (sections_weight secs + S m)) (S dep) doc 1 (tree_of [] []) []); [reflexivity|].
  destruct (loop_entries (fun es => tree_of es []) [] [] 0 (fun _ => eq_refl) (fun _ _ => eq_refl)
              (sections_weight secs + S m) dep (concat (map print_section secs)) 1 [] es0 H0 Hnd0) as [line1 E].
  change doc with (print_entries es0 ++ concat (map print_section secs)). rewrite E. cbn [app].
  apply (loop_sections m dep line1 es0 [] secs []); auto.
  eapply Forall_impl; [exact H0|]. cbn beta. tauto.
Qed.

End print.
