(* ===== verification/TomlTime.v ===== *)
(** * TOML: dates and times

    The text of a timestamp, as RFC 3339 has it, and what
    [toml_value_timestamp] makes of it. *)

From S2P Require Import Prelude TomlText TomlLex TomlValue TomlInts TomlStrings.

(** ** Texts *)

Definition dig (n : Z) : byte := zb (48 + n mod 10).
Definition dig2 (n : Z) : list byte := [dig (n / 10); dig n].
Definition dig3 (n : Z) : list byte := [dig (n / 100); dig (n / 10); dig n].
Definition dig4 (n : Z) : list byte := [dig (n / 1000); dig (n / 100); dig (n / 10); dig n].

Record date := mkDate { d_year : Z; d_month : Z; d_day : Z }.

(** [Z], or an offset of hours, with minutes or without. *)
Inductive zone := Local | Zulu | Offset (neg : bool) (hh : Z) (mm : option Z).

Record time := mkTime { t_hour : Z; t_minute : Z; t_second : Z; t_millisec : option Z; t_zone : zone }.

Definition date_text (d : date) : list byte := dig4 (d_year d) ++ zb 45 :: dig2 (d_month d) ++ zb 45 :: dig2 (d_day d).

Definition zone_text (z : zone) : list byte :=
  match z with
  | Local => []
  | Zulu => [zb 90]
  | Offset neg hh mm => zb (if neg then 45 else 43) :: dig2 hh ++ match mm with Some mm => zb 58 :: dig2 mm | None => [] end
  end.

Definition time_text (t : time) : list byte :=
  dig2 (t_hour t) ++ zb 58 :: dig2 (t_minute t) ++ zb 58 :: dig2 (t_second t)
  ++ match t_millisec t with Some ms => zb 46 :: dig3 ms | None => [] end ++ zone_text (t_zone t).

(** Fields that the text has room for. *)
Definition date_fits (d : date) : Prop := 0 <= d_year d < 10000 /\ 0 <= d_month d < 100 /\ 0 <= d_day d < 100.
Definition zone_fits (z : zone) : Prop :=
  match z with Offset _ hh mm => 0 <= hh < 100 /\ match mm with Some mm => 0 <= mm < 100 | None => True end | _ => True end.
Definition time_fits (t : time) : Prop :=
  0 <= t_hour t < 100 /\ 0 <= t_minute t < 100 /\ 0 <= t_second t < 100 /\
  match t_millisec t with Some ms => 0 <= ms < 1000 | None => True end /\ zone_fits (t_zone t).

(** What is accepted: a leap year's February has 29 days, other months 31. *)
Definition date_valid (d : date) : bool :=
  (1 <=? d_month d) && (d_month d <=? 12) && (1 <=? d_day d) && (d_day d <=? 31) &&
  negb ((d_month d =? 2) && ((if is_leap (d_year d) then 29 else 28) <? d_day d)).
Definition time_valid (t : time) : bool := (t_hour t <=? 23) && (t_minute t <=? 59) && (t_second t <=? 60).

(** ** Digits *)

Lemma bz_dig n : bz (dig n) = 48 + n mod 10.
Proof. unfold dig. pose proof (Z.mod_pos_bound n 10). apply bz_zb_small. lia. Qed.

Lemma isdigit_dig n : isdigit (bz (dig n)) = true.
Proof.
  rewrite bz_dig. pose proof (Z.mod_pos_bound n 10). unfold isdigit.
  destruct (Z.leb_spec 48 (48 + n mod 10)), (Z.leb_spec (48 + n mod 10) 57); try lia; reflexivity.
Qed.

Lemma scan_dig k acc n r : scan_digits_loop (S k) acc (dig n :: r) = scan_digits_loop k (10 * acc + n mod 10) r.
Proof. cbn [scan_digits_loop hd0 tl]. rewrite isdigit_dig, bz_dig. f_equal. lia. Qed.

Lemma scan_dig2 n r : 0 <= n < 100 -> scan_digits (dig2 n ++ r) 2 = n.
Proof.
  intros Hn. unfold scan_digits, dig2. cbn [app]. rewrite !scan_dig. cbn [scan_digits_loop]. Z.div_mod_to_equations. lia.
Qed.

Lemma scan_dig4 n r : 0 <= n < 10000 -> scan_digits (dig4 n ++ r) 4 = n.
Proof.
  intros Hn. unfold scan_digits, dig4. cbn [app]. rewrite !scan_dig. cbn [scan_digits_loop]. Z.div_mod_to_equations. lia.
Qed.

Lemma scan_date_text d r : date_fits d -> scan_date (date_text d ++ r) = (d_year d, d_month d, d_day d, true).
Proof.
  intros (Hy & Hm & Hd). unfold scan_date, date_text. rewrite <- !app_assoc, scan_dig4 by exact Hy.
  destruct (Z.leb_spec 0 (d_year d)); [|lia]. unfold at_.
  set (y := dig4 (d_year d)). set (m := dig2 (d_month d)). set (a := dig2 (d_day d)).
  change ((zb 45 :: m ++ zb 45 :: a) ++ r) with (zb 45 :: (m ++ zb 45 :: a) ++ r). rewrite <- app_assoc.
  change ((zb 45 :: a) ++ r) with (zb 45 :: a ++ r).
  change (drop 4 (y ++ zb 45 :: m ++ zb 45 :: a ++ r)) with (zb 45 :: m ++ zb 45 :: a ++ r).
  change (drop 5 (y ++ zb 45 :: m ++ zb 45 :: a ++ r)) with (m ++ zb 45 :: a ++ r).
  change (drop 7 (y ++ zb 45 :: m ++ zb 45 :: a ++ r)) with (zb 45 :: a ++ r).
  change (drop 8 (y ++ zb 45 :: m ++ zb 45 :: a ++ r)) with (a ++ r). cbn [hd0].
  change (bz (zb 45) =? 45) with true. cbn [andb]. unfold m. rewrite scan_dig2 by exact Hm.
  destruct (Z.leb_spec 0 (d_month d)); [|lia]. cbn [andb]. unfold a. rewrite scan_dig2 by exact Hd.
  destruct (Z.leb_spec 0 (d_day d)); [reflexivity|lia].
Qed.

(** The text after the seconds. *)
Definition after_time (t : time) : list byte :=
  match t_millisec t with Some ms => zb 46 :: dig3 ms | None => [] end ++ zone_text (t_zone t).

Lemma scan_time_text t r : time_fits t -> scan_time (time_text t ++ r) = (t_hour t, t_minute t, t_second t, true).
Proof.
  intros (Hh & Hm & Hs & _). unfold scan_time, time_text. fold (after_time t). rewrite <- !app_assoc, scan_dig2 by exact Hh.
  destruct (Z.leb_spec 0 (t_hour t)); [|lia]. unfold at_.
  set (h := dig2 (t_hour t)). set (m := dig2 (t_minute t)). set (s := dig2 (t_second t)). set (z := after_time t).
  change ((zb 58 :: m ++ zb 58 :: s ++ z) ++ r) with (zb 58 :: (m ++ zb 58 :: s ++ z) ++ r). rewrite <- !app_assoc.
  change ((zb 58 :: s ++ z) ++ r) with (zb 58 :: (s ++ z) ++ r). rewrite <- app_assoc.
  change (drop 2 (h ++ zb 58 :: m ++ zb 58 :: s ++ z ++ r)) with (zb 58 :: m ++ zb 58 :: s ++ z ++ r).
  change (drop 3 (h ++ zb 58 :: m ++ zb 58 :: s ++ z ++ r)) with (m ++ zb 58 :: s ++ z ++ r).
  change (drop 5 (h ++ zb 58 :: m ++ zb 58 :: s ++ z ++ r)) with (zb 58 :: s ++ z ++ r).
  change (drop 6 (h ++ zb 58 :: m ++ zb 58 :: s ++ z ++ r)) with (s ++ z ++ r). cbn [hd0].
  change (bz (zb 58) =? 58) with true. cbn [andb]. unfold m. rewrite scan_dig2 by exact Hm.
  destruct (Z.leb_spec 0 (t_minute t)); [|lia]. cbn [andb]. unfold s. rewrite scan_dig2 by exact Hs.
  destruct (Z.leb_spec 0 (t_second t)); [reflexivity|lia].
Qed.

Lemma drop_time t r : drop 8 (time_text t ++ r) = after_time t ++ r.
Proof. unfold time_text. fold (after_time t). rewrite <- !app_assoc. reflexivity. Qed.

Lemma drop_date d r : drop 10 (date_text d ++ r) = r.
Proof. unfold date_text. rewrite <- !app_assoc. reflexivity. Qed.

(** ** Fractions and zones *)

Lemma parse_millisec_text ms r :
  0 <= ms < 1000 -> isdigit (hd0 r) = false -> parse_millisec (dig3 ms ++ r) = (ms, r).
Proof.
  intros Hm Hr. unfold parse_millisec, dig3. cbn [app parse_millisec_loop]. rewrite !isdigit_dig, !bz_dig.
  change (100 / 10) with 10. change (10 / 10) with 1. change (1 / 10) with 0.
  assert (E : forall x u, parse_millisec_loop r x u = (x, r)).
  { intros x u. destruct r as [|c r]; [reflexivity|]. cbn [parse_millisec_loop]. cbn [hd0] in Hr. rewrite Hr. reflexivity. }
  rewrite E. f_equal. Z.div_mod_to_equations. lia.
Qed.

(** The text kept for a zone. *)
Lemma parse_zone_text z : z <> Local -> zone_fits z -> parse_zone (zone_text z) = Some (zone_text z, []).
Proof.
  destruct z as [| |neg hh mm]; [congruence|reflexivity|]. intros _ _. unfold parse_zone, zone_text.
  set (c := zb (if neg then 45 else 43)). assert (Hc : bz c = if neg then 45 else 43) by (unfold c; destruct neg; reflexivity).
  cbn [hd0 tl]. rewrite Hc.
  replace (((if neg then 45 else 43) =? 90) || ((if neg then 45 else 43) =? 122)) with false by (destruct neg; reflexivity).
  replace (((if neg then 45 else 43) =? 43) || ((if neg then 45 else 43) =? 45)) with true by (destruct neg; reflexivity).
  unfold dig2, at_. cbn [app drop hd0]. rewrite !isdigit_dig. cbn [andb negb].
  destruct mm as [mm|]; [|reflexivity]. cbn [hd0 take]. change (bz (zb 58) =? 58) with true.
  unfold dig2. cbn [drop hd0]. rewrite !isdigit_dig. reflexivity.
Qed.

(** ** Values *)

Definition kind_of_time (has_date : bool) (z : zone) : Z :=
  match z with Local => if has_date then 108 else 116 | _ => 100 end.
Definition zone_of (z : zone) : option (list byte) := match z with Local => None | _ => Some (zone_text z) end.

Lemma date_ranges d : date_fits d ->
  ((d_month d <? 1) || (d_day d <? 1) || (12 <? d_month d) || (31 <? d_day d) = false /\
   (d_month d =? 2) && ((if is_leap (d_year d) then 29 else 28) <? d_day d) = false) <-> date_valid d = true.
Proof.
  intros _. unfold date_valid.
  destruct (Z.ltb_spec (d_month d) 1), (Z.ltb_spec (d_day d) 1), (Z.ltb_spec 12 (d_month d)), (Z.ltb_spec 31 (d_day d)),
    (Z.leb_spec 1 (d_month d)), (Z.leb_spec (d_month d) 12), (Z.leb_spec 1 (d_day d)), (Z.leb_spec (d_day d) 31); try lia; cbn [orb andb];
    rewrite ?negb_true_iff; intuition congruence.
Qed.

Lemma value_date_text d r :
  date_fits d ->
  value_date (date_text d ++ r) =
  if date_valid d then
    let ts := mkTs 68 (d_year d) (d_month d) (d_day d) 0 0 0 0 None in
    if hd0 r =? 0 then Some (ts, r, false)
    else if negb ((hd0 r =? 84) || (hd0 r =? 116) || (hd0 r =? SP)) then None
    else Some (ts, tl r, true)
  else None.
Proof.
  intros Hd. unfold value_date. rewrite scan_date_text by exact Hd. cbn [negb]. cbv zeta. rewrite drop_date.
  pose proof (date_ranges d Hd) as Hr. destruct (date_valid d).
  - destruct (proj2 Hr eq_refl) as [-> ->]. reflexivity.
  - destruct (_ || _); [reflexivity|]. destruct (_ && _); [reflexivity|]. destruct Hr as [Hr _]. discriminate Hr; auto.
Qed.

Lemma value_time_text ts t :
  time_fits t ->
  value_time ts (time_text t) =
  if time_valid t then
    Some (mkTs (kind_of_time (ts_kind ts =? 68) (t_zone t)) (year ts) (month ts) (day ts) (t_hour t) (t_minute t) (t_second t)
            (default 0 (t_millisec t)) (zone_of (t_zone t)), [])
  else None.
Proof.
  intros Ht. unfold value_time. rewrite <- (app_nil_r (time_text t)), scan_time_text by exact Ht. cbn [negb].
  cbv zeta. rewrite drop_time, app_nil_r. pose proof Ht as (Hh & Hm & Hs & Hms & Hz).
  destruct (Z.ltb_spec (t_second t) 0), (Z.ltb_spec (t_minute t) 0), (Z.ltb_spec (t_hour t) 0); try lia. cbn [orb].
  unfold time_valid. rewrite (Z.ltb_antisym (t_hour t)), (Z.ltb_antisym (t_minute t)), (Z.ltb_antisym (t_second t)).
  destruct (t_hour t <=? 23), (t_minute t <=? 59), (t_second t <=? 60); try reflexivity. cbn [negb orb andb].
  unfold after_time. set (z := t_zone t) in *.
  assert (E : (if hd0 (match t_millisec t with Some ms => zb 46 :: dig3 ms | None => [] end ++ zone_text z) =? 46
               then parse_millisec (tl (match t_millisec t with Some ms => zb 46 :: dig3 ms | None => [] end ++ zone_text z))
               else (0, match t_millisec t with Some ms => zb 46 :: dig3 ms | None => [] end ++ zone_text z)) =
              (default 0 (t_millisec t), zone_text z)).
  { assert (Hd : isdigit (hd0 (zone_text z)) = false) by (destruct z as [| |[|] hh mm]; reflexivity).
    destruct (t_millisec t) as [ms|]; cbn [app hd0 tl default].
    - change (bz (zb 46) =? 46) with true. rewrite parse_millisec_text by auto. reflexivity.
    - destruct z as [| |[|] hh mm]; reflexivity. }
  rewrite E. destruct z as [| |neg hh mm] eqn:Ez; [destruct (ts_kind ts =? 68); reflexivity|reflexivity|].
  assert (Hn : (hd0 (zone_text (Offset neg hh mm)) =? 0) = false) by (destruct neg; reflexivity).
  rewrite Hn, parse_zone_text by (auto; discriminate). reflexivity.
Qed.

(** The three shapes of a timestamp.  The fields of the part that is not there
    are -1, not 0: the scanners store what they failed on. *)
Lemma timestamp_date d :
  date_fits d ->
  toml_value_timestamp (date_text d) =
  if date_valid d then Some (mkTs 68 (d_year d) (d_month d) (d_day d) (-1) (-1) (-1) 0 None) else None.
Proof.
  intros Hd. unfold toml_value_timestamp. rewrite <- (app_nil_r (date_text d)), value_date_text by exact Hd.
  destruct (date_valid d); reflexivity.
Qed.

Lemma value_date_time t :
  time_fits t -> value_date (time_text t) = Some (mkTs 0 (-1) (-1) (-1) 0 0 0 0 None, time_text t, false).
Proof.
  intros _. assert (E : forall h x, scan_digits (dig2 h ++ zb 58 :: x) 4 = -1).
  { intros h x. unfold scan_digits, dig2. cbn [app]. rewrite !scan_dig. reflexivity. }
  assert (Es : scan_date (time_text t) = (-1, -1, -1, false)).
  { assert (E4 : scan_digits (time_text t) 4 = -1) by apply E. unfold scan_date. rewrite E4. reflexivity. }
  unfold value_date. rewrite Es. reflexivity.
Qed.

Lemma timestamp_time t :
  time_fits t ->
  toml_value_timestamp (time_text t) =
  if time_valid t then
    Some (mkTs (kind_of_time false (t_zone t)) (-1) (-1) (-1) (t_hour t) (t_minute t) (t_second t) (default 0 (t_millisec t)) (zone_of (t_zone t)))
  else None.
Proof.
  intros Ht. unfold toml_value_timestamp. rewrite value_date_time by exact Ht. cbn [mbind option_bind].
  rewrite value_time_text by exact Ht. destruct (time_valid t); reflexivity.
Qed.

Lemma timestamp_both d sep t :
  date_fits d -> time_fits t -> In sep [84; 116; SP] ->
  toml_value_timestamp (date_text d ++ zb sep :: time_text t) =
  if date_valid d && time_valid t then
    Some (mkTs (kind_of_time true (t_zone t)) (d_year d) (d_month d) (d_day d) (t_hour t) (t_minute t) (t_second t)
            (default 0 (t_millisec t)) (zone_of (t_zone t)))
  else None.
Proof.
  intros Hd Ht Hs. unfold toml_value_timestamp. rewrite value_date_text by exact Hd. destruct (date_valid d); [|reflexivity].
  cbv zeta. cbn [hd0 tl andb].
  assert (E : (bz (zb sep) =? 0) = false /\ negb ((bz (zb sep) =? 84) || (bz (zb sep) =? 116) || (bz (zb sep) =? SP)) = false).
  { cbn in Hs. repeat (destruct Hs as [<-|Hs]; [split; reflexivity|]). destruct Hs. }
  destruct E as [-> ->]. cbn [mbind option_bind]. rewrite value_time_text by exact Ht. destruct (time_valid t); [|reflexivity].
  cbn. destruct (t_zone t); reflexivity.
Qed.
