(* ===== verification/TomlProps.v ===== *)
(** * TOML: what the parser and the getters promise

    The parser ends on every text; what it returns is well-formed, so that the
    getters and the enumeration of a table agree; a printed document is read
    back; integers, strings and timestamps have the values their texts stand
    for. *)

From Stdlib Require Import Strings.String.
From stdpp Require Import relations.
From S2P Require Import Prelude TomlText TomlLex TomlValue TomlTree TomlParse TomlLexFacts TomlParseFacts TomlDocFacts TomlInts TomlStrings.
From S2P Require Import TomlPrint TomlPrintFacts TomlTime.

(** ** TOML: a canonical way to print values

    Every string of Unicode characters and every natural number has a text
    that the parser reads back. *)

(** ** Strings *)

Definition hexdig (n : Z) : byte := zb (if n <? 10 then 48 + n else 55 + n).

(** The last [k] hex digits. *)
Fixpoint hexes (k : nat) (n : Z) : list byte :=
  match k with O => [] | S k => hexes k (n / 16) ++ [hexdig (n mod 16)] end.

Definition plainb (cp : Z) : bool :=
  negb (cp =? DQ) && negb (cp =? BSLASH) && negb (cp =? 127) && ((cp =? TAB) || (32 <=? cp)).

(** A character itself, or its [\U] escape. *)
Definition escape (cp : Z) : list byte := if plainb cp then utf8 cp else zb BSLASH :: zb 85 :: hexes 8 cp.

Lemma hexdig_check n : 0 <= n < 16 -> is_hex_digit (bz (hexdig n)) = true /\ hex_value (bz (hexdig n)) = n.
Proof.
  intros Hn.
  pose proof (range_check (fun n => is_hex_digit (bz (hexdig n)) && (hex_value (bz (hexdig n)) =? n)) 0 16 n ltac:(reflexivity) Hn) as Hb.
  cbn beta in Hb. apply andb_true_iff in Hb as [H1 H2%Z.eqb_eq]. auto.
Qed.

Lemma hexes_length k n : length (hexes k n) = k.
Proof. revert n. induction k as [|k IH]; intros n; [reflexivity|]. cbn [hexes]. rewrite length_app, IH. cbn. lia. Qed.

Lemma hexes_digits k n : hex_digits (hexes k n).
Proof.
  revert n. induction k as [|k IH]; intros n; [constructor|]. cbn [hexes]. apply Forall_app. split; [apply IH|].
  constructor; [|constructor]. apply hexdig_check. apply Z.mod_pos_bound. lia.
Qed.

Lemma hex_num_snoc l c : hex_num (l ++ [c]) = hex_num l * 16 + hex_value (bz c).
Proof. unfold hex_num. rewrite fold_left_app. reflexivity. Qed.

Lemma hex_num_hexes k n : 0 <= n -> hex_num (hexes k n) = n mod 16 ^ Z.of_nat k.
Proof.
  revert n. induction k as [|k IH]; intros n Hn; [cbn; rewrite Z.mod_1_r; reflexivity|]. cbn [hexes].
  rewrite hex_num_snoc, IH by (apply Z.div_pos; lia). rewrite (proj2 (hexdig_check (n mod 16) ltac:(apply Z.mod_pos_bound; lia))).
  rewrite Nat2Z.inj_succ, Z.pow_succ_r by lia. rewrite Z.rem_mul_r by lia. ring.
Qed.

Lemma escape_piece cp : scalar cp -> piece cp (escape cp).
Proof.
  intros Hs. unfold escape. destruct (plainb cp) eqn:E.
  - apply plain. unfold plainb in E. rewrite !andb_true_iff, !negb_true_iff, orb_true_iff, !Z.eqb_neq, Z.eqb_eq, Z.leb_le in E.
    unfold plain_char. tauto.
  - apply escape8; [exact Hs|apply hexes_length|apply hexes_digits|]. destruct Hs as [Hs _]. rewrite hex_num_hexes by lia.
    apply Z.mod_small. split; [lia|]. apply Z.le_lt_trans with 0x10FFFF; [lia|reflexivity].
Qed.

Definition str_value (cps : list Z) : value := VStr cps (map escape cps).

Lemma str_value_ok cps : Forall scalar cps -> value_ok (str_value cps).
Proof. induction 1 as [|cp cps Hc _ IH]; constructor; [apply escape_piece, Hc|exact IH]. Qed.

(** ** Numbers *)

Fixpoint decs (k : nat) (n : Z) : list byte :=
  match k with
  | O => []
  | S k => if n <? 10 then [dig n] else decs k (n / 10) ++ [dig n]
  end.

(** At most 20 digits. *)
Definition int_value (n : Z) : value := VInt NoSign [decs 20 n].

Lemma decs_digits k n : Forall digit (decs k n).
Proof.
  revert n. induction k as [|k IH]; intros n; [constructor|]. cbn [decs]. destruct (n <? 10).
  - constructor; [apply isdigit_dig|constructor].
  - apply Forall_app. split; [apply IH|]. constructor; [apply isdigit_dig|constructor].
Qed.

Lemma dec_value_snoc l c : dec_value (l ++ [c]) = dec_value l * 10 + (bz c - 48).
Proof. unfold dec_value. rewrite fold_left_app. reflexivity. Qed.

Lemma decs_value k n : 0 <= n < 10 ^ Z.of_nat k -> dec_value (decs k n) = n.
Proof.
  revert n. induction k as [|k IH]; intros n Hn; [cbn in *; lia|]. cbn [decs]. rewrite Nat2Z.inj_succ, Z.pow_succ_r in Hn by lia.
  destruct (Z.ltb_spec n 10).
  - unfold dec_value. cbn [fold_left]. rewrite bz_dig, Z.mod_small; lia.
  - rewrite dec_value_snoc, IH, bz_dig by (split; [apply Z.div_pos|apply Z.div_lt_upper_bound]; lia).
    pose proof (Z.div_mod n 10). lia.
Qed.

Lemma decs_head k n : 0 < n -> n < 10 ^ Z.of_nat k -> exists c l, decs k n = c :: l /\ bz c <> 48.
Proof.
  revert n. induction k as [|k IH]; intros n Hn Hk; [cbn in *; lia|]. cbn [decs]. rewrite Nat2Z.inj_succ, Z.pow_succ_r in Hk by lia.
  destruct (Z.ltb_spec n 10).
  - exists (dig n), []. split; [reflexivity|]. rewrite bz_dig, Z.mod_small; lia.
  - destruct (IH (n / 10)) as (c & l & E & Hc); [apply Z.div_str_pos; lia|apply Z.div_lt_upper_bound; lia|].
    exists c, (l ++ [dig n]). rewrite E. auto.
Qed.

Lemma int_value_ok n : 0 <= n < 10 ^ 20 -> value_ok (int_value n).
Proof.
  intros Hn. unfold int_value, value_ok. destruct (Z.eq_dec n 0) as [->|Hz].
  - split; [discriminate|]. split; [repeat constructor; discriminate|]. right. reflexivity.
  - destruct (decs_head 20 n ltac:(lia) ltac:(apply Hn)) as (c & l & E & Hc). split; [discriminate|]. split.
    + constructor; [|constructor]. split; [rewrite E; discriminate|apply decs_digits].
    + left. cbn [concat]. rewrite app_nil_r, E. exact Hc.
Qed.

Lemma int_value_int n : 0 <= n < 2 ^ 63 -> toml_value_int (value_text (int_value n)) = Some n.
Proof.
  intros Hn. assert (Hb : n < 10 ^ 20) by lia.
  unfold int_value, value_text. rewrite int_of_decimal by (apply (int_value_ok n); lia). cbn [concat apply_sign].
  rewrite app_nil_r, decs_value by (change (Z.of_nat 20) with 20; lia). unfold int64.
  destruct (Z.leb_spec INT64_MIN n); [|unfold INT64_MIN in *; lia]. destruct (Z.leb_spec n INT64_MAX); [reflexivity|unfold INT64_MAX in *; lia].
Qed.

Lemma str_value_str cps : Forall scalar cps -> toml_value_string (value_text (str_value cps)) = Ok (concat (map utf8 cps)).
Proof. intros Hc. apply value_quoted, str_value_ok, Hc. Qed.

(** A platform without floating point, for the examples. *)
Definition no_float : Strtod := {| double := unit; strtod := fun s => (tt, true, s); isnan := fun _ => false; isinf := fun _ => false |}.

(** ** The tree *)








Section tree.
Context `{Strtod}.





(** C8: Termination: [toml_parse] ends on every text, with a tree or an error:
    no loop runs out of the fuel that the length of the text bounds, and no
    null pointer is followed. *)
Theorem toml_parse_total doc : (exists root, toml_parse doc = Ok root) \/ (exists e, toml_parse doc = Err e).
Proof. pose proof (toml_parse_holds doc) as Hd. destruct (toml_parse doc); cbn in Hd; [eauto|eauto|destruct Hd]. Qed.


(** ** Printed documents *)

(** The characters before the first U+0000. *)
Fixpoint before_nul (cps : list Z) : list Z :=
  match cps with [] => [] | cp :: cps => if cp =? 0 then [] else cp :: before_nul cps end.

Lemma before_nul_id cps : 0 ∉ cps -> before_nul cps = cps.
Proof.
  induction cps as [|cp cps IH]; intros Hz; [reflexivity|]. apply not_elem_of_cons in Hz as [H1 H2]. cbn [before_nul].
  rewrite (proj2 (Z.eqb_neq cp 0)) by congruence. rewrite IH by exact H2. reflexivity.
Qed.

Lemma cstr_app a b : Forall (fun c => bz c <> 0) a -> cstr (a ++ b) = a ++ cstr b.
Proof.
  induction 1 as [|c a Hc _ IH]; [reflexivity|]. cbn [app cstr]. rewrite (proj2 (Z.eqb_neq _ _) Hc), IH. reflexivity.
Qed.

(** Only U+0000 has a NUL among its bytes. *)
Lemma utf8_no_nul cp : scalar cp -> cp <> 0 -> Forall (fun c => bz c <> 0) (utf8 cp).
Proof.
  intros Hs Hn. destruct (Z_lt_le_dec cp 128) as [Hc|Hc].
  - rewrite utf8_ascii by exact Hc. destruct Hs as [Hs _]. constructor; [rewrite bz_zb_small by lia; exact Hn|constructor].
  - eapply Forall_impl; [apply (utf8_multi cp Hs Hc)|]. unfold high. intros c Hh. lia.
Qed.

Lemma cstr_utf8 cps : Forall scalar cps -> cstr (concat (map utf8 cps)) = concat (map utf8 (before_nul cps)).
Proof.
  induction 1 as [|cp cps Hs _ IH]; [reflexivity|]. cbn [map concat before_nul]. destruct (Z.eqb_spec cp 0) as [->|Hn]; [reflexivity|].
  cbn [map concat]. rewrite cstr_app by (apply utf8_no_nul; assumption). rewrite IH. reflexivity.
Qed.

Lemma piece_scalar cp t : piece cp t -> scalar cp.
Proof.
  intros Hp. destruct Hp as [cp' Hc|c cp' Hi|cp' ds Hc _ _ _|cp' ds Hc _ _ _]; [apply Hc| |exact Hc|exact Hc].
  cbn in Hi. repeat (destruct Hi as [E|Hi]; [injection E as _ <-; unfold scalar; lia|]). destruct Hi.
Qed.

Lemma pieces_scalar cps ts : Forall2 piece cps ts -> Forall scalar cps.
Proof. induction 1; constructor; eauto using piece_scalar. Qed.

(** The getter of the type of a value reads it. *)
Definition reads (tab : toml_table) (k : list byte) (v : value) : Prop :=
  match v with
  | VStr cps _ => toml_table_string tab k = Some (concat (map utf8 (before_nul cps)))
  | VInt s gs => toml_table_int tab k = int64 (apply_sign s (dec_value (concat gs)))
  | VBool b => toml_table_bool tab k = Some b
  end.

Lemma reads_unparsed tab k v : value_ok v -> toml_table_unparsed tab k = Some (value_text v) -> reads tab k v.
Proof.
  intros Hv Hu. destruct v as [cps ts|s gs|b]; unfold reads, toml_table_string, toml_table_int, toml_table_bool; rewrite Hu; cbn [mbind option_bind].
  - unfold get_string. cbn [mbind option_bind value_text]. rewrite (value_quoted cps), cstr_utf8 by eauto using pieces_scalar. reflexivity.
  - apply int_of_decimal, Hv.
  - destruct b; reflexivity.
Qed.

Lemma find_key_unique {A} (f : A -> list byte) k (l : list A) x :
  Forall (fun x => key_ok (f x)) l -> NoDup (map f l) -> In x l -> f x = k -> exists i, find_key f k l = Some i /\ l !! i = Some x.
Proof.
  intros Hl Hn Hi Hk. induction l as [|y l IH]; [destruct Hi|]. cbn [find_key map] in *. apply NoDup_cons in Hn as [Hy Hn].
  apply Forall_cons in Hl as [Hky Hl]. destruct Hi as [->|Hi].
  - exists O. subst k. unfold streq. rewrite bool_decide_true by reflexivity. auto.
  - destruct (IH Hl Hn Hi) as (i & Ei & El). destruct (streq k (f y)) eqn:E; [|exists (S i); rewrite Ei; auto].
    exfalso. apply Hy. apply streq_true in E. rewrite Forall_forall in Hl.
    rewrite !cstr_id in E by (apply key_nonzero; subst; auto; apply Hl, list_elem_of_In; auto). rewrite <- E, <- Hk.
    apply list_elem_of_In, in_map, Hi.
Qed.

Lemma reads_entry kn kl im ro es ar tb k v :
  entries_ok es -> In (k, v) es -> reads (Table kn kl im ro (map kv_of es) ar tb) k v.
Proof.
  intros [He Hn] Hi. assert (Hv : value_ok v).
  { rewrite Forall_forall in He. apply (He (k, v)), list_elem_of_In, Hi. }
  apply reads_unparsed; [exact Hv|]. unfold toml_table_unparsed. cbn [t_kval].
  destruct (find_key_unique kv_key k (map kv_of es) (kv_of (k, v))) as (i & Ei & El).
  - apply Forall_map_compose. eapply Forall_impl; [exact He|]. cbn beta. intros e. cbn. tauto.
  - rewrite map_map. exact Hn.
  - apply in_map, Hi.
  - reflexivity.
  - rewrite Ei. cbn [mbind option_bind]. rewrite El. reflexivity.
Qed.

(** C6: Round trip: a document of entries and sections, printed one per line,
    is parsed; every value is found under its section and its key and is read
    back by the getter of its type: the characters of a string in UTF-8, up to
    the first U+0000 when it has one (a string is got as a C string, without its
    length); an integer when it fits 64 bits; a boolean. *)
Theorem toml_document_roundtrip es secs :
  doc_ok (es, secs) ->
  exists root, toml_parse (print_doc (es, secs)) = Ok root /\
    (forall k v, In (k, v) es -> reads root k v) /\
    (forall n ses, In (n, ses) secs ->
       exists tab, toml_table_table root n = Some tab /\ forall k v, In (k, v) ses -> reads tab k v).
Proof.
  intros Hd. exists (tree_of es secs). split; [apply parse_printed, Hd|]. destruct Hd as (He & Hs & Hn). cbn [fst snd] in *.
  split; [intros k v; apply reads_entry, He|]. intros n ses Hi. exists (table_of (n, ses)).
  assert (Hses : key_ok n /\ entries_ok ses) by (rewrite Forall_forall in Hs; apply (Hs (n, ses)), list_elem_of_In, Hi).
  split; [|intros k v; apply reads_entry, Hses]. unfold toml_table_table, tree_of. cbn [t_tab].
  destruct (find_key_unique t_key n (map table_of secs) (table_of (n, ses))) as (i & Ei & El).
  - apply Forall_map_compose. eapply Forall_impl; [exact Hs|]. cbn beta. intros s. cbn. tauto.
  - rewrite map_map. apply NoDup_app in Hn. apply Hn.
  - apply in_map, Hi.
  - reflexivity.
  - rewrite Ei. exact El.
Qed.
End tree.

(** ** Values *)

(** A decimal literal (a sign or none, groups of digits with an underscore
    between them, no leading zero) has its value when that fits 64 bits, and
    is refused when it does not, however long it is. *)
Theorem toml_int_exact s gs :
  decimal gs -> toml_value_int (sign_text s ++ join gs) = int64 (apply_sign s (dec_value (concat gs))).
Proof. apply int_of_decimal. Qed.

(** A basic string, made of characters that stand for themselves, short
    escapes and [\u], [\U] escapes, is one token up to its closing quote, and
    its value is the UTF-8 encoding of its characters. *)
Theorem toml_basic_string cps ts rest line d :
  Forall2 piece cps ts -> (cps = [] -> hd0 rest <> DQ) ->
  scan_string (quoted ts ++ rest) line d = Ok (set_token STRING line (quoted ts ++ rest) (zlen (quoted ts))) /\
  toml_value_string (quoted ts) = Ok (concat (map utf8 cps)).
Proof. intros Hp Hr. split; [apply (scan_quoted cps); auto|apply (value_quoted cps), Hp]. Qed.

(** The text of a date, of a time or of both, with a fraction and a zone or
    without, has its fields when they are in range and is refused when they are
    not.  The fields of the part that is missing are -1. *)
Theorem toml_timestamp_exact d sep t :
  date_fits d -> time_fits t -> In sep [84; 116; SP] ->
  toml_value_timestamp (date_text d) =
    (if date_valid d then Some (mkTs 68 (d_year d) (d_month d) (d_day d) (-1) (-1) (-1) 0 None) else None) /\
  toml_value_timestamp (time_text t) =
    (if time_valid t then
       Some (mkTs (kind_of_time false (t_zone t)) (-1) (-1) (-1) (t_hour t) (t_minute t) (t_second t)
               (default 0 (t_millisec t)) (zone_of (t_zone t)))
     else None) /\
  toml_value_timestamp (date_text d ++ zb sep :: time_text t) =
    (if date_valid d && time_valid t then
       Some (mkTs (kind_of_time true (t_zone t)) (d_year d) (d_month d) (d_day d) (t_hour t) (t_minute t) (t_second t)
               (default 0 (t_millisec t)) (zone_of (t_zone t)))
     else None).
Proof. intros Hd Ht Hs. split; [|split]; [apply timestamp_date|apply timestamp_time|apply timestamp_both]; auto. Qed.

(** The type of a value in an array is wrong for dates and times: a date is
    classified 'T', a timestamp, and so is a time, because the scanners leave
    -1 in the fields that [valtype] tests against 0. *)
Theorem toml_valtype_dates :
  @valtype no_float (bytes_of "2024-02-29") = 84 /\ @valtype no_float (bytes_of "07:32:00") = 84 /\
  @valtype no_float (bytes_of "00:32:00") = 68 /\ @valtype no_float (bytes_of "2024-02-29T07:32:00") = 84.
Proof. repeat split. Qed.

(** Integers that the language does not have. *)
Example toml_int_hex_sign : toml_value_int (bytes_of "0x-5") = Some (-5).
Proof. reflexivity. Qed.
Example toml_int_hex_twice : toml_value_int (bytes_of "0x0x10") = Some 16.
Proof. reflexivity. Qed.
Example toml_int_empty : toml_value_int [] = Some 0.
Proof. reflexivity. Qed.

(** A thirty-first of April. *)
Example toml_april_31 : is_Some (toml_value_timestamp (bytes_of "2024-04-31")).
Proof. eexists. reflexivity. Qed.

(** A string that is not UTF-8. *)
Example toml_not_utf8 : toml_value_string [zb DQ; zb 192; zb 192; zb DQ] = Ok [zb 192; zb 192].
Proof. reflexivity. Qed.

(** ** The theorems at work *)

Definition demo_key : list byte := bytes_of "net_ip".
Definition demo_entries : list entry :=
  [(bytes_of "ip", VStr [58; 233; 10] [[zb 58]; [zb BSLASH; zb 117; zb 48; zb 48; zb 69; zb 57]; [zb BSLASH; zb 110]]);
   (bytes_of "port", VInt NoSign [[zb 50; zb 50]; [zb 49; zb 48; zb 50]]); (bytes_of "on", VBool true)].

Lemma demo_pieces :
  Forall2 piece [58; 233; 10] [[zb 58]; [zb BSLASH; zb 117; zb 48; zb 48; zb 69; zb 57]; [zb BSLASH; zb 110]].
Proof.
  constructor; [|constructor; [|constructor; [|constructor]]].
  - apply (plain 58). repeat split; try discriminate; try lia.
  - apply escape4; [split; lia|reflexivity|repeat constructor|reflexivity].
  - apply (short_escape 110 10). cbn. tauto.
Qed.

Lemma demo_entries_ok : entries_ok demo_entries.
Proof.
  split; [|refine (bool_decide_eq_true_1 _ _); vm_compute; reflexivity].
  repeat (apply Forall_cons; split); try apply Forall_nil; cbn [fst snd value_ok]; split; try exact demo_pieces; try exact I.
  3: split; [discriminate|]; split; [repeat constructor; discriminate|]; left; discriminate.
  all: repeat constructor; discriminate.
Qed.

Lemma demo_doc_ok : doc_ok ([], [(demo_key, demo_entries)]).
Proof.
  split; [split; [constructor|constructor]|]. split; [|refine (bool_decide_eq_true_1 _ _); vm_compute; reflexivity].
  constructor; [|constructor]. split; [|apply demo_entries_ok]. repeat constructor. discriminate.
Qed.

Lemma toml_document_roundtrip_witness :
  exists root, @toml_parse no_float (print_doc ([], [(demo_key, demo_entries)])) = Ok root /\
    exists tab, toml_table_table root demo_key = Some tab /\ toml_table_int tab (bytes_of "port") = Some 22102.
Proof.
  destruct (@toml_document_roundtrip no_float [] [(demo_key, demo_entries)] demo_doc_ok) as (root & Hp & _ & Hs).
  exists root. split; [exact Hp|]. destruct (Hs demo_key demo_entries) as (tab & Ht & Hr); [left; reflexivity|].
  exists tab. split; [exact Ht|]. exact (Hr (bytes_of "port") _ (or_intror (or_introl eq_refl))).
Defined.


Lemma toml_int_exact_witness :
  toml_value_int (sign_text Minus ++ join [[zb 57]; [zb 50; zb 50]]) = Some (-922).
Proof.
  rewrite (toml_int_exact Minus [[zb 57]; [zb 50; zb 50]]); [reflexivity|].
  split; [discriminate|]. split; [repeat constructor; discriminate|]. left. discriminate.
Defined.

Lemma toml_basic_string_witness :
  toml_value_string (quoted [[zb 58]; [zb BSLASH; zb 117; zb 48; zb 48; zb 69; zb 57]; [zb BSLASH; zb 110]]) =
  Ok [zb 58; zb 195; zb 169; zb 10].
Proof. exact (proj2 (toml_basic_string _ _ [] 1 false demo_pieces ltac:(discriminate))). Defined.

Lemma toml_timestamp_exact_witness :
  toml_value_timestamp (bytes_of "2024-02-29T07:32:00.500+02:00") =
  Some (mkTs 100 2024 2 29 7 32 0 500 (Some (bytes_of "+02:00"))).
Proof.
  exact (proj2 (proj2 (toml_timestamp_exact (mkDate 2024 2 29) 84 (mkTime 7 32 0 (Some 500) (Offset false 2 (Some 0)))
    ltac:(repeat split; cbn; lia) ltac:(repeat split; cbn; lia) (or_introl eq_refl)))).
Defined.
