(* ===== verification/RunConfig.v ===== *)
(** * Runtime configuration

    [Config::Config] of src/runconfig.cpp: the search for a file, and the
    fields that are read from its sections, each with its default.  A pointer
    that may be null is an [option]; memory that [malloc] returned and nothing
    wrote is [None] in [ri_is_domain]. *)

From Stdlib Require Import Strings.String.
From S2P Require Import Prelude TomlText TomlLex TomlValue TomlTree TomlParse.

#[local] Open Scope string_scope.
#[local] Open Scope Z_scope.

Abbreviation cstring := (list byte).

(** ** The structures *)

Record RegionListEntry := mkRegion {
  rg_name : option cstring; rg_type : option cstring; rg_title : option cstring; rg_url : option cstring;
  rg_version : option cstring }.

Record ResVersionConfig := mkRes {
  resourceUrl : option cstring; dataUrl : option cstring; resourceUrlBak : option cstring;
  resourceUrlNext : option cstring; dataUrlBak : option cstring; resourceSuffix : option cstring;
  dataSuffix : option cstring; silenceSuffix : option cstring; branch : option cstring;
  scriptVersion : option cstring; resVersion : Z; dataVersion : Z; silenceVersion : Z;
  resourceRes : option cstring; dataRes : option cstring; silenceRes : option cstring; relogin : Z;
  releaseTotalSize : option cstring }.

Record StopServer := mkStop { st_start : Z; st_end : Z; st_url : option cstring; st_msg : option cstring }.

Record RegionInfo := mkInfo {
  gateserverIp : cstring; gateserverPort : Z; ri_is_domain : option Z;
  feedbackUrl : option cstring; bulletinUrl : option cstring; handbookUrl : option cstring;
  communityUrl : option cstring; userCenterUrl : option cstring; privacyPolicyUrl : option cstring;
  accountBindUrl : option cstring; cdKeyUrl : option cstring; payCbUrl : option cstring;
  res : option ResVersionConfig; resNext : option ResVersionConfig;
  gameBiz : option cstring; areaType : option cstring; forceUpdateUrl : option cstring;
  regionCustomConfig : option cstring; clientRegionCustomConfig : option cstring;
  sendStopServerOrForceUpdate : Z; stopServer : option StopServer }.

Record config_t := mkConfig {
  gameserver_bind_ip : cstring; dispatch_bind_ip : cstring; gameserver_bind_port : Z; dispatch_bind_port : Z;
  maxSessions : Z; kcpInterval : Z; sessionTickRate : Z; dbPath : cstring; dataPath : cstring; logPath : cstring;
  regions : list (option RegionListEntry); regionInfo : option RegionInfo }.

(** The directories that configure sets. *)
Class Dirs := { CONFDIR : cstring; TOPCONFDIR : cstring; VARDIR : cstring; DATADIR : cstring; LOGDIR : cstring }.

(** ** Reading the sections *)

(** [val.ok ? val.u.s : d] and [val.ok ? val.u.i : d] with the width of the
    field. *)
Definition str (tab : toml_table) (key : string) : option cstring := toml_table_string tab (bytes_of key).
Definition str_or (tab : toml_table) (key : string) (d : cstring) : cstring := default d (str tab key).
Definition int_or (w : Z) (tab : toml_table) (key : string) (d : Z) : Z := wrap w (default d (toml_table_int tab (bytes_of key))).

Section config.
Context `{Strtod} `{Dirs}.

(** [maxSessions], [sessionTickRate], [dbPath], [dataPath], [logFile] *)
Definition load_core (sub : option toml_table) : Z * Z * cstring * cstring * cstring :=
  match sub with
  | Some t =>
      (int_or 32 t "maxSessions" 10, int_or 32 t "sessionTickRate" 500, str_or t "dbPath" (VARDIR ++ bytes_of "/db"),
       str_or t "dataPath" DATADIR, str_or t "logFile" (LOGDIR ++ bytes_of "/yagips.log"))
  | None => (10, 500, VARDIR ++ bytes_of "/db", DATADIR, LOGDIR ++ bytes_of "/yagips.log")
  end%list.

(** The addresses and ports of the game server and of dispatch, [kcpInterval] *)
Definition load_net (sub : option toml_table) : cstring * Z * cstring * Z * Z :=
  match sub with
  | Some t =>
      (str_or t "gameserverBindIp" (bytes_of "::"), int_or 16 t "gameserverBindPort" 22102,
       str_or t "dispatchBindIp" (bytes_of "::"), int_or 16 t "dispatchBindPort" 22100, int_or 32 t "kcpInterval" 100)
  | None => (bytes_of "::", 22102, bytes_of "::", 22100, 100)
  end.

Definition load_res (t : toml_table) : ResVersionConfig :=
  mkRes (str t "resourceUrl") (str t "dataUrl") (str t "resourceUrlBak") (str t "resourceUrlNext") (str t "dataUrlBak")
    (str t "resourceSuffix") (str t "dataSuffix") (str t "silenceSuffix") (str t "branch") (str t "scriptVersion")
    (int_or 32 t "resVersion" 0) (int_or 32 t "dataVersion" 0) (int_or 32 t "silenceVersion" 0)
    (str t "resourceRes") (str t "dataRes") (str t "silenceRes") (int_or 32 t "relogin" 0) (str t "releaseTotalSize").

(** The URLs are those of the section above. *)
Definition load_next (r : ResVersionConfig) (t : toml_table) : ResVersionConfig :=
  mkRes (resourceUrl r) (dataUrl r) (resourceUrlBak r) (resourceUrlNext r) (dataUrlBak r)
    (str t "resourceSuffix") (str t "dataSuffix") (str t "silenceSuffix") (str t "branch") (str t "scriptVersion")
    (int_or 32 t "resVersion" 0) (int_or 32 t "dataVersion" 0) (int_or 32 t "silenceVersion" 0)
    (str t "resourceRes") (str t "dataRes") (str t "silenceRes") (int_or 32 t "relogin" 0) (str t "releaseTotalSize").

Definition load_stop (t : toml_table) : StopServer :=
  mkStop (int_or 64 t "start" 0) (int_or 64 t "end" 0) (str t "url") (str t "msg").

Definition load_region (t : toml_table) : RegionListEntry :=
  mkRegion (str t "name") (str t "type") (str t "title") (str t "url") (str t "version").

Definition load_regions (arr : option toml_array) : list (option RegionListEntry) :=
  match arr with
  | Some a => map (fun i => load_region <$> toml_array_table a (Z.of_nat i)) (seq 0 (length (a_item a)))
  | None => []
  end.

(** [val.ok ? val.u.i > 2u ? val.u.i : 0 : 0] *)
Definition send_stop (val : option Z) : Z :=
  wrap 32 (match val with Some i => if 2 <? i then i else 0 | None => 0 end).

Definition load_dispatch (t : toml_table) : RegionInfo * list (option RegionListEntry) :=
  let sub := toml_table_table t (bytes_of "res") in
  let r := load_res <$> sub in
  let next := r0 ← r; sub0 ← sub; load_next r0 <$> toml_table_table sub0 (bytes_of "next") in
  (mkInfo (str_or t "gateserverIp" (bytes_of "127.0.0.1")) (int_or 16 t "gateserverPort" 22102)
     (Z.b2z <$> toml_table_bool t (bytes_of "gateserverIpIsDomain"))
     (str t "feedbackUrl") (str t "bulletinUrl") (str t "handbookUrl") (str t "communityUrl") (str t "userCenterUrl")
     (str t "privacyPolicyUrl") (str t "accountBindUrl") (str t "cdKeyUrl") (str t "payCbUrl") r next
     (str t "gameBiz") (str t "areaType") (str t "forceUpdateUrl") (str t "regionCustomConfig")
     (str t "clientRegionCustomConfig") (send_stop (toml_table_int t (bytes_of "sendStopServerOrForceUpdate")))
     (load_stop <$> toml_table_table t (bytes_of "stop")),
   load_regions (toml_table_array t (bytes_of "regions"))).

Definition load_config (rootConfig : option toml_table) : config_t :=
  match rootConfig with
  | Some root =>
      let '(sessions, tick, db, data, log) := load_core (toml_table_table root (bytes_of "core")) in
      let '(gip, gport, dip, dport, kcp) := load_net (toml_table_table root (bytes_of "net")) in
      match toml_table_table root (bytes_of "dispatch") with
      | Some t =>
          let '(info, regs) := load_dispatch t in
          mkConfig gip dip gport dport sessions kcp tick db data log regs (Some info)
      | None => mkConfig gip dip gport dport sessions kcp tick db data log [] None
      end
  | None =>
      mkConfig (bytes_of "::") (bytes_of "::") 22102 22100 10 100 500 (VARDIR ++ bytes_of "/db")%list DATADIR
        (LOGDIR ++ bytes_of "/yagips.log")%list [] None
  end.

(** ** Finding the file *)

Definition CONFIG_FILE_NAME : cstring := bytes_of "yagips.conf".

Definition pathList : list (option cstring) :=
  [None; Some CONFIG_FILE_NAME; Some (bytes_of ".yagips/config"); Some (bytes_of ".yagips/" ++ CONFIG_FILE_NAME);
   Some (bytes_of ".config/" ++ CONFIG_FILE_NAME); Some (bytes_of "." ++ CONFIG_FILE_NAME); Some CONFIG_FILE_NAME;
   Some (CONFDIR ++ bytes_of "/config"); Some (CONFDIR ++ bytes_of "/" ++ CONFIG_FILE_NAME);
   Some (TOPCONFDIR ++ bytes_of "/" ++ CONFIG_FILE_NAME); None]%list.

(** [snprintf(homePathBuf, 4095, "%s/%s", homePath, pathList[i])] *)
Definition home_path (home p : cstring) : cstring := ztake 4094 (home ++ bytes_of "/" ++ p)%list.

Section files.
(** [getenv("HOME")] or the home directory of the user; [fopen] with the bytes
    of the file; the argument of the constructor. *)
Variables (homePath : option cstring) (fopen : cstring -> option (list byte)) (path : option cstring).

(** [for (; i < 11; i++)]; [rootConfig] is static, [cur] is what it holds. *)
Fixpoint find_config (fuel : nat) (i : nat) (cur : option toml_table) : option toml_table :=
  match fuel with
  | O => cur
  | S fuel =>
      if (11 <=? i)%nat then cur
      else
        let try p :=
          match fopen p with
          | None => find_config fuel (i + 1) cur
          | Some file =>
              match toml_parse_file file with
              | Ok root => Some root
              | _ => find_config fuel (i + 1) None
              end
          end in
        if (i =? 0)%nat then match path with None => find_config fuel (i + 1) cur | Some p => try p end
        else
          match pathList !! i with
          | Some (Some p) =>
              if ((2 <=? i) && (i <=? 6))%nat then
                match homePath with None => find_config fuel (i + 5 + 1) cur | Some home => try (home_path home p) end
              else try p
          | _ => find_config fuel (i + 1) cur
          end
  end.

(** The constructor: the configuration, and [rootConfig]. *)
Definition Config (rootConfig : option toml_table) : config_t * option toml_table :=
  let root := find_config 11 0 rootConfig in (load_config root, root).
End files.

End config.
