(* ===== verification/RunConfigProps.v ===== *)
(** * Runtime configuration: what is loaded

    Which file is used, and that a printed configuration is read back, with
    the defaults in the places of what it leaves out. *)

From Stdlib Require Import Strings.String.
From S2P Require Import Prelude TomlText TomlLex TomlValue TomlTree TomlParse.
From S2P Require Import TomlLexFacts TomlParseFacts TomlInts TomlStrings TomlPrint TomlPrintFacts TomlProps RunConfig.

#[local] Open Scope Z_scope.

(** ** The search *)

Section search.
Context `{Strtod} `{Dirs}.

(** The files that are tried, in order. *)
Definition candidates (homePath path : option cstring) : list cstring :=
  option_list path ++ [CONFIG_FILE_NAME] ++
  match homePath with
  | Some home =>
      map (home_path home) [bytes_of ".yagips/config"; bytes_of ".yagips/" ++ CONFIG_FILE_NAME;
        bytes_of ".config/" ++ CONFIG_FILE_NAME; bytes_of "." ++ CONFIG_FILE_NAME; CONFIG_FILE_NAME] ++
      [CONFDIR ++ bytes_of "/config"]
  | None => []
  end ++ [CONFDIR ++ bytes_of "/" ++ CONFIG_FILE_NAME; TOPCONFDIR ++ bytes_of "/" ++ CONFIG_FILE_NAME].

(** The first that opens and parses; a file that does not parse clears what was
    loaded before. *)
Fixpoint first_parsed (fopen : cstring -> option (list byte)) (l : list cstring) (cur : option toml_table) : option toml_table :=
  match l with
  | [] => cur
  | p :: l =>
      match fopen p with
      | None => first_parsed fopen l cur
      | Some file =>
          match toml_parse file with
          | Ok root => Some root
          | _ => first_parsed fopen l None
          end
      end
  end.

Section steps.
Variables (homePath : option cstring) (fopen : cstring -> option (list byte)) (path : option cstring).

Definition attempt (next : option toml_table -> option toml_table) (p : cstring) (cur : option toml_table) : option toml_table :=
  match fopen p with
  | None => next cur
  | Some file => match toml_parse_file file with Ok root => Some root | _ => next None end
  end.

Lemma attempt_first next l p cur :
  (forall c, next c = first_parsed fopen l c) -> attempt next p cur = first_parsed fopen (p :: l) cur.
Proof. intros Hn. unfold attempt. cbn [first_parsed]. destruct (fopen p); [|auto]. rewrite parse_file_eq. destruct (toml_parse _); auto. Qed.

(** From an index on, when the files from it on are [l]. *)
Definition from (fuel i : nat) (l : list cstring) : Prop :=
  forall cur, find_config homePath fopen path fuel i cur = first_parsed fopen l cur.

Lemma from_end fuel : from (S fuel) 10 [].
Proof. intros cur. destruct fuel; reflexivity. Qed.

Lemma from_path fuel i l p :
  In i [1; 7; 8; 9]%nat -> pathList !! i = Some (Some p) -> from fuel (i + 1) l -> from (S fuel) i (p :: l).
Proof.
  intros Hi Hp Hl cur. rewrite <- (attempt_first (find_config homePath fopen path fuel (i + 1)) l p cur Hl).
  cbn [find_config]. rewrite Hp. cbn in Hi. repeat (destruct Hi as [<-|Hi]; [reflexivity|]). destruct Hi.
Qed.

Lemma from_home fuel i l p home :
  In i [2; 3; 4; 5; 6]%nat -> pathList !! i = Some (Some p) -> homePath = Some home -> from fuel (i + 1) l ->
  from (S fuel) i (home_path home p :: l).
Proof.
  intros Hi Hp Hh Hl cur. rewrite <- (attempt_first (find_config homePath fopen path fuel (i + 1)) l (home_path home p) cur Hl).
  cbn [find_config]. rewrite Hp, Hh. cbn in Hi. repeat (destruct Hi as [<-|Hi]; [reflexivity|]). destruct Hi.
Qed.

Lemma from_no_home fuel l : homePath = None -> from fuel 8 l -> from (S fuel) 2 l.
Proof. intros Hh Hl cur. rewrite <- (Hl cur). cbn [find_config]. rewrite Hh. reflexivity. Qed.

Lemma from_argument fuel l :
  from fuel 1 l -> from (S fuel) 0 (option_list path ++ l).
Proof.
  intros Hl cur. destruct path as [p|] eqn:Ep.
  - change (option_list (Some p) ++ l) with (p :: l).
    rewrite <- (attempt_first (find_config homePath fopen path fuel 1) l p cur Hl).
    rewrite <- Ep. cbn [find_config]. rewrite Ep. reflexivity.
  - change (option_list None ++ l) with l. rewrite <- (Hl cur), <- Ep. cbn [find_config]. rewrite Ep. reflexivity.
Qed.

Lemma find_config_first cur :
  find_config homePath fopen path 11 0 cur = first_parsed fopen (candidates homePath path) cur.
Proof.
  assert (H8 : forall n, from (3 + n) 8 [CONFDIR ++ bytes_of "/" ++ CONFIG_FILE_NAME; TOPCONFDIR ++ bytes_of "/" ++ CONFIG_FILE_NAME]).
  { intros n. apply from_path; [cbn; tauto|reflexivity|]. apply from_path; [cbn; tauto|reflexivity|]. apply from_end. }
  assert (H1 : from 10 1 (candidates homePath None)).
  { unfold candidates. cbn [option_list app]. apply from_path; [cbn; tauto|reflexivity|]. cbn [Nat.add].
    destruct homePath as [home|] eqn:Eh.
    - cbn [map app]. do 5 (apply from_home; [cbn; tauto|reflexivity|exact Eh|]; cbn [Nat.add]).
      apply from_path; [cbn; tauto|reflexivity|]. apply (H8 0%nat).
    - cbn [app]. apply from_no_home; [exact Eh|]. apply (H8 5%nat). }
  exact (from_argument 10 _ H1 cur).
Qed.
End steps.
End search.

(** ** A printed configuration *)

(** The settings of [core] and [net]; [None] leaves a key out.  Strings are
    their characters. *)
Record settings := mkSettings {
  s_maxSessions : option Z; s_sessionTickRate : option Z; s_dbPath : option (list Z); s_dataPath : option (list Z);
  s_logFile : option (list Z);
  s_gameserverBindIp : option (list Z); s_gameserverBindPort : option Z; s_dispatchBindIp : option (list Z);
  s_dispatchBindPort : option Z; s_kcpInterval : option Z }.

Definition opt_entry {A} (key : string) (f : A -> value) (o : option A) : list entry :=
  match o with Some a => [(bytes_of key, f a)] | None => [] end.

Definition core_entries (s : settings) : list entry :=
  opt_entry "maxSessions" int_value (s_maxSessions s) ++ opt_entry "sessionTickRate" int_value (s_sessionTickRate s)
  ++ opt_entry "dbPath" str_value (s_dbPath s) ++ opt_entry "dataPath" str_value (s_dataPath s)
  ++ opt_entry "logFile" str_value (s_logFile s).

Definition net_entries (s : settings) : list entry :=
  opt_entry "gameserverBindIp" str_value (s_gameserverBindIp s) ++ opt_entry "gameserverBindPort" int_value (s_gameserverBindPort s)
  ++ opt_entry "dispatchBindIp" str_value (s_dispatchBindIp s) ++ opt_entry "dispatchBindPort" int_value (s_dispatchBindPort s)
  ++ opt_entry "kcpInterval" int_value (s_kcpInterval s).

Definition config_doc (s : settings) : list entry * list section :=
  ([], [(bytes_of "core", core_entries s); (bytes_of "net", net_entries s)]).

Definition int_fits (w : Z) (o : option Z) : Prop := match o with Some n => 0 <= n < 2 ^ w | None => True end.
Definition str_fits (o : option (list Z)) : Prop := match o with Some cps => Forall scalar cps | None => True end.

Definition settings_ok (s : settings) : Prop :=
  (int_fits 32 (s_maxSessions s) /\ int_fits 32 (s_sessionTickRate s) /\ str_fits (s_dbPath s) /\ str_fits (s_dataPath s) /\
   str_fits (s_logFile s)) /\
  (str_fits (s_gameserverBindIp s) /\ int_fits 16 (s_gameserverBindPort s) /\ str_fits (s_dispatchBindIp s) /\
   int_fits 16 (s_dispatchBindPort s) /\ int_fits 32 (s_kcpInterval s)).

(** A string in UTF-8, up to its first U+0000, or the default. *)
Definition utf8_or (d : cstring) (o : option (list Z)) : cstring :=
  match o with Some cps => concat (map utf8 (before_nul cps)) | None => d end.

Lemma opt_int_ok w key o : key_ok (bytes_of key) -> w <= 32 -> int_fits w o ->
  Forall (fun e : entry => key_ok (fst e) /\ value_ok (snd e)) (opt_entry key int_value o).
Proof.
  intros Hk Hw Ho. destruct o as [n|]; constructor; [|constructor]. split; [exact Hk|]. apply int_value_ok. cbn in Ho.
  pose proof (Z.pow_le_mono_r 2 w 32 ltac:(lia) Hw). lia.
Qed.

Lemma opt_str_ok key o : key_ok (bytes_of key) -> str_fits o ->
  Forall (fun e : entry => key_ok (fst e) /\ value_ok (snd e)) (opt_entry key str_value o).
Proof. intros Hk Ho. destruct o as [cps|]; constructor; [|constructor]. split; [exact Hk|]. apply str_value_ok, Ho. Qed.

Ltac key_check := split; [discriminate|split; [apply Forall_forall; intros x Hx; revert x Hx; apply Forall_forall; repeat constructor|reflexivity]].

Lemma opt_keys {A} key (f : A -> value) o : map fst (opt_entry key f o) = match o with Some _ => [bytes_of key] | None => [] end.
Proof. destruct o; reflexivity. Qed.

Lemma core_entries_ok s : settings_ok s -> entries_ok (core_entries s).
Proof.
  intros ((H1 & H2 & H3 & H4 & H5) & _). split; unfold core_entries.
  - repeat (apply Forall_app; split); first [eapply opt_int_ok; [key_check|reflexivity || discriminate|eassumption] | apply opt_str_ok; [key_check|assumption]].
  - rewrite !map_app, !opt_keys. destruct (s_maxSessions s), (s_sessionTickRate s), (s_dbPath s), (s_dataPath s), (s_logFile s);
      refine (bool_decide_eq_true_1 _ _); vm_compute; reflexivity.
Qed.

Lemma net_entries_ok s : settings_ok s -> entries_ok (net_entries s).
Proof.
  intros (_ & H1 & H2 & H3 & H4 & H5). split; unfold net_entries.
  - repeat (apply Forall_app; split); first [eapply opt_int_ok; [key_check| |eassumption]; discriminate | apply opt_str_ok; [key_check|assumption]].
  - rewrite !map_app, !opt_keys.
    destruct (s_gameserverBindIp s), (s_gameserverBindPort s), (s_dispatchBindIp s), (s_dispatchBindPort s), (s_kcpInterval s);
      refine (bool_decide_eq_true_1 _ _); vm_compute; reflexivity.
Qed.

Lemma config_doc_ok s : settings_ok s -> doc_ok (config_doc s).
Proof.
  intros Hs. split; [split; constructor|]. split; [|refine (bool_decide_eq_true_1 _ _); vm_compute; reflexivity].
  constructor; [|constructor; [|constructor]]; cbn [fst snd]; split; [key_check|apply core_entries_ok, Hs|key_check|apply net_entries_ok, Hs].
Qed.

(** ** Reading it *)

Lemma int_or_value w t key d o :
  toml_table_unparsed t (bytes_of key) = value_text <$> (int_value <$> o) -> 0 <= w <= 32 -> int_fits w o -> 0 <= d < 2 ^ w ->
  int_or w t key d = default d o.
Proof.
  intros Hu Hw Ho Hd. unfold int_or, toml_table_int. rewrite Hu. pose proof (Z.pow_le_mono_r 2 w 32 ltac:(lia) (proj2 Hw)).
  destruct o as [n|]; cbn [fmap option_fmap option_map mbind option_bind default] in *.
  - cbn in Ho. rewrite int_value_int by lia. apply wrap_id. exact Ho.
  - apply wrap_id. exact Hd.
Qed.

Lemma str_or_value t key d o :
  toml_table_unparsed t (bytes_of key) = value_text <$> (str_value <$> o) -> str_fits o -> str_or t key d = utf8_or d o.
Proof.
  intros Hu Ho. unfold str_or, str, toml_table_string. rewrite Hu.
  destruct o as [cps|]; cbn [fmap option_fmap option_map]; [|reflexivity]. unfold get_string. cbn [mbind option_bind].
  rewrite str_value_str, cstr_utf8 by exact Ho. reflexivity.
Qed.

Lemma core_unparsed s :
  let t := table_of (bytes_of "core", core_entries s) in
  toml_table_unparsed t (bytes_of "maxSessions") = value_text <$> (int_value <$> s_maxSessions s) /\
  toml_table_unparsed t (bytes_of "sessionTickRate") = value_text <$> (int_value <$> s_sessionTickRate s) /\
  toml_table_unparsed t (bytes_of "dbPath") = value_text <$> (str_value <$> s_dbPath s) /\
  toml_table_unparsed t (bytes_of "dataPath") = value_text <$> (str_value <$> s_dataPath s) /\
  toml_table_unparsed t (bytes_of "logFile") = value_text <$> (str_value <$> s_logFile s).
Proof.
  destruct s as [a b c d e ? ? ? ? ?]. unfold core_entries. cbn [s_maxSessions s_sessionTickRate s_dbPath s_dataPath s_logFile].
  destruct a, b, c, d, e; repeat split; reflexivity.
Qed.

Lemma net_unparsed s :
  let t := table_of (bytes_of "net", net_entries s) in
  toml_table_unparsed t (bytes_of "gameserverBindIp") = value_text <$> (str_value <$> s_gameserverBindIp s) /\
  toml_table_unparsed t (bytes_of "gameserverBindPort") = value_text <$> (int_value <$> s_gameserverBindPort s) /\
  toml_table_unparsed t (bytes_of "dispatchBindIp") = value_text <$> (str_value <$> s_dispatchBindIp s) /\
  toml_table_unparsed t (bytes_of "dispatchBindPort") = value_text <$> (int_value <$> s_dispatchBindPort s) /\
  toml_table_unparsed t (bytes_of "kcpInterval") = value_text <$> (int_value <$> s_kcpInterval s).
Proof.
  destruct s as [? ? ? ? ? a b c d e]. unfold net_entries.
  cbn [s_gameserverBindIp s_gameserverBindPort s_dispatchBindIp s_dispatchBindPort s_kcpInterval].
  destruct a, b, c, d, e; repeat split; reflexivity.
Qed.

Section load.
Context `{Strtod} `{Dirs}.

(** The configuration of some settings. *)
Definition configured (s : settings) : config_t :=
  mkConfig (utf8_or (bytes_of "::") (s_gameserverBindIp s)) (utf8_or (bytes_of "::") (s_dispatchBindIp s))
    (default 22102 (s_gameserverBindPort s)) (default 22100 (s_dispatchBindPort s)) (default 10 (s_maxSessions s))
    (default 100 (s_kcpInterval s)) (default 500 (s_sessionTickRate s)) (utf8_or (VARDIR ++ bytes_of "/db") (s_dbPath s))
    (utf8_or DATADIR (s_dataPath s)) (utf8_or (LOGDIR ++ bytes_of "/yagips.log") (s_logFile s)) [] None.

Lemma load_core_value s :
  settings_ok s -> load_core (Some (table_of (bytes_of "core", core_entries s))) =
    (default 10 (s_maxSessions s), default 500 (s_sessionTickRate s), utf8_or (VARDIR ++ bytes_of "/db") (s_dbPath s),
     utf8_or DATADIR (s_dataPath s), utf8_or (LOGDIR ++ bytes_of "/yagips.log") (s_logFile s)).
Proof.
  intros ((H1 & H2 & H3 & H4 & H5) & _). destruct (core_unparsed s) as (U1 & U2 & U3 & U4 & U5). unfold load_core.
  rewrite (int_or_value 32 _ _ _ _ U1), (int_or_value 32 _ _ _ _ U2) by (auto; lia).
  rewrite (str_or_value _ _ _ _ U3), (str_or_value _ _ _ _ U4), (str_or_value _ _ _ _ U5) by auto. reflexivity.
Qed.

Lemma load_net_value s :
  settings_ok s -> load_net (Some (table_of (bytes_of "net", net_entries s))) =
    (utf8_or (bytes_of "::") (s_gameserverBindIp s), default 22102 (s_gameserverBindPort s),
     utf8_or (bytes_of "::") (s_dispatchBindIp s), default 22100 (s_dispatchBindPort s), default 100 (s_kcpInterval s)).
Proof.
  intros (_ & H1 & H2 & H3 & H4 & H5). destruct (net_unparsed s) as (U1 & U2 & U3 & U4 & U5). unfold load_net.
  rewrite (int_or_value 16 _ _ _ _ U2), (int_or_value 16 _ _ _ _ U4), (int_or_value 32 _ _ _ _ U5) by (auto; lia).
  rewrite (str_or_value _ _ _ _ U1), (str_or_value _ _ _ _ U3) by auto. reflexivity.
Qed.

Lemma load_settings s :
  settings_ok s -> load_config (Some (tree_of [] [(bytes_of "core", core_entries s); (bytes_of "net", net_entries s)])) = configured s.
Proof.
  intros Hs. unfold load_config.
  change (toml_table_table (tree_of [] _) (bytes_of "core")) with (Some (table_of (bytes_of "core", core_entries s))).
  change (toml_table_table (tree_of [] _) (bytes_of "net")) with (Some (table_of (bytes_of "net", net_entries s))).
  change (toml_table_table (tree_of [] _) (bytes_of "dispatch")) with (@None toml_table).
  rewrite load_core_value, load_net_value by exact Hs. reflexivity.
Qed.

(** C9: Round trip: settings printed as a file and given to the constructor by
    name are the configuration that is loaded, whatever was loaded before; each
    setting that is left out has its default.  A string is loaded as its
    characters in UTF-8, up to the first U+0000 when it has one. *)
Theorem config_roundtrip s homePath fopen name rootConfig :
  settings_ok s -> fopen name = Some (print_doc (config_doc s)) ->
  fst (Config homePath fopen (Some name) rootConfig) = configured s.
Proof.
  intros Hs Hf. unfold Config. cbn [fst]. rewrite find_config_first. unfold candidates. change (option_list (Some name)) with [name]. cbn [app first_parsed].
  rewrite Hf. unfold config_doc. rewrite parse_printed by apply (config_doc_ok s Hs). apply load_settings, Hs.
Qed.

(** The file that is used is the first of the list that opens and parses;
    without a home directory the first of the system's files is not tried.
    When none parses the configuration is the defaults, unless none could be
    opened and an earlier one was loaded. *)
Theorem config_search homePath fopen path rootConfig :
  let '(config, root) := Config homePath fopen path rootConfig in
  root = first_parsed fopen (candidates homePath path) rootConfig /\ config = load_config root /\
  (root = None -> config = configured (mkSettings None None None None None None None None None None)).
Proof.
  unfold Config. rewrite find_config_first. split; [reflexivity|]. split; [reflexivity|]. intros ->. reflexivity.
Qed.
End load.

(** ** At work *)

Definition demo_settings : settings :=
  mkSettings (Some 64) None None (Some [47; 100]) None (Some [48; 46; 48]) (Some 65535) None None (Some 10).

Lemma demo_settings_ok : settings_ok demo_settings.
Proof.
  repeat split; cbn; try lia; repeat first [apply Forall_cons; split | apply Forall_nil]; split; lia.
Qed.

Definition demo_dirs : Dirs :=
  {| CONFDIR := bytes_of "/etc/yagips"; TOPCONFDIR := bytes_of "/etc"; VARDIR := bytes_of "/var"; DATADIR := bytes_of "/data"; LOGDIR := bytes_of "/log" |}.

Lemma config_roundtrip_witness :
  maxSessions (fst (@Config (TomlProps.no_float) demo_dirs None (fun _ => Some (print_doc (config_doc demo_settings))) (Some (bytes_of "c")) None)) = 64.
Proof.
  rewrite (@config_roundtrip _ demo_dirs demo_settings None _ (bytes_of "c") None demo_settings_ok eq_refl). reflexivity.
Defined.

Lemma config_search_witness :
  fst (@Config TomlProps.no_float demo_dirs None (fun _ => None) None None) =
  @configured demo_dirs (mkSettings None None None None None None None None None None).
Proof.
  pose proof (@config_search TomlProps.no_float demo_dirs None (fun _ => None) None None) as Hc.
  destruct (@Config TomlProps.no_float demo_dirs None (fun _ => None) None None) as [config root] eqn:E.
  apply (proj2 (proj2 Hc)). replace root with (snd (config, root)) by reflexivity. rewrite <- E. reflexivity.
Defined.

(** Only a value above 2 is kept. *)
Example send_stop_values : map (fun i => send_stop (Some i)) [0; 1; 2; 3] = [0; 0; 0; 3].
Proof. reflexivity. Qed.

(** An address that is a domain or not is not known when the key is missing. *)
Example domain_unknown :
  ri_is_domain (fst (@load_dispatch empty_table)) = None.
Proof. reflexivity. Qed.
