(* ===== verification/Bytes.v ===== *)
(** * Bytes under exclusive or

    The [^] of [unsigned char], which the key cipher, the packet encryption and
    the generators use, as a commutative group of exponent two; and proof by
    evaluation over the 256 bytes. *)

From S2P Require Import Prelude.
From AAC_tactics Require Import AAC.

Declare Scope xor_scope.
Delimit Scope xor_scope with xor.

(** [a ^ b] on [unsigned char]. *)
Definition bxor (a b : byte) : byte := zb (Z.lxor (bz a) (bz b)).

Notation "a ⊕ b" := (bxor a b) (at level 50, left associativity) : xor_scope.
#[local] Open Scope xor_scope.

(** ** Bytes under exclusive or *)

Lemma log2_in_u w a : 0 < w -> in_u w a -> Z.log2 a < w.
Proof.
  intros Hw Ha. unfold in_u in Ha. destruct (Z.eq_dec a 0) as [->|]; [cbn; lia|].
  apply Z.log2_lt_pow2; lia.
Qed.

Lemma lxor_in_u w a b : 0 < w -> in_u w a -> in_u w b -> in_u w (Z.lxor a b).
Proof.
  intros Hw Ha Hb. pose proof (log2_in_u w a Hw Ha). pose proof (log2_in_u w b Hw Hb).
  unfold in_u in *. assert (0 <= Z.lxor a b) by (apply Z.lxor_nonneg; lia). split; [assumption|].
  destruct (Z.eq_dec (Z.lxor a b) 0) as [->|Hn]; [apply Z.pow_pos_nonneg; lia|].
  apply Z.log2_lt_pow2; [lia|]. pose proof (Z.log2_lxor a b ltac:(lia) ltac:(lia)). lia.
Qed.

Lemma bz_bxor a b : bz (a ⊕ b) = Z.lxor (bz a) (bz b).
Proof.
  unfold bxor. rewrite bz_zb. apply wrap_id.
  apply lxor_in_u; [lia| |]; unfold in_u; zpow; apply bz_range.
Qed.

Ltac bxor_eq := apply bz_inj; rewrite ?bz_bxor.

#[export] Instance bxor_assoc : AAC.Associative eq bxor.
Proof. intros x y z. bxor_eq. rewrite Z.lxor_assoc. reflexivity. Qed.

#[export] Instance bxor_comm : AAC.Commutative eq bxor.
Proof. intros x y. bxor_eq. apply Z.lxor_comm. Qed.

#[export] Instance bxor_unit : AAC.Unit eq bxor Byte.x00.
Proof.
  split; intros x; bxor_eq; change (bz Byte.x00) with 0; [apply Z.lxor_0_l | apply Z.lxor_0_r].
Qed.

#[export] Instance bxor_proper : Proper (eq ==> eq ==> eq) bxor.
Proof. repeat intro; subst; reflexivity. Qed.

#[export] Instance bxor_lift : AAC.AAC_lift (@eq byte) (@eq byte).
Proof. split; [typeclasses eauto | repeat intro; subst; reflexivity]. Qed.

Lemma bxor_nilpotent x : x ⊕ x = Byte.x00.
Proof. bxor_eq. apply Z.lxor_nilpotent. Qed.

Lemma bxor_0_r x : x ⊕ Byte.x00 = x.
Proof. apply bxor_unit. Qed.

Lemma bxor_0_l x : Byte.x00 ⊕ x = x.
Proof. apply bxor_unit. Qed.

Lemma bxor_cancel x k : x ⊕ k ⊕ k = x.
Proof. rewrite <- (bxor_assoc x k k), bxor_nilpotent. apply bxor_0_r. Qed.

(** ** Decision over all bytes *)

Definition all_bytes : list byte := map zb (seqZ 0 256).

Lemma forall_byte (P : byte -> bool) : forallb P all_bytes = true -> forall b, P b = true.
Proof.
  intros H b. rewrite forallb_forall in H. apply H.
  unfold all_bytes. rewrite <- (zb_bz b). apply in_map. apply list_elem_of_In.
  apply elem_of_seqZ. pose proof (bz_range b). lia.
Qed.

(** An equation between two functions of a byte, by evaluation. *)
Lemma forall_byte_eq {A} `{EqDecision A} (f g : byte -> A) :
  forallb (fun b => bool_decide (f b = g b)) all_bytes = true -> forall b, f b = g b.
Proof. intros H b. apply (bool_decide_eq_true (f b = g b)). exact (forall_byte _ H b). Qed.

Ltac by_bytes b :=
  clear - b; revert b; apply forall_byte_eq; vm_compute; reflexivity.

(** ** Disjoint bits *)

Lemma lor_disjoint k x y : 0 <= k -> 0 <= y < 2 ^ k -> Z.lor (x * 2 ^ k) y = x * 2 ^ k + y.
Proof.
  intros Hk Hy. rewrite <- Z.shiftl_mul_pow2 by lia.
  assert (Z.land (Z.shiftl x k) y = 0) as H0.
  { apply Z.bits_inj'. intros i Hi. rewrite Z.land_spec, Z.bits_0.
    destruct (Z.ltb_spec i k).
    - rewrite Z.shiftl_spec_low by lia. reflexivity.
    - destruct (Z.eq_dec y 0) as [->|]; [rewrite Z.bits_0; apply andb_false_r|].
      rewrite (Z.bits_above_log2 y i); [apply andb_false_r|lia|].
      apply Z.lt_le_trans with k; [apply Z.log2_lt_pow2; lia|lia]. }
  rewrite <- Z.lxor_lor by exact H0. symmetry. apply Z.add_nocarry_lxor, H0.
Qed.
