(* ===== verification/AesSpec.v ===== *)
(** * The key cipher against FIPS 197

    A reference definition of the AES data path over the field of 256 elements
    (sections 4.2 and 5.1 of FIPS 197), on the same sixteen bytes, and its
    equality with [unscrambleKey] up to the file's round keys; hence the two
    transformations are AES-128 encryption and decryption under a fixed,
    whitened key expansion. *)

From AAC_tactics Require Import AAC.
From S2P Require Import Prelude Bytes Aes.

#[local] Open Scope xor_scope.

(** ** The key cipher: lemmas

    The bytes form a vector space under [bxor] on which the multiplication
    tables are linear; every round function has its inverse in the file; the
    reference data path of FIPS 197 and its equality with [unscrambleKey]'s
    round functions. *)

(** ** Linear tables

    A table whose every entry is the combination of the entries at the powers
    of two is additive: this is checked on 256 bytes, not on 65536 pairs. *)

Definition combine (c : nat -> byte) (b : byte) : byte :=
  foldr (fun i acc => (if Z.testbit (bz b) (Z.of_nat i) then c i else Byte.x00) ⊕ acc)
    Byte.x00 (seq 0 8).

Definition basis (t : list byte) (i : nat) : byte := tbl t (zb (2 ^ Z.of_nat i)).

Lemma combine_bxor c a b : combine c (a ⊕ b) = combine c a ⊕ combine c b.
Proof.
  unfold combine. induction (seq 0 8) as [|i l IH]; cbn [foldr]; [symmetry; apply bxor_0_r|].
  rewrite IH, bz_bxor, Z.lxor_spec.
  destruct (Z.testbit (bz a) (Z.of_nat i)), (Z.testbit (bz b) (Z.of_nat i)); cbn [xorb];
    try aac_reflexivity.
  rewrite <- (bxor_nilpotent (c i)). aac_reflexivity.
Qed.

Class Linear (f : byte -> byte) := linear a b : f (a ⊕ b) = f a ⊕ f b.

Lemma linear4 f `{!Linear f} a b c d : f (a ⊕ b ⊕ c ⊕ d) = f a ⊕ f b ⊕ f c ⊕ f d.
Proof. rewrite !(linear (f := f)). reflexivity. Qed.

Lemma tbl_linear t :
  forallb (fun b => bool_decide (tbl t b = combine (basis t) b)) all_bytes = true ->
  Linear (tbl t).
Proof. intros H a b. rewrite !(forall_byte_eq _ _ H). apply combine_bxor. Qed.

#[export] Instance mul2_linear : Linear (tbl mul2Tbl).
Proof. apply tbl_linear. vm_compute. reflexivity. Qed.
#[export] Instance mul3_linear : Linear (tbl mul3Tbl).
Proof. apply tbl_linear. vm_compute. reflexivity. Qed.
#[export] Instance mul9_linear : Linear (tbl mul9tbl).
Proof. apply tbl_linear. vm_compute. reflexivity. Qed.
#[export] Instance mulB_linear : Linear (tbl mulBtbl).
Proof. apply tbl_linear. vm_compute. reflexivity. Qed.
#[export] Instance mulD_linear : Linear (tbl mulDtbl).
Proof. apply tbl_linear. vm_compute. reflexivity. Qed.
#[export] Instance mulE_linear : Linear (tbl mulEtbl).
Proof. apply tbl_linear. vm_compute. reflexivity. Qed.

(** ** The substitution *)

Lemma sbox_sboxInv b : tbl sbox (tbl sboxInv b) = b.
Proof. by_bytes b. Qed.

Lemma sboxInv_sbox b : tbl sboxInv (tbl sbox b) = b.
Proof. by_bytes b. Qed.

(** ** The columns

    The product of the two matrices, entry by entry. *)

Section mix_matrix.
Variable a : byte.

Lemma mix_diag : tbl mulEtbl (tbl mul2Tbl a) ⊕ tbl mul9tbl (tbl mul3Tbl a) ⊕ tbl mulDtbl a ⊕ tbl mulBtbl a = a.
Proof. by_bytes a. Qed.

Lemma mix_off1 : tbl mulEtbl (tbl mul3Tbl a) ⊕ tbl mul9tbl a ⊕ tbl mulDtbl a ⊕ tbl mulBtbl (tbl mul2Tbl a) = Byte.x00.
Proof. by_bytes a. Qed.

Lemma mix_off2 : tbl mulEtbl a ⊕ tbl mul9tbl a ⊕ tbl mulDtbl (tbl mul2Tbl a) ⊕ tbl mulBtbl (tbl mul3Tbl a) = Byte.x00.
Proof. by_bytes a. Qed.

Lemma mix_off3 : tbl mulEtbl a ⊕ tbl mul9tbl (tbl mul2Tbl a) ⊕ tbl mulDtbl (tbl mul3Tbl a) ⊕ tbl mulBtbl a = Byte.x00.
Proof. by_bytes a. Qed.

Lemma unmix_diag : tbl mul2Tbl (tbl mulEtbl a) ⊕ tbl mul3Tbl (tbl mul9tbl a) ⊕ tbl mulDtbl a ⊕ tbl mulBtbl a = a.
Proof. by_bytes a. Qed.

Lemma unmix_off1 : tbl mul2Tbl (tbl mulBtbl a) ⊕ tbl mul3Tbl (tbl mulEtbl a) ⊕ tbl mul9tbl a ⊕ tbl mulDtbl a = Byte.x00.
Proof. by_bytes a. Qed.

Lemma unmix_off2 : tbl mul2Tbl (tbl mulDtbl a) ⊕ tbl mul3Tbl (tbl mulBtbl a) ⊕ tbl mulEtbl a ⊕ tbl mul9tbl a = Byte.x00.
Proof. by_bytes a. Qed.

Lemma unmix_off3 : tbl mul2Tbl (tbl mul9tbl a) ⊕ tbl mul3Tbl (tbl mulDtbl a) ⊕ tbl mulBtbl a ⊕ tbl mulEtbl a = Byte.x00.
Proof. by_bytes a. Qed.
End mix_matrix.

(** Four sums regrouped by position. *)
Lemma bxor_interchange a b c d : (a ⊕ b) ⊕ (c ⊕ d) = (a ⊕ c) ⊕ (b ⊕ d).
Proof. aac_reflexivity. Qed.

Lemma bxor_pair a b c d a' b' c' d' :
  (a ⊕ b ⊕ c ⊕ d) ⊕ (a' ⊕ b' ⊕ c' ⊕ d') = (a ⊕ a') ⊕ (b ⊕ b') ⊕ (c ⊕ c') ⊕ (d ⊕ d').
Proof.
  rewrite (bxor_interchange (a ⊕ b ⊕ c)), (bxor_interchange (a ⊕ b)), (bxor_interchange a).
  reflexivity.
Qed.

Lemma bxor_transpose a1 b1 c1 d1 a2 b2 c2 d2 a3 b3 c3 d3 a4 b4 c4 d4 :
  (a1 ⊕ b1 ⊕ c1 ⊕ d1) ⊕ (a2 ⊕ b2 ⊕ c2 ⊕ d2) ⊕ (a3 ⊕ b3 ⊕ c3 ⊕ d3) ⊕ (a4 ⊕ b4 ⊕ c4 ⊕ d4) =
  (a1 ⊕ a2 ⊕ a3 ⊕ a4) ⊕ (b1 ⊕ b2 ⊕ b3 ⊕ b4) ⊕ (c1 ⊕ c2 ⊕ c3 ⊕ c4) ⊕ (d1 ⊕ d2 ⊕ d3 ⊕ d4).
Proof.
  rewrite (bxor_pair a1 b1 c1 d1), (bxor_pair (a1 ⊕ a2)), (bxor_pair (a1 ⊕ a2 ⊕ a3)). reflexivity.
Qed.

(** Cyclic orders of the terms of a sum. *)
Lemma bxor_rot1 a b c d : a ⊕ b ⊕ c ⊕ d = d ⊕ a ⊕ b ⊕ c.
Proof. aac_reflexivity. Qed.

Lemma bxor_rot2 a b c d : a ⊕ b ⊕ c ⊕ d = c ⊕ d ⊕ a ⊕ b.
Proof. aac_reflexivity. Qed.

Lemma bxor_rot3 a b c d : a ⊕ b ⊕ c ⊕ d = b ⊕ c ⊕ d ⊕ a.
Proof. aac_reflexivity. Qed.

Lemma mix_row a b c d :
  tbl mulEtbl (tbl mul2Tbl a ⊕ tbl mul3Tbl b ⊕ c ⊕ d)
    ⊕ tbl mul9tbl (tbl mul2Tbl d ⊕ tbl mul3Tbl a ⊕ b ⊕ c)
    ⊕ tbl mulDtbl (tbl mul2Tbl c ⊕ tbl mul3Tbl d ⊕ a ⊕ b)
    ⊕ tbl mulBtbl (tbl mul2Tbl b ⊕ tbl mul3Tbl c ⊕ d ⊕ a) = a.
Proof.
  rewrite (linear4 (tbl mulEtbl)), (linear4 (tbl mul9tbl)), (linear4 (tbl mulDtbl)),
    (linear4 (tbl mulBtbl)).
  rewrite (bxor_rot3 (tbl mul9tbl (tbl mul2Tbl d))), (bxor_rot2 (tbl mulDtbl (tbl mul2Tbl c))),
    (bxor_rot1 (tbl mulBtbl (tbl mul2Tbl b))).
  rewrite bxor_transpose, mix_diag, mix_off1, mix_off2, mix_off3, !bxor_0_r. reflexivity.
Qed.

Lemma unmix_row a b c d :
  tbl mul2Tbl (tbl mulEtbl a ⊕ tbl mul9tbl d ⊕ tbl mulDtbl c ⊕ tbl mulBtbl b)
    ⊕ tbl mul3Tbl (tbl mulEtbl b ⊕ tbl mul9tbl a ⊕ tbl mulDtbl d ⊕ tbl mulBtbl c)
    ⊕ (tbl mulEtbl c ⊕ tbl mul9tbl b ⊕ tbl mulDtbl a ⊕ tbl mulBtbl d)
    ⊕ (tbl mulEtbl d ⊕ tbl mul9tbl c ⊕ tbl mulDtbl b ⊕ tbl mulBtbl a) = a.
Proof.
  rewrite (linear4 (tbl mul2Tbl)), (linear4 (tbl mul3Tbl)).
  rewrite (bxor_rot3 (tbl mul3Tbl (tbl mulEtbl b))), (bxor_rot2 (tbl mulEtbl c)),
    (bxor_rot1 (tbl mulEtbl d)).
  rewrite bxor_transpose, unmix_diag, unmix_off3, unmix_off2, unmix_off1, !bxor_0_r. reflexivity.
Qed.

(** ** Sixteen bytes *)

Ltac split16 l :=
  do 16 (destruct l as [|? l]; [discriminate|]); destruct l; [|discriminate].

Definition block (k : list byte) : Prop := length k = 16%nat.

Lemma block_xor a b : block a -> block b -> block (xorRoundKey a b).
Proof. unfold block, xorRoundKey. intros Ha Hb. rewrite length_zip_with. lia. Qed.

Lemma block_sub k : block k -> block (subBytes k).
Proof. unfold block, subBytes. rewrite length_map. auto. Qed.

Lemma block_subInv k : block k -> block (subBytesInv k).
Proof. unfold block, subBytesInv. rewrite length_map. auto. Qed.

Lemma block_shift k : block (shiftRows k).
Proof. reflexivity. Qed.

Lemma block_shiftInv k : block (shiftRowsInv k).
Proof. reflexivity. Qed.

Lemma block_mix k : block k -> block (mixCols k).
Proof. unfold block. intros H. split16 k. reflexivity. Qed.

Lemma block_mixInv k : block k -> block (mixColsInv k).
Proof. unfold block. intros H. split16 k. reflexivity. Qed.

Lemma block_round_key i : (i <= 10)%nat -> block (round_key i).
Proof. intros H. do 11 (destruct i as [|i]; [reflexivity|]). lia. Qed.

Lemma block_pad : block keyXorpad.
Proof. reflexivity. Qed.

Create HintDb aes.
Create Rewrite HintDb aes.
#[export] Hint Resolve block_xor block_sub block_subInv block_shift block_shiftInv block_mix
  block_mixInv block_pad : aes.
#[export] Hint Extern 2 (block (round_key _)) => apply block_round_key; lia : aes.

Lemma xor_cancel k r : block k -> block r -> xorRoundKey (xorRoundKey k r) r = k.
Proof.
  unfold block, xorRoundKey. intros Hk Hr. assert (length k = length r) as H by lia. clear Hk Hr.
  revert r H. induction k as [|a k IH]; intros [|b r] H; try discriminate H; [reflexivity|].
  cbn [zip_with]. rewrite bxor_cancel, IH by (injection H; auto). reflexivity.
Qed.

Lemma sub_cancel k : subBytes (subBytesInv k) = k.
Proof.
  unfold subBytes, subBytesInv. rewrite map_map.
  rewrite (map_ext _ (fun b => b) sbox_sboxInv). apply map_id.
Qed.

Lemma subInv_cancel k : subBytesInv (subBytes k) = k.
Proof.
  unfold subBytes, subBytesInv. rewrite map_map.
  rewrite (map_ext _ (fun b => b) sboxInv_sbox). apply map_id.
Qed.

Lemma shift_cancel k : block k -> shiftRows (shiftRowsInv k) = k.
Proof. unfold block. intros H. split16 k. reflexivity. Qed.

Lemma shiftInv_cancel k : block k -> shiftRowsInv (shiftRows k) = k.
Proof. unfold block. intros H. split16 k. reflexivity. Qed.

(** Four columns of four bytes. *)
Definition col (c : list byte) : Prop := length c = 4%nat.

Ltac split4 c := do 4 (destruct c as [|? c]; [discriminate|]); destruct c; [|discriminate].

Lemma col_mix c : col c -> col (mixCol c).
Proof. unfold col. intros H. split4 c. reflexivity. Qed.

Lemma col_mixInv c : col c -> col (mixColInv c).
Proof. unfold col. intros H. split4 c. reflexivity. Qed.

Lemma mixCol_cancel c : col c -> mixCol (mixColInv c) = c.
Proof. unfold col. intros H. split4 c. cbn [mixCol mixColInv]. rewrite !mix_row. reflexivity. Qed.

Lemma mixColInv_cancel c : col c -> mixColInv (mixCol c) = c.
Proof. unfold col. intros H. split4 c. cbn [mixCol mixColInv]. rewrite !unmix_row. reflexivity. Qed.

Lemma columns_concat cs :
  length cs = 4%nat -> Forall col cs -> columns (concat cs) = cs /\ block (concat cs).
Proof.
  intros H HF. split4 cs. rewrite !Forall_cons in HF. destruct HF as (H0 & H1 & H2 & H3 & _).
  unfold col in *. split4 l. split4 l0. split4 l1. split4 l2. split; reflexivity.
Qed.

Lemma block_columns k : block k -> k = concat (columns k) /\ Forall col (columns k).
Proof. unfold block. intros H. split16 k. split; [reflexivity|]. repeat constructor. Qed.

(** A function applied to each column, and its inverse. *)
Lemma on_columns (f g : list byte -> list byte) k :
  (forall c, col c -> col (g c)) -> (forall c, col c -> f (g c) = c) ->
  block k -> concat (map f (columns (concat (map g (columns k))))) = k.
Proof.
  intros Hg Hfg Hk. destruct (block_columns k Hk) as [Ek HF].
  assert (Forall col (map g (columns k))) as HG.
  { rewrite Forall_fmap. eapply Forall_impl; [exact HF|]. exact Hg. }
  destruct (columns_concat (map g (columns k))) as [-> _]; [reflexivity|exact HG|].
  rewrite map_map. rewrite Ek at 2. f_equal. rewrite <- (map_id (columns k)) at 2.
  apply map_ext_in. intros c Hc. apply Hfg. rewrite Forall_forall in HF.
  apply HF. apply list_elem_of_In. exact Hc.
Qed.

Lemma mix_cancel k : block k -> mixCols (mixColsInv k) = k.
Proof. apply on_columns; auto using col_mixInv, mixCol_cancel. Qed.

Lemma mixInv_cancel k : block k -> mixColsInv (mixCols k) = k.
Proof. apply on_columns; auto using col_mix, mixColInv_cancel. Qed.

#[export] Hint Rewrite xor_cancel sub_cancel subInv_cancel shift_cancel shiftInv_cancel mix_cancel
  mixInv_cancel using auto 60 with aes : aes.

Lemma block_scramble k : block k -> block (scrambleKey k).
Proof. intros H. unfold scrambleKey. cbn [scramble_rounds]. auto 60 with aes. Qed.

Lemma block_unscramble k : block k -> block (unscrambleKey k).
Proof. intros H. unfold unscrambleKey. cbn [unscramble_rounds]. auto 60 with aes. Qed.

Lemma scramble_unscramble k : block k -> scrambleKey (unscrambleKey k) = k.
Proof.
  intros H. unfold scrambleKey, unscrambleKey. cbn [scramble_rounds unscramble_rounds Nat.sub].
  autorewrite with aes. reflexivity.
Qed.

Lemma unscramble_scramble k : block k -> unscrambleKey (scrambleKey k) = k.
Proof.
  intros H. unfold scrambleKey, unscrambleKey. cbn [scramble_rounds unscramble_rounds Nat.sub].
  autorewrite with aes. reflexivity.
Qed.

(** ** The field

    Bytes are polynomials over the two-element field modulo
    x^8 + x^4 + x^3 + x + 1. *)

Definition xtime (a : Z) : Z :=
  let d := Z.shiftl a 1 in if Z.testbit d 8 then Z.lxor d 0x11b else d.

Fixpoint gmul_bits (n : nat) (a b : Z) : Z :=
  match n with
  | O => 0
  | S n => Z.lxor (if Z.testbit b 0 then a else 0) (gmul_bits n (xtime a) (Z.shiftr b 1))
  end.

Definition gmul (a b : byte) : byte := zb (gmul_bits 8 (bz a) (bz b)).

(** The affine part of the S-box: bit [i] is the sum of bits [i], [i+4],
    [i+5], [i+6] and [i+7] (modulo 8), plus bit [i] of 0x63. *)
Definition affine (b : byte) : byte :=
  let bit i := Z.testbit (bz b) (i mod 8) in
  zb (foldr (fun i acc =>
        acc + if xorb (bit i) (xorb (bit (i + 4)) (xorb (bit (i + 5)) (xorb (bit (i + 6))
                (xorb (bit (i + 7)) (Z.testbit 0x63 i))))) then 2 ^ i else 0)
      0 (seqZ 0 8)).

(** The multiplicative inverse as the 254th power; 0 goes to 0. *)
Definition ginv (b : byte) : byte :=
  let b2 := gmul b b in
  let b3 := gmul b2 b in
  let b12 := gmul (gmul b3 b3) (gmul b3 b3) in
  let b15 := gmul b12 b3 in
  let b30 := gmul b15 b15 in
  let b60 := gmul b30 b30 in
  let b120 := gmul b60 b60 in
  let b240 := gmul b120 b120 in
  gmul (gmul b240 b12) b2.

Definition SubByte (b : byte) : byte := affine (ginv b).

(** ** The round functions

    [s] is the state by columns: row [r], column [c] is byte [r + 4 c]. *)

Definition at_rc (s : list byte) (r c : nat) : byte := nth (r + 4 * c) s Byte.x00.

Definition by_rc (f : nat -> nat -> byte) : list byte :=
  map (fun i => f (i mod 4)%nat (i / 4)%nat) (seq 0 16).

Definition SubBytes (s : list byte) : list byte := by_rc (fun r c => SubByte (at_rc s r c)).

Definition ShiftRows (s : list byte) : list byte :=
  by_rc (fun r c => at_rc s r ((c + r) mod 4)%nat).

(** The circulant matrix of {03}x^3 + {01}x^2 + {01}x + {02}. *)
Definition mix_coeff (r j : nat) : byte :=
  nth ((j + 4 - r) mod 4)%nat [Byte.x02; Byte.x03; Byte.x01; Byte.x01] Byte.x00.

Definition MixColumns (s : list byte) : list byte :=
  by_rc (fun r c =>
    foldr (fun j acc => gmul (mix_coeff r j) (at_rc s j c) ⊕ acc) Byte.x00 (seq 0 4)).

Definition AddRoundKey (s rk : list byte) : list byte :=
  by_rc (fun r c => at_rc s r c ⊕ at_rc rk r c).

Fixpoint rounds (s : list byte) (rks : list (list byte)) : list byte :=
  match rks with
  | [] => s
  | [last] => AddRoundKey (ShiftRows (SubBytes s)) last
  | rk :: rks => rounds (AddRoundKey (MixColumns (ShiftRows (SubBytes s))) rk) rks
  end.

(** Section 5.1: eleven round keys, the last round without MixColumns. *)
Definition Cipher (s : list byte) (w : list (list byte)) : list byte :=
  match w with
  | [] => s
  | rk :: rks => rounds (AddRoundKey s rk) rks
  end.
(** The round keys of the file in encryption order; the inner ones are kept
    there in the form for the equivalent inverse cipher. *)
Definition cipher_keys : list (list byte) :=
  xorRoundKey keyXorpad (round_key 10)
    :: map (fun i => MixColumns (round_key (10 - i))) (seq 1 9) ++ [round_key 0].

(** ** Agreement *)

Lemma gmul2 b : gmul Byte.x02 b = tbl mul2Tbl b.
Proof. by_bytes b. Qed.

Lemma gmul3 b : gmul Byte.x03 b = tbl mul3Tbl b.
Proof. by_bytes b. Qed.

Lemma gmul1 b : gmul Byte.x01 b = b.
Proof. by_bytes b. Qed.

Lemma gmul9 b : gmul Byte.x09 b = tbl mul9tbl b.
Proof. by_bytes b. Qed.

Lemma gmulB b : gmul Byte.x0b b = tbl mulBtbl b.
Proof. by_bytes b. Qed.

Lemma gmulD b : gmul Byte.x0d b = tbl mulDtbl b.
Proof. by_bytes b. Qed.

Lemma gmulE b : gmul Byte.x0e b = tbl mulEtbl b.
Proof. by_bytes b. Qed.

Lemma ginv_correct b : b <> Byte.x00 -> gmul b (ginv b) = Byte.x01.
Proof.
  intros Hb. enough (gmul b (ginv b) = if decide (b = Byte.x00) then Byte.x00 else Byte.x01) as ->.
  { destruct (decide _); [contradiction|reflexivity]. }
  clear Hb. by_bytes b.
Qed.

Lemma SubByte_sboxInv b : SubByte b = tbl sboxInv b.
Proof. by_bytes b. Qed.

Lemma SubBytes_eq s : block s -> SubBytes s = subBytesInv s.
Proof.
  unfold block. intros H. split16 s. unfold SubBytes, by_rc, subBytesInv.
  rewrite (map_ext (tbl sboxInv) SubByte) by (intros; symmetry; apply SubByte_sboxInv).
  reflexivity.
Qed.

Lemma ShiftRows_eq : ShiftRows = shiftRowsInv.
Proof. reflexivity. Qed.

Lemma AddRoundKey_eq s k : block s -> block k -> AddRoundKey s k = xorRoundKey s k.
Proof. unfold block. intros H Hk. split16 s. split16 k. reflexivity. Qed.

(** A row of the matrix product, up to the order of its terms. *)
Lemma bxor_row a b c d :
  a ⊕ (b ⊕ (c ⊕ d)) = a ⊕ b ⊕ c ⊕ d /\ a ⊕ (b ⊕ (c ⊕ d)) = b ⊕ c ⊕ d ⊕ a /\
  a ⊕ (b ⊕ (c ⊕ d)) = c ⊕ d ⊕ a ⊕ b /\ a ⊕ (b ⊕ (c ⊕ d)) = d ⊕ a ⊕ b ⊕ c.
Proof.
  assert (a ⊕ (b ⊕ (c ⊕ d)) = a ⊕ b ⊕ c ⊕ d) as -> by (rewrite !bxor_assoc; reflexivity).
  rewrite <- bxor_rot3, <- bxor_rot2, <- bxor_rot1. auto.
Qed.

Lemma MixColumns_eq s : block s -> MixColumns s = mixColsInv s.
Proof.
  unfold block. intros H. split16 s. cbv -[gmul bxor tbl mul2Tbl mul3Tbl].
  rewrite ?gmul1, ?gmul2, ?gmul3, ?bxor_0_r.
  repeat (apply (f_equal2 cons); [apply bxor_row|]). reflexivity.
Qed.

(** The mixing of columns is additive. *)
Lemma mixColInv_xor a b c d a' b' c' d' :
  mixColInv [a ⊕ a'; b ⊕ b'; c ⊕ c'; d ⊕ d'] =
  zip_with bxor (mixColInv [a; b; c; d]) (mixColInv [a'; b'; c'; d']).
Proof.
  cbn [zip_with mixColInv].
  rewrite ?(linear (f := tbl mul2Tbl)), ?(linear (f := tbl mul3Tbl)), !bxor_pair. reflexivity.
Qed.

Lemma mixColsInv_xor s k :
  block s -> block k -> mixColsInv (xorRoundKey s k) = xorRoundKey (mixColsInv s) (mixColsInv k).
Proof.
  unfold block. intros H Hk. split16 s. split16 k. unfold mixColsInv, xorRoundKey, columns.
  cbn [seq map take drop Nat.mul Nat.add zip_with]. rewrite !mixColInv_xor. reflexivity.
Qed.

(** Substitution and permutation commute. *)
Lemma sub_shift s : block s -> subBytesInv (shiftRowsInv s) = shiftRowsInv (subBytesInv s).
Proof. unfold block. intros H. split16 s. reflexivity. Qed.

Lemma xor_assoc s a b : xorRoundKey (xorRoundKey s a) b = xorRoundKey s (xorRoundKey a b).
Proof.
  unfold xorRoundKey. revert a b. induction s as [|x s IH]; intros [|y a] [|z b]; cbn [zip_with]; auto.
  rewrite IH, (bxor_assoc x y z). reflexivity.
Qed.

Lemma block_by_rc f : block (by_rc f).
Proof. reflexivity. Qed.

#[export] Hint Extern 1 (block (SubBytes _)) => apply block_by_rc : aes.
#[export] Hint Extern 1 (block (ShiftRows _)) => apply block_by_rc : aes.
#[export] Hint Extern 1 (block (MixColumns _)) => apply block_by_rc : aes.
#[export] Hint Extern 1 (block (AddRoundKey _ _)) => apply block_by_rc : aes.

Create Rewrite HintDb fips.
#[export] Hint Rewrite SubBytes_eq MixColumns_eq AddRoundKey_eq
  using auto 60 with aes : fips.

Lemma block_pad10 : block (xorRoundKey keyXorpad (round_key 10)).
Proof. reflexivity. Qed.
#[export] Hint Resolve block_pad10 : aes.

Lemma unscramble_cipher k : block k -> unscrambleKey k = Cipher k cipher_keys.
Proof.
  intros H. unfold unscrambleKey, Cipher, cipher_keys.
  cbn [seq map app rounds unscramble_rounds Nat.sub]. rewrite xor_assoc, ShiftRows_eq.
  autorewrite with fips.
  rewrite !mixColsInv_xor, !sub_shift by auto 60 with aes. reflexivity.
Qed.

(** ** Properties *)

(** C31: [unscrambleKey] is AES-128 encryption as FIPS 197 defines it (S-box
    from the field inverse and the affine map, ShiftRows, MixColumns over the
    field, eleven round keys of which the inner ones are the file's through
    MixColumns and the first is whitened with [keyXorpad]), and [scrambleKey]
    is the decryption: each undoes the other on every 16-byte key. *)
Theorem key_cipher_is_aes k :
  length k = 16%nat ->
  unscrambleKey k = Cipher k cipher_keys /\
  scrambleKey (Cipher k cipher_keys) = k /\
  Cipher (scrambleKey k) cipher_keys = k /\
  length (scrambleKey k) = 16%nat /\ length (unscrambleKey k) = 16%nat.
Proof.
  intros H. change (block k) in H. rewrite <- !unscramble_cipher by auto using block_scramble.
  auto 10 using scramble_unscramble, unscramble_scramble, block_scramble, block_unscramble.
Qed.

(** A key written out, there and back. *)
Lemma key_cipher_is_aes_witness :
  let k := replicate 16 Byte.x2a in
  unscrambleKey k = Cipher k cipher_keys /\ scrambleKey (Cipher k cipher_keys) = k.
Proof.
  assert (length (replicate 16 Byte.x2a) = 16%nat) as H by reflexivity.
  destruct (key_cipher_is_aes _ H) as (H1 & H2 & _). split; assumption.
Defined.

(** Every table of the cipher is the arithmetic it stands for: the six
    multiplication tables are products in the field by 02, 03, 09, 0b, 0d and
    0e, [sboxInv] is the FIPS 197 S-box, [sbox] its inverse, and [shiftTbl] and
    [shiftTblInv] are inverse permutations. *)
Theorem aes_tables_exact b :
  tbl mul2Tbl b = gmul Byte.x02 b /\ tbl mul3Tbl b = gmul Byte.x03 b /\
  tbl mul9tbl b = gmul Byte.x09 b /\ tbl mulBtbl b = gmul Byte.x0b b /\
  tbl mulDtbl b = gmul Byte.x0d b /\ tbl mulEtbl b = gmul Byte.x0e b /\
  tbl sboxInv b = affine (ginv b) /\
  (if decide (b = Byte.x00) then ginv b = Byte.x00 else gmul b (ginv b) = Byte.x01) /\
  tbl sbox (tbl sboxInv b) = b /\ tbl sboxInv (tbl sbox b) = b /\
  map (fun i => nth i shiftTbl 0%nat) shiftTblInv = seq 0 16.
Proof.
  rewrite gmul2, gmul3, gmul9, gmulB, gmulD, gmulE, sbox_sboxInv, sboxInv_sbox.
  rewrite <- SubByte_sboxInv. repeat split.
  destruct (decide (b = Byte.x00)) as [->|Hb]; [reflexivity|]. apply ginv_correct, Hb.
Qed.
