(* ===== verification/Util.v ===== *)
(** * Text encodings and the xoshiro generator

    src/util.cpp: base64 and hexadecimal encoding and decoding of byte
    strings, and [rand_xoshiro256].  Each of the four functions reads the
    string in order with an [unsigned int] index, and stops after as many
    characters as it has; [indexed] is what it reads.  The decoders have
    labels [idx0] to [idx3]; the number of characters left ([isz]) is the
    length of the rest, so a label with the bits carried in [e] is the state of
    a scan. *)

From S2P Require Import Prelude.

(** ** The index

    [unsigned int i] (with [i + 1] and so on, which are [unsigned int] too) over
    [size_t isz] characters: the character read as number [n] is [in[n mod 2^32]].
    Up to 4 GiB these are the characters of the string. *)
Definition indexed (s : list byte) : list byte :=
  if zlen s <=? 2 ^ 32 then s
  else map (fun n => nth (Z.to_nat (u32 n)) s Byte.x00) (seqZ 0 (zlen s)).

(** ** b64enc *)

Definition b64tbl : list byte := map zb [
    65; 66; 67; 68; 69; 70; 71; 72; 73; 74; 75; 76; 77; 78; 79; 80;
    81; 82; 83; 84; 85; 86; 87; 88; 89; 90; 97; 98; 99; 100; 101; 102;
    103; 104; 105; 106; 107; 108; 109; 110; 111; 112; 113; 114; 115; 116; 117; 118;
    119; 120; 121; 122; 48; 49; 50; 51; 52; 53; 54; 55; 56; 57; 43; 47].

(** [b64tbl[t]] after [t &= 0x3f]. *)
Definition b64char (t : Z) : byte := nth (Z.to_nat (Z.land t 0x3f)) b64tbl Byte.x00.

Definition b64pad : byte := Byte.x3d.

(** The four values of [t]; a [char] is signed and promoted to [int], whose
    bits are those of the [unsigned int] it is stored in. *)
Definition enc0 (a : byte) : Z := Z.shiftr (sbz a) 2.
Definition enc1 (a : byte) (b : option byte) : Z :=
  let t := u32 (Z.shiftl (sbz a) 4) in
  match b with Some b => Z.lor t (u32 (Z.shiftr (sbz b) 4)) | None => t end.
Definition enc2 (b : byte) (c : option byte) : Z :=
  let t := u32 (Z.shiftl (sbz b) 2) in
  match c with Some c => Z.lor t (u32 (Z.shiftr (sbz c) 6)) | None => t end.
Definition enc3 (c : byte) : Z := sbz c.

(** [while (isz > 0)]: a round consumes one, two or three characters. *)
Fixpoint b64enc_loop (s : list byte) : list byte :=
  match s with
  | [] => []
  | [a] => [b64char (enc0 a); b64char (enc1 a None); b64pad; b64pad]
  | [a; b] => [b64char (enc0 a); b64char (enc1 a (Some b)); b64char (enc2 b None); b64pad]
  | a :: b :: c :: s =>
      b64char (enc0 a) :: b64char (enc1 a (Some b)) :: b64char (enc2 b (Some c))
        :: b64char (enc3 c) :: b64enc_loop s
  end.

Definition b64enc (s : list byte) : list byte := b64enc_loop (indexed s).

(** ** b64dec *)

Definition b64itbl : list Z := [
    -1; -1; -1; -1; -1; -1; -1; -1; -1; -1; -1; -1; -1; -1; -1; -1;
    -1; -1; -1; -1; -1; -1; -1; -1; -1; -1; -1; -1; -1; -1; -1; -1;
    -1; -1; -1; -1; -1; -1; -1; -1; -1; -1; -1; 62; -1; -1; -1; 63;
    52; 53; 54; 55; 56; 57; 58; 59; 60; 61; -1; -1; -1; -1; -1; -1;
    -1;  0;  1;  2;  3;  4;  5;  6;  7;  8;  9; 10; 11; 12; 13; 14;
    15; 16; 17; 18; 19; 20; 21; 22; 23; 24; 25; -1; -1; -1; -1; -1;
    -1; 26; 27; 28; 29; 30; 31; 32; 33; 34; 35; 36; 37; 38; 39; 40;
    41; 42; 43; 44; 45; 46; 47; 48; 49; 50; 51; -1; -1; -1; -1; -1].

Inductive b64label := idx0 | idx1 | idx2 | idx3.

(** What a label does with a character. *)
Inductive b64class := skip_high | overread | skip_other | digit (v : Z).

Definition b64classify (c : byte) : b64class :=
  let t := bz c in
  if 128 <? t then skip_high
  else match b64itbl !! Z.to_nat t with
       | None => overread
       | Some v => if v =? -1 then skip_other else digit (Z.land v 0x3f)
       end.

(** [e] is the value of the variable [e]; [None]: a read outside the table, or
    a character skipped at [idx1], where the test for the end is missing, that
    was the last one: the count goes below zero, and the loop reads past the end
    of the string (or, where the index wraps before, adds some 2^64 more
    characters). *)
Fixpoint b64scan (l : b64label) (e : Z) (s : list byte) : option (list byte) :=
  match s with
  | [] => Some []
  | c :: s =>
      match b64classify c with
      | overread => None
      | skip_high => b64scan l e s
      | skip_other =>
          match l, s with
          | idx1, [] => None
          | _, _ => b64scan l e s
          end
      | digit v =>
          match l with
          | idx0 =>
              let e := u8 (Z.shiftl v 2) in
              if decide (s = []) then Some [zb e] else b64scan idx1 e s
          | idx1 =>
              let out := zb (Z.lor e (Z.shiftr v 4)) in
              let e := u8 (Z.shiftl v 4) in
              if decide (s = []) then Some [out; zb e] else cons out <$> b64scan idx2 e s
          | idx2 =>
              let out := zb (Z.lor e (Z.shiftr v 2)) in
              let e := u8 (Z.shiftl v 6) in
              if decide (s = []) then Some [out; zb e] else cons out <$> b64scan idx3 e s
          | idx3 => cons (zb (Z.lor e v)) <$> b64scan idx0 0 s
          end
      end
  end.

Definition b64dec (s : list byte) : option (list byte) := b64scan idx0 0 (indexed s).

(** ** hexenc, hexdec *)

Definition hexdigit (t : Z) : byte := if 57 <? t + 48 then zb (t - 10 + 97) else zb (t + 48).

Definition hexenc_loop (s : list byte) : list byte :=
  flat_map (fun c =>
    [hexdigit (Z.land (Z.shiftr (sbz c) 4) 0xf); hexdigit (Z.land (sbz c) 0xf)]) s.

Definition hexenc (s : list byte) : list byte := hexenc_loop (indexed s).

(** The digit of a character, by the tests in their order; [None]: skipped. *)
Definition hexvalue (c : byte) : option Z :=
  let t := bz c in
  if (t <? 48) || (102 <? t) then None
  else
    let t := if 97 <=? t then t - 0x20 else t in
    if 70 <? t then None
    else
      let t := if 57 <? t then t - 7 else t in
      let t := t - 48 in
      if 16 <? t then None else Some t.

(** [hi]: the digit read at [idx0] when the scan is at [idx1]. *)
Fixpoint hexscan (hi : option Z) (s : list byte) : list byte :=
  match s with
  | [] => []
  | c :: s =>
      match hexvalue c with
      | None => hexscan hi s
      | Some t =>
          match hi with
          | None =>
              let e := u8 (Z.shiftl t 4) in
              if decide (s = []) then [zb e] else hexscan (Some e) s
          | Some e => zb (Z.lor e t) :: hexscan None s
          end
      end
  end.

Definition hexdec (s : list byte) : list byte := hexscan None (indexed s).

(** ** rand_xoshiro256 *)

Record xoshiro := mkXo { xs0 : Z; xs1 : Z; xs2 : Z; xs3 : Z }.

Definition rotl (x k : Z) : Z := Z.lor (u64 (Z.shiftl x k)) (Z.shiftr x (64 - k)).

(** [None]: the assertion that the state is not zero fails. *)
Definition rand_xoshiro256 (s : xoshiro) : option (Z * xoshiro) :=
  if Z.lor (Z.lor (Z.lor (xs0 s) (xs1 s)) (xs2 s)) (xs3 s) =? 0 then None
  else
    let result := u64 (rotl (u64 (xs0 s + xs3 s)) 23 + xs0 s) in
    let t := u64 (Z.shiftl (xs1 s) 17) in
    let s2 := Z.lxor (xs2 s) (xs0 s) in
    let s3 := Z.lxor (xs3 s) (xs1 s) in
    let s1 := Z.lxor (xs1 s) s2 in
    let s0 := Z.lxor (xs0 s) s3 in
    let s2 := Z.lxor s2 t in
    let s3 := rotl s3 45 in
    Some (result, mkXo s0 s1 s2 s3).
