(* ===== verification/UtilProps.v ===== *)
(** * Text encodings and xoshiro: theorems *)

From S2P Require Import Prelude Bytes Mt64Props Util.

(** ** The index *)

Lemma indexed_short s : zlen s <= 2 ^ 32 -> indexed s = s.
Proof. intros H. unfold indexed. rewrite (proj2 (Z.leb_le _ _) H). reflexivity. Qed.

Lemma indexed_length s : length (indexed s) = length s.
Proof. unfold indexed. destruct (_ <=? _); [reflexivity|]. rewrite length_map, length_seqZ. lia. Qed.

Lemma indexed_again s : zlen s <= 2 ^ 32 -> indexed (indexed s) = indexed s.
Proof. intros H. apply indexed_short. rewrite indexed_length. exact H. Qed.

Lemma indexed_first c s : exists l, indexed (c :: s) = c :: l.
Proof.
  unfold indexed. destruct (_ <=? _); [eauto|]. rewrite seqZ_cons by (cbn; lia). eexists. cbn [map]. f_equal.
Qed.

(** Only the first 4 GiB are ever read. *)
Lemma indexed_window P s :
  2 ^ 32 < zlen s -> (forall i, (i < Z.to_nat (2 ^ 32))%nat -> P (nth i s Byte.x00)) -> Forall P (indexed s).
Proof.
  intros Hs HP. unfold indexed. rewrite (proj2 (Z.leb_gt _ _) Hs). apply Forall_forall. intros c Hc.
  apply list_elem_of_fmap in Hc as (n & -> & _). apply HP. pose proof (Z.mod_pos_bound n (2 ^ 32) ltac:(lia)). unfold wrap. lia.
Qed.

(** ** Base64 against RFC 4648

    The reference splits a group of three bytes, padded with zero bits, into
    four numbers below 64. *)

Definition sextets (a b c : Z) : list Z :=
  [a / 4; (a mod 4) * 16 + b / 16; (b mod 16) * 4 + c / 64; c mod 64].

Definition b64digits (l : list Z) : list byte := map (fun d => nth (Z.to_nat d) b64tbl Byte.x00) l.

Fixpoint base64 (s : list byte) : list byte :=
  match s with
  | [] => []
  | [a] => b64digits (take 2 (sextets (bz a) 0 0)) ++ [b64pad; b64pad]
  | [a; b] => b64digits (take 3 (sextets (bz a) (bz b) 0)) ++ [b64pad]
  | a :: b :: c :: s => b64digits (sextets (bz a) (bz b) (bz c)) ++ base64 s
  end.

Definition triples_ind (P : list byte -> Prop) (H0 : P []) (H1 : forall a, P [a])
    (H2 : forall a b, P [a; b]) (H3 : forall a b c s, P s -> P (a :: b :: c :: s)) :
    forall s, P s :=
  fix go s := match s with
    | [] => H0 | [a] => H1 a | [a; b] => H2 a b | a :: b :: c :: s => H3 a b c s (go s)
    end.

(** *** The encoder, where it is right *)

(** A byte whose [char] is not negative. *)
Definition ascii (b : byte) : Prop := bz b < 128.

Lemma enc0_ref a : Z.land (enc0 a) 0x3f = bz a / 4.
Proof. by_bytes a. Qed.

Lemma land_hi1 a : Z.land (u32 (Z.shiftl (sbz a) 4)) 0x3f = (bz a mod 4) * 16.
Proof. by_bytes a. Qed.

Lemma land_hi2 a : Z.land (u32 (Z.shiftl (sbz a) 2)) 0x3f = (bz a mod 16) * 4.
Proof. by_bytes a. Qed.

(** The low bits of the next character; a sign would fill the bits above. *)
Lemma low_bits (b : byte) (n : Z) (d : byte -> Z) :
  forallb (fun b => if bz b <? 128 then Z.land (u32 (Z.shiftr (sbz b) n)) 0x3f =? d b else true)
    all_bytes = true ->
  ascii b -> Z.land (u32 (Z.shiftr (sbz b) n)) 0x3f = d b.
Proof.
  intros H Hb. unfold ascii in Hb. pose proof (forall_byte _ H b) as E. cbv beta in E.
  destruct (Z.ltb_spec (bz b) 128); [|lia]. apply Z.eqb_eq, E.
Qed.

Lemma low1 b : ascii b -> Z.land (u32 (Z.shiftr (sbz b) 4)) 0x3f = bz b / 16.
Proof. apply (low_bits b 4 (fun b => bz b / 16)). vm_compute. reflexivity. Qed.

Lemma low2 c : ascii c -> Z.land (u32 (Z.shiftr (sbz c) 6)) 0x3f = bz c / 64.
Proof. apply (low_bits c 6 (fun b => bz b / 64)). vm_compute. reflexivity. Qed.

Lemma enc1_ref a b : ascii b -> Z.land (enc1 a (Some b)) 0x3f = (bz a mod 4) * 16 + bz b / 16.
Proof.
  intros Hb. unfold enc1. rewrite Z.land_lor_distr_l, land_hi1, low1 by exact Hb.
  pose proof (bz_range b). apply (lor_disjoint 4); [lia|]. change (2 ^ 4) with 16.
  Z.div_mod_to_equations. lia.
Qed.

Lemma enc2_ref b c : ascii c -> Z.land (enc2 b (Some c)) 0x3f = (bz b mod 16) * 4 + bz c / 64.
Proof.
  intros Hc. unfold enc2. rewrite Z.land_lor_distr_l, land_hi2, low2 by exact Hc.
  pose proof (bz_range c). apply (lor_disjoint 2); [lia|]. change (2 ^ 2) with 4.
  Z.div_mod_to_equations. lia.
Qed.

Lemma enc3_ref c : Z.land (enc3 c) 0x3f = bz c mod 64.
Proof. by_bytes c. Qed.

(** The first byte of a group may be any; the others are promoted with their
    sign. *)
Fixpoint b64_plain (s : list byte) : Prop :=
  match s with
  | [] | [_] => True
  | [_; b] => ascii b
  | _ :: b :: c :: s => ascii b /\ ascii c /\ b64_plain s
  end.

Lemma b64enc_loop_ref s : b64_plain s -> b64enc_loop s = base64 s.
Proof.
  induction s as [|a|a b|a b c s IH] using triples_ind; intros H; cbn [b64enc_loop base64 take app b64digits map sextets];
    unfold b64char; cbn [b64_plain] in H; rewrite ?enc0_ref.
  - reflexivity.
  - unfold enc1. rewrite land_hi1, Z.add_0_r. reflexivity.
  - unfold enc2. rewrite enc1_ref, land_hi2, Z.add_0_r by exact H. reflexivity.
  - destruct H as (Hb & Hc & Hs). rewrite enc1_ref, enc2_ref, enc3_ref, IH by assumption. reflexivity.
Qed.

(** *** The decoder *)

Lemma classify_digit d : 0 <= d < 64 -> b64classify (nth (Z.to_nat d) b64tbl Byte.x00) = digit d.
Proof.
  intros H. enough (forallb (fun d => match b64classify (nth (Z.to_nat d) b64tbl Byte.x00) with
                                      | digit v => v =? d | _ => false end) (seqZ 0 64) = true) as E.
  - rewrite forallb_forall in E. specialize (E d).
    destruct (b64classify _); try (discriminate E; apply list_elem_of_In, elem_of_seqZ; lia).
    f_equal. apply Z.eqb_eq, E. apply list_elem_of_In, elem_of_seqZ. lia.
  - vm_compute. reflexivity.
Qed.

Lemma sextets_range a b c : 0 <= a < 256 -> 0 <= b < 256 -> 0 <= c < 256 ->
  0 <= a / 4 < 64 /\ 0 <= (a mod 4) * 16 + b / 16 < 64 /\ 0 <= (b mod 16) * 4 + c / 64 < 64 /\
  0 <= c mod 64 < 64.
Proof. intros. Z.div_mod_to_equations. lia. Qed.

(** The bytes that come out of the digits. *)
Lemma join0 a b : 0 <= a < 256 -> 0 <= b < 256 ->
  Z.lor (u8 (Z.shiftl (a / 4) 2)) (Z.shiftr ((a mod 4) * 16 + b / 16) 4) = a.
Proof.
  intros Ha Hb. rewrite Z.shiftl_mul_pow2, Z.shiftr_div_pow2, wrap_id by
    (unfold in_u; zpow; Z.div_mod_to_equations; lia).
  rewrite lor_disjoint; change (2 ^ 4) with 16; change (2 ^ 2) with 4; Z.div_mod_to_equations; lia.
Qed.

Lemma join1 a b c : 0 <= b < 256 -> 0 <= c < 256 ->
  Z.lor (u8 (Z.shiftl ((a mod 4) * 16 + b / 16) 4)) (Z.shiftr ((b mod 16) * 4 + c / 64) 2) = b.
Proof.
  intros Hb Hc. rewrite Z.shiftl_mul_pow2, Z.shiftr_div_pow2 by lia.
  replace (u8 (((a mod 4) * 16 + b / 16) * 2 ^ 4)) with ((b / 16) * 2 ^ 4)
    by (unfold wrap; change (2 ^ 4) with 16; zpow; Z.div_mod_to_equations; lia).
  rewrite lor_disjoint; change (2 ^ 4) with 16; change (2 ^ 2) with 4; Z.div_mod_to_equations; lia.
Qed.

Lemma join2 b c : 0 <= c < 256 ->
  Z.lor (u8 (Z.shiftl ((b mod 16) * 4 + c / 64) 6)) (c mod 64) = c.
Proof.
  intros Hc. rewrite Z.shiftl_mul_pow2 by lia.
  replace (u8 (((b mod 16) * 4 + c / 64) * 2 ^ 6)) with ((c / 64) * 2 ^ 6)
    by (unfold wrap; change (2 ^ 6) with 64; zpow; Z.div_mod_to_equations; lia).
  rewrite lor_disjoint; change (2 ^ 6) with 64; Z.div_mod_to_equations; lia.
Qed.

(** A digit at each label, when another character follows. *)
Section scan_steps.
Variables (d e : Z) (s : list byte).
Hypotheses (Hd : 0 <= d < 64) (Hs : s <> []).

Lemma scan0 : b64scan idx0 e (b64digits [d] ++ s) = b64scan idx1 (u8 (Z.shiftl d 2)) s.
Proof.
  cbn [b64digits map app b64scan]. rewrite classify_digit, decide_False by assumption. reflexivity.
Qed.

Lemma scan1 : b64scan idx1 e (b64digits [d] ++ s) =
  cons (zb (Z.lor e (Z.shiftr d 4))) <$> b64scan idx2 (u8 (Z.shiftl d 4)) s.
Proof.
  cbn [b64digits map app b64scan]. rewrite classify_digit, decide_False by assumption. reflexivity.
Qed.

Lemma scan2 : b64scan idx2 e (b64digits [d] ++ s) =
  cons (zb (Z.lor e (Z.shiftr d 2))) <$> b64scan idx3 (u8 (Z.shiftl d 6)) s.
Proof.
  cbn [b64digits map app b64scan]. rewrite classify_digit, decide_False by assumption. reflexivity.
Qed.
End scan_steps.

Lemma scan3 d e s : 0 <= d < 64 ->
  b64scan idx3 e (b64digits [d] ++ s) = cons (zb (Z.lor e d)) <$> b64scan idx0 0 s.
Proof. intros Hd. cbn [b64digits map app b64scan]. rewrite classify_digit by exact Hd. reflexivity. Qed.

Lemma digits_cons d l : b64digits (d :: l) = b64digits [d] ++ b64digits l.
Proof. reflexivity. Qed.

(** The first two digits of a group give its first byte, the third its second. *)
Lemma scan_two a b e s : 0 <= b < 256 -> s <> [] ->
  b64scan idx0 e (b64digits [bz a / 4; (bz a mod 4) * 16 + b / 16] ++ s) =
  cons a <$> b64scan idx2 (u8 (Z.shiftl ((bz a mod 4) * 16 + b / 16) 4)) s.
Proof.
  intros Hb Hs. pose proof (bz_range a).
  pose proof (sextets_range (bz a) b 0 ltac:(lia) ltac:(lia) ltac:(lia)) as (R0 & R1 & _).
  rewrite digits_cons, <- app_assoc, scan0 by (exact R0 || discriminate).
  rewrite scan1, join0, zb_bz by assumption. reflexivity.
Qed.

Lemma scan_three a b c e s : 0 <= c < 256 -> s <> [] ->
  b64scan idx0 e (b64digits (take 3 (sextets (bz a) (bz b) c)) ++ s) =
  (fun r => a :: b :: r) <$> b64scan idx3 (u8 (Z.shiftl ((bz b mod 16) * 4 + c / 64) 6)) s.
Proof.
  intros Hc Hs. pose proof (bz_range a). pose proof (bz_range b).
  pose proof (sextets_range (bz a) (bz b) c ltac:(lia) ltac:(lia) ltac:(lia)) as (_ & _ & R2 & _).
  change (b64digits (take 3 (sextets (bz a) (bz b) c)) ++ s) with
    (b64digits [bz a / 4; (bz a mod 4) * 16 + bz b / 16] ++ (b64digits [(bz b mod 16) * 4 + c / 64] ++ s)).
  rewrite scan_two by (assumption || discriminate). rewrite scan2, join1, zb_bz by assumption.
  destruct (b64scan idx3 _ s); reflexivity.
Qed.

Lemma b64scan_ref s : b64scan idx0 0 (base64 s) = Some s.
Proof.
  induction s as [|a|a b|a b c s IH] using triples_ind; cbn [base64]; [reflexivity| | |].
  - cbn [take sextets]. rewrite scan_two by (lia || discriminate). reflexivity.
  - rewrite scan_three by (lia || discriminate). reflexivity.
  - pose proof (bz_range c).
    pose proof (sextets_range 0 (bz b) (bz c) ltac:(lia) (bz_range b) ltac:(lia)) as (_ & _ & _ & R3).
    change (b64digits (sextets (bz a) (bz b) (bz c)) ++ base64 s) with
      (b64digits (take 3 (sextets (bz a) (bz b) (bz c))) ++ (b64digits [bz c mod 64] ++ base64 s)).
    rewrite scan_three by (lia || discriminate).
    rewrite scan3, join2, zb_bz, IH by assumption. reflexivity.
Qed.

(** A base64 text has the length of its groups, and nothing but digits before
    at most two pads. *)
Lemma base64_shape s :
  3 * zlen (base64 s) <= 4 * (zlen s + 2) /\ zlen s <= zlen (base64 s) /\ zlen (base64 s) mod 4 = 0 /\
  exists ds pads, base64 s = b64digits ds ++ pads /\ Forall (fun d => 0 <= d < 64) ds /\ zlen pads <= 2.
Proof.
  induction s as [|a|a b|a b c s IH] using triples_ind.
  - cbn. split; [lia|]. split; [lia|]. split; [reflexivity|]. exists [], []. split; [reflexivity|]. split; [constructor|cbn; lia].
  - pose proof (sextets_range (bz a) 0 0 (bz_range a) ltac:(lia) ltac:(lia)) as (R0 & R1 & _).
    cbn. split; [lia|]. split; [lia|]. split; [reflexivity|]. eexists [_; _], _. split; [reflexivity|].
    split; [repeat constructor; assumption || apply R0 || apply R1|cbn; lia].
  - pose proof (sextets_range (bz a) (bz b) 0 (bz_range a) (bz_range b) ltac:(lia)) as (R0 & R1 & R2 & _).
    cbn. split; [lia|]. split; [lia|]. split; [reflexivity|]. eexists [_; _; _], _. split; [reflexivity|].
    split; [repeat constructor; apply R0 || apply R1 || apply R2|cbn; lia].
  - pose proof (sextets_range (bz a) (bz b) (bz c) (bz_range a) (bz_range b) (bz_range c)) as (R0 & R1 & R2 & R3).
    destruct IH as (I1 & I2 & I3 & ds & pads & E & Hd & Hp). cbn [base64]. rewrite E in *. rewrite !length_app in *.
    cbn [length] in *. change (length (b64digits (sextets (bz a) (bz b) (bz c)))) with 4%nat. split; [lia|]. split; [lia|].
    split; [rewrite <- I3; Z.div_mod_to_equations; lia|]. exists (sextets (bz a) (bz b) (bz c) ++ ds), pads. split.
    + unfold b64digits. rewrite map_app, <- app_assoc. reflexivity.
    + split; [|exact Hp]. apply Forall_app. split; [|exact Hd]. repeat constructor; apply R0 || apply R1 || apply R2 || apply R3.
Qed.

(** A scan over digits alone has a result. *)
Lemma b64scan_digits l e s : Forall (fun c => exists v, b64classify c = digit v) s -> is_Some (b64scan l e s).
Proof.
  intros H. revert l e. induction H as [|c s (v & E) Hs IH]; intros l e; cbn [b64scan]; [eauto|]. rewrite E.
  destruct l; cbv zeta; [destruct (decide _); eauto..|]; try (apply fmap_is_Some, IH).
Qed.

(** Every text of the encoder is decoded, whatever its size; up to 4 GiB it is
    read as it is. *)
Lemma b64dec_total s : is_Some (b64dec (base64 s)).
Proof.
  unfold b64dec. destruct (Z.le_gt_cases (zlen (base64 s)) (2 ^ 32)) as [H|H].
  - rewrite indexed_short, b64scan_ref by exact H. eauto.
  - apply b64scan_digits, (indexed_window _ _ H). intros i Hi.
    destruct (base64_shape s) as (_ & _ & Hm & ds & pads & E & Hd & Hp). rewrite E in *. rewrite length_app in *.
    assert (i < length (b64digits ds))%nat as Hl by (Z.div_mod_to_equations; lia).
    rewrite app_nth1 by exact Hl. unfold b64digits in *. rewrite length_map in Hl. 
    rewrite (nth_indep _ _ (nth (Z.to_nat 0) b64tbl Byte.x00)) by (rewrite length_map; exact Hl).
    rewrite (map_nth (fun d => nth (Z.to_nat d) b64tbl Byte.x00)). eexists. apply classify_digit.
    rewrite List.Forall_forall in Hd. apply Hd, nth_In, Hl.
Qed.

Lemma b64dec_ref s : zlen (base64 s) <= 2 ^ 32 -> b64dec (base64 s) = Some s.
Proof. intros H. unfold b64dec. rewrite indexed_short by exact H. apply b64scan_ref. Qed.

(** ** Hexadecimal *)

Lemma hexvalue_digits c :
  hexvalue (hexdigit (Z.land (Z.shiftr (sbz c) 4) 0xf)) = Some (bz c / 16) /\
  hexvalue (hexdigit (Z.land (sbz c) 0xf)) = Some (bz c mod 16).
Proof. split; by_bytes c. Qed.

Lemma join_hex c : Z.lor (u8 (Z.shiftl (bz c / 16) 4)) (bz c mod 16) = bz c.
Proof. by_bytes c. Qed.

Lemma hexscan_loop s : hexscan None (hexenc_loop s) = s.
Proof.
  unfold hexenc_loop. induction s as [|c s IH]; cbn [flat_map app hexscan]; [reflexivity|].
  destruct (hexvalue_digits c) as [-> ->]. rewrite decide_False by discriminate.
  cbn [hexscan]. rewrite join_hex, zb_bz, IH. reflexivity.
Qed.

Lemma hexenc_loop_length s : length (hexenc_loop s) = (2 * length s)%nat.
Proof. induction s as [|c s IH]; [reflexivity|]. cbn [hexenc_loop flat_map app length] in *. unfold hexenc_loop in IH. lia. Qed.

Lemma hexdec_enc s : zlen (hexenc s) <= 2 ^ 32 -> hexdec (hexenc s) = indexed s.
Proof. intros H. unfold hexdec. rewrite indexed_short by exact H. apply hexscan_loop. Qed.

Lemma hexenc_size s : zlen (hexenc s) = 2 * zlen s.
Proof. unfold hexenc. rewrite hexenc_loop_length, <- (indexed_length s). lia. Qed.

(** ** xoshiro

    The generator never leaves the non-zero states, so its assertion can only
    fail on a state that is zero to begin with. *)

Definition xo_words (s : xoshiro) : Prop := word (xs0 s) /\ word (xs1 s) /\ word (xs2 s) /\ word (xs3 s).

Definition xo_zero (s : xoshiro) : Prop := xs0 s = 0 /\ xs1 s = 0 /\ xs2 s = 0 /\ xs3 s = 0.

Lemma lxor_0_inv a b : Z.lxor a b = 0 -> a = b.
Proof. apply Z.lxor_eq_0_iff. Qed.

Lemma word_rotl x k : 0 <= k <= 64 -> word x -> word (rotl x k).
Proof. intros Hk Hx. apply word_lor; [apply word_u64 | apply word_shiftr; [lia|exact Hx]]. Qed.

(** Only 0 rotates to 0. *)
Lemma rotl_zero x k : 0 <= k <= 64 -> word x -> rotl x k = 0 -> x = 0.
Proof.
  unfold rotl, word. intros Hk Hx H. apply Z.lor_eq_0_iff in H as [H1 H2].
  rewrite Z.shiftr_div_pow2 in H2 by lia.
  assert (x < 2 ^ (64 - k)) as Hs.
  { destruct (Z.lt_ge_cases x (2 ^ (64 - k))); [assumption|].
    assert (0 < 2 ^ (64 - k)) by (apply Z.pow_pos_nonneg; lia).
    pose proof (Z.div_le_mono _ _ (2 ^ (64 - k)) ltac:(assumption) ltac:(eassumption)).
    rewrite Z.div_same in * by lia. lia. }
  rewrite Z.shiftl_mul_pow2 in H1 by lia. rewrite wrap_id in H1.
  - assert (0 < 2 ^ k) by (apply Z.pow_pos_nonneg; lia). nia.
  - unfold in_u.
    assert (2 ^ 64 = 2 ^ (64 - k) * 2 ^ k) as -> by (rewrite <- Z.pow_add_r by lia; f_equal; lia).
    assert (0 < 2 ^ k) by (apply Z.pow_pos_nonneg; lia). nia.
Qed.

(** [x ^ (x << 17)] is 0 only for 0. *)
Lemma xorshift_zero x : word x -> Z.lxor x (u64 (Z.shiftl x 17)) = 0 -> x = 0.
Proof.
  unfold word. intros Hx H. apply lxor_0_inv in H. rewrite Z.shiftl_mul_pow2 in H by lia.
  unfold wrap in H. change (2 ^ 17) with 131072 in H. zpow. Z.div_mod_to_equations. lia.
Qed.

Lemma xoshiro_next s :
  xo_words s -> ~ xo_zero s ->
  exists r s', rand_xoshiro256 s = Some (r, s') /\ word r /\ xo_words s' /\ ~ xo_zero s'.
Proof.
  intros (H0 & H1 & H2 & H3) Hz. unfold rand_xoshiro256.
  destruct (Z.eqb_spec (Z.lor (Z.lor (Z.lor (xs0 s) (xs1 s)) (xs2 s)) (xs3 s)) 0) as [E|_].
  { exfalso. apply Hz. rewrite !Z.lor_eq_0_iff in E. unfold xo_zero. tauto. }
  do 2 eexists. split; [reflexivity|]. split; [apply word_u64|]. split.
  - refine (conj _ (conj _ (conj _ _))); cbn [xs0 xs1 xs2 xs3]; auto 10 using word_lxor, word_u64.
    apply word_rotl; [lia|]. auto using word_lxor.
  - unfold xo_zero. cbn [xs0 xs1 xs2 xs3]. intros (E0 & E1 & E2 & E3). apply Hz.
    apply rotl_zero in E3; [|lia|auto using word_lxor].
    rewrite E3, Z.lxor_0_r in E0. apply lxor_0_inv in E3.
    rewrite E0, Z.lxor_0_r in E1, E2. apply lxor_0_inv in E1. rewrite E1 in E2.
    apply xorshift_zero in E2; [|exact H2]. unfold xo_zero. rewrite E3, E1. auto.
Qed.
(** ** Properties *)

(** C34: The text encodings of strings up to 2 GiB (whose text is at most 4 GiB,
    what the 32-bit indices of the functions can reach) are inverted: [hexdec]
    restores every string that [hexenc] wrote; [b64dec] restores every string
    from its RFC 4648 base64 text, without a read outside its table; [b64enc]
    writes exactly that text when no second or third byte of a group of three is
    above 127, so that such strings survive the round trip. *)
Theorem text_encodings_roundtrip s :
  zlen s <= 2 ^ 31 ->
  hexdec (hexenc s) = s /\ b64dec (base64 s) = Some s /\
  (b64_plain s -> b64enc s = base64 s /\ b64dec (b64enc s) = Some s).
Proof.
  intros Hs. assert (indexed s = s) as Hi by (apply indexed_short; lia).
  assert (zlen (base64 s) <= 2 ^ 32) as Hb by (destruct (base64_shape s) as [H _]; lia).
  split; [rewrite hexdec_enc by (rewrite hexenc_size; lia); exact Hi|]. split; [apply b64dec_ref, Hb|].
  intros H. unfold b64enc. rewrite Hi, (b64enc_loop_ref s H). split; [reflexivity|apply b64dec_ref, Hb].
Qed.

Lemma text_encodings_roundtrip_witness :
  let s := map zb [0xff; 0x4d; 0x61; 0xfe; 0x6e] in
  b64enc s = base64 s /\ b64dec (b64enc s) = Some s /\ hexdec (hexenc s) = s.
Proof.
  destruct (text_encodings_roundtrip (map zb [0xff; 0x4d; 0x61; 0xfe; 0x6e])) as (H1 & _ & H2); [vm_compute; discriminate|].
  destruct H2 as [H2 H3]; [vm_compute; auto|]. cbv zeta. auto.
Defined.

(** The sign of a second byte above 127 sets the two bits of the first. *)
Lemma b64enc_sign a b : 128 <= bz b -> b64enc [a; b] = base64 [zb (bz a / 4 * 4 + 3); b].
Proof.
  intros Hb. pose proof (bz_range a). pose proof (bz_range b).
  change (b64enc [a; b]) with (b64enc_loop [a; b]). cbn [b64enc_loop base64 take app b64digits map sextets]. unfold b64char.
  replace (bz (zb (bz a / 4 * 4 + 3))) with (bz a / 4 * 4 + 3)
    by (rewrite bz_zb; symmetry; apply wrap_id; unfold in_u; zpow; Z.div_mod_to_equations; lia).
  replace ((bz a / 4 * 4 + 3) / 4) with (bz a / 4) by (Z.div_mod_to_equations; lia).
  replace ((bz a / 4 * 4 + 3) mod 4) with 3 by (Z.div_mod_to_equations; lia).
  unfold enc2. rewrite enc0_ref, land_hi2, Z.add_0_r.
  assert (Z.land (u32 (Z.shiftr (sbz b) 4)) 0x3f = if bz b <? 128 then bz b / 16 else 48 + bz b / 16) as Hl
    by by_bytes b.
  unfold enc1. rewrite Z.land_lor_distr_l, land_hi1, Hl.
  destruct (Z.ltb_spec (bz b) 128) as [|_]; [lia|].
  assert (forall x, 0 <= x < 4 -> Z.lor (x * 16) (48 + bz b / 16) = 48 + bz b / 16) as Hor.
  { clear -b. intros x Hx. assert (x = 0 \/ x = 1 \/ x = 2 \/ x = 3) as [-> | [-> | [-> | ->]]] by lia; by_bytes b. }
  rewrite Hor by (apply Z.mod_pos_bound; lia). reflexivity.
Qed.

(** The base64 code fails outside that domain: when the second byte of a
    group is above 127 its sign sets the two low bits of the first, so that a
    string with another first byte decodes to something else; and [b64dec]
    reads outside its table of 128 entries at the character 128, and past the
    end of the string when a group's first digit is followed by nothing but
    one character that is no digit. *)
Theorem base64_fails :
  (forall a b, 128 <= bz b ->
     b64dec (b64enc [a; b]) = Some [zb (bz a / 4 * 4 + 3); b] /\
     (bz a mod 4 <> 3 -> zb (bz a / 4 * 4 + 3) <> a)) /\
  (forall s, b64dec (Byte.x80 :: s) = None) /\
  (forall d c, 0 <= d < 64 -> b64classify c = skip_other ->
     b64dec [nth (Z.to_nat d) b64tbl Byte.x00; c] = None).
Proof.
  split; [|split].
  - intros a b Hb. rewrite b64enc_sign by exact Hb. split; [apply b64dec_ref; vm_compute; discriminate|].
    intros H E. apply (f_equal bz) in E. rewrite bz_zb in E. pose proof (bz_range a).
    rewrite wrap_id in E by (unfold in_u; zpow; Z.div_mod_to_equations; lia).
    Z.div_mod_to_equations. lia.
  - intros s. unfold b64dec. destruct (indexed_first Byte.x80 s) as [l ->]. reflexivity.
  - intros d c Hd Hc. unfold b64dec. rewrite indexed_short by (cbn; lia).
    change [nth (Z.to_nat d) b64tbl Byte.x00; c] with (b64digits [d] ++ [c]).
    rewrite scan0 by (assumption || discriminate). cbn [b64scan]. rewrite Hc. reflexivity.
Qed.

Lemma base64_fails_witness :
  b64dec (b64enc (map zb [0; 255])) = Some (map zb [3; 255]) /\ b64dec [Byte.x51; b64pad] = None.
Proof.
  destruct base64_fails as (H1 & _ & H3). split.
  - apply (H1 Byte.x00 Byte.xff). vm_compute. discriminate.
  - apply (H3 16 b64pad); [lia|reflexivity].
Defined.
