(* ===== verification/Ec2b.v ===== *)
(** * The key files

    src/ec2b.cpp: the class [Ec2b], a key of 16 bytes and data of 2048 bytes
    from which a seed and the 4096-byte xorpad are derived; and
    [genXorpadFromSeed].  The generator's static state is passed along; the
    bytes [getrandom] returns and the contents of arrays read before they are
    written are arguments.  The platform is little-endian. *)

From S2P Require Import Prelude Mt64 Util Aes.

(** ** State and failure

    A computation runs on the state of the Mersenne twister; [None]: an
    assertion fails or memory outside an object is read or written. *)

Definition M (A : Type) : Type := mt_state -> option (A * mt_state).

#[export] Instance M_ret : MRet M := fun A x m => Some (x, m).
#[export] Instance M_bind : MBind M := fun A B f x m =>
  match x m with Some (a, m) => f a m | None => None end.

Definition ret {A} (x : A) : M A := mret x.
Definition lift {A} (x : option A) : M A :=
  fun m => match x with Some a => Some (a, m) | None => None end.
Definition assert (b : bool) : M unit := fun m => if b then Some (tt, m) else None.

Definition init64 (seed : Z) : M unit := fun m => Some (tt, init_genrand64 seed m).
Definition gen64 : M Z := fun m => Some (genrand64_int64 m).
Definition gen64_n (n : nat) : M (list Z) := fun m => Some (genrand_n n m).

(** ** Memory *)

(** [memcpy(dst, s.c_str(), n)]: the string and its terminator can be read. *)
Definition c_str (s : list byte) (n : Z) : option (list byte) :=
  if n <=? zlen s + 1 then Some (ztake n (s ++ [Byte.x00])) else None.

(** Element [i] of an array of [unsigned long long] over the bytes [l]. *)
Definition word64 (l : list byte) (i : nat) : Z := le_dec (take 8 (drop (8 * i) l)).

(** ** genXorpadFromSeed *)

(** The words as they are stored; [be]: after [htobe64]. *)
Definition pad_bytes (be : bool) (ws : list Z) : list byte :=
  flat_map (if be then be_enc 8 else le_enc 8) ws.

(** [_xorpad] is [None] for NULL; [reroll] and [be] are used as booleans. *)
Definition genXorpadFromSeed (seed : Z) (_xorpad : option (list byte)) (sz : Z)
    (reroll be : bool) : M (option (list byte)) :=
  match _xorpad with
  | None => ret None
  | Some pad =>
      init64 seed ;;
      (if reroll then r ← gen64; init64 r ;; gen64 ;; ret tt else ret tt) ;;
      ws ← gen64_n (Z.to_nat (sz / 8));
      assert (8 * (sz / 8) <=? zlen pad) ;;
      ret (Some (pad_bytes be ws ++ zdrop (8 * (sz / 8)) pad))
  end.

(** ** The class *)

Record Ec2b := mkEc2b { key : list byte; data : list byte; xorpad : list byte; seed : Z }.

(** [ec2b_t] *)
Record ec2b_t := mkEc2bT {
  magic : Z; keyLen : Z; s_key : list byte; dataLen : Z; s_data : list byte }.

(** What [getrandom] stores, and what the uninitialised arrays hold. *)
Record entropy := mkEntropy {
  rnd_key : list byte; rnd_data : list byte; junk_key : list byte; junk_data : list byte;
  junk_pad : list byte; junk_seed : Z }.

(** [_xorpad] of the callers: 4096 bytes, uninitialised. *)
Definition derive_pad (en : entropy) (seed : Z) : M (list byte) :=
  p ← genXorpadFromSeed seed (Some (junk_pad en)) 4096 false false;
  lift p.

Definition XOR_CONST : Z := 0xceac3b5a867837ac.
Definition ALL_ONES : Z := 0xffffffffffffffff.

(** [for (i = 0; i < 256; i++) _seed ^= d[i];] *)
Definition xor_data (s : Z) (d : list byte) : Z :=
  fold_left (fun s i => Z.lxor s (word64 d i)) (seq 0 256) s.

Definition deriveXor (en : entropy) (e : Ec2b) : M Ec2b :=
  k ← lift (c_str (key e) 16);
  let k := scrambleKey k in
  let s := Z.lxor ALL_ONES XOR_CONST in
  let s := Z.lxor s (word64 k 0) in
  let s := Z.lxor s (word64 k 1) in
  d ← lift (c_str (data e) 2048);
  let s := xor_data s d in
  p ← derive_pad en s;
  ret (mkEc2b (key e) (data e) p s).

Definition SEED_FROM_OBJECT : Z := 0.
Definition SEED_FROM_RAND : Z := 1.
Definition SEED_FROM_SEED : Z := 2.
Definition SEED_FROM_SEED_MT : Z := 3.
Definition SEED_FROM_SEED_XOR : Z := 4.
Definition SEED_FROM_ZERO : Z := 5.
Definition SEED_FROM_CONST_HIGH_BYTE : Z := 6.

Fixpoint xoshiro_n (n : nat) (s : xoshiro) : option (list Z) :=
  match n with
  | O => Some []
  | S n => '(r, s) ← rand_xoshiro256 s; cons r <$> xoshiro_n n s
  end.

(** [memset(_k, v, n)] for the methods with a constant byte. *)
Definition const_byte (method : Z) : byte := zb (Z.land (Z.shiftr method 8) 0xff).

(** The [switch] of [getFromSeed]: [_k], [_d], and the new [data]. *)
Definition pick (en : entropy) (method : Z) (e : Ec2b) : M (list byte * list byte * list byte) :=
  if method =? SEED_FROM_OBJECT then
    assert (16 <=? zlen (key e)) ;;
    assert (2048 <=? zlen (data e)) ;;
    ret (ztake 16 (key e), ztake 2048 (data e), data e)
  else if method =? SEED_FROM_RAND then
    ret (rnd_key en, rnd_data en, rnd_data en)
  else if (method =? SEED_FROM_SEED) || (method =? SEED_FROM_SEED_MT) then
    init64 (seed e) ;;
    k ← gen64_n 2;
    d ← gen64_n 256;
    ret (pad_bytes false k, pad_bytes false d, pad_bytes false d)
  else if method =? SEED_FROM_SEED_XOR then
    r ← lift (xoshiro_n 258 (mkXo (seed e) 0 0 0));
    let k := pad_bytes false (take 2 r) in
    let d := pad_bytes false (drop 2 r) in
    ret (k, d, d)
  else if method =? SEED_FROM_ZERO then
    ret (replicate (Z.to_nat 16) Byte.x00, replicate (Z.to_nat 2048) Byte.x00, replicate (Z.to_nat 2048) Byte.x00)
  else if Z.land method 0xff =? SEED_FROM_CONST_HIGH_BYTE then
    let v := const_byte method in
    ret (replicate (Z.to_nat 16) v, replicate (Z.to_nat 2048) v, replicate (Z.to_nat 2048) v)
  else
    ret (junk_key en, junk_data en, data e).

Definition getFromSeed (en : entropy) (method : Z) (e : Ec2b) : M Ec2b :=
  '(k, d, data) ← pick en method e;
  let s := xor_data ALL_ONES d in
  let s := Z.lxor s (word64 k 1) in
  let s := Z.lxor s XOR_CONST in
  let s := Z.lxor s (seed e) in
  let k := unscrambleKey (le_enc 8 s ++ drop 8 k) in
  ret (mkEc2b k data (xorpad e) (seed e)).

(** ** Constructors *)

(** The members before a constructor's body: empty strings, [seed] unset. *)
Definition blank (en : entropy) : Ec2b := mkEc2b [] [] [] (junk_seed en).

Definition Ec2b_method (en : entropy) (method : Z) : M Ec2b :=
  let '(k, d) :=
    if method =? SEED_FROM_ZERO then (replicate (Z.to_nat 16) Byte.x00, replicate (Z.to_nat 2048) Byte.x00)
    else if method =? SEED_FROM_RAND then (rnd_key en, rnd_data en)
    else if Z.land method 0xff =? SEED_FROM_CONST_HIGH_BYTE then
      (replicate (Z.to_nat 16) (const_byte method), replicate (Z.to_nat 2048) (const_byte method))
    else (junk_key en, junk_data en) in
  deriveXor en (mkEc2b k d [] (junk_seed en)).

Definition Ec2b_default (en : entropy) : M Ec2b := Ec2b_method en SEED_FROM_RAND.

Definition EC2B_MAGIC : Z := 0x45633262.

(** [be32toh], [htobe32] *)
Definition be32 (x : Z) : Z := le_dec (be_enc 4 x).

Definition Ec2b_struct (en : entropy) (ec2b : option ec2b_t) : M Ec2b :=
  match ec2b with
  | None => ret (blank en)
  | Some t =>
      assert (magic t =? be32 EC2B_MAGIC) ;;
      assert (keyLen t =? 16) ;;
      assert (dataLen t =? 2048) ;;
      deriveXor en (mkEc2b (s_key t) (s_data t) [] (junk_seed en))
  end.

(** The structure at the start of a buffer: [magic] at 0, [keyLen] at 4,
    [key] at 8, [dataLen] at 24, [data] at 28; 0x81c bytes. *)
Definition as_struct (b : list byte) : ec2b_t :=
  mkEc2bT (le_dec (take 4 b)) (le_dec (take 4 (drop 4 b))) (take 16 (drop 8 b))
    (le_dec (take 4 (drop 24 b))) (ztake 2048 (drop 28 b)).

Definition EC2B_SIZE : Z := 0x81c.

Definition Ec2b_buf (en : entropy) (buf : option (list byte)) : M Ec2b :=
  match buf with
  | None => ret (blank en)
  | Some b => assert (EC2B_SIZE <=? zlen b) ;; Ec2b_struct en (Some (as_struct b))
  end.

(** [fread(buf, 1, 0x81c, f)] into a buffer of zeros; [None]: no such file. *)
Definition file_buf (contents : list byte) : list byte :=
  ztake 2076 (contents ++ replicate (Z.to_nat 2076) Byte.x00).

Definition Ec2b_path (en : entropy) (file : option (list byte)) : M Ec2b :=
  match file with
  | None => ret (blank en)
  | Some c => Ec2b_struct en (Some (as_struct (file_buf c)))
  end.

Definition Ec2b_FILE (en : entropy) (f : option (list byte)) : M Ec2b := Ec2b_path en f.

Definition Ec2b_key_data (en : entropy) (_key _data : list byte) : M Ec2b :=
  assert (16 <=? zlen _key) ;;
  assert (2048 <=? zlen _data) ;;
  deriveXor en (mkEc2b _key _data [] (junk_seed en)).

(** ** Setters *)

Definition setKey (en : entropy) (k : list byte) (e : Ec2b) : M Ec2b :=
  assert (16 <=? zlen k) ;; deriveXor en (mkEc2b k (data e) (xorpad e) (seed e)).

Definition setData (en : entropy) (d : list byte) (e : Ec2b) : M Ec2b :=
  assert (2048 <=? zlen d) ;; deriveXor en (mkEc2b (key e) d (xorpad e) (seed e)).

Definition setSeed_method (en : entropy) (s method : Z) (e : Ec2b) : M Ec2b :=
  p ← derive_pad en s;
  getFromSeed en method (mkEc2b (key e) (data e) p s).

Definition setSeed (en : entropy) (s : Z) (e : Ec2b) : M Ec2b :=
  setSeed_method en s SEED_FROM_OBJECT e.

Definition Ec2b_seed_method (en : entropy) (s method : Z) : M Ec2b :=
  setSeed_method en s method (blank en).

Definition Ec2b_seed (en : entropy) (s : Z) : M Ec2b := Ec2b_seed_method en s SEED_FROM_RAND.

(** ** Conversions *)

Definition to_struct (e : Ec2b) : option ec2b_t :=
  k ← c_str (key e) 16;
  d ← c_str (data e) 2048;
  Some (mkEc2bT (be32 EC2B_MAGIC) 16 k 2048 d).

(** The bytes of the structure. *)
Definition struct_bytes (t : ec2b_t) : list byte :=
  le_enc 4 (magic t) ++ le_enc 4 (keyLen t) ++ s_key t ++ le_enc 4 (dataLen t) ++ s_data t.

Definition to_string (e : Ec2b) : option (list byte) := struct_bytes <$> to_struct e.
