(* ===== verification/Ec2bProps.v ===== *)
(** * The key files: theorems

    A key file determines a seed and a pad; the seed setters choose the key so
    that the file determines the seed that was set; what an object writes out
    reads back to the same seed and pad. *)

From S2P Require Import Prelude Bytes Mt64 Mt64Props Util UtilProps Aes AesSpec Ec2b.

(** ** Running computations *)

Section run.
Context {A B : Type}.

Lemma run_bind (x : M A) (f : A -> M B) m a m' : x m = Some (a, m') -> (x ≫= f) m = f a m'.
Proof. intros E. unfold mbind, M_bind. rewrite E. reflexivity. Qed.

Lemma run_fail (x : M A) (f : A -> M B) m : x m = None -> (x ≫= f) m = None.
Proof. intros E. unfold mbind, M_bind. rewrite E. reflexivity. Qed.

Lemma run_assert b (f : M B) m : b = true -> (assert b ;; f) m = f m.
Proof. intros ->. reflexivity. Qed.

Lemma run_assert_fail b (f : M B) m : b = false -> (assert b ;; f) m = None.
Proof. intros ->. reflexivity. Qed.

Lemma run_lift (x : option A) (f : A -> M B) m a : x = Some a -> (lift x ≫= f) m = f a m.
Proof. intros ->. reflexivity. Qed.
End run.

(** ** Seeding does not depend on the state before *)

Definition mt_full (m : mt_state) : Prop := full (mt m).

Lemma list_eq_get (a b : list Z) :
  full a -> full b -> (forall j, 0 <= j < NN -> mt_get a j = mt_get b j) -> a = b.
Proof.
  unfold full. intros Ha Hb H. apply list_eq_same_length with (n := length a); [congruence|reflexivity|].
  intros i x y Hi Hx Hy. specialize (H (Z.of_nat i)). unfold mt_get in H.
  rewrite Nat2Z.id, Hx, Hy in H. apply H. unfold NN in *. lia.
Qed.

Lemma init_indep s m m' : mt_full m -> mt_full m' -> init_genrand64 s m = init_genrand64 s m'.
Proof.
  unfold mt_full, init_genrand64. intros Hm Hm'. f_equal.
  destruct (init_loop_spec (Z.to_nat NN - 1) 1 (mt_set (mt m) 0 s) ltac:(apply set_full; auto) ltac:(lia) ltac:(reflexivity)) as (F & A & B).
  destruct (init_loop_spec (Z.to_nat NN - 1) 1 (mt_set (mt m') 0 s) ltac:(apply set_full; auto) ltac:(lia) ltac:(reflexivity)) as (F' & A' & B').
  cbv zeta in *. apply list_eq_get; [exact F|exact F'|].
  enough (forall k : nat, (k < 312)%nat ->
    mt_get (init_loop (Z.to_nat NN - 1) 1 (mt_set (mt m) 0 s)) (Z.of_nat k) =
    mt_get (init_loop (Z.to_nat NN - 1) 1 (mt_set (mt m') 0 s)) (Z.of_nat k)) as E.
  { intros j Hj. rewrite <- (Z2Nat.id j) by lia. apply E. unfold NN in Hj. lia. }
  induction k as [|k IH]; intros Hk.
  - rewrite A, A' by lia. rewrite !get_set_same; [reflexivity| |];
      unfold full in Hm, Hm'; rewrite ?Hm, ?Hm'; unfold NN; lia.
  - rewrite B, B' by (unfold NN; lia). replace (Z.of_nat (S k) - 1) with (Z.of_nat k) by lia.
    rewrite IH by lia. reflexivity.
Qed.

(** The outputs after seeding. *)
Definition seed_window (s : Z) : list Z := mt (init_genrand64 s mt_start).

Definition outputs (s : Z) (from n : nat) : list Z := map (mt_stream (seed_window s)) (seq from n).

Lemma start_full : mt_full mt_start.
Proof. reflexivity. Qed.

Lemma init_window s m : mt_full m -> at_window (init_genrand64 s m) (seed_window s).
Proof.
  intros Hm. rewrite (init_indep s m mt_start Hm start_full). unfold seed_window.
  split; [|left; split; reflexivity].
  unfold init_genrand64. cbn [mt]. apply init_loop_spec; [apply set_full; exact start_full|lia|reflexivity].
Qed.

Lemma window_full m w : at_window m w -> mt_full m.
Proof.
  intros [Hw [[_ E] | (j & old & _ & _ & Ho & E & _)]]; unfold mt_full; rewrite E; auto using steps_full.
Qed.

Lemma gen64_n_window n m w :
  at_window m w ->
  exists m', gen64_n n m = Some (map (mt_stream w) (seq 0 n), m') /\ at_window m' (steps n w).
Proof.
  intros H. destruct (genrand_n_window n m w H) as [E Hw]. unfold gen64_n.
  destruct (genrand_n n m) as [xs m']. cbn [fst snd] in *. subst xs. eauto.
Qed.

(** A later block of the same stream. *)
Lemma stream_steps w a n : map (mt_stream (steps a w)) (seq 0 n) = map (mt_stream w) (seq a n).
Proof.
  rewrite <- (Nat.add_0_r a) at 2. rewrite <- fmap_add_seq, <- list_fmap_compose.
  apply map_ext. intros k. unfold mt_stream. cbn [compose]. rewrite <- steps_add, Nat.add_succ_r.
  reflexivity.
Qed.

(** ** The pad of a seed *)

Definition pad_of (be : bool) (s : Z) (n : nat) : list byte := pad_bytes be (outputs s 0 n).

Lemma length_pad_bytes be ws : length (pad_bytes be ws) = (8 * length ws)%nat.
Proof.
  unfold pad_bytes. induction ws as [|w ws IH]; [reflexivity|].
  cbn [flat_map]. rewrite length_app, IH. destruct be; rewrite ?length_be_enc, ?length_le_enc; cbn [length]; lia.
Qed.

Lemma length_outputs s a n : length (outputs s a n) = n.
Proof. unfold outputs. rewrite length_map, length_seq. reflexivity. Qed.

Lemma gen_pad s pad sz be m :
  mt_full m -> 0 <= sz -> 8 * (sz / 8) <= zlen pad ->
  exists m', genXorpadFromSeed s (Some pad) sz false be m =
    Some (Some (pad_of be s (Z.to_nat (sz / 8)) ++ zdrop (8 * (sz / 8)) pad), m') /\ mt_full m'.
Proof.
  intros Hm Hsz Hp. destruct (gen64_n_window (Z.to_nat (sz / 8)) _ _ (init_window s m Hm)) as (m' & E & Hw).
  exists m'. split; [|exact (window_full _ _ Hw)].
  unfold genXorpadFromSeed. rewrite (run_bind (init64 s) _ m tt (init_genrand64 s m)) by reflexivity.
  rewrite (run_bind (ret tt) _ _ tt (init_genrand64 s m)) by reflexivity.
  rewrite (run_bind _ _ _ _ _ E), run_assert by (apply Z.leb_le; exact Hp). reflexivity.
Qed.

(** The uninitialised arrays have their sizes. *)
Definition entropy_ok (en : entropy) : Prop :=
  zlen (rnd_key en) = 16 /\ zlen (rnd_data en) = 2048 /\
  zlen (junk_key en) = 16 /\ zlen (junk_data en) = 2048 /\ zlen (junk_pad en) = 4096.

Definition xorpad_of (s : Z) : list byte := pad_of false s (Z.to_nat (4096 / 8)).

Lemma derive_pad_ok en s m :
  entropy_ok en -> mt_full m ->
  exists m', derive_pad en s m = Some (xorpad_of s, m') /\ mt_full m'.
Proof.
  intros (_ & _ & _ & _ & Hp) Hm. unfold derive_pad.
  destruct (gen_pad s (junk_pad en) 4096 false m Hm ltac:(lia) ltac:(rewrite Hp; vm_compute; discriminate)) as (m' & E & Hm').
  exists m'. split; [|exact Hm']. rewrite (run_bind _ _ _ _ _ E). unfold lift.
  change (8 * (4096 / 8)) with 4096. rewrite drop_ge by lia. rewrite app_nil_r. reflexivity.
Qed.

(** ** The seed of a key and data *)

Definition seed_of (k d : list byte) : Z :=
  let k := scrambleKey (ztake 16 k) in
  xor_data (Z.lxor (Z.lxor (Z.lxor ALL_ONES XOR_CONST) (word64 k 0)) (word64 k 1)) (ztake 2048 d).

Lemma c_str_take s n : 0 <= n <= zlen s -> c_str s n = Some (ztake n s).
Proof.
  intros H. unfold c_str. destruct (Z.leb_spec n (zlen s + 1)); [|lia].
  rewrite take_app_le by lia. reflexivity.
Qed.

Definition sized (e : Ec2b) : Prop := 16 <= zlen (key e) /\ 2048 <= zlen (data e).

Lemma xor_data_0 s d : xor_data s d = Z.lxor s (xor_data 0 d).
Proof.
  unfold xor_data. generalize (seq 0 256). intros l. revert s.
  induction l as [|i l IH]; intros s; cbn [fold_left].
  - rewrite Z.lxor_0_r. reflexivity.
  - rewrite IH, (IH (Z.lxor 0 _)), Z.lxor_0_l, Z.lxor_assoc. reflexivity.
Qed.

Lemma word64_word l i : word (word64 l i).
Proof.
  unfold word64. pose proof (le_dec_range (take 8 (drop (8 * i) l))) as [H0 H1]. split; [exact H0|].
  eapply Z.lt_le_trans; [exact H1|]. apply Z.pow_le_mono_r; [lia|]. rewrite length_take. lia.
Qed.

Lemma xor_data_word d : word (xor_data 0 d).
Proof.
  unfold xor_data. generalize (seq 0 256). intros l.
  enough (forall s, word s -> word (fold_left (fun s i => Z.lxor s (word64 d i)) l s)) as H
    by (apply H; split; [reflexivity|reflexivity]).
  induction l as [|i l IH]; intros s Hs; cbn [fold_left]; auto using word_lxor, word64_word.
Qed.

#[local] Opaque xor_data scrambleKey unscrambleKey xorpad_of derive_pad.

Lemma deriveXor_ok en e m :
  entropy_ok en -> mt_full m -> sized e ->
  exists m', deriveXor en e m =
    Some (mkEc2b (key e) (data e) (xorpad_of (seed_of (key e) (data e))) (seed_of (key e) (data e)), m') /\
    mt_full m'.
Proof.
  intros He Hm [Hk Hd]. destruct (derive_pad_ok en (seed_of (key e) (data e)) m He Hm) as (m' & E & Hm').
  exists m'. split; [|exact Hm']. unfold deriveXor.
  rewrite (run_lift _ _ _ _ (c_str_take (key e) 16 ltac:(lia))).
  rewrite (run_lift _ _ _ _ (c_str_take (data e) 2048 ltac:(lia))).
  unfold seed_of in *. cbv zeta in *. rewrite (run_bind _ _ _ _ _ E). reflexivity.
Qed.

Lemma word64_head s k : word s -> word64 (le_enc 8 s ++ k) 0 = s.
Proof.
  intros Hs. unfold word64. rewrite drop_0, take_app_all by (rewrite length_le_enc; reflexivity).
  rewrite le_dec_enc. apply Z.mod_small, Hs.
Qed.

Lemma word64_tail s k : word64 (le_enc 8 s ++ drop 8 k) 1 = word64 k 1.
Proof.
  unfold word64. rewrite drop_app_all by (rewrite length_le_enc; reflexivity). reflexivity.
Qed.

(** Equations of exclusive ors, bit by bit. *)
Ltac xor_solve :=
  apply Z.bits_inj'; intros i _; rewrite !Z.lxor_spec;
  repeat match goal with |- context [Z.testbit ?x i] => destruct (Z.testbit x i) end; reflexivity.

(** The first key word is chosen to make the seed come out. *)
Lemma chosen_seed k d s :
  length k = 16%nat -> word s ->
  let w := Z.lxor (Z.lxor (Z.lxor (xor_data ALL_ONES d) (word64 k 1)) XOR_CONST) s in
  let key := unscrambleKey (le_enc 8 w ++ drop 8 k) in
  length key = 16%nat /\
  xor_data (Z.lxor (Z.lxor (Z.lxor ALL_ONES XOR_CONST) (word64 (scrambleKey key) 0)) (word64 (scrambleKey key) 1)) d = s.
Proof.
  intros Hk Hs w key. assert (block (le_enc 8 w ++ drop 8 k)) as Hb.
  { unfold block. rewrite length_app, length_le_enc, length_drop. lia. }
  split; [exact (block_unscramble _ Hb)|]. unfold key. rewrite scramble_unscramble by exact Hb.
  assert (word w) as Hw.
  { unfold w. rewrite xor_data_0. repeat apply word_lxor; auto using word64_word, xor_data_word;
      split; reflexivity || discriminate. }
  rewrite word64_head, word64_tail, xor_data_0 by exact Hw. unfold w. rewrite xor_data_0.
  generalize (xor_data 0 d), (word64 k 1), ALL_ONES, XOR_CONST. intros a b c x. xor_solve.
Qed.

(** ** The methods *)

(** The methods [getFromSeed] has a case for. *)
Definition known_method (m : Z) : bool :=
  ((0 <=? m) && (m <=? SEED_FROM_ZERO)) || (Z.land m 0xff =? SEED_FROM_CONST_HIGH_BYTE).

(** xoshiro cannot start from a zero seed. *)
Definition method_ok (m s : Z) : bool :=
  known_method m && negb ((m =? SEED_FROM_SEED_XOR) && (s =? 0)).

Lemma xoshiro_n_ok n s :
  xo_words s -> ~ xo_zero s -> exists rs, xoshiro_n n s = Some rs /\ length rs = n.
Proof.
  revert s. induction n as [|n IH]; intros s Hs Hz; cbn [xoshiro_n]; [eauto|].
  destruct (xoshiro_next s Hs Hz) as (r & s' & -> & _ & Hs' & Hz'). cbn [mbind option_bind].
  destruct (IH s' Hs' Hz') as (rs & -> & Hl). eexists. split; [reflexivity|]. cbn [length]. lia.
Qed.

(** What the [switch] leaves: [_k], [_d], and data that begin with [_d]. *)
Definition picked (r : list byte * list byte * list byte) : Prop :=
  let '(k, d, data) := r in length k = 16%nat /\ 2048 <= zlen data /\ d = ztake 2048 data.

Lemma picked_pair k d : length k = 16%nat -> zlen d = 2048 -> picked (k, d, d).
Proof. intros Hk Hd. split; [exact Hk|]. split; [lia|]. rewrite take_ge by lia. reflexivity. Qed.

Lemma pick_ok en method e m :
  entropy_ok en -> mt_full m -> word (seed e) -> method_ok method (seed e) = true ->
  (method = SEED_FROM_OBJECT -> sized e) ->
  exists r m', pick en method e m = Some (r, m') /\ picked r /\ mt_full m'.
Proof.
  intros (R1 & R2 & _ & _ & _) Hm Hs Hok Hobj. unfold pick.
  destruct (Z.eqb_spec method SEED_FROM_OBJECT) as [E|N0].
  { destruct (Hobj E) as [Hk Hd]. rewrite !run_assert by (apply Z.leb_le; assumption).
    do 2 eexists. split; [reflexivity|]. split; [|exact Hm].
    split; [rewrite length_take; lia|auto]. }
  destruct (Z.eqb_spec method SEED_FROM_RAND) as [_|N1].
  { do 2 eexists. split; [reflexivity|]. split; [|exact Hm]. apply picked_pair; lia. }
  destruct ((method =? SEED_FROM_SEED) || (method =? SEED_FROM_SEED_MT)) eqn:Emt.
  { destruct (gen64_n_window 2 _ _ (init_window (seed e) m Hm)) as (m1 & E1 & W1).
    destruct (gen64_n_window 256 _ _ W1) as (m2 & E2 & W2).
    rewrite (run_bind (init64 (seed e)) _ m tt (init_genrand64 (seed e) m)) by reflexivity.
    rewrite (run_bind _ _ _ _ _ E1), (run_bind _ _ _ _ _ E2).
    do 2 eexists. split; [reflexivity|]. split; [|exact (window_full _ _ W2)].
    apply picked_pair; rewrite length_pad_bytes, length_map, length_seq; reflexivity. }
  destruct (Z.eqb_spec method SEED_FROM_SEED_XOR) as [Exor|N4].
  { unfold method_ok in Hok. rewrite Exor in Hok. apply andb_prop in Hok as [_ Hok].
    rewrite Z.eqb_refl in Hok. cbn [andb negb] in Hok. apply negb_true_iff, Z.eqb_neq in Hok.
    destruct (xoshiro_n_ok 258 (mkXo (seed e) 0 0 0)) as (rs & E & Hl).
    { repeat split; try exact (proj1 Hs); try exact (proj2 Hs); reflexivity || discriminate. }
    { unfold xo_zero. cbn [xs0]. tauto. }
    rewrite (run_lift _ _ _ _ E). do 2 eexists. split; [reflexivity|]. split; [|exact Hm].
    apply picked_pair; rewrite length_pad_bytes; rewrite ?length_take, ?length_drop; lia. }
  destruct (Z.eqb_spec method SEED_FROM_ZERO) as [_|Hz].
  { do 2 eexists. split; [reflexivity|]. split; [|exact Hm].
    apply picked_pair; rewrite length_replicate; reflexivity. }
  destruct (Z.land method 0xff =? SEED_FROM_CONST_HIGH_BYTE) eqn:Ec.
  { do 2 eexists. split; [reflexivity|]. split; [|exact Hm].
    apply picked_pair; rewrite length_replicate; reflexivity. }
  exfalso. unfold method_ok, known_method in Hok. rewrite Ec, orb_false_r in Hok.
  apply andb_prop in Hok as [Hk _]. apply andb_prop in Hk as [H0 H5].
  apply Z.leb_le in H0, H5. apply orb_false_iff in Emt as [E2 E3]. apply Z.eqb_neq in E2, E3.
  unfold SEED_FROM_OBJECT, SEED_FROM_RAND, SEED_FROM_SEED, SEED_FROM_SEED_MT, SEED_FROM_SEED_XOR, SEED_FROM_ZERO in *.
  lia.
Qed.

(** ** Consistent objects

    The seed is that of the key and data, and the pad that of the seed. *)

Definition consistent (e : Ec2b) : Prop :=
  sized e /\ word (seed e) /\ seed e = seed_of (key e) (data e) /\ xorpad e = xorpad_of (seed e).

Lemma getFromSeed_ok en method e m :
  entropy_ok en -> mt_full m -> word (seed e) -> xorpad e = xorpad_of (seed e) ->
  method_ok method (seed e) = true -> (method = SEED_FROM_OBJECT -> sized e) ->
  exists e' m', getFromSeed en method e m = Some (e', m') /\ seed e' = seed e /\ consistent e' /\ mt_full m'.
Proof.
  intros He Hm Hs Hx Hok Hobj.
  destruct (pick_ok en method e m He Hm Hs Hok Hobj) as ([[k d] dat] & m' & E & (Hk & Hl & Hd) & Hm').
  unfold getFromSeed. rewrite (run_bind _ _ _ _ _ E). do 2 eexists. split; [reflexivity|].
  cbn [seed]. split; [reflexivity|]. split; [|exact Hm'].
  destruct (chosen_seed k d (seed e) Hk Hs) as [C1 C2]. cbv zeta in C1, C2.
  split; [split; cbn [key data]; [rewrite C1; reflexivity || (vm_compute; discriminate)|exact Hl]|]. cbn [seed xorpad key data].
  split; [exact Hs|]. split; [|exact Hx].
  unfold seed_of. cbv zeta. rewrite take_ge by (rewrite C1; vm_compute; lia). rewrite <- Hd. symmetry. exact C2.
Qed.

Lemma derived_consistent k d :
  16 <= zlen k -> 2048 <= zlen d ->
  consistent (mkEc2b k d (xorpad_of (seed_of k d)) (seed_of k d)).
Proof.
  intros Hk Hd. split; [split; assumption|]. cbn [seed key data xorpad]. split; [|auto].
  unfold seed_of. cbv zeta. rewrite xor_data_0.
  repeat apply word_lxor; auto using word64_word, xor_data_word; split; reflexivity || discriminate.
Qed.

Lemma deriveXor_consistent en e m :
  entropy_ok en -> mt_full m -> sized e ->
  exists e' m', deriveXor en e m = Some (e', m') /\ consistent e' /\ mt_full m' /\
    key e' = key e /\ data e' = data e.
Proof.
  intros He Hm Hs. destruct (deriveXor_ok en e m He Hm Hs) as (m' & E & Hm').
  do 2 eexists. split; [exact E|]. destruct Hs. split; [apply derived_consistent; assumption|auto].
Qed.

(** ** The file format *)

Lemma le_dec_enc4 z : 0 <= z < 2 ^ 32 -> le_dec (le_enc 4 z) = z.
Proof. intros H. rewrite le_dec_enc. apply Z.mod_small, H. Qed.

Lemma as_struct_bytes t x :
  0 <= magic t < 2 ^ 32 -> 0 <= keyLen t < 2 ^ 32 -> 0 <= dataLen t < 2 ^ 32 ->
  length (s_key t) = 16%nat -> zlen (s_data t) = 2048 -> as_struct (struct_bytes t ++ x) = t.
Proof.
  intros Hm Hk Hd Lk Ld. unfold as_struct, struct_bytes. destruct t as [mg kl k dl d].
  cbn [magic keyLen s_key dataLen s_data] in *. repeat rewrite <- app_assoc.
  set (r3 := d ++ x). set (r2 := le_enc 4 dl ++ r3). set (r1 := k ++ r2).
  rewrite (take_app_all 4) by (rewrite length_le_enc; reflexivity).
  rewrite (drop_app_all 4) by (rewrite length_le_enc; reflexivity).
  rewrite (take_app_all 4) by (rewrite length_le_enc; reflexivity).
  replace (drop 8 (le_enc 4 mg ++ le_enc 4 kl ++ r1)) with r1 by
    (rewrite app_assoc, drop_app_all by (rewrite length_app, !length_le_enc; reflexivity); reflexivity).
  replace (drop 24 (le_enc 4 mg ++ le_enc 4 kl ++ r1)) with r2 by
    (unfold r1; rewrite !app_assoc, drop_app_all by (rewrite !length_app, !length_le_enc, Lk; reflexivity); reflexivity).
  replace (drop 28 (le_enc 4 mg ++ le_enc 4 kl ++ r1)) with r3 by
    (unfold r1, r2; rewrite !app_assoc, drop_app_all by (rewrite !length_app, !length_le_enc, Lk; reflexivity); reflexivity).
  unfold r1, r2, r3. rewrite !take_app_all by (rewrite ?length_le_enc; lia).
  rewrite !le_dec_enc4 by assumption. reflexivity.
Qed.

(** The structure of an object, and its file. *)
Definition struct_of (e : Ec2b) : ec2b_t :=
  mkEc2bT (be32 EC2B_MAGIC) 16 (ztake 16 (key e)) 2048 (ztake 2048 (data e)).

Lemma to_struct_ok e : sized e -> to_struct e = Some (struct_of e).
Proof. intros [Hk Hd]. unfold to_struct. rewrite !c_str_take by lia. reflexivity. Qed.

Lemma length_struct_of e : sized e -> zlen (struct_bytes (struct_of e)) = EC2B_SIZE.
Proof.
  intros [Hk Hd]. unfold struct_bytes, struct_of. cbn [magic keyLen s_key dataLen s_data].
  rewrite !length_app, !length_le_enc, !length_take. unfold EC2B_SIZE. lia.
Qed.

(** What is read back: the key and data cut to the sizes of the structure. *)
Definition cut (e : Ec2b) : Ec2b := mkEc2b (ztake 16 (key e)) (ztake 2048 (data e)) (xorpad e) (seed e).

Lemma seed_of_cut k d : seed_of (ztake 16 k) (ztake 2048 d) = seed_of k d.
Proof. unfold seed_of. rewrite !take_take, !Nat.min_id. reflexivity. Qed.

Lemma struct_read en e m :
  entropy_ok en -> mt_full m -> consistent e ->
  exists m', Ec2b_struct en (Some (struct_of e)) m = Some (cut e, m') /\ mt_full m'.
Proof.
  intros He Hm ([Hk Hd] & _ & Hs & Hx). unfold Ec2b_struct. rewrite !run_assert by reflexivity.
  cbn [struct_of s_key s_data].
  destruct (deriveXor_ok en (mkEc2b (ztake 16 (key e)) (ztake 2048 (data e)) [] (junk_seed en)) m He Hm) as (m' & E & Hm').
  { split; cbn [key data]; rewrite length_take; lia. }
  exists m'. split; [|exact Hm']. cbn [key data] in E. rewrite E, seed_of_cut, <- Hs.
  unfold cut. rewrite Hx. reflexivity.
Qed.

Lemma read_back e x : sized e -> as_struct (struct_bytes (struct_of e) ++ x) = struct_of e.
Proof.
  intros [Hk Hd]. apply as_struct_bytes; cbn [magic keyLen dataLen s_key s_data struct_of];
    rewrite ?length_take; try lia; vm_compute; split; congruence.
Qed.

(** ** Objects in use *)

Inductive ctor :=
  | ByMethod (method : Z) | ByBuffer (b : list byte) | ByFile (contents : list byte)
  | ByKeyData (k d : list byte) | BySeed (s method : Z).

Inductive op := SetKey (k : list byte) | SetData (d : list byte) | SetSeed (s : Z) | SetSeedBy (s method : Z).

Definition run_ctor (en : entropy) (c : ctor) : M Ec2b :=
  match c with
  | ByMethod m => Ec2b_method en m
  | ByBuffer b => Ec2b_buf en (Some b)
  | ByFile b => Ec2b_path en (Some b)
  | ByKeyData k d => Ec2b_key_data en k d
  | BySeed s m => Ec2b_seed_method en s m
  end.

Definition run_op (en : entropy) (o : op) (e : Ec2b) : M Ec2b :=
  match o with
  | SetKey k => setKey en k e
  | SetData d => setData en d e
  | SetSeed s => setSeed en s e
  | SetSeedBy s m => setSeed_method en s m e
  end.

Definition header_ok (t : ec2b_t) : bool :=
  (magic t =? be32 EC2B_MAGIC) && (keyLen t =? 16) && (dataLen t =? 2048).

Definition u64_value (s : Z) : bool := (0 <=? s) && (s <? 2 ^ 64).

(** The calls that the code means to accept. *)
Definition ctor_ok (c : ctor) : bool :=
  match c with
  | ByMethod _ => true
  | ByBuffer b => (EC2B_SIZE <=? zlen b) && header_ok (as_struct b)
  | ByFile b => header_ok (as_struct (file_buf b))
  | ByKeyData k d => (16 <=? zlen k) && (2048 <=? zlen d)
  | BySeed s m => u64_value s && method_ok m s && negb (m =? SEED_FROM_OBJECT)
  end.

Definition op_ok (o : op) : bool :=
  match o with
  | SetKey k => 16 <=? zlen k
  | SetData d => 2048 <=? zlen d
  | SetSeed s => u64_value s
  | SetSeedBy s m => u64_value s && method_ok m s
  end.

Fixpoint run_ops (os : list (entropy * op)) (e : Ec2b) : M Ec2b :=
  match os with
  | [] => ret e
  | (en, o) :: os => e ← run_op en o e; run_ops os e
  end.

Lemma u64_value_word s : u64_value s = true -> word s.
Proof. unfold u64_value. intros H. apply andb_prop in H as [H1 H2]. split; [apply Z.leb_le, H1|apply Z.ltb_lt, H2]. Qed.

Lemma set_seed_ok en s method e m :
  entropy_ok en -> mt_full m -> word s -> method_ok method s = true ->
  (method = SEED_FROM_OBJECT -> sized e) ->
  exists e' m', setSeed_method en s method e m = Some (e', m') /\ seed e' = s /\ consistent e' /\ mt_full m'.
Proof.
  intros He Hm Hs Hok Hobj. destruct (derive_pad_ok en s m He Hm) as (m1 & E & Hm1).
  unfold setSeed_method. rewrite (run_bind _ _ _ _ _ E). apply getFromSeed_ok; auto.
Qed.

Lemma run_op_ok en o e m :
  entropy_ok en -> mt_full m -> consistent e -> op_ok o = true ->
  exists e' m', run_op en o e m = Some (e', m') /\ consistent e' /\ mt_full m' /\
    match o with SetSeed s | SetSeedBy s _ => seed e' = s | SetKey k => key e' = k | SetData d => data e' = d end.
Proof.
  intros He Hm ([Hk Hd] & _) Ho. destruct o as [k|d|s|s mt]; cbn [run_op op_ok] in *.
  - unfold setKey. rewrite run_assert by exact Ho. apply Z.leb_le in Ho.
    destruct (deriveXor_consistent en (mkEc2b k (data e) (xorpad e) (seed e)) m He Hm) as (e' & m' & E & C & F & K & _).
    { split; assumption. }
    eauto 10.
  - unfold setData. rewrite run_assert by exact Ho. apply Z.leb_le in Ho.
    destruct (deriveXor_consistent en (mkEc2b (key e) d (xorpad e) (seed e)) m He Hm) as (e' & m' & E & C & F & _ & D).
    { split; assumption. }
    eauto 10.
  - destruct (set_seed_ok en s SEED_FROM_OBJECT e m He Hm (u64_value_word s Ho) eq_refl ltac:(split; assumption)) as (e' & m' & E & S & C & F).
    unfold setSeed. eauto 10.
  - apply andb_prop in Ho as [Hs Hmt].
    destruct (set_seed_ok en s mt e m He Hm (u64_value_word s Hs) Hmt ltac:(split; assumption)) as (e' & m' & E & S & C & F).
    eauto 10.
Qed.

Lemma struct_ok en t m :
  entropy_ok en -> mt_full m -> header_ok t = true -> 16 <= zlen (s_key t) -> 2048 <= zlen (s_data t) ->
  exists e m', Ec2b_struct en (Some t) m = Some (e, m') /\ consistent e /\ mt_full m'.
Proof.
  unfold header_ok. intros He Hm H Hk Hd. apply andb_prop in H as [H H3]. apply andb_prop in H as [H1 H2].
  unfold Ec2b_struct. rewrite !run_assert by assumption.
  destruct (deriveXor_consistent en (mkEc2b (s_key t) (s_data t) [] (junk_seed en)) m He Hm) as (e' & m' & E & C & F & _).
  { split; assumption. }
  eauto 10.
Qed.

Lemma as_struct_sizes b : EC2B_SIZE <= zlen b -> 16 <= zlen (s_key (as_struct b)) /\ 2048 <= zlen (s_data (as_struct b)).
Proof.
  unfold EC2B_SIZE. intros H. cbn [as_struct s_key s_data]. rewrite !length_take, !length_drop. lia.
Qed.

Lemma file_buf_size b : zlen (file_buf b) = EC2B_SIZE.
Proof. unfold file_buf, EC2B_SIZE. rewrite length_take, length_app, length_replicate. lia. Qed.

Lemma run_ctor_ok en c m :
  entropy_ok en -> mt_full m -> ctor_ok c = true ->
  exists e m', run_ctor en c m = Some (e, m') /\ consistent e /\ mt_full m'.
Proof.
  intros He Hm Hc. destruct c as [mt|b|b|k d|s mt]; cbn [run_ctor ctor_ok] in *.
  - unfold Ec2b_method. pose proof He as (R1 & R2 & J1 & J2 & _).
    set (kd := if mt =? SEED_FROM_ZERO then _ else _).
    assert (16 <= zlen (fst kd) /\ 2048 <= zlen (snd kd)) as Hs.
    { unfold kd. repeat case_match; cbn [fst snd]; rewrite ?length_replicate; split; lia. }
    destruct kd as [k d]. cbn [fst snd] in Hs.
    destruct (deriveXor_consistent en (mkEc2b k d [] (junk_seed en)) m) as (e' & m' & E & C & F & _);
      [exact He|exact Hm|exact Hs|]. eauto 10.
  - apply andb_prop in Hc as [Hz Hh]. unfold Ec2b_buf. rewrite run_assert by exact Hz.
    apply Z.leb_le, as_struct_sizes in Hz as [Hk Hd]. apply struct_ok; assumption.
  - unfold Ec2b_path. pose proof (as_struct_sizes (file_buf b)) as [Hk Hd]; [rewrite file_buf_size; lia|].
    apply struct_ok; assumption.
  - apply andb_prop in Hc as [Hk Hd]. unfold Ec2b_key_data. rewrite !run_assert by assumption.
    apply Z.leb_le in Hk, Hd.
    destruct (deriveXor_consistent en (mkEc2b k d [] (junk_seed en)) m He Hm) as (e' & m' & E & C & F & _).
    { split; assumption. }
    eauto 10.
  - apply andb_prop in Hc as [Hc Hn]. apply andb_prop in Hc as [Hs Hmt].
    destruct (set_seed_ok en s mt (blank en) m He Hm (u64_value_word s Hs) Hmt) as (e' & m' & E & _ & C & F).
    { intros ->. discriminate Hn. }
    eauto 10.
Qed.

Lemma run_ops_ok os e m :
  Forall (fun p => entropy_ok (fst p) /\ op_ok (snd p) = true) os -> mt_full m -> consistent e ->
  exists e' m', run_ops os e m = Some (e', m') /\ consistent e' /\ mt_full m'.
Proof.
  revert e m. induction os as [|[en o] os IH]; intros e m Hos Hm He; cbn [run_ops].
  - do 2 eexists. split; [reflexivity|auto].
  - apply Forall_cons in Hos as [[H1 H2] Hos].
    destruct (run_op_ok en o e m H1 Hm He H2) as (e1 & m1 & E1 & C1 & F1 & _).
    rewrite (run_bind _ _ _ _ _ E1). apply IH; assumption.
Qed.

(** ** Properties *)

(** C32: However an [Ec2b] object comes about (from a method, a buffer or file
    with the right header, a key and data, or a seed) and whatever accepted
    setter calls follow, no assertion fails, no memory is read outside its
    object, and the object is consistent: its seed is the one [deriveXor]
    computes from its key and data and its pad is the first 4096 bytes of the
    Mersenne twister from that seed; and a seed that is set is the seed then
    read, whichever method chose the key. *)
Theorem ec2b_invariant c os en m :
  entropy_ok en -> mt_full m -> ctor_ok c = true ->
  Forall (fun p => entropy_ok (fst p) /\ op_ok (snd p) = true) os ->
  exists e m', (run_ctor en c ≫= run_ops os) m = Some (e, m') /\ consistent e /\
    forall en' s mt, entropy_ok en' -> u64_value s = true -> method_ok mt s = true ->
      exists e' m'', setSeed_method en' s mt e m' = Some (e', m'') /\ seed e' = s /\ consistent e'.
Proof.
  intros He Hm Hc Hos. destruct (run_ctor_ok en c m He Hm Hc) as (e1 & m1 & E1 & C1 & F1).
  destruct (run_ops_ok os e1 m1 Hos F1 C1) as (e2 & m2 & E2 & C2 & F2).
  exists e2, m2. rewrite (run_bind _ _ _ _ _ E1). split; [exact E2|]. split; [exact C2|].
  intros en' s mt He' Hs Hmt.
  destruct (set_seed_ok en' s mt e2 m2 He' F2 (u64_value_word s Hs) Hmt) as (e3 & m3 & E3 & S3 & C3 & _).
  { intros _. apply C2. }
  eauto 10.
Qed.

(** Entropy of the right sizes. *)
Definition plain_entropy : entropy :=
  mkEntropy (replicate 16 Byte.x01) (replicate (Z.to_nat 2048) Byte.x02) (replicate 16 Byte.x03)
    (replicate (Z.to_nat 2048) Byte.x04) (replicate (Z.to_nat 4096) Byte.x05) 6.

Lemma plain_entropy_ok : entropy_ok plain_entropy.
Proof. unfold entropy_ok. cbn [plain_entropy rnd_key rnd_data junk_key junk_data junk_pad]. rewrite !length_replicate. lia. Qed.

Lemma ec2b_invariant_witness :
  exists e m', (run_ctor plain_entropy (BySeed 5 SEED_FROM_SEED_XOR) ≫= run_ops [(plain_entropy, SetSeed 7)]) mt_start
    = Some (e, m') /\ consistent e.
Proof.
  destruct (ec2b_invariant (BySeed 5 SEED_FROM_SEED_XOR) [(plain_entropy, SetSeed 7)] plain_entropy mt_start
    plain_entropy_ok start_full eq_refl) as (e & m' & E & C & _).
  - constructor; [split; [exact plain_entropy_ok|reflexivity]|constructor].
  - exists e, m'. split; [exact E|exact C].
Defined.

(** C33: A key file restores its object: a consistent object converts to the
    0x81c bytes of [ec2b_t], and reading those bytes, from a buffer with any
    bytes after them or from a file, gives the same seed and pad, with the key
    and data cut to the 16 and 2048 bytes that are stored. *)
Theorem ec2b_file_roundtrip e :
  consistent e ->
  exists b, to_string e = Some b /\ zlen b = EC2B_SIZE /\
    forall en m x, entropy_ok en -> mt_full m ->
      (exists m', Ec2b_buf en (Some (b ++ x)) m = Some (cut e, m') /\ mt_full m') /\
      (exists m', Ec2b_path en (Some (b ++ x)) m = Some (cut e, m') /\ mt_full m').
Proof.
  intros C. pose proof (proj1 C) as Hs. exists (struct_bytes (struct_of e)).
  unfold to_string. rewrite to_struct_ok by exact Hs. split; [reflexivity|].
  pose proof (length_struct_of e Hs) as Hl. split; [exact Hl|]. intros en m x He Hm. split.
  - unfold Ec2b_buf. rewrite run_assert by (apply Z.leb_le; rewrite length_app; lia).
    rewrite read_back by exact Hs. apply struct_read; assumption.
  - unfold Ec2b_path, file_buf. rewrite <- app_assoc.
    rewrite take_app_all by (unfold EC2B_SIZE in Hl; lia).
    rewrite <- (app_nil_r (struct_bytes _)), read_back by exact Hs. apply struct_read; assumption.
Qed.

Lemma ec2b_file_roundtrip_witness :
  exists e m' b, Ec2b_method plain_entropy SEED_FROM_ZERO mt_start = Some (e, m') /\ to_string e = Some b /\ zlen b = EC2B_SIZE.
Proof.
  destruct (run_ctor_ok plain_entropy (ByMethod SEED_FROM_ZERO) mt_start plain_entropy_ok start_full eq_refl) as (e & m' & E & C & _).
  destruct (ec2b_file_roundtrip e C) as (b & E2 & L & _). exists e, m', b. split; [exact E|]. split; assumption.
Defined.

Lemma struct_fail en t m : header_ok t = false -> Ec2b_struct en (Some t) m = None.
Proof.
  unfold header_ok, Ec2b_struct. intros H.
  destruct (magic t =? be32 EC2B_MAGIC) eqn:E1; [rewrite run_assert by reflexivity|apply run_assert_fail; reflexivity].
  destruct (keyLen t =? 16) eqn:E2; [rewrite run_assert by reflexivity|apply run_assert_fail; reflexivity].
  destruct (dataLen t =? 2048) eqn:E3; [discriminate H|]. apply run_assert_fail. reflexivity.
Qed.

(** What a key file reader refuses: a buffer shorter than [ec2b_t], and a
    buffer or file whose magic, key length or data length is not the one of
    the format, fail an assertion; so do keys and data that are too short, and
    a zero seed for the xoshiro method.  A file that is cut short is not
    refused: a file that ends after the header is read as if zeros followed. *)
Theorem ec2b_rejects en m :
  (forall b, zlen b < EC2B_SIZE \/ header_ok (as_struct b) = false -> Ec2b_buf en (Some b) m = None) /\
  (forall b, header_ok (as_struct (file_buf b)) = false -> Ec2b_path en (Some b) m = None) /\
  (forall k d, zlen k < 16 \/ zlen d < 2048 -> Ec2b_key_data en k d m = None) /\
  (forall k e, zlen k < 16 -> setKey en k e m = None) /\
  (forall d e, zlen d < 2048 -> setData en d e m = None) /\
  (forall e, entropy_ok en -> mt_full m -> setSeed_method en 0 SEED_FROM_SEED_XOR e m = None) /\
  (forall b, Ec2b_path en (Some b) m = Ec2b_path en (Some (b ++ replicate (Z.to_nat EC2B_SIZE - length b) Byte.x00)) m).
Proof.
  split; [|split; [|split; [|split; [|split; [|split]]]]].
  - intros b H. unfold Ec2b_buf. destruct (Z.leb_spec EC2B_SIZE (zlen b)) as [Hl|Hl].
    + rewrite run_assert by reflexivity. destruct H as [H|H]; [lia|]. apply struct_fail, H.
    + apply run_assert_fail. reflexivity.
  - intros b H. apply struct_fail, H.
  - intros k d H. unfold Ec2b_key_data. destruct (Z.leb_spec 16 (zlen k)); [|apply run_assert_fail; reflexivity].
    rewrite run_assert by reflexivity. apply run_assert_fail, Z.leb_gt. lia.
  - intros k e H. apply run_assert_fail, Z.leb_gt, H.
  - intros d e H. apply run_assert_fail, Z.leb_gt, H.
  - intros e He Hm. destruct (derive_pad_ok en 0 m He Hm) as (m1 & E & _).
    unfold setSeed_method. rewrite (run_bind _ _ _ _ _ E). reflexivity.
  - intros b. unfold Ec2b_path. do 3 f_equal. unfold file_buf, EC2B_SIZE.
    rewrite <- app_assoc, <- replicate_add. destruct (Nat.le_gt_cases (Z.to_nat 2076) (length b)).
    + rewrite !take_app_le by lia. reflexivity.
    + rewrite !take_app_ge by lia. f_equal. rewrite !take_replicate. f_equal. lia.
Qed.

Lemma ec2b_rejects_witness : Ec2b_buf plain_entropy (Some [Byte.x45]) mt_start = None.
Proof. destruct (ec2b_rejects plain_entropy mt_start) as [H _]. apply H. left. reflexivity. Defined.

(** A method that [getFromSeed] has no case for falls through with the key
    words taken from an uninitialised array and the data left alone: the call
    succeeds, but the seed its key and data determine differs from the one
    that was set by the words of that array and of the old data, so that the
    file written from the object yields another seed. *)
Theorem ec2b_unknown_method en method s e m :
  entropy_ok en -> mt_full m -> word s -> consistent e ->
  known_method method = false ->
  exists e' m', setSeed_method en s method e m = Some (e', m') /\ seed e' = s /\ xorpad e' = xorpad_of s /\
    data e' = data e /\
    seed_of (key e') (data e') =
      Z.lxor s (Z.lxor (xor_data 0 (junk_data en)) (xor_data 0 (ztake 2048 (data e)))).
Proof.
  intros He Hm Hs C Hu. destruct (derive_pad_ok en s m He Hm) as (m1 & E & Hm1).
  unfold setSeed_method. rewrite (run_bind _ _ _ _ _ E). unfold getFromSeed.
  set (e0 := mkEc2b (key e) (data e) (xorpad_of s) s).
  assert (pick en method e0 m1 = Some ((junk_key en, junk_data en, data e), m1)) as Ep.
  { unfold known_method in Hu. apply orb_false_iff in Hu as [Hr Hc]. apply andb_false_iff in Hr.
    unfold pick. rewrite Hc.
    rewrite !(proj2 (Z.eqb_neq method _)) by
      (intros ->; destruct Hr as [Hr|Hr]; cbv in Hr; discriminate Hr).
    reflexivity. }
  rewrite (run_bind _ _ _ _ _ Ep). do 2 eexists. split; [reflexivity|]. cbn [seed xorpad data key e0].
  do 3 (split; [reflexivity|]).
  destruct He as (_ & _ & J1 & J2 & _).
  destruct (chosen_seed (junk_key en) (junk_data en) s ltac:(lia) Hs) as [C1 C2]. cbv zeta in C1, C2.
  unfold seed_of. cbv zeta. rewrite take_ge by (rewrite C1; vm_compute; lia).
  rewrite xor_data_0 in C2 |- *. match type of C2 with Z.lxor ?x _ = _ => set (c := x) in * end.
  clearbody c. rewrite <- C2. clear.
  generalize (xor_data 0 (junk_data en)), (xor_data 0 (ztake 2048 (data e))). intros a b. xor_solve.
Qed.

Lemma ec2b_unknown_method_witness :
  exists e m e' m', Ec2b_method plain_entropy SEED_FROM_ZERO mt_start = Some (e, m) /\
    setSeed_method plain_entropy 9 7 e m = Some (e', m') /\ seed e' = 9.
Proof.
  destruct (run_ctor_ok plain_entropy (ByMethod SEED_FROM_ZERO) mt_start plain_entropy_ok start_full eq_refl) as (e & m & E & C & F).
  destruct (ec2b_unknown_method plain_entropy 7 9 e m plain_entropy_ok F) as (e' & m' & E2 & S & _).
  - split; reflexivity || discriminate.
  - exact C.
  - reflexivity.
  - exists e, m, e', m'. split; [exact E|]. split; assumption.
Defined.
