(* ===== verification/Packet.v ===== *)
(** * Game packets

    src/packet.cpp: the frame around a packet (two magic numbers, command id,
    the sizes of header and data, big-endian), its parser and its builder; and
    [HyvCryptXor] of src/crypt.cpp. *)

From S2P Require Import Prelude Bytes.

#[local] Open Scope xor_scope.

Definition PACKET_MAGIC1 : Z := 0x4567.
Definition PACKET_MAGIC2 : Z := 0x89ab.

(** [rawpkt_buf] and [rawpkt_sz] are the buffer last parsed ([None]: NULL). *)
Record Packet := mkPacket {
  p_opcode : Z; p_header : list byte; p_data : list byte;
  p_raw : option (list byte); p_use_dispatch_key : Z }.

(** [Packet(opc)]; [Packet()] is [Packet(0)]. *)
Definition new_packet (opc : Z) : Packet := mkPacket opc [] [] None 0.

(** ** parse *)

(** How the parser ends: it returns -1 or 0 with the object as it left it, an
    exception of [std::string::assign] leaves it, or it has read outside the
    buffer. *)
Inductive parsed := p_reject (p : Packet) | p_throw | p_overread | p_ok (p : Packet).

(** Element [i] of the array of big-endian [unsigned short] at [buf]. *)
Definition be16_at (buf : list byte) (i : nat) : Z := be_dec (take 2 (drop (2 * i) buf)).

(** [(data_sz_hi << 16) | data_sz_lo] in [int], converted to [size_t]. *)
Definition data_size (hi lo : Z) : Z := u64 (s32 (Z.lor (u32 (Z.shiftl hi 16)) lo)).

(** The largest size [std::string::assign] takes. *)
Definition max_size : Z := 0x7fffffffffffffff.

(** [buf[i]] for an index of [size_t]. *)
Definition byte_at (buf : list byte) (i : Z) : option Z := bz <$> buf !! Z.to_nat i.

Definition parse (p : Packet) (buf : option (list byte)) : parsed :=
  match buf with
  | None => p_reject p
  | Some buf =>
      let sz := zlen buf in
      if sz <? 10 then p_reject p
      else if negb (be16_at buf 0 =? PACKET_MAGIC1) then p_reject p
      else
        let p := mkPacket (be16_at buf 1) (p_header p) (p_data p) (p_raw p) (p_use_dispatch_key p) in
        let hdr_sz := be16_at buf 2 in
        if sz <? hdr_sz + 10 then p_reject p
        else
          let data_sz := data_size (be16_at buf 3) (be16_at buf 4) in
          if sz <? u64 (data_sz + hdr_sz + 12) then p_reject p
          else
            match byte_at buf (u64 (data_sz + hdr_sz + 10)), byte_at buf (u64 (data_sz + hdr_sz + 11)) with
            | Some magic2_hi, Some magic2_lo =>
                if negb (Z.lor (Z.shiftl magic2_hi 8) magic2_lo =? PACKET_MAGIC2) then p_reject p
                else if max_size <? data_sz then p_throw
                else p_ok (mkPacket (p_opcode p) (ztake hdr_sz (zdrop 10 buf))
                            (ztake data_sz (zdrop (hdr_sz + 10) buf)) (Some buf) (p_use_dispatch_key p))
            | _, _ => p_overread
            end
  end.

(** ** build *)

(** The bytes that are stored at [buf]. *)
Definition frame (p : Packet) : list byte :=
  be_enc 2 PACKET_MAGIC1 ++ be_enc 2 (p_opcode p) ++ be_enc 2 (zlen (p_header p))
    ++ be_enc 2 (Z.shiftr (zlen (p_data p)) 16) ++ be_enc 2 (Z.land (zlen (p_data p)) 0xffff)
    ++ p_header p ++ p_data p
    ++ [zb (Z.shiftr PACKET_MAGIC2 8); zb (Z.land PACKET_MAGIC2 0xff)].

(** [build(buf, &sz)]: the return value, the buffer and [sz] afterwards.
    [None]: bytes are stored past the end of the buffer. *)
Definition build (p : Packet) (buf : option (list byte)) (sz : option Z)
  : option (Z * option (list byte) * option Z) :=
  match buf, sz with
  | None, _ => Some (-1, buf, sz)
  | _, None => Some (-1, buf, sz)
  | Some b, Some _ =>
      let f := frame p in
      if zlen b <? zlen f then None
      else Some (0, Some (f ++ zdrop (zlen f) b), Some (12 + zlen (p_header p) + zlen (p_data p)))
  end.

(** [build()] writes over the buffer that was parsed. *)
Definition build_raw (p : Packet) : option (Z * Packet) :=
  match p_raw p with
  | None => Some (-1, p)
  | Some b =>
      '(r, b, _) ← build p (Some b) (Some (zlen b));
      Some (r, mkPacket (p_opcode p) (p_header p) (p_data p) b (p_use_dispatch_key p))
  end.

Definition setHeader (p : Packet) (h : list byte) : Packet :=
  mkPacket (p_opcode p) h (p_data p) (p_raw p) (p_use_dispatch_key p).
Definition setPacketData (p : Packet) (d : list byte) : Packet :=
  mkPacket (p_opcode p) (p_header p) d (p_raw p) (p_use_dispatch_key p).
Definition setOpcode (p : Packet) (opc : Z) : Packet :=
  mkPacket (u16 opc) (p_header p) (p_data p) (p_raw p) (p_use_dispatch_key p).
Definition setUseDispatchKey (p : Packet) (i : Z) : Packet :=
  mkPacket (p_opcode p) (p_header p) (p_data p) (p_raw p) (if i =? 0 then 0 else 1).
Definition useDispatchKey (p : Packet) : bool := negb (p_use_dispatch_key p =? 0).

(** The message [proto::PacketHead] is generated code: [serialize_head seq ms]
    is its serialization with the two fields set. *)
Definition buildHeader (serialize_head : Z -> Z -> option (list byte)) (now : Z)
    (p : Packet) (seq : Z) : Packet :=
  if negb (bool_decide (p_header p = [])) && (seq =? 0) then p
  else match serialize_head seq now with Some h => setHeader p h | None => p end.

(** ** HyvCryptXor *)

(** [for (i = 0; i < ilen; i++) ibuf[i] ^= kbuf[i % klen];] from [i]. *)
Fixpoint xor_from (i : nat) (ibuf kbuf : list byte) : list byte :=
  match ibuf with
  | [] => []
  | b :: ibuf => (b ⊕ nth (i mod length kbuf) kbuf Byte.x00) :: xor_from (S i) ibuf kbuf
  end.

(** [None]: the division by a zero [klen]. *)
Definition HyvCryptXor (ibuf kbuf : list byte) : option (list byte) :=
  match ibuf, kbuf with
  | _ :: _, [] => None
  | _, _ => Some (xor_from 0 ibuf kbuf)
  end.
