(* ===== verification/PacketProps.v ===== *)
(** * Game packets: theorems *)

From S2P Require Import Prelude Bytes Packet.

#[local] Open Scope xor_scope.

(** ** Big-endian halves *)

Lemma be_enc_dec n l : length l = n -> be_enc n (be_dec l) = l.
Proof.
  intros <-. unfold be_enc, be_dec. rewrite <- (length_rev l), le_enc_dec, rev_involutive. reflexivity.
Qed.

Lemma be_dec2 l : length l = 2%nat -> 0 <= be_dec l < 65536.
Proof.
  intros H. unfold be_dec. pose proof (le_dec_range (rev l)) as R. rewrite length_rev, H in R. exact R.
Qed.

Lemma be_dec_enc2 z : 0 <= z < 65536 -> be_dec (be_enc 2 z) = z.
Proof. intros H. rewrite be_dec_enc. apply Z.mod_small, H. Qed.

(** ** Frames *)

(** What fits in the frame: [data.size()] is read back through [int]. *)
Record fits (p : Packet) : Prop := {
  fit_op : 0 <= p_opcode p < 65536;
  fit_header : zlen (p_header p) < 65536;
  fit_data : zlen (p_data p) < 2147483648
}.

Lemma length_frame p : zlen (frame p) = 12 + zlen (p_header p) + zlen (p_data p).
Proof. unfold frame. rewrite !length_app, !length_be_enc. cbn [length]. lia. Qed.

(** Two halves of a size below 2^31. *)
Lemma data_size_halves n : 0 <= n < 2147483648 -> data_size (Z.shiftr n 16) (Z.land n 0xffff) = n.
Proof.
  intros Hn. unfold data_size. rewrite Z.shiftr_div_pow2 by lia. change 0xffff with (Z.ones 16).
  rewrite Z.land_ones, Z.shiftl_mul_pow2 by lia.
  assert (u32 (n / 2 ^ 16 * 2 ^ 16) = n / 2 ^ 16 * 2 ^ 16) as ->.
  { apply wrap_id. unfold in_u. zpow. Z.div_mod_to_equations. lia. }
  rewrite lor_disjoint by (zpow; Z.div_mod_to_equations; lia).
  replace (n / 2 ^ 16 * 2 ^ 16 + n mod 2 ^ 16) with n by (zpow; Z.div_mod_to_equations; lia).
  rewrite swrap_id by (change (2 ^ (32 - 1)) with 2147483648; lia).
  apply wrap_id. unfold in_u. zpow. lia.
Qed.

Lemma data_size_small hi lo : 0 <= hi < 32768 -> 0 <= lo < 65536 -> data_size hi lo = hi * 65536 + lo.
Proof.
  intros Hh Hl. unfold data_size. rewrite Z.shiftl_mul_pow2 by lia.
  assert (u32 (hi * 2 ^ 16) = hi * 2 ^ 16) as -> by (apply wrap_id; unfold in_u; zpow; lia).
  rewrite lor_disjoint by (zpow; lia). change (2 ^ 16) with 65536.
  rewrite swrap_id by (change (2 ^ (32 - 1)) with 2147483648; lia).
  apply wrap_id. unfold in_u. zpow. lia.
Qed.

Lemma data_size_large hi lo : 32768 <= hi < 65536 -> 0 <= lo < 65536 ->
  data_size hi lo = 18446744069414584320 + hi * 65536 + lo.
Proof.
  intros Hh Hl. unfold data_size. rewrite Z.shiftl_mul_pow2 by lia.
  assert (u32 (hi * 2 ^ 16) = hi * 2 ^ 16) as -> by (apply wrap_id; unfold in_u; zpow; lia).
  rewrite lor_disjoint by (zpow; lia). change (2 ^ 16) with 65536. zwrap.
Qed.

(** *** The fields of a frame *)

Lemma be16_at_0 z l : 0 <= z < 65536 -> be16_at (be_enc 2 z ++ l) 0 = z.
Proof.
  intros H. unfold be16_at. cbn [Nat.mul]. rewrite drop_0, take_app_all by (rewrite length_be_enc; reflexivity).
  apply be_dec_enc2, H.
Qed.

Lemma be16_at_S z l i : be16_at (be_enc 2 z ++ l) (S i) = be16_at l i.
Proof.
  unfold be16_at. replace (2 * S i)%nat with (2 + 2 * i)%nat by lia.
  rewrite <- drop_drop, drop_app_all by (rewrite length_be_enc; reflexivity). reflexivity.
Qed.

Lemma halves_range n : 0 <= n < 2147483648 ->
  0 <= Z.shiftr n 16 < 32768 /\ 0 <= Z.land n 0xffff < 65536.
Proof.
  intros H. rewrite Z.shiftr_div_pow2 by lia. change 0xffff with (Z.ones 16).
  rewrite Z.land_ones by lia. zpow. Z.div_mod_to_equations. lia.
Qed.

(** The parser reads back the five fields, header, data and second magic. *)
Lemma byte_at_app l x i : 0 <= i < zlen x -> byte_at (l ++ x) (zlen l + i) = byte_at x i.
Proof.
  intros H. unfold byte_at. rewrite lookup_app_r by lia. repeat f_equal. lia.
Qed.

Lemma parse_frame q p rest :
  fits p ->
  parse q (Some (frame p ++ rest)) =
  p_ok (mkPacket (p_opcode p) (p_header p) (p_data p) (Some (frame p ++ rest)) (p_use_dispatch_key q)).
Proof.
  intros [Ho Hh Hd]. pose proof (halves_range (zlen (p_data p)) ltac:(lia)) as [R1 R2].
  pose proof (length_frame p) as Hl. set (buf := frame p ++ rest).
  assert (zlen buf = 12 + zlen (p_header p) + zlen (p_data p) + zlen rest) as Hb
    by (unfold buf; rewrite length_app; lia).
  set (body := p_header p ++ p_data p ++ [zb (Z.shiftr PACKET_MAGIC2 8); zb (Z.land PACKET_MAGIC2 0xff)] ++ rest).
  assert (buf = be_enc 2 PACKET_MAGIC1 ++ be_enc 2 (p_opcode p) ++ be_enc 2 (zlen (p_header p))
    ++ be_enc 2 (Z.shiftr (zlen (p_data p)) 16) ++ be_enc 2 (Z.land (zlen (p_data p)) 0xffff) ++ body) as E.
  { unfold buf, frame, body. repeat rewrite <- app_assoc. reflexivity. }
  assert (be16_at buf 0 = PACKET_MAGIC1 /\ be16_at buf 1 = p_opcode p /\ be16_at buf 2 = zlen (p_header p) /\
    be16_at buf 3 = Z.shiftr (zlen (p_data p)) 16 /\ be16_at buf 4 = Z.land (zlen (p_data p)) 0xffff) as (F0 & F1 & F2 & F3 & F4).
  { rewrite E. repeat split; rewrite ?be16_at_S; apply be16_at_0; unfold PACKET_MAGIC1; lia. }
  assert (zdrop 10 buf = body) as Hbody.
  { rewrite E. rewrite !app_assoc. apply drop_app_all. rewrite !length_app, !length_be_enc. reflexivity. }
  assert (byte_at buf (zlen (p_data p) + zlen (p_header p) + 10) = Some 0x89 /\
          byte_at buf (zlen (p_data p) + zlen (p_header p) + 11) = Some 0xab) as [M1 M2].
  { set (pre := be_enc 2 PACKET_MAGIC1 ++ be_enc 2 (p_opcode p) ++ be_enc 2 (zlen (p_header p))
      ++ be_enc 2 (Z.shiftr (zlen (p_data p)) 16) ++ be_enc 2 (Z.land (zlen (p_data p)) 0xffff)
      ++ p_header p ++ p_data p).
    assert (buf = pre ++ [zb (Z.shiftr PACKET_MAGIC2 8); zb (Z.land PACKET_MAGIC2 0xff)] ++ rest) as ->
      by (rewrite E; unfold pre, body; repeat rewrite <- app_assoc; reflexivity).
    assert (zlen pre = 10 + zlen (p_header p) + zlen (p_data p)) as Hpre.
    { unfold pre. rewrite !length_app, !length_be_enc. lia. }
    replace (zlen (p_data p) + zlen (p_header p) + 10) with (zlen pre + 0) by lia.
    replace (zlen (p_data p) + zlen (p_header p) + 11) with (zlen pre + 1) by lia.
    rewrite !byte_at_app by (cbn [app length]; lia). split; reflexivity. }
  assert (take (length (p_header p)) body = p_header p) as Th
    by (unfold body; apply take_app_all; reflexivity).
  assert (drop (length (p_header p)) body = p_data p ++ [zb (Z.shiftr PACKET_MAGIC2 8); zb (Z.land PACKET_MAGIC2 0xff)] ++ rest) as Td
    by (unfold body; apply drop_app_all; reflexivity).
  unfold parse. cbv zeta. rewrite F0, F1, F2, F3, F4, data_size_halves, !wrap_id by (unfold in_u; zpow; lia).
  rewrite M1, M2. change (Z.lor (Z.shiftl 0x89 8) 0xab) with PACKET_MAGIC2. rewrite !Z.eqb_refl. cbn [negb].
  rewrite !(proj2 (Z.ltb_ge _ _)) by (unfold max_size; lia).
  cbn [p_opcode p_use_dispatch_key]. do 2 f_equal.
  - rewrite Hbody, Nat2Z.id. exact Th.
  - replace (Z.to_nat (zlen (p_header p) + 10)) with (Z.to_nat 10 + length (p_header p))%nat by lia.
    rewrite <- drop_drop, Hbody, Td. apply take_app_all. lia.
Qed.

(** *** A buffer that parses is a frame *)

Lemma be16_at_range buf i : (2 * i + 2 <= length buf)%nat -> 0 <= be16_at buf i < 65536.
Proof. intros H. unfold be16_at. apply be_dec2. rewrite length_take, length_drop. lia. Qed.

Lemma be16_at_enc buf i : (2 * i + 2 <= length buf)%nat -> be_enc 2 (be16_at buf i) = take 2 (drop (2 * i) buf).
Proof. intros H. apply be_enc_dec. rewrite length_take, length_drop. lia. Qed.

Lemma magic2_bytes a b : 0 <= a < 256 -> 0 <= b < 256 -> Z.lor (Z.shiftl a 8) b = PACKET_MAGIC2 -> a = 0x89 /\ b = 0xab.
Proof.
  intros Ha Hb. rewrite Z.shiftl_mul_pow2, lor_disjoint by (zpow; lia). unfold PACKET_MAGIC2. zpow. lia.
Qed.

(** Ten bytes of fields and the rest. *)
Lemma buf_fields buf : 10 <= zlen buf ->
  buf = be_enc 2 (be16_at buf 0) ++ be_enc 2 (be16_at buf 1) ++ be_enc 2 (be16_at buf 2)
    ++ be_enc 2 (be16_at buf 3) ++ be_enc 2 (be16_at buf 4) ++ drop 10 buf.
Proof.
  intros H. rewrite !be16_at_enc by lia. do 10 (destruct buf as [|? buf]; [cbn in H; lia|]). reflexivity.
Qed.

(** A list cut at [h], [d] and two bytes. *)
Lemma cut_body (l : list byte) (h d : nat) (a b : byte) :
  (h + d + 2 <= length l)%nat -> l !! (h + d)%nat = Some a -> l !! (h + d + 1)%nat = Some b ->
  l = take h l ++ take d (drop h l) ++ [a; b] ++ drop (h + d + 2) l.
Proof.
  intros Hl Ha Hb. transitivity (take h l ++ drop h l); [symmetry; apply take_drop|]. f_equal.
  transitivity (take d (drop h l) ++ drop d (drop h l)); [symmetry; apply take_drop|]. f_equal.
  rewrite drop_drop, (drop_S _ _ _ Ha). cbn [app]. f_equal.
  replace (S (h + d)) with (h + d + 1)%nat by lia. rewrite (drop_S _ _ _ Hb). f_equal. f_equal. lia.
Qed.

Lemma parse_inv q buf p :
  parse q (Some buf) = p_ok p ->
  fits p /\ p_raw p = Some buf /\ p_use_dispatch_key p = p_use_dispatch_key q /\ exists rest, buf = frame p ++ rest.
Proof.
  unfold parse. cbv zeta. destruct (Z.ltb_spec (zlen buf) 10) as [|H10]; [discriminate|].
  destruct (Z.eqb_spec (be16_at buf 0) PACKET_MAGIC1) as [Hm|]; [|discriminate]. cbn [negb].
  destruct (Z.ltb_spec (zlen buf) (be16_at buf 2 + 10)) as [|Hh]; [discriminate|].
  pose proof (be16_at_range buf 1 ltac:(lia)) as R1. pose proof (be16_at_range buf 2 ltac:(lia)) as R2.
  pose proof (be16_at_range buf 3 ltac:(lia)) as R3. pose proof (be16_at_range buf 4 ltac:(lia)) as R4.
  destruct (Z.ltb_spec (zlen buf) (u64 (data_size (be16_at buf 3) (be16_at buf 4) + be16_at buf 2 + 12))) as [|Hs]; [discriminate|].
  destruct (byte_at buf _) as [a|] eqn:Ea; [|discriminate].
  destruct (byte_at buf (u64 (data_size (be16_at buf 3) (be16_at buf 4) + be16_at buf 2 + 11))) as [b|] eqn:Eb; [|discriminate].
  destruct (Z.eqb_spec (Z.lor (Z.shiftl a 8) b) PACKET_MAGIC2) as [H2|]; [|discriminate]. cbn [negb].
  destruct (Z.ltb_spec max_size (data_size (be16_at buf 3) (be16_at buf 4))) as [|Hd]; [discriminate|].
  destruct (Z.lt_ge_cases (be16_at buf 3) 32768) as [R3'|R3'];
    [|rewrite data_size_large in Hd by lia; unfold max_size in Hd; lia].
  rewrite data_size_small in * by lia. set (h := be16_at buf 2) in *.
  set (d := be16_at buf 3 * 65536 + be16_at buf 4) in *.
  rewrite wrap_id in Hs, Ea, Eb by (unfold in_u; zpow; lia).
  intros E. injection E as <-. cbn [p_opcode p_header p_data p_raw p_use_dispatch_key].
  assert (zlen (ztake h (zdrop 10 buf)) = h) as Lh by (rewrite length_take, length_drop; lia).
  assert (zlen (ztake d (zdrop (h + 10) buf)) = d) as Ld by (rewrite length_take, length_drop; lia).
  split; [constructor; cbn [p_opcode p_header p_data]; lia|]. split; [reflexivity|]. split; [reflexivity|].
  exists (drop (Z.to_nat h + Z.to_nat d + 2) (drop 10 buf)).
  unfold byte_at in Ea, Eb. apply fmap_Some in Ea as (ba & Ea & ->), Eb as (bb & Eb & ->).
  destruct (magic2_bytes _ _ (bz_range ba) (bz_range bb) H2) as [Ma Mb].
  rewrite (buf_fields buf ltac:(lia)) at 1. unfold frame. cbn [p_opcode p_header p_data].
  rewrite Lh, Ld, Hm. fold h. repeat rewrite <- app_assoc. do 3 f_equal.
  assert (Z.shiftr d 16 = be16_at buf 3) as ->.
  { rewrite Z.shiftr_div_pow2 by lia. unfold d. change (2 ^ 16) with 65536. Z.div_mod_to_equations. lia. }
  assert (Z.land d 0xffff = be16_at buf 4) as ->.
  { change 0xffff with (Z.ones 16). rewrite Z.land_ones by lia. unfold d. change (2 ^ 16) with 65536.
    Z.div_mod_to_equations. lia. }
  do 2 f_equal. replace (Z.to_nat (h + 10)) with (10 + Z.to_nat h)%nat by lia. rewrite <- drop_drop.
  replace (zb (Z.shiftr PACKET_MAGIC2 8)) with ba by (apply bz_inj; rewrite Ma; reflexivity).
  replace (zb (Z.land PACKET_MAGIC2 0xff)) with bb by (apply bz_inj; rewrite Mb; reflexivity).
  apply cut_body.
  - rewrite length_drop. lia.
  - rewrite lookup_drop, <- Ea. f_equal. lia.
  - rewrite lookup_drop, <- Eb. f_equal. lia.
Qed.

(** ** Sizes with the top bit set *)

(** A header of any length that ends in 0x89, and the byte 0xab after it. *)
Definition crash_packet (opc : Z) (h : list byte) : list byte :=
  be_enc 2 PACKET_MAGIC1 ++ be_enc 2 opc ++ be_enc 2 (zlen h + 1) ++ be_enc 2 0xffff ++ be_enc 2 0xffff
    ++ h ++ [zb 0x89; zb 0xab].

Lemma crash_throws q opc h :
  0 <= opc < 65536 -> zlen h < 65535 -> parse q (Some (crash_packet opc h)) = p_throw.
Proof.
  intros Ho Hh. set (buf := crash_packet opc h).
  assert (zlen buf = zlen h + 12) as Hl
    by (unfold buf, crash_packet; rewrite !length_app, !length_be_enc; cbn [length]; lia).
  assert (be16_at buf 0 = PACKET_MAGIC1 /\ be16_at buf 2 = zlen h + 1 /\ be16_at buf 3 = 0xffff /\ be16_at buf 4 = 0xffff)
    as (F0 & F2 & F3 & F4).
  { unfold buf, crash_packet. repeat split; rewrite ?be16_at_S; apply be16_at_0; unfold PACKET_MAGIC1; lia. }
  assert (byte_at buf (zlen h + 10) = Some 0x89 /\ byte_at buf (zlen h + 11) = Some 0xab) as [M1 M2].
  { set (pre := be_enc 2 PACKET_MAGIC1 ++ be_enc 2 opc ++ be_enc 2 (zlen h + 1) ++ be_enc 2 0xffff ++ be_enc 2 0xffff ++ h).
    assert (buf = pre ++ [zb 0x89; zb 0xab]) as -> by (unfold buf, crash_packet, pre; repeat rewrite <- app_assoc; reflexivity).
    assert (zlen pre = 10 + zlen h) as Hp by (unfold pre; rewrite !length_app, !length_be_enc; lia).
    replace (zlen h + 10) with (zlen pre + 0) by lia. replace (zlen h + 11) with (zlen pre + 1) by lia.
    rewrite !byte_at_app by (cbn [length]; lia). split; reflexivity. }
  unfold parse. cbv zeta. rewrite F0, F2, F3, F4, Hl, Z.eqb_refl. cbn [negb].
  rewrite !(proj2 (Z.ltb_ge _ 10)), !(proj2 (Z.ltb_ge _ (zlen h + 1 + 10))) by lia.
  rewrite data_size_large by lia.
  replace (u64 (18446744069414584320 + 65535 * 65536 + 65535 + (zlen h + 1) + 12)) with (zlen h + 12) by zwrap.
  replace (u64 (18446744069414584320 + 65535 * 65536 + 65535 + (zlen h + 1) + 10)) with (zlen h + 10) by zwrap.
  replace (u64 (18446744069414584320 + 65535 * 65536 + 65535 + (zlen h + 1) + 11)) with (zlen h + 11) by zwrap.
  rewrite Z.ltb_irrefl, M1, M2. reflexivity.
Qed.

Lemma bad_end_size q buf :
  parse q (Some buf) = p_throw \/ parse q (Some buf) = p_overread -> 10 <= zlen buf /\ 32768 <= be16_at buf 3.
Proof.
  unfold parse. cbv zeta. destruct (Z.ltb_spec (zlen buf) 10) as [|H10]; [intros [Hp|Hp]; discriminate Hp|].
  intros Hr. split; [lia|]. destruct (Z.lt_ge_cases (be16_at buf 3) 32768) as [R3'|]; [exfalso|assumption].
  revert Hr. destruct (negb _); [intros [Hp|Hp]; discriminate Hp|].
  pose proof (be16_at_range buf 2 ltac:(lia)) as R2. pose proof (be16_at_range buf 3 ltac:(lia)) as R3.
  pose proof (be16_at_range buf 4 ltac:(lia)) as R4.
  destruct (Z.ltb_spec (zlen buf) (be16_at buf 2 + 10)) as [|Hh]; [intros [Hp|Hp]; discriminate Hp|].
  rewrite data_size_small by lia. set (d := be16_at buf 3 * 65536 + be16_at buf 4).
  rewrite !wrap_id by (unfold in_u; zpow; lia).
  destruct (Z.ltb_spec (zlen buf) (d + be16_at buf 2 + 12)) as [|Hs]; [intros [Hp|Hp]; discriminate Hp|].
  destruct (lookup_lt_is_Some_2 buf (Z.to_nat (d + be16_at buf 2 + 10))) as [a Ea]; [lia|].
  destruct (lookup_lt_is_Some_2 buf (Z.to_nat (d + be16_at buf 2 + 11))) as [b Eb]; [lia|].
  unfold byte_at. rewrite Ea, Eb. cbn [fmap option_fmap option_map].
  destruct (negb _); [intros [Hp|Hp]; discriminate Hp|].
  destruct (Z.ltb_spec max_size d) as [Hm|]; [unfold max_size in Hm; lia|]. intros [Hp|Hp]; discriminate Hp.
Qed.

(** ** The exclusive or *)

Lemma length_xor_from i b k : length (xor_from i b k) = length b.
Proof. revert i. induction b as [|x b IH]; intros i; cbn [xor_from length]; auto. Qed.

Lemma xor_from_twice i b k : xor_from i (xor_from i b k) k = b.
Proof.
  revert i. induction b as [|x b IH]; intros i; cbn [xor_from]; [reflexivity|].
  rewrite bxor_cancel, IH. reflexivity.
Qed.

Lemma crypt_ok b k : k <> [] -> HyvCryptXor b k = Some (xor_from 0 b k).
Proof. intros Hk. unfold HyvCryptXor. destruct b, k; congruence || reflexivity. Qed.

Lemma crypt_twice b k : k <> [] -> HyvCryptXor (xor_from 0 b k) k = Some b.
Proof. intros Hk. rewrite crypt_ok, xor_from_twice by exact Hk. reflexivity. Qed.

(** ** Properties *)

(** [Packet::parse] accepts exactly the buffers that begin with the frame
    of a packet: it returns 0 with a packet if and only if the buffer is the
    bytes [Packet::build] stores for that packet, whose header is below 2^16
    bytes and whose data below 2^31, followed by anything. *)
Theorem packet_parse_iff q buf p :
  parse q (Some buf) = p_ok p <->
  fits p /\ p_raw p = Some buf /\ p_use_dispatch_key p = p_use_dispatch_key q /\
  exists rest, buf = frame p ++ rest.
Proof.
  split; [apply parse_inv|]. intros (Hf & Hr & Hu & rest & ->).
  rewrite parse_frame by exact Hf. rewrite <- Hr, <- Hu. destruct p; reflexivity.
Qed.

Lemma packet_parse_iff_witness :
  let p := mkPacket 7 [Byte.x01] [Byte.x02; Byte.x03] None 0 in
  parse (new_packet 0) (Some (frame p)) = p_ok (mkPacket 7 [Byte.x01] [Byte.x02; Byte.x03] (Some (frame p)) 0).
Proof.
  apply packet_parse_iff. split; [constructor; cbn; lia|]. split; [reflexivity|]. split; [reflexivity|].
  exists []. rewrite app_nil_r. reflexivity.
Defined.

(** [data_sz_hi << 16] is an [int]: when the top bit of a packet's data
    size is set, the size becomes one near 2^64, the sums that check it wrap
    around, and the parser may go on to look for the second magic number
    inside the header, or before the buffer.  A packet of 12 bytes then makes
    [std::string::assign] throw, which nothing catches; nothing else than such
    a size makes the parser throw or read outside the buffer. *)
Theorem packet_parse_crashes :
  (forall q opc h, 0 <= opc < 65536 -> zlen h < 65535 -> parse q (Some (crash_packet opc h)) = p_throw) /\
  (forall q buf, parse q (Some buf) = p_throw \/ parse q (Some buf) = p_overread ->
     10 <= zlen buf /\ 32768 <= be16_at buf 3).
Proof.
  split; [exact crash_throws|exact bad_end_size].
Qed.

Lemma packet_parse_crashes_witness :
  length (crash_packet 1 []) = 12%nat /\ parse (new_packet 0) (Some (crash_packet 1 [])) = p_throw.
Proof. split; [reflexivity|]. apply (proj1 packet_parse_crashes); cbn; lia. Defined.

(** What a session puts on the wire comes back: a packet that fits in the
    buffer is stored with its size, and the bytes stored, exclusive-ored with a
    key, exclusive-ored with the same key by the receiver, parse to the
    packet. *)
Theorem packet_wire_roundtrip p q buf k :
  fits p -> k <> [] -> 12 + zlen (p_header p) + zlen (p_data p) <= zlen buf ->
  exists buf' n wire plain p',
    build p (Some buf) (Some (zlen buf)) = Some (0, Some buf', Some n) /\ length buf' = length buf /\
    HyvCryptXor (ztake n buf') k = Some wire /\ zlen wire = n /\
    HyvCryptXor wire k = Some plain /\ parse q (Some plain) = p_ok p' /\
    p_opcode p' = p_opcode p /\ p_header p' = p_header p /\ p_data p' = p_data p.
Proof.
  intros Hf Hk Hb. pose proof (length_frame p) as Hl. unfold build.
  destruct (Z.ltb_spec (zlen buf) (zlen (frame p))); [lia|].
  exists (frame p ++ zdrop (zlen (frame p)) buf), (12 + zlen (p_header p) + zlen (p_data p)),
    (xor_from 0 (frame p) k), (frame p), (mkPacket (p_opcode p) (p_header p) (p_data p) (Some (frame p)) (p_use_dispatch_key q)).
  split; [reflexivity|]. split; [rewrite length_app, length_drop; lia|].
  rewrite take_app_all by lia. rewrite crypt_ok by exact Hk. split; [reflexivity|].
  rewrite length_xor_from. split; [exact Hl|]. split; [apply crypt_twice, Hk|].
  split; [|auto]. rewrite <- (app_nil_r (frame p)) at 1. rewrite parse_frame, app_nil_r by exact Hf. reflexivity.
Qed.

Lemma packet_wire_roundtrip_witness :
  exists wire plain p',
    HyvCryptXor (frame (mkPacket 7 [] [Byte.x09] None 0)) [Byte.x55; Byte.xaa] = Some wire /\
    HyvCryptXor wire [Byte.x55; Byte.xaa] = Some plain /\ parse (new_packet 0) (Some plain) = p_ok p' /\ p_data p' = [Byte.x09].
Proof.
  destruct (packet_wire_roundtrip (mkPacket 7 [] [Byte.x09] None 0) (new_packet 0) (replicate 13 Byte.x00)
    [Byte.x55; Byte.xaa]) as (buf' & n & wire & plain & p' & B & _ & W & _ & P & R & _ & _ & D).
  - constructor; cbn; lia.
  - discriminate.
  - cbn. lia.
  - exists wire, plain, p'. unfold build in B. cbn [zlen] in B. injection B as <- <-.
    split; [exact W|]. split; [exact P|]. split; [exact R|exact D].
Defined.
