(* ===== verification/Session.v ===== *)
(** * Sessions

    src/kcpsession.cpp and src/session.cpp: the transport of a client and the
    session on top of it.  A datagram handed to [Gameserver::send] is an output;
    where it goes is decided by GameServer.v.  The buffers passed here are
    arrays, never NULL, and the game server and client pointers are the ones
    the constructors insist on. *)

From S2P Require Import Prelude KcpTypes KcpRecv KcpSend KcpInput KcpFlush KcpInputFacts Mt64 Ec2b Packet.

(** ** KcpSession *)

Record KcpSession := mkKs { ks_kcp : option ikcpcb; kcp_next_update : Z }.

(** The constructor; [None]: it throws because [ikcp_create] returned NULL. *)
Definition new_KcpSession (id interval : Z) (malloc_kcp malloc_buf malloc_mtu : bool) : option KcpSession :=
  k ← ikcp_create id malloc_kcp malloc_buf;
  let '(_, k) := ikcp_nodelay k 1 (s32 interval) 2 1 in
  let '(_, k) := ikcp_setmtu k 1400 malloc_mtu in
  let '(_, k) := ikcp_wndsize k 256 256 in
  Some (mkKs (Some k) 0).

(** [raw_ret]: what [Gameserver::send] returns if it is called. *)
Definition ks_send (raw_ret : Z) (ks : KcpSession) (buf : list byte) : Z * KcpSession * list (list byte) :=
  match ks_kcp ks with
  | None => (raw_ret, ks, [buf])
  | Some k => let '(r, k) := ikcp_send k buf (zlen buf) in (r, mkKs (Some k) (kcp_next_update ks), [])
  end.

(** [raw]: what [Gameserver::recv] returns and stores if it is called. *)
Definition ks_recv (raw : Z * list byte) (ks : KcpSession) (len : Z) : Z * list byte * KcpSession :=
  match ks_kcp ks with
  | None => (raw, ks)
  | Some k => let '(r, buf, k) := ikcp_recv k len in (r, buf, mkKs (Some k) (kcp_next_update ks))
  end.

(** [None]: [ikcp_input] reads outside the buffer. *)
Definition pushToKcp (ks : KcpSession) (buf : list byte) : option (Z * KcpSession) :=
  match ks_kcp ks with
  | None => Some (-1, ks)
  | Some k => '(r, k) ← ikcp_input k (Some buf) (zlen buf); Some (r, mkKs (Some k) (kcp_next_update ks))
  end.

Definition getSessionId (ks : KcpSession) : Z :=
  match ks_kcp ks with None => 0 | Some k => k_conv k end.

(** [update(ms)]; the datagrams go out through [sendFromKcp]. *)
Definition ks_update (ks : KcpSession) (ms : Z) : KcpSession * list (list byte) :=
  match ks_kcp ks with
  | None => (ks, [])
  | Some k =>
      let next := ikcp_check k (kcp_next_update ks) in
      let '(k, out) := if next <=? kcp_next_update ks then ikcp_update k (kcp_next_update ks) else (k, []) in
      (mkKs (Some k) (u32 (kcp_next_update ks + ms)), out)
  end.

(** [update()]: the interval of the server; 100 without one. *)
Definition ks_update_interval (ks : KcpSession) (gs_interval : option Z) : KcpSession * list (list byte) :=
  ks_update ks (match gs_interval with Some i => u32 i | None => 100 end).

(** ** Session *)

Definition ERROR : Z := -3.
Definition FINISHED : Z := -2.
Definition TIMEOUT : Z := -1.
Definition NOT_CONNECTED : Z := 0.
Definition TOKEN_WAIT : Z := 1.
Definition LOGIN_WAIT : Z := 2.
Definition BORN_WAIT : Z := 3.
Definition ACTIVE : Z := 4.

Section session.
(** [Player*], a pointer to what src/player.cpp keeps. *)
Context {Player : Type}.

(** [s_state] is an [unsigned int]. *)
Record Session := mkSession {
  s_kcp : option KcpSession; s_player : option Player; s_state : Z; s_use_secret_key : Z;
  s_sequence : Z; s_seed : Z; s_last_ping : Z; s_key : list byte }.

(** The constructor; [sessionSeed] and [sessionKey] are left as they are. *)
Definition new_Session (ks : KcpSession) (now junk_seed : Z) (junk_key : list byte) : Session :=
  mkSession (Some ks) None (u32 TOKEN_WAIT) 0 10 junk_seed now junk_key.

Definition getState (s : Session) : Z := s32 (s_state s).

Definition setState (s : Session) (i : Z) : Session :=
  mkSession (s_kcp s) (s_player s) (u32 i) (s_use_secret_key s) (s_sequence s) (s_seed s) (s_last_ping s) (s_key s).

Definition setPlayer (s : Session) (p : option Player) : Session :=
  mkSession (s_kcp s) p (s_state s) (s_use_secret_key s) (s_sequence s) (s_seed s) (s_last_ping s) (s_key s).

Definition setKcp (s : Session) (k : option KcpSession) : Session :=
  mkSession k (s_player s) (s_state s) (s_use_secret_key s) (s_sequence s) (s_seed s) (s_last_ping s) (s_key s).

Definition setUseSecretKey (s : Session) (i : Z) : Session :=
  mkSession (s_kcp s) (s_player s) (s_state s) (if i =? 0 then 0 else 1) (s_sequence s) (s_seed s) (s_last_ping s) (s_key s).

Definition useSecretKey (s : Session) : bool := negb (s_use_secret_key s =? 0).

Definition setLastPingTime (s : Session) (ping : Z) : Session :=
  mkSession (s_kcp s) (s_player s) (s_state s) (s_use_secret_key s) (s_sequence s) (s_seed s) ping (s_key s).

Definition setSeq (s : Session) (seq : Z) : Session :=
  mkSession (s_kcp s) (s_player s) (s_state s) (s_use_secret_key s) seq (s_seed s) (s_last_ping s) (s_key s).

Definition nextSeq (s : Session) : Z * Session :=
  let n := u32 (s_sequence s + 1) in (n, setSeq s n).

(** [rnd]: the eight bytes from [getrandom]. *)
Definition generateSessionKey (rnd : Z) (s : Session) : M Session :=
  p ← genXorpadFromSeed rnd (Some (s_key s)) 4096 false true;
  ret (mkSession (s_kcp s) (s_player s) (s_state s) (s_use_secret_key s) (s_sequence s) rnd (s_last_ping s)
         (default (s_key s) p)).

(** [kcp_handshake_t] in network order. *)
Definition handshake (magic1 sid cmd magic2 : Z) : list byte :=
  be_enc 4 magic1 ++ be_enc 4 (Z.land sid 0xffffffff) ++ be_enc 4 (Z.shiftr sid 32) ++ be_enc 4 cmd ++ be_enc 4 magic2.

Definition close_datagram (sid reason : Z) : list byte := handshake 0x194 sid reason 0x19419494.

(** [close(reason)] deletes the transport and the player. *)
Definition close (s : Session) (reason : Z) : Session * list (list byte) :=
  let out := match s_kcp s with Some ks => [close_datagram (getSessionId ks) reason] | None => [] end in
  (mkSession None None (u32 NOT_CONNECTED) (s_use_secret_key s) (s_sequence s) (s_seed s) (s_last_ping s) (s_key s), out).

(** [dispatchKey] is used when [hasDispatchSeed] is set. *)
Variable dispatch_key : option (list byte).

Definition packet_key (s : Session) (p : Packet) : option (list byte) :=
  if negb (useDispatchKey p) && useSecretKey s then Some (s_key s) else dispatch_key.

Definition SEND_BUF : Z := 4096.

(** [sendPacket]: the value returned, the session and the raw datagrams.
    [None]: the packet is stored past the end of the static buffer of 4096
    bytes, a key is empty, or [kcpSession] is NULL.  [buf]: its contents. *)
Definition sendPacket (raw_ret : Z) (buf : list byte) (s : Session) (p : Packet)
  : option (Z * Session * list (list byte)) :=
  '(r, b, n) ← build p (Some buf) (Some SEND_BUF);
  if r <? 0 then Some (-1, s, [])
  else
    b ← b;
    n ← n;
    wire ← match packet_key s p with
           | Some key => HyvCryptXor (ztake n b) key
           | None => Some (ztake n b)
           end;
    ks ← s_kcp s;
    let '(r, ks, out) := ks_send raw_ret ks wire in
    Some (if r <? 0 then -1 else 0, setKcp s (Some ks), out).
End session.

Arguments Session : clear implicits.

(** ** Sessions: what their operations leave alone

    The id of a transport is set once, by its constructor; and a session is
    changed by a field at a time. *)

(** ** The conversation id *)

Lemma recv_conv k n : k_conv (snd (ikcp_recv k n)) = k_conv k.
Proof.
  unfold ikcp_recv, rcv_move. destruct (k_rcv_queue k); [reflexivity|]. cbv zeta.
  destruct (ikcp_peeksize k <? 0); [reflexivity|].
  destruct (_ <? ikcp_peeksize k); [reflexivity|]. destruct (n <? 0), (_ && _); reflexivity.
Qed.

Lemma send_conv k b n : k_conv (snd (ikcp_send k b n)) = k_conv k.
Proof.
  unfold ikcp_send. cbv zeta. destruct (n <? 0); [reflexivity|]. destruct (_ && _); [reflexivity|].
  destruct (IKCP_WND_RCV <=? _); reflexivity.
Qed.

Lemma input_loop_conv fuel k a d n r k' a' :
  input_loop fuel k a d n = Some (r, k', a') -> k_conv k' = k_conv k.
Proof.
  revert k a d n. induction fuel as [|fuel IH]; intros k a d n; cbn [input_loop]; [discriminate|].
  destruct (n <? IKCP_OVERHEAD); [congruence|].
  destruct (ikcp_decode64u d) as [[conv d1]|]; [|discriminate]. cbn [mbind option_bind].
  destruct (negb _); [congruence|]. destruct (decode_header conv d1) as [[h d2]|]; [|discriminate].
  cbn [mbind option_bind]. cbv zeta. destruct (_ || _); [congruence|]. destruct (negb _); [congruence|].
  destruct (read_bytes _ d2) as [[p d3]|]; [|discriminate]. cbn [mbind option_bind].
  intros E. apply IH in E. rewrite E. apply input_seg_conv.
Qed.

Lemma input_conv k d n r k' : ikcp_input k d n = Some (r, k') -> k_conv k' = k_conv k.
Proof.
  unfold ikcp_input. destruct d as [d|]; [|congruence]. destruct (_ <? IKCP_OVERHEAD); [congruence|].
  destruct (input_loop _ _ _ _ _) as [[[r0 k0] a]|] eqn:E; [|discriminate]. apply input_loop_conv in E.
  destruct (r0 <? 0); [congruence|]. intros H. injection H as _ <-. rewrite <- E.
  unfold input_finish, input_cwnd, ikcp_parse_fastack. cbv zeta.
  repeat match goal with |- context [if ?b then _ else _] => destruct b; try reflexivity end.
Qed.

Lemma flush_control_conv k : k_conv (fst (flush_control k)) = k_conv k.
Proof.
  unfold flush_control, update_probe. cbv zeta. cbn [fst].
  change (k_conv (set_probe 0 ?x)) with (k_conv x).
  repeat match goal with |- context [if ?b then _ else _] => destruct b; try reflexivity end.
Qed.

Lemma flush_data_conv wnd k b : k_conv (fst (flush_data wnd k b)) = k_conv k.
Proof. reflexivity. Qed.

Lemma flush_conv k : k_conv (fst (ikcp_flush k)) = k_conv k.
Proof.
  unfold ikcp_flush. destruct (k_updated k =? 0); [reflexivity|]. cbv zeta.
  rewrite flush_data_conv. apply flush_control_conv.
Qed.

Lemma update_conv k c : k_conv (fst (ikcp_update k c)) = k_conv k.
Proof.
  unfold ikcp_update. cbv zeta.
  repeat match goal with |- context [if ?b then _ else _] => destruct b end; rewrite ?flush_conv; reflexivity.
Qed.

(** ** The id of a transport *)

Lemma ks_send_id raw ks b : getSessionId (snd (fst (ks_send raw ks b))) = getSessionId ks.
Proof.
  unfold ks_send, getSessionId. destruct (ks_kcp ks) as [k|] eqn:E; cbn [fst snd]; [|rewrite E; reflexivity].
  pose proof (send_conv k b (zlen b)) as H. destruct (ikcp_send _ _ _). exact H.
Qed.

Lemma ks_recv_id raw ks n : getSessionId (snd (ks_recv raw ks n)) = getSessionId ks.
Proof.
  unfold ks_recv, getSessionId. destruct (ks_kcp ks) as [k|] eqn:E; cbn [snd]; [|rewrite E; reflexivity].
  pose proof (recv_conv k n) as H. destruct (ikcp_recv k n) as [[r b] k']. exact H.
Qed.

Lemma ks_push_id ks d r ks' : pushToKcp ks d = Some (r, ks') -> getSessionId ks' = getSessionId ks.
Proof.
  unfold pushToKcp, getSessionId. destruct (ks_kcp ks) as [k|] eqn:E.
  - destruct (ikcp_input _ _ _) as [[n k']|] eqn:Ei; [|discriminate]. cbn [mbind option_bind]. intros H.
    injection H as _ <-. exact (input_conv _ _ _ _ _ Ei).
  - intros H. injection H as _ <-. rewrite E. reflexivity.
Qed.

Lemma ks_update_id ks ms : getSessionId (fst (ks_update ks ms)) = getSessionId ks.
Proof.
  unfold ks_update, getSessionId. destruct (ks_kcp ks) as [k|] eqn:E; cbn [fst]; [|rewrite E; reflexivity].
  destruct (_ <=? _); [|reflexivity]. pose proof (update_conv k (kcp_next_update ks)) as H.
  destruct (ikcp_update _ _). exact H.
Qed.
