(* ===== verification/GameServer.v ===== *)
(** * The game server

    src/gameserver.cpp: the table of sessions and [GameserverMain], which
    receives a datagram and hands it to a session, closes one or opens one; and
    [SessionMain] of src/session.cpp, the thread of a session, one round of its
    loop at a time.  Session objects live in a heap, because threads keep
    pointers to them; a deleted object is not in the heap any more, and what
    reads it has no result.  Every session keeps the same pointer, to the
    static [client] that [recvfrom] overwrites: a datagram of a session goes to
    the address stored there at that moment.  Closing a session deletes its
    player, whose destructor saves it: what else the program reads and changes
    (the database, the clock) is the [World], and the destructor and
    [processPacket] are arguments here; Handlers.v has the program's. *)

From stdpp Require Import gmap.
From S2P Require Import Prelude KcpTypes Packet Session.

Section server.
Context {Addr Player World : Type}.

(** A thread: its session pointer, and the variables [key] and [packet]. *)
Record thread := mkThread { t_session : nat; t_key : option (list byte); t_packet : Packet }.

(** [sessionList] is [g_slots]; [g_next] is the next pointer [new] returns (one
    that no object had before); [g_sent] is what [sendto] was given. *)
Record server := mkServer {
  g_client : Addr; g_interval : Z; g_slots : list (option nat); g_heap : gmap nat (Session Player);
  g_next : nat; g_threads : list thread; g_sent : list (Addr * list byte); g_world : World }.

Definition set_client (a : Addr) (g : server) : server :=
  mkServer a (g_interval g) (g_slots g) (g_heap g) (g_next g) (g_threads g) (g_sent g) (g_world g).

Definition set_heap (h : gmap nat (Session Player)) (g : server) : server :=
  mkServer (g_client g) (g_interval g) (g_slots g) h (g_next g) (g_threads g) (g_sent g) (g_world g).

Definition set_slot (i : nat) (p : option nat) (g : server) : server :=
  mkServer (g_client g) (g_interval g) (<[i := p]> (g_slots g)) (g_heap g) (g_next g) (g_threads g) (g_sent g) (g_world g).

Definition set_threads (ts : list thread) (g : server) : server :=
  mkServer (g_client g) (g_interval g) (g_slots g) (g_heap g) (g_next g) ts (g_sent g) (g_world g).

(** [Gameserver::send(client, msg, sz)] for each datagram, in order. *)
Definition emit (out : list (list byte)) (g : server) : server :=
  mkServer (g_client g) (g_interval g) (g_slots g) (g_heap g) (g_next g) (g_threads g)
    (g_sent g ++ map (pair (g_client g)) out) (g_world g).

Definition set_world (w : World) (g : server) : server :=
  mkServer (g_client g) (g_interval g) (g_slots g) (g_heap g) (g_next g) (g_threads g) (g_sent g) w.

(** The object is changed and its datagrams are sent. *)
Definition store (p : nat) (s : Session Player) (out : list (list byte)) (g : server) : server :=
  emit out (set_heap (<[p := s]> (g_heap g)) g).

(** After [start]: [maxSessions] slots, all NULL.  [interval]: [kcpInterval],
    100 unless it was set. *)
Definition gs_start (client : Addr) (interval : Z) (maxSessions : nat) (w : World) : server :=
  mkServer client interval (replicate maxSessions None) ∅ 0 [] [] w.

(** ** Closing a session

    [~Player]: the world afterwards; [None]: it fails. *)
Variable del_player : Player -> server -> option World.

(** [Session::close] of the object at [p]: the transport is deleted, then the
    player. *)
Definition close_at (p : nat) (reason : Z) (g : server) : option server :=
  s ← g_heap g !! p;
  let '(s', out) := close s reason in
  let g := store p (setKcp s None) out g in
  w ← match s_player s with None => Some (g_world g) | Some player => del_player player g end;
  Some (store p s' [] (set_world w g)).

(** ** Reading the handshake *)

Definition hs_field (i : nat) (d : list byte) : Z := be_dec (take 4 (drop (4 * i) d)).
Definition hs_magic1 := hs_field 0.
Definition hs_sid1 := hs_field 1.
Definition hs_sid2 := hs_field 2.
Definition hs_cmd := hs_field 3.
Definition hs_magic2 := hs_field 4.
Definition HANDSHAKE_SIZE : Z := 20.

Definition hs_sid (d : list byte) : Z := Z.lor (u64 (Z.shiftl (hs_sid2 d) 32)) (hs_sid1 d).

Definition is_close (d : list byte) : bool := (hs_magic1 d =? 0x194) && (hs_magic2 d =? 0x19419494).
Definition is_open (d : list byte) : bool :=
  (hs_magic1 d =? 0xff) && (hs_cmd d =? 1234567890) && (hs_magic2 d =? 0xffffffff).

(** [((unsigned long long* ) pkt_buf)[0]] *)
Definition kcp_sid (d : list byte) : Z := le_dec (take 8 d).

(** ** The loop over the sessions

    The result says whether a session took the datagram ([i < maxSessions]);
    [sid] is the variable, which the handshake overwrites. *)

Fixpoint scan (slots : list (option nat)) (sid : Z) (d : list byte) (g : server) : option (bool * server) :=
  match slots with
  | [] => Some (false, g)
  | None :: slots => scan slots sid d g
  | Some p :: slots =>
      s ← g_heap g !! p;
      if getState s <? NOT_CONNECTED then scan slots sid d g
      else
        match s_kcp s with
        | None => scan slots sid d g
        | Some ks =>
            if getSessionId ks =? sid then
              '(_, ks) ← pushToKcp ks d;
              Some (true, store p (setKcp s (Some ks)) [] g)
            else
              let sid := hs_sid d in
              if negb (getSessionId ks =? sid)
                 && (negb (Z.land sid 0xffffffff =? hs_sid1 d) && negb (hs_sid2 d =? 0))
              then scan slots sid d g
              else if is_close d then
                g ← close_at p (hs_cmd d) g; Some (true, g)
              else scan slots sid d g
        end
  end.

(** ** A place for a new session *)

(** [delete sessionList[i]; sessionList[i] = NULL;]: the destructor closes
    with reason 12. *)
Definition delete_session (i : nat) (g : server) : option server :=
  match g_slots g !! i with
  | Some (Some p) =>
      g ← close_at p 12 g;
      Some (set_slot i None (set_heap (delete p (g_heap g)) g))
  | Some None => Some g
  | None => None
  end.

(** The loop from [i]; a closed session is looked at again ([i--]).
    [None]: the fuel is used up or the table is read outside. *)
Fixpoint find_slot (fuel : nat) (i tries : nat) (g : server) : option (nat * server) :=
  match fuel with
  | O => None
  | S fuel =>
      if (length (g_slots g) <=? i)%nat then Some (i, g)
      else
        match g_slots g !! i with
        | None => None
        | Some None => Some (i, g)
        | Some (Some p) =>
            s ← g_heap g !! p;
            let again reason tries :=
              g ← close_at p reason g;
              if (5 <=? tries)%nat then
                match i with
                | O => None
                | S j => g ← delete_session j g; Some (j, g)
                end
              else find_slot fuel i tries g in
            let st := getState s in
            if st =? NOT_CONNECTED then g ← delete_session i g; Some (i, g)
            else if st =? TIMEOUT then again 10 (S tries)
            else if st =? ERROR then again 12 (S tries)
            else if st =? FINISHED then again 3 tries
            else find_slot fuel (S i) tries g
        end
  end.

(** [new] for an object [s]. *)
Definition alloc (s : Session Player) (g : server) : server :=
  mkServer (g_client g) (g_interval g) (g_slots g) (<[g_next g := s]> (g_heap g)) (S (g_next g)) (g_threads g) (g_sent g) (g_world g).

(** What the environment decides while a datagram is handled. *)
Record env := mkEnv {
  e_sid : Z;                       (* the bytes from getrandom *)
  e_sent : Z;                      (* what Gameserver::send returns for the reply *)
  e_now : Z;                       (* curTimeMs() *)
  e_mallocs : bool * bool * bool;
  e_junk_seed : Z; e_junk_key : list byte }.

(** [sessionList[i] = new Session(gs, &client, sid)] and its thread;
    [None]: the constructor throws. *)
Definition new_session (e : env) (i : nat) (g : server) : option server :=
  let '(m1, m2, m3) := e_mallocs e in
  ks ← new_KcpSession (e_sid e) (g_interval g) m1 m2 m3;
  let p := g_next g in
  let g := set_slot i (Some p) (alloc (new_Session ks (e_now e) (e_junk_seed e) (e_junk_key e)) g) in
  Some (set_threads (g_threads g ++ [mkThread p None (new_packet 0)]) g).

Definition open_session (e : env) (g : server) : option server :=
  let g := emit [handshake 0x145 (e_sid e) 1234567890 0x14514545] g in
  if e_sent e <? HANDSHAKE_SIZE then Some g
  else
    '(i, g) ← find_slot (3 * length (g_slots g) + 1) 0 0 g;
    if (length (g_slots g) <=? i)%nat then Some (emit [close_datagram (e_sid e) 5] g)
    else new_session e i g.

(** One datagram, from [recvfrom] to the end of the loop's body. *)
Definition on_datagram (e : env) (from : Addr) (d : list byte) (g : server) : option server :=
  let g := set_client from g in
  if zlen d <? HANDSHAKE_SIZE then Some g
  else
    '(taken, g) ← scan (g_slots g) (kcp_sid d) d g;
    if taken : bool then Some g
    else if is_open d then open_session e g
    else Some g.

(** ** Looking a session up, stopping

    [sessionList] is not NULL while the server runs.  The first [None]: a NULL
    slot is dereferenced; the inner one is the NULL that is returned. *)
Fixpoint getSessionById (slots : list (option nat)) (id : Z) (g : server) : option (option nat) :=
  match slots with
  | [] => Some None
  | None :: _ => None
  | Some p :: slots =>
      s ← g_heap g !! p;
      match s_kcp s with
      | None => getSessionById slots id g
      | Some ks => if getSessionId ks =? id then Some (Some p) else getSessionById slots id g
      end
  end.

Fixpoint getSessionByUid (getUid : Player -> Z) (slots : list (option nat)) (id : Z) (g : server)
  : option (option nat) :=
  match slots with
  | [] => Some None
  | None :: _ => None
  | Some p :: slots =>
      s ← g_heap g !! p;
      match s_player s with
      | None => getSessionByUid getUid slots id g
      | Some player => if getUid player =? id then Some (Some p) else getSessionByUid getUid slots id g
      end
  end.

(** [Gameserver::stop]: every session is closed with reason 6 and deleted,
    the first [n] slots of them so far. *)
Fixpoint stop (n : nat) (g : server) : option server :=
  match n with
  | O => Some g
  | S i =>
      g ← stop i g;
      match g_slots g !! i with
      | Some (Some p) =>
          g ← close_at p 6 g;
          delete_session i g
      | Some None => Some g
      | None => None
      end
  end.

Definition gs_stop (g : server) : option server := stop (length (g_slots g)) g.

(** ** The thread of a session *)

(** [processPacket] of src/packet_handlers.cpp for the session at a pointer:
    the value returned, [isValid] and the server; [None]: a handler fails. *)
Variable processPacket : nat -> Packet -> server -> option (Z * bool * server).

Variable dispatch_key : option (list byte).

(** The variable [key] before a packet is decrypted. *)
Definition turn_key (s : Session Player) (key : option (list byte)) : option (list byte) :=
  if useSecretKey s then Some (s_key s) else match dispatch_key with Some k => Some k | None => key end.

(** A packet from [kcp->recv]; the result: whether the loop is left, the
    server, the thread's variables. *)
Definition on_packet (t : thread) (buf : list byte) (g : server) : option (bool * server * thread) :=
  s ← g_heap g !! t_session t;
  let key := turn_key s (t_key t) in
  plain ← match key with Some k => HyvCryptXor buf k | None => Some buf end;
  match parse (t_packet t) (Some plain) with
  | p_throw | p_overread => None
  | p_reject p => Some (false, g, mkThread (t_session t) key p)
  | p_ok p =>
      '(r, valid, g) ← processPacket (t_session t) p g;
      s ← g_heap g !! t_session t;
      Some (valid && (r <? 0) && (getState s <=? NOT_CONNECTED), g, mkThread (t_session t) key p)
  end.

(** One round; the thread has ended when there is none in the result.  The
    local [kcp] is the transport the session had when the thread started, so
    there is no result when that has been deleted. *)
Definition turn (now : Z) (t : thread) (g : server) : option (server * option thread) :=
  let p := t_session t in
  let finish g reason := g ← close_at p reason g; Some (g, None) in
  s ← g_heap g !! p;
  if getState s <=? NOT_CONNECTED then finish g 3
  else
    ks ← s_kcp s;
    let '(r, buf, ks) := ks_recv (0, []) ks (16 * 1024) in
    let g := store p (setKcp s (Some ks)) [] g in
    '(stop, g, t) ← if r <? 0 then Some (false, g, t) else on_packet t buf g;
    if stop : bool then finish g 3
    else
      s ← g_heap g !! p;
      ks ← s_kcp s;
      let '(ks, out) := ks_update ks 50 in
      let g := store p (setKcp s (Some ks)) out g in
      if u64 (s_last_ping s + 30 * 1000) <? now then finish g 10
      else Some (g, Some t).

(** ** Executions

    The main thread takes a datagram, the thread at [i] makes a round, or the
    rest of the program and of the machine changes the world. *)
Inductive event :=
| Datagram (e : env) (from : Addr) (d : list byte) | Turn (i : nat) (now : Z) | Outside (w : World).

Definition gs_step (ev : event) (g : server) : option server :=
  match ev with
  | Datagram e from d => on_datagram e from d g
  | Turn i now =>
      t ← g_threads g !! i;
      '(g, t) ← turn now t g;
      Some (match t with
            | Some t => set_threads (<[i := t]> (g_threads g)) g
            | None => set_threads (delete i (g_threads g)) g
            end)
  | Outside w => Some (set_world w g)
  end.

Fixpoint gs_run (evs : list event) (g : server) : option server :=
  match evs with
  | [] => Some g
  | ev :: evs => g ← gs_step ev g; gs_run evs g
  end.
End server.

Arguments server : clear implicits.
Arguments event : clear implicits.
