(* ===== verification/GameServerProps.v ===== *)
(** * The game server: theorems *)

From stdpp Require Import gmap.
From S2P Require Import Prelude Bytes KcpTypes KcpInput KcpInputFacts Packet PacketProps Session GameServer.

Section server.
Context {Addr Player World : Type}.
Implicit Types (g : server Addr Player World) (s : Session Player).

Variable del_player : Player -> server Addr Player World -> option World.

(** What the server asks of players and of the world: the destructor of a
    player that is well formed ends, and leaves a well-formed world; and what
    holds of how far a session has got, when it is made, when it is closed, and
    while only its transport changes. *)
Class PlayerLaws := {
  player_ok : Player -> Prop;
  world_ok : World -> Prop;
  stage_ok : Session Player -> Prop;
  stage_new : forall ks now seed key, stage_ok (new_Session ks now seed key);
  stage_closed : forall s reason, stage_ok (fst (close s reason));
  stage_kcp : forall s k, is_Some (s_kcp s) \/ k = None -> stage_ok s -> stage_ok (setKcp s k);
  del_player_ok : forall pl g, player_ok pl -> world_ok (g_world g) ->
    exists w, del_player pl g = Some w /\ world_ok w
}.

Context `{PlayerLaws}.

(** ** The table

    Every slot that is not NULL points to a live object of its own; no
    transport has the id 0; and players, the world and what sessions have got
    to are well formed. *)
Record session_ok s : Prop := {
  so_id : forall ks, s_kcp s = Some ks -> getSessionId ks <> 0;
  so_player : forall pl, s_player s = Some pl -> player_ok pl;
  so_stage : stage_ok s
}.

Record gs_wf g : Prop := {
  wf_live : forall i p, g_slots g !! i = Some (Some p) -> is_Some (g_heap g !! p);
  wf_own : forall i j p, g_slots g !! i = Some (Some p) -> g_slots g !! j = Some (Some p) -> i = j;
  wf_next : forall p, is_Some (g_heap g !! p) -> (p < g_next g)%nat;
  wf_sessions : forall p s, g_heap g !! p = Some s -> session_ok s;
  wf_world : world_ok (g_world g)
}.

Lemma start_wf a iv n w : world_ok w -> gs_wf (gs_start a iv n w).
Proof.
  intros Hw. constructor; cbn [gs_start g_slots g_heap g_world]; [intros i p|intros i j p|intros p|intros p s|exact Hw]; intros E;
    [apply lookup_replicate in E as [E _]; discriminate E..| |].
  - rewrite lookup_empty in E. destruct E; discriminate.
  - rewrite lookup_empty in E. discriminate E.
Qed.

Lemma emit_wf out g : gs_wf g -> gs_wf (emit out g).
Proof. intros []; constructor; assumption. Qed.

Lemma client_wf a g : gs_wf g -> gs_wf (set_client a g).
Proof. intros []; constructor; assumption. Qed.

Lemma threads_wf ts g : gs_wf g -> gs_wf (set_threads ts g).
Proof. intros []; constructor; assumption. Qed.

Lemma world_wf w g : world_ok w -> gs_wf g -> gs_wf (set_world w g).
Proof. intros Hw []; constructor; assumption. Qed.

Lemma store_wf p s out g : is_Some (g_heap g !! p) -> session_ok s -> gs_wf g -> gs_wf (store p s out g).
Proof.
  intros Hp Hs [Hl Ho Hn Hok Hw]. constructor; cbn [store emit set_heap g_slots g_heap g_next g_world]; [|exact Ho| | |exact Hw].
  - intros i q E. destruct (decide (p = q)) as [->|]; [rewrite lookup_insert_eq|rewrite lookup_insert_ne by assumption]; eauto.
  - intros q E. destruct (decide (p = q)) as [<-|]; [exact (Hn p Hp)|].
    rewrite lookup_insert_ne in E by assumption. exact (Hn q E).
  - intros q t E. destruct (decide (p = q)) as [<-|]; [rewrite lookup_insert_eq in E; injection E as <-; exact Hs|].
    rewrite lookup_insert_ne in E by assumption. exact (Hok q t E).
Qed.

#[local] Hint Resolve emit_wf client_wf threads_wf world_wf store_wf : core.

(** ** Closing and deleting *)

Lemma session_closed s reason : session_ok (fst (close s reason)).
Proof. constructor; [discriminate..|apply stage_closed]. Qed.

Lemma session_no_kcp s : session_ok s -> session_ok (setKcp s None).
Proof. intros [_ Hp Hs]. constructor; [discriminate|exact Hp|]. apply stage_kcp; [right; reflexivity|exact Hs]. Qed.

Lemma session_kcp s ks ks' :
  session_ok s -> s_kcp s = Some ks -> getSessionId ks' = getSessionId ks -> session_ok (setKcp s (Some ks')).
Proof.
  intros [Hk Hp Hs] E Hi. constructor; [|exact Hp|apply stage_kcp; [left; rewrite E; eauto|exact Hs]].
  intros k E'. injection E' as <-. rewrite Hi. exact (Hk ks E).
Qed.

#[local] Hint Resolve session_closed session_no_kcp : core.

(** What is not the heap nor what was sent. *)
Record same_table g g' : Prop := {
  st_slots : g_slots g' = g_slots g;
  st_client : g_client g' = g_client g;
  st_next : g_next g' = g_next g;
  st_threads : g_threads g' = g_threads g
}.

Lemma same_table_refl g : same_table g g.
Proof. constructor; reflexivity. Qed.

Lemma same_table_trans g1 g2 g3 : same_table g1 g2 -> same_table g2 g3 -> same_table g1 g3.
Proof. intros [] []; constructor; congruence. Qed.

Lemma same_table_store p s out g : same_table g (store p s out g).
Proof. constructor; reflexivity. Qed.

(** [close_at] whether or not the player is well formed. *)
Lemma close_at_inv p reason g g' :
  close_at del_player p reason g = Some g' ->
  exists s, g_heap g !! p = Some s /\ same_table g g' /\
    g_heap g' = <[p := fst (close s reason)]> (g_heap g) /\
    g_sent g' = g_sent g ++ map (pair (g_client g)) (snd (close s reason)).
Proof.
  unfold close_at. destruct (g_heap g !! p) as [s|] eqn:E; [|discriminate]. cbn [mbind option_bind].
  exists s. split; [reflexivity|]. destruct (close s reason) as [s' out]. cbv zeta. cbn [fst snd].
  destruct (match s_player s with Some _ => _ | None => _ end) as [w|]; [|discriminate].
  cbn [mbind option_bind] in *. injection H0 as <-. split; [constructor; reflexivity|].
  cbn [store set_world emit set_heap g_heap g_sent g_client map]. rewrite insert_insert_eq, app_nil_r. auto.
Qed.

Lemma close_at_ok p reason g s :
  gs_wf g -> g_heap g !! p = Some s ->
  exists g', close_at del_player p reason g = Some g' /\ gs_wf g' /\ same_table g g' /\
    g_heap g' = <[p := fst (close s reason)]> (g_heap g).
Proof.
  intros Hw Hp. assert (exists g', close_at del_player p reason g = Some g' /\ gs_wf g') as (g' & E & W).
  2: { destruct (close_at_inv _ _ _ _ E) as (s' & Hs & T & Hh & _). exists g'. replace s with s' by congruence. auto. }
  unfold close_at. rewrite Hp. cbn [mbind option_bind]. pose proof (session_closed s reason) as Hc.
  destruct (close s reason) as [s' out]. cbv zeta. cbn [fst] in Hc.
  pose proof (wf_sessions g Hw p s Hp) as Hs.
  assert (gs_wf (store p (setKcp s None) out g)) as W1 by (apply store_wf; eauto).
  destruct (s_player s) as [pl|] eqn:Epl.
  - destruct (del_player_ok pl _ (so_player s Hs pl Epl) (wf_world _ W1)) as (w & -> & Ww). cbn [mbind option_bind].
    eexists. split; [reflexivity|]. apply store_wf; [eexists; apply lookup_insert_eq|exact Hc|]. auto.
  - cbn [mbind option_bind]. eexists. split; [reflexivity|].
    apply store_wf; [eexists; apply lookup_insert_eq|exact Hc|]. apply world_wf; [apply (wf_world _ W1)|exact W1].
Qed.

Lemma delete_wf i g :
  gs_wf g -> (i < length (g_slots g))%nat -> exists g', delete_session del_player i g = Some g' /\ gs_wf g' /\
    length (g_slots g') = length (g_slots g) /\ g_slots g' !! i = Some None.
Proof.
  intros Hw Hi. unfold delete_session. destruct (lookup_lt_is_Some_2 (g_slots g) i Hi) as [[p|] E]; rewrite E.
  - destruct (wf_live g Hw i p E) as [s Es].
    destruct (close_at_ok p 12 g s Hw Es) as (g1 & -> & [Hl Ho Hx Hok Ww] & [T1 T2 T3 T4] & Hh). cbn [mbind option_bind].
    eexists. split; [reflexivity|]. rewrite T1 in *.
    cbn [set_slot set_heap g_slots g_heap]. rewrite T1. split; [|split; [apply length_insert|apply list_lookup_insert_eq, Hi]].
    constructor; cbn [set_slot set_heap g_slots g_heap g_next g_world]; rewrite ?T1; [| | | |exact Ww].
    + intros j q E'. destruct (decide (i = j)) as [->|Hn].
      * rewrite list_lookup_insert_eq in E' by exact Hi. discriminate E'.
      * rewrite list_lookup_insert_ne in E' by exact Hn. rewrite lookup_delete_ne; [eauto|].
        intros ->. apply Hn, (Ho i j q); assumption.
    + intros j k q H1 H2. destruct (decide (i = j)) as [->|Hj]; [rewrite list_lookup_insert_eq in H1 by exact Hi; discriminate H1|].
      destruct (decide (i = k)) as [->|Hk]; [rewrite list_lookup_insert_eq in H2 by exact Hi; discriminate H2|].
      rewrite list_lookup_insert_ne in H1, H2 by assumption. eauto.
    + intros q E'. apply Hx. destruct (decide (p = q)) as [->|]; [rewrite lookup_delete_eq in E'; destruct E'; discriminate|].
      rewrite lookup_delete_ne in E' by assumption. exact E'.
    + intros q t E'. apply lookup_delete_Some in E' as [_ E']. exact (Hok q t E').
  - exists g. split; [reflexivity|]. split; [exact Hw|]. split; [reflexivity|exact E].
Qed.

(** A session that is connected. *)
Definition connected s : Prop := 0 < getState s.

(** What handling a datagram keeps: the number of slots, and the sessions
    that are connected, in place. *)
Record keeps g g' : Prop := {
  kp_len : length (g_slots g') = length (g_slots g);
  kp_live : forall i p s, g_slots g !! i = Some (Some p) -> g_heap g !! p = Some s -> connected s ->
    g_slots g' !! i = Some (Some p) /\ g_heap g' !! p = Some s
}.

Lemma keeps_refl g : keeps g g.
Proof. constructor; auto. Qed.

Lemma keeps_trans a b c : keeps a b -> keeps b c -> keeps a c.
Proof.
  intros [L1 K1] [L2 K2]. constructor; [congruence|]. intros i p s H1 H2 H3.
  destruct (K1 i p s H1 H2 H3) as [H4 H5]. exact (K2 i p s H4 H5 H3).
Qed.

Lemma keeps_emit out g : keeps g (emit out g).
Proof. constructor; auto. Qed.

(** Changing an object that is not connected. *)
Lemma keeps_changed p s s' g g' :
  g_heap g !! p = Some s -> ~ connected s -> same_table g g' -> g_heap g' = <[p := s']> (g_heap g) -> keeps g g'.
Proof.
  intros Hp Hn [T _ _ _] Hh. constructor; [congruence|]. intros i q t H1 H2 H3. rewrite T, Hh. split; [exact H1|].
  rewrite lookup_insert_ne; [exact H2|]. intros ->. congruence.
Qed.

Lemma keeps_delete i p s g g' :
  g_slots g !! i = Some (Some p) -> g_heap g !! p = Some s -> ~ connected s ->
  delete_session del_player i g = Some g' -> keeps g g'.
Proof.
  intros Hi Hp Hn. unfold delete_session. rewrite Hi.
  destruct (close_at del_player p 12 g) as [g1|] eqn:E; [|discriminate]. cbn [mbind option_bind]. intros E'.
  injection E' as <-. destruct (close_at_inv _ _ _ _ E) as (s' & _ & [T _ _ _] & Hh & _).
  constructor; cbn [set_slot set_heap g_slots g_heap]; rewrite T; [apply length_insert|].
  intros j q t H1 H2 H3. assert (p <> q) by (intros ->; congruence).
  rewrite lookup_delete_ne, Hh, lookup_insert_ne by assumption. split; [|exact H2].
  rewrite list_lookup_insert_ne; [exact H1|]. intros ->. congruence.
Qed.

Lemma state_closed s reason : getState (fst (close s reason)) = NOT_CONNECTED.
Proof. reflexivity. Qed.

(** The search for a slot ends, with the fuel given, in an empty slot or at
    the end of the table. *)
Definition slot_found g g' (i : nat) : Prop :=
  gs_wf g' /\ keeps g g' /\ (i <= length (g_slots g'))%nat /\
  ((i < length (g_slots g'))%nat -> g_slots g' !! i = Some None).

Lemma find_slot_closed fuel i p s tries g :
  gs_wf g -> g_slots g !! i = Some (Some p) -> g_heap g !! p = Some s -> getState s = NOT_CONNECTED ->
  exists g', find_slot del_player (S fuel) i tries g = Some (i, g') /\ slot_found g g' i.
Proof.
  intros Hw Hi Hp Hs. pose proof (lookup_lt_Some _ _ _ Hi) as Hl.
  destruct (delete_wf i g Hw Hl) as (g' & E & W & L & N).
  assert (keeps g g') as K by (apply (keeps_delete i p s); auto; unfold connected; rewrite Hs; unfold NOT_CONNECTED; lia).
  exists g'. cbn [find_slot]. rewrite (proj2 (Nat.leb_gt _ _) Hl), Hi, Hp. cbn [mbind option_bind].
  rewrite Hs. change (NOT_CONNECTED =? NOT_CONNECTED) with true. cbv iota. rewrite E.
  split; [reflexivity|]. split; [exact W|]. split; [exact K|]. rewrite L. auto with lia.
Qed.

Lemma find_slot_ok fuel i g :
  gs_wf g -> (2 * (length (g_slots g) - i) + 1 <= fuel)%nat -> (i <= length (g_slots g))%nat ->
  exists j g', find_slot del_player fuel i 0 g = Some (j, g') /\ slot_found g g' j.
Proof.
  revert i g. induction fuel as [fuel IH] using lt_wf_ind. intros i g Hw Hf Hi.
  destruct fuel as [|fuel]; [lia|]. cbn [find_slot].
  destruct (Nat.leb_spec (length (g_slots g)) i) as [Hl|Hl].
  { exists i, g. split; [reflexivity|]. split; [exact Hw|]. split; [apply keeps_refl|]. lia. }
  destruct (lookup_lt_is_Some_2 (g_slots g) i Hl) as [[p|] E]; rewrite E.
  2: { exists i, g. split; [reflexivity|]. split; [exact Hw|]. split; [apply keeps_refl|]. auto with lia. }
  destruct (wf_live g Hw i p E) as [s Es]. rewrite Es. cbn [mbind option_bind].
  assert (forall reason tries, ~ connected s -> (tries < 5)%nat ->
    exists j g', (g ← close_at del_player p reason g;
      if (5 <=? tries)%nat then match i with O => None | S j => g ← delete_session del_player j g; Some (j, g) end
      else find_slot del_player fuel i tries g) = Some (j, g') /\ slot_found g g' j) as Hagain.
  { intros reason tries Hc Ht. destruct (close_at_ok p reason g s Hw Es) as (g1 & -> & W1 & T1 & Hh1).
    cbn [mbind option_bind]. rewrite (proj2 (Nat.leb_gt _ _) Ht). destruct fuel as [|fuel]; [lia|].
    assert (g_heap g1 !! p = Some (fst (close s reason))) as Hp by (rewrite Hh1; apply lookup_insert_eq).
    rewrite <- (st_slots _ _ T1) in E.
    destruct (find_slot_closed fuel i p _ tries _ W1 E Hp (state_closed s reason)) as (g' & E' & W & K & R).
    exists i, g'. split; [exact E'|]. split; [exact W|]. split; [|exact R].
    eapply keeps_trans; [exact (keeps_changed p s _ g g1 Es Hc T1 Hh1)|exact K]. }
  cbv zeta. assert (forall st, st < 0 -> getState s = st -> ~ connected s) as Hneg by (unfold connected; intros; lia).
  destruct (Z.eqb_spec (getState s) NOT_CONNECTED) as [Hs|Hs].
  { destruct (find_slot_closed 0 i p s 0 g Hw E Es Hs) as (g' & E' & R). exists i, g'. split; [|exact R].
    cbn [find_slot] in E'. rewrite (proj2 (Nat.leb_gt _ _) Hl), E, Es in E'. cbn [mbind option_bind] in E'.
    rewrite Hs in E'. exact E'. }
  destruct (Z.eqb_spec (getState s) TIMEOUT) as [H1|_]; [apply Hagain; [eapply Hneg; [|exact H1]; reflexivity|lia]|].
  destruct (Z.eqb_spec (getState s) ERROR) as [H1|_]; [apply Hagain; [eapply Hneg; [|exact H1]; reflexivity|lia]|].
  destruct (Z.eqb_spec (getState s) FINISHED) as [H1|_]; [apply Hagain; [eapply Hneg; [|exact H1]; reflexivity|lia]|].
  destruct (IH fuel ltac:(lia) (S i) g Hw ltac:(lia) ltac:(lia)) as (j & g' & E' & R).
  exists j, g'. split; [exact E'|exact R].
Qed.

(** ** The loop over the sessions *)

(** The three things it can do with a datagram. *)
Inductive scanned (d : list byte) g : bool * server Addr Player World -> Prop :=
  | sc_none : scanned d g (false, g)
  | sc_push p s ks r ks' :
      g_heap g !! p = Some s -> s_kcp s = Some ks -> pushToKcp ks d = Some (r, ks') ->
      getSessionId ks = kcp_sid d \/ getSessionId ks = hs_sid d ->
      scanned d g (true, store p (setKcp s (Some ks')) [] g)
  | sc_close p s g' :
      g_heap g !! p = Some s -> is_close d = true -> gs_wf g' -> same_table g g' ->
      g_heap g' = <[p := fst (close s (hs_cmd d))]> (g_heap g) -> scanned d g (true, g').

Lemma push_total ks d : exists r ks', pushToKcp ks d = Some (r, ks').
Proof.
  unfold pushToKcp. destruct (ks_kcp ks) as [k|]; [|eauto].
  destruct (input_total k d) as [[r k'] ->]. cbn [mbind option_bind]. eauto.
Qed.

Lemma scan_ok slots sid d g :
  gs_wf g -> (forall p, Some p ∈ slots -> is_Some (g_heap g !! p)) -> sid = kcp_sid d \/ sid = hs_sid d ->
  exists r, scan del_player slots sid d g = Some r /\ scanned d g r.
Proof.
  intros Hw. revert sid. induction slots as [|[p|] slots IH]; intros sid Hl Hsid; cbn [scan];
    [eexists; split; [reflexivity|constructor]| |apply IH; [intros p Hp; apply Hl; right; exact Hp|exact Hsid]].
  assert (forall q, Some q ∈ slots -> is_Some (g_heap g !! q)) as Hl' by (intros q Hq; apply Hl; right; exact Hq).
  destruct (Hl p ltac:(left)) as [s Es]. rewrite Es. cbn [mbind option_bind].
  destruct (getState s <? NOT_CONNECTED); [apply IH; assumption|].
  destruct (s_kcp s) as [ks|] eqn:Ek; [|apply IH; assumption].
  destruct (Z.eqb_spec (getSessionId ks) sid) as [Ei|_].
  { destruct (push_total ks d) as (r & ks' & E). rewrite E. cbn [mbind option_bind].
    eexists. split; [reflexivity|]. eapply sc_push; try eassumption. rewrite Ei. exact Hsid. }
  cbv zeta. destruct (_ && _); [apply IH; auto|]. destruct (is_close d) eqn:Ec; [|apply IH; auto].
  destruct (close_at_ok p (hs_cmd d) g s Hw Es) as (g' & -> & W & T & Hh). cbn [mbind option_bind].
  eexists. split; [reflexivity|]. eapply sc_close; eassumption.
Qed.

Lemma slots_live g p : gs_wf g -> Some p ∈ g_slots g -> is_Some (g_heap g !! p).
Proof. intros Hw E. apply list_elem_of_lookup in E as [i Hi]. exact (wf_live g Hw i p Hi). Qed.

(** A push keeps the server well formed. *)
Lemma push_wf p s ks d r ks' g :
  gs_wf g -> g_heap g !! p = Some s -> s_kcp s = Some ks -> pushToKcp ks d = Some (r, ks') ->
  gs_wf (store p (setKcp s (Some ks')) [] g).
Proof.
  intros Hw Hp Hk E. pose proof (wf_sessions g Hw p s Hp) as Hs. apply store_wf; [eauto| |exact Hw].
  exact (session_kcp s ks ks' Hs Hk (ks_push_id _ _ _ _ E)).
Qed.

(** ** Opening a session *)

(** What is asked of the environment when a client opens a session: the
    allocations of the transport succeed, and the random id is not 0. *)
Definition env_ok (e : env) : Prop := fst (e_mallocs e) = (true, true) /\ e_sid e <> 0.

Lemma new_ks_id id iv m1 m2 m3 ks : new_KcpSession id iv m1 m2 m3 = Some ks -> getSessionId ks = id.
Proof.
  unfold new_KcpSession. destruct m1, m2; try discriminate. cbn [ikcp_create negb mbind option_bind].
  assert (forall k a b c e, k_conv (snd (ikcp_nodelay k a b c e)) = k_conv k) as H1.
  { intros. unfold ikcp_nodelay. cbv zeta. repeat match goal with |- context [if ?b then _ else _] => destruct b end; reflexivity. }
  assert (forall k a b, k_conv (snd (ikcp_setmtu k a b)) = k_conv k) as H2.
  { intros. unfold ikcp_setmtu. destruct (_ || _); [reflexivity|]. destruct (negb _); reflexivity. }
  assert (forall k a b, k_conv (snd (ikcp_wndsize k a b)) = k_conv k) as H3.
  { intros. unfold ikcp_wndsize. cbv zeta. repeat destruct (0 <? _); reflexivity. }
  destruct (ikcp_nodelay _ _ _ _ _) as [r1 k1] eqn:E1. destruct (ikcp_setmtu _ _ _) as [r2 k2] eqn:E2.
  destruct (ikcp_wndsize _ _ _) as [r3 k3] eqn:E3. intros E. injection E as <-.
  change (k_conv (snd (r3, k3)) = id). rewrite <- E3, H3. change (k_conv (snd (r2, k2)) = id). rewrite <- E2, H2.
  change (k_conv (snd (r1, k1)) = id). rewrite <- E1, H1. reflexivity.
Qed.

Lemma new_ks_total id iv m3 : exists ks, new_KcpSession id iv true true m3 = Some ks.
Proof.
  unfold new_KcpSession. cbn [ikcp_create negb mbind option_bind].
  destruct (ikcp_nodelay _ _ _ _ _), (ikcp_setmtu _ _ _), (ikcp_wndsize _ _ _). eauto.
Qed.

(** The object [new Session] makes. *)
Definition opened_session (e : env) ks : Session Player := new_Session ks (e_now e) (e_junk_seed e) (e_junk_key e).

Lemma new_session_eq e i g :
  fst (e_mallocs e) = (true, true) ->
  exists ks, getSessionId ks = e_sid e /\ new_session e i g =
    Some (set_threads (g_threads g ++ [mkThread (g_next g) None (new_packet 0)])
            (set_slot i (Some (g_next g)) (alloc (opened_session e ks) g))).
Proof.
  intros Hm. unfold new_session. destruct (e_mallocs e) as [[m1 m2] m3]. cbn [fst] in Hm. injection Hm as -> ->.
  destruct (new_ks_total (e_sid e) (g_interval g) m3) as [ks E]. exists ks. split; [exact (new_ks_id _ _ _ _ _ _ E)|].
  rewrite E. reflexivity.
Qed.

Lemma new_session_ok e i g :
  gs_wf g -> (i < length (g_slots g))%nat -> g_slots g !! i = Some None -> env_ok e ->
  exists g', new_session e i g = Some g' /\ gs_wf g' /\ keeps g g' /\ g_client g' = g_client g.
Proof.
  intros Hw Hi Hn [Hm Hid]. destruct (new_session_eq e i g Hm) as (ks & Hks & ->). eexists. split; [reflexivity|].
  assert (g_heap g !! g_next g = None) as Hf.
  { destruct (g_heap g !! g_next g) eqn:E; [|reflexivity]. pose proof (wf_next g Hw (g_next g) ltac:(eauto)). lia. }
  split; [|split; [|reflexivity]].
  - destruct Hw as [Hl Ho Hx Hok Ww]. constructor; cbn [set_threads set_slot alloc g_slots g_heap g_next g_world]; [| | | |exact Ww].
    + intros j q E. destruct (decide (j = i)) as [->|Hj].
      * rewrite list_lookup_insert_eq in E by exact Hi. injection E as <-. rewrite lookup_insert_eq. eauto.
      * rewrite list_lookup_insert_ne in E by congruence. destruct (Hl j q E) as [t Ht].
        rewrite lookup_insert_ne by congruence. eauto.
    + intros j k q H1 H2. destruct (decide (j = i)) as [->|Hj]; destruct (decide (k = i)) as [->|Hk]; [reflexivity| | |].
      * rewrite list_lookup_insert_eq in H1 by exact Hi. injection H1 as <-.
        rewrite list_lookup_insert_ne in H2 by congruence. destruct (Hl k _ H2). congruence.
      * rewrite list_lookup_insert_eq in H2 by exact Hi. injection H2 as <-.
        rewrite list_lookup_insert_ne in H1 by congruence. destruct (Hl j _ H1). congruence.
      * rewrite list_lookup_insert_ne in H1, H2 by congruence. eauto.
    + intros q E. destruct (decide (g_next g = q)) as [->|]; [lia|].
      rewrite lookup_insert_ne in E by assumption. specialize (Hx q E). lia.
    + intros q t E. destruct (decide (g_next g = q)) as [<-|].
      * rewrite lookup_insert_eq in E. injection E as <-. constructor; [|discriminate|apply stage_new].
        intros ks' E'. injection E' as <-. congruence.
      * rewrite lookup_insert_ne in E by assumption. exact (Hok q t E).
  - constructor; cbn [set_threads set_slot alloc g_slots g_heap]; [apply length_insert|].
    intros j q t H1 H2 _. split; [rewrite list_lookup_insert_ne; congruence|].
    rewrite lookup_insert_ne; congruence.
Qed.

Lemma delete_client i g g' : delete_session del_player i g = Some g' -> g_client g' = g_client g.
Proof.
  unfold delete_session. destruct (g_slots g !! i) as [[p|]|]; [|congruence|discriminate].
  destruct (close_at _ _ _ _) as [g1|] eqn:E; [|discriminate]. cbn [mbind option_bind].
  intros E'. injection E' as <-. destruct (close_at_inv _ _ _ _ E) as (s & _ & T & _). exact (st_client _ _ T).
Qed.

Lemma find_slot_client fuel i tries g j g' :
  find_slot del_player fuel i tries g = Some (j, g') -> g_client g' = g_client g.
Proof.
  revert i tries g. induction fuel as [|fuel IH]; intros i tries g; cbn [find_slot]; [discriminate|].
  destruct (_ <=? _)%nat; [congruence|]. destruct (g_slots g !! i) as [[p|]|]; [|congruence|discriminate].
  destruct (g_heap g !! p) as [s|]; [|discriminate]. cbn [mbind option_bind]. cbv zeta.
  assert (forall reason n,
    (g ← close_at del_player p reason g;
      if (5 <=? n)%nat then match i with O => None | S j => g ← delete_session del_player j g; Some (j, g) end
      else find_slot del_player fuel i n g) = Some (j, g') -> g_client g' = g_client g) as Hagain.
  { intros reason n. destruct (close_at _ _ _ _) as [g0|] eqn:E0; [|discriminate]. cbn [mbind option_bind].
    destruct (close_at_inv _ _ _ _ E0) as (s0 & _ & T & _). rewrite <- (st_client _ _ T). destruct (5 <=? n)%nat.
    - destruct i as [|k]; [discriminate|]. destruct (delete_session _ k _) as [g1|] eqn:E; [|discriminate].
      cbn [mbind option_bind]. intros E'. injection E' as _ <-. exact (delete_client _ _ _ E).
    - apply IH. }
  destruct (getState s =? NOT_CONNECTED).
  { destruct (delete_session _ i g) as [g1|] eqn:E; [|discriminate]. cbn [mbind option_bind].
    intros E'. injection E' as _ <-. exact (delete_client _ _ _ E). }
  destruct (_ =? TIMEOUT); [apply Hagain|]. destruct (_ =? ERROR); [apply Hagain|].
  destruct (_ =? FINISHED); [apply Hagain|]. apply IH.
Qed.

Lemma open_session_ok e g :
  gs_wf g -> env_ok e ->
  exists g', open_session del_player e g = Some g' /\ gs_wf g' /\ keeps g g' /\ g_client g' = g_client g.
Proof.
  intros Hw Hm. unfold open_session. cbv zeta.
  set (g0 := emit _ g). assert (gs_wf g0) as Hw0 by (apply emit_wf, Hw).
  assert (keeps g g0) as K0 by apply keeps_emit. assert (g_client g0 = g_client g) as C0 by reflexivity.
  clearbody g0. destruct (_ <? _); [eauto 10|].
  destruct (find_slot_ok (3 * length (g_slots g0) + 1) 0 g0 Hw0 ltac:(lia) ltac:(lia)) as (i & g1 & E & W1 & K1 & L1 & N1).
  pose proof (find_slot_client _ _ _ _ _ _ E) as C1. rewrite E. cbn [mbind option_bind].
  destruct (Nat.leb_spec (length (g_slots g1)) i) as [Hi|Hi].
  - eexists. split; [reflexivity|]. split; [apply emit_wf, W1|]. split; [|cbn [emit g_client]; congruence].
    eapply keeps_trans; [exact K0|]. eapply keeps_trans; [exact K1|]. apply keeps_emit.
  - destruct (new_session_ok e i g1 W1 Hi (N1 Hi) Hm) as (g2 & E2 & W2 & K2 & C2).
    exists g2. split; [exact E2|]. split; [exact W2|]. split; [|congruence].
    eapply keeps_trans; [exact K0|]. eapply keeps_trans; [exact K1|exact K2].
Qed.

Lemma datagram_ok e from d g :
  gs_wf g -> env_ok e ->
  exists g', on_datagram del_player e from d g = Some g' /\ gs_wf g' /\ g_client g' = from /\
    length (g_slots g') = length (g_slots g) /\
    (is_close d = false ->
     (forall p s ks, g_heap g !! p = Some s -> s_kcp s = Some ks ->
        getSessionId ks <> kcp_sid d /\ getSessionId ks <> hs_sid d) -> keeps g g').
Proof.
  intros Hw Hm. unfold on_datagram. cbv zeta. set (g0 := set_client from g).
  assert (gs_wf g0) as Hw0 by (apply client_wf, Hw). assert (keeps g g0) as K0 by (constructor; auto).
  assert (g_client g0 = from) as C0 by reflexivity. assert (g_heap g0 = g_heap g) as H0 by reflexivity.
  rewrite <- H0. pose proof (kp_len _ _ K0) as L0. clearbody g0.
  destruct (_ <? _); [exists g0; auto 10|].
  destruct (scan_ok (g_slots g0) (kcp_sid d) d g0 Hw0 (fun p => slots_live g0 p Hw0) (or_introl eq_refl)) as (r & E & R).
  rewrite E. cbn [mbind option_bind]. destruct R as [|p s ks n ks' Hp Hk Hpush Hid|p s g1 Hp Hc W1 T1 Hh1].
  - destruct (is_open d); [|exists g0; auto 10].
    destruct (open_session_ok e g0 Hw0 Hm) as (g1 & E1 & W1 & K1 & C1). exists g1. split; [exact E1|].
    split; [exact W1|]. split; [congruence|]. split; [rewrite (kp_len _ _ K1); exact L0|].
    intros _ _. exact (keeps_trans _ _ _ K0 K1).
  - eexists. split; [reflexivity|]. split; [eapply push_wf; eassumption|]. split; [exact C0|]. split; [exact L0|].
    intros _ Hids. destruct (Hids p s ks Hp Hk) as [N1 N2]. destruct Hid; contradiction.
  - exists g1. split; [reflexivity|]. split; [exact W1|]. split; [rewrite (st_client _ _ T1); exact C0|].
    split; [rewrite (st_slots _ _ T1); exact L0|]. intros Hn. congruence.
Qed.

(** ** Rounds of a session thread *)

Variable processPacket : nat -> Packet -> server Addr Player World -> option (Z * bool * server Addr Player World).
Variable dispatch_key : option (list byte).

(** What running for a session keeps: the table, the objects that are live;
    and where it sends to. *)
Record served g g' : Prop := {
  sv_wf : gs_wf g';
  sv_table : same_table g g';
  sv_live : forall p, is_Some (g_heap g !! p) -> is_Some (g_heap g' !! p);
  sv_sent : exists out, g_sent g' = g_sent g ++ map (pair (g_client g)) out
}.

(** What the server asks of the handlers. *)
Class HandlerLaws := handler_ok : forall p pkt g r v g',
  gs_wf g -> is_Some (g_heap g !! p) -> processPacket p pkt g = Some (r, v, g') -> served g g'.

Context `{HandlerLaws}.

Lemma served_refl g : gs_wf g -> served g g.
Proof. intros Hw. constructor; [exact Hw|apply same_table_refl|auto|]. exists []. symmetry. apply app_nil_r. Qed.

Lemma served_trans g1 g2 g3 : served g1 g2 -> served g2 g3 -> served g1 g3.
Proof.
  intros [W1 T1 L1 [o1 S1]] [W2 T2 L2 [o2 S2]]. constructor; [exact W2|eapply same_table_trans; eassumption|auto|].
  exists (o1 ++ o2). rewrite S2, S1, (st_client _ _ T1), map_app, app_assoc. reflexivity.
Qed.

Lemma served_store p s out g :
  gs_wf g -> is_Some (g_heap g !! p) -> session_ok s -> served g (store p s out g).
Proof.
  intros Hw Hp Hs. constructor; [apply store_wf; assumption|apply same_table_store| |eexists; reflexivity].
  intros q Hq. cbn [store emit set_heap g_heap]. destruct (decide (p = q)) as [->|].
  - rewrite lookup_insert_eq. eauto.
  - rewrite lookup_insert_ne by assumption. exact Hq.
Qed.

Lemma served_close p reason g g' :
  gs_wf g -> close_at del_player p reason g = Some g' -> served g g'.
Proof.
  intros Hw E. destruct (close_at_inv _ _ _ _ E) as (s & Hs & T & Hh & Ho).
  destruct (close_at_ok p reason g s Hw Hs) as (g1 & E1 & W & _). assert (g1 = g') as -> by congruence.
  constructor; [exact W|exact T| |rewrite Ho; eauto]. intros q Hq. rewrite Hh.
  destruct (decide (p = q)) as [->|]; [rewrite lookup_insert_eq; eauto|rewrite lookup_insert_ne by assumption; exact Hq].
Qed.

Lemma served_world w g : gs_wf g -> world_ok w -> served g (set_world w g).
Proof.
  intros Hw Ho. constructor; [apply world_wf; assumption|constructor; reflexivity|auto|].
  exists []. symmetry. apply app_nil_r.
Qed.

Lemma on_packet_served t buf g stop g' t' :
  gs_wf g -> on_packet processPacket dispatch_key t buf g = Some (stop, g', t') ->
  served g g' /\ t_session t' = t_session t.
Proof.
  intros Hw. unfold on_packet. destruct (g_heap g !! t_session t) as [s|] eqn:Es; [|discriminate].
  cbn [mbind option_bind]. cbv zeta.
  destruct (match turn_key _ _ _ with Some k => _ | None => _ end) as [plain|]; [|discriminate].
  cbn [mbind option_bind]. destruct (parse _ _); [|discriminate..|].
  - intros E. injection E as _ <- <-. split; [apply served_refl, Hw|reflexivity].
  - destruct (processPacket _ _ _) as [[[n v] g1]|] eqn:Ep; [|discriminate]. cbn [mbind option_bind].
    destruct (g_heap g1 !! t_session t); [|discriminate]. cbn [mbind option_bind]. intros E. injection E as _ <- <-.
    split; [|reflexivity]. exact (handler_ok _ _ _ _ _ _ Hw (mk_is_Some _ _ Es) Ep).
Qed.

Lemma turn_served now t g g' t' :
  gs_wf g -> turn del_player processPacket dispatch_key now t g = Some (g', t') ->
  served g g' /\ (forall t1, t' = Some t1 -> t_session t1 = t_session t).
Proof.
  intros Hw. unfold turn. cbv zeta. destruct (g_heap g !! t_session t) as [s|] eqn:Es; [|discriminate].
  cbn [mbind option_bind].
  assert (forall g0 reason r, served g g0 ->
    (g0 ← close_at del_player (t_session t) reason g0; Some (g0, @None thread)) = Some r ->
    served g (fst r) /\ (forall t1, snd r = Some t1 -> t_session t1 = t_session t)) as Hfin.
  { intros g0 reason r S0. destruct (close_at _ _ _ _) as [g1|] eqn:E1; [|discriminate]. intros E. injection E as <-.
    split; [|discriminate]. exact (served_trans _ _ _ S0 (served_close _ _ _ _ (sv_wf _ _ S0) E1)). }
  destruct (_ <=? _); [exact (Hfin g 3 _ (served_refl g Hw))|].
  destruct (s_kcp s) as [ks|] eqn:Ek; [|discriminate]. cbn [mbind option_bind].
  pose proof (ks_recv_id (0, []) ks (16 * 1024)) as Hid. destruct (ks_recv _ ks _) as [[r buf] ks1]. cbn [snd] in Hid.
  pose proof (wf_sessions g Hw _ _ Es) as Hs.
  assert (served g (store (t_session t) (setKcp s (Some ks1)) [] g)) as S1.
  { apply served_store; [exact Hw|eauto|]. exact (session_kcp s ks ks1 Hs Ek Hid). }
  set (g1 := store _ _ _ g) in *. clearbody g1.
  destruct (if r <? 0 then Some (false, g1, t) else _) as [[[stop g2] t2]|] eqn:E; [|discriminate].
  assert (served g1 g2 /\ t_session t2 = t_session t) as [S2 Ht].
  { destruct (r <? 0); [injection E as _ <- <-; split; [apply served_refl, (sv_wf _ _ S1)|reflexivity]|].
    exact (on_packet_served _ _ _ _ _ _ (sv_wf _ _ S1) E). }
  cbn [mbind option_bind]. pose proof (served_trans _ _ _ S1 S2) as S3.
  destruct stop; [exact (Hfin g2 3 _ S3)|].
  destruct (g_heap g2 !! t_session t) as [s2|] eqn:Es2; [|discriminate]. cbn [mbind option_bind].
  destruct (s_kcp s2) as [ks2|] eqn:Ek2; [|discriminate]. cbn [mbind option_bind].
  pose proof (ks_update_id ks2 50) as Hid2. destruct (ks_update ks2 50) as [ks3 out]. cbn [fst] in Hid2.
  pose proof (wf_sessions g2 (sv_wf _ _ S3) _ _ Es2) as Hs2.
  assert (served g2 (store (t_session t) (setKcp s2 (Some ks3)) out g2)) as S4.
  { apply served_store; [exact (sv_wf _ _ S3)|eauto|]. exact (session_kcp s2 ks2 ks3 Hs2 Ek2 Hid2). }
  destruct (_ <? now); [exact (Hfin _ 10 _ (served_trans _ _ _ S3 S4))|].
  intros E'. injection E' as <- <-. split; [exact (served_trans _ _ _ S3 S4)|]. congruence.
Qed.

(** ** Executions *)

(** What is asked of the environment. *)
Definition event_ok (ev : event Addr World) : Prop :=
  match ev with Datagram e _ _ => env_ok e | Turn _ _ => True | Outside w => world_ok w end.

Lemma gs_step_wf ev g g' :
  event_ok ev -> gs_wf g -> gs_step del_player processPacket dispatch_key ev g = Some g' ->
  gs_wf g' /\ length (g_slots g') = length (g_slots g).
Proof.
  intros Hm Hw. destruct ev as [e from d|i now|w]; cbn [gs_step].
  - destruct (datagram_ok e from d g Hw Hm) as (g1 & E & W & _ & L & _). intros E'.
    assert (g1 = g') as <- by congruence. auto.
  - destruct (g_threads g !! i) as [t|]; [|discriminate]. cbn [mbind option_bind].
    destruct (turn _ _ _ now t g) as [[g1 t1]|] eqn:E; [|discriminate]. cbn [mbind option_bind].
    apply turn_served in E as [[W T _ _] _]; [|exact Hw]. intros E'. injection E' as <-.
    destruct t1; (split; [apply threads_wf, W|exact (f_equal length (st_slots _ _ T))]).
  - intros E. injection E as <-. split; [apply world_wf; assumption|reflexivity].
Qed.

Lemma run_wf evs g g' :
  Forall event_ok evs -> gs_wf g -> gs_run del_player processPacket dispatch_key evs g = Some g' ->
  gs_wf g' /\ length (g_slots g') = length (g_slots g).
Proof.
  revert g. induction evs as [|ev evs IH]; intros g Hm Hw; cbn [gs_run]; [intros E; injection E as <-; auto|].
  apply Forall_cons in Hm as [H1 Hm]. destruct (gs_step _ _ _ ev g) as [g1|] eqn:E; [|discriminate].
  cbn [mbind option_bind]. intros E'. destruct (gs_step_wf ev g g1 H1 Hw E) as [W1 L1].
  destruct (IH g1 Hm W1 E') as [W2 L2]. split; [exact W2|congruence].
Qed.
End server.

(** ** The session id of a handshake *)

Lemma hs_field_range i d : 0 <= hs_field i d < 4294967296.
Proof.
  unfold hs_field, be_dec. set (l := take 4 (drop (4 * i) d)). pose proof (le_dec_range (rev l)) as H.
  assert (length (rev l) <= 4)%nat as Hl by (rewrite length_rev; apply firstn_le_length).
  assert (2 ^ (8 * zlen (rev l)) <= 2 ^ 32) by (apply Z.pow_le_mono_r; lia). change 4294967296 with (2 ^ 32). lia.
Qed.

(** The test meant to pass over a session with another id is never true: the
    low half of [sid] is where it was copied from. *)
Lemma sid_low d : Z.land (hs_sid d) 0xffffffff = hs_sid1 d.
Proof.
  pose proof (hs_field_range 1 d) as H1. pose proof (hs_field_range 2 d) as H2. fold hs_sid1 hs_sid2 in H1, H2.
  unfold hs_sid. rewrite Z.shiftl_mul_pow2 by lia. rewrite wrap_id by (unfold in_u; zpow; lia).
  rewrite lor_disjoint by (zpow; lia). change 0xffffffff with (Z.ones 32). rewrite Z.land_ones by lia.
  rewrite Z.add_comm, Z_mod_plus_full. apply Z.mod_small. zpow. lia.
Qed.

Section claims.
Context {Addr Player World : Type}.
Implicit Types (g : server Addr Player World) (s : Session Player) (d : list byte).

Variable del_player : Player -> server Addr Player World -> option World.

(** [p] is the first object in the table, and has a transport. *)
Record first_live g (i p : nat) s (ks : KcpSession) (rest : list (option nat)) : Prop := {
  fl_slots : g_slots g = replicate i None ++ Some p :: rest;
  fl_heap : g_heap g !! p = Some s;
  fl_state : NOT_CONNECTED <= getState s;
  fl_kcp : s_kcp s = Some ks
}.

Lemma scan_nones n slots sid d g :
  scan del_player (replicate n None ++ slots) sid d g = scan del_player slots sid d g.
Proof. induction n as [|n IH]; [reflexivity|exact IH]. Qed.

(** What the loop does at a session: the id of the handshake never matters
    for a close request. *)
Lemma scan_live p s ks rest sid d g :
  g_heap g !! p = Some s -> NOT_CONNECTED <= getState s -> s_kcp s = Some ks ->
  scan del_player (Some p :: rest) sid d g =
    if getSessionId ks =? sid then '(_, ks) ← pushToKcp ks d; Some (true, store p (setKcp s (Some ks)) [] g)
    else if is_close d then g ← close_at del_player p (hs_cmd d) g; Some (true, g)
    else scan del_player rest (hs_sid d) d g.
Proof.
  intros Hp Hs Hk. cbn [scan]. rewrite Hp. cbn [mbind option_bind].
  destruct (Z.ltb_spec (getState s) NOT_CONNECTED); [lia|]. rewrite Hk.
  destruct (getSessionId ks =? sid); [reflexivity|]. cbv zeta. rewrite sid_low, Z.eqb_refl. cbn [negb andb].
  rewrite andb_false_r. reflexivity.
Qed.

Lemma datagram_live e from d g i p s ks rest :
  first_live g i p s ks rest -> HANDSHAKE_SIZE <= zlen d ->
  on_datagram del_player e from d g =
    let g0 := set_client from g in
    '(taken, g) ←
      (if getSessionId ks =? kcp_sid d then '(_, ks) ← pushToKcp ks d; Some (true, store p (setKcp s (Some ks)) [] g0)
       else if is_close d then g ← close_at del_player p (hs_cmd d) g0; Some (true, g)
       else scan del_player rest (hs_sid d) d g0);
    if taken : bool then Some g else if is_open d then open_session del_player e g else Some g.
Proof.
  intros [Hsl Hh Hst Hk] Hl. unfold on_datagram. cbv zeta. destruct (Z.ltb_spec (zlen d) HANDSHAKE_SIZE); [lia|].
  change (g_slots (set_client from g)) with (g_slots g). rewrite Hsl, scan_nones.
  rewrite (scan_live p s ks rest (kcp_sid d) d (set_client from g) Hh Hst Hk). reflexivity.
Qed.

(** ** Theorems *)

Variable processPacket : nat -> Packet -> server Addr Player World -> option (Z * bool * server Addr Player World).
Variable dispatch_key : option (list byte).

(** However many datagrams of whatever content arrive, and whatever the
    threads do between them, the next datagram is handled to the end: the
    loops end, the table is read inside its bounds, only live objects are
    touched, every slot still points to a live object of its own; and a
    connected session stays as it was in its slot, unless the datagram carries
    its id or is a close request. *)
Theorem gs_datagram_safe `{PL : PlayerLaws Addr Player World del_player} `{HL : !HandlerLaws del_player processPacket}
    a iv n w evs g e from d :
  world_ok del_player w -> Forall (event_ok del_player) evs ->
  gs_run del_player processPacket dispatch_key evs (gs_start a iv n w) = Some g -> env_ok e ->
  exists g', on_datagram del_player e from d g = Some g' /\ gs_wf del_player g' /\ g_client g' = from /\ length (g_slots g') = n /\
    (is_close d = false ->
     (forall p s ks, g_heap g !! p = Some s -> s_kcp s = Some ks ->
        getSessionId ks <> kcp_sid d /\ getSessionId ks <> hs_sid d) -> keeps g g').
Proof.
  intros Hwd Hm Hr He.
  destruct (run_wf del_player processPacket dispatch_key evs _ g Hm (start_wf del_player a iv n w Hwd) Hr) as [Hw Hl].
  destruct (datagram_ok del_player e from d g Hw He) as (g' & E & W & C & L & K). exists g'.
  split; [exact E|]. split; [exact W|]. split; [exact C|]. split; [|exact K].
  rewrite L, Hl. cbn [gs_start g_slots]. apply length_replicate.
Qed.

(** A datagram that begins with the id of the session goes to the
    transport of that session, whole, and does nothing else: no other object
    changes and nothing is sent. *)
Theorem gs_routing e from d g i p s ks rest :
  first_live g i p s ks rest -> HANDSHAKE_SIZE <= zlen d -> getSessionId ks = kcp_sid d ->
  exists r ks', pushToKcp ks d = Some (r, ks') /\
    on_datagram del_player e from d g = Some (store p (setKcp s (Some ks')) [] (set_client from g)).
Proof.
  intros Hf Hl Hid. destruct (push_total ks d) as (r & ks' & E). exists r, ks'. split; [exact E|].
  rewrite (datagram_live e from d g i p s ks rest Hf Hl), Hid, Z.eqb_refl, E. reflexivity.
Qed.

(** Any close request, from any address and with any id but one read as
    the session's own, closes the first session of the table: its transport
    and player are deleted, and the reason is copied from the request. *)
Theorem gs_close_by_anyone `{PL : PlayerLaws Addr Player World del_player} e from d g i p s ks rest :
  gs_wf del_player g -> first_live g i p s ks rest -> HANDSHAKE_SIZE <= zlen d -> getSessionId ks <> kcp_sid d -> is_close d = true ->
  exists g', on_datagram del_player e from d g = Some g' /\
    g_sent g' = g_sent g ++ [(from, close_datagram (getSessionId ks) (hs_cmd d))] /\
    exists s', g_heap g' !! p = Some s' /\ getState s' = NOT_CONNECTED /\ s_kcp s' = None /\ s_player s' = None.
Proof.
  intros Hw Hf Hl Hid Hc. rewrite (datagram_live e from d g i p s ks rest Hf Hl).
  destruct (Z.eqb_spec (getSessionId ks) (kcp_sid d)); [contradiction|]. rewrite Hc. cbv zeta.
  destruct (close_at_ok del_player p (hs_cmd d) (set_client from g) s (client_wf _ from g Hw) (fl_heap _ _ _ _ _ _ Hf))
    as (g' & E & _ & _ & Hh). rewrite E. cbn [mbind option_bind]. exists g'. split; [reflexivity|].
  destruct (close_at_inv _ _ _ _ _ E) as (s' & Hs' & _ & _ & Ho). assert (s' = s) as ->.
  { pose proof (fl_heap _ _ _ _ _ _ Hf) as Hp. change (g_heap (set_client from g)) with (g_heap g) in Hs'. congruence. }
  split; [rewrite Ho; unfold close; rewrite (fl_kcp _ _ _ _ _ _ Hf); reflexivity|].
  eexists. split; [rewrite Hh; apply lookup_insert_eq|]. repeat split.
Qed.

(** With two sessions in the table, the second never receives its
    datagrams: comparing with the first overwrites the id it is compared with,
    so a datagram that begins with its id, and is no handshake, changes
    nothing. *)
Theorem gs_second_session_deaf e from d g i p s ks q s2 ks2 :
  first_live g i p s ks [Some q] -> HANDSHAKE_SIZE <= zlen d ->
  g_heap g !! q = Some s2 -> NOT_CONNECTED <= getState s2 -> s_kcp s2 = Some ks2 -> getSessionId ks2 = kcp_sid d ->
  getSessionId ks <> getSessionId ks2 -> getSessionId ks2 <> hs_sid d -> is_close d = false -> is_open d = false ->
  on_datagram del_player e from d g = Some (set_client from g).
Proof.
  intros Hf Hl Hq Hs2 Hk2 Hid Hne Hn2 Hc Ho. rewrite (datagram_live e from d g i p s ks [Some q] Hf Hl).
  destruct (Z.eqb_spec (getSessionId ks) (kcp_sid d)); [congruence|]. rewrite Hc. cbv zeta.
  rewrite (scan_live q s2 ks2 [] (hs_sid d) d (set_client from g) Hq Hs2 Hk2), Hc.
  destruct (Z.eqb_spec (getSessionId ks2) (hs_sid d)); [contradiction|]. cbn [scan mbind option_bind]. rewrite Ho. reflexivity.
Qed.

(** Everything a session's thread sends after a datagram came in goes to
    the sender of that datagram, whoever that was, not to its own client. *)
Theorem gs_replies_misdirected `{PL : PlayerLaws Addr Player World del_player} `{HL : !HandlerLaws del_player processPacket}
    e from d i now g g1 g2 :
  gs_wf del_player g -> env_ok e ->
  gs_step del_player processPacket dispatch_key (Datagram e from d) g = Some g1 ->
  gs_step del_player processPacket dispatch_key (Turn i now) g1 = Some g2 ->
  exists out, g_sent g2 = g_sent g1 ++ map (pair from) out.
Proof.
  intros Hw He H1 H2. cbn [gs_step] in H1, H2. destruct (datagram_ok del_player e from d g Hw He) as (g' & E & W & C & _).
  assert (g' = g1) as -> by congruence. destruct (g_threads g1 !! i) as [t|]; [|discriminate H2]. cbn [mbind option_bind] in H2.
  destruct (turn _ _ _ now t g1) as [[g3 t']|] eqn:Et; [|discriminate H2]. cbn [mbind option_bind] in H2.
  destruct (turn_served _ _ _ _ _ _ _ _ W Et) as [[_ _ _ [out Ho]] _]. injection H2 as <-. exists out.
  rewrite <- C. destruct t'; exact Ho.
Qed.

(** ** A session and its thread *)

(** The handshake of a client. *)
Definition open_datagram : list byte := handshake 0xff 0 1234567890 0xffffffff.

(** The objects of the table are closed. *)
Definition spare g (x : option nat) : Prop :=
  match x with
  | None => True
  | Some p => exists s, g_heap g !! p = Some s /\ getState s = NOT_CONNECTED /\ s_kcp s = None /\ s_player s = None
  end.

(** A client's handshake when the only slot is free or its session closed:
    that object is deleted. *)
Lemma open_only_slot e from g x :
  g_slots g = [x] -> spare g x -> fst (e_mallocs e) = (true, true) -> HANDSHAKE_SIZE <= e_sent e ->
  exists ks g', on_datagram del_player e from open_datagram g = Some g' /\ getSessionId ks = e_sid e /\
    g_slots g' = [Some (g_next g)] /\ g_next g' = S (g_next g) /\
    g_heap g' = <[g_next g := opened_session e ks]> (match x with Some p => delete p (g_heap g) | None => g_heap g end) /\
    g_threads g' = g_threads g ++ [mkThread (g_next g) None (new_packet 0)].
Proof.
  intros Hs Hx Hm He. unfold on_datagram. change (zlen open_datagram <? HANDSHAKE_SIZE) with false. cbv iota zeta.
  change (g_slots (set_client from g)) with (g_slots g). rewrite Hs.
  assert (scan del_player [x] (kcp_sid open_datagram) open_datagram (set_client from g) = Some (false, set_client from g)) as ->.
  { destruct x as [p|]; [|reflexivity]. destruct Hx as (s & Hp & Hst & Hk & _). cbn [scan set_client g_heap]. rewrite Hp.
    cbn [mbind option_bind]. rewrite Hst, Hk. reflexivity. }
  cbn [mbind option_bind]. change (is_open open_datagram) with true. cbv iota. unfold open_session.
  destruct (Z.ltb_spec (e_sent e) HANDSHAKE_SIZE); [lia|]. cbv zeta. set (g0 := emit _ _).
  assert (g_slots g0 = [x]) as Hs0 by exact Hs. assert (g_heap g0 = g_heap g) as Hh by reflexivity.
  assert (g_next g0 = g_next g /\ g_threads g0 = g_threads g) as [Hn Ht] by (split; reflexivity). clearbody g0.
  assert (exists g1, find_slot del_player (3 * length (g_slots g0) + 1) 0 0 g0 = Some (0%nat, g1) /\ g_slots g1 = [None] /\
    g_heap g1 = (match x with Some p => delete p (g_heap g) | None => g_heap g end) /\
    g_next g1 = g_next g /\ g_threads g1 = g_threads g) as (g1 & -> & Hs1 & Hh1 & Hn1 & Ht1).
  { rewrite Hs0. cbn [length Nat.mul Nat.add find_slot]. rewrite Hs0. cbn [length Nat.leb lookup list_lookup].
    destruct x as [p|]; [|exists g0; auto]. destruct Hx as (s & Hp & Hst & _ & Hpl). rewrite Hh, Hp. cbn [mbind option_bind].
    rewrite Hst. change (NOT_CONNECTED =? NOT_CONNECTED) with true. cbv iota. unfold delete_session.
    rewrite Hs0. cbn [lookup list_lookup]. unfold close_at. rewrite Hh, Hp. cbn [mbind option_bind]. destruct (close s 12) as [s' out]. rewrite Hpl.
    cbn [mbind option_bind]. eexists. split; [reflexivity|].
    cbn [set_slot set_heap store set_world emit g_slots g_heap g_next g_threads].
    rewrite Hs0, Hh, !delete_insert_eq. auto. }
  cbn [mbind option_bind]. rewrite Hs1. cbn [length Nat.leb].
  destruct (new_session_eq e 0 g1 Hm) as (ks & Hid & ->). exists ks. eexists. split; [reflexivity|].
  cbn [set_threads set_slot alloc g_slots g_heap g_next g_threads]. rewrite Hs1, Hn1, Ht1, Hh1. auto 10.
Qed.

(** C30: A client's handshake, a close request from anyone, and another
    handshake delete the first session object while its thread still runs:
    the next round of that thread reads the deleted object. *)
Theorem gs_use_after_free e1 e2 e3 a iv w a1 a2 a3 reason now :
  fst (e_mallocs e1) = (true, true) -> HANDSHAKE_SIZE <= e_sent e1 ->
  fst (e_mallocs e3) = (true, true) -> HANDSHAKE_SIZE <= e_sent e3 ->
  e_sid e1 <> kcp_sid (close_datagram 0 reason) ->
  let evs := [Datagram e1 a1 open_datagram; Datagram e2 a2 (close_datagram 0 reason); Datagram e3 a3 open_datagram] in
  exists g, gs_run del_player processPacket dispatch_key evs (gs_start a iv 1 w) = Some g /\ length (g_threads g) = 2%nat /\
    gs_step del_player processPacket dispatch_key (Turn 0 now) g = None.
Proof.
  intros M1 S1 M3 S3 Hid. cbv zeta. cbn [gs_run gs_step].
  destruct (open_only_slot e1 a1 (gs_start a iv 1 w) None eq_refl I M1 S1) as (ks & g1 & -> & Hks & Hs1 & Hn1 & Hh1 & Ht1).
  cbn [mbind option_bind]. cbn [gs_start g_next g_heap g_threads] in *.
  assert (g_heap g1 !! 0%nat = Some (opened_session e1 ks)) as Hp by (rewrite Hh1; apply lookup_insert_eq).
  assert (first_live g1 0 0 (opened_session e1 ks) ks []) as Hf by (constructor; [exact Hs1|exact Hp|discriminate|reflexivity]).
  rewrite (datagram_live e2 a2 (close_datagram 0 reason) g1 0 0 _ _ _ Hf ltac:(discriminate)). cbv zeta.
  destruct (Z.eqb_spec (getSessionId ks) (kcp_sid (close_datagram 0 reason))) as [|_]; [congruence|].
  change (is_close (close_datagram 0 reason)) with true. cbv iota. unfold close_at.
  change (g_heap (set_client a2 g1)) with (g_heap g1). rewrite Hp. cbn [mbind option_bind].
  destruct (close (opened_session e1 ks) _) as [s' out] eqn:Ec. change (s_player (opened_session e1 ks)) with (@None Player).
  cbn [mbind option_bind]. set (g2 := store _ s' _ _).
  assert (s' = fst (close (opened_session e1 ks) (hs_cmd (close_datagram 0 reason)))) as Es' by (rewrite Ec; reflexivity).
  destruct (open_only_slot e3 a3 g2 (Some 0%nat)) as (ks3 & g3 & E3 & _ & _ & _ & Hh3 & Ht3); [exact Hs1| |exact M3|exact S3|].
  { exists s'. split; [apply lookup_insert_eq|]. rewrite Es'. repeat split. }
  rewrite E3. exists g3. split; [reflexivity|]. change (g_threads g2) with (g_threads g1) in Ht3. rewrite Ht1 in Ht3.
  split; [rewrite Ht3; reflexivity|]. rewrite Ht3. cbn [app lookup list_lookup mbind option_bind]. unfold turn.
  cbn [t_session]. rewrite Hh3. change (g_next g2) with (g_next g1). rewrite Hn1.
  rewrite lookup_insert_ne by discriminate. rewrite lookup_delete_eq. reflexivity.
Qed.
End claims.

(** ** Stopping *)

Section stop.
Context {Addr Player World : Type}.
Implicit Types (g : server Addr Player World).
Variable del_player : Player -> server Addr Player World -> option World.
Context `{PL : PlayerLaws Addr Player World del_player}.

Lemma stop_ok n g :
  gs_wf del_player g -> (n <= length (g_slots g))%nat ->
  exists g', stop del_player n g = Some g' /\ gs_wf del_player g' /\ length (g_slots g') = length (g_slots g) /\
    forall i, (i < n)%nat -> g_slots g' !! i = Some None.
Proof.
  induction n as [|n IH]; intros Hw Hn; cbn [stop]; 
    [exists g; split; [reflexivity|split; [exact Hw|split; [reflexivity|lia]]]|].
  destruct (IH Hw ltac:(lia)) as (g1 & -> & W1 & L1 & N1). cbn [mbind option_bind].
  destruct (lookup_lt_is_Some_2 (g_slots g1) n ltac:(lia)) as [[p|] E]; rewrite E.
  - destruct (wf_live del_player g1 W1 n p E) as [s Es].
    destruct (close_at_ok del_player p 6 g1 s W1 Es) as (g2 & -> & W2 & T2 & _). cbn [mbind option_bind].
    destruct (delete_wf del_player n _ W2 ltac:(rewrite (st_slots _ _ T2); lia)) as (g3 & Ed & W3 & L3 & N3). exists g3.
    split; [exact Ed|]. split; [exact W3|]. split; [rewrite L3, (st_slots _ _ T2); exact L1|].
    intros i Hi. destruct (decide (i = n)) as [->|]; [exact N3|].
    specialize (N1 i ltac:(lia)). unfold delete_session in Ed. rewrite (st_slots _ _ T2), E in Ed.
    destruct (close_at _ p 12 g2) as [g4|] eqn:E4; [|discriminate Ed]. cbn [mbind option_bind] in Ed. injection Ed as <-.
    destruct (close_at_inv _ _ _ _ _ E4) as (s4 & _ & T4 & _). cbn [set_slot set_heap g_slots].
    rewrite (st_slots _ _ T4), (st_slots _ _ T2), list_lookup_insert_ne by congruence. exact N1.
  - exists g1. split; [reflexivity|]. split; [exact W1|]. split; [exact L1|]. intros i Hi.
    destruct (decide (i = n)) as [->|]; [exact E|]. apply N1. lia.
Qed.

(** [stop] leaves no session. *)
Lemma gs_stop_ok g :
  gs_wf del_player g -> exists g', gs_stop del_player g = Some g' /\ gs_wf del_player g' /\ forall i p, g_slots g' !! i <> Some (Some p).
Proof.
  intros Hw. destruct (stop_ok (length (g_slots g)) g Hw ltac:(lia)) as (g' & E & W & L & N).
  exists g'. split; [exact E|]. split; [exact W|]. intros i p H. pose proof (lookup_lt_Some _ _ _ H) as Hi.
  rewrite N in H by lia. discriminate H.
Qed.

(** Looking a session up in a table with a free slot before it crashes. *)
Lemma lookup_null_slot id g : g_slots g = [None] -> getSessionById (g_slots g) id g = None.
Proof. intros ->. reflexivity. Qed.
End stop.

(** ** Concrete runs

    Players that are numbers, whose destructor does nothing; a handler that
    accepts every packet. *)

Definition ex_env (sid : Z) : env := mkEnv sid 20 1000 (true, true, true) 0 [].
Definition ex_del (pl : nat) (g : server nat nat unit) : option unit := Some (g_world g).
Definition ex_handler (p : nat) (pkt : Packet) (g : server nat nat unit) : option (Z * bool * server nat nat unit) :=
  Some (0, true, g).

#[local] Instance ex_players : PlayerLaws ex_del :=
  {| player_ok _ := True; world_ok _ := True; stage_ok _ := True; stage_new _ _ _ _ := I; stage_closed _ _ := I;
     stage_kcp _ _ _ _ := I; del_player_ok _ g _ _ := ex_intro _ (g_world g) (conj eq_refl I) |}.

#[local] Instance ex_handlers : HandlerLaws ex_del ex_handler.
Proof. intros p pkt g r v g' Hw _ E. injection E as _ _ <-. apply served_refl, Hw. Defined.

Definition ex_open (sid : Z) (from : nat) : event nat unit := Datagram (ex_env sid) from open_datagram.

(** A server whose only client, at address 1, opened session 0x1122334455. *)
Definition ex_start : server nat nat unit := gs_start 0%nat 100 1 tt.
Definition ex_server : server nat nat unit :=
  default ex_start (gs_run ex_del ex_handler None [ex_open 0x1122334455 1] ex_start).

Definition ex_ks (sid : Z) : KcpSession := default (mkKs None 0) (new_KcpSession sid 100 true true true).
Definition ex_session (sid : Z) : Session nat := opened_session (ex_env sid) (ex_ks sid).

Lemma ex_live : first_live ex_server 0 0 (ex_session 0x1122334455) (ex_ks 0x1122334455) [].
Proof. constructor; [vm_compute; reflexivity..|discriminate|vm_compute; reflexivity]. Qed.

Lemma ex_run : gs_run ex_del ex_handler None [ex_open 0x1122334455 1] ex_start = Some ex_server.
Proof. vm_compute. reflexivity. Qed.

Lemma ex_events : Forall (event_ok ex_del) [ex_open 0x1122334455 1].
Proof. constructor; [split; [reflexivity|discriminate]|constructor]. Qed.

Lemma ex_server_wf : gs_wf ex_del ex_server.
Proof.
  refine (proj1 (run_wf ex_del ex_handler None _ _ _ ex_events _ ex_run)). apply start_wf. exact I.
Qed.

(** A datagram of 20 bytes that begins with [sid]. *)
Definition ex_datagram (sid : Z) : list byte := le_enc 8 sid ++ replicate 12 Byte.x00.

Lemma gs_datagram_safe_witness :
  exists g', on_datagram ex_del (ex_env 5) 2%nat (ex_datagram 9) ex_server = Some g' /\ g_client g' = 2%nat /\ keeps ex_server g'.
Proof.
  destruct (gs_datagram_safe ex_del ex_handler None 0%nat 100 1%nat tt [ex_open 0x1122334455 1]
    ex_server (ex_env 5) 2%nat (ex_datagram 9) ltac:(exact I) ex_events ex_run) as (g' & E & _ & C & _ & K).
  - split; [reflexivity|discriminate].
  - exists g'. split; [exact E|]. split; [exact C|]. apply K; [reflexivity|]. intros p s ks Hp Hk.
    assert (p = 0%nat /\ s = ex_session 0x1122334455) as [-> ->].
    { change (g_heap ex_server) with ({[0%nat := ex_session 0x1122334455]} : gmap nat (Session nat)) in Hp.
      apply lookup_singleton_Some in Hp as [<- <-]. auto. }
    assert (ks = ex_ks 0x1122334455) as -> by (injection Hk as <-; reflexivity). vm_compute. split; discriminate.
Defined.

Lemma gs_routing_witness :
  exists r ks', pushToKcp (ex_ks 0x1122334455) (ex_datagram 0x1122334455) = Some (r, ks') /\
    on_datagram ex_del (ex_env 5) 2%nat (ex_datagram 0x1122334455) ex_server =
      Some (store 0 (setKcp (ex_session 0x1122334455) (Some ks')) [] (set_client 2%nat ex_server)).
Proof.
  apply (gs_routing ex_del (ex_env 5) 2%nat (ex_datagram 0x1122334455) ex_server 0 0 _ _ [] ex_live);
    [discriminate|vm_compute; reflexivity].
Defined.

Lemma gs_close_by_anyone_witness :
  exists g', on_datagram ex_del (ex_env 5) 2%nat (close_datagram 77 3) ex_server = Some g' /\
    g_sent g' = g_sent ex_server ++ [(2%nat, close_datagram 0x1122334455 3)] /\
    exists s', g_heap g' !! 0%nat = Some s' /\ getState s' = NOT_CONNECTED /\ s_kcp s' = None /\ s_player s' = None.
Proof.
  apply (gs_close_by_anyone ex_del (ex_env 5) 2%nat (close_datagram 77 3) ex_server 0 0 _ _ [] ex_server_wf ex_live);
    [discriminate|vm_compute; discriminate|vm_compute; reflexivity].
Defined.

(** A table of two. *)
Definition ex_two : server nat nat unit :=
  default ex_start (gs_run ex_del ex_handler None [ex_open 0x1122334455 1; ex_open 0x99 2] (gs_start 0%nat 100 2 tt)).

Lemma gs_second_session_deaf_witness :
  g_slots ex_two = [Some 0%nat; Some 1%nat] /\
  on_datagram ex_del (ex_env 5) 2%nat (ex_datagram 0x99) ex_two = Some (set_client 2%nat ex_two).
Proof.
  split; [vm_compute; reflexivity|].
  apply (gs_second_session_deaf ex_del (ex_env 5) 2%nat (ex_datagram 0x99) ex_two 0 0 (ex_session 0x1122334455) (ex_ks 0x1122334455)
    1 (ex_session 0x99) (ex_ks 0x99)); try (vm_compute; reflexivity); try discriminate; try (vm_compute; discriminate).
  constructor; [vm_compute; reflexivity..|discriminate|vm_compute; reflexivity].
Defined.

(** The session of the client at 1 times out after the client at 2 sent
    something: the one at 2 is told. *)
Lemma gs_replies_misdirected_witness :
  exists g1 g2 out,
    gs_step ex_del ex_handler None (Datagram (ex_env 5) 2%nat (ex_datagram 9)) ex_server = Some g1 /\
    gs_step ex_del ex_handler None (Turn 0 40000) g1 = Some g2 /\
    g_sent g2 = g_sent g1 ++ map (pair 2%nat) out /\ g_sent g2 <> g_sent g1.
Proof.
  assert (exists g1 g2, gs_step ex_del ex_handler None (Datagram (ex_env 5) 2%nat (ex_datagram 9)) ex_server = Some g1 /\
    gs_step ex_del ex_handler None (Turn 0 40000) g1 = Some g2 /\ length (g_sent g1) <> length (g_sent g2)) as (g1 & g2 & H1 & H2 & Hn).
  { do 2 eexists. split; [vm_compute; reflexivity|]. split; [vm_compute; reflexivity|]. vm_compute. discriminate. }
  destruct (gs_replies_misdirected ex_del ex_handler None (ex_env 5) 2%nat (ex_datagram 9) 0 40000 ex_server g1 g2
    ex_server_wf) as [out E]; [split; [reflexivity|discriminate]|exact H1|exact H2|].
  exists g1, g2, out. split; [exact H1|]. split; [exact H2|]. split; [exact E|]. intros H. apply Hn. rewrite H. reflexivity.
Defined.

Lemma gs_use_after_free_witness :
  exists g, gs_run ex_del ex_handler None [ex_open 0x1122334455 1;
      Datagram (ex_env 1) 2%nat (close_datagram 0 3); ex_open 0x99 2] ex_start = Some g /\
    length (g_threads g) = 2%nat /\ gs_step ex_del ex_handler None (Turn 0 1000) g = None.
Proof.
  apply (gs_use_after_free ex_del ex_handler None (ex_env 0x1122334455) (ex_env 1) (ex_env 0x99) 0%nat 100 tt 1%nat 2%nat 2%nat 3 1000);
    [reflexivity|discriminate|reflexivity|discriminate|vm_compute; discriminate].
Defined.
