(* ===== verification/SessionProps.v ===== *)
(** * Sessions: theorems

    A session is an endpoint of KcpSys.v: everything it does to its control
    block is a sequence of that system's steps, so that what is proved of two
    endpoints and the network holds of sessions, and of the packets they
    exchange. *)

From stdpp Require Import relations.
From S2P Require Import Prelude Bytes KcpTypes KcpRecv KcpSend KcpInput KcpFlush KcpSendFacts KcpPeer KcpSys.
From S2P Require Import Packet PacketProps Session.

(** ** Endpoints *)

(** [ks] at the endpoint [n]. *)
Definition at_node (n : node) (ks : KcpSession) : Prop := ks_kcp ks = Some (n_kcp n).

(** The bytes of a packet under a key, as [sendPacket] hands them down. *)
Definition sealed (key : option (list byte)) (p : Packet) : list byte :=
  match key with Some k => xor_from 0 (frame p) k | None => frame p end.

(** What [SessionMain] does with a message before it looks at the packet. *)
Definition opened (key : option (list byte)) (q : Packet) (m : list byte) : option Packet :=
  plain ← match key with Some k => HyvCryptXor m k | None => Some m end;
  match parse q (Some plain) with p_ok p => Some p | _ => None end.

Definition same_packet (p p' : Packet) : Prop :=
  p_opcode p' = p_opcode p /\ p_header p' = p_header p /\ p_data p' = p_data p.

Lemma opened_sealed key q p :
  fits p -> key <> Some [] -> exists p', opened key q (sealed key p) = Some p' /\ same_packet p p'.
Proof.
  intros Hf Hk. pose proof (parse_frame q p [] Hf) as E. rewrite app_nil_r in E.
  unfold opened, sealed. destruct key as [k|]; [rewrite crypt_twice by congruence|]; cbn [mbind option_bind];
    rewrite E; eexists; (split; [reflexivity|repeat split]).
Qed.

Lemma length_sealed key p : zlen (sealed key p) = 12 + zlen (p_header p) + zlen (p_data p).
Proof.
  rewrite <- length_frame. destruct key; cbn [sealed]; [rewrite length_xor_from|]; reflexivity.
Qed.

(** [ikcp_send] returns 0, -1 or -2. *)
Lemma send_code k buf len r k' : ikcp_send k buf len = (r, k') -> r = 0 \/ r = -1 \/ r = -2.
Proof.
  unfold ikcp_send. destruct (len <? 0); [intros E; injection E; auto|]. cbv zeta.
  destruct (negb _ && _); [intros E; injection E; auto|].
  destruct (IKCP_WND_RCV <=? _); intros E; injection E; auto.
Qed.

Section session.
Context {Player : Type}.
Implicit Types (s : Session Player).

(** [sendPacket] without the failures of its C buffers. *)
Lemma sendPacket_ok dk raw buf s p ks :
  zlen buf = SEND_BUF -> 12 + zlen (p_header p) + zlen (p_data p) <= SEND_BUF ->
  s_kcp s = Some ks -> packet_key dk s p <> Some [] ->
  sendPacket dk raw buf s p =
    let '(r, ks', out) := ks_send raw ks (sealed (packet_key dk s p) p) in
    Some (if r <? 0 then -1 else 0, setKcp s (Some ks'), out).
Proof.
  intros Hb Hl Hk Hkey. unfold sendPacket, build. pose proof (length_frame p) as Hf.
  destruct (Z.ltb_spec (zlen buf) (zlen (frame p))); [unfold SEND_BUF in *; lia|].
  cbn [mbind option_bind]. change (0 <? 0) with false. cbv iota.
  cbn [mbind option_bind]. rewrite take_app_all by lia. rewrite Hk.
  destruct (packet_key dk s p) as [k|] eqn:E; cbn [sealed].
  - rewrite crypt_ok by congruence. cbn [mbind option_bind]. destruct (ks_send _ _ _) as [[r ks'] out]. reflexivity.
  - cbn [mbind option_bind]. destruct (ks_send _ _ _) as [[r ks'] out]. reflexivity.
Qed.

(** A packet that does not fit is stored past the end of the buffer. *)
Lemma sendPacket_overflow dk raw buf s p :
  zlen buf = SEND_BUF -> SEND_BUF < 12 + zlen (p_header p) + zlen (p_data p) ->
  sendPacket dk raw buf s p = None.
Proof.
  intros Hb Hl. unfold sendPacket, build. pose proof (length_frame p) as Hf.
  destruct (Z.ltb_spec (zlen buf) (zlen (frame p))); [reflexivity|lia].
Qed.

(** ** Two sessions and the network

    [ep_sent] and [ep_rcvd] are what an observer notes: the packets that
    [sendPacket] accepted, each with the key it was sent under (and the
    segment size then), and the messages [recv] returned. *)
Record endpoint := mkEp {
  ep_session : Session Player; ep_net : list (list byte);
  ep_sent : list (Z * (option (list byte) * Packet)); ep_rcvd : list (list byte) }.

Variable dk : option (list byte).

Definition sealed_log (l : list (Z * (option (list byte) * Packet))) : list (Z * list byte) :=
  map (fun m => (fst m, sealed (fst (snd m)) (snd (snd m)))) l.

Definition fragments (l : list (Z * (option (list byte) * Packet))) : Z :=
  zlen (concat (map (fun m => msg_block (fst m) (snd m)) (sealed_log l))).

Definition ks_mss (ks : KcpSession) : Z := match ks_kcp ks with Some k => k_mss k | None => 0 end.

(** What may happen at an endpoint; [net] is what the other one emitted.
    The last rule stands for everything that leaves the transport alone. *)
Inductive ep_step (net : list (list byte)) (n : endpoint) : endpoint -> Prop :=
  | ep_send buf p ks r s' out :
      zlen buf = SEND_BUF -> fits p -> s_kcp (ep_session n) = Some ks ->
      packet_key dk (ep_session n) p <> Some [] ->
      sendPacket dk 0 buf (ep_session n) p = Some (r, s', out) ->
      let sent := if r =? 0 then ep_sent n ++ [(ks_mss ks, (packet_key dk (ep_session n) p, p))] else ep_sent n in
      fragments sent < 2147483648 ->
      ep_step net n (mkEp s' (ep_net n) sent (ep_rcvd n))
  | ep_recv ks r buf ks' :
      s_kcp (ep_session n) = Some ks -> ks_recv (0, []) ks (16 * 1024) = (r, buf, ks') ->
      ep_step net n (mkEp (setKcp (ep_session n) (Some ks')) (ep_net n) (ep_sent n)
        (if 0 <=? r then ep_rcvd n ++ [buf] else ep_rcvd n))
  | ep_push d ks r ks' :
      d ∈ net -> s_kcp (ep_session n) = Some ks -> pushToKcp ks d = Some (r, ks') ->
      ep_step net n (mkEp (setKcp (ep_session n) (Some ks')) (ep_net n) (ep_sent n) (ep_rcvd n))
  | ep_update ks ms ks' out :
      s_kcp (ep_session n) = Some ks -> ks_update ks ms = (ks', out) ->
      ep_step net n (mkEp (setKcp (ep_session n) (Some ks')) (ep_net n ++ out) (ep_sent n) (ep_rcvd n))
  | ep_other s' :
      s_kcp s' = s_kcp (ep_session n) -> ep_step net n (mkEp s' (ep_net n) (ep_sent n) (ep_rcvd n)).

Inductive ep_pair : endpoint * endpoint -> endpoint * endpoint -> Prop :=
  | pair_left a a' b : ep_step (ep_net b) a a' -> ep_pair (a, b) (a', b)
  | pair_right a b b' : ep_step (ep_net a) b b' -> ep_pair (a, b) (a, b').

(** Both ends as the constructors leave them, with the same session id. *)
Definition ep_start (id : Z) (n : endpoint) : Prop :=
  exists interval m3 ks, new_KcpSession id interval true true m3 = Some ks /\
    s_kcp (ep_session n) = Some ks /\ ep_net n = [] /\ ep_sent n = [] /\ ep_rcvd n = [].

(** ** The simulation *)

Record simulates (n : endpoint) (m : node) : Prop := {
  sim_kcp : exists ks, s_kcp (ep_session n) = Some ks /\ ks_kcp ks = Some (n_kcp m);
  sim_net : ep_net n = n_net m;
  sim_sent : sealed_log (ep_sent n) = n_sent m;
  sim_rcvd : ep_rcvd n = n_rcvd m
}.

Lemma sealed_app a b : sealed_log (a ++ b) = sealed_log a ++ sealed_log b.
Proof. apply map_app. Qed.

Lemma simulate net n n' m :
  ep_step net n n' -> simulates n m -> exists m', rtc (node_step net) m m' /\ simulates n' m'.
Proof.
  intros Hstep [(ks0 & Hk & Hn) Hnet Hsent Hrcvd].
  destruct Hstep as [buf p ks r s' out Hb Hf Hks Hkey Hsend sent Hlog|ks r buf ks' Hks Hr|d ks r ks' Hd Hks Hp|ks ms ks' out Hks Hu|s' Hs'];
    try (assert (ks = ks0) as -> by congruence).
  - destruct (Z.le_gt_cases (12 + zlen (p_header p) + zlen (p_data p)) SEND_BUF) as [Hl|Hl];
      [|rewrite (sendPacket_overflow dk 0 buf _ p Hb Hl) in Hsend; discriminate Hsend].
    rewrite (sendPacket_ok dk 0 buf _ p ks0 Hb Hl Hks Hkey) in Hsend. unfold ks_send in Hsend. rewrite Hn in Hsend.
    set (w := sealed (packet_key dk (ep_session n) p) p) in *.
    destruct (ikcp_send (n_kcp m) w (zlen w)) as [ret k'] eqn:E. injection Hsend as Hret <- <-.
    assert (sent = if ret =? 0 then ep_sent n ++ [(ks_mss ks0, (packet_key dk (ep_session n) p, p))] else ep_sent n) as Es.
    { subst sent. rewrite <- Hret. destruct (send_code _ _ _ _ _ E) as [-> | [-> | ->]]; reflexivity. }
    exists (mkNode k' (n_net m) (if ret =? 0 then n_sent m ++ [(k_mss (n_kcp m), w)] else n_sent m) (n_rcvd m)).
    assert (sealed_log sent = if ret =? 0 then n_sent m ++ [(k_mss (n_kcp m), w)] else n_sent m) as Ew.
    { rewrite Es. destruct (ret =? 0); [|exact Hsent]. rewrite sealed_app, Hsent. unfold sealed_log, ks_mss. rewrite Hn. reflexivity. }
    split.
    + apply rtc_once. refine (do_send net m w ret k' _ E _).
      * unfold w. rewrite length_sealed. unfold SEND_BUF in Hl. lia.
      * unfold log. cbn [n_sent]. rewrite <- Ew. exact Hlog.
    + constructor; cbn [ep_session ep_net ep_sent ep_rcvd n_kcp n_net n_sent n_rcvd]; auto.
      eexists. split; reflexivity.
  - unfold ks_recv in Hr. rewrite Hn in Hr. destruct (ikcp_recv (n_kcp m) (16 * 1024)) as [[r0 b0] k'] eqn:E.
    injection Hr as -> -> <-. eexists. split; [apply rtc_once, (do_recv _ _ _ _ _ _ E)|].
    constructor; cbn [ep_session ep_net ep_sent ep_rcvd n_kcp n_net n_sent n_rcvd]; auto.
    + eexists. split; reflexivity.
    + rewrite Hrcvd. change (0 <=? 16 * 1024) with true. rewrite andb_true_r. reflexivity.
  - unfold pushToKcp in Hp. rewrite Hn in Hp. destruct (ikcp_input (n_kcp m) (Some d) (zlen d)) as [[r0 k']|] eqn:E; [|discriminate Hp].
    injection Hp as -> <-. eexists. split; [apply rtc_once, (do_input _ _ _ _ _ Hd E)|].
    constructor; cbn [ep_session ep_net ep_sent ep_rcvd n_kcp n_net n_sent n_rcvd]; auto. eexists. split; reflexivity.
  - unfold ks_update in Hu. rewrite Hn in Hu. destruct (_ <=? _).
    + destruct (ikcp_update (n_kcp m) (kcp_next_update ks0)) as [k' o] eqn:E. injection Hu as <- <-.
      eexists. split; [apply rtc_once, (do_update _ _ _ _ _ E)|].
      constructor; cbn [ep_session ep_net ep_sent ep_rcvd n_kcp n_net n_sent n_rcvd]; auto; [eexists; split; reflexivity|congruence].
    + injection Hu as <- <-. exists m. split; [constructor|].
      constructor; cbn [ep_session ep_net ep_sent ep_rcvd]; auto; [eexists; split; reflexivity|]. rewrite app_nil_r. exact Hnet.
  - exists m. split; [constructor|]. constructor; auto. cbn [ep_session]. rewrite Hs'. eauto.
Qed.

Lemma start_simulates id n : ep_start id n -> exists m, rtc (node_step []) (start id) m /\ simulates n m.
Proof.
  intros (iv & m3 & ks & E & Hs & Hn & Hsent & Hr). unfold new_KcpSession in E.
  cbn [ikcp_create negb mbind option_bind] in E.
  destruct (ikcp_nodelay (new_kcpcb id) 1 (s32 iv) 2 1) as [r1 k1] eqn:E1.
  destruct (ikcp_setmtu k1 1400 m3) as [r2 k2] eqn:E2. destruct (ikcp_wndsize k2 256 256) as [r3 k3] eqn:E3.
  injection E as <-. exists (mkNode k3 [] [] []). split.
  - eapply rtc_l; [exact (do_nodelay [] (start id) _ _ _ _ _ _ E1)|].
    eapply rtc_l; [eapply (do_setmtu [] (mkNode k1 [] [] []) 1400 m3 r2 k2); [|exact E2]|].
    + cbn [n_kcp]. replace k1 with (snd (ikcp_nodelay (new_kcpcb id) 1 (s32 iv) 2 1)) by (rewrite E1; reflexivity).
      unfold ikcp_nodelay. cbv zeta. destruct (0 <=? s32 iv); cbn; unfold IKCP_MTU_DEF; lia.
    + apply rtc_once. eapply (do_wndsize [] (mkNode k2 [] [] []) 256 256 r3 k3); [reflexivity|exact E3].
  - constructor; cbn [n_kcp n_net n_sent n_rcvd]; auto.
    + eexists. split; [exact Hs|reflexivity].
    + rewrite Hsent. reflexivity.
Qed.

(** ** Two sessions are a KCP connection *)

Lemma steps_left net a a' (b : node) : rtc (node_step net) a a' -> net = n_net b -> rtc step (a, b) (a', b).
Proof. intros H ->. induction H as [|x y z Hxy _ IH]; [constructor|]. eapply rtc_l; [constructor; exact Hxy|exact IH]. Qed.

Lemma steps_right net (a : node) b b' : rtc (node_step net) b b' -> net = n_net a -> rtc step (a, b) (a, b').
Proof. intros H ->. induction H as [|x y z Hxy _ IH]; [constructor|]. eapply rtc_l; [constructor 2; exact Hxy|exact IH]. Qed.

Lemma pair_simulated id w w' :
  ep_start id (fst w) -> ep_start id (snd w) -> rtc ep_pair w w' ->
  exists m m', reachable id (m, m') /\ simulates (fst w') m /\ simulates (snd w') m'.
Proof.
  intros Ha Hb Hr. revert Hr. apply (rtc_ind_r (fun v => exists m m', reachable id (m, m') /\
    simulates (fst v) m /\ simulates (snd v) m') w).
  - destruct (start_simulates id _ Ha) as (m & Hm & Sm), (start_simulates id _ Hb) as (m' & Hm' & Sm').
    exists m, m'. split; [|auto]. unfold reachable. etransitivity; [exact (steps_left [] (start id) m (start id) Hm eq_refl)|].
    apply steps_right with (net := []); [exact Hm'|]. rewrite <- (sim_net _ _ Sm).
    destruct Ha as (iv & m3 & ks & _ & _ & Hn & _). symmetry. exact Hn.
  - intros v v' _ Hstep (m & m' & Hreach & S1 & S2). destruct Hstep as [a a' b H|a b b' H]; cbn [fst snd] in *.
    + destruct (simulate _ _ _ _ H S1) as (n & Hn & Sn). exists n, m'. split; [|auto].
      unfold reachable. etransitivity; [exact Hreach|]. eapply steps_left; [exact Hn|apply (sim_net _ _ S2)].
    + destruct (simulate _ _ _ _ H S2) as (n & Hn & Sn). exists m, n. split; [|auto].
      unfold reachable. etransitivity; [exact Hreach|]. eapply steps_right; [exact Hn|apply (sim_net _ _ S1)].
Qed.

(** Everything accepted satisfied what [sendPacket] needs. *)
Definition sendable (m : Z * (option (list byte) * Packet)) : Prop :=
  fits (snd (snd m)) /\ fst (snd m) <> Some [].

Lemma step_sendable net n n' : ep_step net n n' -> Forall sendable (ep_sent n) -> Forall sendable (ep_sent n').
Proof.
  intros Hs H; destruct Hs; cbn [ep_sent]; auto. destruct (_ =? _); [|exact H]. apply Forall_app. split; [exact H|].
  constructor; [split; assumption|constructor].
Qed.

Lemma pair_sendable id w w' :
  ep_start id (fst w) -> ep_start id (snd w) -> rtc ep_pair w w' ->
  Forall sendable (ep_sent (fst w')) /\ Forall sendable (ep_sent (snd w')).
Proof.
  intros (? & ? & ? & _ & _ & _ & Ha & _) (? & ? & ? & _ & _ & _ & Hb & _) Hr.
  revert Hr. apply (rtc_ind_r (fun v => Forall sendable (ep_sent (fst v)) /\ Forall sendable (ep_sent (snd v))) w).
  - rewrite Ha, Hb. split; constructor.
  - intros v v' _ [a a' b H|a b b' H] [H1 H2]; cbn [fst snd] in *; split; eauto using step_sendable.
Qed.
End session.

(** ** What the sessions see *)

Lemma received_in_order {Player} id (a b : @endpoint Player) m m' :
  Forall sendable (ep_sent a) -> simulates a m -> simulates b m' -> node_inv id m' m ->
  forall i msg, ep_rcvd b !! i = Some msg ->
  exists mss key p, ep_sent a !! i = Some (mss, (key, p)) /\
    forall q, exists p', opened key q msg = Some p' /\ same_packet p p'.
Proof.
  intros Hs Sa Sb Hinv i msg Hi. destruct (delivered_prefix _ _ _ Hinv) as [later E].
  unfold messages in E. rewrite <- (sim_sent _ _ Sa), <- (sim_rcvd _ _ Sb) in E.
  apply (lookup_app_l_Some _ later) in Hi. rewrite <- E in Hi. unfold sealed_log in Hi.
  rewrite !list_lookup_fmap in Hi. destruct (ep_sent a !! i) as [[mss [key p]]|] eqn:Ea; [|discriminate Hi].
  cbn [fmap option_fmap option_map fst snd] in Hi. injection Hi as <-. exists mss, key, p. split; [reflexivity|].
  intros q. rewrite Forall_forall in Hs. destruct (Hs _ (list_elem_of_lookup_2 _ _ _ Ea)) as [Hf Hk].
  exact (opened_sealed key q p Hf Hk).
Qed.

(** C14: Two sessions with the same id, over a network that loses, delays,
    reorders and repeats datagrams: whatever the applications, the keys and
    the clocks do, the i-th message [SessionMain] of one receives is the i-th
    packet [sendPacket] of the other accepted, encrypted under the key of that
    moment; with that key it parses to the packet that was sent. *)
Theorem session_packets_in_order {Player} (dk : option (list byte)) id (a b a' b' : @endpoint Player) :
  in_u 64 id -> ep_start id a -> ep_start id b -> rtc (ep_pair dk) (a, b) (a', b') ->
  forall i msg, ep_rcvd b' !! i = Some msg ->
  exists mss key p, ep_sent a' !! i = Some (mss, (key, p)) /\
    forall q, exists p', opened key q msg = Some p' /\ same_packet p p'.
Proof.
  intros Hid Ha Hb Hr. destruct (pair_simulated dk id (a, b) (a', b') Ha Hb Hr) as (m & m' & Hreach & Sa & Sb).
  destruct (pair_sendable dk id (a, b) (a', b') Ha Hb Hr) as [Hs _].
  destruct (reachable_inv id _ Hid Hreach) as [_ H]. exact (received_in_order id a' b' m m' Hs Sa Sb H).
Qed.

(** One end sends a packet under the dispatch key and flushes; the other takes
    the datagram and receives. *)
Definition ex_start : @endpoint nat :=
  mkEp (mkSession (new_KcpSession 7 100 true true true) None 1 0 10 0 0 []) [] [] [].

Lemma session_packets_in_order_witness :
  exists (a' b' : @endpoint nat) msg,
    rtc (ep_pair (Some [Byte.x05; Byte.x06])) (ex_start, ex_start) (a', b') /\ ep_rcvd b' = [msg] /\
    exists mss key p, ep_sent a' !! 0%nat = Some (mss, (key, p)) /\
      forall q, exists p', opened key q msg = Some p' /\ same_packet p p'.
Proof.
  assert (exists a' b' msg, rtc (ep_pair (Some [Byte.x05; Byte.x06])) (ex_start, ex_start) (a', b') /\
    ep_rcvd b' = [msg]) as (a' & b' & msg & Hr & Hm).
  { do 3 eexists. split.
    - eapply rtc_l.
      { apply pair_left. eapply (ep_send _ _ _ (replicate (Z.to_nat SEND_BUF) Byte.x00) (mkPacket 7 [] [Byte.x09] None 0));
          [reflexivity|constructor; cbn; lia|reflexivity|discriminate|vm_compute; reflexivity|vm_compute; reflexivity]. }
      eapply rtc_l.
      { apply pair_left. eapply (ep_update _ _ _ _ 50); [reflexivity|vm_compute; reflexivity]. }
      eapply rtc_l.
      { apply pair_right. eapply ep_push; [left|reflexivity|vm_compute; reflexivity]. }
      eapply rtc_l; [|apply rtc_refl].
      apply pair_right. eapply ep_recv; [reflexivity|vm_compute; reflexivity].
    - vm_compute. reflexivity. }
  exists a', b', msg. split; [exact Hr|]. split; [exact Hm|].
  assert (ep_start 7 ex_start) as Hst by (exists 100, true; eexists; repeat split; vm_compute; reflexivity).
  apply (session_packets_in_order (Some [Byte.x05; Byte.x06]) 7 ex_start ex_start a' b'); auto.
  - unfold in_u. zpow. lia.
  - rewrite Hm. reflexivity.
Defined.

(** What [sendPacket] does with any packet, whatever its size: one whose
    frame is longer than 4096 bytes is stored past the end of the static
    buffer; any other reaches the transport whole, encrypted under the key the
    flags select, and the result is that of [ikcp_send]. *)
Theorem sendPacket_bounds {Player} (dk : option (list byte)) buf (s : Session Player) p ks k :
  zlen buf = SEND_BUF -> s_kcp s = Some ks -> ks_kcp ks = Some k -> packet_key dk s p <> Some [] ->
  sendPacket dk 0 buf s p =
    if SEND_BUF <? 12 + zlen (p_header p) + zlen (p_data p) then None
    else let m := sealed (packet_key dk s p) p in
      let '(r, k') := ikcp_send k m (zlen m) in
      Some (if r <? 0 then -1 else 0, setKcp s (Some (mkKs (Some k') (kcp_next_update ks))), []).
Proof.
  intros Hb Hs Hk Hkey. destruct (Z.ltb_spec SEND_BUF (12 + zlen (p_header p) + zlen (p_data p))) as [H|H].
  - exact (sendPacket_overflow dk 0 buf s p Hb H).
  - rewrite (sendPacket_ok dk 0 buf s p ks Hb H Hs Hkey). unfold ks_send. rewrite Hk. cbv zeta.
    destruct (ikcp_send _ _ _). reflexivity.
Qed.

(** 4085 bytes of data are one too many. *)
Lemma sendPacket_bounds_witness :
  sendPacket (Player := nat) None 0 (replicate (Z.to_nat SEND_BUF) Byte.x00) (ep_session ex_start)
    (mkPacket 7 [] (replicate (Z.to_nat 4085) Byte.x01) None 0) = None.
Proof.
  erewrite sendPacket_bounds; [vm_compute; reflexivity|vm_compute; reflexivity|reflexivity|reflexivity|discriminate].
Defined.
