(* ===== verification/Account.v ===== *)
(** * Accounts

    src/account.cpp: the class [Account] and its conversions from and to the
    message that is stored, [AccountInfo] of src/proto/storage.proto (the class
    generated from it is a record here).  Strings are byte lists; what
    [getrandom] and [time] return is an argument, and so is the memory that the
    default constructor leaves unwritten. *)

From S2P Require Import Prelude Util.

Record AccountInfo := mkAccountInfo {
  pb_id : Z; pb_username : list byte; pb_email : list byte; pb_password : list byte;
  pb_combo_token : list byte; pb_auth_token : list byte; pb_auth_token_ts : Z;
  pb_device_id : list byte; pb_is_guest : bool; pb_reserved_uid : Z; pb_permissions : list Z;
  pb_real_name : list byte; pb_id_number : list byte; pb_bind_token : list byte; pb_bind_token_ts : Z }.

(** [session] is a pointer, [permissions] the values of an enumeration. *)
Record Account := mkAccount {
  username : list byte; password_hash : list byte; deviceId : list byte; email : list byte;
  realName : list byte; idNumber : list byte; authToken : list byte; comboToken : list byte;
  binderToken : list byte; aid : Z; guest : Z; authTokenTimestamp : Z; binderTokenTimestamp : Z;
  a_session : option nat; permissions : list Z }.

(** What four fields hold when nothing has set them. *)
Record acct_junk := mkJunk { j_aid : Z; j_guest : Z; j_auth_ts : Z; j_binder_ts : Z }.

Definition new_Account (j : acct_junk) : Account :=
  mkAccount [] [] [] [] [] [] [] [] [] (j_aid j) (j_guest j) (j_auth_ts j) (j_binder_ts j) None [].

(** ** Conversions *)

Definition Account_of_info (p : AccountInfo) : Account :=
  mkAccount (pb_username p) (pb_password p) (pb_device_id p) (pb_email p) (pb_real_name p) (pb_id_number p)
    (b64enc (pb_auth_token p)) (hexenc (pb_combo_token p)) (b64enc (pb_bind_token p)) (pb_id p)
    (if pb_is_guest p then 1 else 0) (pb_auth_token_ts p) (pb_bind_token_ts p) None (pb_permissions p).

(** [operator storage::AccountInfo]; [None]: [b64dec] has no result. *)
Definition Account_to_info (a : Account) : option AccountInfo :=
  auth ← b64dec (authToken a);
  bind ← b64dec (binderToken a);
  Some (mkAccountInfo (aid a) (username a) (email a) (password_hash a) (hexdec (comboToken a)) auth
    (authTokenTimestamp a) (deviceId a) false 0 (permissions a) (realName a) (idNumber a) bind
    (binderTokenTimestamp a)).

(** ** Setters *)

Definition setAccountId (i : Z) (a : Account) : Account :=
  mkAccount (username a) (password_hash a) (deviceId a) (email a) (realName a) (idNumber a) (authToken a)
    (comboToken a) (binderToken a) i (guest a) (authTokenTimestamp a) (binderTokenTimestamp a) (a_session a)
    (permissions a).

Definition setUsername (u : list byte) (a : Account) : Account :=
  mkAccount u (password_hash a) (deviceId a) (email a) (realName a) (idNumber a) (authToken a) (comboToken a)
    (binderToken a) (aid a) (guest a) (authTokenTimestamp a) (binderTokenTimestamp a) (a_session a) (permissions
    a).

Definition setDeviceId (d : list byte) (a : Account) : Account :=
  mkAccount (username a) (password_hash a) d (email a) (realName a) (idNumber a) (authToken a) (comboToken a)
    (binderToken a) (aid a) (guest a) (authTokenTimestamp a) (binderTokenTimestamp a) (a_session a) (permissions
    a).

Definition setPasswordHash (p : list byte) (a : Account) : Account :=
  mkAccount (username a) p (deviceId a) (email a) (realName a) (idNumber a) (authToken a) (comboToken a)
    (binderToken a) (aid a) (guest a) (authTokenTimestamp a) (binderTokenTimestamp a) (a_session a) (permissions
    a).

Definition setEmail (e : list byte) (a : Account) : Account :=
  mkAccount (username a) (password_hash a) (deviceId a) e (realName a) (idNumber a) (authToken a) (comboToken a)
    (binderToken a) (aid a) (guest a) (authTokenTimestamp a) (binderTokenTimestamp a) (a_session a) (permissions
    a).

Definition setRealName (r : list byte) (a : Account) : Account :=
  mkAccount (username a) (password_hash a) (deviceId a) (email a) r (idNumber a) (authToken a) (comboToken a)
    (binderToken a) (aid a) (guest a) (authTokenTimestamp a) (binderTokenTimestamp a) (a_session a) (permissions
    a).

Definition setIdNumber (i : list byte) (a : Account) : Account :=
  mkAccount (username a) (password_hash a) (deviceId a) (email a) (realName a) i (authToken a) (comboToken a)
    (binderToken a) (aid a) (guest a) (authTokenTimestamp a) (binderTokenTimestamp a) (a_session a) (permissions
    a).

Definition setAuthToken (t : list byte) (a : Account) : Account :=
  mkAccount (username a) (password_hash a) (deviceId a) (email a) (realName a) (idNumber a) t (comboToken a)
    (binderToken a) (aid a) (guest a) (authTokenTimestamp a) (binderTokenTimestamp a) (a_session a) (permissions
    a).

Definition setComboToken (t : list byte) (a : Account) : Account :=
  mkAccount (username a) (password_hash a) (deviceId a) (email a) (realName a) (idNumber a) (authToken a) t
    (binderToken a) (aid a) (guest a) (authTokenTimestamp a) (binderTokenTimestamp a) (a_session a) (permissions
    a).

Definition setBinderToken (t : list byte) (a : Account) : Account :=
  mkAccount (username a) (password_hash a) (deviceId a) (email a) (realName a) (idNumber a) (authToken a)
    (comboToken a) t (aid a) (guest a) (authTokenTimestamp a) (binderTokenTimestamp a) (a_session a)
    (permissions a).

Definition setAuthTokenTimestamp (t : Z) (a : Account) : Account :=
  mkAccount (username a) (password_hash a) (deviceId a) (email a) (realName a) (idNumber a) (authToken a)
    (comboToken a) (binderToken a) (aid a) (guest a) t (binderTokenTimestamp a) (a_session a) (permissions a).

Definition setBinderTokenTimestamp (t : Z) (a : Account) : Account :=
  mkAccount (username a) (password_hash a) (deviceId a) (email a) (realName a) (idNumber a) (authToken a)
    (comboToken a) (binderToken a) (aid a) (guest a) (authTokenTimestamp a) t (a_session a) (permissions a).

Definition setIsGuest (g : Z) (a : Account) : Account :=
  mkAccount (username a) (password_hash a) (deviceId a) (email a) (realName a) (idNumber a) (authToken a)
    (comboToken a) (binderToken a) (aid a) (if g =? 0 then 0 else 1) (authTokenTimestamp a)
    (binderTokenTimestamp a) (a_session a) (permissions a).

Definition setSession (s : option nat) (a : Account) : Account :=
  mkAccount (username a) (password_hash a) (deviceId a) (email a) (realName a) (idNumber a) (authToken a)
    (comboToken a) (binderToken a) (aid a) (guest a) (authTokenTimestamp a) (binderTokenTimestamp a) s
    (permissions a).

Definition setPermissions (l : list Z) (a : Account) : Account :=
  mkAccount (username a) (password_hash a) (deviceId a) (email a) (realName a) (idNumber a) (authToken a)
    (comboToken a) (binderToken a) (aid a) (guest a) (authTokenTimestamp a) (binderTokenTimestamp a) (a_session
    a) l.

Definition isGuest (a : Account) : Z := if guest a =? 0 then 0 else 1.

(** It is the other timestamp that is returned. *)
Definition getBinderTokenTimestamp (a : Account) : Z := authTokenTimestamp a.

(** ** Tokens *)

Definition getNewAuthToken (rawtoken : list byte) (now : Z) (a : Account) : Account :=
  setAuthTokenTimestamp now (setAuthToken (b64enc rawtoken) a).

Definition getNewComboToken (rawtoken : list byte) (a : Account) : Account :=
  setComboToken (hexenc rawtoken) a.

Definition getNewBinderToken (rawtoken : list byte) (now : Z) (a : Account) : Account :=
  setBinderTokenTimestamp now (setBinderToken (b64enc rawtoken) a).

(** ** Permissions *)

Definition clearPermissions (a : Account) : Account := setPermissions [] a.

Definition addPermission (p : Z) (a : Account) : Account := setPermissions (permissions a ++ [p]) a.

(** The loop goes on with the iterator it erased: there is no result then. *)
Fixpoint remove_loop (p : Z) (l : list Z) : option (list Z) :=
  match l with
  | [] => Some []
  | x :: l => if x =? p then None else cons x <$> remove_loop p l
  end.

Definition removePermission (p : Z) (a : Account) : option Account :=
  l ← remove_loop p (permissions a); Some (setPermissions l a).

Fixpoint has_loop (p : Z) (l : list Z) : Z :=
  match l with
  | [] => 0
  | x :: l => if x =? p then 1 else has_loop p l
  end.

Definition hasPermission (p : Z) (a : Account) : Z := has_loop p (permissions a).
