(* ===== verification/DbGate.v ===== *)
(** * The database gateway

    src/dbgate.cpp over LevelDB, an ordered map from byte strings to byte
    strings: its reads succeed, its writes are told by an argument whether they
    do.  Messages are serialized by generated code, which [MsgCodec] stands
    for; [MsgLaws] is what its documentation promises. *)

From stdpp Require Import gmap sorting.
From S2P Require Import Prelude Account.

#[export] Instance byte_countable : Countable byte := inj_countable' bz zb zb_bz.

(** ** Messages *)

(** A message whose fields were not set. *)
Class MsgDefault (A : Type) := msg_default : A.

(** [SerializeToString] and [ParseFromString] of a class; [msg_utf8]: its
    string fields are UTF-8. *)
Class MsgCodec (A : Type) := {
  serialize : A -> option (list byte);
  parse_from : list byte -> option A;
  msg_utf8 : A -> Prop
}.

Class MsgLaws (A : Type) `{MsgDefault A} `{MsgCodec A} := {
  msg_serializes : forall m, msg_utf8 m -> is_Some (serialize m);
  msg_roundtrip : forall m b, msg_utf8 m -> serialize m = Some b -> parse_from b = Some m;
  msg_nonempty : forall m b, serialize m = Some b -> m <> msg_default -> b <> []
}.

#[export] Instance AccountInfo_default : MsgDefault AccountInfo :=
  mkAccountInfo 0 [] [] [] [] [] 0 [] false 0 [] [] [] [] 0.

Record NextIdInfo := mkNextIds { next_aid : Z; next_uid : Z; next_gacha : Z; next_mail : Z }.

#[export] Instance NextIdInfo_default : MsgDefault NextIdInfo := mkNextIds 0 0 0 0.

(** [LevelDbKeyType] *)
Definition INVENTORY : Z := 0.
Definition ACCOUNT : Z := 1.
Definition PLAYER : Z := 2.

(** ** The store *)

Record dbGate := mkDb { ldb : gmap (list byte) (list byte); next_ids : NextIdInfo }.

Definition getLdbObject (key : list byte) (d : dbGate) : list byte := default [] (ldb d !! key).

Definition setLdbObject (ok : bool) (key val : list byte) (d : dbGate) : Z * dbGate :=
  if ok then (0, mkDb (<[key := val]> (ldb d)) (next_ids d)) else (-1, d).

Definition delLdbObject (ok : bool) (key : list byte) (d : dbGate) : Z * dbGate :=
  if ok then (0, mkDb (delete key (ldb d)) (next_ids d)) else (-1, d).

Definition set_next_ids (n : NextIdInfo) (d : dbGate) : dbGate := mkDb (ldb d) n.

(** The order of an iterator: LevelDB's, bytewise. *)
Fixpoint bytes_le (a b : list byte) : bool :=
  match a, b with
  | [], _ => true
  | _ :: _, [] => false
  | x :: a, y :: b => if bz x =? bz y then bytes_le a b else bz x <? bz y
  end.

Definition entry_le (a b : list byte * list byte) : Prop := bytes_le a.1 b.1 = true.

#[export] Instance entry_le_dec : RelDecision entry_le.
Proof. intros a b. unfold entry_le. apply _. Defined.

Definition entries (d : dbGate) : list (list byte * list byte) := merge_sort entry_le (map_to_list (ldb d)).

(** The first four bytes of a key and the NUL after it; [None]: more are read. *)
Definition key_type (key : list byte) : option (list byte) :=
  let s := key ++ [Byte.x00] in if (length s <? 4)%nat then None else Some (take 4 s).

(** A C string ends at its first NUL. *)
Fixpoint c_string (s : list byte) : list byte :=
  match s with
  | [] => []
  | c :: s => if decide (c = Byte.x00) then [] else c :: c_string s
  end.

Definition type_key (t : Z) : list byte := be_enc 4 t.
Definition id_key (t id : Z) : list byte := be_enc 4 t ++ be_enc 4 id.
Definition guid_key (guid : Z) : list byte :=
  be_enc 4 INVENTORY ++ be_enc 4 (Z.shiftr guid 32) ++ be_enc 4 guid.

Definition next_id_key : list byte := [Byte.x6e; Byte.x65; Byte.x78; Byte.x74; Byte.x49; Byte.x44].

Section ids.
Context `{MsgCodec NextIdInfo}.

(** [left]: what a failing [ParseFromString] leaves. *)
Definition load (left : NextIdInfo) (d : dbGate) : Z * dbGate :=
  let val := getLdbObject next_id_key d in
  if decide (val = []) then (0, d)
  else match parse_from val with
       | None => (-1, set_next_ids left d)
       | Some n => (0, set_next_ids n d)
       end.

Definition save (ok : bool) (d : dbGate) : Z * dbGate :=
  match serialize (next_ids d) with
  | None => (-1, d)
  | Some val => setLdbObject ok next_id_key val d
  end.
End ids.

(** [while (1)]: the first identifier from [id] on whose key has no object;
    [None]: the fuel is used up. *)
Fixpoint free_id (fuel : nat) (t id : Z) (d : dbGate) : option Z :=
  match fuel with
  | O => None
  | S fuel =>
      if decide (getLdbObject (id_key t id) d = []) then Some id
      else free_id fuel t (u32 (id + 1)) d
  end.

(** Enough when there are fewer objects than identifiers. *)
Definition id_fuel (d : dbGate) : nat := S (size (ldb d)).

(** ** Searching

    [it->SeekToFirst(); it->Valid(); it->Next()]: the first object of type [t]
    that parses and satisfies [p]. *)
Section search.
Context {A : Type} `{MsgCodec A}.

Fixpoint search (t : Z) (p : A -> bool) (l : list (list byte * list byte)) : option (option A) :=
  match l with
  | [] => Some None
  | (key, val) :: l =>
      kt ← key_type key;
      if decide (kt = type_key t) then
        match parse_from val with
        | None => search t p l
        | Some m => if p m then Some (Some m) else search t p l
        end
      else search t p l
  end.
End search.

(** ** Accounts *)
Section accounts.
Context `{MsgCodec AccountInfo} `{MsgCodec NextIdInfo}.

Definition getAccountByAid (aid : Z) (d : dbGate) : option Account :=
  let val := getLdbObject (id_key ACCOUNT aid) d in
  if decide (val = []) then None else option_map Account_of_info (parse_from val).

(** The [option] outside: the search reads outside a key. *)
Definition account_where (p : AccountInfo -> bool) (d : dbGate) : option (option Account) :=
  r ← search ACCOUNT p (entries d); Some (option_map Account_of_info r).

(** [std::string == const char*] *)
Definition equals (field : AccountInfo -> list byte) (s : list byte) (p : AccountInfo) : bool :=
  bool_decide (field p = c_string s).

(** A NULL argument is [None]. *)
Definition account_by (field : AccountInfo -> list byte) (s : option (list byte)) (d : dbGate)
  : option (option Account) :=
  match s with None => Some None | Some s => account_where (equals field s) d end.

Definition getAccountByUsername := account_by pb_username.
Definition getAccountByAuthToken := account_by pb_auth_token.
Definition getAccountByComboToken := account_by pb_combo_token.
Definition getAccountByBinderToken := account_by pb_bind_token.
Definition getAccountByDeviceId := account_by pb_device_id.

(** [None]: the tokens cannot be decoded. *)
Definition saveAccount (ok : bool) (a : Account) (d : dbGate) : option (Z * dbGate) :=
  p ← Account_to_info a;
  match serialize p with
  | None => Some (-1, d)
  | Some val => Some (setLdbObject ok (id_key ACCOUNT (aid a)) val d)
  end.

Definition deleteAccount (ok : bool) (a : Account) (d : dbGate) : Z * dbGate :=
  delLdbObject ok (id_key ACCOUNT (aid a)) d.

Definition set_next_aid (i : Z) (n : NextIdInfo) : NextIdInfo :=
  mkNextIds i (next_uid n) (next_gacha n) (next_mail n).

(** [j]: the memory of the new object; [ok1], [ok2]: the two writes. *)
Definition createAccount (j : acct_junk) (ok1 ok2 : bool) (name : option (list byte)) (d : dbGate)
  : option (Account * dbGate) :=
  found ← getAccountByUsername name d;
  match found with
  | Some a => Some (a, d)
  | None =>
      let first := if next_aid (next_ids d) =? 0 then 1 else next_aid (next_ids d) in
      i ← free_id (id_fuel d) ACCOUNT first d;
      let d := set_next_ids (set_next_aid i (next_ids d)) d in
      let a := setAccountId i (new_Account j) in
      let a := match name with
               | Some n => setIsGuest 0 (setUsername (c_string n) a)
               | None => setIsGuest 1 a
               end in
      '(_, d) ← saveAccount ok1 a d;
      let '(_, d) := save ok2 d in
      Some (a, d)
  end.
End accounts.
