(* ===== verification/DbProps.v ===== *)
(** * Accounts and the database: theorems *)

From stdpp Require Import gmap sorting.
From S2P Require Import Prelude Bytes Util UtilProps Account DbGate.

(** ** Tokens

    The encoder reads a sign as bits that are set; what it encodes is the
    string in which they are. *)

(** A byte before [next], whose sign sets the bits of [m]. *)
Definition up (m : Z) (a next : byte) : byte := if bz next <? 128 then a else zb (Z.lor (bz a) m).

Fixpoint signed (s : list byte) : list byte :=
  match s with
  | a :: b :: c :: s => up 3 a b :: up 15 b c :: c :: signed s
  | [a; b] => [up 3 a b; b]
  | _ => s
  end.

(** An equation between two functions of two bytes, by evaluation. *)
Lemma forall_byte2_eq (f g : byte -> byte -> Z) :
  forallb (fun a => forallb (fun b => f a b =? g a b) all_bytes) all_bytes = true -> forall a b, f a b = g a b.
Proof.
  intros H a b. apply Z.eqb_eq. refine (forall_byte (fun b => f a b =? g a b) _ b).
  exact (forall_byte (fun a => forallb (fun b => f a b =? g a b) all_bytes) H a).
Qed.

Lemma up_high m a b : (m = 3 \/ m = 15) -> (bz (up m a b) <? 128) = (bz a <? 128).
Proof. unfold up. destruct (bz b <? 128); [reflexivity|]. intros [-> | ->]; by_bytes a. Qed.

Lemma up_up m a b b' : (bz b' <? 128) = (bz b <? 128) -> (m = 3 \/ m = 15) -> up m (up m a b) b' = up m a b.
Proof.
  unfold up. intros -> Hm. destruct (bz b <? 128); [reflexivity|]. destruct Hm as [-> | ->]; by_bytes a.
Qed.

Lemma signed_signed s : signed (signed s) = signed s.
Proof.
  induction s as [|a|a b|a b c s IH] using triples_ind; [reflexivity..| |]; cbn [signed].
  - rewrite up_up by auto. reflexivity.
  - rewrite (up_up 3 a b) by (auto || apply up_high; auto). rewrite up_up, IH by auto. reflexivity.
Qed.

Lemma enc1_up a b : Z.land (enc1 a (Some b)) 0x3f = (bz (up 3 a b) mod 4) * 16 + bz b / 16.
Proof. revert a b. apply forall_byte2_eq. vm_compute. reflexivity. Qed.

Lemma enc2_up b c : Z.land (enc2 b (Some c)) 0x3f = (bz (up 15 b c) mod 16) * 4 + bz c / 64.
Proof. revert b c. apply forall_byte2_eq. vm_compute. reflexivity. Qed.

Lemma up3_div a b : bz (up 3 a b) / 4 = bz a / 4.
Proof. unfold up. destruct (bz b <? 128); [reflexivity|]. by_bytes a. Qed.

Lemma up15_div b c : bz (up 15 b c) / 16 = bz b / 16.
Proof. unfold up. destruct (bz c <? 128); [reflexivity|]. by_bytes b. Qed.

Lemma b64enc_loop_signed s : b64enc_loop s = base64 (signed s).
Proof.
  induction s as [|a|a b|a b c s IH] using triples_ind; cbn [b64enc_loop base64 signed take app b64digits map sextets];
    unfold b64char; rewrite ?enc0_ref.
  - reflexivity.
  - unfold enc1. rewrite land_hi1, Z.add_0_r. reflexivity.
  - unfold enc2. rewrite enc1_up, up3_div, land_hi2, Z.add_0_r. reflexivity.
  - rewrite enc1_up, enc2_up, enc3_ref, up3_div, up15_div, IH. reflexivity.
Qed.

Lemma b64enc_signed s : b64enc s = base64 (signed (indexed s)).
Proof. apply b64enc_loop_signed. Qed.

(** A token of the encoder is read back, and encoding what was read gives the
    token again, if the index reaches all of it. *)
Lemma token_read s : is_Some (b64dec (b64enc s)).
Proof. rewrite b64enc_signed. apply b64dec_total. Qed.

Lemma token_stable s r : zlen (b64enc s) <= 2 ^ 32 -> b64dec (b64enc s) = Some r -> b64enc r = b64enc s.
Proof.
  rewrite !b64enc_signed. intros H E. rewrite b64dec_ref in E by exact H. injection E as <-.
  destruct (base64_shape (signed (indexed s))) as (_ & Hl & _). rewrite indexed_short by lia. rewrite signed_signed. reflexivity.
Qed.

Lemma hex_token_stable s : zlen (hexenc s) <= 2 ^ 32 -> hexenc (hexdec (hexenc s)) = hexenc s.
Proof.
  intros H. rewrite hexdec_enc by exact H. unfold hexenc at 1. rewrite hexenc_size in H. rewrite indexed_again by lia. reflexivity.
Qed.

(** The three tokens were made by the encoders. *)
Definition tokens_ok (a : Account) : Prop :=
  exists r1 r2 r3, authToken a = b64enc r1 /\ binderToken a = b64enc r2 /\ comboToken a = hexenc r3.

(** They are no longer than the index of the decoders reaches, 4 GiB. *)
Definition token_sizes (a : Account) : Prop :=
  zlen (authToken a) <= 2 ^ 32 /\ zlen (binderToken a) <= 2 ^ 32 /\ zlen (comboToken a) <= 2 ^ 32.

Lemma tokens_new j : tokens_ok (new_Account j).
Proof. exists [], [], []. auto. Qed.

Lemma tokens_of_info p : tokens_ok (Account_of_info p).
Proof. do 3 eexists. repeat split. Qed.

Lemma tokens_auth r now a : tokens_ok a -> tokens_ok (getNewAuthToken r now a).
Proof. intros (r1 & r2 & r3 & _ & H2 & H3). exists r, r2, r3. auto. Qed.

Lemma tokens_combo r a : tokens_ok a -> tokens_ok (getNewComboToken r a).
Proof. intros (r1 & r2 & r3 & H1 & H2 & _). exists r1, r2, r. auto. Qed.

Lemma tokens_binder r now a : tokens_ok a -> tokens_ok (getNewBinderToken r now a).
Proof. intros (r1 & r2 & r3 & H1 & _ & H3). exists r1, r, r3. auto. Qed.

(** What is lost: whether the account is a guest's, and the session. *)
Definition reloaded (a : Account) : Account := setSession None (setIsGuest 0 a).

(** The conversion for the database always has a result. *)
Lemma info_total a : tokens_ok a -> is_Some (Account_to_info a).
Proof.
  intros (r1 & r2 & r3 & H1 & H2 & _). unfold Account_to_info. rewrite H1, H2.
  destruct (token_read r1) as [s1 ->], (token_read r2) as [s2 ->]. cbn [mbind option_bind]. eauto.
Qed.

Lemma info_round a p : tokens_ok a -> token_sizes a -> Account_to_info a = Some p -> Account_of_info p = reloaded a.
Proof.
  intros (r1 & r2 & r3 & H1 & H2 & H3) (S1 & S2 & S3). unfold Account_to_info.
  destruct (b64dec (authToken a)) as [s1|] eqn:D1; [|discriminate]. destruct (b64dec (binderToken a)) as [s2|] eqn:D2; [|discriminate].
  cbn [mbind option_bind]. rewrite H1 in S1, D1. rewrite H2 in S2, D2. rewrite H3 in S3.
  apply (token_stable r1 s1 S1) in D1. apply (token_stable r2 s2 S2) in D2. intros [= <-].
  unfold Account_of_info, reloaded, setIsGuest, setSession. cbn [pb_username pb_password pb_device_id pb_email pb_real_name
    pb_id_number pb_auth_token pb_combo_token pb_bind_token pb_id pb_is_guest pb_auth_token_ts pb_bind_token_ts pb_permissions].
  rewrite D1, D2, H3, (hex_token_stable r3 S3). destruct a. cbn in *. congruence.
Qed.

(** ** Keys *)

Lemma be_enc_inj n a b : be_enc n a = be_enc n b -> a mod 2 ^ (8 * Z.of_nat n) = b mod 2 ^ (8 * Z.of_nat n).
Proof. intros H. rewrite <- !be_dec_enc, H. reflexivity. Qed.

Lemma id_key_inj t i j : in_u 32 i -> in_u 32 j -> id_key t i = id_key t j -> i = j.
Proof.
  intros Hi Hj H. unfold id_key in H. apply app_inv_head, be_enc_inj in H. unfold in_u in *.
  change (8 * Z.of_nat 4) with 32 in H. rewrite !Z.mod_small in H by assumption. exact H.
Qed.

Lemma id_key_type t i : key_type (id_key t i) = Some (type_key t).
Proof. reflexivity. Qed.

Lemma next_id_key_ne t i : id_key t i <> next_id_key.
Proof. intros H. apply (f_equal length) in H. discriminate H. Qed.

(** ** An identifier is found *)

Lemma free_id_taken fuel t id d :
  in_u 32 id -> free_id fuel t id d = None ->
  forall i, 0 <= i < Z.of_nat fuel -> is_Some (ldb d !! id_key t (u32 (id + i))).
Proof.
  revert id. induction fuel as [|fuel IH]; intros id Hid H i Hi; [lia|]. cbn [free_id] in H.
  destruct (decide _) as [|Hn]; [discriminate H|]. destruct (Z.eq_dec i 0) as [->|].
  - rewrite Z.add_0_r, wrap_id by exact Hid. unfold getLdbObject in Hn. destruct (ldb d !! id_key t id); [eauto|contradiction].
  - assert (in_u 32 (u32 (id + 1))) as Hu by (apply wrap_range; lia).
    specialize (IH _ Hu H (i - 1) ltac:(lia)). replace (u32 (id + i)) with (u32 (u32 (id + 1) + (i - 1))); [exact IH|].
    unfold wrap. rewrite Z.add_mod_idemp_l by lia. f_equal. lia.
Qed.

Lemma free_id_found fuel t id d i :
  in_u 32 id -> free_id fuel t id d = Some i -> in_u 32 i /\ getLdbObject (id_key t i) d = [].
Proof.
  revert id. induction fuel as [|fuel IH]; intros id Hid H; [discriminate H|]. cbn [free_id] in H.
  destruct (decide _) as [He|]; [injection H as <-; auto|]. apply IH in H; [exact H|]. apply wrap_range. lia.
Qed.

(** The loop ends when there are fewer objects than identifiers. *)
Lemma free_id_ends t id d :
  in_u 32 id -> Z.of_nat (size (ldb d)) < 2 ^ 32 ->
  exists i, free_id (id_fuel d) t id d = Some i /\ in_u 32 i /\ getLdbObject (id_key t i) d = [].
Proof.
  intros Hid Hs. destruct (free_id (id_fuel d) t id d) as [i|] eqn:E.
  { exists i. split; [reflexivity|]. exact (free_id_found _ _ _ _ _ Hid E). }
  exfalso. pose proof (free_id_taken _ _ _ _ Hid E) as H. unfold id_fuel in H.
  set (n := size (ldb d)) in *.
  set (keys := map (fun i => id_key t (u32 (id + i))) (seqZ 0 (Z.of_nat (S n)))).
  assert (NoDup keys) as Hnd.
  { apply NoDup_fmap_2_strong; [|apply NoDup_seqZ]. intros x y Hx Hy Hxy.
    apply elem_of_seqZ in Hx, Hy. apply id_key_inj in Hxy; [|apply wrap_range; lia..].
    unfold wrap, in_u in *. zpow. Z.div_mod_to_equations. lia. }
  assert ((list_to_set keys : gset (list byte)) ⊆ dom (ldb d)) as Hsub.
  { intros k Hk. apply elem_of_list_to_set in Hk. unfold keys in Hk. apply list_elem_of_fmap in Hk as (i & -> & Hi).
    apply elem_of_seqZ in Hi. apply elem_of_dom, H. lia. }
  apply subseteq_size in Hsub. rewrite size_list_to_set in Hsub by exact Hnd.
  rewrite size_dom in Hsub. unfold keys in Hsub. rewrite length_map, length_seqZ in Hsub. fold n in Hsub. lia.
Qed.

(** ** Searching *)
Section search.
Context {A : Type} `{MsgCodec A} (t : Z) (p : A -> bool).

(** Every key is long enough for the type to be read. *)
Definition readable (l : list (list byte * list byte)) : Prop := Forall (fun e => is_Some (key_type e.1)) l.

(** The entry is an object that the search looks for. *)
Definition matches (e : list byte * list byte) (m : A) : Prop :=
  key_type e.1 = Some (type_key t) /\ parse_from e.2 = Some m /\ p m = true.

(** One step. *)
Lemma search_cons e l :
  is_Some (key_type e.1) ->
  (exists m, matches e m /\ search t p (e :: l) = Some (Some m)) \/
  ((forall m, ~ matches e m) /\ search t p (e :: l) = search t p l).
Proof.
  destruct e as [k v]. intros [kt E]. unfold matches. cbn [fst snd search] in *. rewrite E. cbn [mbind option_bind].
  destruct (decide (kt = type_key t)) as [->|Hn]; [|right; split; [intros m (F & _); congruence|reflexivity]].
  destruct (parse_from v) as [m|]; [|right; split; [intros m (_ & F & _); discriminate F|reflexivity]].
  destruct (p m) eqn:Ep; [left; eauto|]. right. split; [|reflexivity]. intros m' (_ & F & Hp). congruence.
Qed.

Lemma search_none l :
  readable l -> (search t p l = Some None <-> forall e m, e ∈ l -> ~ matches e m).
Proof.
  intros Hr. induction Hr as [|e l He Hr IH]; [split; [intros _ e m Hin; inversion Hin|reflexivity]|].
  destruct (search_cons e l He) as [(m & Hm & ->)|[Hn ->]].
  - split; [discriminate|]. intros Hall. destruct (Hall e m ltac:(left) Hm).
  - rewrite IH. split.
    + intros Hall e' m Hin. apply elem_of_cons in Hin as [-> |Hin]; [apply Hn|exact (Hall e' m Hin)].
    + intros Hall e' m Hin. apply Hall. right. exact Hin.
Qed.

Lemma search_some l e m :
  readable l -> e ∈ l -> matches e m -> (forall e' m', e' ∈ l -> matches e' m' -> m' = m) ->
  search t p l = Some (Some m).
Proof.
  intros Hr Hin Hm Hall. induction Hr as [|e0 l He Hr IH]; [inversion Hin|].
  destruct (search_cons e0 l He) as [(m0 & Hm0 & ->)|[Hn ->]].
  - rewrite (Hall e0 m0 ltac:(left) Hm0). reflexivity.
  - apply elem_of_cons in Hin as [-> |Hin]; [destruct (Hn m Hm)|]. apply IH; [exact Hin|].
    intros e' m' Hin'. apply Hall. right. exact Hin'.
Qed.
End search.

Lemma entries_spec d k v : (k, v) ∈ entries d <-> ldb d !! k = Some v.
Proof.
  unfold entries. rewrite (merge_sort_Permutation entry_le (map_to_list (ldb d))). apply elem_of_map_to_list.
Qed.

(** What every key of the database is. *)
Definition keys_ok (d : dbGate) : Prop := forall k, is_Some (ldb d !! k) -> is_Some (key_type k).

Lemma keys_readable d : keys_ok d -> readable (entries d).
Proof.
  intros H. apply Forall_forall. intros [k v] Hin. apply entries_spec in Hin. apply H. eauto.
Qed.

Lemma keys_insert d k v : keys_ok d -> is_Some (key_type k) -> keys_ok (mkDb (<[k := v]> (ldb d)) (next_ids d)).
Proof.
  intros Hd Hk k' Hk'. cbn [ldb] in Hk'. destruct (decide (k = k')) as [<-|]; [exact Hk|].
  rewrite lookup_insert_ne in Hk' by assumption. apply Hd, Hk'.
Qed.

(** ** Storing accounts *)
Section accounts.
Context `{!MsgCodec AccountInfo, !MsgLaws AccountInfo, !MsgCodec NextIdInfo}.
Implicit Types (d : dbGate) (a : Account).

(** The account can be stored: its tokens were made by the encoders and are at
    most 4 GiB long, its strings are UTF-8, and it is not the message without any
    field, which has an empty serialization. *)
Definition storable a : Prop :=
  tokens_ok a /\ token_sizes a /\ forall p, Account_to_info a = Some p -> msg_utf8 p /\ p <> msg_default.

Lemma save_account a d :
  storable a -> exists v p, v <> [] /\ parse_from v = Some p /\ Account_of_info p = reloaded a /\
    pb_username p = username a /\
    saveAccount true a d = Some (0, mkDb (<[id_key ACCOUNT (aid a) := v]> (ldb d)) (next_ids d)).
Proof.
  intros (Ht & Hz & Hp). destruct (info_total a Ht) as [p E]. pose proof (info_round a p Ht Hz E) as R. destruct (Hp p E) as [Hu Hd].
  destruct (msg_serializes p Hu) as [v Ev]. exists v, p. split; [exact (msg_nonempty _ _ Ev Hd)|].
  split; [exact (msg_roundtrip _ _ Hu Ev)|]. split; [exact R|].
  split; [exact (f_equal username R)|]. unfold saveAccount. rewrite E. cbn [mbind option_bind]. rewrite Ev. reflexivity.
Qed.

Lemma get_inserted a d v p n :
  v <> [] -> parse_from v = Some p ->
  getAccountByAid (aid a) (mkDb (<[id_key ACCOUNT (aid a) := v]> (ldb d)) n) = Some (Account_of_info p).
Proof.
  intros Hv Hp. unfold getAccountByAid, getLdbObject. cbn [ldb]. rewrite lookup_insert_eq. change (default [] (Some v)) with v.
  rewrite decide_False by exact Hv. rewrite Hp. reflexivity.
Qed.

Lemma get_other id d m n :
  ldb d !! id_key ACCOUNT id = m !! id_key ACCOUNT id ->
  getAccountByAid id (mkDb m n) = getAccountByAid id d.
Proof. intros E. unfold getAccountByAid, getLdbObject. cbn [ldb]. rewrite E. reflexivity. Qed.

(** C35: An account that is stored is found again under its id as it was, with
    all its tokens (although the base64 encoder is wrong on bytes above 127),
    except that it is no guest's any more and has no session; no other account
    changes.  (Its tokens were made by the encoders and are at most 4 GiB long,
    which is what the decoders reach, and its strings are UTF-8.) *)
Theorem account_survives a d :
  storable a -> in_u 32 (aid a) ->
  exists d', saveAccount true a d = Some (0, d') /\ getAccountByAid (aid a) d' = Some (reloaded a) /\
    (forall id, in_u 32 id -> id <> aid a -> getAccountByAid id d' = getAccountByAid id d) /\
    next_ids d' = next_ids d.
Proof.
  intros Hs Ha. destruct (save_account a d Hs) as (v & p & Hv & Hp & R & _ & E). eexists. split; [exact E|].
  split; [rewrite (get_inserted a d v p _ Hv Hp), R; reflexivity|]. split; [|reflexivity].
  intros id Hid Hne. apply get_other. rewrite lookup_insert_ne; [reflexivity|].
  intros K. apply Hne. symmetry. exact (id_key_inj _ _ _ Ha Hid K).
Qed.

(** *** New accounts *)

Lemma save_again a d d' v n :
  saveAccount true a d = Some (0, mkDb (<[id_key ACCOUNT (aid a) := v]> (ldb d)) n) -> ldb d' !! id_key ACCOUNT (aid a) = Some v ->
  saveAccount true a d' = Some (0, d').
Proof.
  unfold saveAccount. destruct (Account_to_info a) as [p|]; [|discriminate]. cbn [mbind option_bind].
  destruct (serialize p) as [val|]; [|discriminate]. unfold setLdbObject. intros E Hv. injection E as E _.
  apply (f_equal (lookup (id_key ACCOUNT (aid a)))) in E. rewrite !lookup_insert_eq in E. injection E as ->.
  rewrite insert_id by exact Hv. destruct d'; reflexivity.
Qed.

Definition created (j : acct_junk) (name : list byte) (i : Z) : Account :=
  setIsGuest 0 (setUsername (c_string name) (setAccountId i (new_Account j))).

(** Saving the counters touches their own object only. *)
Lemma save_ids ok d : ldb (snd (save ok d)) = ldb d \/ exists v, ldb (snd (save ok d)) = <[next_id_key := v]> (ldb d).
Proof. unfold save. destruct (serialize _); [|auto]. destruct ok; [right; eexists|left]; reflexivity. Qed.

(** Nobody had the name; one new object has it. *)
Lemma by_name_found name d m n v p a :
  keys_ok d -> getAccountByUsername (Some name) d = Some None ->
  parse_from v = Some p -> Account_of_info p = a -> username a = c_string name -> pb_username p = username a ->
  m !! id_key ACCOUNT (aid a) = Some v ->
  (forall k, k <> next_id_key -> k <> id_key ACCOUNT (aid a) -> m !! k = ldb d !! k) ->
  getAccountByUsername (Some name) (mkDb m n) = Some (Some a).
Proof.
  intros Hk Hnone Hp Ha Hn Hu Hv Hold. unfold getAccountByUsername, account_by, account_where in *.
  assert (keys_ok (mkDb m n)) as Hk'.
  { intros k Hs. cbn [ldb] in Hs. destruct (decide (k = next_id_key)) as [->|H1]; [eexists; reflexivity|].
    destruct (decide (k = id_key ACCOUNT (aid a))) as [->|H2]; [eexists; apply id_key_type|].
    rewrite Hold in Hs by assumption. exact (Hk k Hs). }
  rewrite (search_some ACCOUNT (equals pb_username name) (entries (mkDb m n)) (id_key ACCOUNT (aid a), v) p);
    [cbn [mbind option_bind option_map]; rewrite Ha; reflexivity|exact (keys_readable _ Hk')|apply entries_spec; exact Hv| |].
  - split; [apply id_key_type|]. split; [exact Hp|]. unfold equals. rewrite Hu, Hn. apply bool_decide_eq_true. reflexivity.
  - intros [k w] p' Hin (Ht & Hp' & He). cbn [fst snd] in *. apply entries_spec in Hin. cbn [ldb] in Hin.
    destruct (decide (k = next_id_key)) as [->|H1]; [discriminate Ht|].
    destruct (decide (k = id_key ACCOUNT (aid a))) as [->|H2]; [congruence|]. exfalso.
    rewrite Hold in Hin by assumption. apply entries_spec in Hin.
    destruct (search ACCOUNT (equals pb_username name) (entries d)) as [[x|]|] eqn:E; try discriminate Hnone.
    exact (proj1 (search_none _ _ _ (keys_readable d Hk)) E (k, w) p' Hin (conj Ht (conj Hp' He))).
Qed.

(** When no account has the name, [createAccount] makes one under an id
    that no stored account has (its search ends whatever the counter says),
    leaves every other account as it was, and stores it, so that looking up the
    id or the name finds exactly the account that was returned; storing it once
    more changes nothing. *)
Theorem account_created j name d :
  keys_ok d -> in_u 32 (next_aid (next_ids d)) -> Z.of_nat (size (ldb d)) < 2 ^ 32 ->
  getAccountByUsername (Some name) d = Some None -> (forall i, storable (created j name i)) ->
  exists a d', createAccount j true true (Some name) d = Some (a, d') /\ username a = c_string name /\
    getAccountByAid (aid a) d = None /\
    (forall id, in_u 32 id -> id <> aid a -> getAccountByAid id d' = getAccountByAid id d) /\
    getAccountByAid (aid a) d' = Some a /\ getAccountByUsername (Some name) d' = Some (Some a) /\
    in_u 32 (aid a) /\ saveAccount true a d' = Some (0, d').
Proof.
  intros Hk Hn Hsz Hnone Hst. unfold createAccount. rewrite Hnone. cbn [mbind option_bind].
  set (first := if next_aid (next_ids d) =? 0 then 1 else next_aid (next_ids d)).
  assert (in_u 32 first) as Hf by (unfold first; destruct (_ =? 0); [unfold in_u; zpow; lia|exact Hn]).
  destruct (free_id_ends ACCOUNT first d Hf Hsz) as (i & -> & Hi & Hfree). cbn [mbind option_bind].
  set (d0 := set_next_ids _ d). fold (created j name i). set (a := created j name i).
  destruct (save_account a d0 (Hst i)) as (v & p & Hv & Hp & R & Hu & Es). rewrite Es. cbn [mbind option_bind].
  set (d1 := mkDb (<[id_key ACCOUNT (aid a) := v]> (ldb d0)) (next_ids d0)).
  assert (exists d', save true d1 = (fst (save true d1), d') /\
    forall k, k <> next_id_key -> ldb d' !! k = ldb d1 !! k) as (d' & -> & Hd').
  { exists (snd (save true d1)). split; [destruct (save true d1); reflexivity|]. intros k Hne.
    destruct (save_ids true d1) as [-> |[w ->]]; [reflexivity|]. apply lookup_insert_ne. congruence. }
  exists a, d'. split; [reflexivity|]. split; [reflexivity|].
  assert (getAccountByAid (aid a) d = None) as Hnew.
  { unfold getAccountByAid. rewrite decide_True by exact Hfree. reflexivity. }
  split; [exact Hnew|].
  assert (forall k, k <> next_id_key -> k <> id_key ACCOUNT (aid a) -> ldb d' !! k = ldb d !! k) as Hold.
  { intros k H1 H2. rewrite Hd' by exact H1. apply lookup_insert_ne. congruence. }
  assert (ldb d' !! id_key ACCOUNT (aid a) = Some v) as Hnv.
  { rewrite Hd' by apply next_id_key_ne. apply lookup_insert_eq. }
  change (reloaded a) with a in R. destruct d' as [m n]. cbn [ldb] in *.
  split; [|split; [|split; [|split; [exact Hi|exact (save_again a d0 (mkDb m n) v _ Es Hnv)]]]].
  - intros id Hid Hne. apply get_other. symmetry. apply Hold; [apply next_id_key_ne|].
    intros K. apply Hne. exact (id_key_inj _ _ _ Hid Hi K).
  - unfold getAccountByAid, getLdbObject. cbn [ldb]. rewrite Hnv. change (default [] (Some v)) with v.
    rewrite decide_False by exact Hv. rewrite Hp. cbn [option_map]. congruence.
  - apply (by_name_found name d m n v p a); auto.
Qed.
End accounts.

(** ** A concrete codec

    Any countable type of messages has a serialization. *)
Section codec.
Context {A : Type} `{Countable A} `{MsgDefault A}.

Definition pos_bytes (p : positive) : list byte := le_enc (S (Pos.size_nat p / 8)) (Zpos p).

Lemma pos_size p : Zpos p < 2 ^ Z.of_nat (Pos.size_nat p).
Proof.
  induction p as [p IH|p IH|]; cbn [Pos.size_nat]; [| |reflexivity];
    rewrite Nat2Z.inj_succ, Z.pow_succ_r by lia; lia.
Qed.

Lemma pos_bytes_dec p : le_dec (pos_bytes p) = Zpos p.
Proof.
  unfold pos_bytes. rewrite le_dec_enc. apply Z.mod_small. split; [lia|].
  eapply Z.lt_le_trans; [apply pos_size|]. apply Z.pow_le_mono_r; [lia|].
  pose proof (Nat.div_mod_eq (Pos.size_nat p) 8). pose proof (Nat.mod_upper_bound (Pos.size_nat p) 8). lia.
Qed.

Definition toy_codec : MsgCodec A := {|
  serialize m := Some (if decide (m = msg_default) then [] else pos_bytes (encode m));
  parse_from b := if decide (b = []) then Some msg_default else decode (Z.to_pos (le_dec b));
  msg_utf8 _ := True
|}.

Lemma toy_laws : @MsgLaws A _ toy_codec.
Proof.
  constructor; cbn [serialize parse_from msg_utf8 toy_codec].
  - intros m _. eauto.
  - intros m b _ E. injection E as <-. destruct (decide (m = msg_default)) as [->|Hm]; [reflexivity|].
    rewrite decide_False by discriminate. rewrite pos_bytes_dec. apply decode_encode.
  - intros m b E Hm. injection E as <-. rewrite decide_False by exact Hm. discriminate.
Qed.
End codec.

#[local] Instance info_eq_dec : EqDecision AccountInfo.
Proof. solve_decision. Defined.

#[local] Instance info_countable : Countable AccountInfo :=
  inj_countable'
    (fun p => ((pb_id p, pb_username p, pb_email p, pb_password p, pb_combo_token p),
               (pb_auth_token p, pb_auth_token_ts p, pb_device_id p, pb_is_guest p, pb_reserved_uid p),
               (pb_permissions p, pb_real_name p, pb_id_number p, pb_bind_token p, pb_bind_token_ts p)))
    (fun '((a, b, c, d, e), (f, g, h, i, j), (k, l, m, n, o)) => mkAccountInfo a b c d e f g h i j k l m n o)
    (fun p => match p with mkAccountInfo _ _ _ _ _ _ _ _ _ _ _ _ _ _ _ => eq_refl end).

#[local] Instance ids_eq_dec : EqDecision NextIdInfo.
Proof. solve_decision. Defined.

#[local] Instance ids_countable : Countable NextIdInfo :=
  inj_countable' (fun n => (next_aid n, next_uid n, next_gacha n, next_mail n))
    (fun '(a, b, c, d) => mkNextIds a b c d) (fun n => match n with mkNextIds _ _ _ _ => eq_refl end).

#[local] Instance info_codec : MsgCodec AccountInfo := toy_codec.
#[local] Instance info_laws : MsgLaws AccountInfo := toy_laws.
#[local] Instance ids_codec : MsgCodec NextIdInfo := toy_codec.

(** A guest whose token has bytes above 127. *)
Definition ex_account : Account :=
  getNewAuthToken (map zb [1; 200; 3; 255]) 1700000000
    (setIsGuest 1 (setAccountId 7 (new_Account (mkJunk 0 0 0 0)))).

Definition ex_db : dbGate := mkDb ∅ (mkNextIds 0 0 0 0).

Lemma account_survives_witness :
  exists d', saveAccount true ex_account ex_db = Some (0, d') /\ getAccountByAid 7 d' = Some (reloaded ex_account) /\
    isGuest ex_account = 1 /\ isGuest (reloaded ex_account) = 0.
Proof.
  destruct (account_survives ex_account ex_db) as (d' & E & G & _).
  - split; [apply tokens_auth; exists [], [], []; auto|]. split; [vm_compute; repeat split; discriminate|]. intros p E. split; [exact I|].
    vm_compute in E. injection E as <-. discriminate.
  - vm_compute. split; [discriminate|reflexivity].
  - exists d'. repeat split; assumption.
Defined.

Lemma account_created_witness :
  exists a d', createAccount (mkJunk 0 0 0 0) true true (Some [Byte.x61]) ex_db = Some (a, d') /\
    getAccountByUsername (Some [Byte.x61]) d' = Some (Some a).
Proof.
  destruct (account_created (mkJunk 0 0 0 0) [Byte.x61] ex_db) as (a & d' & E & _ & _ & _ & _ & G & _).
  - intros k [v Hk]. discriminate Hk.
  - vm_compute. split; [discriminate|reflexivity].
  - vm_compute. reflexivity.
  - reflexivity.
  - intros i. split; [exists [], [], []; auto|]. split; [vm_compute; repeat split; discriminate|]. intros p E. split; [exact I|].
    cbn in E. injection E as <-. discriminate.
  - exists a, d'. split; assumption.
Defined.
