(* ===== verification/Item.v ===== *)
(** * Items

    src/item.cpp: the struct [Item] and its conversions from and to the message
    [Item] of src/proto/define.proto.  The struct ends in a union of 16 bytes;
    the arrays at the end of [Weapon] (offset 12) and [Artifact] (offset 10)
    have no size of their own, so one affix of 4 bytes and one sub-stat of 4
    bytes fit; a store past the union has no result.  Members that a
    constructor does not write hold what the memory held: an argument. *)

From S2P Require Import Prelude.

(** ** The messages *)

(** [delete_info]: the two flags that are read, and the date. *)
Record pb_Material := mkPbMaterial { pm_count : Z; pm_delete : option (bool * option Z) }.

Record pb_Reliquary := mkPbReliquary {
  pr_level : Z; pr_exp : Z; pr_promote_level : Z; pr_main_prop_id : Z; pr_append_prop_id_list : list Z }.

(** The map in the order it is iterated in. *)
Record pb_Weapon := mkPbWeapon { pw_level : Z; pw_exp : Z; pw_promote_level : Z; pw_affix_map : list (Z * Z) }.

Inductive pb_equip_detail := pb_reliquary (r : pb_Reliquary) | pb_weapon (w : pb_Weapon) | pb_no_detail.

Inductive pb_item_detail :=
| pb_material (m : pb_Material)
| pb_equip (locked : bool) (e : pb_equip_detail)
| pb_nothing.

Record pb_Item := mkPbItem { pi_item_id : Z; pi_guid : Z; pi_detail : pb_item_detail }.

(** ** The struct *)

Definition ITEM_MATERIAL : Z := 0.
Definition ITEM_ARTIFACT : Z := 1.
Definition ITEM_WEAPON : Z := 2.

Record Artifact := mkArtifact { ar_exp : Z; ar_locked : Z; ar_level : Z; ar_mainStat : Z; ar_subStats : list (Z * Z) }.
Record Weapon := mkWeapon {
  wp_exp : Z; wp_locked : Z; wp_level : Z; wp_ascension : Z; wp_refinement : Z; wp_affixes : list Z }.

(** The union, with the member that was written last. *)
Inductive item_data := artifact (a : Artifact) | weapon (w : Weapon) | material (count expireTime : Z).

Record Item := mkItem { it_id : Z; it_type : Z; it_guid : Z; it_data : item_data }.

(** [Item(id)]: everything else is left as it was. *)
Definition new_Item (junk : Item) (id : Z) : Item := mkItem id (it_type junk) (it_guid junk) (it_data junk).

(** The elements that fit behind [affixes] and [subStats]. *)
Definition AFFIX_ROOM : nat := 1.
Definition SUBSTAT_ROOM : nat := 1.

(** ** From a message *)

(** [for (j = 0; j < k; j++)]: the count of a sub-stat that is there. *)
Fixpoint bump (stat : Z) (subs : list (Z * Z)) : option (list (Z * Z)) :=
  match subs with
  | [] => None
  | (i, n) :: subs => if i =? stat then Some ((i, u16 (n + 1)) :: subs) else cons (i, n) <$> bump stat subs
  end.

(** The loop over [append_prop_id_list]. *)
Fixpoint add_stats (l : list Z) (subs : list (Z * Z)) : option (list (Z * Z)) :=
  match l with
  | [] => Some subs
  | p :: l =>
      let stat := u16 p in
      match bump stat subs with
      | Some subs => add_stats l subs
      | None =>
          if stat =? 0 then add_stats l subs
          else if (length subs <? SUBSTAT_ROOM)%nat then add_stats l (subs ++ [(stat, 1)])
          else None
      end
  end.

Definition bit (b : bool) : Z := if b then 1 else 0.

(** The loop over [affixes]: [k] is the greatest value. *)
Fixpoint read_affixes (m : list (Z * Z)) (ids : list Z) (k : Z) : option (list Z * Z) :=
  match m with
  | [] => Some (ids, k)
  | (id, level) :: m =>
      if (length ids <? AFFIX_ROOM)%nat then read_affixes m (ids ++ [id]) (Z.max k level) else None
  end.

(** [junk_time]: what is in the place of an expiration time that is not
    written. *)
Definition Item_of_pb (junk : Item) (junk_time : Z) (pb : pb_Item) : option Item :=
  match pi_detail pb with
  | pb_material m =>
      let t := match pm_delete m with Some (true, Some t) => t | _ => junk_time end in
      Some (mkItem (pi_item_id pb) ITEM_MATERIAL (pi_guid pb) (material (pm_count m) t))
  | pb_equip locked (pb_reliquary r) =>
      subs ← add_stats (pr_append_prop_id_list r) [];
      Some (mkItem (pi_item_id pb) ITEM_ARTIFACT (pi_guid pb)
        (artifact (mkArtifact (pr_exp r) (bit locked) (u8 (pr_level r)) (u16 (pr_main_prop_id r)) subs)))
  | pb_equip locked (pb_weapon w) =>
      '(ids, k) ← read_affixes (pw_affix_map w) [] 0;
      Some (mkItem (pi_item_id pb) ITEM_WEAPON (pi_guid pb)
        (weapon (mkWeapon (pw_exp w) (bit locked) (u8 (pw_level w)) (u8 (pw_promote_level w)) (u8 k) ids)))
  | _ => Some (mkItem (pi_item_id pb) (it_type junk) (pi_guid pb) (it_data junk))
  end.

(** ** To a message *)

(** The entry of [id] is set in the map. *)
Fixpoint map_set (id v : Z) (m : list (Z * Z)) : list (Z * Z) :=
  match m with
  | [] => [(id, v)]
  | (i, w) :: m => if i =? id then (i, v) :: m else (i, w) :: map_set id v m
  end.

Definition affix_map (ids : list Z) (refinement : Z) : list (Z * Z) :=
  fold_left (fun m id => map_set id refinement m) ids [].

(** [None]: a member is read that is not the one last written. *)
Definition Item_to_pb (it : Item) : option pb_Item :=
  let mk d := Some (mkPbItem (it_id it) (it_guid it) d) in
  if it_type it =? ITEM_MATERIAL then
    match it_data it with
    | material count t =>
        mk (pb_material (mkPbMaterial count (if t =? 0 then None else Some (true, Some (u32 t)))))
    | _ => None
    end
  else if it_type it =? ITEM_ARTIFACT then
    match it_data it with
    | artifact a =>
        mk (pb_equip (negb (ar_locked a =? 0)) (pb_reliquary (mkPbReliquary (ar_level a) (ar_exp a)
          (ar_level a / 4) (ar_mainStat a) (flat_map (fun '(i, n) => replicate (Z.to_nat n) i) (ar_subStats a)))))
    | _ => None
    end
  else if it_type it =? ITEM_WEAPON then
    match it_data it with
    | weapon w =>
        mk (pb_equip (negb (wp_locked w =? 0)) (pb_weapon (mkPbWeapon (wp_level w) (wp_exp w) (wp_ascension w)
          (affix_map (wp_affixes w) (wp_refinement w)))))
    | _ => None
    end
  else mk pb_nothing.

(** * Items: theorems *)
(** ** What can be stored

    The integers of the struct at their widths, and no more elements than
    there is room for. *)
Definition stats_ok (subs : list (Z * Z)) : Prop :=
  (length subs <= SUBSTAT_ROOM)%nat /\ Forall (fun s => 0 < s.1 < 65536 /\ 0 < s.2 < 65536) subs.

Record item_ok (it : Item) : Prop := {
  io_data : match it_data it with
    | material count t => it_type it = ITEM_MATERIAL /\ 0 <= t < 2 ^ 32
    | artifact a => it_type it = ITEM_ARTIFACT /\ in_u 8 (ar_level a) /\ in_u 16 (ar_mainStat a) /\
        (ar_locked a = 0 \/ ar_locked a = 1) /\ stats_ok (ar_subStats a)
    | weapon w => it_type it = ITEM_WEAPON /\ in_u 8 (wp_level w) /\ in_u 8 (wp_ascension w) /\
        in_u 8 (wp_refinement w) /\ (wp_locked w = 0 \/ wp_locked w = 1) /\ (length (wp_affixes w) <= AFFIX_ROOM)%nat /\
        (wp_affixes w = [] -> wp_refinement w = 0)
    end
}.

Lemma bit_locked z : z = 0 \/ z = 1 -> bit (negb (z =? 0)) = z.
Proof. intros [-> | ->]; reflexivity. Qed.

(** [n] times the same sub-stat. *)
Lemma add_stats_same i n m :
  0 < i < 65536 -> 0 < m -> m + Z.of_nat n < 65536 ->
  add_stats (replicate n i) [(i, m)] = Some [(i, m + Z.of_nat n)].
Proof.
  intros Hi. revert m. induction n as [|n IH]; intros m Hm Hn; cbn [replicate add_stats]; [rewrite Z.add_0_r; reflexivity|].
  rewrite (wrap_id 16 i) by (unfold in_u; zpow; lia). cbn [bump]. rewrite Z.eqb_refl.
  rewrite wrap_id by (unfold in_u; zpow; lia). rewrite IH by lia. do 3 f_equal. lia.
Qed.

Lemma add_stats_one i n : 0 < i < 65536 -> 0 < n < 65536 -> add_stats (replicate (Z.to_nat n) i) [] = Some [(i, n)].
Proof.
  intros Hi Hn. replace (Z.to_nat n) with (S (Z.to_nat (n - 1))) by lia. cbn [replicate add_stats bump].
  rewrite (wrap_id 16 i) by (unfold in_u; zpow; lia). destruct (Z.eqb_spec i 0); [lia|].
  cbn [length Nat.ltb Nat.leb SUBSTAT_ROOM app]. rewrite add_stats_same by lia. do 3 f_equal. lia.
Qed.

Lemma add_stats_ok subs :
  stats_ok subs -> add_stats (flat_map (fun '(i, n) => replicate (Z.to_nat n) i) subs) [] = Some subs.
Proof.
  intros [Hl Hf]. destruct subs as [|[i n] [|]]; [reflexivity| |cbn in Hl; unfold SUBSTAT_ROOM in Hl; lia].
  apply Forall_cons in Hf as [[H1 H2] _]. cbn [flat_map fst snd] in *. rewrite app_nil_r. apply add_stats_one; assumption.
Qed.

(** An item with its integers in range, and at most the one affix or
    sub-stat that there is room for, is the same after it was made a message
    and back; but a material without an expiration time has whatever the
    memory held instead. *)
Theorem item_roundtrip junk jt it :
  item_ok it ->
  exists pb, Item_to_pb it = Some pb /\
    Item_of_pb junk jt pb = Some (match it_data it with
      | material n t => mkItem (it_id it) (it_type it) (it_guid it) (material n (if t =? 0 then jt else t))
      | _ => it
      end).
Proof.
  destruct it as [id ty guid data]. intros [Hd]. unfold Item_to_pb. cbn [it_id it_type it_guid it_data] in *.
  destruct data as [a|w|n t].
  - destruct Hd as (-> & Hlv & Hms & Hlk & Hst). cbn [Z.eqb ITEM_ARTIFACT ITEM_MATERIAL]. eexists. split; [reflexivity|].
    cbn [Item_of_pb pi_detail pr_append_prop_id_list]. unfold Item_of_pb. cbn [pi_detail pr_append_prop_id_list pr_exp pr_level pr_main_prop_id pi_item_id pi_guid].
    rewrite add_stats_ok by exact Hst. cbn [mbind option_bind]. rewrite bit_locked, !wrap_id by assumption.
    destruct a. reflexivity.
  - destruct Hd as (-> & Hlv & Has & Hrf & Hlk & Hl & H0). cbn [Z.eqb ITEM_ARTIFACT ITEM_MATERIAL ITEM_WEAPON]. eexists. split; [reflexivity|].
    unfold Item_of_pb. cbn [pi_detail pw_exp pw_level pw_promote_level pw_affix_map pi_item_id pi_guid].
    destruct w as [ex lk lv asc rf aff]. cbn [wp_exp wp_locked wp_level wp_ascension wp_refinement wp_affixes] in *.
    assert (read_affixes (affix_map aff rf) [] 0 = Some (aff, rf)) as ->.
    { destruct aff as [|x [|]]; [rewrite H0 by reflexivity; reflexivity| |cbn in Hl; unfold AFFIX_ROOM in Hl; lia].
      unfold affix_map. cbn [fold_left map_set read_affixes length Nat.ltb Nat.leb AFFIX_ROOM app].
      rewrite Z.max_r by (unfold in_u in Hrf; lia). reflexivity. }
    cbn [mbind option_bind]. rewrite bit_locked, !wrap_id by assumption. reflexivity.
  - destruct Hd as [-> Ht]. cbn [Z.eqb ITEM_MATERIAL]. eexists. split; [reflexivity|].
    unfold Item_of_pb. cbn [pi_detail pm_delete pm_count pi_item_id pi_guid]. destruct (Z.eqb_spec t 0); [reflexivity|].
    rewrite wrap_id by exact Ht. reflexivity.
Qed.

Lemma item_roundtrip_witness :
  let it := mkItem 14502 ITEM_WEAPON 77 (weapon (mkWeapon 700000 1 90 6 5 [1145024])) in
  exists pb, Item_to_pb it = Some pb /\ Item_of_pb it 0 pb = Some it.
Proof.
  cbv zeta. apply (item_roundtrip (mkItem 14502 ITEM_WEAPON 77 (weapon (mkWeapon 700000 1 90 6 5 [1145024]))) 0
    (mkItem 14502 ITEM_WEAPON 77 (weapon (mkWeapon 700000 1 90 6 5 [1145024])))).
  constructor. cbn. unfold in_u. zpow. repeat split; try lia; try discriminate; unfold AFFIX_ROOM; cbn; auto.
Defined.

(** ** More elements than there is room for *)

(** Some sub-stat of the list is neither 0 nor [i]. *)
Lemma add_stats_overflow l i n :
  Exists (fun p => u16 p <> 0 /\ u16 p <> i) l -> add_stats l [(i, n)] = None.
Proof.
  intros H. revert n. induction H as [p l [H0 Hi]|p l _ IH]; intros n; cbn [add_stats bump].
  - destruct (Z.eqb_spec i (u16 p)); [congruence|]. cbn [fmap option_fmap option_map].
    destruct (Z.eqb_spec (u16 p) 0); [contradiction|]. reflexivity.
  - destruct (i =? u16 p); [apply IH|]. cbn [fmap option_fmap option_map]. destruct (u16 p =? 0); [apply IH|reflexivity].
Qed.

(** A message with two affixes, or with two different sub-stats (an
    artifact of the game has up to four), is stored past the end of the
    item. *)
Theorem item_overflows junk jt pb :
  (exists locked w x y l, pi_detail pb = pb_equip locked (pb_weapon w) /\ pw_affix_map w = x :: y :: l) \/
  (exists locked r p l, pi_detail pb = pb_equip locked (pb_reliquary r) /\
     pr_append_prop_id_list r = p :: l /\ u16 p <> 0 /\ Exists (fun q => u16 q <> 0 /\ u16 q <> u16 p) l) ->
  Item_of_pb junk jt pb = None.
Proof.
  unfold Item_of_pb. intros [(lk & w & [x a] & [y b] & l & -> & ->)|(lk & r & p & l & -> & -> & Hp & Hl)]; [reflexivity|].
  cbn [add_stats bump]. destruct (Z.eqb_spec (u16 p) 0); [contradiction|].
  cbn [length Nat.ltb Nat.leb SUBSTAT_ROOM app]. rewrite add_stats_overflow by exact Hl. reflexivity.
Qed.

Lemma item_overflows_witness :
  Item_of_pb (mkItem 0 0 0 (material 0 0)) 0
    (mkPbItem 1 2 (pb_equip true (pb_reliquary (mkPbReliquary 20 0 5 10001 [501024; 501224])))) = None.
Proof.
  apply item_overflows. right. do 4 eexists. split; [reflexivity|]. split; [reflexivity|].
  split; [vm_compute; discriminate|]. constructor. split; vm_compute; discriminate.
Defined.
