(* ===== verification/Avatar.v ===== *)
(** * Avatars

    src/avatar.cpp: the class [Avatar].  The pointers to items are the names of
    the nodes of an inventory; [items] finds the item at a pointer ([None]: it
    is not there any more).  A pointer into the tables of game data is the entry
    it points to, [None] for NULL.  What a constructor does not write is what
    the memory held, the argument [junk]. *)

From S2P Require Import Prelude Item.

(** ** Game data

    The members that are read of the entries of src/include/data/. *)
Record AvatarDataEnt := mkAvatarDataEnt { ad_id : Z; ad_skill_depot_id : Z }.
Record AvatarSkillDepotDataEnt := mkDepotEnt { sd_id : Z; sd_constellationSkills : list Z }.
Record OpenStateDataEnt := mkOpenStateEnt {
  os_id : Z; os_is_default : Z; os_openCond : list (Z * list Z) }.

(** [None]: the pointer is NULL. *)
Record GameData := mkGameData {
  avatar_data : option (list AvatarDataEnt);
  avatar_skill_depot_data : option (list AvatarSkillDepotDataEnt);
  openstate_data : option (list OpenStateDataEnt) }.

(** [operator[]] of the two tables: the first entry with the id. *)
Fixpoint find_avatar (l : list AvatarDataEnt) (id : Z) : option AvatarDataEnt :=
  match l with [] => None | e :: l => if ad_id e =? id then Some e else find_avatar l id end.

Fixpoint find_depot (l : list AvatarSkillDepotDataEnt) (id : Z) : option AvatarSkillDepotDataEnt :=
  match l with [] => None | e :: l => if sd_id e =? id then Some e else find_depot l id end.

(** ** The message [AvatarInfo] of src/proto/define.proto, the fields in use *)
Record pb_AvatarInfo := mkPbAvatarInfo {
  pa_avatar_id : Z; pa_guid : Z; pa_born_time : Z; pa_skill_depot_id : Z; pa_exp_level : Z; pa_exp_number : Z;
  pa_wearing_flycloak_id : Z; pa_life_state : Z; pa_equip_guid_list : list Z; pa_talent_id_list : list Z }.

(** ** The object *)

Record Avatar := mkAvatar {
  av_id : Z; av_guid : Z; av_weapon : option nat; av_artifacts : list (option nat); set_equips : Z; equip_guids
  : list Z; av_level : Z; av_exp : Z; ascension : Z; curHp : Z; costume : Z; wings : Z; friendship : Z;
  friendship_exp : Z; talent_level : list Z; constellation : Z; bornTime : Z; skillDepotId : Z; full : Z;
  full_cd : Z; energy : Z; av_data : option AvatarDataEnt; skillDepot : option AvatarSkillDepotDataEnt }.

(** Setters of single members. *)

Definition set_weapon (w : option nat) (a : Avatar) : Avatar :=
  mkAvatar (av_id a) (av_guid a) w (av_artifacts a) (set_equips a) (equip_guids a) (av_level a) (av_exp a)
    (ascension a) (curHp a) (costume a) (wings a) (friendship a) (friendship_exp a) (talent_level a)
    (constellation a) (bornTime a) (skillDepotId a) (full a) (full_cd a) (energy a) (av_data a) (skillDepot a).

Definition set_artifacts (l : list (option nat)) (a : Avatar) : Avatar :=
  mkAvatar (av_id a) (av_guid a) (av_weapon a) l (set_equips a) (equip_guids a) (av_level a) (av_exp a)
    (ascension a) (curHp a) (costume a) (wings a) (friendship a) (friendship_exp a) (talent_level a)
    (constellation a) (bornTime a) (skillDepotId a) (full a) (full_cd a) (energy a) (av_data a) (skillDepot a).

Definition set_set_equips (i : Z) (a : Avatar) : Avatar :=
  mkAvatar (av_id a) (av_guid a) (av_weapon a) (av_artifacts a) i (equip_guids a) (av_level a) (av_exp a)
    (ascension a) (curHp a) (costume a) (wings a) (friendship a) (friendship_exp a) (talent_level a)
    (constellation a) (bornTime a) (skillDepotId a) (full a) (full_cd a) (energy a) (av_data a) (skillDepot a).

Definition set_av_id (i : Z) (a : Avatar) : Avatar :=
  mkAvatar i (av_guid a) (av_weapon a) (av_artifacts a) (set_equips a) (equip_guids a) (av_level a) (av_exp a)
    (ascension a) (curHp a) (costume a) (wings a) (friendship a) (friendship_exp a) (talent_level a)
    (constellation a) (bornTime a) (skillDepotId a) (full a) (full_cd a) (energy a) (av_data a) (skillDepot a).

Definition set_data (e : option AvatarDataEnt) (a : Avatar) : Avatar :=
  mkAvatar (av_id a) (av_guid a) (av_weapon a) (av_artifacts a) (set_equips a) (equip_guids a) (av_level a)
    (av_exp a) (ascension a) (curHp a) (costume a) (wings a) (friendship a) (friendship_exp a) (talent_level a)
    (constellation a) (bornTime a) (skillDepotId a) (full a) (full_cd a) (energy a) e (skillDepot a).

Definition set_guid (g : Z) (a : Avatar) : Avatar :=
  mkAvatar (av_id a) g (av_weapon a) (av_artifacts a) (set_equips a) (equip_guids a) (av_level a) (av_exp a)
    (ascension a) (curHp a) (costume a) (wings a) (friendship a) (friendship_exp a) (talent_level a)
    (constellation a) (bornTime a) (skillDepotId a) (full a) (full_cd a) (energy a) (av_data a) (skillDepot a).

Definition set_talents (t : list Z) (a : Avatar) : Avatar :=
  mkAvatar (av_id a) (av_guid a) (av_weapon a) (av_artifacts a) (set_equips a) (equip_guids a) (av_level a)
    (av_exp a) (ascension a) (curHp a) (costume a) (wings a) (friendship a) (friendship_exp a) t (constellation
    a) (bornTime a) (skillDepotId a) (full a) (full_cd a) (energy a) (av_data a) (skillDepot a).

Definition setExp (e : Z) (a : Avatar) : Avatar :=
  mkAvatar (av_id a) (av_guid a) (av_weapon a) (av_artifacts a) (set_equips a) (equip_guids a) (av_level a) e
    (ascension a) (curHp a) (costume a) (wings a) (friendship a) (friendship_exp a) (talent_level a)
    (constellation a) (bornTime a) (skillDepotId a) (full a) (full_cd a) (energy a) (av_data a) (skillDepot a).

Definition setCurHp (h : Z) (a : Avatar) : Avatar :=
  mkAvatar (av_id a) (av_guid a) (av_weapon a) (av_artifacts a) (set_equips a) (equip_guids a) (av_level a)
    (av_exp a) (ascension a) h (costume a) (wings a) (friendship a) (friendship_exp a) (talent_level a)
    (constellation a) (bornTime a) (skillDepotId a) (full a) (full_cd a) (energy a) (av_data a) (skillDepot a).

Definition setCostume (c : Z) (a : Avatar) : Avatar :=
  mkAvatar (av_id a) (av_guid a) (av_weapon a) (av_artifacts a) (set_equips a) (equip_guids a) (av_level a)
    (av_exp a) (ascension a) (curHp a) c (wings a) (friendship a) (friendship_exp a) (talent_level a)
    (constellation a) (bornTime a) (skillDepotId a) (full a) (full_cd a) (energy a) (av_data a) (skillDepot a).

Definition setWings (w : Z) (a : Avatar) : Avatar :=
  mkAvatar (av_id a) (av_guid a) (av_weapon a) (av_artifacts a) (set_equips a) (equip_guids a) (av_level a)
    (av_exp a) (ascension a) (curHp a) (costume a) w (friendship a) (friendship_exp a) (talent_level a)
    (constellation a) (bornTime a) (skillDepotId a) (full a) (full_cd a) (energy a) (av_data a) (skillDepot a).

Definition setFriendshipExp (e : Z) (a : Avatar) : Avatar :=
  mkAvatar (av_id a) (av_guid a) (av_weapon a) (av_artifacts a) (set_equips a) (equip_guids a) (av_level a)
    (av_exp a) (ascension a) (curHp a) (costume a) (wings a) (friendship a) e (talent_level a) (constellation a)
    (bornTime a) (skillDepotId a) (full a) (full_cd a) (energy a) (av_data a) (skillDepot a).

Definition setBornTime (t : Z) (a : Avatar) : Avatar :=
  mkAvatar (av_id a) (av_guid a) (av_weapon a) (av_artifacts a) (set_equips a) (equip_guids a) (av_level a)
    (av_exp a) (ascension a) (curHp a) (costume a) (wings a) (friendship a) (friendship_exp a) (talent_level a)
    (constellation a) t (skillDepotId a) (full a) (full_cd a) (energy a) (av_data a) (skillDepot a).

Definition setFullness (f : Z) (a : Avatar) : Avatar :=
  mkAvatar (av_id a) (av_guid a) (av_weapon a) (av_artifacts a) (set_equips a) (equip_guids a) (av_level a)
    (av_exp a) (ascension a) (curHp a) (costume a) (wings a) (friendship a) (friendship_exp a) (talent_level a)
    (constellation a) (bornTime a) (skillDepotId a) f (full_cd a) (energy a) (av_data a) (skillDepot a).

Definition setFullnessCd (f : Z) (a : Avatar) : Avatar :=
  mkAvatar (av_id a) (av_guid a) (av_weapon a) (av_artifacts a) (set_equips a) (equip_guids a) (av_level a)
    (av_exp a) (ascension a) (curHp a) (costume a) (wings a) (friendship a) (friendship_exp a) (talent_level a)
    (constellation a) (bornTime a) (skillDepotId a) (full a) f (energy a) (av_data a) (skillDepot a).

Definition setEnergy (e : Z) (a : Avatar) : Avatar :=
  mkAvatar (av_id a) (av_guid a) (av_weapon a) (av_artifacts a) (set_equips a) (equip_guids a) (av_level a)
    (av_exp a) (ascension a) (curHp a) (costume a) (wings a) (friendship a) (friendship_exp a) (talent_level a)
    (constellation a) (bornTime a) (skillDepotId a) (full a) (full_cd a) e (av_data a) (skillDepot a).

Definition set_level (l : Z) (a : Avatar) : Avatar :=
  mkAvatar (av_id a) (av_guid a) (av_weapon a) (av_artifacts a) (set_equips a) (equip_guids a) l (av_exp a)
    (ascension a) (curHp a) (costume a) (wings a) (friendship a) (friendship_exp a) (talent_level a)
    (constellation a) (bornTime a) (skillDepotId a) (full a) (full_cd a) (energy a) (av_data a) (skillDepot a).

Definition set_ascension (l : Z) (a : Avatar) : Avatar :=
  mkAvatar (av_id a) (av_guid a) (av_weapon a) (av_artifacts a) (set_equips a) (equip_guids a) (av_level a)
    (av_exp a) l (curHp a) (costume a) (wings a) (friendship a) (friendship_exp a) (talent_level a)
    (constellation a) (bornTime a) (skillDepotId a) (full a) (full_cd a) (energy a) (av_data a) (skillDepot a).

Definition set_friendship (l : Z) (a : Avatar) : Avatar :=
  mkAvatar (av_id a) (av_guid a) (av_weapon a) (av_artifacts a) (set_equips a) (equip_guids a) (av_level a)
    (av_exp a) (ascension a) (curHp a) (costume a) (wings a) l (friendship_exp a) (talent_level a)
    (constellation a) (bornTime a) (skillDepotId a) (full a) (full_cd a) (energy a) (av_data a) (skillDepot a).

Definition set_constellation (l : Z) (a : Avatar) : Avatar :=
  mkAvatar (av_id a) (av_guid a) (av_weapon a) (av_artifacts a) (set_equips a) (equip_guids a) (av_level a)
    (av_exp a) (ascension a) (curHp a) (costume a) (wings a) (friendship a) (friendship_exp a) (talent_level a)
    l (bornTime a) (skillDepotId a) (full a) (full_cd a) (energy a) (av_data a) (skillDepot a).

Definition set_depot (i : Z) (e : option AvatarSkillDepotDataEnt) (a : Avatar) : Avatar :=
  mkAvatar (av_id a) (av_guid a) (av_weapon a) (av_artifacts a) (set_equips a) (equip_guids a) (av_level a)
    (av_exp a) (ascension a) (curHp a) (costume a) (wings a) (friendship a) (friendship_exp a) (talent_level a)
    (constellation a) (bornTime a) i (full a) (full_cd a) (energy a) (av_data a) e.

(** *** Constructors *)

(** What [Avatar()] writes. *)
Definition Avatar_default (junk : Avatar) (now : Z) : Avatar :=
  let a := junk in
  mkAvatar (av_id a) (av_guid a) None (replicate 5 None) 0 [] 1 0 0 (curHp a) (costume a) 14001 1 0
    [1; 1; 1] 0 now (skillDepotId a) (full a) (full_cd a) 0 (av_data a) (skillDepot a).

(** [None]: one of the pointers to game data is NULL. *)
Definition new_Avatar (gd : option GameData) (junk : Avatar) (now id : Z) : option Avatar :=
  gd ← gd;
  tbl ← avatar_data gd;
  data ← find_avatar tbl id;
  stbl ← avatar_skill_depot_data gd;
  let a := Avatar_default junk now in
  Some (set_av_id id (set_data (Some data)
    (set_depot (ad_skill_depot_id data) (find_depot stbl (ad_skill_depot_id data)) a))).

(** The weapon, the artifacts, levels and talents are not written. *)
Definition Avatar_of_pb (gd : option GameData) (junk : Avatar) (pb : pb_AvatarInfo) : option Avatar :=
  gd ← gd;
  tbl ← avatar_data gd;
  stbl ← avatar_skill_depot_data gd;
  let a := junk in
  let f := pa_exp_level pb in
  Some (
  mkAvatar (pa_avatar_id pb) (pa_guid pb) (av_weapon a) (av_artifacts a) 0
    (pa_equip_guid_list pb) (av_level a) (av_exp a) (ascension a) (curHp a) (costume a) (pa_wearing_flycloak_id
    pb) f (if 10 <=? f then 6325 else pa_exp_number pb) (talent_level a) (zlen (pa_talent_id_list pb))
    (pa_born_time pb) (pa_skill_depot_id pb) (full a) (full_cd a) (energy a) (find_avatar tbl (pa_avatar_id pb))
    (find_depot stbl (pa_skill_depot_id pb))).

(** *** Equipment *)
Section items.
Variable items : nat -> option Item.

(** [None]: a NULL or dangling pointer. *)
Definition item_at (p : option nat) : option Item := p ← p; items p.

Definition setWeapon (w : option nat) (a : Avatar) : option (Z * Avatar) :=
  it ← item_at w;
  if negb (it_type it =? ITEM_WEAPON) then Some (-1, a) else Some (0, set_weapon w a).

Definition setWeaponIfNull (w : option nat) (a : Avatar) : option (Z * Avatar) :=
  match av_weapon a with Some _ => Some (0, a) | None => setWeapon w a end.

Definition setArtifact (p : option nat) (idx : Z) (a : Avatar) : option (Z * Avatar) :=
  if 5 <=? idx then Some (-1, a)
  else
    it ← item_at p;
    if negb (it_type it =? ITEM_ARTIFACT) then Some (-1, a)
    else Some (0, set_artifacts (<[Z.to_nat idx := p]> (av_artifacts a)) a).

Definition setArtifactIfNull (p : option nat) (idx : Z) (a : Avatar) : option (Z * Avatar) :=
  if 5 <=? idx then Some (-1, a)
  else match av_artifacts a !! Z.to_nat idx with
       | Some (Some _) => Some (0, a)
       | _ => setArtifact p idx a
       end.

(** The slot is the tens digit of the item's id, less one. *)
Definition artifact_slot (it : Item) : Z := u32 ((it_id it mod 100) / 10 - 1).

Definition setArtifact_slot (p : option nat) (a : Avatar) : option (Z * Avatar) :=
  it ← item_at p; setArtifact p (artifact_slot it) a.

Definition setArtifactIfNull_slot (p : option nat) (a : Avatar) : option (Z * Avatar) :=
  it ← item_at p; setArtifactIfNull p (artifact_slot it) a.

(** [setArtifacts(item)]: all five or none. *)
Fixpoint all_artifacts (l : list (option nat)) : option bool :=
  match l with
  | [] => Some true
  | p :: l =>
      it ← item_at p;
      if negb (it_type it =? ITEM_ARTIFACT) then Some false else all_artifacts l
  end.

Definition setArtifacts (l : list (option nat)) (a : Avatar) : option (Z * Avatar) :=
  ok ← all_artifacts (take 5 l);
  if ok : bool then Some (0, set_artifacts (take 5 l) a) else Some (-1, a).

(** [operator proto::AvatarInfo() const] *)
Fixpoint equip_list (l : list (option nat)) : option (list Z) :=
  match l with
  | [] => Some []
  | None :: l => equip_list l
  | Some p :: l => it ← items p; gs ← equip_list l; Some (it_guid it :: gs)
  end.

Definition Avatar_to_pb (a : Avatar) : option pb_AvatarInfo :=
  equips ← equip_list (av_weapon a :: take 5 (av_artifacts a));
  skills ← (if constellation a =? 0 then Some []
            else
              d ← skillDepot a;
              if zlen (sd_constellationSkills d) <? constellation a then None
              else Some (ztake (constellation a) (sd_constellationSkills d)));
  Some (mkPbAvatarInfo (av_id a) (av_guid a) (u32 (bornTime a)) (skillDepotId a) (friendship a)
    (if friendship a <? 10 then friendship_exp a else 0) (wings a) 1 equips skills).

Fixpoint getItemByGuid_in (l : list (nat * Item)) (guid : Z) : option nat :=
  match l with
  | [] => None
  | (p, it) :: l => if guid =? it_guid it then Some p else getItemByGuid_in l guid
  end.

(** [loadEquips]; [owner]: the inventory of [getOwner()], [None] for NULL. *)
Fixpoint load_equips (inv : list (nat * Item)) (guids : list Z) (a : Avatar) : option Avatar :=
  match guids with
  | [] => Some a
  | g :: guids =>
      match getItemByGuid_in inv g with
      | None => load_equips inv guids a
      | Some p =>
          it ← items p;
          '(_, a) ← (if it_type it =? ITEM_WEAPON then setWeaponIfNull (Some p) a
                     else if it_type it =? ITEM_ARTIFACT then setArtifactIfNull_slot (Some p) a
                     else Some (0, a));
          load_equips inv guids a
      end
  end.

Definition loadEquips (owner : option (list (nat * Item))) (a : Avatar) : option Avatar :=
  match owner with
  | None => Some a
  | Some inv => a ← load_equips inv (equip_guids a) a; Some (set_set_equips 1 a)
  end.

(** [operator proto::AvatarInfo()] and the getters that are not const look the
    equipment up first. *)
Definition with_equips (owner : option (list (nat * Item))) (a : Avatar) : option Avatar :=
  if set_equips a =? 0 then loadEquips owner a else Some a.

Definition getWeaponId (a : Avatar) : option Z :=
  match av_weapon a with None => Some 0 | Some p => it ← items p; Some (u16 (it_id it)) end.

Definition getArtifactId (i : Z) (a : Avatar) : option Z :=
  p ← av_artifacts a !! Z.to_nat i;
  match p with None => Some 0 | Some p => it ← items p; Some (u16 (it_id it)) end.
End items.

(** *** Identity *)

Definition getUid (a : Avatar) : Z := Z.shiftr (av_guid a) 32.

Definition setGuid (g : Z) (a : Avatar) : Avatar :=
  let a := if getUid a =? Z.shiftr g 32 then a else set_set_equips 0 a in set_guid g a.

Definition setUid (u : Z) (a : Avatar) : Avatar :=
  set_set_equips 0 (set_guid (Z.lor (Z.land (av_guid a) 0xffffffff) (u64 (Z.shiftl u 32))) a).

Definition setId (gd : option GameData) (i recalc : Z) (a : Avatar) : option Avatar :=
  let a := set_av_id i a in
  if recalc =? 0 then Some a
  else
    gd ← gd; tbl ← avatar_data gd; data ← find_avatar tbl i; stbl ← avatar_skill_depot_data gd;
    Some (set_depot (ad_skill_depot_id data) (find_depot stbl (ad_skill_depot_id data)) (set_data (Some data) a)).

Definition setData (gd : option GameData) (i : Z) (a : Avatar) : option Avatar :=
  gd ← gd; tbl ← avatar_data gd; Some (set_data (find_avatar tbl i) a).

Definition setSkillDepotId (gd : option GameData) (i : Z) (a : Avatar) : option (Z * Avatar) :=
  gd ← gd; stbl ← avatar_skill_depot_data gd; Some (i, set_depot i (find_depot stbl i) a).

Definition resetSkillDepotId (gd : option GameData) (a : Avatar) : option (Z * Avatar) :=
  data ← av_data a; setSkillDepotId gd (ad_skill_depot_id data) a.

(** *** Levels *)

Definition clamp (lo hi x : Z) : Z := if x <? lo then lo else if hi <? x then hi else x.

Definition setLevel (l : Z) : Avatar -> Avatar := set_level (clamp 1 90 l).
Definition setAscension (n : Z) : Avatar -> Avatar := set_ascension (if 6 <? n then 6 else n).
Definition setFriendship (f : Z) : Avatar -> Avatar := set_friendship (clamp 1 10 f).
Definition setConstellation (c : Z) : Avatar -> Avatar := set_constellation (if 6 <? c then 6 else c).

(** The value returned is an [int], -1 when there is no next one. *)
Definition ascend (a : Avatar) : Z * Avatar :=
  if 6 <=? ascension a then (-1, a) else (ascension a + 1, set_ascension (ascension a + 1) a).

Definition addConstellation (a : Avatar) : Z * Avatar :=
  if 6 <=? constellation a then (-1, a) else (constellation a + 1, set_constellation (constellation a + 1) a).

Definition getTalentLevel (idx : Z) (a : Avatar) : Z :=
  if 3 <=? idx then 0 else nth (Z.to_nat idx) (talent_level a) 0.

(** The caller's array is clamped too. *)
Definition setTalentLevels (t : list Z) (a : Avatar) : list Z * Avatar :=
  let t := map (clamp 1 15) (take 3 t) in (t, set_talents t a).

Definition setTalentLevel (l i : Z) (a : Avatar) : Z * Avatar :=
  if 3 <=? i then (-1, a) else (0, set_talents (<[Z.to_nat i := clamp 1 15 l]> (talent_level a)) a).

Definition addTalentLevel (i : Z) (a : Avatar) : Z * Avatar :=
  if 3 <=? i then (-1, a)
  else
    let t := getTalentLevel i a in
    if 15 <=? u32 (t + 1) then (-1, a)
    else (t + 1, set_talents (<[Z.to_nat i := t + 1]> (talent_level a)) a).

(** *** Counters: an [unsigned int] that is 0 when it would be negative *)

Definition add_clamped (x d : Z) : Z := let y := u32 (x + d) in if s32 y <? 0 then 0 else y.

Definition addExp (d : Z) (a : Avatar) : Z * Avatar :=
  let a := setExp (add_clamped (av_exp a) d) a in (av_exp a, a).

Definition addCurHp (d : Z) (a : Avatar) : Z * Avatar :=
  let a := setCurHp (add_clamped (curHp a) d) a in (curHp a, a).

Definition addFullness (d : Z) (a : Avatar) : Z * Avatar :=
  let a := setFullness (add_clamped (full a) d) a in (full a, a).

Definition addFullnessCd (d : Z) (a : Avatar) : Z * Avatar :=
  let a := setFullnessCd (add_clamped (full_cd a) d) a in (full_cd a, a).

Definition addEnergy (d : Z) (a : Avatar) : Z * Avatar :=
  let a := setEnergy (add_clamped (energy a) d) a in (energy a, a).

(** It is the experience that is set to 0. *)
Definition addFriendshipExp (d : Z) (a : Avatar) : Z * Avatar :=
  let y := u32 (friendship_exp a + d) in
  let a := setFriendshipExp y a in
  let a := if s32 y <? 0 then setExp 0 a else a in
  (friendship_exp a, a).
