(* ===== verification/AvatarProps.v ===== *)
(** * Avatars: theorems *)

From stdpp Require Import relations.
From S2P Require Import Prelude Item Avatar.

(** ** The bounds of an avatar *)

Definition levels_ok (a : Avatar) : Prop :=
  1 <= av_level a <= 90 /\ 0 <= ascension a <= 6 /\ 0 <= constellation a <= 6 /\ 1 <= friendship a <= 10.

Definition talents_ok (a : Avatar) : Prop :=
  length (talent_level a) = 3%nat /\ Forall (fun t => 1 <= t <= 15) (talent_level a).

(** The counters that [add*] change stay below 2^31 once it has run. *)
Record avatar_ok (a : Avatar) : Prop := {
  ao_levels : levels_ok a;
  ao_talents : talents_ok a;
  ao_artifacts : length (av_artifacts a) = 5%nat
}.

Lemma clamp_range lo hi x : lo <= hi -> lo <= clamp lo hi x <= hi.
Proof. unfold clamp. repeat zcase; lia. Qed.

Lemma default_ok junk now : avatar_ok (Avatar_default junk now).
Proof. constructor; cbn; repeat split; cbn; try lia. repeat constructor; lia. Qed.

(** One call of a method that changes the object. *)
Inductive avatar_step (items : nat -> option Item) (gd : option GameData) (a : Avatar) : Avatar -> Prop :=
| st_setLevel l : in_u 32 l -> avatar_step items gd a (setLevel l a)
| st_setAscension n : in_u 32 n -> avatar_step items gd a (setAscension n a)
| st_setFriendship f : in_u 32 f -> avatar_step items gd a (setFriendship f a)
| st_setConstellation c : in_u 32 c -> avatar_step items gd a (setConstellation c a)
| st_ascend : avatar_step items gd a (ascend a).2
| st_addConstellation : avatar_step items gd a (addConstellation a).2
| st_setTalentLevels t : length t = 3%nat -> avatar_step items gd a (setTalentLevels t a).2
| st_setTalentLevel l i : in_u 32 i -> avatar_step items gd a (setTalentLevel l i a).2
| st_addTalentLevel i : in_u 32 i -> avatar_step items gd a (addTalentLevel i a).2
| st_addExp d : avatar_step items gd a (addExp d a).2
| st_addCurHp d : avatar_step items gd a (addCurHp d a).2
| st_addFullness d : avatar_step items gd a (addFullness d a).2
| st_addFullnessCd d : avatar_step items gd a (addFullnessCd d a).2
| st_addEnergy d : avatar_step items gd a (addEnergy d a).2
| st_addFriendshipExp d : avatar_step items gd a (addFriendshipExp d a).2
| st_setExp e : avatar_step items gd a (setExp e a)
| st_setCurHp e : avatar_step items gd a (setCurHp e a)
| st_setCostume e : avatar_step items gd a (setCostume e a)
| st_setWings e : avatar_step items gd a (setWings e a)
| st_setFriendshipExp e : avatar_step items gd a (setFriendshipExp e a)
| st_setBornTime e : avatar_step items gd a (setBornTime e a)
| st_setFullness e : avatar_step items gd a (setFullness e a)
| st_setFullnessCd e : avatar_step items gd a (setFullnessCd e a)
| st_setEnergy e : avatar_step items gd a (setEnergy e a)
| st_setGuid g : avatar_step items gd a (setGuid g a)
| st_setUid u : avatar_step items gd a (setUid u a)
| st_setId i r a' : setId gd i r a = Some a' -> avatar_step items gd a a'
| st_setData i a' : setData gd i a = Some a' -> avatar_step items gd a a'
| st_setSkillDepotId i r a' : setSkillDepotId gd i a = Some (r, a') -> avatar_step items gd a a'
| st_resetSkillDepotId r a' : resetSkillDepotId gd a = Some (r, a') -> avatar_step items gd a a'
| st_setWeapon w r a' : setWeapon items w a = Some (r, a') -> avatar_step items gd a a'
| st_setWeaponIfNull w r a' : setWeaponIfNull items w a = Some (r, a') -> avatar_step items gd a a'
| st_setArtifact p i r a' : setArtifact items p i a = Some (r, a') -> avatar_step items gd a a'
| st_setArtifactIfNull p i r a' : setArtifactIfNull items p i a = Some (r, a') -> avatar_step items gd a a'
| st_setArtifact_slot p r a' : setArtifact_slot items p a = Some (r, a') -> avatar_step items gd a a'
| st_setArtifactIfNull_slot p r a' : setArtifactIfNull_slot items p a = Some (r, a') -> avatar_step items gd a a'
| st_setArtifacts l r a' : (5 <= length l)%nat -> setArtifacts items l a = Some (r, a') -> avatar_step items gd a a'
| st_loadEquips inv a' : with_equips items inv a = Some a' -> avatar_step items gd a a'.

(** The methods that leave the bounded members alone. *)
Definition same_levels (a a' : Avatar) : Prop :=
  av_level a' = av_level a /\ ascension a' = ascension a /\ constellation a' = constellation a /\
  friendship a' = friendship a /\ talent_level a' = talent_level a /\ length (av_artifacts a') = length (av_artifacts a).

Lemma same_ok a a' : same_levels a a' -> avatar_ok a -> avatar_ok a'.
Proof.
  intros (E1 & E2 & E3 & E4 & E5 & E6) [Hl Ht Ha].
  constructor; unfold levels_ok, talents_ok in *; rewrite ?E1, ?E2, ?E3, ?E4, ?E5, ?E6; assumption.
Qed.

Lemma same_trans a b c : same_levels a b -> same_levels b c -> same_levels a c.
Proof. unfold same_levels. intuition congruence. Qed.

Ltac same := repeat split; cbn; rewrite ?length_insert; reflexivity.

(** Taking apart the options and tests of a method. *)
Ltac opened H := repeat (match type of H with
  | mbind _ ?x = Some _ => destruct x eqn:?; [|discriminate H]; cbn [mbind option_bind] in H
  | (if ?c then _ else _) = Some _ => destruct c
  | match ?c with _ => _ end = Some _ => destruct c
  | Some _ = Some _ => injection H as H; subst
  | None = Some _ => discriminate H
  end; cbn [mbind option_bind] in H).

Section items.
Variable items : nat -> option Item.

Lemma setWeapon_same w a r a' : setWeapon items w a = Some (r, a') -> same_levels a a'.
Proof. unfold setWeapon. intros H. opened H; same. Qed.

Lemma setWeaponIfNull_same w a r a' : setWeaponIfNull items w a = Some (r, a') -> same_levels a a'.
Proof. unfold setWeaponIfNull. intros H. destruct (av_weapon a); [opened H; same|exact (setWeapon_same _ _ _ _ H)]. Qed.

Lemma setArtifact_same p i a r a' : setArtifact items p i a = Some (r, a') -> same_levels a a'.
Proof. unfold setArtifact. intros H. opened H; same. Qed.

Lemma setArtifactIfNull_same p i a r a' : setArtifactIfNull items p i a = Some (r, a') -> same_levels a a'.
Proof.
  unfold setArtifactIfNull. intros H. destruct (5 <=? i); [opened H; same|].
  destruct (av_artifacts a !! Z.to_nat i) as [[q|]|]; [opened H; same|exact (setArtifact_same _ _ _ _ _ H)..].
Qed.

Lemma slot_same p a r a' : setArtifactIfNull_slot items p a = Some (r, a') -> same_levels a a'.
Proof.
  unfold setArtifactIfNull_slot. destruct (item_at items p); [|discriminate]. cbn [mbind option_bind].
  apply setArtifactIfNull_same.
Qed.

Lemma load_equips_same inv guids a a' : load_equips items inv guids a = Some a' -> same_levels a a'.
Proof.
  revert a. induction guids as [|g guids IH]; intros a H; cbn [load_equips] in H; [injection H as <-; same|].
  destruct (getItemByGuid_in inv g) as [p|]; [|exact (IH a H)].
  destruct (items p) as [it|]; [|discriminate H]. cbn [mbind option_bind] in H.
  destruct (if it_type it =? ITEM_WEAPON then _ else _) as [[r a1]|] eqn:E; [|discriminate H]. cbn [mbind option_bind] in H.
  refine (same_trans _ _ _ _ (IH a1 H)).
  destruct (it_type it =? ITEM_WEAPON); [exact (setWeaponIfNull_same _ _ _ _ E)|].
  destruct (it_type it =? ITEM_ARTIFACT); [exact (slot_same _ _ _ _ E)|injection E as _ <-; same].
Qed.

Lemma with_equips_same inv a a' : with_equips items inv a = Some a' -> same_levels a a'.
Proof.
  unfold with_equips, loadEquips. destruct (set_equips a =? 0); [|intros H; injection H as <-; same].
  destruct inv as [inv|]; [|intros H; injection H as <-; same].
  destruct (load_equips _ _ _ _) as [a1|] eqn:E; [|discriminate]. cbn [mbind option_bind]. intros H. injection H as <-.
  apply load_equips_same in E. refine (same_trans _ _ _ E _). same.
Qed.

Lemma talents_insert i v l :
  length l = 3%nat -> Forall (fun t => 1 <= t <= 15) l -> 1 <= v <= 15 ->
  length (<[i := v]> l) = 3%nat /\ Forall (fun t => 1 <= t <= 15) (<[i := v]> l).
Proof. intros Hl Hf Hv. rewrite length_insert. split; [exact Hl|]. apply Forall_insert; assumption. Qed.

Variable gd : option GameData.

Lemma step_ok a a' : avatar_step items gd a a' -> avatar_ok a -> avatar_ok a'.
Proof.
  intros H Ha. pose proof Ha as [(H1 & H2 & H3 & H4) (H5 & H6) H7].
  destruct H;
    try (match goal with
      | |- avatar_ok (_ _ a) => refine (same_ok a _ _ Ha); same
      | |- avatar_ok (_ _ a).2 => refine (same_ok a _ _ Ha); same
      end);
    repeat match goal with
      | H : setWeapon _ _ _ = _ |- _ => exact (same_ok _ _ (setWeapon_same _ _ _ _ H) Ha)
      | H : setWeaponIfNull _ _ _ = _ |- _ => exact (same_ok _ _ (setWeaponIfNull_same _ _ _ _ H) Ha)
      | H : setArtifact _ _ _ _ = _ |- _ => exact (same_ok _ _ (setArtifact_same _ _ _ _ _ H) Ha)
      | H : setArtifactIfNull _ _ _ _ = _ |- _ => exact (same_ok _ _ (setArtifactIfNull_same _ _ _ _ _ H) Ha)
      | H : setArtifactIfNull_slot _ _ _ = _ |- _ => exact (same_ok _ _ (slot_same _ _ _ _ H) Ha)
      | H : with_equips _ _ _ = _ |- _ => exact (same_ok _ _ (with_equips_same _ _ _ H) Ha)
      end.
  - constructor; [|split; assumption|exact H7]. unfold levels_ok. cbn. pose proof (clamp_range 1 90 l). lia.
  - constructor; [|split; assumption|exact H7]. unfold levels_ok, in_u in *. cbn. zcase; lia.
  - constructor; [|split; assumption|exact H7]. unfold levels_ok. cbn. pose proof (clamp_range 1 10 f). lia.
  - constructor; [|split; assumption|exact H7]. unfold levels_ok, in_u in *. cbn. zcase; lia.
  - unfold ascend. zcase; [exact Ha|]. constructor; [|split; assumption|exact H7]. unfold levels_ok. cbn. lia.
  - unfold addConstellation. zcase; [exact Ha|]. constructor; [|split; assumption|exact H7]. unfold levels_ok. cbn. lia.
  - constructor; [repeat split; cbn; lia|split|exact H7]; cbn [setTalentLevels set_talents talent_level snd].
    + rewrite length_map, length_take. lia.
    + apply Forall_forall. intros x Hx. apply list_elem_of_fmap in Hx as (y & -> & _). apply clamp_range. lia.
  - unfold setTalentLevel. zcase; [exact Ha|]. constructor; [repeat split; cbn; lia| |exact H7].
    apply talents_insert; [assumption..|]. apply clamp_range. lia.
  - unfold addTalentLevel. zcase; [exact Ha|]. assert (1 <= getTalentLevel i a <= 15) as Ht.
    { unfold getTalentLevel, in_u in *. destruct (Z.leb_spec 3 i); [lia|]. rewrite Forall_forall in H6. apply H6.
      apply nth_elem_of. lia. }
    cbv zeta. destruct (Z.leb_spec 15 (u32 (getTalentLevel i a + 1))) as [|Hu]; [exact Ha|].
    rewrite wrap_id in Hu by (unfold in_u; zpow; lia).
    constructor; [repeat split; cbn; lia| |exact H7]. apply talents_insert; [assumption..|lia].
  - unfold addFriendshipExp. cbv zeta. refine (same_ok a _ _ Ha). destruct (s32 _ <? 0); same.
  - unfold setGuid. cbv zeta. refine (same_ok a _ _ Ha). destruct (_ =? _); same.
  - unfold setId in H. refine (same_ok a _ _ Ha). opened H; same.
  - unfold setData in H. refine (same_ok a _ _ Ha). opened H; same.
  - unfold setSkillDepotId in H. refine (same_ok a _ _ Ha). opened H; same.
  - unfold resetSkillDepotId, setSkillDepotId in H. refine (same_ok a _ _ Ha). opened H; same.
  - unfold setArtifact_slot in H. destruct (item_at items p) as [it|]; [|discriminate H]. cbn [mbind option_bind] in H.
    exact (same_ok _ _ (setArtifact_same _ _ _ _ _ H) Ha).
  - rename H into Hl5, H0 into H. unfold setArtifacts in H. destruct (all_artifacts _ _) as [[|]|]; [| |discriminate H]; cbn [mbind option_bind] in H; injection H as _ <-.
    + constructor; [repeat split; cbn; lia|split; assumption|]. cbn [set_artifacts av_artifacts]. rewrite length_take. lia.
    + exact Ha.
Qed.

(** What the equipment pointers need to be, for the object to be stored. *)
Definition equips_live (a : Avatar) : Prop :=
  Forall (fun p => match p with Some p => is_Some (items p) | None => True end) (av_weapon a :: av_artifacts a).

Lemma equip_list_live l :
  Forall (fun p => match p with Some p => is_Some (items p) | None => True end) l -> is_Some (equip_list items l).
Proof.
  induction 1 as [|[p|] l Hp _ [gs IH]]; cbn [equip_list]; [eauto| |rewrite IH; eauto].
  destruct Hp as [it ->]. cbn [mbind option_bind]. rewrite IH. eauto.
Qed.

Lemma to_pb_total a :
  avatar_ok a -> equips_live a -> (forall d, skillDepot a = Some d -> length (sd_constellationSkills d) = 6%nat) ->
  (constellation a <> 0 -> is_Some (skillDepot a)) ->
  exists pb, Avatar_to_pb items a = Some pb /\ zlen (pa_talent_id_list pb) = constellation a.
Proof.
  intros [(_ & _ & Hc & _) _ Ha] Hl Hd Hs. unfold Avatar_to_pb. unfold equips_live in Hl.
  replace (av_weapon a :: take 5 (av_artifacts a)) with (av_weapon a :: av_artifacts a) by (rewrite take_ge by lia; reflexivity).
  destruct (equip_list_live _ Hl) as [gs ->]. cbn [mbind option_bind].
  destruct (Z.eqb_spec (constellation a) 0) as [E|E]; cbn [mbind option_bind].
  - eexists. split; [reflexivity|]. cbn. lia.
  - destruct (Hs E) as [d Ed]. rewrite Ed. specialize (Hd d Ed). cbn [mbind option_bind].
    destruct (Z.ltb_spec (zlen (sd_constellationSkills d)) (constellation a)); [lia|]. cbn [mbind option_bind].
    eexists. split; [reflexivity|]. cbn [pa_talent_id_list]. rewrite length_take. lia.
Qed.
End items.

(** ** Theorems *)

(** From a new avatar on, whatever methods are called in whatever order and
    with whatever arguments, the level stays in 1..90, the ascension and the
    constellation in 0..6, the friendship in 1..10, the three talents in 1..15,
    and there are five places for artifacts; so that, with six skills in its
    table and its equipment still in the inventory, the avatar can be stored. *)
Theorem avatar_bounded items gd junk now a :
  rtc (avatar_step items gd) (Avatar_default junk now) a ->
  avatar_ok a /\
  (equips_live items a -> (forall d, skillDepot a = Some d -> length (sd_constellationSkills d) = 6%nat) ->
   (constellation a <> 0 -> is_Some (skillDepot a)) ->
   exists pb, Avatar_to_pb items a = Some pb /\ zlen (pa_talent_id_list pb) = constellation a).
Proof.
  intros H. assert (avatar_ok a) as Ha.
  { revert H. apply (rtc_ind_r (fun a => avatar_ok a) (Avatar_default junk now)); [apply default_ok|].
    intros x y _ Hs Hx. exact (step_ok items gd x y Hs Hx). }
  split; [exact Ha|]. intros Hl Hd Hs. exact (to_pb_total items a Ha Hl Hd Hs).
Qed.

Definition ex_junk : Avatar := mkAvatar 0 0 None [] 0 [] 0 0 0 0 0 0 0 0 [] 0 0 0 0 0 0 None None.

Lemma avatar_bounded_witness :
  av_level (setLevel 100 (Avatar_default ex_junk 5)) = 90 /\ avatar_ok (setLevel 100 (Avatar_default ex_junk 5)).
Proof.
  split; [reflexivity|]. apply (avatar_bounded (fun _ => None) None ex_junk 5).
  apply rtc_once, st_setLevel. unfold in_u. zpow. lia.
Defined.

(** A talent of 14 cannot be raised to 15. *)
Lemma talent_never_15 i a : in_u 32 i -> talents_ok a -> (addTalentLevel i a).1 <> 15.
Proof.
  intros Hi [Hl Hf]. unfold addTalentLevel. zcase; [cbn; lia|]. cbv zeta.
  destruct (Z.leb_spec 15 (u32 (getTalentLevel i a + 1))) as [|Hu]; cbn [fst]; [lia|].
  assert (1 <= getTalentLevel i a <= 15) as Ht.
  { unfold getTalentLevel, in_u in *. destruct (Z.leb_spec 3 i); [lia|]. rewrite Forall_forall in Hf. apply Hf.
    apply nth_elem_of. lia. }
  rewrite wrap_id in Hu by (unfold in_u; zpow; lia). lia.
Qed.

(** A friendship experience that becomes negative is kept, and the experience
    is lost. *)
Lemma friendship_underflow a :
  friendship_exp a = 5 -> (addFriendshipExp (-6) a).1 = 4294967295 /\ av_exp (addFriendshipExp (-6) a).2 = 0.
Proof. intros E. unfold addFriendshipExp. rewrite E. split; reflexivity. Qed.
