(* ===== verification/Team.v ===== *)
(** * Teams

    src/team.cpp: the class [AvatarTeam], a name and a list of pointers to
    avatars.  [avatars] finds the avatar at a pointer; a NULL pointer is [None]
    in the list.  A loop that erases the element of its iterator and goes on
    with it has no result. *)

From stdpp Require Import sets.
From S2P Require Import Prelude Avatar.

(** The message [AvatarTeam] of src/proto/avatar.proto. *)
Record pb_AvatarTeam := mkPbTeam { pt_avatar_guid_list : list Z; pt_team_name : list byte }.

Record AvatarTeam := mkTeam { t_name : list byte; t_avatars : list (option nat) }.

Definition new_AvatarTeam : AvatarTeam := mkTeam [] [].

Definition setName (n : list byte) (t : AvatarTeam) : AvatarTeam := mkTeam n (t_avatars t).
Definition setAvatars (l : list (option nat)) (t : AvatarTeam) : AvatarTeam := mkTeam (t_name t) l.
Definition team_size (t : AvatarTeam) : nat := length (t_avatars t).

Section team.
Variable avatars : nat -> option Avatar.

Definition guid_at (p : nat) : option Z := a ← avatars p; Some (av_guid a).

(** The constructor; [find]: [player.getAvatarByGuid]. *)
Definition AvatarTeam_of_pb (find : Z -> option nat) (p : pb_AvatarTeam) : AvatarTeam :=
  mkTeam (pt_team_name p) (map find (pt_avatar_guid_list p)).

Fixpoint team_guids (l : list (option nat)) : option (list Z) :=
  match l with
  | [] => Some []
  | None :: l => team_guids l
  | Some p :: l => g ← guid_at p; gs ← team_guids l; Some (g :: gs)
  end.

Definition AvatarTeam_to_pb (t : AvatarTeam) : option pb_AvatarTeam :=
  gs ← team_guids (t_avatars t); Some (mkPbTeam gs (t_name t)).

(** [*i == a || ( *i)->getGuid() == a->getGuid()] *)
Definition same_avatar (p a : nat) : option bool :=
  if (p =? a)%nat then Some true else g ← guid_at p; h ← guid_at a; Some (g =? h).

(** The loop of [addAvatar]: where the avatar is, or how many there are. *)
Fixpoint add_loop (l : list (option nat)) (a : nat) (ret : Z) : option (bool * Z) :=
  match l with
  | [] => Some (false, ret)
  | None :: _ => None
  | Some p :: l =>
      same ← same_avatar p a;
      if same : bool then Some (true, ret) else add_loop l a (ret + 1)
  end.

Definition team_addAvatar (a : option nat) (t : AvatarTeam) : option (Z * AvatarTeam) :=
  match a with
  | None => Some (-1, t)
  | Some a =>
      '(found, ret) ← add_loop (t_avatars t) a 0;
      if found : bool then Some (ret, t)
      else if 4 <=? ret then Some (-1, t)
      else Some (ret + 1, setAvatars (t_avatars t ++ [Some a]) t)
  end.

(** A loop that erases what satisfies [p]. *)
Fixpoint erase_loop (p : option nat -> option bool) (l : list (option nat)) : option (list (option nat)) :=
  match l with
  | [] => Some []
  | x :: l => b ← p x; if b : bool then None else cons x <$> erase_loop p l
  end.

Definition team_delAvatar (a : option nat) (t : AvatarTeam) : option AvatarTeam :=
  match a with
  | None => Some t
  | Some a =>
      l ← erase_loop (fun x => match x with None => Some true | Some p => same_avatar p a end) (t_avatars t);
      Some (setAvatars l t)
  end.

(** By index. *)
Fixpoint erase_nth (d i : Z) (l : list (option nat)) : option (list (option nat)) :=
  match l with
  | [] => Some []
  | None :: _ => None
  | Some p :: l => if d =? i then None else cons (Some p) <$> erase_nth (u32 (d + 1)) i l
  end.

Definition team_delAvatar_at (i : Z) (t : AvatarTeam) : option AvatarTeam :=
  l ← erase_nth 0 i (t_avatars t); Some (setAvatars l t).

Definition team_delAvatar_guid (guid : Z) (t : AvatarTeam) : option AvatarTeam :=
  l ← erase_loop (fun x => match x with None => Some true | Some p => g ← guid_at p; Some (g =? guid) end) (t_avatars t);
  Some (setAvatars l t).

(** The pointer that is returned, [None] for NULL. *)
Definition team_getAvatar (i : Z) (t : AvatarTeam) : option nat :=
  match t_avatars t !! Z.to_nat i with Some p => p | None => None end.

Fixpoint getAvatar_loop (l : list (option nat)) (guid : Z) : option (option nat) :=
  match l with
  | [] => Some None
  | None :: _ => None
  | Some p :: l => g ← guid_at p; if g =? guid then Some (Some p) else getAvatar_loop l guid
  end.

Definition team_getAvatar_guid (guid : Z) (t : AvatarTeam) : option (option nat) := getAvatar_loop (t_avatars t) guid.

Fixpoint set_loop (l : list (option nat)) (a : option nat) (ret i : Z) : option (Z * list (option nat)) :=
  match l with
  | [] => Some (-1, [])
  | None :: _ => None
  | Some p :: l =>
      if ret =? i then Some (ret, a :: l)
      else '(r, l) ← set_loop l a (ret + 1) i; Some (r, Some p :: l)
  end.

Definition team_setAvatar (a : option nat) (i : Z) (t : AvatarTeam) : option (Z * AvatarTeam) :=
  '(r, l) ← set_loop (t_avatars t) a 0 i; Some (r, setAvatars l t).

(** [operator ==]: the iterators of the loop as indices; [None]: the end or a
    NULL pointer is dereferenced. *)
Fixpoint eq_loop (fuel : nat) (l m : list (option nat)) (i j : nat) : option bool :=
  match fuel with
  | O => None
  | S fuel =>
      p ← mjoin (l !! i);
      q ← mjoin (m !! j);
      g ← guid_at p;
      h ← guid_at q;
      if negb (g =? h) then Some false
      else if (S i =? length l)%nat then Some (j =? length m)%nat
      else eq_loop fuel l m (S (S i)) (S j)
  end.

Definition team_eq (s t : AvatarTeam) : option bool :=
  if negb (bool_decide (t_name s = t_name t)) then Some false
  else if bool_decide (t_avatars s = t_avatars t) then Some true
  else if negb (team_size s =? team_size t)%nat then Some false
  else eq_loop (S (team_size s)) (t_avatars s) (t_avatars t) 0 0.
End team.

(** * Teams: theorems *)
Section team.
Variable avatars : nat -> option Avatar.

(** The avatars of a team are live, have different guids, and are at most
    four. *)
Record team_ok (t : AvatarTeam) (guids : list Z) : Prop := {
  tk_live : Forall2 (fun p g => exists q, p = Some q /\ guid_at avatars q = Some g) (t_avatars t) guids;
  tk_nodup : NoDup guids;
  tk_size : (length guids <= 4)%nat
}.

Lemma new_team_ok : team_ok new_AvatarTeam [].
Proof. constructor; [constructor|constructor|cbn; lia]. Qed.

(** Comparing pointers first makes no difference. *)
Lemma same_guid p a g h :
  guid_at avatars p = Some g -> guid_at avatars a = Some h -> same_avatar avatars p a = Some (g =? h).
Proof.
  intros Hp Ha. unfold same_avatar. destruct (Nat.eqb_spec p a) as [->|].
  - assert (g = h) as -> by congruence. rewrite Z.eqb_refl. reflexivity.
  - rewrite Hp, Ha. reflexivity.
Qed.

Lemma add_loop_spec l guids a h n :
  Forall2 (fun p g => exists q, p = Some q /\ guid_at avatars q = Some g) l guids -> guid_at avatars a = Some h ->
  (exists i, guids !! i = Some h /\ add_loop avatars l a n = Some (true, n + Z.of_nat i)) \/
  ((h ∉ guids) /\ add_loop avatars l a n = Some (false, n + zlen guids)).
Proof.
  intros H Ha. revert n. induction H as [|p g l guids (q & -> & Hq) _ IH]; intros n; cbn [add_loop].
  - right. split; [apply not_elem_of_nil|]. cbn. rewrite Z.add_0_r. reflexivity.
  - rewrite (same_guid q a g h Hq Ha). cbn [mbind option_bind]. destruct (Z.eqb_spec g h) as [->|Hn].
    + left. exists 0%nat. split; [reflexivity|]. rewrite Z.add_0_r. reflexivity.
    + destruct (IH (n + 1)) as [(i & Hi & ->)|[Hi ->]].
      * left. exists (S i). split; [exact Hi|]. do 2 f_equal. lia.
      * right. split; [apply not_elem_of_cons; auto|]. cbn [length]. do 2 f_equal. lia.
Qed.

(** Adding an avatar to a team keeps it well-formed, and does what it says:
    one that is there stays, at the place that is returned; a fifth is
    refused; any other is appended and the new size returned. *)
Theorem team_add t guids a h :
  team_ok t guids -> guid_at avatars a = Some h ->
  exists r t' guids', team_addAvatar avatars (Some a) t = Some (r, t') /\ team_ok t' guids' /\
    (((h ∈ guids) /\ 0 <= r /\ guids !! Z.to_nat r = Some h /\ t' = t) \/
     ((h ∉ guids) /\ team_size t = 4%nat /\ r = -1 /\ t' = t) \/
     ((h ∉ guids) /\ (team_size t < 4)%nat /\ t_avatars t' = t_avatars t ++ [Some a] /\ r = Z.of_nat (team_size t'))).
Proof.
  intros [Hl Hn Hs] Ha. unfold team_addAvatar. pose proof (Forall2_length _ _ _ Hl) as El.
  destruct (add_loop_spec _ _ a h 0 Hl Ha) as [(i & Hi & ->)|[Hi ->]]; cbn [mbind option_bind].
  - exists (0 + Z.of_nat i), t, guids. split; [reflexivity|]. split; [constructor; assumption|]. left.
    split; [exact (list_elem_of_lookup_2 _ _ _ Hi)|]. split; [lia|]. split; [|reflexivity].
    replace (Z.to_nat (0 + Z.of_nat i)) with i by lia. exact Hi.
  - rewrite Z.add_0_l. destruct (Z.leb_spec 4 (zlen guids)) as [H4|H4].
    + exists (-1), t, guids. split; [reflexivity|]. split; [constructor; assumption|]. right. left.
      unfold team_size. repeat split; try assumption. lia.
    + eexists _, _, (guids ++ [h]). split; [reflexivity|]. split.
      * constructor; cbn [setAvatars t_avatars].
        -- apply Forall2_app; [exact Hl|]. constructor; [eauto|constructor].
        -- apply NoDup_app. split; [exact Hn|]. split; [|apply NoDup_singleton].
           intros x Hx Hx'. apply list_elem_of_singleton in Hx' as ->. contradiction.
        -- rewrite length_app. cbn. lia.
      * right. right. unfold team_size. cbn [setAvatars t_avatars]. rewrite length_app. cbn [length].
        repeat split; try assumption; lia.
Qed.

(** ** Removing *)

Lemma erase_loop_match p l : Exists (fun x => p x = Some true) l -> Forall (fun x => is_Some (p x)) l -> erase_loop p l = None.
Proof.
  induction 1 as [x l Hx|x l _ IH]; intros Hf; cbn [erase_loop]; apply Forall_cons in Hf as [[b Hb] Hf].
  - rewrite Hx. reflexivity.
  - rewrite Hb. cbn [mbind option_bind]. destruct b; [reflexivity|]. rewrite IH by exact Hf. reflexivity.
Qed.

Lemma erase_loop_none p l : Forall (fun x => p x = Some false) l -> erase_loop p l = Some l.
Proof. induction 1 as [|x l Hx _ IH]; cbn [erase_loop]; [reflexivity|]. rewrite Hx, IH. reflexivity. Qed.

(** Erasing what has the guid [h]. *)
Lemma erase_live (p : option nat -> option bool) l guids h :
  Forall2 (fun x g => exists q, x = Some q /\ guid_at avatars q = Some g) l guids ->
  (forall q g, guid_at avatars q = Some g -> p (Some q) = Some (g =? h)) ->
  if decide (h ∈ guids) then erase_loop p l = None else erase_loop p l = Some l.
Proof.
  intros Hl Hp. destruct (decide (h ∈ guids)) as [Hh|Hh].
  - apply erase_loop_match.
    + apply list_elem_of_lookup in Hh as [i Hi]. destruct (Forall2_lookup_r _ _ _ _ _ Hl Hi) as (x & Hx & q & -> & Hq).
      apply Exists_exists. exists (Some q). split; [exact (list_elem_of_lookup_2 _ _ _ Hx)|]. rewrite (Hp q h Hq), Z.eqb_refl. reflexivity.
    + clear Hh. induction Hl as [|x g l guids (q & -> & Hq) _ IH]; constructor; [rewrite (Hp q g Hq); eauto|exact IH].
  - apply erase_loop_none. induction Hl as [|x g l guids (q & -> & Hq) _ IH]; constructor.
    + rewrite (Hp q g Hq). apply not_elem_of_cons in Hh as [Hn _]. destruct (Z.eqb_spec g h); [congruence|reflexivity].
    + apply IH. apply not_elem_of_cons in Hh. tauto.
Qed.

(** An avatar that is in a team cannot be taken out of it: each of the
    three [delAvatar] goes on with the iterator of the element that it has
    erased; only removing what is not there ends, and changes nothing. *)
Theorem team_del t guids a h i :
  team_ok t guids -> guid_at avatars a = Some h -> 0 <= i < 2 ^ 32 ->
  (team_delAvatar avatars (Some a) t = if decide (h ∈ guids) then None else Some t) /\
  (team_delAvatar_guid avatars h t = if decide (h ∈ guids) then None else Some t) /\
  (team_delAvatar_at i t = if i <? zlen guids then None else Some t).
Proof.
  intros [Hl Hn Hs] Ha Hi. destruct t as [name l]. cbn [t_avatars] in *.
  pose proof (erase_live
    (fun x => match x with None => Some true | Some p => same_avatar avatars p a end) l guids h Hl) as H1.
  pose proof (erase_live
    (fun x => match x with None => Some true | Some p => g ← guid_at avatars p; Some (g =? h) end) l guids h Hl) as H2.
  unfold team_delAvatar, team_delAvatar_guid, team_delAvatar_at. cbn [t_avatars]. split; [|split].
  - specialize (H1 (fun q g Hq => same_guid q a g h Hq Ha)). destruct (decide (h ∈ guids)); rewrite H1; reflexivity.
  - specialize (H2 ltac:(intros q g Hq; cbv beta iota; rewrite Hq; reflexivity)). destruct (decide (h ∈ guids)); rewrite H2; reflexivity.
  - clear H1 H2. assert (forall d, 0 <= d -> d + zlen guids <= 4 ->
      erase_nth d i l = if (d <=? i) && (i <? d + zlen guids) then None else Some l) as H.
    { clear Hn Hs. induction Hl as [|x g l guids (q & -> & _) _ IH]; intros d Hd Hs; cbn [erase_nth length] in *.
      - rewrite Z.add_0_r. destruct (Z.leb_spec d i), (Z.ltb_spec i d); try lia; reflexivity.
      - destruct (Z.eqb_spec d i) as [->|Hne].
        + destruct (Z.leb_spec i i), (Z.ltb_spec i (i + Z.of_nat (S (length guids)))); try lia; reflexivity.
        + rewrite wrap_id by (unfold in_u; zpow; lia). rewrite IH by lia.
          destruct (Z.leb_spec d i), (Z.leb_spec (d + 1) i), (Z.ltb_spec i (d + 1 + zlen guids)),
            (Z.ltb_spec i (d + Z.of_nat (S (length guids)))); try lia; reflexivity. }
    rewrite H by lia. rewrite Z.add_0_l. destruct (Z.leb_spec 0 i); [|lia]. cbn [andb].
    destruct (i <? zlen guids); reflexivity.
Qed.

(** ** Comparing *)

Lemma eq_loop_false fuel l m i j :
  length l = length m -> eq_loop avatars fuel l m i j <> Some true.
Proof.
  intros Hlm. revert i j. induction fuel as [|fuel IH]; intros i j; cbn [eq_loop]; [discriminate|].
  destruct (mjoin (l !! i)) as [p|]; [|discriminate]. cbn [mbind option_bind].
  destruct (m !! j) as [q|] eqn:Hq; [|discriminate]. cbn [mjoin option_join]. destruct q as [q|]; [|discriminate].
  cbn [mbind option_bind]. destruct (guid_at avatars p) as [g|]; [|discriminate]. cbn [mbind option_bind].
  destruct (guid_at avatars q) as [h|]; [|discriminate]. cbn [mbind option_bind].
  destruct (negb (g =? h)); [discriminate|]. apply lookup_lt_Some in Hq.
  destruct (S i =? length l)%nat; [|apply IH]. destruct (Nat.eqb_spec j (length m)); [lia|discriminate].
Qed.

(** Two teams compare equal exactly when their names are equal and they
    hold the same pointers: the comparison of the guids, for avatars that were
    loaded again, never says yes. *)
Theorem team_eq_spec s t :
  team_eq avatars s t = Some true <-> t_name s = t_name t /\ t_avatars s = t_avatars t.
Proof.
  unfold team_eq. destruct (bool_decide_reflect (t_name s = t_name t)) as [Hn|Hn]; cbn [negb].
  - destruct (bool_decide_reflect (t_avatars s = t_avatars t)) as [Ha|Ha]; [tauto|]. split; [|tauto].
    destruct (Nat.eqb_spec (team_size s) (team_size t)) as [Hl|]; cbn [negb]; [|discriminate].
    intros E. destruct (eq_loop_false _ _ _ _ _ Hl E).
  - split; [discriminate|tauto].
Qed.
End team.

Definition ex_avatars (p : nat) : option Avatar :=
  if (p <? 10)%nat then Some (setGuid (Z.of_nat p) (Avatar_default (mkAvatar 0 0 None [] 0 [] 0 0 0 0 0 0 0 0 [] 0 0 0 0 0 0 None None) 0))
  else None.

Definition ex_team : AvatarTeam := mkTeam [] [Some 1%nat; Some 2%nat].

Lemma ex_team_ok : team_ok ex_avatars ex_team [1; 2].
Proof.
  constructor; [|repeat constructor; set_solver|cbn; lia].
  constructor; [exists 1%nat; split; reflexivity|]. constructor; [exists 2%nat; split; reflexivity|constructor].
Qed.

Lemma team_add_witness : exists r t' guids', team_addAvatar ex_avatars (Some 3%nat) ex_team = Some (r, t') /\ team_ok ex_avatars t' guids'.
Proof.
  destruct (team_add ex_avatars ex_team [1; 2] 3 3 ex_team_ok eq_refl) as (r & t' & guids' & E & W & _).
  exists r, t', guids'. split; assumption.
Defined.

Lemma team_del_witness : team_delAvatar ex_avatars (Some 2%nat) ex_team = None /\ team_delAvatar_at 5 ex_team = Some ex_team.
Proof.
  destruct (team_del ex_avatars ex_team [1; 2] 2 2 5 ex_team_ok eq_refl ltac:(lia)) as (H1 & _ & H3).
  rewrite decide_True in H1 by set_solver. split; assumption.
Defined.
