(* ===== verification/Vector.v ===== *)
(** * Vectors

    src/vector.cpp: [Vector], three numbers of type [long double] (64 bits of
    significand, as on x86), and [VectorInt], three of [long long], and their
    conversions from and to the messages [Vector] (floats) and [Vector3Int]
    ([int32]).  Numbers are the binary floating-point numbers of the Standard
    Library's SpecFloat.  A conversion to an integer type that cannot hold the
    truncated number is undefined: no result. *)

From Stdlib Require Import SpecFloat.
From S2P Require Import Prelude.

(** ** Conversions of the language *)

(** Rounding to the nearest number with [prec] bits. *)
Definition round_to (prec emax : Z) (x : spec_float) : spec_float :=
  match x with S754_finite s m e => binary_round prec emax s m e | _ => x end.

(** [float] to [long double] and back. *)
Definition widen : spec_float -> spec_float := round_to 64 16384.
Definition narrow : spec_float -> spec_float := round_to 24 128.

(** From an integer. *)
Definition ld_of_int (z : Z) : spec_float := binary_normalize 64 16384 z 0 false.
Definition float_of_int (z : Z) : spec_float := binary_normalize 24 128 z 0 false.

(** Truncation. *)
Definition truncate (x : spec_float) : option Z :=
  match x with
  | S754_zero _ => Some 0
  | S754_finite s m e =>
      let n := if 0 <=? e then Z.pos m * 2 ^ e else Z.pos m / 2 ^ (- e) in Some (if s then - n else n)
  | S754_infinity _ | S754_nan => None
  end.

(** To a signed integer type of [bits] bits. *)
Definition to_int (bits : Z) (x : spec_float) : option Z :=
  n ← truncate x; if (- 2 ^ (bits - 1) <=? n) && (n <? 2 ^ (bits - 1)) then Some n else None.

(** ** The classes and messages *)

Record vec3 (A : Type) := mk3 { t_x : A; t_y : A; t_z : A }.
Arguments mk3 {A}. Arguments t_x {A}. Arguments t_y {A}. Arguments t_z {A}.

Definition map3 {A B : Type} (f : A -> B) (v : vec3 A) : vec3 B := mk3 (f (t_x v)) (f (t_y v)) (f (t_z v)).
Definition try3 {A B : Type} (f : A -> option B) (v : vec3 A) : option (vec3 B) :=
  x ← f (t_x v); y ← f (t_y v); z ← f (t_z v); Some (mk3 x y z).

Definition pb_Vector := vec3 spec_float.
Definition pb_Vector3Int := vec3 Z.
Definition Vector := vec3 spec_float.
Definition VectorInt := vec3 Z.

Definition Vector_of_pb : pb_Vector -> Vector := map3 widen.
Definition Vector_of_pb3 : pb_Vector3Int -> Vector := map3 ld_of_int.
Definition Vector_of_VectorInt : VectorInt -> Vector := map3 ld_of_int.
Definition Vector_to_pb : Vector -> pb_Vector := map3 narrow.
Definition Vector_to_pb3 : Vector -> option pb_Vector3Int := try3 (to_int 32).

Definition VectorInt_of_pb : pb_Vector -> option VectorInt := try3 (to_int 64).
Definition VectorInt_of_pb3 (v : pb_Vector3Int) : VectorInt := map3 (fun z => z) v.
Definition VectorInt_of_Vector : Vector -> option VectorInt := try3 (to_int 64).
Definition VectorInt_to_pb : VectorInt -> pb_Vector := map3 float_of_int.

(** Narrowing wraps. *)
Definition VectorInt_to_pb3 : VectorInt -> pb_Vector3Int := map3 s32.

(** * Vectors: theorems *)
(** ** Shifting a significand *)

Definition shifted (m : positive) (k : nat) : positive := Nat.iter k xO m.

Lemma iter_xO m p : Pos.iter xO m p = shifted m (Pos.to_nat p).
Proof. apply Pos2Nat.inj_iter. Qed.

Lemma shifted_xO m k : shifted (xO m) k = xO (shifted m k).
Proof. unfold shifted. apply Nat.iter_swap. Qed.

Lemma shifted_value m k : Z.pos (shifted m k) = Z.pos m * 2 ^ Z.of_nat k.
Proof.
  induction k as [|k IH]; [rewrite Z.mul_1_r; reflexivity|].
  change (shifted m (S k)) with (xO (shifted m k)). rewrite Pos2Z.inj_xO, IH, Nat2Z.inj_succ, Z.pow_succ_r by lia. lia.
Qed.

Lemma digits_shifted m k : Z.pos (digits2_pos (shifted m k)) = Z.pos (digits2_pos m) + Z.of_nat k.
Proof.
  induction k as [|k IH]; [cbn; lia|]. change (shifted m (S k)) with (xO (shifted m k)).
  cbn [digits2_pos]. rewrite Pos2Z.inj_succ, IH. lia.
Qed.

Lemma iter_pos_nat {A} (f : A -> A) p x : SpecFloat.iter_pos f p x = Nat.iter (Pos.to_nat p) f x.
Proof.
  revert x. induction p as [p IH|p IH|]; intros x; cbn [SpecFloat.iter_pos]; [| |reflexivity]; rewrite !IH.
  - rewrite Pos2Nat.inj_xI. rewrite <- Nat.iter_add. rewrite <- Nat.iter_succ_r. f_equal. lia.
  - rewrite Pos2Nat.inj_xO. rewrite <- Nat.iter_add. f_equal. lia.
Qed.

Lemma shr_shifted m k : Nat.iter k shr_1 (Build_shr_record (Z.pos (shifted m k)) false false) = Build_shr_record (Z.pos m) false false.
Proof.
  induction k as [|k IH]; [reflexivity|]. rewrite Nat.iter_succ_r. exact IH.
Qed.

(** ** Rounding what needs no rounding *)

Section round.
Context (prec emax : Z).

(** Dropping the zeros a number of the format was shifted by. *)
Lemma aux_shifted sg m e k :
  fexp prec emax (Z.pos (digits2_pos m) + e) = e -> e <= emax - prec ->
  binary_round_aux prec emax sg (Z.pos (shifted m k)) (e - Z.of_nat k) loc_Exact = S754_finite sg m e.
Proof.
  intros Hc He. unfold binary_round_aux, shr_fexp. cbn [Zdigits2 shr_record_of_loc]. rewrite digits_shifted.
  replace (Z.pos (digits2_pos m) + Z.of_nat k + (e - Z.of_nat k)) with (Z.pos (digits2_pos m) + e) by lia.
  rewrite Hc. replace (e - (e - Z.of_nat k)) with (Z.of_nat k) by lia.
  assert (shr (Build_shr_record (Z.pos (shifted m k)) false false) (e - Z.of_nat k) (Z.of_nat k)
    = (Build_shr_record (Z.pos m) false false, e)) as ->.
  { destruct k as [|k]; [cbn [Z.of_nat shr]; rewrite Z.sub_0_r; reflexivity|]. change (Z.of_nat (S k)) with (Z.pos (Pos.of_succ_nat k)) at 2. unfold shr.
    rewrite iter_pos_nat, SuccNat2Pos.id_succ, shr_shifted. f_equal. lia. }
  cbn [loc_of_shr_record shr_m round_nearest_even Zdigits2 shr_record_of_loc]. rewrite Hc, Z.sub_diag. cbn [shr shr_m].
  rewrite (proj2 (Z.leb_le _ _) He). reflexivity.
Qed.

Lemma round_shifted sg m e k :
  fexp prec emax (Z.pos (digits2_pos m) + e) = e -> e <= emax - prec ->
  binary_round prec emax sg (shifted m k) (e - Z.of_nat k) = S754_finite sg m e.
Proof.
  intros Hc He. unfold binary_round. rewrite digits_shifted.
  replace (Z.pos (digits2_pos m) + Z.of_nat k + (e - Z.of_nat k)) with (Z.pos (digits2_pos m) + e) by lia.
  rewrite Hc. unfold shl_align. replace (e - (e - Z.of_nat k)) with (Z.of_nat k) by lia.
  destruct k; cbn [Z.of_nat]; apply (aux_shifted sg m e _ Hc He).
Qed.

(** A number with few digits gets the significand's full length. *)
Lemma round_few sg m e :
  Z.pos (digits2_pos m) <= prec -> emin prec emax <= Z.pos (digits2_pos m) + e - prec ->
  Z.pos (digits2_pos m) + e <= emax ->
  let k := Z.to_nat (prec - Z.pos (digits2_pos m)) in
  binary_round prec emax sg m e = S754_finite sg (shifted m k) (e - Z.of_nat k).
Proof.
  intros Hd Hmin Hmax k. assert (Z.of_nat k = prec - Z.pos (digits2_pos m)) as Hk by (unfold k; lia). clearbody k.
  unfold binary_round. assert (fexp prec emax (Z.pos (digits2_pos m) + e) = e - Z.of_nat k) as -> by (unfold fexp; lia).
  assert (shl_align m e (e - Z.of_nat k) = (shifted m k, e - Z.of_nat k)) as ->.
  { unfold shl_align. replace (e - Z.of_nat k - e) with (- Z.of_nat k) by lia. destruct k as [|k]; [cbn [Z.of_nat Z.opp]; rewrite Z.sub_0_r; reflexivity|].
    change (- Z.of_nat (S k)) with (Z.neg (Pos.of_succ_nat k)). cbv iota. f_equal.
    etransitivity; [apply iter_xO|]. rewrite SuccNat2Pos.id_succ. reflexivity. }
  pose proof (aux_shifted sg (shifted m k) (e - Z.of_nat k) 0) as H. cbn [shifted Nat.iter] in H.
  rewrite Z.sub_0_r in H. apply H; [rewrite digits_shifted; unfold fexp; lia|lia].
Qed.
End round.

(** ** Round trips *)

Lemma narrow_widen x : valid_binary 24 128 x = true -> narrow (widen x) = x.
Proof.
  destruct x as [sg|sg| |sg m e]; try reflexivity. cbn [valid_binary]. unfold bounded, canonical_mantissa.
  intros H. apply andb_prop in H as [Hc He]. apply Z.eqb_eq in Hc. apply Z.leb_le in He.
  assert (Z.pos (digits2_pos m) <= 24 /\ -149 <= e /\ e <= 104) as (Hd & H1 & H2) by (unfold fexp, emin in Hc; lia).
  unfold widen, narrow, round_to. rewrite round_few by (unfold emin; lia).
  apply round_shifted; [exact Hc|exact He].
Qed.

(** The digits of a number, from its size. *)
Lemma digits_bound m n : Z.pos m < 2 ^ Z.of_nat n -> Z.pos (digits2_pos m) <= Z.of_nat n.
Proof.
  revert m. induction n as [|n IH]; intros m H; [cbn in H; lia|]. rewrite Nat2Z.inj_succ, Z.pow_succ_r in H by lia.
  destruct m as [m|m|]; cbn [digits2_pos]; rewrite ?Pos2Z.inj_succ; [| |lia]; specialize (IH m ltac:(lia)); lia.
Qed.

Lemma digits_pow n : Z.pos (digits2_pos (shifted 1 n)) = Z.of_nat n + 1.
Proof. rewrite digits_shifted. cbn. lia. Qed.

Lemma truncate_shifted sg m k :
  truncate (S754_finite sg (shifted m k) (- Z.of_nat k)) = Some (if sg then - Z.pos m else Z.pos m).
Proof.
  cbn [truncate]. assert ((if 0 <=? - Z.of_nat k then Z.pos (shifted m k) * 2 ^ (- Z.of_nat k)
    else Z.pos (shifted m k) / 2 ^ (- - Z.of_nat k)) = Z.pos m) as ->; [|reflexivity].
  rewrite shifted_value, Z.opp_involutive. zcase.
  - assert (k = O) as -> by lia. cbn. lia.
  - apply Z.div_mul. apply Z.pow_nonzero; lia.
Qed.

(** A [long double] holds every [long long]. *)
Lemma truncate_ld_of_int z : - 2 ^ 63 <= z < 2 ^ 63 -> truncate (ld_of_int z) = Some z.
Proof.
  intros Hz. unfold ld_of_int, binary_normalize. change (2 ^ 63) with 9223372036854775808 in Hz.
  destruct z as [|m|m]; [reflexivity|..];
    pose proof (digits_bound m 64 ltac:(change (2 ^ Z.of_nat 64) with 18446744073709551616; lia)) as Hd;
    rewrite round_few by (unfold emin; lia); rewrite Z.sub_0_l; apply truncate_shifted.
Qed.

Lemma to_int_ld bits z : 0 < bits <= 64 -> - 2 ^ (bits - 1) <= z < 2 ^ (bits - 1) -> to_int bits (ld_of_int z) = Some z.
Proof.
  intros Hb Hz. pose proof (Z.pow_le_mono_r 2 (bits - 1) 63 ltac:(lia) ltac:(lia)).
  unfold to_int. rewrite truncate_ld_of_int by lia. cbn [mbind option_bind].
  rewrite (proj2 (Z.leb_le _ _)), (proj2 (Z.ltb_lt _ _)) by lia. reflexivity.
Qed.

Definition all3 {A} (P : A -> Prop) (v : vec3 A) : Prop := P (t_x v) /\ P (t_y v) /\ P (t_z v).

Lemma try3_all {A B} (f : A -> option B) (g : B -> A) v : all3 (fun b => f (g b) = Some b) v -> try3 f (map3 g v) = Some v.
Proof. destruct v as [x y z]. intros (H1 & H2 & H3). unfold try3, map3. cbn in *. rewrite H1, H2, H3. reflexivity. Qed.

(** Nothing is lost when a vector goes through the program: a [Vector]
    made of the floats of a message gives the same floats back (a position that
    is stored and loaded stays where it was), one made of the integers of a
    [Vector3Int], or of a [VectorInt], gives the same integers back, even at the
    ends of their types. *)
Theorem vector_roundtrip :
  (forall v : pb_Vector, all3 (fun x => valid_binary 24 128 x = true) v -> Vector_to_pb (Vector_of_pb v) = v) /\
  (forall v : pb_Vector3Int, all3 (fun z => - 2 ^ 31 <= z < 2 ^ 31) v -> Vector_to_pb3 (Vector_of_pb3 v) = Some v) /\
  (forall v : VectorInt, all3 (fun z => - 2 ^ 63 <= z < 2 ^ 63) v -> VectorInt_of_Vector (Vector_of_VectorInt v) = Some v).
Proof.
  split; [|split].
  - intros [x y z] (H1 & H2 & H3). unfold Vector_to_pb, Vector_of_pb, map3. cbn in *. rewrite !narrow_widen by assumption. reflexivity.
  - intros v (H1 & H2 & H3). apply try3_all. repeat split; apply to_int_ld; lia.
  - intros v (H1 & H2 & H3). apply try3_all. repeat split; apply to_int_ld; lia.
Qed.

Lemma vector_roundtrip_witness :
  let v := mk3 (S754_finite true 14083209 (-13)) (S754_zero false) (S754_finite false 8388609 (-149)) in
  Vector_to_pb (Vector_of_pb v) = v /\
  Vector_to_pb3 (Vector_of_pb3 (mk3 (-2147483648) 0 2147483647)) = Some (mk3 (-2147483648) 0 2147483647) /\
  VectorInt_of_Vector (Vector_of_VectorInt (mk3 (- 2 ^ 63) 1 (2 ^ 63 - 1))) = Some (mk3 (- 2 ^ 63) 1 (2 ^ 63 - 1)).
Proof.
  split; [|split]; [apply (proj1 vector_roundtrip)|apply (proj1 (proj2 vector_roundtrip))|apply (proj2 (proj2 vector_roundtrip))];
    repeat split; vm_compute; try reflexivity; discriminate.
Defined.

(** The largest finite float is out of the range of [int32]. *)
Example far_away : Vector_to_pb3 (Vector_of_pb (mk3 (S754_finite false 16777215 104) (S754_zero false) (S754_zero false))) = None.
Proof. vm_compute. reflexivity. Qed.
