(* ===== verification/Player.v ===== *)
(** * Players

    src/player.cpp: the class [Player].  Avatars and items are nodes of lists: a
    node has a name, and a pointer to an avatar or an item is the name of its
    node, which dangles when the node was erased; [pl_node] is the next name.
    The pointer to a session is one of GameServer.v.  What a constructor does
    not write is what the memory held, the argument [junk].  An operation that
    reads through a dangling or NULL pointer, or through [end()], has no result. *)

From stdpp Require Import gmap.
From Stdlib Require Import SpecFloat.
From S2P Require Import Prelude Account Item Avatar Team Vector.

(** ** The message [PlayerInfo] of src/proto/storage.proto, the fields in use *)
Record PlayerInfo := mkPlayerInfo {
  pp_uid : Z; pp_aid : Z; pp_session_id : Z; pp_session_seed : Z; pp_session_expire_ts : Z; pp_next_guid : Z;
  pp_name : list byte; pp_signature : list byte; pp_pfp : Z; pp_namecard : Z; pp_adventure_rank : Z;
  pp_adventure_exp : Z; pp_world_level : Z; pp_teams : list pb_AvatarTeam; pp_cur_team_id : Z;
  pp_cur_avatar_guid : Z; pp_props : gmap Z Z; pp_scene_id : Z; pp_position : pb_Vector; pp_open_states : list Z }.

(** ** The object *)

Record Player := mkPlayer {
  pl_account : option Account; pl_uid : Z; pl_session : option nat; pl_teams : list AvatarTeam; pl_avatars :
  list (nat * Avatar); pl_inventory : list (nat * Item); pl_curTeamIndex : Z; pl_curAvatar : option nat;
  pl_pos : Vector; pl_scene_id : Z; pl_tpToken : Z; pl_nextGuid : Z; pl_worldLevel : Z; pl_ar : Z; pl_ar_exp :
  Z; pl_name : list byte; pl_signature : list byte; pl_namecard : Z; pl_pfp : Z; pl_props : gmap Z Z;
  pl_openstates : list Z; pl_node : nat }.

(** Setters of single members. *)

Definition setAccount (a : option Account) (pl : Player) : Player :=
  mkPlayer a (pl_uid pl) (pl_session pl) (pl_teams pl) (pl_avatars pl) (pl_inventory pl) (pl_curTeamIndex pl)
    (pl_curAvatar pl) (pl_pos pl) (pl_scene_id pl) (pl_tpToken pl) (pl_nextGuid pl) (pl_worldLevel pl) (pl_ar
    pl) (pl_ar_exp pl) (pl_name pl) (pl_signature pl) (pl_namecard pl) (pl_pfp pl) (pl_props pl) (pl_openstates
    pl) (pl_node pl).

Definition setPlayerUid (u : Z) (pl : Player) : Player :=
  mkPlayer (pl_account pl) u (pl_session pl) (pl_teams pl) (pl_avatars pl) (pl_inventory pl) (pl_curTeamIndex
    pl) (pl_curAvatar pl) (pl_pos pl) (pl_scene_id pl) (pl_tpToken pl) (pl_nextGuid pl) (pl_worldLevel pl)
    (pl_ar pl) (pl_ar_exp pl) (pl_name pl) (pl_signature pl) (pl_namecard pl) (pl_pfp pl) (pl_props pl)
    (pl_openstates pl) (pl_node pl).

Definition setTpToken (t : Z) (pl : Player) : Player :=
  mkPlayer (pl_account pl) (pl_uid pl) (pl_session pl) (pl_teams pl) (pl_avatars pl) (pl_inventory pl)
    (pl_curTeamIndex pl) (pl_curAvatar pl) (pl_pos pl) (pl_scene_id pl) t (pl_nextGuid pl) (pl_worldLevel pl)
    (pl_ar pl) (pl_ar_exp pl) (pl_name pl) (pl_signature pl) (pl_namecard pl) (pl_pfp pl) (pl_props pl)
    (pl_openstates pl) (pl_node pl).

Definition set_teams (l : list AvatarTeam) (pl : Player) : Player :=
  mkPlayer (pl_account pl) (pl_uid pl) (pl_session pl) l (pl_avatars pl) (pl_inventory pl) (pl_curTeamIndex pl)
    (pl_curAvatar pl) (pl_pos pl) (pl_scene_id pl) (pl_tpToken pl) (pl_nextGuid pl) (pl_worldLevel pl) (pl_ar
    pl) (pl_ar_exp pl) (pl_name pl) (pl_signature pl) (pl_namecard pl) (pl_pfp pl) (pl_props pl) (pl_openstates
    pl) (pl_node pl).

Definition set_avatars (l : list (nat * Avatar)) (pl : Player) : Player :=
  mkPlayer (pl_account pl) (pl_uid pl) (pl_session pl) (pl_teams pl) l (pl_inventory pl) (pl_curTeamIndex pl)
    (pl_curAvatar pl) (pl_pos pl) (pl_scene_id pl) (pl_tpToken pl) (pl_nextGuid pl) (pl_worldLevel pl) (pl_ar
    pl) (pl_ar_exp pl) (pl_name pl) (pl_signature pl) (pl_namecard pl) (pl_pfp pl) (pl_props pl) (pl_openstates
    pl) (pl_node pl).

Definition set_inventory (l : list (nat * Item)) (pl : Player) : Player :=
  mkPlayer (pl_account pl) (pl_uid pl) (pl_session pl) (pl_teams pl) (pl_avatars pl) l (pl_curTeamIndex pl)
    (pl_curAvatar pl) (pl_pos pl) (pl_scene_id pl) (pl_tpToken pl) (pl_nextGuid pl) (pl_worldLevel pl) (pl_ar
    pl) (pl_ar_exp pl) (pl_name pl) (pl_signature pl) (pl_namecard pl) (pl_pfp pl) (pl_props pl) (pl_openstates
    pl) (pl_node pl).

Definition set_curTeam (i : Z) (pl : Player) : Player :=
  mkPlayer (pl_account pl) (pl_uid pl) (pl_session pl) (pl_teams pl) (pl_avatars pl) (pl_inventory pl) i
    (pl_curAvatar pl) (pl_pos pl) (pl_scene_id pl) (pl_tpToken pl) (pl_nextGuid pl) (pl_worldLevel pl) (pl_ar
    pl) (pl_ar_exp pl) (pl_name pl) (pl_signature pl) (pl_namecard pl) (pl_pfp pl) (pl_props pl) (pl_openstates
    pl) (pl_node pl).

Definition set_curAvatar (p : option nat) (pl : Player) : Player :=
  mkPlayer (pl_account pl) (pl_uid pl) (pl_session pl) (pl_teams pl) (pl_avatars pl) (pl_inventory pl)
    (pl_curTeamIndex pl) p (pl_pos pl) (pl_scene_id pl) (pl_tpToken pl) (pl_nextGuid pl) (pl_worldLevel pl)
    (pl_ar pl) (pl_ar_exp pl) (pl_name pl) (pl_signature pl) (pl_namecard pl) (pl_pfp pl) (pl_props pl)
    (pl_openstates pl) (pl_node pl).

Definition set_nextGuid (g : Z) (pl : Player) : Player :=
  mkPlayer (pl_account pl) (pl_uid pl) (pl_session pl) (pl_teams pl) (pl_avatars pl) (pl_inventory pl)
    (pl_curTeamIndex pl) (pl_curAvatar pl) (pl_pos pl) (pl_scene_id pl) (pl_tpToken pl) g (pl_worldLevel pl)
    (pl_ar pl) (pl_ar_exp pl) (pl_name pl) (pl_signature pl) (pl_namecard pl) (pl_pfp pl) (pl_props pl)
    (pl_openstates pl) (pl_node pl).

Definition set_ar (v : Z) (pl : Player) : Player :=
  mkPlayer (pl_account pl) (pl_uid pl) (pl_session pl) (pl_teams pl) (pl_avatars pl) (pl_inventory pl)
    (pl_curTeamIndex pl) (pl_curAvatar pl) (pl_pos pl) (pl_scene_id pl) (pl_tpToken pl) (pl_nextGuid pl)
    (pl_worldLevel pl) v (pl_ar_exp pl) (pl_name pl) (pl_signature pl) (pl_namecard pl) (pl_pfp pl) (pl_props
    pl) (pl_openstates pl) (pl_node pl).

Definition set_ar_exp (v : Z) (pl : Player) : Player :=
  mkPlayer (pl_account pl) (pl_uid pl) (pl_session pl) (pl_teams pl) (pl_avatars pl) (pl_inventory pl)
    (pl_curTeamIndex pl) (pl_curAvatar pl) (pl_pos pl) (pl_scene_id pl) (pl_tpToken pl) (pl_nextGuid pl)
    (pl_worldLevel pl) (pl_ar pl) v (pl_name pl) (pl_signature pl) (pl_namecard pl) (pl_pfp pl) (pl_props pl)
    (pl_openstates pl) (pl_node pl).

Definition set_worldLevel (v : Z) (pl : Player) : Player :=
  mkPlayer (pl_account pl) (pl_uid pl) (pl_session pl) (pl_teams pl) (pl_avatars pl) (pl_inventory pl)
    (pl_curTeamIndex pl) (pl_curAvatar pl) (pl_pos pl) (pl_scene_id pl) (pl_tpToken pl) (pl_nextGuid pl) v
    (pl_ar pl) (pl_ar_exp pl) (pl_name pl) (pl_signature pl) (pl_namecard pl) (pl_pfp pl) (pl_props pl)
    (pl_openstates pl) (pl_node pl).

Definition set_props (m : gmap Z Z) (pl : Player) : Player :=
  mkPlayer (pl_account pl) (pl_uid pl) (pl_session pl) (pl_teams pl) (pl_avatars pl) (pl_inventory pl)
    (pl_curTeamIndex pl) (pl_curAvatar pl) (pl_pos pl) (pl_scene_id pl) (pl_tpToken pl) (pl_nextGuid pl)
    (pl_worldLevel pl) (pl_ar pl) (pl_ar_exp pl) (pl_name pl) (pl_signature pl) (pl_namecard pl) (pl_pfp pl) m
    (pl_openstates pl) (pl_node pl).

Definition set_openstates (l : list Z) (pl : Player) : Player :=
  mkPlayer (pl_account pl) (pl_uid pl) (pl_session pl) (pl_teams pl) (pl_avatars pl) (pl_inventory pl)
    (pl_curTeamIndex pl) (pl_curAvatar pl) (pl_pos pl) (pl_scene_id pl) (pl_tpToken pl) (pl_nextGuid pl)
    (pl_worldLevel pl) (pl_ar pl) (pl_ar_exp pl) (pl_name pl) (pl_signature pl) (pl_namecard pl) (pl_pfp pl)
    (pl_props pl) l (pl_node pl).

Definition set_node (n : nat) (pl : Player) : Player :=
  mkPlayer (pl_account pl) (pl_uid pl) (pl_session pl) (pl_teams pl) (pl_avatars pl) (pl_inventory pl)
    (pl_curTeamIndex pl) (pl_curAvatar pl) (pl_pos pl) (pl_scene_id pl) (pl_tpToken pl) (pl_nextGuid pl)
    (pl_worldLevel pl) (pl_ar pl) (pl_ar_exp pl) (pl_name pl) (pl_signature pl) (pl_namecard pl) (pl_pfp pl)
    (pl_props pl) (pl_openstates pl) n.

(** [nextGuid++] *)
Definition bump_guid (pl : Player) : Player := set_nextGuid (u32 (pl_nextGuid pl + 1)) pl.

(** ** Nodes *)

Section nodes.
Context {A : Type}.

(** [for (i = begin; i != end; i++) if (p( *i)) return &( *i); return NULL;] *)
Fixpoint find_node (p : A -> bool) (l : list (nat * A)) : option nat :=
  match l with [] => None | (n, x) :: l => if p x then Some n else find_node p l end.

(** [if (p( *i)) { *i = a; return 0; }] *)
Fixpoint assign_node (p : A -> bool) (a : A) (l : list (nat * A)) : option (list (nat * A)) :=
  match l with
  | [] => None
  | (n, x) :: l => if p x then Some ((n, a) :: l) else l ← assign_node p a l; Some ((n, x) :: l)
  end.

(** [if (p( *i)) { erase(i); return 0; }] *)
Fixpoint erase_node (p : A -> bool) (l : list (nat * A)) : option (list (nat * A)) :=
  match l with
  | [] => None
  | (n, x) :: l => if p x then Some l else l ← erase_node p l; Some ((n, x) :: l)
  end.

(** What is at a pointer. *)
Fixpoint node_at (l : list (nat * A)) (p : nat) : option A :=
  match l with [] => None | (n, x) :: l => if (n =? p)%nat then Some x else node_at l p end.
End nodes.

Definition avatar_at (pl : Player) : nat -> option Avatar := node_at (pl_avatars pl).
Definition items_of (pl : Player) : nat -> option Item := node_at (pl_inventory pl).

(** [push_back] of a copy. *)
Definition push_avatar (a : Avatar) (pl : Player) : Player :=
  set_node (S (pl_node pl)) (set_avatars (pl_avatars pl ++ [(pl_node pl, a)]) pl).
Definition push_item (it : Item) (pl : Player) : Player :=
  set_node (S (pl_node pl)) (set_inventory (pl_inventory pl ++ [(pl_node pl, it)]) pl).

(** ** Open states *)

Fixpoint is_open_state (l : list Z) (state : Z) : bool :=
  match l with [] => false | x :: l => if state =? x then true else is_open_state l state end.

Definition getOpenstate (state : Z) (pl : Player) : Z := if is_open_state (pl_openstates pl) state then 1 else 0.

(** The state without the notification, which NetPlayer.v sends. *)
Definition setOpenstate (state : Z) (pl : Player) : Player :=
  if is_open_state (pl_openstates pl) state then pl else set_openstates (pl_openstates pl ++ [state]) pl.

(** The loop goes on with the iterator it has erased. *)
Definition clearOpenstate (state : Z) (pl : Player) : option Player :=
  if is_open_state (pl_openstates pl) state then None else Some pl.

Definition OPEN_STATE_COND_PLAYER_LEVEL : Z := 0.

(** The two conditions of a state that is not open by default. *)
Fixpoint open_conditions (id : Z) (conds : list (Z * list Z)) (pl : Player) : Player :=
  match conds with
  | [] => pl
  | (type, param) :: conds =>
      let pl := if (type =? OPEN_STATE_COND_PLAYER_LEVEL) && (nth 0 param 0 <=? pl_ar pl)
                then setOpenstate id pl else pl in
      open_conditions id conds pl
  end.

Fixpoint open_states (data : list OpenStateDataEnt) (pl : Player) : Player :=
  match data with
  | [] => pl
  | e :: data =>
      let pl := if negb (os_is_default e =? 0) then setOpenstate (os_id e) pl
                else open_conditions (os_id e) (take 2 (os_openCond e)) pl in
      open_states data pl
  end.

(** [gd]: [globalGameData]. *)
Definition updateOpenstates (gd : option GameData) (pl : Player) : Player :=
  match gd with
  | None => pl
  | Some gd => match openstate_data gd with None => pl | Some data => open_states data pl end
  end.

(** ** Properties *)

Definition PROP_PLAYER_LEVEL : Z := 10013.
Definition PROP_PLAYER_EXP : Z := 10014.
Definition PROP_PLAYER_HCOIN : Z := 10015.
Definition PROP_PLAYER_SCOIN : Z := 10016.
Definition PROP_PLAYER_WORLD_LEVEL : Z := 10019.
Definition PROP_PLAYER_RESIN : Z := 10020.
Definition PROP_PLAYER_MCOIN : Z := 10025.
Definition PROP_PLAYER_LEGENDARY_KEY : Z := 10027.
Definition PROP_PLAYER_LEGENDARY_DAILY_TASK_NUM : Z := 10041.

Definition getProp (p : Z) (pl : Player) : Z :=
  if p =? PROP_PLAYER_LEVEL then pl_ar pl
  else if p =? PROP_PLAYER_EXP then s64 (pl_ar_exp pl)
  else if p =? PROP_PLAYER_WORLD_LEVEL then pl_worldLevel pl
  else default 0 (pl_props pl !! p).

Definition setProp (p v : Z) (pl : Player) : Player :=
  let pl := if p =? PROP_PLAYER_LEVEL then set_ar (u32 v) pl
            else if p =? PROP_PLAYER_EXP then set_ar_exp (u64 v) pl
            else if p =? PROP_PLAYER_WORLD_LEVEL then set_worldLevel (u32 v) pl
            else pl in
  set_props (<[p := v]> (pl_props pl)) pl.

(** The three properties that are members of their own. *)
Definition own_props (pl : Player) (m : gmap Z Z) : gmap Z Z :=
  <[PROP_PLAYER_WORLD_LEVEL := pl_worldLevel pl]>
    (<[PROP_PLAYER_EXP := s64 (pl_ar_exp pl)]> (<[PROP_PLAYER_LEVEL := pl_ar pl]> m)).

(** ** Construction and conversion *)

(** The doubles 2747.562, 194.633 and -1719.386. *)
Definition START_POS : Vector :=
  map3 (round_to 64 16384)
    (mk3 (S754_finite false 6041952734070964 (-41)) (S754_finite false 6848039892765639 (-45))
       (S754_finite true 7561939598541062 (-42))).

(** [Player()] *)
Definition Player_default (gd : option GameData) (junk : Player) : Player :=
  let pl := mkPlayer None (pl_uid junk) None [] [] [] 0 None START_POS 3 0 1 0 1 0 [] [] (pl_namecard junk)
              (pl_pfp junk) ∅ [] 0 in
  let props := list_to_map [(PROP_PLAYER_HCOIN, 0); (PROP_PLAYER_SCOIN, 0); (PROP_PLAYER_MCOIN, 0);
                            (PROP_PLAYER_RESIN, 160); (PROP_PLAYER_LEGENDARY_KEY, 0);
                            (PROP_PLAYER_LEGENDARY_DAILY_TASK_NUM, 0)] in
  updateOpenstates gd (set_props (own_props pl props) pl).

(** [Player(p)]; [account]: [getAccountByAid(p.aid())]; [ctime]: the time;
    [find]: [getSessionById], where NULL is [None] inside. *)
Definition Player_of_info (gd : option GameData) (junk : Player) (account : option Account) (ctime : Z)
    (find : Z -> option (option nat)) (p : PlayerInfo) : option Player :=
  session ← (if pp_session_expire_ts p <? ctime then find (pp_session_id p) else Some None);
  let pl := mkPlayer account (pp_uid p) session [] [] [] (pl_curTeamIndex junk) (pl_curAvatar junk)
              (Vector_of_pb (pp_position p)) (pp_scene_id p) 1 (pp_next_guid p) (pp_world_level p)
              (pp_adventure_rank p) (pp_adventure_exp p) (pp_name p) (pp_signature p) (pp_namecard p) (pp_pfp p)
              ∅ (pp_open_states p) 0 in
  Some (updateOpenstates gd (set_props (own_props pl (pp_props p)) pl)).

(** The properties as they are stored. *)
Definition stored_prop (pl : Player) (p v : Z) : Z :=
  if p =? PROP_PLAYER_LEVEL then pl_ar pl
  else if p =? PROP_PLAYER_EXP then s64 (pl_ar_exp pl)
  else if p =? PROP_PLAYER_WORLD_LEVEL then pl_worldLevel pl
  else v.

Fixpoint teams_to_pb (avatars : nat -> option Avatar) (l : list AvatarTeam) : option (list pb_AvatarTeam) :=
  match l with
  | [] => Some []
  | t :: l => t ← AvatarTeam_to_pb avatars t; l ← teams_to_pb avatars l; Some (t :: l)
  end.

(** [operator PlayerInfo]; [sess]: for a session, its transport's id and its
    seed, [None] inside when it has no transport. *)
Definition Player_to_info (sess : nat -> option (option (Z * Z))) (now : Z) (pl : Player) : option PlayerInfo :=
  s ← match pl_session pl with None => Some None | Some q => sess q end;
  teams ← teams_to_pb (avatar_at pl) (pl_teams pl);
  guid ← match pl_curAvatar pl with None => Some 0 | Some p => a ← avatar_at pl p; Some (av_guid a) end;
  let '(id, seed, expire) := match s with Some (id, seed) => (u32 id, seed, now + 3 * 60 * 60) | None => (0, 0, 0) end in
  Some (mkPlayerInfo (pl_uid pl) (match pl_account pl with Some a => aid a | None => 0 end) id seed expire
    (pl_nextGuid pl) (pl_name pl) (pl_signature pl) (pl_pfp pl) (pl_namecard pl) (pl_ar pl) (pl_ar_exp pl)
    (pl_worldLevel pl) teams (pl_curTeamIndex pl) guid (map_imap (fun p v => Some (stored_prop pl p v)) (pl_props pl))
    (pl_scene_id pl) (Vector_to_pb (pl_pos pl)) (pl_openstates pl)).

(** ** Avatars *)

Definition getAvatarById (id : Z) (pl : Player) : option nat := find_node (fun a => id =? av_id a) (pl_avatars pl).
Definition getAvatarByGuid (guid : Z) (pl : Player) : option nat := find_node (fun a => guid =? av_guid a) (pl_avatars pl).

(** The overload that is not const looks the avatar up again. *)
Definition getCurAvatar (pl : Player) : option (option nat) :=
  p ← pl_curAvatar pl; a ← avatar_at pl p; Some (getAvatarByGuid (av_guid a) pl).

Definition setAvatar (guid : Z) (a : Avatar) (pl : Player) : Z * Avatar * Player :=
  let a := setGuid guid a in
  match assign_node (fun b => guid =? av_guid b) a (pl_avatars pl) with
  | Some l => (0, a, set_avatars l pl)
  | None => (0, a, push_avatar a pl)
  end.

Definition setAvatar_const (guid : Z) (a : Avatar) (pl : Player) : Z * Player :=
  if negb (av_guid a =? guid) then (-1, pl)
  else match assign_node (fun b => guid =? av_guid b) a (pl_avatars pl) with
       | Some l => (0, set_avatars l pl)
       | None => (0, push_avatar a pl)
       end.

Definition updateAvatar (a : Avatar) (pl : Player) : Z * Player :=
  match assign_node (fun b => av_guid a =? av_guid b) a (pl_avatars pl) with
  | Some l => (0, set_avatars l pl)
  | None => (-1, pl)
  end.

(** [addAvatar(a)] for a reference, and for a pointer that is not NULL: the
    object that is given gets a guid. *)
Definition addAvatar (a : Avatar) (pl : Player) : Z * Avatar * Player :=
  let '(a, pl) := if Z.land (av_guid a) 0xffffffff =? 0 then (setGuid (pl_nextGuid pl) a, bump_guid pl) else (a, pl) in
  let a := if getUid a =? 0 then setUid (pl_uid pl) a else a in
  (0, a, push_avatar a pl).

Definition addAvatar_const (a : Avatar) (pl : Player) : Z * Player := (0, push_avatar a pl).

(** [addAvatar(&p)] and [addAvatar(id, &p)]: when the argument is not NULL the
    new avatar is read through [end()]. *)
Definition addAvatar_new (p : bool) (pl : Player) : option (Z * Player) := if p then None else Some (-1, pl).

Definition delAvatar_by (p : Avatar -> bool) (pl : Player) : Z * Player :=
  match erase_node p (pl_avatars pl) with Some l => (0, set_avatars l pl) | None => (-1, pl) end.

Definition delAvatar_id (id : Z) : Player -> Z * Player := delAvatar_by (fun a => id =? av_id a).
Definition delAvatar_guid (guid : Z) : Player -> Z * Player := delAvatar_by (fun a => guid =? av_guid a).

Definition delAvatar (p : option nat) (pl : Player) : option (Z * Player) :=
  match p with
  | None => Some (0, pl)
  | Some p =>
      match pl_avatars pl with
      | [] => Some (-1, pl)
      | _ => a ← avatar_at pl p; Some (delAvatar_by (fun b => av_guid a =? av_guid b) pl)
      end
  end.

Definition swapToAvatar (p : option nat) (pl : Player) : Z * Player :=
  match p with None => (-1, pl) | Some p => (0, set_curAvatar (Some p) pl) end.

Definition swapToAvatar_id (id : Z) (pl : Player) : Z * Player := swapToAvatar (getAvatarById id pl) pl.
Definition swapToAvatar_guid (guid : Z) (pl : Player) : Z * Player := swapToAvatar (getAvatarByGuid guid pl) pl.

(** ** Teams

    A pointer to a team of the player is its place in the list. *)

Definition getAvatarTeam (i : Z) (pl : Player) : option nat :=
  if zlen (pl_teams pl) <=? i then None else Some (Z.to_nat i).

Definition getCurAvatarTeam (pl : Player) : option nat := getAvatarTeam (pl_curTeamIndex pl) pl.

Definition swapToTeam (i : Z) (pl : Player) : Z * Player :=
  if zlen (pl_teams pl) <=? i then (-1, pl) else (s32 (pl_curTeamIndex pl), set_curTeam i pl).

(** [swapToTeam(team)]: [own] is the place of [team] when it is one of the
    player's, and [t] what is there. *)
Fixpoint find_team (avatars : nat -> option Avatar) (own : option nat) (t : AvatarTeam) (l : list AvatarTeam) (i : nat)
  : option (option nat) :=
  match l with
  | [] => Some None
  | u :: l =>
      if bool_decide (own = Some i) then Some (Some i)
      else
        same ← team_eq avatars t u;
        if same : bool then Some (Some i) else find_team avatars own t l (S i)
  end.

Definition swapToTeam_ptr (own : option nat) (t : AvatarTeam) (pl : Player) : option (Z * Player) :=
  i ← find_team (avatar_at pl) own t (pl_teams pl) 0;
  match i with
  | Some i => Some (s32 (pl_curTeamIndex pl), set_curTeam (Z.of_nat i) pl)
  | None => Some (-1, pl)
  end.

Definition NEW_TEAM : list byte :=
  [Byte.x4e; Byte.x65; Byte.x77; Byte.x20; Byte.x54; Byte.x65; Byte.x61; Byte.x6d].

Definition addAvatarTeam_named (name : list byte) (pl : Player) : Z * Player :=
  (0, set_teams (pl_teams pl ++ [setName name new_AvatarTeam]) pl).

Definition addAvatarTeam_new : Player -> Z * Player := addAvatarTeam_named NEW_TEAM.

Definition addAvatarTeam (t : option AvatarTeam) (pl : Player) : Z * Player :=
  match t with None => (-1, pl) | Some t => (0, set_teams (pl_teams pl ++ [t]) pl) end.

Definition addAvatarTeam_of (name : list byte) (avatars : list (option nat)) (pl : Player) : Z * Player :=
  (0, set_teams (pl_teams pl ++ [setAvatars avatars (setName name new_AvatarTeam)]) pl).

(** [None]: a NULL team is copied. *)
Definition setAvatarTeam (t : option AvatarTeam) (idx : Z) (pl : Player) : option (Z * Player) :=
  if zlen (pl_teams pl) <=? idx then Some (-1, pl)
  else t ← t; Some (0, set_teams (<[Z.to_nat idx := t]> (pl_teams pl)) pl).

Definition setAvatarTeam_of (name : list byte) (avatars : list (option nat)) (idx : Z) (pl : Player) : Z * Player :=
  if zlen (pl_teams pl) <=? idx then (-1, pl)
  else (0, set_teams (<[Z.to_nat idx := setAvatars avatars (setName name new_AvatarTeam)]> (pl_teams pl)) pl).

Definition delAvatarTeam (idx : Z) (pl : Player) : Z * Player :=
  if zlen (pl_teams pl) <=? idx then (-1, pl)
  else (0, set_teams (take (Z.to_nat idx) (pl_teams pl) ++ drop (S (Z.to_nat idx)) (pl_teams pl)) pl).

(** [addAvatarToTeam(av, team)] and [removeAvatarFromTeam(av, team)] for a
    team, [None] for NULL. *)
Definition addAvatarToTeam (av : option nat) (team : option AvatarTeam) (pl : Player)
  : option (Z * option AvatarTeam) :=
  match team with
  | None => Some (-1, None)
  | Some t => '(r, t) ← team_addAvatar (avatar_at pl) av t; Some (r, Some t)
  end.

Definition removeAvatarFromTeam (av : option nat) (team : option AvatarTeam) (pl : Player)
  : option (Z * option AvatarTeam) :=
  match team with
  | None => Some (0, None)
  | Some t => t ← team_delAvatar (avatar_at pl) av t; Some (0, Some t)
  end.

(** The overloads without a team. *)
Definition on_cur_team (f : option AvatarTeam -> Player -> option (Z * option AvatarTeam)) (pl : Player)
  : option (Z * Player) :=
  match getCurAvatarTeam pl with
  | None => '(r, _) ← f None pl; Some (r, pl)
  | Some i =>
      '(r, t) ← f (pl_teams pl !! i) pl;
      Some (r, match t with Some t => set_teams (<[i := t]> (pl_teams pl)) pl | None => pl end)
  end.

Definition addAvatarToCurTeam (av : option nat) : Player -> option (Z * Player) := on_cur_team (addAvatarToTeam av).
Definition removeAvatarFromCurTeam (av : option nat) : Player -> option (Z * Player) :=
  on_cur_team (removeAvatarFromTeam av).

(** ** Items *)

Definition getItemById (id : Z) (pl : Player) : option nat := find_node (fun it => id =? it_id it) (pl_inventory pl).
Definition getItemByGuid (guid : Z) (pl : Player) : option nat := getItemByGuid_in (pl_inventory pl) guid.

Definition set_item_guid (g : Z) (it : Item) : Item := mkItem (it_id it) (it_type it) g (it_data it).

Definition setItem (guid : Z) (it : Item) (pl : Player) : Z * Item * Player :=
  let it := set_item_guid guid it in
  match assign_node (fun b => guid =? it_guid b) it (pl_inventory pl) with
  | Some l => (0, it, set_inventory l pl)
  | None => (0, it, push_item it pl)
  end.

Definition setItem_const (guid : Z) (it : Item) (pl : Player) : Z * Player :=
  if negb (it_guid it =? guid) then (-1, pl)
  else match assign_node (fun b => guid =? it_guid b) it (pl_inventory pl) with
       | Some l => (0, set_inventory l pl)
       | None => (0, push_item it pl)
       end.

Definition updateItem (it : Item) (pl : Player) : Z * Player :=
  match assign_node (fun b => it_guid it =? it_guid b) it (pl_inventory pl) with
  | Some l => (0, set_inventory l pl)
  | None => (-1, pl)
  end.

Definition addItem (it : Item) (pl : Player) : Z * Item * Player :=
  let it := if Z.shiftr (it_guid it) 32 =? 0 then set_item_guid (u64 (Z.shiftl (pl_uid pl) 32)) it else it in
  let '(it, pl) := if Z.land (it_guid it) 0xffffffff =? 0
                   then (set_item_guid (Z.lor (it_guid it) (pl_nextGuid pl)) it, bump_guid pl) else (it, pl) in
  (0, it, push_item it pl).

Definition addItem_const (it : Item) (pl : Player) : Z * Player := (0, push_item it pl).

(** [addItem(&p)] and [addItem(id, &p)]: as for avatars. *)
Definition addItem_new (p : bool) (pl : Player) : option (Z * Player) := if p then None else Some (-1, pl).

Definition delItem_by (p : Item -> bool) (pl : Player) : Z * Player :=
  match erase_node p (pl_inventory pl) with Some l => (0, set_inventory l pl) | None => (-1, pl) end.

Definition delItem_id (id : Z) : Player -> Z * Player := delItem_by (fun it => id =? it_id it).
Definition delItem_guid (guid : Z) : Player -> Z * Player := delItem_by (fun it => guid =? it_guid it).

Definition delItem (p : option nat) (pl : Player) : option (Z * Player) :=
  match p with
  | None => Some (0, pl)
  | Some p =>
      match pl_inventory pl with
      | [] => Some (-1, pl)
      | _ => it ← items_of pl p; Some (delItem_by (fun b => it_guid it =? it_guid b) pl)
      end
  end.
