(* ===== verification/PlayerDb.v ===== *)
(** * Players and their belongings in the database

    The rest of src/dbgate.cpp, and the members of src/player.cpp and
    src/avatar.cpp that call it.  What the program reads of its surroundings is
    the [World]: the store, the outcome of the next writes to it (they succeed
    once [w_puts] is used up), the clock, the bytes [getrandom] returns, the
    static generator of src/mt19937-64.c, and what fresh memory holds.  The
    clock stands still while a step of a thread runs. *)

From stdpp Require Import gmap sorting.
From S2P Require Import Prelude Mt64 Account DbGate Item Avatar Team Vector Player.

Record World := mkWorld {
  w_db : dbGate; w_puts : list bool; w_time : Z; w_ms : Z; w_random : Z; w_mt : mt_state;
  w_junk : Player; w_junk_avatar : Avatar; w_junk_item : Item; w_junk_time : Z }.

Definition set_db (d : dbGate) (w : World) : World :=
  mkWorld d (w_puts w) (w_time w) (w_ms w) (w_random w) (w_mt w) (w_junk w) (w_junk_avatar w) (w_junk_item w) (w_junk_time w).

Definition set_mt (m : mt_state) (w : World) : World :=
  mkWorld (w_db w) (w_puts w) (w_time w) (w_ms w) (w_random w) m (w_junk w) (w_junk_avatar w) (w_junk_item w) (w_junk_time w).

Definition pop_put (w : World) : World :=
  mkWorld (w_db w) (tl (w_puts w)) (w_time w) (w_ms w) (w_random w) (w_mt w) (w_junk w) (w_junk_avatar w) (w_junk_item w) (w_junk_time w).

(** A write. *)
Definition wput (f : bool -> dbGate -> Z * dbGate) (w : World) : Z * World :=
  let '(r, d) := f (default true (head (w_puts w))) (w_db w) in (r, set_db d (pop_put w)).

(** The message [InventoryEntry] of src/proto/storage.proto. *)
Inductive InventoryEntry := ie_avatar (a : pb_AvatarInfo) | ie_item (i : pb_Item) | ie_none.

#[export] Instance InventoryEntry_default : MsgDefault InventoryEntry := ie_none.

#[export] Instance PlayerInfo_default : MsgDefault PlayerInfo :=
  mkPlayerInfo 0 0 0 0 0 0 [] [] 0 0 0 0 0 [] 0 0 ∅ 0
    (mk3 (SpecFloat.S754_zero false) (SpecFloat.S754_zero false) (SpecFloat.S754_zero false)) [].

(** The message [Item] with nothing set. *)
Definition no_item : pb_Item := mkPbItem 0 0 pb_nothing.

(** ** The inventory *)
Section inventory.
Context `{MsgCodec InventoryEntry}.

(** [None]: NULL. *)
Definition getInventoryEntry (guid : Z) (d : dbGate) : option InventoryEntry :=
  let val := getLdbObject (guid_key guid) d in
  if decide (val = []) then None else parse_from val.

(** [None]: the assertion fails. *)
Definition setInventoryEntry (ok : bool) (ent : InventoryEntry) (d : dbGate) : option (Z * dbGate) :=
  guid ← match ent with ie_avatar a => Some (pa_guid a) | ie_item i => Some (pi_guid i) | ie_none => None end;
  Some (match serialize ent with
        | None => (-1, d)
        | Some val => setLdbObject ok (guid_key guid) val d
        end).

(** The first [None]: [ent] is NULL and is read; the inner one: NULL is
    returned. *)
Definition getAvatarPbByGuid (guid : Z) (d : dbGate) : option (option pb_AvatarInfo) :=
  ent ← getInventoryEntry guid d; Some (match ent with ie_avatar a => Some a | _ => None end).

(** It asks whether the entry is an avatar. *)
Definition getItemPbByGuid (guid : Z) (d : dbGate) : option (option pb_Item) :=
  ent ← getInventoryEntry guid d; Some (match ent with ie_avatar _ => Some no_item | _ => None end).

Definition db_getAvatarByGuid (gd : option GameData) (junk : Avatar) (guid : Z) (d : dbGate) : option (option Avatar) :=
  v ← getAvatarPbByGuid guid d;
  match v with None => Some None | Some v => a ← Avatar_of_pb gd junk v; Some (Some a) end.

Definition db_getItemByGuid (junk : Item) (junk_time guid : Z) (d : dbGate) : option (option Item) :=
  v ← getItemPbByGuid guid d;
  match v with None => Some None | Some v => it ← Item_of_pb junk junk_time v; Some (Some it) end.

Definition saveAvatar_pb (a : pb_AvatarInfo) (w : World) : Z * World :=
  wput (fun ok d => default (-1, d) (setInventoryEntry ok (ie_avatar a) d)) w.

Definition saveItem_pb (i : pb_Item) (w : World) : Z * World :=
  wput (fun ok d => default (-1, d) (setInventoryEntry ok (ie_item i) d)) w.

(** [None]: the object cannot be converted. *)
Definition saveAvatar (items : nat -> option Item) (a : Avatar) (w : World) : option (Z * World) :=
  a ← Avatar_to_pb items a; Some (saveAvatar_pb a w).

Definition saveItem (it : Item) (w : World) : option (Z * World) :=
  i ← Item_to_pb it; Some (saveItem_pb i w).

Definition deleteByGuid (guid : Z) : World -> Z * World := wput (fun ok d => delLdbObject ok (guid_key guid) d).
Definition deleteAvatar (a : Avatar) : World -> Z * World := deleteByGuid (av_guid a).
Definition deleteItem (it : Item) : World -> Z * World := deleteByGuid (it_guid it).

(** [Avatar::loadFromDb] *)
Definition avatar_loadFromDb (gd : option GameData) (guid : Z) (a : Avatar) (w : World) : option (Z * Avatar) :=
  n ← db_getAvatarByGuid gd (w_junk_avatar w) guid (w_db w);
  Some (match n with None => (-1, a) | Some n => (0, n) end).

(** [Player::saveInventoryAndAvatars] *)
Fixpoint save_avatars (items : nat -> option Item) (l : list (nat * Avatar)) (w : World) : option World :=
  match l with [] => Some w | (_, a) :: l => '(_, w) ← saveAvatar items a w; save_avatars items l w end.

Fixpoint save_items (l : list (nat * Item)) (w : World) : option World :=
  match l with [] => Some w | (_, it) :: l => '(_, w) ← saveItem it w; save_items l w end.

Definition saveInventoryAndAvatars (pl : Player) (w : World) : option (Z * World) :=
  w ← save_avatars (items_of pl) (pl_avatars pl) w;
  w ← save_items (pl_inventory pl) w;
  Some (0, w).

(** [Player::loadInventoryAndAvatars]: the guids from [i] on, [n] of them. *)
Fixpoint load_guids (gd : option GameData) (n : nat) (i : Z) (w : World) (pl : Player) : option Player :=
  match n with
  | O => Some pl
  | S n =>
      pl ← match getInventoryEntry (Z.lor (u64 (Z.shiftl (pl_uid pl) 32)) i) (w_db w) with
           | Some (ie_avatar a) => a ← Avatar_of_pb gd (w_junk_avatar w) a; Some (addAvatar_const a pl).2
           | Some (ie_item it) => it ← Item_of_pb (w_junk_item w) (w_junk_time w) it; Some (addItem_const it pl).2
           | Some ie_none | None => Some pl
           end;
      load_guids gd n (i + 1) w pl
  end.

Definition loadInventoryAndAvatars (gd : option GameData) (w : World) (pl : Player) : option (Z * Player) :=
  pl ← load_guids gd (Z.to_nat (pl_nextGuid pl)) 0 w pl; Some (0, pl).
End inventory.

(** ** Players *)
Section players.
Context `{MsgCodec AccountInfo} `{MsgCodec NextIdInfo} `{MsgCodec PlayerInfo} `{MsgCodec InventoryEntry}.

(** [globalGameData]; [getSessionById]; the session at a pointer. *)
Variable gd : option GameData.
Variable find : Z -> option (option nat).
Variable sess : nat -> option (option (Z * Z)).

(** [new Player(p)] *)
Definition player_of (p : PlayerInfo) (w : World) : option Player :=
  Player_of_info gd (w_junk w) (getAccountByAid (pp_aid p) (w_db w)) (w_time w) find p.

(** The [option] inside is NULL. *)
Definition getPlayerByAid (id : Z) (w : World) : option (option Player) :=
  r ← search PLAYER (fun p => pp_aid p =? id) (entries (w_db w));
  match r with None => Some None | Some p => pl ← player_of p w; Some (Some pl) end.

Definition getPlayerByAccount (a : Account) : World -> option (option Player) := getPlayerByAid (aid a).

Definition getPlayerByUid (uid : Z) (w : World) : option (option Player) :=
  let val := getLdbObject (id_key PLAYER uid) (w_db w) in
  if decide (val = []) then Some None
  else match parse_from val with
       | None => Some None
       | Some p => pl ← player_of p w; Some (Some pl)
       end.

Definition getAccountByUid (uid : Z) (w : World) : option (option Account) :=
  pl ← getPlayerByUid uid w; Some (pl ← pl; pl_account pl).

(** [None]: the player cannot be converted. *)
Definition savePlayer (pl : Player) (w : World) : option (Z * World) :=
  p ← Player_to_info sess (w_time w) pl;
  match serialize p with
  | None => Some (-1, w)
  | Some val => Some (wput (fun ok d => setLdbObject ok (id_key PLAYER (pl_uid pl)) val d) w)
  end.

Definition deletePlayer (pl : Player) : World -> Z * World :=
  wput (fun ok d => delLdbObject ok (id_key PLAYER (pl_uid pl)) d).

Definition set_next_uid (i : Z) (n : NextIdInfo) : NextIdInfo := mkNextIds (next_aid n) i (next_gacha n) (next_mail n).

Definition newPlayer (w : World) : option (Player * World) :=
  let d := w_db w in
  let first := if next_uid (next_ids d) =? 0 then 1 else next_uid (next_ids d) in
  i ← free_id (id_fuel d) PLAYER first d;
  let w := set_db (set_next_ids (set_next_uid i (next_ids d)) d) w in
  let pl := setPlayerUid i (Player_default gd (w_junk w)) in
  '(_, w) ← savePlayer pl w;
  let '(_, w) := wput save w in
  Some (pl, w).

(** [Player::saveToDb], which the destructor calls. *)
Definition saveToDb (pl : Player) (w : World) : option (Z * World) :=
  '(_, w) ← saveInventoryAndAvatars pl w; savePlayer pl w.

(** [Player::loadFromDb]: the loaded object is copied and deleted. *)
Definition player_loadFromDb (uid : Z) (pl : Player) (w : World) : option (Z * Player * World) :=
  n ← getPlayerByUid uid w;
  match n with
  | None => Some (-1, pl, w)
  | Some n => '(_, w) ← saveToDb n w; Some (0, n, w)
  end.
End players.
