(* ===== verification/PlayerFacts.v ===== *)
(** * Players: what can be saved

    The destructor of a player saves it, and fails when a pointer it follows
    dangles.  [savable] is what keeps it from that; every operation of the
    login keeps it. *)

From stdpp Require Import gmap.
From S2P Require Import Prelude Mt64 Account DbGate DbProps Item Avatar Team Vector Player PlayerDb.

(** ** Nodes *)
Section nodes.
Context {A : Type}.
Implicit Types l : list (nat * A).

Lemma node_at_app l m p x : node_at l p = Some x -> node_at (l ++ m) p = Some x.
Proof. induction l as [|[n y] l IH]; [discriminate|]. cbn [node_at app]. destruct (n =? p)%nat; auto. Qed.

Lemma node_at_elem l n x : (n, x) ∈ l -> is_Some (node_at l n).
Proof.
  induction l as [|[m y] l IH]; [intros H; inversion H|]. cbn [node_at]. destruct (Nat.eqb_spec m n); [eauto|].
  intros H. apply elem_of_cons in H as [E|H]; [congruence|auto].
Qed.

Lemma node_at_in l n x : node_at l n = Some x -> (n, x) ∈ l.
Proof.
  induction l as [|[m y] l IH]; [discriminate|]. cbn [node_at]. destruct (Nat.eqb_spec m n) as [->|].
  - intros E. injection E as ->. left.
  - intros E. right. auto.
Qed.

Lemma find_node_some q l n : find_node q l = Some n -> exists x, (n, x) ∈ l /\ q x = true.
Proof.
  induction l as [|[m y] l IH]; [discriminate|]. cbn [find_node]. destruct (q y) eqn:E.
  - intros H. injection H as ->. exists y. split; [left|exact E].
  - intros H. destruct (IH H) as (x & Hx & Hq). exists x. split; [right; exact Hx|exact Hq].
Qed.

Lemma find_node_live q l n : find_node q l = Some n -> is_Some (node_at l n).
Proof. intros H. apply find_node_some in H as (x & H & _). exact (node_at_elem _ _ _ H). Qed.
End nodes.

(** ** Savable players *)

Definition team_live (avatars : nat -> option Avatar) (t : AvatarTeam) : Prop :=
  Forall (fun x : option nat => forall p, x = Some p -> is_Some (avatars p)) (t_avatars t).

Record savable (pl : Player) : Prop := {
  sv_session : pl_session pl = None;
  sv_avatars : Forall (fun e => is_Some (Avatar_to_pb (items_of pl) e.2)) (pl_avatars pl);
  sv_items : Forall (fun e => is_Some (Item_to_pb e.2)) (pl_inventory pl);
  sv_teams : Forall (team_live (avatar_at pl)) (pl_teams pl);
  sv_current : forall p, pl_curAvatar pl = Some p -> is_Some (avatar_at pl p)
}.

(** The members it is about, and the account. *)
Definition same_things (pl pl' : Player) : Prop :=
  pl_session pl' = pl_session pl /\ pl_avatars pl' = pl_avatars pl /\ pl_inventory pl' = pl_inventory pl /\
  pl_teams pl' = pl_teams pl /\ pl_curAvatar pl' = pl_curAvatar pl /\ pl_account pl' = pl_account pl.

Lemma same_savable pl pl' : same_things pl pl' -> savable pl -> savable pl'.
Proof.
  intros (E1 & E2 & E3 & E4 & E5 & _) []. constructor; unfold avatar_at, items_of in *;
    rewrite ?E1, ?E2, ?E3, ?E4, ?E5; assumption.
Qed.

Lemma account_savable a pl : savable pl -> savable (setAccount a pl).
Proof. intros []. constructor; assumption. Qed.

Lemma same_refl pl : same_things pl pl.
Proof. repeat split. Qed.

Lemma things_trans a b c : same_things a b -> same_things b c -> same_things a c.
Proof. unfold same_things. intros (? & ? & ? & ? & ? & ?) (? & ? & ? & ? & ? & ?). repeat split; congruence. Qed.

Lemma open_state_spec l i : (is_open_state l i = true) <-> (i ∈ l).
Proof.
  induction l as [|x l IH]; cbn [is_open_state]; [split; [discriminate|intros H; inversion H]|].
  rewrite elem_of_cons. destruct (Z.eqb_spec i x); [tauto|]. rewrite IH. tauto.
Qed.

(** Open states are only added, each once, at the end. *)
Definition opened (P : Z -> Prop) (pl pl' : Player) : Prop :=
  exists l, pl' = set_openstates (pl_openstates pl ++ l) pl /\ NoDup l /\
    forall i, (i ∈ l) <-> (i ∉ pl_openstates pl) /\ P i.

Lemma opened_none (P : Z -> Prop) pl : (forall i, ~ P i) -> opened P pl pl.
Proof.
  intros HP. exists []. rewrite app_nil_r. split; [destruct pl; reflexivity|]. split; [constructor|].
  intros i. split; [intros H; inversion H|intros [_ H]; destruct (HP i H)].
Qed.

Lemma opened_trans (P Q : Z -> Prop) a b c : opened P a b -> opened Q b c -> opened (fun i => P i \/ Q i) a c.
Proof.
  intros (l & -> & Nl & Hl) (m & -> & Nm & Hm). cbn [set_openstates pl_openstates] in Hm.
  exists (l ++ m). split; [cbn; rewrite app_assoc; reflexivity|]. split.
  - apply NoDup_app. split; [exact Nl|]. split; [|exact Nm]. intros i Hi Hi'. apply Hm in Hi' as [Hn _].
    apply Hn. apply elem_of_app. auto.
  - intros i. rewrite elem_of_app, Hl, Hm, elem_of_app, Hl. split; [tauto|]. intros [Hn [HP|HQ]]; [tauto|].
    destruct (decide (i ∈ l)) as [Hi|Hi]; [apply Hl in Hi; tauto|]. right. rewrite Hl in Hi. tauto.
Qed.

Lemma opened_iff (P Q : Z -> Prop) a b : (forall i, P i <-> Q i) -> opened P a b -> opened Q a b.
Proof. intros HPQ (l & E & N & H). exists l. split; [exact E|]. split; [exact N|]. intros i. rewrite H, HPQ. tauto. Qed.

Lemma setOpenstate_opened i pl : opened (eq i) pl (setOpenstate i pl).
Proof.
  unfold setOpenstate. destruct (is_open_state _ i) eqn:E.
  - apply open_state_spec in E. exists []. rewrite app_nil_r. split; [destruct pl; reflexivity|]. split; [constructor|].
    intros j. split; [intros H; inversion H|intros [Hn <-]; contradiction].
  - assert (i ∉ pl_openstates pl) as Hn by (rewrite <- open_state_spec; congruence).
    exists [i]. split; [reflexivity|]. split; [apply NoDup_singleton|]. intros j. rewrite list_elem_of_singleton.
    split; [intros ->; auto|intros [_ <-]; reflexivity].
Qed.

(** One of the two conditions holds at the level the player has. *)
Definition level_reached (ar : Z) (conds : list (Z * list Z)) : Prop :=
  Exists (fun c => c.1 = OPEN_STATE_COND_PLAYER_LEVEL /\ nth 0 c.2 0 <= ar) conds.

Lemma conditions_opened id conds pl :
  opened (fun i => id = i /\ level_reached (pl_ar pl) conds) pl (open_conditions id conds pl).
Proof.
  revert pl. induction conds as [|[ty ps] conds IH]; intros pl; cbn [open_conditions].
  { apply opened_none. intros i [_ H]. inversion H. }
  cbv zeta. set (pl1 := if _ && _ then _ else pl).
  assert (opened (fun i => id = i /\ (ty = OPEN_STATE_COND_PLAYER_LEVEL /\ nth 0 ps 0 <= pl_ar pl)) pl pl1) as H1.
  { unfold pl1. destruct (Z.eqb_spec ty OPEN_STATE_COND_PLAYER_LEVEL), (Z.leb_spec (nth 0 ps 0) (pl_ar pl)); cbn [andb].
    - eapply opened_iff; [|apply setOpenstate_opened]. intros i. cbn. tauto.
    - apply opened_none. intros i. lia.
    - apply opened_none. intros i. tauto.
    - apply opened_none. intros i. tauto. }
  assert (pl_ar pl1 = pl_ar pl) as Har by (destruct H1 as (l & -> & _); reflexivity).
  specialize (IH pl1). rewrite Har in IH. eapply opened_iff; [|exact (opened_trans _ _ _ _ _ H1 IH)].
  intros i. cbn beta. unfold level_reached. rewrite Exists_cons. cbn [fst snd]. tauto.
Qed.

(** What a row of the table asks for. *)
Definition opens (ar : Z) (e : OpenStateDataEnt) : Prop :=
  os_is_default e <> 0 \/ level_reached ar (take 2 (os_openCond e)).

Lemma open_states_opened data pl :
  opened (fun i => Exists (fun e => os_id e = i /\ opens (pl_ar pl) e) data) pl (open_states data pl).
Proof.
  revert pl. induction data as [|e data IH]; intros pl; cbn [open_states].
  { apply opened_none. intros i H. inversion H. }
  cbv zeta. set (pl1 := if negb _ then _ else _).
  assert (opened (fun i => os_id e = i /\ opens (pl_ar pl) e) pl pl1) as H1.
  { unfold pl1, opens. destruct (Z.eqb_spec (os_is_default e) 0); cbn [negb].
    - eapply opened_iff; [|apply conditions_opened]. intros i. cbn beta. tauto.
    - eapply opened_iff; [|apply setOpenstate_opened]. intros i. cbn beta. tauto. }
  assert (pl_ar pl1 = pl_ar pl) as Har by (destruct H1 as (l & -> & _); reflexivity).
  specialize (IH pl1). rewrite Har in IH. eapply opened_iff; [|exact (opened_trans _ _ _ _ _ H1 IH)].
  intros i. cbn beta. rewrite Exists_cons. tauto.
Qed.

(** The rows of the table, when there is one. *)
Definition open_table (gd : option GameData) : list OpenStateDataEnt :=
  default [] (d ← gd; openstate_data d).

Lemma updateOpenstates_opened gd pl :
  opened (fun i => Exists (fun e => os_id e = i /\ opens (pl_ar pl) e) (open_table gd)) pl (updateOpenstates gd pl).
Proof.
  unfold updateOpenstates, open_table. destruct gd as [gd|]; [|apply opened_none; intros i H; inversion H].
  cbn [mbind option_bind]. destruct (openstate_data gd) as [l|]; [apply open_states_opened|].
  apply opened_none. intros i H. inversion H.
Qed.

Lemma updateOpenstates_shape gd pl : exists l, updateOpenstates gd pl = set_openstates l pl.
Proof. destruct (updateOpenstates_opened gd pl) as (l & E & _). eauto. Qed.

Lemma updateOpenstates_same gd pl : same_things pl (updateOpenstates gd pl).
Proof. destruct (updateOpenstates_shape gd pl) as [l ->]. repeat split. Qed.

Lemma updateOpenstates_uid gd pl : pl_uid (updateOpenstates gd pl) = pl_uid pl.
Proof. destruct (updateOpenstates_shape gd pl) as [l ->]. reflexivity. Qed.

(** *** A player without things *)
Lemma bare_savable pl :
  pl_session pl = None -> pl_avatars pl = [] -> pl_inventory pl = [] -> pl_teams pl = [] -> pl_curAvatar pl = None ->
  savable pl.
Proof. intros H1 H2 H3 H4 H5. constructor; rewrite ?H2, ?H3, ?H4; [exact H1|constructor..|congruence]. Qed.

Lemma default_savable gd junk : savable (Player_default gd junk).
Proof.
  unfold Player_default. cbv zeta. eapply same_savable; [apply updateOpenstates_same|]. apply bare_savable; reflexivity.
Qed.

(** What is loaded has no things; the pointer to an avatar is not written. *)
Lemma info_savable gd junk a now find p pl :
  pl_curAvatar junk = None -> (forall x, find (pp_session_id p) = Some x -> x = None) ->
  Player_of_info gd junk a now find p = Some pl -> savable pl.
Proof.
  intros Hj Hf. unfold Player_of_info. destruct (if _ <? now then _ else _) as [x|] eqn:E; [|discriminate].
  cbn [mbind option_bind]. cbv zeta. intros H. injection H as <-.
  eapply same_savable; [apply updateOpenstates_same|]. apply bare_savable; cbn; try reflexivity; [|exact Hj].
  destruct (_ <? now); [exact (Hf x E)|congruence].
Qed.

(** ** More things *)

Lemma equip_list_mono (f f' : nat -> option Item) l gs :
  (forall p x, f p = Some x -> f' p = Some x) -> equip_list f l = Some gs -> equip_list f' l = Some gs.
Proof.
  intros Hf. revert gs. induction l as [|[p|] l IH]; intros gs; cbn [equip_list]; [auto| |apply IH].
  destruct (f p) as [x|] eqn:E; [|discriminate]. rewrite (Hf p x E). cbn [mbind option_bind].
  destruct (equip_list f l) as [r|] eqn:E2; [|discriminate]. rewrite (IH r eq_refl). auto.
Qed.

Lemma to_pb_mono (f f' : nat -> option Item) a :
  (forall p x, f p = Some x -> f' p = Some x) -> is_Some (Avatar_to_pb f a) -> is_Some (Avatar_to_pb f' a).
Proof.
  intros Hf. unfold Avatar_to_pb. destruct (equip_list f _) as [gs|] eqn:E; [|intros [? H]; discriminate H].
  rewrite (equip_list_mono f f' _ gs Hf E). auto.
Qed.

Lemma items_push it pl p x : items_of pl p = Some x -> items_of (push_item it pl) p = Some x.
Proof. apply node_at_app. Qed.

Lemma avatars_push a pl p : is_Some (avatar_at pl p) -> is_Some (avatar_at (push_avatar a pl) p).
Proof. intros [x E]. exists x. exact (node_at_app _ _ _ _ E). Qed.

Lemma team_live_mono (f f' : nat -> option Avatar) t :
  (forall p, is_Some (f p) -> is_Some (f' p)) -> team_live f t -> team_live f' t.
Proof. intros Hf H. eapply Forall_impl; [exact H|]. cbv beta. eauto. Qed.

Lemma push_item_savable it pl : is_Some (Item_to_pb it) -> savable pl -> savable (push_item it pl).
Proof.
  intros Hi [H1 H2 H3 H4 H5]. constructor; [exact H1| | |exact H4|exact H5].
  - eapply Forall_impl; [exact H2|]. cbv beta. intros e. apply to_pb_mono, items_push.
  - apply Forall_app. split; [exact H3|]. constructor; [exact Hi|constructor].
Qed.

Lemma push_avatar_savable a pl : is_Some (Avatar_to_pb (items_of pl) a) -> savable pl -> savable (push_avatar a pl).
Proof.
  intros Ha [H1 H2 H3 H4 H5]. constructor; [exact H1| |exact H3| |].
  - apply Forall_app. split; [exact H2|]. constructor; [exact Ha|constructor].
  - eapply Forall_impl; [exact H4|]. cbv beta. intros t. apply team_live_mono, avatars_push.
  - intros p E. apply avatars_push, H5, E.
Qed.

Lemma team_savable t pl : team_live (avatar_at pl) t -> savable pl -> savable (set_teams (pl_teams pl ++ [t]) pl).
Proof.
  intros Ht [H1 H2 H3 H4 H5]. constructor; [exact H1|exact H2|exact H3| |exact H5].
  apply Forall_app. split; [exact H4|]. constructor; [exact Ht|constructor].
Qed.

Lemma swap_savable p pl : (forall q, p = Some q -> is_Some (avatar_at pl q)) -> savable pl -> savable (swapToAvatar p pl).2.
Proof.
  intros Hp Hs. destruct p as [p|]; [|exact Hs]. destruct Hs as [H1 H2 H3 H4 H5].
  constructor; [exact H1|exact H2|exact H3|exact H4|]. intros q E. injection E as <-. exact (Hp p eq_refl).
Qed.

(** ** Saving *)

Lemma teams_to_pb_live f l : Forall (team_live f) l -> is_Some (teams_to_pb f l).
Proof.
  induction 1 as [|t l Ht _ [r E]]; cbn [teams_to_pb]; [eauto|].
  assert (is_Some (team_guids f (t_avatars t))) as [gs Eg].
  { unfold team_live in Ht. induction Ht as [|[p|] m Hp _ [gs IH]]; cbn [team_guids]; [eauto| |eauto].
    destruct (Hp p eq_refl) as [a Ea]. unfold guid_at. rewrite Ea, IH. cbn [mbind option_bind]. eauto. }
  unfold AvatarTeam_to_pb. rewrite Eg, E. cbn [mbind option_bind]. eauto.
Qed.

Lemma to_info_total sess now pl : savable pl -> exists p, Player_to_info sess now pl = Some p /\ pp_session_id p = 0.
Proof.
  intros [H1 H2 H3 H4 H5]. unfold Player_to_info. rewrite H1. cbn [mbind option_bind].
  destruct (teams_to_pb_live _ _ H4) as [ts ->]. cbn [mbind option_bind].
  assert (is_Some (match pl_curAvatar pl with None => Some 0 | Some p => a ← avatar_at pl p; Some (av_guid a) end)) as [g ->].
  { destruct (pl_curAvatar pl) as [p|]; [|eauto]. destruct (H5 p eq_refl) as [a ->]. cbn [mbind option_bind]. eauto. }
  cbn [mbind option_bind]. eexists. split; reflexivity.
Qed.

(** The stored players belong to no session, and fresh memory holds a NULL
    where the pointer to an avatar will be. *)
Section world.
Context `{MsgCodec AccountInfo} `{MsgCodec NextIdInfo} `{MsgCodec PlayerInfo} `{MsgCodec InventoryEntry}.

(** What the generated code is asked: an id that is not set stays so. *)
Class SessionIds := stored_id : forall (p p' : PlayerInfo) b,
  serialize p = Some b -> parse_from b = Some p' -> pp_session_id p = 0 -> pp_session_id p' = 0.

Definition no_session (v : list byte) : Prop := forall p : PlayerInfo, parse_from v = Some p -> pp_session_id p = 0.

Definition db_quiet (d : dbGate) : Prop :=
  forall k v, ldb d !! k = Some v -> key_type k = Some (type_key PLAYER) -> no_session v.

Record world_quiet (w : World) : Prop := {
  wq_db : db_quiet (w_db w);
  wq_junk : pl_curAvatar (w_junk w) = None
}.

Lemma quiet_insert k v n d :
  (key_type k = Some (type_key PLAYER) -> no_session v) -> db_quiet d -> db_quiet (mkDb (<[k := v]> (ldb d)) n).
Proof.
  intros Hv Hd k' v' E. cbn [ldb] in E. destruct (decide (k = k')) as [<-|Hn].
  - rewrite lookup_insert_eq in E. injection E as <-. exact Hv.
  - rewrite lookup_insert_ne in E by exact Hn. exact (Hd k' v' E).
Qed.

Lemma quiet_set ok k v d :
  (key_type k = Some (type_key PLAYER) -> no_session v) -> db_quiet d -> db_quiet (setLdbObject ok k v d).2.
Proof. intros Hv Hd. destruct ok; [exact (quiet_insert k v _ d Hv Hd)|exact Hd]. Qed.

Lemma quiet_wput f w : (forall ok d, db_quiet d -> db_quiet (f ok d).2) -> world_quiet w -> world_quiet (wput f w).2.
Proof.
  intros Hf [Hd Hj]. unfold wput. specialize (Hf (default true (head (w_puts w))) _ Hd).
  destruct (f _ (w_db w)) as [r d]. constructor; [exact Hf|exact Hj].
Qed.

Lemma guid_key_type g : key_type (guid_key g) = Some (type_key INVENTORY).
Proof. reflexivity. Qed.

Lemma quiet_entry ok ent d : db_quiet d -> db_quiet (default (-1, d) (setInventoryEntry ok ent d)).2.
Proof.
  intros Hd. unfold setInventoryEntry. destruct ent as [a|i|]; cbn [mbind option_bind from_option default]; [..|exact Hd].
  all: destruct (serialize _); [|exact Hd]; apply quiet_set; [|exact Hd]; rewrite guid_key_type; intros E; vm_compute in E; discriminate E.
Qed.

Lemma save_avatars_quiet f l w :
  Forall (fun e : nat * Avatar => is_Some (Avatar_to_pb f e.2)) l -> world_quiet w ->
  exists w', save_avatars f l w = Some w' /\ world_quiet w'.
Proof.
  intros Hl. revert w. induction Hl as [|[n a] l [pb E] _ IH]; intros w Hw; cbn [save_avatars]; [eauto|].
  unfold saveAvatar. cbn [snd] in E. rewrite E. cbn [mbind option_bind]. unfold saveAvatar_pb.
  pose proof (quiet_wput _ w (fun ok d => quiet_entry ok (ie_avatar pb) d) Hw) as Hq.
  destruct (wput _ w) as [r w1]. cbn [snd] in Hq. exact (IH w1 Hq).
Qed.

Lemma save_items_quiet l w :
  Forall (fun e : nat * Item => is_Some (Item_to_pb e.2)) l -> world_quiet w ->
  exists w', save_items l w = Some w' /\ world_quiet w'.
Proof.
  intros Hl. revert w. induction Hl as [|[n a] l [pb E] _ IH]; intros w Hw; cbn [save_items]; [eauto|].
  unfold saveItem. cbn [snd] in E. rewrite E. cbn [mbind option_bind]. unfold saveItem_pb.
  pose proof (quiet_wput _ w (fun ok d => quiet_entry ok (ie_item pb) d) Hw) as Hq.
  destruct (wput _ w) as [r w1]. cbn [snd] in Hq. exact (IH w1 Hq).
Qed.

Context `{SessionIds}.

Lemma savePlayer_quiet sess pl w :
  savable pl -> world_quiet w -> exists r w', savePlayer sess pl w = Some (r, w') /\ world_quiet w'.
Proof.
  intros Hs Hw. unfold savePlayer. destruct (to_info_total sess (w_time w) pl Hs) as (p & -> & Hp). cbn [mbind option_bind].
  destruct (serialize p) as [v|] eqn:E; [|eauto].
  pose proof (quiet_wput (fun ok d => setLdbObject ok (id_key PLAYER (pl_uid pl)) v d) w) as Hq.
  destruct (wput _ w) as [r w1]. exists r, w1. split; [reflexivity|]. apply Hq; [|exact Hw].
  intros ok d. apply quiet_set. intros _ p' E'. exact (stored_id p p' v E E' Hp).
Qed.

Lemma saveToDb_quiet sess pl w :
  savable pl -> world_quiet w -> exists r w', saveToDb sess pl w = Some (r, w') /\ world_quiet w'.
Proof.
  intros Hs Hw. unfold saveToDb, saveInventoryAndAvatars.
  destruct (save_avatars_quiet _ _ w (sv_avatars _ Hs) Hw) as (w1 & -> & W1). cbn [mbind option_bind].
  destruct (save_items_quiet _ w1 (sv_items _ Hs) W1) as (w2 & -> & W2). cbn [mbind option_bind].
  exact (savePlayer_quiet sess pl w2 Hs W2).
Qed.

Lemma newPlayer_quiet gd sess w pl w' :
  world_quiet w -> newPlayer gd sess w = Some (pl, w') ->
  savable pl /\ pl_account pl = None /\ world_quiet w'.
Proof.
  intros Hw. unfold newPlayer. cbv zeta. destruct (free_id _ _ _ _) as [i|]; [|discriminate]. cbn [mbind option_bind].
  set (w1 := set_db _ w). assert (world_quiet w1) as W1 by (destruct Hw as [Hd Hj]; constructor; [exact Hd|exact Hj]).
  assert (savable (setPlayerUid i (Player_default gd (w_junk w1)))) as Hs.
  { destruct (default_savable gd (w_junk w1)). constructor; assumption. }
  destruct (savePlayer_quiet sess _ w1 Hs W1) as (r & w2 & -> & W2). cbn [mbind option_bind].
  assert (world_quiet (wput save w2).2) as W3.
  { apply quiet_wput; [|exact W2]. intros ok d Hd. unfold save. destruct (serialize _); [|exact Hd].
    apply quiet_set; [|exact Hd]. intros E. vm_compute in E. discriminate E. }
  destruct (wput save w2) as [r3 w3]. intros E. injection E as <- <-. split; [exact Hs|]. split; [|exact W3].
  change (pl_account (Player_default gd (w_junk w1)) = None). unfold Player_default. cbv zeta.
  match goal with |- pl_account (updateOpenstates gd ?q) = _ => pose proof (updateOpenstates_same gd q) as (_ & _ & _ & _ & _ & ->) end.
  reflexivity.
Qed.

(** What a write leaves alone: the clock, the random bytes and the generator. *)
Definition surroundings (w : World) : Z * Z * Z * mt_state := (w_time w, w_ms w, w_random w, w_mt w).

Lemma wput_surroundings f w : surroundings (wput f w).2 = surroundings w.
Proof. unfold wput. destruct (f _ _). reflexivity. Qed.

Lemma save_avatars_surroundings f l w w' : save_avatars f l w = Some w' -> surroundings w' = surroundings w.
Proof.
  revert w. induction l as [|[n a] l IH]; intros w; cbn [save_avatars]; [congruence|]. unfold saveAvatar, saveAvatar_pb.
  destruct (Avatar_to_pb f a) as [pb|]; [|discriminate]. cbn [mbind option_bind].
  intros E. pose proof (wput_surroundings (fun ok d => default (-1, d) (setInventoryEntry ok (ie_avatar pb) d)) w) as Hp.
  destruct (wput _ w) as [r w1]. cbn [snd] in Hp. rewrite <- Hp. exact (IH w1 E).
Qed.

Lemma save_items_surroundings l w w' : save_items l w = Some w' -> surroundings w' = surroundings w.
Proof.
  revert w. induction l as [|[n a] l IH]; intros w; cbn [save_items]; [congruence|]. unfold saveItem, saveItem_pb.
  destruct (Item_to_pb a) as [pb|]; [|discriminate]. cbn [mbind option_bind].
  intros E. pose proof (wput_surroundings (fun ok d => default (-1, d) (setInventoryEntry ok (ie_item pb) d)) w) as Hp.
  destruct (wput _ w) as [r w1]. cbn [snd] in Hp. rewrite <- Hp. exact (IH w1 E).
Qed.

Lemma savePlayer_surroundings sess pl w r w' : savePlayer sess pl w = Some (r, w') -> surroundings w' = surroundings w.
Proof.
  unfold savePlayer. destruct (Player_to_info _ _ _) as [p|]; [|discriminate]. cbn [mbind option_bind].
  destruct (serialize p) as [v|]; [|congruence].
  pose proof (wput_surroundings (fun ok d => setLdbObject ok (id_key PLAYER (pl_uid pl)) v d) w) as Hp.
  destruct (wput _ w) as [z w1]. intros E. injection E as _ <-. exact Hp.
Qed.

Lemma saveToDb_surroundings sess pl w r w' : saveToDb sess pl w = Some (r, w') -> surroundings w' = surroundings w.
Proof.
  unfold saveToDb, saveInventoryAndAvatars. destruct (save_avatars _ _ w) as [w1|] eqn:E1; [|discriminate]. cbn [mbind option_bind].
  destruct (save_items _ w1) as [w2|] eqn:E2; [|discriminate]. cbn [mbind option_bind]. intros E3.
  rewrite (savePlayer_surroundings _ _ _ _ _ E3), (save_items_surroundings _ _ _ E2). exact (save_avatars_surroundings _ _ _ _ E1).
Qed.

Lemma newPlayer_surroundings gd sess w pl w' : newPlayer gd sess w = Some (pl, w') -> surroundings w' = surroundings w.
Proof.
  unfold newPlayer. cbv zeta. destruct (free_id _ _ _ _) as [i|]; [|discriminate]. cbn [mbind option_bind].
  set (w1 := set_db _ w). destruct (savePlayer _ _ w1) as [[r w2]|] eqn:E; [|discriminate]. cbn [mbind option_bind].
  pose proof (wput_surroundings save w2) as Hp. destruct (wput save w2) as [z w3]. cbn [snd] in Hp.
  intros E'. injection E' as _ <-. rewrite Hp. exact (savePlayer_surroundings _ _ _ _ _ E).
Qed.
End world.
