(* ===== verification/PlayerProps.v ===== *)
(** * Players: theorems *)

From stdpp Require Import gmap.
From S2P Require Import Prelude Bytes Mt64 Account DbGate DbProps Item Avatar Team Vector Player PlayerDb PlayerFacts.

(** ** Open states *)

Lemma getOpenstate_spec i pl : (getOpenstate i pl = 1) <-> (i ∈ pl_openstates pl).
Proof. unfold getOpenstate. rewrite <- open_state_spec. destruct (is_open_state _ _); split; congruence. Qed.

(** After [updateOpenstates] a state is open exactly when it was before, or
    a row of the table says it is open by default, or one of the row's two
    conditions is a level that the player has reached; no state is listed
    twice, and nothing else of the player changes. *)
Theorem open_states_updated gd pl :
  NoDup (pl_openstates pl) ->
  let pl' := updateOpenstates gd pl in
  (forall i, getOpenstate i pl' = 1 <->
     (getOpenstate i pl = 1 \/ Exists (fun e => os_id e = i /\ opens (pl_ar pl) e) (open_table gd))) /\
  NoDup (pl_openstates pl') /\ pl' = set_openstates (pl_openstates pl') pl.
Proof.
  intros Hn. cbv zeta. destruct (updateOpenstates_opened gd pl) as (l & -> & Nl & Hl). split; [|split; [|reflexivity]].
  - intros i. rewrite !getOpenstate_spec. cbn [set_openstates pl_openstates]. rewrite elem_of_app, Hl.
    destruct (decide (i ∈ pl_openstates pl)); tauto.
  - apply NoDup_app. split; [exact Hn|]. split; [|exact Nl]. intros i Hi Hi'. apply Hl in Hi' as [H _]. contradiction.
Qed.

(** ** Storing a player *)

Lemma own_props_lookup pl m k :
  own_props pl m !! k = (if k =? PROP_PLAYER_WORLD_LEVEL then Some (pl_worldLevel pl)
    else if k =? PROP_PLAYER_EXP then Some (s64 (pl_ar_exp pl))
    else if k =? PROP_PLAYER_LEVEL then Some (pl_ar pl) else m !! k).
Proof.
  unfold own_props.
  destruct (Z.eqb_spec k PROP_PLAYER_WORLD_LEVEL) as [->|H1]; [apply lookup_insert_eq|rewrite lookup_insert_ne by congruence].
  destruct (Z.eqb_spec k PROP_PLAYER_EXP) as [->|H2]; [apply lookup_insert_eq|rewrite lookup_insert_ne by congruence].
  destruct (Z.eqb_spec k PROP_PLAYER_LEVEL) as [->|H3]; [apply lookup_insert_eq|rewrite lookup_insert_ne by congruence].
  reflexivity.
Qed.

Section stored.
Context {CA : MsgCodec AccountInfo} {CN : MsgCodec NextIdInfo} {CP : MsgCodec PlayerInfo} {LP : MsgLaws PlayerInfo}.

(** What a player that was stored and loaded again is: [q] is the session that
    was looked up for it. *)
Record restored (gd : option GameData) (w : World) (q : option nat) (pl pl' : Player) : Prop := {
  rs_uid : pl_uid pl' = pl_uid pl;
  rs_account : pl_account pl' = getAccountByAid (match pl_account pl with Some a => aid a | None => 0 end) (w_db w);
  rs_names : pl_name pl' = pl_name pl /\ pl_signature pl' = pl_signature pl /\ pl_pfp pl' = pl_pfp pl /\
    pl_namecard pl' = pl_namecard pl;
  rs_place : pl_scene_id pl' = pl_scene_id pl /\ pl_pos pl' = Vector_of_pb (Vector_to_pb (pl_pos pl));
  rs_guid : pl_nextGuid pl' = pl_nextGuid pl;
  rs_props : forall k, getProp k pl' = getProp k pl;
  rs_open : forall i, getOpenstate i pl' = 1 <->
    (getOpenstate i pl = 1 \/ Exists (fun e => os_id e = i /\ opens (pl_ar pl) e) (open_table gd));
  rs_session : pl_session pl' = q;
  rs_lost : pl_avatars pl' = [] /\ pl_inventory pl' = [] /\ pl_teams pl' = []
}.

(** What is loaded from what was stored. *)
Lemma info_restored gd sess now pl p junk w find q pl' :
  Player_to_info sess now pl = Some p ->
  (if pp_session_expire_ts p <? w_time w then find (pp_session_id p) else Some None) = Some q ->
  Player_of_info gd junk (getAccountByAid (pp_aid p) (w_db w)) (w_time w) find p = Some pl' ->
  restored gd w q pl pl'.
Proof.
  unfold Player_to_info. destruct (match pl_session pl with None => _ | Some _ => _ end) as [s|]; [|discriminate].
  cbn [mbind option_bind]. destruct (teams_to_pb _ _) as [ts|]; [|discriminate]. cbn [mbind option_bind].
  destruct (match pl_curAvatar pl with None => _ | Some _ => _ end) as [g|]; [|discriminate]. cbn [mbind option_bind].
  destruct (match s with Some _ => _ | None => _ end) as [[id sd] ex]. intros E. injection E as <-.
  unfold Player_of_info. cbn [pp_session_expire_ts pp_session_id pp_aid]. intros ->. cbn [mbind option_bind]. cbv zeta.
  intros E. injection E as <-.
  match goal with |- restored _ _ _ _ (updateOpenstates gd ?x) => set (r := x) end.
  destruct (updateOpenstates_opened gd r) as (l & -> & _ & Hl). constructor; try reflexivity; [repeat split..| | |repeat split].
  - intros k. unfold getProp. cbn [set_openstates pl_ar pl_ar_exp pl_worldLevel pl_props r set_props].
    destruct (Z.eqb_spec k PROP_PLAYER_LEVEL); [reflexivity|]. destruct (Z.eqb_spec k PROP_PLAYER_EXP); [reflexivity|].
    destruct (Z.eqb_spec k PROP_PLAYER_WORLD_LEVEL); [reflexivity|]. rewrite own_props_lookup.
    rewrite (proj2 (Z.eqb_neq k PROP_PLAYER_LEVEL)), (proj2 (Z.eqb_neq k PROP_PLAYER_EXP)),
      (proj2 (Z.eqb_neq k PROP_PLAYER_WORLD_LEVEL)) by assumption. cbn [pp_props]. rewrite map_lookup_imap.
    destruct (pl_props pl !! k) as [v|]; [|reflexivity]. cbn [mbind option_bind default]. unfold stored_prop.
    rewrite (proj2 (Z.eqb_neq k PROP_PLAYER_LEVEL)), (proj2 (Z.eqb_neq k PROP_PLAYER_EXP)),
      (proj2 (Z.eqb_neq k PROP_PLAYER_WORLD_LEVEL)) by assumption. reflexivity.
  - intros i. rewrite !getOpenstate_spec. cbn [set_openstates pl_openstates]. rewrite elem_of_app, Hl.
    change (pl_openstates r) with (pl_openstates pl). change (pl_ar r) with (pl_ar pl).
    destruct (decide (i ∈ pl_openstates pl)); tauto.
Qed.

Lemma wput_ok f w w' : wput f w = (0, w') -> (forall d, (f false d).1 <> 0) -> f true (w_db w) = (0, w_db w') /\ w_time w' = w_time w /\ w_junk w' = w_junk w.
Proof.
  unfold wput. intros E Hf. destruct (default true (head (w_puts w))).
  - destruct (f true (w_db w)) as [r d] eqn:Ef. injection E as -> <-. auto.
  - specialize (Hf (w_db w)). destruct (f false (w_db w)) as [r d]. cbn in Hf. congruence.
Qed.

(** C36: A player that was saved, and whose record could be written, is loaded
    again with the uid, the account's record, the names, the scene, every
    property and every open state it had; the position is rounded to floats.
    The avatars, items and teams are not there. *)
Theorem player_survives gd sess find q pl p w w' :
  Player_to_info sess (w_time w) pl = Some p -> msg_utf8 p -> p <> msg_default ->
  savePlayer sess pl w = Some (0, w') ->
  (if pp_session_expire_ts p <? w_time w then find (pp_session_id p) else Some None) = Some q ->
  exists pl', getPlayerByUid gd find (pl_uid pl) w' = Some (Some pl') /\ restored gd w' q pl pl'.
Proof.
  intros Hp Hu Hd. unfold savePlayer. rewrite Hp. cbn [mbind option_bind].
  destruct (msg_serializes p Hu) as [v Hv]. rewrite Hv. intros E Hq. injection E as E.
  destruct (wput_ok _ _ _ E ltac:(discriminate)) as (Hw & Ht & Hj). cbn [setLdbObject] in Hw. injection Hw as Hw.
  unfold getPlayerByUid, getLdbObject. rewrite <- Hw. cbn [ldb]. rewrite lookup_insert_eq. change (default [] (Some v)) with v.
  rewrite decide_False by exact (msg_nonempty p v Hv Hd). rewrite (msg_roundtrip p v Hu Hv).
  destruct (player_of gd find p w') as [pl'|] eqn:El; cbn [mbind option_bind].
  - exists pl'. split; [reflexivity|]. unfold player_of in El. rewrite <- Ht in Hq.
    exact (info_restored gd sess _ pl p _ w' find q pl' Hp Hq El).
  - exfalso. unfold player_of, Player_of_info in El. rewrite Ht, Hq in El. discriminate El.
Qed.

Lemma newPlayer_spec gd sess w :
  in_u 32 (next_uid (next_ids (w_db w))) -> Z.of_nat (size (ldb (w_db w))) < 2 ^ 32 ->
  exists pl w', newPlayer gd sess w = Some (pl, w') /\ in_u 32 (pl_uid pl) /\
    getLdbObject (id_key PLAYER (pl_uid pl)) (w_db w) = [] /\ next_uid (next_ids (w_db w')) = pl_uid pl /\
    (forall k, k <> id_key PLAYER (pl_uid pl) -> k <> next_id_key -> ldb (w_db w') !! k = ldb (w_db w) !! k) /\
    pl_nextGuid pl = 1 /\ getProp PROP_PLAYER_LEVEL pl = 1 /\ getProp PROP_PLAYER_RESIN pl = 160.
Proof.
  intros Hn Hsz. unfold newPlayer. cbv zeta.
  set (first := if next_uid (next_ids (w_db w)) =? 0 then 1 else next_uid (next_ids (w_db w))).
  assert (in_u 32 first) as Hf by (unfold first; destruct (_ =? 0); [unfold in_u; zpow; lia|exact Hn]).
  destruct (free_id_ends PLAYER first (w_db w) Hf Hsz) as (i & -> & Hi & Hfree). cbn [mbind option_bind].
  set (w1 := set_db _ w). set (pl := setPlayerUid i (Player_default gd (w_junk w1))).
  assert (savable pl) as Hs by (destruct (default_savable gd (w_junk w1)); constructor; assumption).
  assert (pl_uid pl = i) as Hu by reflexivity.
  assert (pl_nextGuid pl = 1 /\ getProp PROP_PLAYER_LEVEL pl = 1 /\ getProp PROP_PLAYER_RESIN pl = 160) as Hnew.
  { unfold pl, Player_default. cbv zeta.
    match goal with |- context [updateOpenstates gd ?x] => destruct (updateOpenstates_shape gd x) as [l ->] end.
    split; [reflexivity|]. split; reflexivity. }
  clearbody pl. unfold savePlayer. destruct (to_info_total sess (w_time w1) pl Hs) as (p & -> & _). cbn [mbind option_bind].
  assert (exists r w2, (match serialize p with None => Some (-1, w1) | Some val =>
      Some (wput (fun ok d => setLdbObject ok (id_key PLAYER (pl_uid pl)) val d) w1) end) = Some (r, w2) /\
    next_ids (w_db w2) = next_ids (w_db w1) /\
    forall k, k <> id_key PLAYER (pl_uid pl) -> ldb (w_db w2) !! k = ldb (w_db w1) !! k) as (r & w2 & -> & N2 & K2).
  { destruct (serialize p) as [v|]; [|eauto]. unfold wput, setLdbObject. destruct (default true _); eexists _, _; (split; [reflexivity|]);
      (split; [reflexivity|]); intros k Hk; [|reflexivity]. apply lookup_insert_ne. congruence. }
  cbn [mbind option_bind]. unfold wput. pose proof (save_ids (default true (head (w_puts w2))) (w_db w2)) as H3.
  assert (next_ids (save (default true (head (w_puts w2))) (w_db w2)).2 = next_ids (w_db w2)) as N3.
  { unfold save. destruct (serialize _); [|reflexivity]. unfold setLdbObject. destruct (default true _); reflexivity. }
  destruct (save _ (w_db w2)) as [r3 d3]. cbn [snd] in H3, N3. eexists pl, _. split; [reflexivity|].
  cbn [set_db w_db pop_put]. rewrite Hu. split; [exact Hi|]. split; [exact Hfree|]. split; [rewrite N3, N2; reflexivity|].
  split; [|exact Hnew]. intros k H1 H2. rewrite <- Hu in H1. change (ldb (w_db w)) with (ldb (w_db w1)). rewrite <- (K2 k H1).
  destruct H3 as [->|[v ->]]; [reflexivity|]. apply lookup_insert_ne. congruence.
Qed.
(** [newPlayer] ends, whatever its counter says, with a uid under which
    nothing is stored; the counter is that uid, and no other record of the
    database changes. *)
Theorem player_created gd sess w :
  in_u 32 (next_uid (next_ids (w_db w))) -> Z.of_nat (size (ldb (w_db w))) < 2 ^ 32 ->
  exists pl w', newPlayer gd sess w = Some (pl, w') /\ in_u 32 (pl_uid pl) /\
    getLdbObject (id_key PLAYER (pl_uid pl)) (w_db w) = [] /\ next_uid (next_ids (w_db w')) = pl_uid pl /\
    (forall k, k <> id_key PLAYER (pl_uid pl) -> k <> next_id_key -> ldb (w_db w') !! k = ldb (w_db w) !! k) /\
    pl_nextGuid pl = 1 /\ getProp PROP_PLAYER_LEVEL pl = 1 /\ getProp PROP_PLAYER_RESIN pl = 160.
Proof. exact (newPlayer_spec gd sess w). Qed.
End stored.

(** ** Guids *)

Definition guids (pl : Player) : list Z :=
  map (fun e => av_guid e.2) (pl_avatars pl) ++ map (fun e => it_guid e.2) (pl_inventory pl).

(** The uid above, a number that was given out below. *)
Definition own_guid (pl : Player) (g : Z) : Prop :=
  g / 2 ^ 32 = pl_uid pl /\ 0 < g mod 2 ^ 32 < pl_nextGuid pl.

Record guids_ok (pl : Player) : Prop := {
  go_unique : NoDup (guids pl);
  go_own : Forall (own_guid pl) (guids pl);
  go_next : 0 < pl_nextGuid pl < 2 ^ 32;
  go_uid : in_u 32 (pl_uid pl)
}.

(** What the program does to a player's things after it made the player:
    new ones are added, as long as the counter does not wrap around; they are
    changed in place and deleted; and the rest of the player changes. *)
Inductive gets (pl : Player) : Player -> Prop :=
| gets_avatar a : Z.land (av_guid a) 0xffffffff = 0 -> pl_nextGuid pl + 1 < 2 ^ 32 -> gets pl (addAvatar a pl).2
| gets_item it : Z.land (it_guid it) 0xffffffff = 0 -> Z.shiftr (it_guid it) 32 = 0 -> pl_nextGuid pl + 1 < 2 ^ 32 ->
    gets pl (addItem it pl).2
| gets_update_avatar a : gets pl (updateAvatar a pl).2
| gets_update_item it : gets pl (updateItem it pl).2
| gets_del_avatar g : gets pl (delAvatar_guid g pl).2
| gets_del_item g : gets pl (delItem_guid g pl).2
| gets_prop p v : gets pl (setProp p v pl)
| gets_states gd : gets pl (updateOpenstates gd pl)
| gets_current g : gets pl (swapToAvatar_guid g pl).2.

Lemma low_guid g : Z.land g 0xffffffff = g mod 2 ^ 32.
Proof. change 0xffffffff with (Z.ones 32). apply Z.land_ones. lia. Qed.

Lemma high_guid g : Z.shiftr g 32 = g / 2 ^ 32.
Proof. apply Z.shiftr_div_pow2. lia. Qed.

Lemma shifted_uid u : in_u 32 u -> u64 (Z.shiftl u 32) = u * 2 ^ 32.
Proof. intros Hu. rewrite Z.shiftl_mul_pow2 by lia. apply wrap_id. unfold in_u in *. zpow. lia. Qed.

(** The guid that is given out. *)
Definition next_own (pl : Player) : Z := pl_uid pl * 2 ^ 32 + pl_nextGuid pl.

Lemma next_own_parts pl : 0 < pl_nextGuid pl < 2 ^ 32 -> next_own pl / 2 ^ 32 = pl_uid pl /\ next_own pl mod 2 ^ 32 = pl_nextGuid pl.
Proof. intros Hn. unfold next_own. zpow. split; Z.div_mod_to_equations; lia. Qed.

Lemma next_own_fresh pl : guids_ok pl -> next_own pl ∉ guids pl.
Proof.
  intros [_ Ho Hn _] Hin. rewrite Forall_forall in Ho. destruct (Ho _ Hin) as [_ H].
  rewrite (proj2 (next_own_parts pl Hn)) in H. lia.
Qed.

(** The new guid is among those the counter has passed. *)
Lemma grown_ok pl pl' :
  guids_ok pl -> pl_nextGuid pl + 1 < 2 ^ 32 -> pl_uid pl' = pl_uid pl -> pl_nextGuid pl' = pl_nextGuid pl + 1 ->
  guids pl' ≡ₚ next_own pl :: guids pl -> guids_ok pl'.
Proof.
  intros Hg Hw Hu Hn Hp. pose proof (next_own_fresh pl Hg) as Hf. destruct Hg as [H1 H2 H3 H4]. constructor; [| |lia|congruence].
  - rewrite Hp. constructor; assumption.
  - rewrite Hp. unfold own_guid. rewrite Hu, Hn. constructor.
    + destruct (next_own_parts pl H3) as [-> ->]. lia.
    + eapply Forall_impl; [exact H2|]. intros g [Ha Hb]. split; [exact Ha|lia].
Qed.

Lemma shrunk_ok pl pl' :
  guids_ok pl -> pl_uid pl' = pl_uid pl -> pl_nextGuid pl' = pl_nextGuid pl -> guids pl' `sublist_of` guids pl -> guids_ok pl'.
Proof.
  intros [H1 H2 H3 H4] Hu Hn Hs. constructor; [exact (sublist_NoDup _ _ H1 Hs)| |lia|congruence].
  unfold own_guid. rewrite Hu, Hn. apply Forall_forall. intros g Hin.
  rewrite Forall_forall in H2. apply H2. exact (elem_of_submseteq _ _ _ Hin (sublist_submseteq _ _ Hs)).
Qed.

Lemma addAvatar_guid a pl :
  guids_ok pl -> Z.land (av_guid a) 0xffffffff = 0 ->
  exists a', addAvatar a pl = (0, a', push_avatar a' (bump_guid pl)) /\ av_guid a' = next_own pl.
Proof.
  intros [_ _ Hn Hu] Hl. unfold addAvatar. rewrite Hl. cbn [Z.eqb]. cbv zeta.
  assert (av_guid (setGuid (pl_nextGuid pl) a) = pl_nextGuid pl) as Hg by (unfold setGuid; destruct (_ =? _); reflexivity).
  assert (getUid (setGuid (pl_nextGuid pl) a) = 0) as H0.
  { unfold getUid. rewrite Hg, high_guid. apply Z.div_small. lia. }
  rewrite H0. cbn [Z.eqb]. eexists. split; [reflexivity|]. unfold setUid. cbn [set_set_equips set_guid av_guid].
  rewrite Hg, low_guid, shifted_uid by exact Hu. rewrite Z.mod_small by lia. rewrite Z.lor_comm.
  apply lor_disjoint; lia.
Qed.

Lemma addItem_guid it pl :
  guids_ok pl -> Z.land (it_guid it) 0xffffffff = 0 -> Z.shiftr (it_guid it) 32 = 0 ->
  exists it', addItem it pl = (0, it', push_item it' (bump_guid pl)) /\ it_guid it' = next_own pl.
Proof.
  intros [_ _ Hn Hu] Hl Hh. unfold addItem. rewrite Hh. cbn [Z.eqb]. cbv zeta. cbn [set_item_guid it_guid].
  rewrite shifted_uid by exact Hu. rewrite low_guid, Z.mod_mul by lia. cbn [Z.eqb].
  eexists. split; [reflexivity|]. cbn [it_guid]. apply lor_disjoint; lia.
Qed.

Lemma bump_next pl : pl_nextGuid pl + 1 < 2 ^ 32 -> 0 < pl_nextGuid pl -> pl_nextGuid (bump_guid pl) = pl_nextGuid pl + 1.
Proof. intros H1 H2. cbn. apply wrap_id. unfold in_u. lia. Qed.

Lemma erase_sublist {A} q (f : A -> Z) l m : erase_node q l = Some m -> map (fun e => f e.2) m `sublist_of` map (fun e => f e.2) l.
Proof.
  revert m. induction l as [|[n x] l IH]; intros m; cbn [erase_node]; [discriminate|]. destruct (q x).
  - intros E. injection E as <-. cbn. apply sublist_cons. reflexivity.
  - destruct (erase_node q l) as [m'|]; [|discriminate]. cbn [mbind option_bind]. intros E. injection E as <-. cbn.
    apply sublist_skip, IH. reflexivity.
Qed.

Lemma assign_same {A} (f : A -> Z) a l m : assign_node (fun b => f a =? f b) a l = Some m -> map (fun e => f e.2) m = map (fun e => f e.2) l.
Proof.
  revert m. induction l as [|[n x] l IH]; intros m; cbn [assign_node]; [discriminate|]. destruct (Z.eqb_spec (f a) (f x)) as [E0|_].
  - intros E. injection E as <-. cbn. congruence.
  - destruct (assign_node _ a l) as [m'|]; [|discriminate]. cbn [mbind option_bind]. intros E. injection E as <-. cbn.
    rewrite (IH m' eq_refl). reflexivity.
Qed.

Lemma same_guids_ok pl pl' :
  guids_ok pl -> pl_uid pl' = pl_uid pl -> pl_nextGuid pl' = pl_nextGuid pl -> guids pl' = guids pl -> guids_ok pl'.
Proof. intros Hg Hu Hn E. apply (shrunk_ok pl pl' Hg Hu Hn). rewrite E. reflexivity. Qed.

Lemma gets_ok pl pl' : guids_ok pl -> gets pl pl' -> guids_ok pl'.
Proof.
  intros Hg [a Hl Hw|it Hl Hh Hw|a|it|g|g|p v|gd|g]; pose proof (go_next pl Hg) as Hn.
  - destruct (addAvatar_guid a pl Hg Hl) as (a' & -> & Ea). apply (grown_ok pl); [exact Hg|exact Hw|reflexivity|apply bump_next; lia|].
    unfold guids. cbn. rewrite map_app, <- app_assoc. cbn. rewrite Ea. symmetry. apply Permutation_middle.
  - destruct (addItem_guid it pl Hg Hl Hh) as (it' & -> & Ei). apply (grown_ok pl); [exact Hg|exact Hw|reflexivity|apply bump_next; lia|].
    unfold guids. cbn. rewrite map_app, app_assoc. cbn. rewrite Ei. symmetry. apply Permutation_cons_append.
  - unfold updateAvatar. destruct (assign_node _ a _) as [m|] eqn:E; [|exact Hg]. apply (same_guids_ok pl); try reflexivity; [exact Hg|].
    unfold guids. cbn. rewrite (assign_same av_guid a _ _ E). reflexivity.
  - unfold updateItem. destruct (assign_node _ it _) as [m|] eqn:E; [|exact Hg]. apply (same_guids_ok pl); try reflexivity; [exact Hg|].
    unfold guids. cbn. rewrite (assign_same it_guid it _ _ E). reflexivity.
  - unfold delAvatar_guid, delAvatar_by. destruct (erase_node _ _) as [m|] eqn:E; [|exact Hg].
    apply (shrunk_ok pl); try reflexivity; [exact Hg|]. apply sublist_app; [exact (erase_sublist _ av_guid _ _ E)|reflexivity].
  - unfold delItem_guid, delItem_by. destruct (erase_node _ _) as [m|] eqn:E; [|exact Hg].
    apply (shrunk_ok pl); try reflexivity; [exact Hg|]. apply sublist_app; [reflexivity|exact (erase_sublist _ it_guid _ _ E)].
  - apply (same_guids_ok pl); [exact Hg|..]; unfold setProp; cbv zeta;
      destruct (p =? PROP_PLAYER_LEVEL), (p =? PROP_PLAYER_EXP), (p =? PROP_PLAYER_WORLD_LEVEL); reflexivity.
  - destruct (updateOpenstates_shape gd pl) as [l ->]. apply (same_guids_ok pl); [exact Hg|reflexivity..].
  - unfold swapToAvatar_guid. destruct (getAvatarByGuid g pl); [|exact Hg]. apply (same_guids_ok pl); [exact Hg|reflexivity..].
Qed.

Lemma gets_uid pl pl' : guids_ok pl -> gets pl pl' -> pl_uid pl' = pl_uid pl.
Proof.
  intros Hg [a Hl Hw|it Hl Hh Hw|a|it|g|g|p v|gd|g].
  - destruct (addAvatar_guid a pl Hg Hl) as (? & -> & _). reflexivity.
  - destruct (addItem_guid it pl Hg Hl Hh) as (? & -> & _). reflexivity.
  - unfold updateAvatar. destruct (assign_node _ _ _); reflexivity.
  - unfold updateItem. destruct (assign_node _ _ _); reflexivity.
  - unfold delAvatar_guid, delAvatar_by. destruct (erase_node _ _); reflexivity.
  - unfold delItem_guid, delItem_by. destruct (erase_node _ _); reflexivity.
  - unfold setProp. cbv zeta. destruct (p =? PROP_PLAYER_LEVEL), (p =? PROP_PLAYER_EXP), (p =? PROP_PLAYER_WORLD_LEVEL); reflexivity.
  - apply updateOpenstates_uid.
  - unfold swapToAvatar_guid. destruct (getAvatarByGuid g pl); reflexivity.
Qed.

Lemma new_guids_ok gd junk uid : in_u 32 uid -> guids_ok (setPlayerUid uid (Player_default gd junk)).
Proof.
  intros Hu. unfold Player_default. cbv zeta.
  match goal with |- context [updateOpenstates gd ?x] => destruct (updateOpenstates_shape gd x) as [l ->] end.
  constructor; [constructor|constructor|cbn; lia|exact Hu].
Qed.

Lemma find_unique {A} (f : A -> Z) l n x :
  NoDup (map (fun e => f e.2) l) -> (n, x) ∈ l -> find_node (fun b => f x =? f b) l = Some n.
Proof.
  induction l as [|[m y] l IH]; intros Hn Hin; [inversion Hin|]. cbn in Hn. apply NoDup_cons in Hn as [Hy Hn]. cbn [find_node].
  apply elem_of_cons in Hin as [E|Hin]; [injection E as -> ->; rewrite Z.eqb_refl; reflexivity|].
  destruct (Z.eqb_spec (f x) (f y)) as [E|_]; [|exact (IH Hn Hin)]. exfalso. apply Hy. rewrite <- E.
  apply (list_elem_of_fmap_2 (fun e => f e.2) l (n, x) Hin).
Qed.

(** From a new player on, whatever is added, changed and deleted, no two
    things of a player have the same guid; every guid has the player's uid in
    its upper half and a number that the counter has passed in its lower half;
    and looking an avatar or an item up by its guid finds that very one. *)
Theorem player_guids gd junk uid pl :
  in_u 32 uid -> rtc gets (setPlayerUid uid (Player_default gd junk)) pl ->
  guids_ok pl /\ pl_uid pl = uid /\
  (forall n a, (n, a) ∈ pl_avatars pl -> getAvatarByGuid (av_guid a) pl = Some n) /\
  (forall n it, (n, it) ∈ pl_inventory pl -> find_node (fun b => it_guid it =? it_guid b) (pl_inventory pl) = Some n).
Proof.
  intros Hu Hr. assert (guids_ok pl /\ pl_uid pl = uid) as [Hg He].
  { remember (setPlayerUid uid (Player_default gd junk)) as p0 eqn:E0.
    assert (guids_ok p0 /\ pl_uid p0 = uid) as H0 by (subst p0; split; [apply new_guids_ok, Hu|reflexivity]). clear E0.
    induction Hr as [p|p p1 p2 H1 _ IH]; [exact H0|]. apply IH. destruct H0 as [Hg He]. split; [exact (gets_ok _ _ Hg H1)|].
    rewrite <- He. exact (gets_uid _ _ Hg H1). }
  split; [exact Hg|]. split; [exact He|]. pose proof (go_unique pl Hg) as Hn. unfold guids in Hn. apply NoDup_app in Hn as (N1 & _ & N2).
  split; [exact (fun n a => find_unique av_guid _ n a N1)|exact (fun n it => find_unique it_guid _ n it N2)].
Qed.

(** ** Concrete players *)

#[local] Instance float_eq_dec : EqDecision SpecFloat.spec_float.
Proof. solve_decision. Defined.

#[local] Instance float_countable : Countable SpecFloat.spec_float :=
  inj_countable
    (fun f => match f with
              | SpecFloat.S754_zero s => (0, s, 1%positive, 0) | SpecFloat.S754_infinity s => (1, s, 1%positive, 0)
              | SpecFloat.S754_nan => (2, false, 1%positive, 0) | SpecFloat.S754_finite s m e => (3, s, m, e)
              end)
    (fun '(k, s, m, e) =>
       Some (if k =? 0 then SpecFloat.S754_zero s else if k =? 1 then SpecFloat.S754_infinity s
             else if k =? 2 then SpecFloat.S754_nan else SpecFloat.S754_finite s m e))
    (fun f => match f with
              | SpecFloat.S754_zero _ | SpecFloat.S754_infinity _ | SpecFloat.S754_nan | SpecFloat.S754_finite _ _ _ => eq_refl
              end).

#[local] Instance pos_eq_dec : EqDecision pb_Vector.
Proof. unfold pb_Vector. solve_decision. Defined.

#[local] Instance pos_countable : Countable pb_Vector :=
  inj_countable' (fun v : pb_Vector => (t_x v, t_y v, t_z v)) (fun '(x, y, z) => mk3 x y z)
    (fun v => match v with mk3 _ _ _ => eq_refl end).

#[local] Instance team_eq_dec : EqDecision pb_AvatarTeam.
Proof. solve_decision. Defined.

#[local] Instance team_countable : Countable pb_AvatarTeam :=
  inj_countable' (fun t => (pt_avatar_guid_list t, pt_team_name t)) (fun '(g, n) => mkPbTeam g n)
    (fun t => match t with mkPbTeam _ _ => eq_refl end).

#[local] Instance player_eq_dec : EqDecision PlayerInfo.
Proof. solve_decision. Defined.

(** The fields one after the other. *)
Definition player_fields (p : PlayerInfo) : list positive :=
  [encode (pp_uid p); encode (pp_aid p); encode (pp_session_id p); encode (pp_session_seed p);
   encode (pp_session_expire_ts p); encode (pp_next_guid p); encode (pp_name p); encode (pp_signature p);
   encode (pp_pfp p); encode (pp_namecard p); encode (pp_adventure_rank p); encode (pp_adventure_exp p);
   encode (pp_world_level p); encode (pp_teams p); encode (pp_cur_team_id p); encode (pp_cur_avatar_guid p);
   encode (pp_props p); encode (pp_scene_id p); encode (pp_position p); encode (pp_open_states p)].

Definition of_fields (l : list positive) : option PlayerInfo :=
  match l with
  | [a; b; c; d; e; f; g; h; i; j; k; l; m; n; o; p; q; r; s; t] =>
      a ← decode a; b ← decode b; c ← decode c; d ← decode d; e ← decode e; f ← decode f; g ← decode g; h ← decode h;
      i ← decode i; j ← decode j; k ← decode k; l ← decode l; m ← decode m; n ← decode n; o ← decode o; p ← decode p;
      q ← decode q; r ← decode r; s ← decode s; t ← decode t;
      Some (mkPlayerInfo a b c d e f g h i j k l m n o p q r s t)
  | _ => None
  end.

Lemma fields_back p : of_fields (player_fields p) = Some p.
Proof. unfold player_fields, of_fields. rewrite !decode_encode. destruct p. reflexivity. Qed.

#[local] Instance player_countable : Countable PlayerInfo := inj_countable player_fields of_fields fields_back.

#[local] Instance player_codec : MsgCodec PlayerInfo := toy_codec.
#[local] Instance player_laws : MsgLaws PlayerInfo := toy_laws.
#[local] Instance accounts_codec : MsgCodec AccountInfo := {| serialize _ := None; parse_from _ := None; msg_utf8 _ := True |}.
#[local] Instance counters_codec : MsgCodec NextIdInfo :=
  {| serialize _ := Some [Byte.x01]; parse_from _ := None; msg_utf8 _ := True |}.

(** Fresh memory, a world without objects, and a table of two states: 5 is open
    by default, 7 from level 10 on. *)
Definition ex_junk_player : Player :=
  mkPlayer None 9 None [] [] [] 7 None START_POS 0 0 0 0 0 0 [] [] 11 12 ∅ [] 0.

Definition ex_world : World :=
  mkWorld (mkDb ∅ (mkNextIds 0 1 0 0)) [] 1000 1000000 0 (mkMt [] 0)
    ex_junk_player (mkAvatar 0 0 None [] 0 [] 0 0 0 0 0 0 0 0 [] 0 0 0 0 0 0 None None)
    (mkItem 0 0 0 (material 0 0)) 0.

Definition ex_data : GameData := mkGameData None None (Some
  [mkOpenStateEnt 5 1 []; mkOpenStateEnt 7 0 [(OPEN_STATE_COND_PLAYER_LEVEL, [10; 0]); (3, [0; 0])]]).

Definition ex_player : Player :=
  setProp PROP_PLAYER_HCOIN 300 (setProp PROP_PLAYER_LEVEL 10 (setPlayerUid 4 (Player_default (Some ex_data) ex_junk_player))).

Lemma open_states_updated_witness :
  pl_openstates ex_player = [5] /\ getOpenstate 7 (updateOpenstates (Some ex_data) ex_player) = 1.
Proof.
  split; [reflexivity|]. destruct (open_states_updated (Some ex_data) ex_player) as (H & _).
  - vm_compute. apply NoDup_singleton.
  - apply H. right. apply Exists_cons_tl, Exists_cons_hd. split; [reflexivity|]. right. left. split; [reflexivity|].
    vm_compute. discriminate.
Defined.

Definition no_such (id : Z) : option (option nat) := Some None.
Definition no_sessions (p : nat) : option (option (Z * Z)) := None.

Lemma player_survives_witness :
  exists w' pl', savePlayer no_sessions ex_player ex_world = Some (0, w') /\
    getPlayerByUid (Some ex_data) no_such 4 w' = Some (Some pl') /\ getProp PROP_PLAYER_HCOIN pl' = 300 /\
    getProp PROP_PLAYER_LEVEL pl' = 10 /\ pl_pos pl' <> pl_pos ex_player.
Proof.
  destruct (Player_to_info no_sessions (w_time ex_world) ex_player) as [p|] eqn:Ep; [|vm_compute in Ep; discriminate Ep].
  destruct (savePlayer no_sessions ex_player ex_world) as [[r w']|] eqn:Es.
  2: { unfold savePlayer in Es. rewrite Ep in Es. discriminate Es. }
  assert (r = 0) as -> by (unfold savePlayer in Es; rewrite Ep in Es; injection Es as <- _; reflexivity).
  assert (p <> msg_default) as Hd by (vm_compute in Ep; injection Ep as <-; discriminate).
  assert ((if pp_session_expire_ts p <? w_time ex_world then no_such (pp_session_id p) else Some None) = Some None) as Hq
    by (destruct (_ <? _); reflexivity).
  assert (msg_utf8 p) as Hu by exact I.
  destruct (player_survives (Some ex_data) no_sessions no_such None ex_player p ex_world w' Ep Hu Hd Es Hq) as (pl' & E & R).
  exists w', pl'. split; [reflexivity|]. split; [exact E|].
  split; [exact (rs_props _ _ _ _ _ R PROP_PLAYER_HCOIN)|]. split; [exact (rs_props _ _ _ _ _ R PROP_PLAYER_LEVEL)|].
  rewrite (proj2 (rs_place _ _ _ _ _ R)). intros H. apply (f_equal (fun v => t_x v)) in H. vm_compute in H. discriminate H.
Defined.

Lemma player_created_witness :
  exists pl w', newPlayer (Some ex_data) no_sessions ex_world = Some (pl, w') /\
    getLdbObject (id_key PLAYER (pl_uid pl)) (w_db ex_world) = [] /\ pl_nextGuid pl = 1.
Proof.
  destruct (player_created (Some ex_data) no_sessions ex_world) as (pl & w' & E & _ & F & _ & _ & G & _).
  - vm_compute. split; [discriminate|reflexivity].
  - reflexivity.
  - exists pl, w'. auto.
Defined.

(** Two items and an avatar, of which the first item is thrown away. *)
Definition ex_item : Item := mkItem 1 0 0 (material 1 0).
Definition ex_new : Player := setPlayerUid 4 (Player_default (Some ex_data) ex_junk_player).
Definition ex_rich : Player :=
  (delItem_guid (4 * 2 ^ 32 + 1) (addItem ex_item (addAvatar (w_junk_avatar ex_world) (addItem ex_item ex_new).2).2).2).2.

Lemma player_guids_witness : guids ex_rich = [4 * 2 ^ 32 + 2; 4 * 2 ^ 32 + 3] /\ guids_ok ex_rich.
Proof.
  split; [vm_compute; reflexivity|].
  refine (proj1 (player_guids (Some ex_data) ex_junk_player 4 ex_rich _ _)); [vm_compute; split; [discriminate|reflexivity]|].
  refine (rtc_l gets _ _ _ (gets_item ex_new ex_item _ _ _) _); [vm_compute; reflexivity..|].
  refine (rtc_l gets _ _ _ (gets_avatar _ (w_junk_avatar ex_world) _ _) _); [vm_compute; reflexivity..|].
  refine (rtc_l gets _ _ _ (gets_item _ ex_item _ _ _) _); [vm_compute; reflexivity..|].
  exact (rtc_once _ _ (gets_del_item _ (4 * 2 ^ 32 + 1))).
Defined.
