(* ===== verification/Messages.v ===== *)
(** * Messages of the game server

    The messages of src/proto/ that the handlers parse and build, with the
    fields they use, and the command ids.  A [bool] that is set from an integer
    is [true] when that is not 0; a string that is set from a C string ends at
    its first NUL. *)

From stdpp Require Import gmap.
From S2P Require Import Prelude DbGate Item Avatar Team Vector.

(** ** Command ids *)
Definition CMD_PingReq : Z := 5.
Definition CMD_PingRsp : Z := 6.
Definition CMD_GetPlayerTokenReq : Z := 101.
Definition CMD_GetPlayerTokenRsp : Z := 102.
Definition CMD_PlayerLoginReq : Z := 103.
Definition CMD_PlayerLoginRsp : Z := 104.
Definition CMD_PlayerDataNotify : Z := 108.
Definition CMD_OpenStateUpdateNotify : Z := 124.
Definition CMD_OpenStateChangeNotify : Z := 125.
Definition CMD_PlayerEnterSceneNotify : Z := 201.
Definition CMD_SceneInitFinishReq : Z := 204.
Definition CMD_SceneInitFinishRsp : Z := 205.
Definition CMD_PlayerEnterSceneInfoNotify : Z := 268.
Definition CMD_EnterSceneReadyReq : Z := 282.
Definition CMD_EnterSceneReadyRsp : Z := 283.
Definition CMD_EnterScenePeerNotify : Z := 284.
Definition CMD_EvtAiSyncCombatThreatInfoNotify : Z := 352.
Definition CMD_PlayerStoreNotify : Z := 601.
Definition CMD_StoreWeightLimitNotify : Z := 602.
Definition CMD_AvatarDataNotify : Z := 1716.
Definition CMD_SceneTeamUpdateNotify : Z := 1738.
Definition CMD_GetPlayerBlacklistReq : Z := 4039.
Definition CMD_GetPlayerBlacklistRsp : Z := 4040.

(** ** Ping *)
Record PacketHead := mkHead { ph_client_sequence_id : Z; ph_sent_ms : Z }.

(** No field of it is used. *)
Inductive PingReq := ping_req.
Record PingRsp := mkPingRsp { pr_seq : Z }.

(** ** Token and login *)
Record GetPlayerTokenReq := mkTokenReq { tq_account_uid : list byte; tq_account_token : list byte }.

Record GetPlayerTokenRsp := mkTokenRsp {
  tr_retcode : Z; tr_msg : list byte; tr_uid : Z; tr_token : list byte; tr_account_type : Z;
  tr_is_proficient_player : bool; tr_secret_key_seed : Z; tr_security_cmd_buffer : list byte;
  tr_platform_type : Z; tr_channel_id : Z; tr_country_code : list byte }.

Record PlayerLoginReq := mkLoginReq { lq_token : list byte }.

Record pb_ResVersionConfig := mkPbRes {
  rv_version : Z; rv_relogin : bool; rv_md5 : list byte; rv_release_total_size : list byte;
  rv_version_suffix : list byte; rv_branch : list byte; rv_next_script_version : list byte }.

Record PlayerLoginRsp := mkLoginRsp {
  lr_retcode : Z; lr_is_use_ability_hash : bool; lr_ability_hash_code : Z; lr_client_data_version : Z;
  lr_is_relogin : bool; lr_client_silence_data_version : Z; lr_game_biz : list byte; lr_client_md5 : list byte;
  lr_client_silence_md5 : list byte; lr_res_version_config : option pb_ResVersionConfig;
  lr_client_version_suffix : list byte; lr_client_silence_version_suffix : list byte; lr_country_code : list byte;
  lr_next_res_version_config : option pb_ResVersionConfig; lr_next_resource_url : list byte }.

(** ** What a player is told at login *)
Record AvatarDataNotify := mkAvatarData {
  dn_avatar_list : list pb_AvatarInfo; dn_avatar_team_map : gmap Z pb_AvatarTeam; dn_cur_avatar_team_id : Z;
  dn_choose_avatar_guid : Z; dn_owned_flycloak_list : list Z }.

Record PropValue := mkProp { pv_type : Z; pv_val : Z; pv_ival : Z }.

Record PlayerDataNotify := mkPlayerData {
  pd_nick_name : list byte; pd_server_time : Z; pd_is_first_login_today : bool; pd_region_id : Z;
  pd_prop_map : gmap Z PropValue }.

Definition STORE_PACK : Z := 1.

Record PlayerStoreNotify := mkStore { sn_store_type : Z; sn_item_list : list pb_Item; sn_weight_limit : Z }.

Record StoreWeightLimitNotify := mkStoreLimit {
  sw_store_type : Z; sw_weight_limit : Z; sw_material_count_limit : Z; sw_weapon_count_limit : Z;
  sw_reliquary_count_limit : Z }.

Definition ENTER_SELF : Z := 1.

Record PlayerEnterSceneNotify := mkEnterScene {
  es_scene_id : Z; es_pos : pb_Vector; es_scene_begin_time : Z; es_type : Z; es_target_uid : Z; es_world_level : Z;
  es_enter_scene_token : Z; es_is_first_login_enter_scene : bool; es_enter_reason : Z }.

Record OpenStateUpdateNotify := mkOpenUpdate { ou_open_state_map : gmap Z Z }.
Record OpenStateChangeNotify := mkOpenChange { oc_open_state_map : gmap Z Z }.

(** ** Entering a scene *)
Record EnterSceneReadyRsp := mkReadyRsp { rr_enter_scene_token : Z }.

Record EnterScenePeerNotify := mkPeer {
  pe_dest_scene_id : Z; pe_peer_id : Z; pe_host_peer_id : Z; pe_enter_scene_token : Z }.

Definition RET_ENTER_SCENE_TOKEN_INVALID : Z := 521.

Record SceneInitFinishReq := mkInitReq { iq_enter_scene_token : Z }.
Record SceneInitFinishRsp := mkInitRsp { ir_retcode : Z; ir_enter_scene_token : Z }.

Record AvatarEnterSceneInfo := mkAvatarEnter {
  ae_avatar_guid : Z; ae_avatar_entity_id : Z; ae_weapon_guid : Z; ae_weapon_entity_id : Z }.

Record PlayerEnterSceneInfoNotify := mkEnterInfo {
  ei_cur_avatar_entity_id : Z; ei_avatar_enter_info : list AvatarEnterSceneInfo; ei_team_entity_id : Z;
  ei_mp_entity_id : Z; ei_mp_authority_peer_id : Z; ei_enter_scene_token : Z }.

Record SceneWeaponInfo := mkSceneWeapon {
  wi_entity_id : Z; wi_item_id : Z; wi_guid : Z; wi_level : Z; wi_promote_level : Z }.

Record SceneAvatarInfo := mkSceneAvatar {
  sa_uid : Z; sa_avatar_id : Z; sa_guid : Z; sa_peer_id : Z; sa_equip_id_list : list Z; sa_weapon : SceneWeaponInfo }.

Definition PROT_ENTITY_AVATAR : Z := 1.

Record SceneEntityInfo := mkSceneEntity {
  se_entity_type : Z; se_entity_id : Z; se_life_state : Z; se_avatar : SceneAvatarInfo }.

Record SceneTeamAvatar := mkTeamAvatar {
  ta_player_uid : Z; ta_scene_id : Z; ta_entity_id : Z; ta_avatar_info : pb_AvatarInfo;
  ta_scene_avatar_info : SceneAvatarInfo; ta_scene_entity_info : SceneEntityInfo; ta_weapon_guid : Z;
  ta_weapon_entity_id : Z }.

Record SceneTeamUpdateNotify := mkTeamUpdate { tu_scene_team_avatar_list : list SceneTeamAvatar }.

Record GetPlayerBlacklistRsp := mkBlacklist { bl_retcode : Z }.

(** ** The generated code for them *)
Class Codecs := {
  #[global] c_PacketHead :: MsgCodec PacketHead;
  #[global] c_PingReq :: MsgCodec PingReq;
  #[global] c_PingRsp :: MsgCodec PingRsp;
  #[global] c_GetPlayerTokenReq :: MsgCodec GetPlayerTokenReq;
  #[global] c_GetPlayerTokenRsp :: MsgCodec GetPlayerTokenRsp;
  #[global] c_PlayerLoginReq :: MsgCodec PlayerLoginReq;
  #[global] c_PlayerLoginRsp :: MsgCodec PlayerLoginRsp;
  #[global] c_AvatarDataNotify :: MsgCodec AvatarDataNotify;
  #[global] c_PlayerDataNotify :: MsgCodec PlayerDataNotify;
  #[global] c_PlayerStoreNotify :: MsgCodec PlayerStoreNotify;
  #[global] c_StoreWeightLimitNotify :: MsgCodec StoreWeightLimitNotify;
  #[global] c_PlayerEnterSceneNotify :: MsgCodec PlayerEnterSceneNotify;
  #[global] c_OpenStateUpdateNotify :: MsgCodec OpenStateUpdateNotify;
  #[global] c_OpenStateChangeNotify :: MsgCodec OpenStateChangeNotify;
  #[global] c_EnterSceneReadyRsp :: MsgCodec EnterSceneReadyRsp;
  #[global] c_EnterScenePeerNotify :: MsgCodec EnterScenePeerNotify;
  #[global] c_SceneInitFinishReq :: MsgCodec SceneInitFinishReq;
  #[global] c_SceneInitFinishRsp :: MsgCodec SceneInitFinishRsp;
  #[global] c_PlayerEnterSceneInfoNotify :: MsgCodec PlayerEnterSceneInfoNotify;
  #[global] c_SceneTeamUpdateNotify :: MsgCodec SceneTeamUpdateNotify;
  #[global] c_GetPlayerBlacklistRsp :: MsgCodec GetPlayerBlacklistRsp
}.
