(* ===== verification/NetPlayer.v ===== *)
(** * Players and the game server

    What of src/player.cpp works on a session: the notifications of open
    states, [Player::onLogin], and the destructor, which saves; with the lookup
    of a session that a player who is loaded makes.  A player belongs to the
    session that points to it; a session is named by its pointer (GameServer.v).
    The transport of a session always has an [ikcpcb], so [Gameserver::send]
    does not answer for it, and what the static buffer of [sendPacket] held
    before is never sent. *)

From stdpp Require Import gmap.
From Stdlib Require Import Strings.String.
From S2P Require Import Prelude Packet Session GameServer Account DbGate Item Avatar Team Vector Player PlayerDb Messages.

Section net.
Context {Addr : Type} `{MsgCodec AccountInfo} `{MsgCodec NextIdInfo} `{MsgCodec PlayerInfo} `{MsgCodec InventoryEntry} `{Codecs}.
Implicit Types g : server Addr Player World.

(** [globalGameData]; [dispatchKey] when there is one. *)
Variable gd : option GameData.
Variable dispatch_key : option (list byte).

(** ** Sessions, by pointer *)

(** [getSessionById] of the server. *)
Definition find_session g (id : Z) : option (option nat) := getSessionById (g_slots g) id g.

(** What a player is stored with: the id of the transport, if there is one,
    and the seed. *)
Definition session_info g (q : nat) : option (option (Z * Z)) :=
  s ← g_heap g !! q;
  Some (match s_kcp s with None => None | Some ks => Some (getSessionId ks, s_seed s) end).

(** [~Player] *)
Definition del_player (pl : Player) g : option World :=
  '(_, w) ← saveToDb (session_info g) pl (g_world g); Some w.

Definition load_player (uid : Z) g : option (option Player) := getPlayerByUid gd (find_session g) uid (g_world g).

Definition send_packet (p : nat) (pkt : Packet) g : option (Z * server Addr Player World) :=
  s ← g_heap g !! p;
  '(r, s, out) ← sendPacket dispatch_key 0 (replicate 4096 Byte.x00) s pkt;
  Some (r, store p s out g).

(** A change of the object at [p]. *)
Definition on_session (p : nat) (f : Session Player -> Session Player) g : option (server Addr Player World) :=
  s ← g_heap g !! p; Some (store p (f s) [] g).

Definition put_player (p : nat) (pl : Player) : server Addr Player World -> option (server Addr Player World) :=
  on_session p (fun s => setPlayer s (Some pl)).

Definition next_seq (p : nat) g : option (Z * server Addr Player World) :=
  s ← g_heap g !! p; let '(n, s) := nextSeq s in Some (n, store p s [] g).

(** The player of a session. *)
Definition player_at (p : nat) g : option (option Player) := s ← g_heap g !! p; Some (s_player s).

(** ** Packets *)

(** [buildHeader(seq)] *)
Definition with_header g (seq : Z) (pkt : Packet) : Packet :=
  buildHeader (fun seq ms => serialize (mkHead seq ms)) (w_ms (g_world g)) pkt seq.

(** A message that is left out when it cannot be serialized; [head]: the
    argument of [buildHeader], which is not always called. *)
Definition notify {A} `{MsgCodec A} (p : nat) (cmd : Z) (head : option Z) (m : A) g : option (server Addr Player World) :=
  match serialize m with
  | None => Some g
  | Some d =>
      let pkt := new_packet cmd in
      let pkt := match head with None => pkt | Some seq => with_header g seq pkt end in
      '(_, g) ← send_packet p (setPacketData pkt d) g; Some g
  end.

(** ** Open states *)

(** To the player's session, when it has one that got a token. *)
Definition notify_open {A} `{MsgCodec A} (pl : Player) (cmd : Z) (m : A) g : option (server Addr Player World) :=
  match pl_session pl with
  | None => Some g
  | Some q => s ← g_heap g !! q; if LOGIN_WAIT <=? getState s then notify q cmd None m g else Some g
  end.

Definition setOpenstate_notify (state sendNotify : Z) (pl : Player) g : option (Player * server Addr Player World) :=
  if is_open_state (pl_openstates pl) state then Some (pl, g)
  else
    let pl := setOpenstate state pl in
    g ← (if sendNotify =? 0 then Some g
         else notify_open pl CMD_OpenStateChangeNotify (mkOpenChange {[state := 1]}) g);
    Some (pl, g).

Definition clearOpenstate_notify (state sendNotify : Z) (pl : Player) g : option (Player * server Addr Player World) :=
  pl ← clearOpenstate state pl;
  g ← (if sendNotify =? 0 then Some g
       else notify_open pl CMD_OpenStateChangeNotify (mkOpenChange {[state := 0]}) g);
  Some (pl, g).

Definition updateOpenstates_notify (sendNotify : Z) (pl : Player) g : option (Player * server Addr Player World) :=
  match (d ← gd; openstate_data d) with
  | None => Some (pl, g)
  | Some _ =>
      let pl := updateOpenstates gd pl in
      g ← (if sendNotify =? 0 then Some g
           else notify_open pl CMD_OpenStateUpdateNotify
                  (mkOpenUpdate (list_to_map (map (fun i => (i, 1)) (pl_openstates pl)))) g);
      Some (pl, g)
  end.

(** ** onLogin *)

(** [((unsigned long long) player->getUid() << 32) | 0xd0d0c0] *)
Definition login_guid (pl : Player) : Z := Z.lor (u64 (Z.shiftl (pl_uid pl) 32)) 0xd0d0c0.

Definition login_weapon (guid : Z) : Item :=
  mkItem 14502 ITEM_WEAPON (Z.lor guid 0x1000000) (weapon (mkWeapon 700000 1 90 6 5 [1145024])).

Definition TEST_TEAM : list byte := bytes_of "yagips test team".

(** The player, the avatar, the team and the item after the first part. *)
Definition outfit (w : World) (pl : Player) : option (Player * Avatar * AvatarTeam * Item) :=
  let guid := login_guid pl in
  let '(_, it, pl) := addItem (login_weapon guid) pl in
  av ← new_Avatar gd (w_junk_avatar w) (w_time w) 10000029;
  '(_, av) ← setWeapon (items_of pl) (getItemByGuid (it_guid it) pl) (setGuid guid av);
  let '(_, av, pl) := addAvatar av pl in
  let '(_, pl) := swapToAvatar_guid guid pl in
  '(_, t) ← addAvatarToTeam (getAvatarByGuid guid pl) (Some (setName TEST_TEAM new_AvatarTeam)) pl;
  t ← t;
  let '(_, pl) := addAvatarTeam (Some t) pl in
  '(_, pl) ← swapToTeam_ptr None t pl;
  Some (pl, av, t, it).

(** The conversion of an avatar that is not const; its owner is loaded from
    the database when the equipment was not looked up yet. *)
Definition avatar_equips (items : nat -> option Item) (a : Avatar) g : option Avatar :=
  if negb (set_equips a =? 0) then Some a
  else
    owner ← (if getUid a =? 0 then Some None else load_player (getUid a) g);
    loadEquips items (pl_inventory <$> owner) a.

Definition avatar_pb (items : nat -> option Item) (a : Avatar) g : option pb_AvatarInfo :=
  a ← avatar_equips items a g; Avatar_to_pb items a.

Definition prop_values (pl : Player) : gmap Z PropValue :=
  map_imap (fun p v => Some (mkProp p v v)) (pl_props pl).

Definition onLogin (p : nat) g : option (server Addr Player World) :=
  s ← g_heap g !! p;
  match s_kcp s, s_player s with
  | None, _ | _, None => Some g
  | Some _, Some pl =>
      let guid := login_guid pl in
      '(pl, av, t, it) ← outfit (g_world g) pl;
      g ← put_player p pl g;
      avp ← avatar_pb (items_of pl) av g;
      atp ← AvatarTeam_to_pb (avatar_at pl) t;
      let adn := mkAvatarData [avp] {[1 := atp]} 1 guid [140001] in
      g ← match serialize adn with
          | None => Some g
          | Some _ => '(n, g) ← next_seq p g; notify p CMD_AvatarDataNotify (Some n) adn g
          end;
      '(pl, g) ← updateOpenstates_notify 1 pl g;
      g ← put_player p pl g;
      let ms := w_ms (g_world g) in
      g ← notify p CMD_PlayerDataNotify (Some 2) (mkPlayerData (pl_name pl) ms true 1 (prop_values pl)) g;
      it ← Item_to_pb it;
      g ← notify p CMD_PlayerStoreNotify (Some 2) (mkStore STORE_PACK [it] 5000) g;
      g ← notify p CMD_StoreWeightLimitNotify None (mkStoreLimit STORE_PACK 5000 3000 1000 2000) g;
      g ← notify p CMD_PlayerEnterSceneNotify None
            (mkEnterScene (pl_scene_id pl) (Vector_to_pb (pl_pos pl)) ms ENTER_SELF (pl_uid pl) (pl_worldLevel pl)
               (pl_tpToken pl) true 1) g;
      on_session p (fun s => setState s ACTIVE) g
  end.
End net.
