(* ===== verification/Handlers.v ===== *)
(** * The packet handlers

    src/packet_handlers.cpp and src/packets/: [processPacket] and the handler
    of each command, from a ping to the end of a login.  A handler gets the
    session it runs for by pointer (GameServer.v), and the header and the data
    of the packet; it returns what the C++ function returns.  A handler that
    fails (an index out of bounds, a NULL or dangling pointer) has no result. *)

From stdpp Require Import gmap.
From Stdlib Require Import Strings.String.
From S2P Require Import Prelude TomlText TomlValue RunConfig Packet Session GameServer.
From S2P Require Import Account DbGate Item Avatar Team Vector Player PlayerDb Messages NetPlayer.

(** ** The C library *)

(** [strtoul] with base 0: the value, and whether there was a number. *)
Definition ULONG_MAX : Z := 0xffffffffffffffff.

Definition strtoul (buf : list byte) : option Z :=
  let s := skip_c_space buf in
  let neg := hd0 s =? 45 in
  let s := if neg || (hd0 s =? 43) then tl s else s in
  let '(base, s) := if hex_prefix s then (16, drop 2 s) else ((if hd0 s =? 48 then 8 else 10), s) in
  let '(v, n, _) := strto_digits base s 0 0 in
  match n with
  | O => None
  | _ => Some (if ULONG_MAX <? v then ULONG_MAX else if neg then u64 (- v) else v)
  end.

(** [strncmp(a, b, n) == 0] *)
Fixpoint same_prefix (n : nat) (a b : list byte) : bool :=
  match n with
  | O => true
  | S n => (hd0 a =? hd0 b) && ((hd0 a =? 0) || same_prefix n (tl a) (tl b))
  end.

(** A [char*] of the configuration that is copied when it is not NULL. *)
Definition field (s : option (list byte)) : list byte := cstr (default [] s).

(** [secretKeyBuf] of src/keys.c *)
Definition secretKeyBuf : list byte := map zb
  [0xec; 0xfc; 0x6c; 0x74; 0x31; 0x4c; 0x09; 0xa7; 0x9d; 0xdc; 0x9f; 0xdc; 0x2e; 0x15; 0xd5; 0x5c;
   0xf6; 0x70; 0x58; 0x50; 0xa6; 0x9c; 0x22; 0xc6; 0x80; 0x28; 0xbe; 0x05; 0x61; 0xc6; 0xed; 0x85].

Section handlers.
Context {Addr : Type} `{MsgCodec AccountInfo} `{MsgCodec NextIdInfo} `{MsgCodec PlayerInfo} `{MsgCodec InventoryEntry} `{Codecs}.
Implicit Types g : server Addr Player World.

Variable gd : option GameData.
Variable dispatch_key : option (list byte).

(** [globalConfig->getConfig()], [None] for NULL. *)
Variable config : option config_t.

(** What a handler returns, and the server afterwards. *)
Abbreviation result := (option (Z * server Addr Player World)).

(** [session.close(reason); return -1;] *)
Definition refuse (p : nat) (reason : Z) g : result :=
  g ← close_at del_player p reason g; Some (-1, g).

(** [if (session.sendPacket(pkt) < 0) return -1;] *)
Definition then_send (p : nat) (pkt : Packet) g (k : server Addr Player World -> result) : result :=
  '(r, g) ← send_packet dispatch_key p pkt g; if r <? 0 then Some (-1, g) else k g.

(** [if (!m.SerializeToString(&data)) return -1;] *)
Definition then_data {A} `{MsgCodec A} (m : A) g (k : list byte -> result) : result :=
  match serialize m with None => Some (-1, g) | Some d => k d end.

(** A message of a packet that must parse. *)
Definition then_parse {A} `{MsgCodec A} (data : list byte) g (k : A -> result) : result :=
  match parse_from data with None => Some (-1, g) | Some m => k m end.

(** ** src/packets/ping.cpp *)
Definition handlePingReq (p : nat) (header data : list byte) g : result :=
  then_parse header g (fun head : PacketHead =>
  then_parse data g (fun _ : PingReq =>
  g ← on_session p (fun s => setLastPingTime s (w_ms (g_world g))) g;
  then_data (mkPingRsp (ph_client_sequence_id head)) g (fun data =>
  send_packet dispatch_key p (setPacketData (setHeader (new_packet CMD_PingRsp) header) data) g))).

(** ** src/packets/player_token.cpp *)

(** [session.generateSessionKey()] *)
Definition generate_key (p : nat) g : option (server Addr Player World) :=
  s ← g_heap g !! p;
  '(s, m) ← generateSessionKey (w_random (g_world g)) s (w_mt (g_world g));
  Some (store p s [] (set_world (set_mt m (g_world g)) g)).

(** The session the player has, if any, is closed. *)
Definition close_old (pl : Player) g : option (server Addr Player World) :=
  q ← getSessionByUid pl_uid (g_slots g) (pl_uid pl) g;
  match q with None => Some g | Some q => close_at del_player q 4 g end.

(** The account's player, or a new one. *)
Definition token_player (a : Account) (id : Z) g : option (Player * server Addr Player World) :=
  pl ← getPlayerByAid gd (find_session g) id (g_world g);
  match pl with
  | Some pl => g ← close_old pl g; Some (pl, g)
  | None =>
      '(pl, w) ← newPlayer gd (session_info g) (g_world g);
      let pl := setAccount (Some a) pl in
      '(_, w) ← saveToDb (session_info g) pl w;
      Some (pl, set_world w g)
  end.

Definition token_rsp (a : Account) (pl : Player) (seed : Z) : GetPlayerTokenRsp :=
  mkTokenRsp 0 (bytes_of "ok") (pl_uid pl) (comboToken a) 1 false seed secretKeyBuf 3 1 (bytes_of "US").

(** The session gets its player and its key. *)
Definition accept_token (p : nat) (a : Account) (id : Z) g : result :=
  '(pl, g) ← token_player a id g;
  g ← put_player p pl g;
  g ← generate_key p g;
  g ← on_session p (fun s => setState (setUseSecretKey s 1) LOGIN_WAIT) g;
  s ← g_heap g !! p;
  then_data (token_rsp a pl (s_seed s)) g (fun data =>
  '(n, g) ← next_seq p g;
  let pkt := with_header g n (new_packet CMD_GetPlayerTokenRsp) in
  send_packet dispatch_key p (setUseDispatchKey (setPacketData pkt data) 1) g).

(** The stored token, as long as it is, begins the one that was sent. *)
Definition check_token (p : nat) (a : Account) (token : list byte) g (k : result) : result :=
  let ctoken := comboToken a in
  if decide (ctoken = []) then refuse p 8 g
  else if same_prefix (length ctoken) (cstr ctoken) (cstr token) then k
  else refuse p 7 g.

Definition handleGetPlayerTokenReq (p : nat) (data : list byte) g : result :=
  s ← g_heap g !! p;
  if negb (getState s =? TOKEN_WAIT) then Some (-1, g)
  else
    then_parse data g (fun req : GetPlayerTokenReq =>
    match strtoul (cstr (tq_account_uid req)) with
    | None => refuse p 12 g
    | Some v =>
        let id := u32 v in
        match getAccountByAid id (w_db (g_world g)) with
        | None => refuse p 7 g
        | Some a => check_token p a (tq_account_token req) g (accept_token p a id g)
        end
    end).

(** ** src/packets/player_login.cpp *)

Definition res_pb (r : ResVersionConfig) : pb_ResVersionConfig :=
  mkPbRes (resVersion r) false (field (resourceRes r)) (field (releaseTotalSize r)) (field (resourceSuffix r))
    (field (branch r)) [].

Definition res_next_pb (r : ResVersionConfig) : pb_ResVersionConfig :=
  mkPbRes (resVersion r) (negb (relogin r =? 0)) (field (resourceRes r)) (field (releaseTotalSize r))
    (field (resourceSuffix r)) (field (branch r)) (field (scriptVersion r)).

Definition login_rsp : PlayerLoginRsp :=
  let r := c ← config; i ← regionInfo c; res i in
  let n := c ← config; i ← regionInfo c; resNext i in
  let num f := from_option f 0 r in
  let text f := from_option (fun r => field (f r)) [] r in
  mkLoginRsp 0 true 1844674 (num dataVersion) (from_option (fun r => negb (relogin r =? 0)) false r)
    (num silenceVersion) (bytes_of "hk4e_global") (text dataRes) (text silenceRes) (res_pb <$> r)
    (text dataSuffix) (text silenceSuffix) (bytes_of "US") (res_next_pb <$> n)
    (from_option (fun r => field (resourceUrl r)) [] n).

Definition accept_login (p : nat) g : result :=
  then_data login_rsp g (fun data =>
  let pkt := with_header g 1 (new_packet CMD_PlayerLoginRsp) in
  '(r, g) ← send_packet dispatch_key p (setUseDispatchKey (setPacketData pkt data) 1) g;
  g ← (if r =? 0 then onLogin gd dispatch_key p g else Some g);
  Some (r, g)).

Definition handlePlayerLoginReq (p : nat) (data : list byte) g : result :=
  s ← g_heap g !! p;
  if negb (getState s =? LOGIN_WAIT) then Some (-1, g)
  else
    then_parse data g (fun req : PlayerLoginReq =>
    match (pl ← s_player s; pl_account pl) with
    | None => refuse p 7 g
    | Some a => check_token p a (lq_token req) g (accept_login p g)
    end).

(** ** src/packets/enter_scene.cpp *)

Definition AVATAR_ENTITY : Z := Z.lor (Z.shiftl 1 24) 1.
Definition TEAM_ENTITY : Z := Z.lor (Z.shiftl 9 24) 1.
Definition LEVEL_ENTITY : Z := Z.lor (Z.shiftl 11 24) 1.
Definition WEAPON_ENTITY : Z := Z.lor (Z.shiftl 6 24) 1.

Definition handleEnterSceneReadyReq (p : nat) g : result :=
  pl ← player_at p g;
  match pl with
  | None => Some (-1, g)
  | Some pl =>
      then_data (mkPeer 3 1 1 (pl_tpToken pl)) g (fun data =>
      then_send p (setPacketData (new_packet CMD_EnterScenePeerNotify) data) g (fun g =>
      then_data (mkReadyRsp (pl_tpToken pl)) g (fun data =>
      send_packet dispatch_key p (setPacketData (with_header g 11 (new_packet CMD_EnterSceneReadyRsp)) data) g)))
  end.

Definition enter_info (pl : Player) : PlayerEnterSceneInfoNotify :=
  let uid := u64 (Z.shiftl (pl_uid pl) 32) in
  mkEnterInfo AVATAR_ENTITY
    [mkAvatarEnter (Z.lor uid 0xd0d0c0) AVATAR_ENTITY (Z.lor uid 0x1d0d0c0) WEAPON_ENTITY]
    TEAM_ENTITY LEVEL_ENTITY 1 (pl_tpToken pl).

(** [None]: the avatar has no weapon. *)
Definition team_avatar (pl : Player) (a : Avatar) (pb : pb_AvatarInfo) : option SceneTeamAvatar :=
  it ← item_at (items_of pl) (av_weapon a);
  w ← match it_data it with weapon w => Some w | _ => None end;
  let info := mkSceneAvatar (pl_uid pl) (av_id a) (av_guid a) 1 [u32 (it_guid it)]
                (mkSceneWeapon WEAPON_ENTITY (it_id it) (it_guid it) (wp_level w) (wp_ascension w)) in
  Some (mkTeamAvatar (pl_uid pl) 3 AVATAR_ENTITY pb info
          (mkSceneEntity PROT_ENTITY_AVATAR AVATAR_ENTITY 1 info) (it_guid it) WEAPON_ENTITY).

(** The avatar at a pointer, changed. *)
Definition set_avatar_at (q : nat) (a : Avatar) (pl : Player) : Player :=
  set_avatars (map (fun e => if (e.1 =? q)%nat then (e.1, a) else e) (pl_avatars pl)) pl.

(** The part after the first notification is sent. *)
Definition send_team (p : nat) (pl : Player) g (k : server Addr Player World -> result) : result :=
  q ← getCurAvatar pl;
  match q with
  | None => k g
  | Some q =>
      a ← avatar_at pl q;
      a ← avatar_equips gd (items_of pl) a g;
      pb ← Avatar_to_pb (items_of pl) a;
      g ← put_player p (set_avatar_at q a pl) g;
      t ← team_avatar pl a pb;
      then_data (mkTeamUpdate [t]) g (fun data =>
      then_send p (setPacketData (new_packet CMD_SceneTeamUpdateNotify) data) g k)
  end.

Definition scene_init_rsp (p : nat) (rsp : SceneInitFinishRsp) g : result :=
  then_data rsp g (fun data =>
  send_packet dispatch_key p (setPacketData (with_header g 11 (new_packet CMD_SceneInitFinishRsp)) data) g).

Definition handleSceneInitFinishReq (p : nat) (data : list byte) g : result :=
  pl ← player_at p g;
  match pl with
  | None => Some (-1, g)
  | Some pl =>
      then_parse data g (fun req : SceneInitFinishReq =>
      if negb (pl_tpToken pl =? iq_enter_scene_token req)
      then scene_init_rsp p (mkInitRsp RET_ENTER_SCENE_TOKEN_INVALID 0) g
      else
        then_data (enter_info pl) g (fun data =>
        then_send p (setPacketData (new_packet CMD_PlayerEnterSceneInfoNotify) data) g (fun g =>
        send_team p pl g (scene_init_rsp p (mkInitRsp 0 (pl_tpToken pl))))))
  end.

(** ** src/packets/player_blacklist.cpp *)
Definition handleGetPlayerBlacklistReq (p : nat) g : result :=
  then_data (mkBlacklist 0) g (fun data =>
  send_packet dispatch_key p (setPacketData (with_header g 2 (new_packet CMD_GetPlayerBlacklistRsp)) data) g).

(** ** src/packet_handlers.cpp *)

(** With [isValid]. *)
Definition processPacket (p : nat) (pkt : Packet) g : option (Z * bool * server Addr Player World) :=
  let op := p_opcode pkt in
  let valid (r : result) := '(n, g) ← r; Some (n, true, g) in
  if op =? CMD_PingReq then valid (handlePingReq p (p_header pkt) (p_data pkt) g)
  else if op =? CMD_GetPlayerTokenReq then valid (handleGetPlayerTokenReq p (p_data pkt) g)
  else if op =? CMD_PlayerLoginReq then valid (handlePlayerLoginReq p (p_data pkt) g)
  else if op =? CMD_EnterSceneReadyReq then valid (handleEnterSceneReadyReq p g)
  else if op =? CMD_SceneInitFinishReq then valid (handleSceneInitFinishReq p (p_data pkt) g)
  else if op =? CMD_GetPlayerBlacklistReq then valid (handleGetPlayerBlacklistReq p g)
  else if op =? CMD_EvtAiSyncCombatThreatInfoNotify then Some (0, true, g)
  else Some (s32 (u32 (- op)), false, g).
End handlers.
