(* ===== verification/HandlerFacts.v ===== *)
(** * The packet handlers: what they keep

    The program's own players, database and handlers satisfy what the server
    asks of them (the classes of GameServerProps.v); and a step of a handler
    that brings no session further than it was is [calm]. *)

From stdpp Require Import gmap.
From S2P Require Import Prelude KcpTypes Mt64 TomlText Ec2b Packet Session GameServer GameServerProps Account DbGate DbProps Item Avatar Team.
From S2P Require Import Vector Player PlayerDb PlayerFacts Messages NetPlayer Handlers.

(** ** How far a session has got *)

(** A token that opens something. *)
Definition has_token (pl : Player) : Prop := exists a, pl_account pl = Some a /\ comboToken a <> [].

(** A session is closed; or waits for a token and has no player; or has one,
    with an account, and encrypts with its own key. *)
Definition staged (s : Session Player) : Prop :=
  (getState s = NOT_CONNECTED /\ s_player s = None /\ s_kcp s = None) \/
  (getState s = TOKEN_WAIT /\ s_player s = None) \/
  ((getState s = LOGIN_WAIT \/ getState s = ACTIVE) /\ useSecretKey s = true /\
   exists pl, s_player s = Some pl /\ has_token pl).

Lemma staged_player s pl :
  staged s -> s_player s = Some pl -> (getState s = LOGIN_WAIT \/ getState s = ACTIVE) /\ useSecretKey s = true /\ has_token pl.
Proof.
  intros [(_ & E & _)|[(_ & E)|(H & K & pl' & E & T)]]; try congruence.
  intros E'. assert (pl' = pl) as -> by congruence. auto.
Qed.

Lemma staged_put s pl pl' : staged s -> s_player s = Some pl -> pl_account pl' = pl_account pl -> staged (setPlayer s (Some pl')).
Proof.
  intros Hs Hp Ha. destruct (staged_player s pl Hs Hp) as (H & K & a & E & T). right. right.
  split; [exact H|]. split; [exact K|]. exists pl'. split; [reflexivity|]. exists a. split; [congruence|exact T].
Qed.

Lemma staged_active s pl : staged s -> s_player s = Some pl -> staged (setState s ACTIVE).
Proof.
  intros Hs Hp. destruct (staged_player s pl Hs Hp) as (H & K & T). right. right.
  split; [right; reflexivity|]. split; [exact K|]. exists pl. split; [exact Hp|exact T].
Qed.

Lemma staged_kcp s k : is_Some (s_kcp s) \/ k = None -> staged s -> staged (setKcp s k).
Proof.
  intros Hk [(H1 & H2 & H3)|Hs]; [|right; exact Hs]. left. split; [exact H1|]. split; [exact H2|].
  destruct Hk as [[x E]|E]; [congruence|exact E].
Qed.

(** What of a session the handlers reason about. *)
Record view := mkView { v_who : option (Z * option Account); v_state : Z; v_key : bool }.

Definition who (pl : Player) : Z * option Account := (pl_uid pl, pl_account pl).

Definition view_of (s : Session Player) : view := mkView (who <$> s_player s) (getState s) (useSecretKey s).

Definition is_closed (s : Session Player) : Prop := s_player s = None /\ getState s = NOT_CONNECTED.

Section laws.
Context {Addr : Type} {CP : MsgCodec PlayerInfo} {CI : MsgCodec InventoryEntry} {SI : SessionIds}.
Implicit Types g : server Addr Player World.

Lemma del_player_quiet pl g :
  savable pl -> world_quiet (g_world g) -> exists w, del_player pl g = Some w /\ world_quiet w.
Proof.
  intros Hs Hw. unfold del_player. destruct (saveToDb_quiet (session_info g) pl _ Hs Hw) as (r & w & -> & W).
  cbn [mbind option_bind]. eauto.
Qed.

#[export] Instance program_players : PlayerLaws (Addr := Addr) del_player := {|
  player_ok := savable; world_ok := world_quiet; stage_ok := staged;
  stage_new ks now seed key := or_intror (or_introl (conj eq_refl eq_refl));
  stage_closed s reason := or_introl (conj eq_refl (conj eq_refl eq_refl));
  stage_kcp := staged_kcp;
  del_player_ok := del_player_quiet
|}.

Abbreviation wf := (gs_wf del_player).

(** *** Steps that bring no session further *)
Record calm g g' : Prop := {
  ca_served : served del_player g g';
  ca_view : forall q s', g_heap g' !! q = Some s' ->
    exists s, g_heap g !! q = Some s /\ (view_of s' = view_of s \/ is_closed s')
}.

Lemma calm_refl g : wf g -> calm g g.
Proof. intros Hw. constructor; [apply served_refl, Hw|eauto]. Qed.

Lemma calm_trans g1 g2 g3 : calm g1 g2 -> calm g2 g3 -> calm g1 g3.
Proof.
  intros [S1 V1] [S2 V2]. constructor; [eapply served_trans; eassumption|]. intros q s3 E.
  destruct (V2 q s3 E) as (s2 & E2 & H2). destruct (V1 q s2 E2) as (s1 & E1 & H1). exists s1. split; [exact E1|].
  destruct H2 as [H2|]; [|auto]. destruct H1 as [H1|[Hp Hs]]; [left; congruence|right].
  unfold view_of in H2. injection H2 as H3 H4 _. rewrite Hp in H3.
  split; [destruct (s_player s3); [discriminate H3|reflexivity]|congruence].
Qed.

Lemma calm_wf g g' : calm g g' -> wf g'.
Proof. intros C. exact (sv_wf _ _ _ (ca_served _ _ C)). Qed.

Lemma calm_live g g' p : calm g g' -> is_Some (g_heap g !! p) -> is_Some (g_heap g' !! p).
Proof. intros C. exact (sv_live _ _ _ (ca_served _ _ C) p). Qed.

Lemma calm_store p s s' out g :
  wf g -> g_heap g !! p = Some s -> session_ok del_player s' -> view_of s' = view_of s -> calm g (store p s' out g).
Proof.
  intros Hw Hp Hs Hv. constructor; [apply served_store; eauto|]. intros q t E. cbn [store emit set_heap g_heap] in E.
  destruct (decide (p = q)) as [<-|Hn].
  - rewrite lookup_insert_eq in E. injection E as <-. eauto.
  - rewrite lookup_insert_ne in E by exact Hn. eauto.
Qed.

Lemma calm_close p reason g g' : wf g -> close_at del_player p reason g = Some g' -> calm g g'.
Proof.
  intros Hw E. constructor; [exact (served_close _ _ _ _ _ Hw E)|]. intros q t Et.
  destruct (close_at_inv _ _ _ _ _ E) as (s & Hs & _ & Hh & _). rewrite Hh in Et.
  destruct (decide (p = q)) as [<-|Hn].
  - rewrite lookup_insert_eq in Et. injection Et as <-. exists s. split; [exact Hs|]. right. split; reflexivity.
  - rewrite lookup_insert_ne in Et by exact Hn. eauto.
Qed.

Lemma calm_world w g : wf g -> world_quiet w -> calm g (set_world w g).
Proof. intros Hw Ho. constructor; [exact (served_world _ w g Hw Ho)|eauto]. Qed.

Lemma refuse_calm p reason g r g' : wf g -> refuse p reason g = Some (r, g') -> calm g g'.
Proof.
  intros Hw. unfold refuse. destruct (close_at _ _ _ _) as [g1|] eqn:E; [|discriminate]. cbn [mbind option_bind].
  intros E'. injection E' as _ <-. exact (calm_close _ _ _ _ Hw E).
Qed.

(** *** Steps that leave the players as they are *)
Record steady g g' : Prop := {
  sd_calm : calm g g';
  sd_players : forall q, s_player <$> g_heap g' !! q = s_player <$> g_heap g !! q
}.

Lemma steady_refl g : wf g -> steady g g.
Proof. intros Hw. constructor; [apply calm_refl, Hw|reflexivity]. Qed.

Lemma steady_trans g1 g2 g3 : steady g1 g2 -> steady g2 g3 -> steady g1 g3.
Proof. intros [C1 P1] [C2 P2]. constructor; [eapply calm_trans; eassumption|congruence]. Qed.

Lemma steady_wf g g' : steady g g' -> wf g'.
Proof. intros S. exact (calm_wf _ _ (sd_calm _ _ S)). Qed.

Lemma steady_store p s s' out g :
  wf g -> g_heap g !! p = Some s -> session_ok del_player s' -> s_player s' = s_player s -> view_of s' = view_of s ->
  steady g (store p s' out g).
Proof.
  intros Hw Hp Hs Hpl Hv. constructor; [exact (calm_store p s s' out g Hw Hp Hs Hv)|]. intros q.
  cbn [store emit set_heap g_heap]. destruct (decide (p = q)) as [<-|Hn].
  - rewrite lookup_insert_eq, Hp. cbn. congruence.
  - rewrite lookup_insert_ne by exact Hn. reflexivity.
Qed.

Lemma steady_at g g' p s pl :
  steady g g' -> g_heap g !! p = Some s -> s_player s = Some pl ->
  exists s', g_heap g' !! p = Some s' /\ s_player s' = Some pl.
Proof.
  intros [_ P] Hs Hp. specialize (P p). rewrite Hs in P. destruct (g_heap g' !! p) as [s'|]; [|discriminate P].
  exists s'. split; [reflexivity|]. cbn in P. congruence.
Qed.

Lemma next_seq_steady p g n g' : wf g -> next_seq p g = Some (n, g') -> steady g g'.
Proof.
  intros Hw. unfold next_seq. destruct (g_heap g !! p) as [s|] eqn:E; [|discriminate]. cbn [mbind option_bind nextSeq].
  intros E'. injection E' as _ <-. apply (steady_store p s); [exact Hw|exact E| |reflexivity..].
  destruct (wf_sessions _ g Hw p s E). constructor; assumption.
Qed.

(** *** Sending *)
Variable gd : option GameData.
Variable dispatch_key : option (list byte).

Lemma sendPacket_shape raw buf (s : Session Player) pkt r s' out :
  sendPacket dispatch_key raw buf s pkt = Some (r, s', out) ->
  s' = s \/ exists ks ks', s_kcp s = Some ks /\ getSessionId ks' = getSessionId ks /\ s' = setKcp s (Some ks').
Proof.
  unfold sendPacket. destruct (build _ _ _) as [[[n b] m]|]; [|discriminate]. cbn [mbind option_bind].
  destruct (n <? 0); [intros E; injection E as _ <- _; auto|]. destruct b as [b|]; [|discriminate].
  destruct m as [m|]; [|discriminate]. cbn [mbind option_bind].
  destruct (match packet_key _ _ _ with Some _ => _ | None => _ end) as [wire|]; [|discriminate]. cbn [mbind option_bind].
  destruct (s_kcp s) as [ks|]; [|discriminate]. cbn [mbind option_bind].
  pose proof (ks_send_id raw ks wire) as Hid. destruct (ks_send raw ks wire) as [[z ks'] o].
  intros E. injection E as _ <- _. right. exists ks, ks'. auto.
Qed.

Lemma send_steady p pkt g r g' : wf g -> send_packet dispatch_key p pkt g = Some (r, g') -> steady g g'.
Proof.
  intros Hw. unfold send_packet. destruct (g_heap g !! p) as [s|] eqn:E; [|discriminate]. cbn [mbind option_bind].
  destruct (sendPacket _ _ _ _ _) as [[[n s'] out]|] eqn:Es; [|discriminate]. cbn [mbind option_bind].
  intros E'. injection E' as _ <-. pose proof (wf_sessions _ g Hw p s E) as Hs.
  destruct (sendPacket_shape _ _ _ _ _ _ _ Es) as [->|(ks & ks' & Hk & Hid & ->)].
  - exact (steady_store p s s out g Hw E Hs eq_refl eq_refl).
  - exact (steady_store p s (setKcp s (Some ks')) out g Hw E (session_kcp _ s ks ks' Hs Hk Hid) eq_refl eq_refl).
Qed.

Context `{Codecs}.

Lemma notify_steady {A} `{MsgCodec A} p cmd head (m : A) g g' :
  wf g -> notify dispatch_key p cmd head m g = Some g' -> steady g g'.
Proof.
  intros Hw. unfold notify. destruct (serialize m) as [d|]; [|intros E; injection E as <-; apply steady_refl, Hw].
  cbv zeta. destruct (send_packet _ _ _ _) as [[r g1]|] eqn:E; [|discriminate]. cbn [mbind option_bind].
  intros E'. injection E' as <-. exact (send_steady _ _ _ _ _ Hw E).
Qed.

Lemma notify_open_steady {A} `{MsgCodec A} pl cmd (m : A) g g' :
  wf g -> notify_open dispatch_key pl cmd m g = Some g' -> steady g g'.
Proof.
  intros Hw. unfold notify_open. destruct (pl_session pl) as [q|]; [|intros E; injection E as <-; apply steady_refl, Hw].
  destruct (g_heap g !! q) as [s|]; [|discriminate]. cbn [mbind option_bind].
  destruct (_ <=? _); [apply notify_steady, Hw|intros E; injection E as <-; apply steady_refl, Hw].
Qed.

Lemma updateOpenstates_notify_steady n pl g pl' g' :
  wf g -> updateOpenstates_notify gd dispatch_key n pl g = Some (pl', g') ->
  steady g g' /\ (pl' = pl \/ pl' = updateOpenstates gd pl).
Proof.
  intros Hw. unfold updateOpenstates_notify. destruct (d ← gd; openstate_data d).
  2: { intros E. injection E as <- <-. split; [apply steady_refl, Hw|auto]. }
  cbv zeta. destruct (if n =? 0 then Some g else _) as [g1|] eqn:E; [|discriminate]. cbn [mbind option_bind].
  intros E'. injection E' as <- <-. split; [|auto].
  destruct (n =? 0); [injection E as <-; apply steady_refl, Hw|exact (notify_open_steady _ _ _ _ _ Hw E)].
Qed.

(** *** Changing the player of a session *)
Lemma put_player_calm p s pl pl' g g' :
  wf g -> g_heap g !! p = Some s -> s_player s = Some pl -> savable pl' -> who pl' = who pl ->
  put_player p pl' g = Some g' -> calm g g' /\ exists s', g_heap g' !! p = Some s' /\ s_player s' = Some pl'.
Proof.
  intros Hw Hs Hp Hv Hwho. unfold put_player, on_session. rewrite Hs. cbn [mbind option_bind]. intros E. injection E as <-.
  split; [|exists (setPlayer s (Some pl')); split; [apply lookup_insert_eq|reflexivity]].
  apply (calm_store p s); [exact Hw|exact Hs| |].
  - destruct (wf_sessions _ g Hw p s Hs) as [H1 _ H3]. constructor; [exact H1|intros x E; injection E as <-; exact Hv|].
    apply (staged_put s pl); [exact H3|exact Hp|]. unfold who in Hwho. congruence.
  - unfold view_of. cbn [setPlayer s_player]. rewrite Hp. cbn [fmap option_fmap option_map]. rewrite Hwho. reflexivity.
Qed.
End laws.

(** ** Logging in: what it keeps

    The items, the avatar and the team that [onLogin] makes leave a player that
    can be saved, with the account and the uid it had. *)

(** ** Items and avatars *)

Lemma to_pb_guid guid it : is_Some (Item_to_pb it) -> is_Some (Item_to_pb (set_item_guid guid it)).
Proof.
  unfold Item_to_pb, set_item_guid. cbn [it_id it_type it_guid it_data].
  destruct (it_type it =? _); [|destruct (it_type it =? _); [|destruct (it_type it =? _)]]; destruct (it_data it);
    try (intros [? E]; discriminate E); intros _; eauto.
Qed.

Lemma bump_savable pl : savable pl -> savable (bump_guid pl).
Proof. intros []. constructor; assumption. Qed.

Lemma addItem_ok it pl r it' pl' :
  savable pl -> is_Some (Item_to_pb it) -> addItem it pl = (r, it', pl') ->
  savable pl' /\ who pl' = who pl /\ is_Some (Item_to_pb it').
Proof.
  intros Hs Hi. unfold addItem. cbv zeta.
  set (it1 := if _ =? 0 then set_item_guid _ it else it).
  assert (is_Some (Item_to_pb it1)) as H1 by (unfold it1; destruct (_ =? 0); [apply to_pb_guid|]; exact Hi). clearbody it1.
  destruct (_ =? 0); intros E; injection E as _ <- <-; (split; [|split; [reflexivity|]]).
  - apply push_item_savable; [apply to_pb_guid, H1|apply bump_savable, Hs].
  - apply to_pb_guid, H1.
  - apply push_item_savable; [exact H1|exact Hs].
  - exact H1.
Qed.

(** An avatar that has nothing but perhaps a weapon. *)
Record plain (items : nat -> option Item) (a : Avatar) : Prop := {
  pn_constellation : constellation a = 0;
  pn_weapon : forall p, av_weapon a = Some p -> is_Some (items p);
  pn_artifacts : av_artifacts a = replicate 5 None
}.

Lemma plain_to_pb items a : plain items a -> is_Some (Avatar_to_pb items a).
Proof.
  intros [Hc Hw Ha]. unfold Avatar_to_pb. rewrite Hc, Ha.
  destruct (av_weapon a) as [p|]; [destruct (Hw p eq_refl) as [it E]|]; cbn [equip_list take replicate];
    rewrite ?E; cbn [mbind option_bind Z.eqb]; eauto.
Qed.

Lemma plain_setGuid items g a : plain items a -> plain items (setGuid g a).
Proof. intros []. unfold setGuid. destruct (_ =? _); constructor; assumption. Qed.

Lemma plain_setUid items u a : plain items a -> plain items (setUid u a).
Proof. intros []. constructor; assumption. Qed.

Lemma plain_new gd junk now id a items : new_Avatar gd junk now id = Some a -> plain items a.
Proof.
  unfold new_Avatar. destruct gd as [gd|]; [|discriminate]. cbn [mbind option_bind].
  destruct (avatar_data gd) as [tbl|]; [|discriminate]. cbn [mbind option_bind].
  destruct (find_avatar tbl id) as [d|]; [|discriminate]. cbn [mbind option_bind].
  destruct (avatar_skill_depot_data gd) as [st|]; [|discriminate]. cbn [mbind option_bind]. cbv zeta.
  intros E. injection E as <-. constructor; [reflexivity|intros p H; discriminate H|reflexivity].
Qed.

Lemma plain_setWeapon items w a r a' : plain items a -> setWeapon items w a = Some (r, a') -> plain items a'.
Proof.
  intros Hp. unfold setWeapon. destruct (item_at items w) as [it|] eqn:E; [|discriminate]. cbn [mbind option_bind].
  destruct (negb _); intros E'; injection E' as _ <-; [exact Hp|]. destruct Hp as [Hc _ Ha].
  constructor; [exact Hc| |exact Ha]. cbn [set_weapon av_weapon]. intros p ->. unfold item_at in E. cbn in E. eauto.
Qed.

Lemma addAvatar_ok a pl r a' pl' :
  savable pl -> plain (items_of pl) a -> addAvatar a pl = (r, a', pl') ->
  savable pl' /\ who pl' = who pl /\ plain (items_of pl') a' /\ items_of pl' = items_of pl.
Proof.
  intros Hs Ha. unfold addAvatar.
  destruct (if Z.land _ _ =? 0 then _ else _) as [a1 pl1] eqn:E1.
  assert (savable pl1 /\ who pl1 = who pl /\ plain (items_of pl1) a1 /\ items_of pl1 = items_of pl) as (S1 & W1 & P1 & I1).
  { destruct (_ =? 0); injection E1 as <- <-; [|auto].
    split; [apply bump_savable, Hs|]. split; [reflexivity|]. split; [apply plain_setGuid, Ha|reflexivity]. }
  cbv zeta. set (a2 := if getUid a1 =? 0 then _ else a1).
  assert (plain (items_of pl1) a2) as P2 by (unfold a2; destruct (getUid a1 =? 0); [apply plain_setUid|]; exact P1).
  clearbody a2. intros E. injection E as _ <- <-.
  split; [apply push_avatar_savable; [apply plain_to_pb, P2|exact S1]|]. split; [exact W1|]. split; [exact P2|exact I1].
Qed.

Lemma updateOpenstates_who gd pl : who (updateOpenstates gd pl) = who pl.
Proof.
  unfold who. rewrite updateOpenstates_uid. destruct (updateOpenstates_same gd pl) as (_ & _ & _ & _ & _ & ->). reflexivity.
Qed.

(** ** Teams *)

Lemma new_team_live avatars p name r t :
  (forall q, p = Some q -> is_Some (avatars q)) ->
  team_addAvatar avatars p (setName name new_AvatarTeam) = Some (r, t) -> team_live avatars t.
Proof.
  intros Hp. destruct p as [p|]; cbn; intros E; injection E as _ <-; [|constructor].
  constructor; [intros q H; injection H as <-; auto|constructor].
Qed.

Lemma swap_team_savable own t pl r pl' : savable pl -> swapToTeam_ptr own t pl = Some (r, pl') -> savable pl' /\ who pl' = who pl.
Proof.
  intros Hs. unfold swapToTeam_ptr. destruct (find_team _ _ _ _ _) as [[i|]|]; [| |discriminate]; cbn [mbind option_bind];
    intros E; injection E as _ <-; (split; [|reflexivity]); [|exact Hs]. destruct Hs. constructor; assumption.
Qed.

Lemma outfit_ok gd w pl pl' av t it :
  savable pl -> outfit gd w pl = Some (pl', av, t, it) -> savable pl' /\ who pl' = who pl.
Proof.
  intros Hs. unfold outfit. cbv zeta.
  destruct (addItem _ pl) as [[r1 it1] pl1] eqn:E1.
  assert (is_Some (Item_to_pb (login_weapon (login_guid pl)))) as H0 by (eexists; reflexivity).
  destruct (addItem_ok _ _ _ _ _ Hs H0 E1) as (S1 & W1 & _).
  destruct (new_Avatar _ _ _ _) as [a1|] eqn:Ea; [|discriminate]. cbn [mbind option_bind].
  destruct (setWeapon _ _ _) as [[r2 a2]|] eqn:E2; [|discriminate]. cbn [mbind option_bind].
  pose proof (plain_setWeapon _ _ _ _ _ (plain_setGuid _ (login_guid pl) _ (plain_new _ _ _ _ _ _ Ea)) E2) as P2.
  destruct (addAvatar a2 pl1) as [[r3 a3] pl3] eqn:E3.
  destruct (addAvatar_ok _ _ _ _ _ S1 P2 E3) as (S3 & W3 & _ & _).
  unfold swapToAvatar_guid. set (q := getAvatarByGuid _ pl3).
  assert (forall p, q = Some p -> is_Some (avatar_at pl3 p)) as Hq by (intros p; apply find_node_live).
  pose proof (swap_savable q pl3 Hq S3) as S4.
  assert (who (swapToAvatar q pl3).2 = who pl3) as W4 by (destruct q; reflexivity).
  destruct (swapToAvatar q pl3) as [r4 pl4] eqn:E4. cbn [snd] in S4, W4.
  cbn [addAvatarToTeam].
  destruct (team_addAvatar _ _ _) as [[r5 t5]|] eqn:E5; [|discriminate]. cbn [mbind option_bind].
  assert (team_live (avatar_at pl4) t5) as T5.
  { eapply new_team_live; [|exact E5]. intros p. apply find_node_live. }
  cbn [addAvatarTeam]. pose proof (team_savable t5 pl4 T5 S4) as S6.
  destruct (swapToTeam_ptr _ _ _) as [[r7 pl7]|] eqn:E7; [|discriminate]. cbn [mbind option_bind].
  intros E. injection E as <- _ _ _. destruct (swap_team_savable _ _ _ _ _ S6 E7) as [S7 W7].
  split; [exact S7|]. unfold who in *. cbn in *. congruence.
Qed.

(** ** An avatar whose equipment was looked up *)

Lemma node_at_map {A} q (a : A) l p :
  is_Some (node_at l p) -> is_Some (node_at (map (fun e => if (e.1 =? q)%nat then (e.1, a) else e) l) p).
Proof.
  induction l as [|[n x] l IH]; [auto|]. cbn [map node_at fst]. destruct (n =? q)%nat; cbn [node_at];
    destruct (n =? p)%nat; eauto.
Qed.

Lemma set_avatar_savable q a pl :
  is_Some (Avatar_to_pb (items_of pl) a) -> savable pl -> savable (set_avatar_at q a pl) /\ who (set_avatar_at q a pl) = who pl.
Proof.
  intros Ha [H1 H2 H3 H4 H5]. split; [|reflexivity].
  assert (forall p, is_Some (avatar_at pl p) -> is_Some (avatar_at (set_avatar_at q a pl) p)) as Hm by (intros p; apply node_at_map).
  constructor; [exact H1| |exact H3| |].
  - apply Forall_map. eapply Forall_impl; [exact H2|]. intros e He. cbn. destruct (e.1 =? q)%nat; [exact Ha|exact He].
  - eapply Forall_impl; [exact H4|]. intros t. apply team_live_mono, Hm.
  - intros p E. apply Hm, H5, E.
Qed.
