(* ===== verification/HandlersProps.v ===== *)
(** * The packet handlers: theorems *)

From stdpp Require Import gmap.
From S2P Require Import Prelude TomlText TomlValue Mt64 Ec2b RunConfig Packet Session GameServer GameServerProps.
From S2P Require Import Account DbGate DbProps Item Avatar Team Vector Player PlayerDb PlayerFacts Messages NetPlayer Handlers.
From S2P Require Import HandlerFacts.

(** ** C strings *)

Lemma cstr_prefix s : cstr s `prefix_of` s.
Proof.
  induction s as [|c s IH]; cbn [cstr]; [reflexivity|]. destruct (bz c =? 0); [apply prefix_nil|].
  apply prefix_cons, IH.
Qed.

Lemma cstr_length s : (length (cstr s) <= length s)%nat.
Proof. apply prefix_length, cstr_prefix. Qed.

Lemma cstr_no_nul s : Forall (fun c => bz c <> 0) (cstr s).
Proof.
  induction s as [|c s IH]; cbn [cstr]; [constructor|]. destruct (Z.eqb_spec (bz c) 0); constructor; assumption.
Qed.

Lemma same_prefix_sound n a b :
  (length a <= n)%nat -> Forall (fun c => bz c <> 0) a -> same_prefix n a b = true -> a `prefix_of` b.
Proof.
  intros Hl Ha. revert n b Hl. induction Ha as [|c a Hc Ha IH]; intros n b Hl; [intros _; apply prefix_nil|].
  destruct n as [|n]; [cbn in Hl; lia|]. cbn [same_prefix hd0 tl]. intros H. apply andb_true_iff in H as [H1 H2].
  apply Z.eqb_eq in H1. destruct (Z.eqb_spec (bz c) 0); [contradiction|]. cbn [orb] in H2.
  destruct b as [|d b]; [cbn in H1; congruence|]. cbn [hd0 tl] in *. apply bz_inj in H1 as <-. apply prefix_cons.
  apply (IH n b); [cbn in Hl; lia|exact H2].
Qed.

Section handlers.
Context {Addr : Type} {CA : MsgCodec AccountInfo} {CN : MsgCodec NextIdInfo} {CP : MsgCodec PlayerInfo} {CI : MsgCodec InventoryEntry}.
Context {SI : SessionIds} {CS : Codecs}.
Implicit Types g : server Addr Player World.

Variable gd : option GameData.
Variable dispatch_key : option (list byte).
Variable config : option RunConfig.config_t.

Abbreviation wf := (gs_wf del_player).

(** ** Steps that may bring the session at [p] further, as [P] says *)
Definition advance (P : view -> view -> Prop) (p : nat) g g' : Prop :=
  served del_player g g' /\
  forall q s', g_heap g' !! q = Some s' -> exists s, g_heap g !! q = Some s /\
    (view_of s' = view_of s \/ is_closed s' \/ (q = p /\ P (view_of s) (view_of s'))).

Lemma calm_advance P p g g' : calm g g' -> advance P p g g'.
Proof.
  intros [S V]. split; [exact S|]. intros q s' E. destruct (V q s' E) as (s & Hs & [H|H]); exists s; auto.
Qed.

Lemma advance_calm P p g1 g2 g3 : advance P p g1 g2 -> calm g2 g3 -> advance P p g1 g3.
Proof.
  intros [S1 V1] [S2 V2]. split; [eapply served_trans; eassumption|]. intros q s3 E.
  destruct (V2 q s3 E) as (s2 & E2 & H2). destruct (V1 q s2 E2) as (s1 & E1 & H1). exists s1. split; [exact E1|].
  destruct H2 as [H2|]; [|auto]. rewrite H2. destruct H1 as [H1|[[Hp Hs]|H1]]; [auto| |auto].
  right. left. unfold view_of in H2. injection H2 as H3 H4 _. rewrite Hp in H3.
  split; [destruct (s_player s3); [discriminate H3|reflexivity]|congruence].
Qed.

Lemma closed_state s : is_closed s -> v_state (view_of s) = NOT_CONNECTED.
Proof. intros [_ E]. exact E. Qed.

Lemma calm_then_advance (P : view -> view -> Prop) p g1 g2 g3 :
  (forall v v', P v v' -> v_state v <> NOT_CONNECTED) -> calm g1 g2 -> advance P p g2 g3 -> advance P p g1 g3.
Proof.
  intros HP [S1 V1] [S2 V2]. split; [eapply served_trans; eassumption|]. intros q s3 E.
  destruct (V2 q s3 E) as (s2 & E2 & H2). destruct (V1 q s2 E2) as (s1 & E1 & H1). exists s1. split; [exact E1|].
  destruct H1 as [H1|H1]; [rewrite <- H1; exact H2|]. pose proof (closed_state s2 H1) as Hc.
  destruct H2 as [H2|[H2|[-> H2]]]; [| auto |destruct (HP _ _ H2 Hc)].
  right. left. destruct H1 as [Hp Hs]. unfold view_of in H2. injection H2 as H3 H4 _. rewrite Hp in H3.
  split; [destruct (s_player s3); [discriminate H3|reflexivity]|congruence].
Qed.

(** ** onLogin *)

Definition activated (v v' : view) : Prop := v_state v <> NOT_CONNECTED /\ v' = mkView (v_who v) ACTIVE (v_key v).

Lemma playing_view g g' p s s' pl :
  calm g g' -> g_heap g !! p = Some s -> g_heap g' !! p = Some s' -> s_player s' = Some pl -> view_of s' = view_of s.
Proof.
  intros C Hs Hs' Hp. destruct (ca_view _ _ C p s' Hs') as (t & Ht & [H|[H _]]); [|congruence]. congruence.
Qed.

Lemma activate p s pl g g' :
  wf g -> g_heap g !! p = Some s -> s_player s = Some pl -> on_session p (fun s => setState s ACTIVE) g = Some g' ->
  advance activated p g g'.
Proof.
  intros Hw Hs Hp. unfold on_session. rewrite Hs. cbn [mbind option_bind]. intros E. injection E as <-.
  destruct (wf_sessions _ g Hw p s Hs) as [H1 H2 H3]. pose proof (staged_active s pl H3 Hp) as Ha. split.
  - apply served_store; [exact Hw|eauto|]. constructor; assumption.
  - intros q t E. cbn [store emit set_heap g_heap] in E. destruct (decide (p = q)) as [<-|Hn].
    + rewrite lookup_insert_eq in E. injection E as <-. exists s. split; [exact Hs|]. right. right. split; [reflexivity|].
      split; [|reflexivity]. destruct (staged_player s pl H3 Hp) as ([E|E] & _); cbn; rewrite E; discriminate.
    + rewrite lookup_insert_ne in E by exact Hn. eauto.
Qed.

Lemma onLogin_ok p g g' : wf g -> onLogin gd dispatch_key p g = Some g' -> advance activated p g g'.
Proof.
  intros Hw. unfold onLogin. destruct (g_heap g !! p) as [s|] eqn:Hs; [|discriminate]. cbn [mbind option_bind].
  destruct (s_kcp s) as [ks|]; [|intros E; injection E as <-; apply calm_advance, calm_refl, Hw].
  destruct (s_player s) as [pl|] eqn:Hp; [|intros E; injection E as <-; apply calm_advance, calm_refl, Hw].
  pose proof (so_player _ _ (wf_sessions _ g Hw p s Hs) pl Hp) as Hsav. cbv zeta.
  destruct (outfit _ _ _) as [[[[pl1 av] t] it]|] eqn:Eo; [|discriminate]. cbn [mbind option_bind].
  destruct (outfit_ok _ _ _ _ _ _ _ Hsav Eo) as [Sv1 W1].
  destruct (put_player p pl1 g) as [g1|] eqn:E1; [|discriminate]. cbn [mbind option_bind].
  destruct (put_player_calm p s pl pl1 g g1 Hw Hs Hp Sv1 W1 E1) as (C1 & s1 & Hs1 & Hp1).
  destruct (avatar_pb _ _ _ _) as [avp|]; [|discriminate]. cbn [mbind option_bind].
  destruct (AvatarTeam_to_pb _ _) as [atp|]; [|discriminate]. cbn [mbind option_bind].
  destruct (match serialize _ with None => Some g1 | Some _ => _ end) as [g2|] eqn:E2; [|discriminate]. cbn [mbind option_bind].
  assert (steady g1 g2) as D2.
  { destruct (serialize _); [|injection E2 as <-; apply steady_refl, (calm_wf _ _ C1)].
    destruct (next_seq p g1) as [[n g1']|] eqn:En; [|discriminate E2]. cbn [mbind option_bind] in E2.
    pose proof (next_seq_steady _ _ _ _ (calm_wf _ _ C1) En) as D.
    exact (steady_trans _ _ _ D (notify_steady _ _ _ _ _ _ _ (steady_wf _ _ D) E2)). }
  destruct (steady_at _ _ _ _ _ D2 Hs1 Hp1) as (s2 & Hs2 & Hp2).
  destruct (updateOpenstates_notify _ _ _ _ _) as [[pl3 g3]|] eqn:E3; [|discriminate]. cbn [mbind option_bind].
  destruct (updateOpenstates_notify_steady _ _ _ _ _ _ _ (steady_wf _ _ D2) E3) as [D3 Hpl3].
  destruct (steady_at _ _ _ _ _ D3 Hs2 Hp2) as (s3 & Hs3 & Hp3).
  destruct (put_player p pl3 g3) as [g4|] eqn:E4; [|discriminate]. cbn [mbind option_bind].
  assert (savable pl3 /\ who pl3 = who pl1) as [Sv3 W3].
  { destruct Hpl3 as [->| ->]; [auto|]. split; [exact (same_savable _ _ (updateOpenstates_same gd pl1) Sv1)|].
    apply updateOpenstates_who. }
  destruct (put_player_calm p s3 pl1 pl3 g3 g4 (steady_wf _ _ D3) Hs3 Hp3 Sv3 W3 E4) as (C4 & s4 & Hs4 & Hp4).
  destruct (notify _ _ _ _ _ g4) as [g5|] eqn:E5; [|discriminate]. cbn [mbind option_bind].
  pose proof (notify_steady _ _ _ _ _ _ _ (calm_wf _ _ C4) E5) as D5.
  destruct (Item_to_pb it) as [ipb|]; [|discriminate]. cbn [mbind option_bind].
  destruct (notify _ _ _ _ _ g5) as [g6|] eqn:E6; [|discriminate]. cbn [mbind option_bind].
  pose proof (steady_trans _ _ _ D5 (notify_steady _ _ _ _ _ _ _ (steady_wf _ _ D5) E6)) as D6.
  destruct (notify _ _ _ _ _ g6) as [g7|] eqn:E7; [|discriminate]. cbn [mbind option_bind].
  pose proof (steady_trans _ _ _ D6 (notify_steady _ _ _ _ _ _ _ (steady_wf _ _ D6) E7)) as D7.
  destruct (notify _ _ _ _ _ g7) as [g8|] eqn:E8; [|discriminate]. cbn [mbind option_bind].
  pose proof (steady_trans _ _ _ D7 (notify_steady _ _ _ _ _ _ _ (steady_wf _ _ D7) E8)) as D8.
  destruct (steady_at _ _ _ _ _ D8 Hs4 Hp4) as (s8 & Hs8 & Hp8).
  intros E9. pose proof (activate p s8 pl3 g8 g' (steady_wf _ _ D8) Hs8 Hp8 E9) as A.
  assert (calm g g8) as C.
  { eapply calm_trans; [exact C1|]. eapply calm_trans; [exact (sd_calm _ _ (steady_trans _ _ _ D2 D3))|].
    exact (calm_trans _ _ _ C4 (sd_calm _ _ D8)). }
  exact (calm_then_advance activated p g g8 g' (fun v v' H => proj1 H) C A).
Qed.

(** ** The token *)

(** The stored token begins what was sent. *)
Definition token_fits (a : Account) (token : list byte) : Prop :=
  comboToken a <> [] /\ cstr (comboToken a) `prefix_of` token.

Lemma check_token_inv p a token g k r g' :
  wf g -> check_token p a token g k = Some (r, g') ->
  calm g g' \/ (token_fits a token /\ k = Some (r, g')).
Proof.
  intros Hw. unfold check_token. cbv zeta. destruct (decide (comboToken a = [])) as [_|Hn].
  { intros E. left. exact (refuse_calm _ _ _ _ _ Hw E). }
  destruct (same_prefix _ _ _) eqn:Ep; [|intros E; left; exact (refuse_calm _ _ _ _ _ Hw E)].
  intros E. right. split; [|exact E]. split; [exact Hn|].
  transitivity (cstr token); [|apply cstr_prefix].
  apply (same_prefix_sound (length (comboToken a))); [apply cstr_length|apply cstr_no_nul|exact Ep].
Qed.

(** No session has the id 0. *)
Lemma find_session_zero g x : wf g -> find_session g 0 = Some x -> x = None.
Proof.
  intros Hw. unfold find_session. induction (g_slots g) as [|[q|] l IH]; cbn [getSessionById]; [congruence| |discriminate].
  destruct (g_heap g !! q) as [s|] eqn:E; [|discriminate]. cbn [mbind option_bind].
  destruct (s_kcp s) as [ks|] eqn:Ek; [|exact IH].
  destruct (Z.eqb_spec (getSessionId ks) 0) as [E0|_]; [|exact IH].
  destruct (so_id _ s (wf_sessions _ g Hw q s E) ks Ek E0).
Qed.

Lemma player_of_ok p g pl :
  wf g -> pp_session_id p = 0 -> player_of gd (find_session g) p (g_world g) = Some pl ->
  savable pl /\ pl_account pl = getAccountByAid (pp_aid p) (w_db (g_world g)).
Proof.
  intros Hw Hp E. split.
  - refine (info_savable _ _ _ _ _ _ _ (wq_junk _ (wf_world _ g Hw)) _ E). intros x. rewrite Hp. apply find_session_zero, Hw.
  - unfold player_of, Player_of_info in E. destruct (if _ <? _ then _ else _) as [x|]; [|discriminate E].
    cbn [mbind option_bind] in E. cbv zeta in E. injection E as <-.
    match goal with |- pl_account (updateOpenstates gd ?q) = _ => destruct (updateOpenstates_same gd q) as (_ & _ & _ & _ & _ & ->) end.
    reflexivity.
Qed.

Lemma search_inv {A} `{MsgCodec A} t (q : A -> bool) l m :
  search t q l = Some (Some m) ->
  exists k v, (k, v) ∈ l /\ key_type k = Some (type_key t) /\ parse_from v = Some m /\ q m = true.
Proof.
  induction l as [|[k v] l IH]; cbn [search]; [discriminate|].
  destruct (key_type k) as [kt|] eqn:Ek; [|discriminate]. cbn [mbind option_bind].
  assert (search t q l = Some (Some m) -> exists k' v', (k', v') ∈ (k, v) :: l /\ key_type k' = Some (type_key t) /\
    parse_from v' = Some m /\ q m = true) as Hl.
  { intros E. destruct (IH E) as (k' & v' & Hin & R). exists k', v'. split; [right; exact Hin|exact R]. }
  destruct (decide (kt = type_key t)) as [->|_]; [|exact Hl].
  destruct (parse_from v) as [n|] eqn:Ep; [|exact Hl]. destruct (q n) eqn:Eq; [|exact Hl].
  intros E. injection E as ->. exists k, v. repeat split; auto. left.
Qed.

Lemma getPlayerByAid_ok id g pl :
  wf g -> getPlayerByAid gd (find_session g) id (g_world g) = Some (Some pl) ->
  savable pl /\ pl_account pl = getAccountByAid id (w_db (g_world g)).
Proof.
  intros Hw. unfold getPlayerByAid. destruct (search _ _ _) as [[p|]|] eqn:E; [|discriminate..]. cbn [mbind option_bind].
  destruct (player_of _ _ _ _) as [pl'|] eqn:Ep; [|discriminate]. cbn [mbind option_bind]. intros E'. injection E' as <-.
  apply search_inv in E as (k & v & Hin & Hk & Hv & Hq). apply Z.eqb_eq in Hq. rewrite <- Hq.
  apply (player_of_ok p g pl' Hw); [|exact Ep]. apply entries_spec in Hin. exact (wq_db _ (wf_world _ g Hw) k v Hin Hk p Hv).
Qed.

Lemma token_player_ok a id g pl g' :
  wf g -> getAccountByAid id (w_db (g_world g)) = Some a -> token_player gd a id g = Some (pl, g') ->
  calm g g' /\ savable pl /\ pl_account pl = Some a.
Proof.
  intros Hw Ha. unfold token_player. destruct (getPlayerByAid _ _ _ _) as [[pl1|]|] eqn:E; [| |discriminate]; cbn [mbind option_bind].
  - destruct (getPlayerByAid_ok id g pl1 Hw E) as [Hs Hac]. destruct (close_old pl1 g) as [g1|] eqn:Ec; [|discriminate].
    cbn [mbind option_bind]. intros E'. injection E' as <- <-. split; [|split; [exact Hs|congruence]].
    unfold close_old in Ec. destruct (getSessionByUid _ _ _ _) as [[q|]|]; [| |discriminate Ec]; cbn [mbind option_bind] in Ec.
    + exact (calm_close _ _ _ _ Hw Ec).
    + injection Ec as <-. apply calm_refl, Hw.
  - destruct (newPlayer _ _ _) as [[pl1 w1]|] eqn:En; [|discriminate]. cbn [mbind option_bind]. cbv zeta.
    destruct (newPlayer_quiet _ _ _ _ _ (wf_world _ g Hw) En) as (Hs & _ & W1).
    pose proof (account_savable (Some a) pl1 Hs) as Hs1.
    destruct (saveToDb_quiet (session_info g) _ w1 Hs1 W1) as (r & w2 & -> & W2). cbn [mbind option_bind].
    intros E'. injection E' as <- <-. split; [exact (calm_world w2 g Hw W2)|]. split; [exact Hs1|reflexivity].
Qed.

(** A session that gets its player and its key. *)
Definition admitted (a : Account) (v v' : view) : Prop :=
  exists uid, v' = mkView (Some (uid, Some a)) LOGIN_WAIT true.

Lemma session_key_keeps rnd (s : Session Player) m s' m' :
  generateSessionKey rnd s m = Some (s', m') -> s_player s' = s_player s /\ s_kcp s' = s_kcp s.
Proof.
  unfold generateSessionKey, mbind, M_bind. destruct (genXorpadFromSeed _ _ _ _ _ _) as [[k m1]|]; [|discriminate].
  intros E. injection E as <- _. split; reflexivity.
Qed.

Lemma generate_key_inv p s g g' :
  g_heap g !! p = Some s -> generate_key p g = Some g' ->
  exists s' m, g' = store p s' [] (set_world (set_mt m (g_world g)) g) /\ s_player s' = s_player s /\ s_kcp s' = s_kcp s.
Proof.
  intros Hs E. apply bind_Some in E as (s0 & Hs0 & E). assert (s0 = s) as -> by congruence.
  apply bind_Some in E as ([s' m] & Ek & E). apply session_key_keeps in Ek as [H1 H2].
  injection E as <-. exists s', m. auto.
Qed.

Lemma store_over p s1 s2 out w g :
  store p s2 out (set_world w (store p s1 [] g)) = set_world w (store p s2 out g).
Proof. destruct g. unfold store, set_world, emit, set_heap. cbn. rewrite insert_insert_eq, app_nil_r. reflexivity. Qed.

Lemma admit_session p s pl a g g1 g2 g3 :
  wf g -> g_heap g !! p = Some s -> savable pl -> pl_account pl = Some a -> comboToken a <> [] ->
  put_player p pl g = Some g1 -> generate_key p g1 = Some g2 ->
  on_session p (fun s => setState (setUseSecretKey s 1) LOGIN_WAIT) g2 = Some g3 ->
  served del_player g g3 /\ exists s3, g_heap g3 = <[p := s3]> (g_heap g) /\ view_of s3 = mkView (Some (who pl)) LOGIN_WAIT true /\
    s_player s3 = Some pl.
Proof.
  intros Hw Hs Hsav Ha Ht. unfold put_player, on_session at 1. rewrite Hs. cbn [mbind option_bind].
  intros E1. injection E1 as <-. intros E2.
  destruct (generate_key_inv p (setPlayer s (Some pl)) _ g2 (lookup_insert_eq _ _ _) E2) as (s2 & m & -> & Hp2 & Hk2).
  cbn [setPlayer s_player s_kcp] in Hp2, Hk2. rewrite store_over. change (g_world (store _ _ _ g)) with (g_world g).
  set (w := set_mt m (g_world g)). unfold on_session.
  change (g_heap (set_world w (store p s2 [] g))) with (<[p := s2]> (g_heap g)). rewrite lookup_insert_eq. cbn [mbind option_bind].
  set (s3 := setState _ LOGIN_WAIT). intros E3. injection E3 as <-.
  rewrite store_over.
  assert (session_ok (Addr := Addr) del_player s3) as Hok.
  { destruct (wf_sessions _ g Hw p s Hs) as [H1 _ _]. constructor.
    - intros ks E. apply H1. rewrite <- Hk2. exact E.
    - intros x E. cbn in E. rewrite Hp2 in E. injection E as <-. exact Hsav.
    - right. right. split; [left; reflexivity|]. split; [reflexivity|]. exists pl. split; [exact Hp2|]. exists a. auto. }
  split.
  - eapply served_trans; [apply (served_store _ p s3 [] g Hw); [eauto|exact Hok]|].
    apply served_world; [apply store_wf; eauto|]. destruct (wf_world _ g Hw) as [Hd Hj]. constructor; [exact Hd|exact Hj].
  - exists s3. split; [reflexivity|]. split; [|exact Hp2]. unfold view_of. cbn [s3 setState setUseSecretKey s_player]. rewrite Hp2. reflexivity.
Qed.

Lemma accept_token_ok p s a id g r g' :
  wf g -> g_heap g !! p = Some s -> getAccountByAid id (w_db (g_world g)) = Some a -> comboToken a <> [] ->
  accept_token gd dispatch_key p a id g = Some (r, g') -> advance (admitted a) p g g'.
Proof.
  intros Hw Hs Ha Ht. unfold accept_token.
  destruct (token_player _ _ _ _) as [[pl g1]|] eqn:E1; [|discriminate]. cbn [mbind option_bind].
  destruct (token_player_ok _ _ _ _ _ Hw Ha E1) as (C1 & Hsav & Hac).
  destruct (put_player p pl g1) as [g2|] eqn:E2; [|discriminate]. cbn [mbind option_bind].
  destruct (generate_key p g2) as [g3|] eqn:E3; [|discriminate]. cbn [mbind option_bind].
  destruct (on_session p _ g3) as [g4|] eqn:E4; [|discriminate]. cbn [mbind option_bind].
  destruct (calm_live _ _ p C1 (mk_is_Some _ _ Hs)) as [s1 Hs1].
  destruct (admit_session p s1 pl a g1 g2 g3 g4 (calm_wf _ _ C1) Hs1 Hsav Hac Ht E2 E3 E4) as (S4 & s4 & Hh & Hv & _).
  assert (advance (admitted a) p g g4) as A4.
  { split; [exact (served_trans _ _ _ _ (ca_served _ _ C1) S4)|]. intros q t E. rewrite Hh in E.
    destruct (decide (p = q)) as [<-|Hn].
    - rewrite lookup_insert_eq in E. injection E as <-. exists s. split; [exact Hs|]. right. right. split; [reflexivity|].
      exists (pl_uid pl). rewrite Hv. unfold who. rewrite Hac. reflexivity.
    - rewrite lookup_insert_ne in E by exact Hn. destruct (ca_view _ _ C1 q t E) as (t0 & Ht0 & [H|H]); exists t0; auto. }
  destruct (g_heap g4 !! p) as [s5|]; [|discriminate]. cbn [mbind option_bind]. unfold then_data.
  destruct (serialize _) as [d|]; [|intros E; injection E as _ <-; exact A4].
  destruct (next_seq p g4) as [[n g5]|] eqn:E5; [|discriminate]. cbn [mbind option_bind]. cbv zeta.
  pose proof (sv_wf _ _ _ (proj1 A4)) as W4. pose proof (next_seq_steady _ _ _ _ W4 E5) as D5. intros E6.
  pose proof (send_steady _ _ _ _ _ _ (steady_wf _ _ D5) E6) as D6.
  exact (advance_calm _ _ _ _ _ A4 (sd_calm _ _ (steady_trans _ _ _ D5 D6))).
Qed.

(** ** Each handler *)

Lemma then_parse_inv {A} `{MsgCodec A} data g (k : A -> option (Z * server Addr Player World)) r g' :
  then_parse data g k = Some (r, g') -> g' = g \/ exists m, parse_from data = Some m /\ k m = Some (r, g').
Proof. unfold then_parse. destruct (parse_from data) as [m|]; [|left; congruence]. intros E. right. eauto. Qed.

Lemma then_data_inv {A} `{MsgCodec A} (m : A) g (k : list byte -> option (Z * server Addr Player World)) r g' :
  then_data m g k = Some (r, g') -> g' = g \/ exists d, k d = Some (r, g').
Proof. unfold then_data. destruct (serialize m) as [d|]; [|left; congruence]. intros E. right. eauto. Qed.

Lemma then_send_inv p pkt g k r g' :
  wf g -> then_send dispatch_key p pkt g k = Some (r, g') ->
  exists g1, steady g g1 /\ (g' = g1 \/ k g1 = Some (r, g')).
Proof.
  intros Hw. unfold then_send. destruct (send_packet _ _ _ _) as [[n g1]|] eqn:E; [|discriminate]. cbn [mbind option_bind].
  pose proof (send_steady _ _ _ _ _ _ Hw E) as D. intros E'. exists g1. split; [exact D|].
  destruct (n <? 0); [left; congruence|auto].
Qed.

Lemma ping_steady p header data g r g' :
  wf g -> handlePingReq dispatch_key p header data g = Some (r, g') -> steady g g'.
Proof.
  intros Hw E. apply then_parse_inv in E as [->|(hd & _ & E)]; [apply steady_refl, Hw|].
  apply then_parse_inv in E as [->|(rq & _ & E)]; [apply steady_refl, Hw|].
  apply bind_Some in E as (g1 & E1 & E). unfold on_session in E1. apply bind_Some in E1 as (s & Hs & E1).
  injection E1 as <-. destruct (wf_sessions _ g Hw p s Hs) as [H1 H2 H3].
  assert (session_ok (Addr := Addr) del_player (setLastPingTime s (w_ms (g_world g)))) as Hok by (constructor; assumption).
  pose proof (steady_store p s _ [] g Hw Hs Hok eq_refl eq_refl) as D.
  apply then_data_inv in E as [->|(d & E)]; [exact D|]. exact (steady_trans _ _ _ D (send_steady _ _ _ _ _ _ (steady_wf _ _ D) E)).
Qed.

Lemma ready_steady p g r g' : wf g -> handleEnterSceneReadyReq dispatch_key p g = Some (r, g') -> steady g g'.
Proof.
  intros Hw E. apply bind_Some in E as (pl & _ & E). destruct pl as [pl|]; [|injection E as _ <-; apply steady_refl, Hw].
  apply then_data_inv in E as [->|(d & E)]; [apply steady_refl, Hw|].
  apply then_send_inv in E as (g1 & D & [->|E]); [exact D| |exact Hw].
  apply then_data_inv in E as [->|(d2 & E)]; [exact D|]. exact (steady_trans _ _ _ D (send_steady _ _ _ _ _ _ (steady_wf _ _ D) E)).
Qed.

Lemma blacklist_steady p g r g' : wf g -> handleGetPlayerBlacklistReq dispatch_key p g = Some (r, g') -> steady g g'.
Proof.
  intros Hw E. apply then_data_inv in E as [->|(d & E)]; [apply steady_refl, Hw|]. exact (send_steady _ _ _ _ _ _ Hw E).
Qed.

Lemma init_rsp_steady p rsp g r g' : wf g -> scene_init_rsp dispatch_key p rsp g = Some (r, g') -> steady g g'.
Proof.
  intros Hw E. apply then_data_inv in E as [->|(d & E)]; [apply steady_refl, Hw|]. exact (send_steady _ _ _ _ _ _ Hw E).
Qed.

Lemma send_team_calm p s pl g k r g' :
  wf g -> g_heap g !! p = Some s -> s_player s = Some pl ->
  (forall g1, wf g1 -> k g1 = Some (r, g') -> steady g1 g') ->
  send_team gd dispatch_key p pl g k = Some (r, g') -> calm g g'.
Proof.
  intros Hw Hs Hp Hk E. unfold send_team in E. apply bind_Some in E as (q & _ & E).
  destruct q as [q|]; [|exact (sd_calm _ _ (Hk g Hw E))].
  apply bind_Some in E as (a & _ & E). apply bind_Some in E as (a1 & _ & E). apply bind_Some in E as (pb & Epb & E).
  apply bind_Some in E as (g1 & E1 & E). apply bind_Some in E as (t & _ & E).
  pose proof (so_player _ _ (wf_sessions _ g Hw p s Hs) pl Hp) as Hsav.
  destruct (set_avatar_savable q a1 pl (mk_is_Some _ _ Epb) Hsav) as [Hsav' Hwho].
  destruct (put_player_calm p s pl _ g g1 Hw Hs Hp Hsav' Hwho E1) as (C1 & _).
  apply then_data_inv in E as [->|(d & E)]; [exact C1|].
  apply then_send_inv in E as (g2 & D & [->|E]); [exact (calm_trans _ _ _ C1 (sd_calm _ _ D))| |exact (calm_wf _ _ C1)].
  exact (calm_trans _ _ _ C1 (sd_calm _ _ (steady_trans _ _ _ D (Hk g2 (steady_wf _ _ D) E)))).
Qed.

Lemma scene_init_calm p data g r g' : wf g -> handleSceneInitFinishReq gd dispatch_key p data g = Some (r, g') -> calm g g'.
Proof.
  intros Hw E. apply bind_Some in E as (pl & Hpl & E). apply bind_Some in Hpl as (s & Hs & Hp). injection Hp as Hp.
  destruct pl as [pl|]; [|injection E as _ <-; apply calm_refl, Hw].
  apply then_parse_inv in E as [->|(rq & _ & E)]; [apply calm_refl, Hw|].
  destruct (negb _); [exact (sd_calm _ _ (init_rsp_steady _ _ _ _ _ Hw E))|].
  apply then_data_inv in E as [->|(d & E)]; [apply calm_refl, Hw|].
  apply then_send_inv in E as (g1 & D & [->|E]); [exact (sd_calm _ _ D)| |exact Hw].
  destruct (steady_at _ _ _ _ _ D Hs Hp) as (s1 & Hs1 & Hp1).
  refine (calm_trans _ _ _ (sd_calm _ _ D) (send_team_calm p s1 pl g1 _ r g' (steady_wf _ _ D) Hs1 Hp1 _ E)).
  intros g2 W2. apply init_rsp_steady, W2.
Qed.

(** A request that is answered with a player: what it showed. *)
Record token_shown (data : list byte) g (p : nat) (a : Account) : Prop := {
  ts_state : exists s, g_heap g !! p = Some s /\ getState s = TOKEN_WAIT;
  ts_request : exists req v, parse_from data = Some req /\ strtoul (cstr (tq_account_uid req)) = Some v /\
    getAccountByAid (u32 v) (w_db (g_world g)) = Some a /\ token_fits a (tq_account_token req)
}.

Lemma token_req_ok p data g r g' :
  wf g -> handleGetPlayerTokenReq gd dispatch_key p data g = Some (r, g') ->
  calm g g' \/ exists a, token_shown data g p a /\ advance (admitted a) p g g'.
Proof.
  intros Hw E. apply bind_Some in E as (s & Hs & E).
  destruct (Z.eqb_spec (getState s) TOKEN_WAIT) as [Hst|_]; cbn [negb] in E; [|injection E as _ <-; left; apply calm_refl, Hw].
  apply then_parse_inv in E as [->|(rq & Hrq & E)]; [left; apply calm_refl, Hw|].
  destruct (strtoul _) as [v|] eqn:Ev; [|left; exact (refuse_calm _ _ _ _ _ Hw E)]. cbv zeta in E.
  destruct (getAccountByAid _ _) as [a|] eqn:Ea; [|left; exact (refuse_calm _ _ _ _ _ Hw E)].
  destruct (check_token_inv _ _ _ _ _ _ _ Hw E) as [C|[Hf E']]; [left; exact C|right]. exists a. split.
  - constructor; [eauto|]. exists rq, v. auto.
  - exact (accept_token_ok p s a (u32 v) g r g' Hw Hs Ea (proj1 Hf) E').
Qed.

(** A login that is answered: what it showed. *)
Record login_shown (data : list byte) g (p : nat) (a : Account) : Prop := {
  ls_state : exists s pl, g_heap g !! p = Some s /\ getState s = LOGIN_WAIT /\ s_player s = Some pl /\ pl_account pl = Some a;
  ls_request : exists req, parse_from data = Some req /\ token_fits a (lq_token req)
}.

Lemma login_req_ok p data g r g' :
  wf g -> handlePlayerLoginReq gd dispatch_key config p data g = Some (r, g') ->
  calm g g' \/ exists a, login_shown data g p a /\ advance activated p g g'.
Proof.
  intros Hw E. apply bind_Some in E as (s & Hs & E).
  destruct (Z.eqb_spec (getState s) LOGIN_WAIT) as [Hst|_]; cbn [negb] in E; [|injection E as _ <-; left; apply calm_refl, Hw].
  apply then_parse_inv in E as [->|(rq & Hrq & E)]; [left; apply calm_refl, Hw|].
  destruct (s_player s) as [pl|] eqn:Hp; [|left; exact (refuse_calm _ _ _ _ _ Hw E)]. cbn [mbind option_bind] in E.
  destruct (pl_account pl) as [a|] eqn:Ha; [|left; exact (refuse_calm _ _ _ _ _ Hw E)].
  destruct (check_token_inv _ _ _ _ _ _ _ Hw E) as [C|[Hf E']]; [left; exact C|].
  apply then_data_inv in E' as [->|(d & E')]; [left; apply calm_refl, Hw|].
  apply bind_Some in E' as ([n g1] & E1 & E'). apply bind_Some in E' as (g2 & E2 & E'). injection E' as _ <-.
  pose proof (send_steady _ _ _ _ _ _ Hw E1) as D. destruct (n =? 0).
  - right. exists a. split; [constructor; eauto 10|].
    exact (calm_then_advance _ _ _ _ _ (fun v v' H => proj1 H) (sd_calm _ _ D) (onLogin_ok _ _ _ (steady_wf _ _ D) E2)).
  - injection E2 as <-. left. exact (sd_calm _ _ D).
Qed.

(** ** processPacket *)

Lemma process_ok p pkt g r v g' :
  wf g -> processPacket gd dispatch_key config p pkt g = Some (r, v, g') ->
  calm g g' \/
  (p_opcode pkt = CMD_GetPlayerTokenReq /\ exists a, token_shown (p_data pkt) g p a /\ advance (admitted a) p g g') \/
  (p_opcode pkt = CMD_PlayerLoginReq /\ exists a, login_shown (p_data pkt) g p a /\ advance activated p g g').
Proof.
  intros Hw. unfold processPacket. cbv zeta.
  assert (forall (x : option (Z * server Addr Player World)),
    ('(n, g) ← x; Some (n, true, g)) = Some (r, v, g') -> exists n, x = Some (n, g')) as Hx.
  { intros x E. apply bind_Some in E as ([n g1] & -> & E). exists n. congruence. }
  destruct (_ =? CMD_PingReq).
  { intros E. apply Hx in E as [n E]. left. exact (sd_calm _ _ (ping_steady _ _ _ _ _ _ Hw E)). }
  destruct (Z.eqb_spec (p_opcode pkt) CMD_GetPlayerTokenReq) as [Hop|_].
  { intros E. apply Hx in E as [n E]. destruct (token_req_ok _ _ _ _ _ Hw E) as [C|C]; auto. }
  destruct (Z.eqb_spec (p_opcode pkt) CMD_PlayerLoginReq) as [Hop|_].
  { intros E. apply Hx in E as [n E]. destruct (login_req_ok _ _ _ _ _ Hw E) as [C|C]; auto. }
  destruct (_ =? CMD_EnterSceneReadyReq).
  { intros E. apply Hx in E as [n E]. left. exact (sd_calm _ _ (ready_steady _ _ _ _ Hw E)). }
  destruct (_ =? CMD_SceneInitFinishReq).
  { intros E. apply Hx in E as [n E]. left. exact (scene_init_calm _ _ _ _ _ Hw E). }
  destruct (_ =? CMD_GetPlayerBlacklistReq).
  { intros E. apply Hx in E as [n E]. left. exact (sd_calm _ _ (blacklist_steady _ _ _ _ Hw E)). }
  destruct (_ =? CMD_EvtAiSyncCombatThreatInfoNotify); intros E; injection E as _ _ <-; left; apply calm_refl, Hw.
Qed.

#[export] Instance program_handlers : HandlerLaws del_player (processPacket (Addr := Addr) gd dispatch_key config).
Proof.
  intros p pkt g r v g' Hw _ E.
  destruct (process_ok p pkt g r v g' Hw E) as [C|[(_ & a & _ & [S _])|(_ & a & _ & [S _])]]; [exact (ca_served _ _ C)|exact S..].
Qed.
End handlers.
