(* ===== verification/ServerProps.v ===== *)
(** * The game server with its handlers: theorems *)

From stdpp Require Import gmap.
From S2P Require Import Prelude TomlText Mt64 Ec2b Ec2bProps RunConfig Packet Session SessionProps GameServer GameServerProps.
From S2P Require Import Account DbGate DbProps Item Avatar Team Vector Player PlayerDb PlayerFacts PlayerProps Messages NetPlayer Handlers.
From S2P Require Import HandlerFacts HandlersProps.

Section server.
Context {Addr : Type} {CA : MsgCodec AccountInfo} {CN : MsgCodec NextIdInfo} {CP : MsgCodec PlayerInfo} {CI : MsgCodec InventoryEntry}.
Context {SI : SessionIds} {CS : Codecs}.
Implicit Types g : server Addr Player World.

Variable gd : option GameData.
Variable dispatch_key : option (list byte).
Variable config : option RunConfig.config_t.

Abbreviation wf := (gs_wf del_player).
Abbreviation run := (gs_run (Addr := Addr) del_player (processPacket gd dispatch_key config) dispatch_key).

(** The memory a loaded player is made in has NULL where the member [curAvatar]
    is.  [Player(const storage::PlayerInfo&)] does not set that member, so the
    value found there is the player's. *)
Definition memory_null (w : World) : Prop := pl_curAvatar (w_junk w) = None.

(** What may happen: a datagram arrives, for a new session with memory for its
    objects and a random session id that is not 0; the thread of a session takes
    a turn; something outside (the console, the dispatch server, the memory
    allocator, the clock) replaces the database and the rest of the world, the
    records of players still naming no session and the memory being NULL. *)
Definition event_assumed (ev : event Addr World) : Prop :=
  match ev with
  | Datagram e _ _ => fst (e_mallocs e) = (true, true) /\ e_sid e <> 0
  | Turn _ _ => True
  | Outside w' => db_quiet (w_db w') /\ memory_null w'
  end.

Lemma assumed_ok ev : event_assumed ev -> event_ok del_player ev.
Proof. destruct ev; [exact id|exact id|]. intros [H1 H2]. constructor; assumption. Qed.

(** C15: Every execution of the whole server: the main thread, the threads of
    the sessions with all handlers, and whatever clients send (the main thread
    gets memory for new sessions, and random session ids are not 0).  It starts with,
    and whatever else happens in between leaves, a database whose records of
    players name no session, and NULL in the memory that loaded players take
    their member [curAvatar] from (the constructor leaves it uninitialised; with
    anything else there the player could not be saved, [junk_avatar_not_saved]).
    Then at every moment a session is closed, without a player; or waits for a
    token, without a player; or waits for the login or is active, with a player
    who has an account with a token, and encrypts with its own key.  Every player
    could be saved at that moment, and the next datagram is handled to its end. *)
Theorem program_server_safe a iv n w evs g :
  db_quiet (w_db w) -> memory_null w -> Forall event_assumed evs -> run evs (gs_start a iv n w) = Some g ->
  (forall p s, g_heap g !! p = Some s -> staged s /\ forall pl, s_player s = Some pl -> savable pl) /\
  (forall e from d, env_ok e -> exists g', on_datagram del_player e from d g = Some g' /\ wf g').
Proof.
  intros Hq Hj Hm Hr. assert (wf (gs_start a iv n w)) as W0 by (apply start_wf; constructor; assumption).
  assert (Forall (event_ok del_player) evs) as Hok by (eapply Forall_impl; [exact Hm|exact assumed_ok]).
  destruct (run_wf del_player (processPacket gd dispatch_key config) dispatch_key evs _ g Hok W0 Hr) as [W _].
  split.
  - intros p s Hs. destruct (wf_sessions _ g W p s Hs) as [_ H2 H3]. auto.
  - intros e from d He. destruct (datagram_ok del_player e from d g W He) as (g' & E & W' & _). eauto.
Qed.

(** Why the memory must be NULL: a loaded player has no avatars, so with any
    other pointer there the conversion that saves it follows a wild pointer. *)
Theorem junk_avatar_not_saved junk account ctime find rec pl q sess now :
  Player_of_info gd junk account ctime find rec = Some pl -> pl_curAvatar junk = Some q ->
  Player_to_info sess now pl = None.
Proof.
  unfold Player_of_info. destruct (if _ <? _ then _ else _) as [session|]; [|discriminate]. cbn [mbind option_bind]. cbv zeta.
  intros [= <-] Hj. match goal with |- context [updateOpenstates gd ?x] => destruct (updateOpenstates_shape gd x) as [l ->] end.
  unfold Player_to_info. cbn [set_openstates set_props pl_session pl_teams pl_curAvatar teams_to_pb]. rewrite Hj.
  destruct (match session with None => _ | Some _ => _ end); reflexivity.
Qed.

(** C16: No session gets further without the token.  After any packet every
    session is as it was, or closed, or is the one the packet came from: it
    waited for a token, and the packet was a token request that names a stored
    account whose token is not empty and begins the token that was sent; or it
    waited for the login, and the packet was a login request with the token of
    the account it already had. *)
Theorem progress_needs_token p pkt g r v g' q s' :
  wf g -> processPacket gd dispatch_key config p pkt g = Some (r, v, g') -> g_heap g' !! q = Some s' ->
  exists s, g_heap g !! q = Some s /\
    (view_of s' = view_of s \/ is_closed s' \/
     (q = p /\ p_opcode pkt = CMD_GetPlayerTokenReq /\ exists a uid, token_shown (p_data pkt) g p a /\
        view_of s' = mkView (Some (uid, Some a)) LOGIN_WAIT true) \/
     (q = p /\ p_opcode pkt = CMD_PlayerLoginReq /\ exists a uid, login_shown (p_data pkt) g p a /\
        view_of s = mkView (Some (uid, Some a)) LOGIN_WAIT true /\ view_of s' = mkView (Some (uid, Some a)) ACTIVE true)).
Proof.
  intros Hw E Hq. destruct (process_ok gd dispatch_key config p pkt g r v g' Hw E) as [C|[(Hop & a & T & [_ A])|(Hop & a & L & [_ A])]].
  - destruct (ca_view _ _ C q s' Hq) as (s & Hs & [H|H]); exists s; auto.
  - destruct (A q s' Hq) as (s & Hs & [H|[H|(Hqp & uid & H)]]); exists s; auto 10. split; [exact Hs|]. right. right. left. eauto 10.
  - destruct (A q s' Hq) as (s & Hs & [H|[H|(Hqp & Hn & H)]]); exists s; auto 10. split; [exact Hs|]. right. right. right.
    split; [exact Hqp|]. split; [exact Hop|]. destruct (ls_state _ _ _ _ L) as (s0 & pl & Hs0 & Hst & Hp & Ha).
    assert (s0 = s) as -> by congruence. destruct (wf_sessions _ g Hw q s Hs) as [_ _ H3].
    destruct (staged_player s pl H3 Hp) as (_ & Hk & _). exists a, (pl_uid pl). split; [exact L|].
    assert (view_of s = mkView (Some (pl_uid pl, Some a)) LOGIN_WAIT true) as Hv.
    { unfold view_of. rewrite Hp, Hst, Hk. cbn. unfold who. rewrite Ha. reflexivity. }
    split; [exact Hv|]. rewrite H, Hv. reflexivity.
Qed.

(** ** Loading a player *)

(** The lookup of a session reads through a free slot. *)
Lemma free_slot_lookup g : wf g -> None ∈ g_slots g -> find_session g 0 = None.
Proof.
  intros Hw. unfold find_session. induction (g_slots g) as [|[q|] l IH]; intros Hin; [inversion Hin| |reflexivity].
  cbn [getSessionById]. apply elem_of_cons in Hin as [F|Hin]; [discriminate F|].
  destruct (g_heap g !! q) as [s|] eqn:E; [|reflexivity]. cbn [mbind option_bind].
  destruct (s_kcp s) as [ks|] eqn:Ek; [|exact (IH Hin)].
  destruct (Z.eqb_spec (getSessionId ks) 0) as [E0|_]; [|exact (IH Hin)].
  destruct (so_id _ s (wf_sessions _ g Hw q s E) ks Ek E0).
Qed.

(** What a request must be to be accepted. *)
Record valid_token (p : nat) (pkt : Packet) g (s : Session Player) (id : Z) (a : Account) : Prop := {
  vt_session : g_heap g !! p = Some s;
  vt_state : getState s = TOKEN_WAIT;
  vt_opcode : p_opcode pkt = CMD_GetPlayerTokenReq;
  vt_request : exists req v, parse_from (p_data pkt) = Some req /\ strtoul (cstr (tq_account_uid req)) = Some v /\
    u32 v = id /\ comboToken a <> [] /\
    same_prefix (length (comboToken a)) (cstr (comboToken a)) (cstr (tq_account_token req)) = true;
  vt_account : getAccountByAid id (w_db (g_world g)) = Some a
}.

(** Such a request is accepted. *)
Lemma valid_token_step p pkt g s id a :
  valid_token p pkt g s id a ->
  processPacket gd dispatch_key config p pkt g =
    ('(n, g) ← accept_token gd dispatch_key p a id g; Some (n, true, g)).
Proof.
  intros [Hs Hst Hop (rq & v & Hrq & Hv & Hid & Hne & Hpre) Ha]. unfold processPacket. rewrite Hop. cbn [Z.eqb].
  change (CMD_GetPlayerTokenReq =? CMD_PingReq) with false. change (CMD_GetPlayerTokenReq =? CMD_GetPlayerTokenReq) with true.
  cbv zeta iota. unfold handleGetPlayerTokenReq. rewrite Hs. cbn [mbind option_bind]. rewrite Hst.
  change (negb (TOKEN_WAIT =? TOKEN_WAIT)) with false. cbv iota. unfold then_parse. rewrite Hrq, Hv. cbv zeta. rewrite Hid, Ha.
  unfold check_token. cbv zeta. rewrite decide_False by exact Hne. rewrite Hpre. reflexivity.
Qed.

(** A server with a free slot does not survive the second login of an
    account: loading the stored player, who belongs to no session, looks for a
    session with the id 0, and the lookup reads through the NULL pointer of the
    free slot.  (The program has one slot, so it does not happen there.) *)
Theorem second_login_crashes p pkt g s id a rec :
  wf g -> valid_token p pkt g s id a ->
  search PLAYER (fun r => pp_aid r =? id) (entries (w_db (g_world g))) = Some (Some rec) ->
  pp_session_expire_ts rec < w_time (g_world g) -> None ∈ g_slots g ->
  processPacket gd dispatch_key config p pkt g = None.
Proof.
  intros Hw Hv Hrec Ht Hf. rewrite (valid_token_step p pkt g s id a Hv).
  enough (token_player gd a id g = None) as E by (unfold accept_token; rewrite E; reflexivity).
  unfold token_player, getPlayerByAid. rewrite Hrec. cbn [mbind option_bind].
  assert (pp_session_id rec = 0) as Hz.
  { apply search_inv in Hrec as (k & x & Hin & Hk & Hx & _). apply entries_spec in Hin.
    exact (wq_db _ (wf_world _ g Hw) k x Hin Hk rec Hx). }
  unfold player_of, Player_of_info. rewrite (proj2 (Z.ltb_lt _ _) Ht), Hz, (free_slot_lookup g Hw Hf). reflexivity.
Qed.

(** ** A correct token is enough *)

Lemma full_lookup g : wf g -> None ∉ g_slots g -> find_session g 0 = Some None.
Proof.
  intros Hw Hf. unfold find_session. assert (forall q, Some q ∈ g_slots g -> is_Some (g_heap g !! q)) as Hl by (intros q; exact (slots_live del_player g q Hw)).
  induction (g_slots g) as [|[q|] l IH]; [reflexivity| |destruct Hf; left].
  cbn [getSessionById]. destruct (Hl q ltac:(left)) as [s E]. rewrite E. cbn [mbind option_bind].
  assert (getSessionById l 0 g = Some None) as Hr.
  { apply IH; [intros H; apply Hf; right; exact H|intros x Hx; apply Hl; right; exact Hx]. }
  destruct (s_kcp s) as [ks|] eqn:Ek; [|exact Hr].
  destruct (Z.eqb_spec (getSessionId ks) 0) as [E0|_]; [|exact Hr].
  destruct (so_id _ s (wf_sessions _ g Hw q s E) ks Ek E0).
Qed.

Lemma full_uid_lookup g u :
  wf g -> None ∉ g_slots g ->
  exists q, getSessionByUid pl_uid (g_slots g) u g = Some q /\
    forall p, q = Some p -> exists s pl, g_heap g !! p = Some s /\ s_player s = Some pl.
Proof.
  intros Hw Hf. assert (forall q, Some q ∈ g_slots g -> is_Some (g_heap g !! q)) as Hl by (intros q; exact (slots_live del_player g q Hw)).
  induction (g_slots g) as [|[q|] l IH]; [exists None; split; [reflexivity|discriminate]| |destruct Hf; left].
  cbn [getSessionByUid]. destruct (Hl q ltac:(left)) as [s E]. rewrite E. cbn [mbind option_bind].
  assert (exists q, getSessionByUid pl_uid l u g = Some q /\ forall p, q = Some p -> exists s pl, g_heap g !! p = Some s /\ s_player s = Some pl) as Hr.
  { apply IH; [intros H; apply Hf; right; exact H|intros x Hx; apply Hl; right; exact Hx]. }
  destruct (s_player s) as [pl|] eqn:Ep; [|exact Hr]. destruct (pl_uid pl =? u); [|exact Hr].
  exists (Some q). split; [reflexivity|]. intros p H. injection H as <-. eauto.
Qed.

Lemma search_total {A} `{MsgCodec A} t (f : A -> bool) l : readable l -> is_Some (search t f l).
Proof.
  intros Hr. induction Hr as [|e l He Hr IH]; [cbn; eauto|].
  destruct (search_cons t f e l He) as [(m & _ & ->)|[_ ->]]; [eauto|exact IH].
Qed.

(** What the server must be like for a login: no free slot, a database that can
    be searched and has uids left, and a generator that works. *)
Record open_house g : Prop := {
  oh_full : None ∉ g_slots g;
  oh_keys : keys_ok (w_db (g_world g));
  oh_next : in_u 32 (next_uid (next_ids (w_db (g_world g))));
  oh_size : Z.of_nat (size (ldb (w_db (g_world g)))) < 2 ^ 32;
  oh_mt : mt_full (w_mt (g_world g))
}.

Lemma token_player_total p s a id g :
  wf g -> open_house g -> g_heap g !! p = Some s -> s_player s = None -> getAccountByAid id (w_db (g_world g)) = Some a ->
  exists pl g', token_player gd a id g = Some (pl, g') /\ g_heap g' !! p = Some s /\
    surroundings (g_world g') = surroundings (g_world g).
Proof.
  intros Hw [Hf Hk Hn Hsz _] Hs Hp Ha. unfold token_player, getPlayerByAid.
  destruct (search_total PLAYER (fun r => pp_aid r =? id) _ (keys_readable _ Hk)) as [[rec|] E]; rewrite E; cbn [mbind option_bind].
  - assert (pp_session_id rec = 0) as Hz.
    { apply search_inv in E as (k & x & Hin & Hkt & Hx & _). apply entries_spec in Hin.
      exact (wq_db _ (wf_world _ g Hw) k x Hin Hkt rec Hx). }
    unfold player_of, Player_of_info. rewrite Hz, (full_lookup g Hw Hf).
    destruct (if _ <? _ then Some None else Some None) as [x|] eqn:Ex; [|destruct (_ <? _); discriminate Ex].
    cbn [mbind option_bind]. cbv zeta. set (pl := updateOpenstates gd _). unfold close_old.
    destruct (full_uid_lookup g (pl_uid pl) Hw Hf) as (q & -> & Hq). cbn [mbind option_bind].
    destruct q as [q|]; [|cbn [mbind option_bind]; eauto].
    destruct (Hq q eq_refl) as (s' & pl' & Hs' & Hp').
    destruct (close_at_ok del_player q 4 g s' Hw Hs') as (g' & Ec & _ & _ & Hh). rewrite Ec. cbn [mbind option_bind].
    exists pl, g'. split; [reflexivity|]. split; [rewrite Hh, lookup_insert_ne; [exact Hs|congruence]|].
    unfold close_at in Ec. rewrite Hs' in Ec. cbn [mbind option_bind] in Ec. destruct (close s' 4) as [s2 out]. cbv zeta in Ec.
    rewrite Hp' in Ec. destruct (del_player pl' _) as [w|] eqn:Ed; [|discriminate Ec]. cbn [mbind option_bind] in Ec.
    injection Ec as <-. unfold del_player in Ed. destruct (saveToDb _ _ _) as [[r w2]|] eqn:Es2; [|discriminate Ed].
    cbn [mbind option_bind] in Ed. injection Ed as <-. exact (saveToDb_surroundings _ _ _ _ _ Es2).
  - destruct (newPlayer_spec gd (session_info g) (g_world g) Hn Hsz) as (pl & w1 & En & _). rewrite En. cbn [mbind option_bind]. cbv zeta.
    destruct (newPlayer_quiet _ _ _ _ _ (wf_world _ g Hw) En) as (Hsav & _ & W1).
    destruct (saveToDb_quiet (session_info g) _ w1 (account_savable (Some a) pl Hsav) W1) as (r & w2 & E2 & _).
    rewrite E2. cbn [mbind option_bind]. eexists _, _. split; [reflexivity|]. split; [exact Hs|].
    cbn [set_world g_world]. rewrite (saveToDb_surroundings _ _ _ _ _ E2). exact (newPlayer_surroundings _ _ _ _ _ En).
Qed.

Lemma session_key_made rnd (s : Session Player) m :
  mt_full m -> zlen (s_key s) = 4096 ->
  exists m', generateSessionKey rnd s m =
    Some (mkSession (s_kcp s) (s_player s) (s_state s) (s_use_secret_key s) (s_sequence s) rnd (s_last_ping s)
            (pad_of true rnd 512), m').
Proof.
  intros Hm Hl. destruct (gen_pad rnd (s_key s) 4096 true m Hm ltac:(lia) ltac:(change (8 * (4096 / 8)) with 4096; lia)) as (m' & E & _).
  exists m'. unfold generateSessionKey. rewrite (run_bind _ _ _ _ _ E). unfold ret, mret, M_ret.
  change (8 * (4096 / 8)) with 4096. change (Z.to_nat (4096 / 8)) with 512%nat. cbn [default].
  rewrite (drop_ge (s_key s)) by lia. rewrite app_nil_r. reflexivity.
Qed.

Lemma bind_eq {A B} (f : A -> option B) x y : x = Some y -> (x ≫= f) = f y.
Proof. intros ->. reflexivity. Qed.

Lemma generate_key_made p s g :
  g_heap g !! p = Some s -> mt_full (w_mt (g_world g)) -> zlen (s_key s) = 4096 ->
  exists m', generate_key p g = Some (store p
    (mkSession (s_kcp s) (s_player s) (s_state s) (s_use_secret_key s) (s_sequence s) (w_random (g_world g)) (s_last_ping s)
       (pad_of true (w_random (g_world g)) 512)) [] (set_world (set_mt m' (g_world g)) g)).
Proof.
  intros Hs Hm Hl. destruct (session_key_made (w_random (g_world g)) s _ Hm Hl) as (m' & E). exists m'.
  unfold generate_key. rewrite (bind_eq _ _ _ Hs). rewrite (bind_eq _ _ _ E). reflexivity.
Qed.

(** The reply to the token fits the buffer of [sendPacket]. *)
Definition reply_fits (a : Account) (rnd : Z) : Prop :=
  (forall pl d, serialize (token_rsp a pl rnd) = Some d -> zlen d <= 3000) /\
  (forall h b, serialize (h : PacketHead) = Some b -> zlen b <= 1000).

Lemma with_header_size a rnd g n op : reply_fits a rnd -> zlen (p_header (with_header g n (new_packet op))) <= 1000.
Proof.
  intros [_ Hh]. unfold with_header, buildHeader. destruct (_ && _); [cbn; lia|].
  destruct (serialize _) as [b|] eqn:E; [exact (Hh _ b E)|cbn; lia].
Qed.

Lemma send_keeps p pkt g s ks :
  g_heap g !! p = Some s -> s_kcp s = Some ks -> packet_key dispatch_key s pkt <> Some [] ->
  12 + zlen (p_header pkt) + zlen (p_data pkt) <= SEND_BUF ->
  exists r g' ks', send_packet dispatch_key p pkt g = Some (r, g') /\ g_heap g' !! p = Some (setKcp s (Some ks')).
Proof.
  intros Hs Hk Hkey Hsz. unfold send_packet. rewrite Hs. cbn [mbind option_bind].
  rewrite (sendPacket_ok dispatch_key 0 (replicate 4096 Byte.x00) s pkt ks); [|rewrite length_replicate; reflexivity|exact Hsz|exact Hk|exact Hkey].
  destruct (ks_send 0 ks _) as [[r ks'] out]. cbn [mbind option_bind]. eexists _, _, ks'. split; [reflexivity|].
  cbn [store emit set_heap g_heap]. apply lookup_insert_eq.
Qed.

(** An accepted token. *)
Lemma token_step p pkt g s ks id a :
  wf g -> open_house g -> valid_token p pkt g s id a -> s_kcp s = Some ks -> zlen (s_key s) = 4096 ->
  dispatch_key <> Some [] -> reply_fits a (w_random (g_world g)) ->
  exists r g' s' pl, processPacket gd dispatch_key config p pkt g = Some (r, true, g') /\ g_heap g' !! p = Some s' /\
    s_player s' = Some pl /\ pl_account pl = Some a /\ getState s' = LOGIN_WAIT /\ useSecretKey s' = true /\
    s_seed s' = w_random (g_world g) /\ s_key s' = pad_of true (w_random (g_world g)) 512.
Proof.
  intros Hw Ho Hv Hk Hkey Hdk Hfit. rewrite (valid_token_step p pkt g s id a Hv).
  destruct Hv as [Hs Hst _ (_ & _ & _ & _ & _ & Hne & _) Ha].
  assert (s_player s = None) as Hp0.
  { destruct (wf_sessions _ g Hw p s Hs) as [_ _ [(E & _)|[[_ E]|([E|E] & _)]]]; [rewrite Hst in E; discriminate E|exact E| |];
      rewrite Hst in E; discriminate E. }
  destruct (token_player_total p s a id g Hw Ho Hs Hp0 Ha) as (pl & g1 & E1 & Hs1 & Hsur).
  destruct (token_player_ok gd a id g pl g1 Hw Ha E1) as (_ & _ & Hac).
  unfold surroundings in Hsur. injection Hsur as _ _ Hrnd Hmt.
  unfold accept_token. rewrite E1. cbn [mbind option_bind]. 
  assert (put_player p pl g1 = Some (store p (setPlayer s (Some pl)) [] g1)) as -> by (unfold put_player, on_session; rewrite Hs1; reflexivity).
  rewrite (bind_eq _ _ _ eq_refl).
  assert (mt_full (w_mt (g_world g1))) as Hm1 by (rewrite Hmt; exact (oh_mt g Ho)).
  destruct (generate_key_made p (setPlayer s (Some pl)) (store p (setPlayer s (Some pl)) [] g1) (lookup_insert_eq _ _ _) Hm1 Hkey)
    as (m' & E2). rewrite (bind_eq _ _ _ E2). clear E2. change (g_world (store p _ [] g1)) with (g_world g1). rewrite Hrnd.
  cbn [setPlayer s_kcp s_player s_state s_use_secret_key s_sequence s_last_ping]. set (s2 := mkSession _ _ _ _ _ _ _ _).
  rewrite store_over. set (w1 := set_mt m' (g_world g1)).
  unfold on_session. change (g_heap (set_world w1 (store p s2 [] g1))) with (<[p := s2]> (g_heap g1)). rewrite lookup_insert_eq. cbn [mbind option_bind].
  rewrite store_over. set (s3 := setState _ LOGIN_WAIT). set (g3 := set_world w1 (store p s3 [] g1)).
  assert (g_heap g3 !! p = Some s3) as Hs3 by apply lookup_insert_eq. clearbody g3. rewrite Hs3. cbn [mbind option_bind].
  unfold then_data. destruct (serialize (token_rsp a pl (s_seed s3))) as [d|] eqn:Ed; cbn [mbind option_bind].
  2: { exists (-1), g3, s3, pl. repeat split; assumption. }
  unfold next_seq. rewrite Hs3. cbn [mbind option_bind nextSeq]. cbv zeta.
  set (s4 := setSeq s3 _). set (n := u32 _). set (g4 := store p s4 [] g3).
  assert (g_heap g4 !! p = Some s4) as Hs4 by apply lookup_insert_eq. clearbody g4.
  destruct (send_keeps p (setUseDispatchKey (setPacketData (with_header g4 n (new_packet CMD_GetPlayerTokenRsp)) d) 1) g4 s4 ks Hs4 Hk)
    as (r & g5 & ks' & -> & Hs5).
  - exact Hdk.
  - cbn [setUseDispatchKey setPacketData p_header p_data].
    pose proof (with_header_size a _ g4 n CMD_GetPlayerTokenRsp Hfit). pose proof (proj1 Hfit pl d Ed). unfold SEND_BUF. lia.
  - cbn [mbind option_bind]. exists r, g5, (setKcp s4 (Some ks')), pl. repeat split; assumption.
Qed.

(** C17: When the table is full and the database can be searched, a request with
    the right token is always accepted: the session gets a player of that
    account, a fresh random seed and the key that belongs to it, uses it from
    then on, and waits for the login. *)
Theorem token_accepted p pkt g s ks id a :
  wf g -> open_house g -> valid_token p pkt g s id a -> s_kcp s = Some ks -> zlen (s_key s) = 4096 ->
  dispatch_key <> Some [] -> reply_fits a (w_random (g_world g)) ->
  exists r g' s' pl, processPacket gd dispatch_key config p pkt g = Some (r, true, g') /\ g_heap g' !! p = Some s' /\
    s_player s' = Some pl /\ pl_account pl = Some a /\ getState s' = LOGIN_WAIT /\ useSecretKey s' = true /\
    s_seed s' = w_random (g_world g) /\ s_key s' = pad_of true (w_random (g_world g)) 512.
Proof. exact (token_step p pkt g s ks id a). Qed.
End server.


(** ** A concrete server

    The generated code of the messages that are only built writes one byte for
    each; requests are parsed to the same message whatever their bytes are. *)
Definition const_codec {A} (m : option A) : MsgCodec A :=
  {| serialize _ := Some [Byte.x01]; parse_from _ := m; msg_utf8 _ := True |}.

Definition ex_token : list byte := map zb [1; 200; 3; 255].
Definition ex_owner : Account := getNewComboToken ex_token (setAccountId 7 (new_Account (mkJunk 0 0 0 0))).

#[local] Existing Instances info_codec info_laws ids_codec player_codec player_laws.
#[local] Instance entry_codec : MsgCodec InventoryEntry := const_codec None.

#[local] Instance ex_session_ids : SessionIds.
Proof.
  intros p p' b Hs Hp E. assert (msg_utf8 p) as Hu by exact I. rewrite (msg_roundtrip p b Hu Hs) in Hp.
  injection Hp as <-. exact E.
Qed.

#[local] Instance ex_codecs : Codecs := {|
  c_PacketHead := const_codec None; c_PingReq := const_codec (Some ping_req); c_PingRsp := const_codec None;
  c_GetPlayerTokenReq := const_codec (Some (mkTokenReq ([zb 55]) (comboToken ex_owner)));
  c_GetPlayerTokenRsp := const_codec None; c_PlayerLoginReq := const_codec None; c_PlayerLoginRsp := const_codec None;
  c_AvatarDataNotify := const_codec None; c_PlayerDataNotify := const_codec None;
  c_PlayerStoreNotify := const_codec None; c_StoreWeightLimitNotify := const_codec None;
  c_PlayerEnterSceneNotify := const_codec None; c_OpenStateUpdateNotify := const_codec None;
  c_OpenStateChangeNotify := const_codec None; c_EnterSceneReadyRsp := const_codec None;
  c_EnterScenePeerNotify := const_codec None; c_SceneInitFinishReq := const_codec None;
  c_SceneInitFinishRsp := const_codec None; c_PlayerEnterSceneInfoNotify := const_codec None;
  c_SceneTeamUpdateNotify := const_codec None; c_GetPlayerBlacklistRsp := const_codec None |}.

(** A database with that account and its player, who has uid 4. *)
Definition ex_record : PlayerInfo := default msg_default (Player_to_info no_sessions 1000 (setAccount (Some ex_owner) ex_player)).
Definition ex_stored : dbGate :=
  mkDb {[ id_key ACCOUNT 7 := default [] (match Account_to_info ex_owner with Some i => serialize i | None => None end);
          id_key PLAYER 4 := default [] (serialize ex_record) ]} (mkNextIds 0 5 0 0).

Definition ex_full_world : World := set_mt mt_start (set_db ex_stored ex_world).
Definition ex_home : env := mkEnv 0x1122334455 20 1000 (true, true, true) 0 (replicate 4096 Byte.x00).
Definition ex_empty (n : nat) : server nat Player World := gs_start 0%nat 100 n ex_full_world.
Definition ex_house (n : nat) : server nat Player World :=
  default (ex_empty n) (on_datagram del_player ex_home 1%nat open_datagram (ex_empty n)).
Definition ex_request : Packet := new_packet CMD_GetPlayerTokenReq.

Lemma ex_quiet : world_quiet ex_full_world.
Proof.
  constructor; [|reflexivity]. intros k v. cbn [ex_full_world set_mt set_db w_db ex_stored ldb].
  intros E Hk p Hp. apply lookup_insert_Some in E as [[<- <-]|[_ E]]; [vm_compute in Hk; discriminate Hk|].
  apply lookup_singleton_Some in E as [<- <-]. assert (msg_utf8 ex_record) as Hu by exact I.
  destruct (msg_serializes ex_record Hu) as [b Hb]. rewrite Hb in Hp. cbn [default from_option id] in Hp.
  rewrite (msg_roundtrip ex_record b Hu Hb) in Hp. injection Hp as <-. vm_compute. reflexivity.
Qed.

Lemma ex_step n : (0 < n)%nat -> on_datagram del_player ex_home 1%nat open_datagram (ex_empty n) = Some (ex_house n).
Proof.
  intros Hn. unfold ex_house.
  destruct (datagram_ok del_player ex_home 1%nat open_datagram (ex_empty n)) as (g' & -> & _);
    [apply start_wf, ex_quiet|split; [reflexivity|discriminate]|reflexivity].
Qed.

Lemma ex_wf n : (0 < n)%nat -> gs_wf del_player (ex_house n).
Proof.
  intros Hn. destruct (datagram_ok del_player ex_home 1%nat open_datagram (ex_empty n)) as (g' & E & W & _);
    [apply start_wf, ex_quiet|split; [reflexivity|discriminate]|].
  rewrite (ex_step n Hn) in E. injection E as <-. exact W.
Qed.

Definition ex_guest : Session Player := match g_heap (ex_house 1) !! 0%nat with Some s => s | None => new_Session (mkKs None 0) 0 0 [] end.

Lemma ex_valid n : n = 1%nat \/ n = 2%nat -> valid_token 0 ex_request (ex_house n) ex_guest 7 (reloaded ex_owner).
Proof.
  intros Hn. constructor; [destruct Hn as [->| ->]; vm_compute; reflexivity|vm_compute; reflexivity|reflexivity| |].
  - exists (mkTokenReq [zb 55] (comboToken ex_owner)), 7. split; [reflexivity|]. split; [vm_compute; reflexivity|].
    split; [vm_compute; reflexivity|]. split; [vm_compute; discriminate|vm_compute; reflexivity].
  - destruct Hn as [->| ->]; vm_compute; reflexivity.
Qed.

Lemma program_server_safe_witness :
  gs_run del_player (processPacket None None None) None [Datagram ex_home 1%nat open_datagram] (ex_empty 1) = Some (ex_house 1) /\
  staged ex_guest.
Proof.
  assert (gs_run del_player (processPacket None None None) None [Datagram ex_home 1%nat open_datagram] (ex_empty 1) = Some (ex_house 1)) as Hr.
  { cbn [gs_run gs_step]. rewrite ex_step by lia. reflexivity. }
  split; [exact Hr|].
  destruct (program_server_safe None None None 0%nat 100 1%nat ex_full_world [Datagram ex_home 1%nat open_datagram] (ex_house 1)
    (wq_db _ ex_quiet) (wq_junk _ ex_quiet)) as [H _]; [constructor; [split; [reflexivity|discriminate]|constructor]|exact Hr|].
  destruct (H 0%nat ex_guest) as [S _]; [vm_compute; reflexivity|exact S].
Defined.

Lemma second_login_crashes_witness : processPacket None None None 0 ex_request (ex_house 2) = None.
Proof.
  refine (second_login_crashes None None None 0 ex_request (ex_house 2) ex_guest 7 (reloaded ex_owner) ex_record
    (ex_wf 2 _) (ex_valid 2 _) _ _ _); [lia|auto|vm_compute; reflexivity|vm_compute; reflexivity|].
  assert (g_slots (ex_house 2) = [Some 0%nat; None]) as -> by (vm_compute; reflexivity). right. left.
Defined.

Lemma ex_open_house : open_house (ex_house 1).
Proof.
  constructor.
  - assert (g_slots (ex_house 1) = [Some 0%nat]) as -> by (vm_compute; reflexivity). intros H. apply list_elem_of_singleton in H. discriminate H.
  - assert (w_db (g_world (ex_house 1)) = ex_stored) as -> by (vm_compute; reflexivity).
    intros k [v E]. cbn [ex_stored ldb] in E. apply lookup_insert_Some in E as [[<- _]|[_ E]]; [eexists; apply id_key_type|].
    apply lookup_singleton_Some in E as [<- _]. eexists. apply id_key_type.
  - vm_compute. split; [discriminate|reflexivity].
  - vm_compute. reflexivity.
  - assert (w_mt (g_world (ex_house 1)) = mt_start) as -> by (vm_compute; reflexivity). exact start_full.
Qed.

Lemma ex_fits : reply_fits (reloaded ex_owner) (w_random (g_world (ex_house 1))).
Proof. split; [intros pl d E|intros h d E]; vm_compute in E; injection E as <-; vm_compute; discriminate. Qed.

Lemma ex_transport : exists ks, s_kcp ex_guest = Some ks.
Proof. destruct (s_kcp ex_guest) as [ks|] eqn:Hk; [eauto|vm_compute in Hk; discriminate Hk]. Qed.

Lemma ex_key_size : zlen (s_key ex_guest) = 4096.
Proof. vm_compute. reflexivity. Qed.

Lemma token_accepted_witness :
  exists r g' s' pl, processPacket None None None 0 ex_request (ex_house 1) = Some (r, true, g') /\
    g_heap g' !! 0%nat = Some s' /\ s_player s' = Some pl /\ pl_account pl = Some (reloaded ex_owner) /\ getState s' = LOGIN_WAIT.
Proof.
  destruct ex_transport as [ks Hk].
  destruct (token_accepted None None None 0 ex_request (ex_house 1) ex_guest ks 7 (reloaded ex_owner) (ex_wf 1 ltac:(lia)) ex_open_house
    (ex_valid 1 ltac:(auto)) Hk ex_key_size ltac:(discriminate) ex_fits) as (r & g' & s' & pl & E & Hs & Hp & Ha & Hl & _).
  exists r, g', s', pl. auto 10.
Defined.

Lemma ex_accepted :
  exists r g' s', processPacket None None None 0 ex_request (ex_house 1) = Some (r, true, g') /\ g_heap g' !! 0%nat = Some s' /\ v_state (view_of s') = LOGIN_WAIT.
Proof.
  destruct ex_transport as [ks Hk].
  destruct (token_step None None None 0 ex_request (ex_house 1) ex_guest ks 7 (reloaded ex_owner) (ex_wf 1 ltac:(lia)) ex_open_house
    (ex_valid 1 ltac:(auto)) Hk ex_key_size ltac:(discriminate) ex_fits) as (r & g' & s' & pl & E & Hs & _ & _ & Hl & _).
  eauto 10.
Qed.

Lemma ex_waits : v_state (view_of ex_guest) = TOKEN_WAIT.
Proof. vm_compute. reflexivity. Qed.

Lemma progress_needs_token_witness :
  exists r g' s', processPacket None None None 0 ex_request (ex_house 1) = Some (r, true, g') /\ g_heap g' !! 0%nat = Some s' /\
    exists a uid, token_shown (p_data ex_request) (ex_house 1) 0 a /\ view_of s' = mkView (Some (uid, Some a)) LOGIN_WAIT true.
Proof.
  destruct ex_accepted as (r & g' & s' & E & Es & Hv). exists r, g', s'. split; [exact E|]. split; [exact Es|].
  destruct (progress_needs_token None None None 0 ex_request (ex_house 1) r true g' 0 s' (ex_wf 1 ltac:(lia)) E Es)
    as (s & Hs & [H|[H|[(_ & _ & a & uid & T & H)|(_ & Hop & _)]]]).
  - exfalso. rewrite (vt_session _ _ _ _ _ _ (ex_valid 1 ltac:(auto))) in Hs. injection Hs as <-. rewrite H, ex_waits in Hv. discriminate Hv.
  - rewrite (closed_state _ H) in Hv. discriminate Hv.
  - eauto.
  - discriminate Hop.
Defined.
