(* ===== verification/Sdk.v ===== *)
(** * The account endpoints of the dispatch server

    [handleLogin], [handleVerify], [handleCombo], [handleActionTicket],
    [handleBindRealname] and [handleClientLog] of src/dispatch.cpp.  A handler
    gets the C string after the head of a request (NULL is [None]) and returns
    the text of the reply; accounts are in the database of the [World].  JSON is
    read and written by json-c, the class [Json].  No result: a NULL pointer is
    used, or a lookup reads outside a table. *)

From Stdlib Require Import Strings.String.
From stdpp Require Import gmap.
From S2P Require Import Prelude Util Account DbGate PlayerDb.

(** ** json-c *)

(** What the program gives to [json_object_object_add]. *)
Inductive jval := JUint (n : Z) | JInt (n : Z) | JBool (b : bool) | JString (s : list byte) | JNull.

(** A value that json-c parsed, not NULL.  A member that is null is the NULL
    pointer; [json_get] is [None] when there is no such member. *)
Class Json := {
  json : Type;
  json_parse : list byte -> option json;
  json_is_object : json -> bool;
  json_get : json -> list byte -> option (option json);
  json_string : option json -> option (list byte);
  json_string_len : option json -> Z;
  json_int : option json -> Z;
  json_bool : option json -> Z;
  json_print : list (list byte * jval) -> list byte
}.

(** ** Texts

    A literal of the source, with an apostrophe for each quotation mark. *)
Definition quoted (c : byte) : byte := if decide (bz c = 39) then zb 34 else c.
Definition js (s : string) : list byte := map quoted (bytes_of s).
Arguments js s%_string.

Definition fail_text (retcode : string) (message : string) : list byte :=
  js "{'retcode':" ++ js retcode ++ js ",'message':'" ++ js message ++ js "'}".
Arguments fail_text retcode%_string message%_string.

(** What the environment decides while a request is handled: whether the
    calls of [json_tokener_new] and of [json_object_new_object] succeed, and
    the bytes from [getrandom]. *)
Record sdk_env := mkSdk { sdk_tokener : bool; sdk_tokener2 : bool; sdk_object : bool; sdk_raw : list byte }.

Section sdk.
Context {JS : Json} {CA : MsgCodec AccountInfo}.

Abbreviation answer := (option (list byte * World)).

(** [return text;] *)
Definition reply (text : list byte) (w : World) : answer := Some (text, w).

(** [return] of an error of the request. *)
Definition reject (message : string) (w : World) : answer := reply (fail_text "-101" message) w.
Arguments reject message%_string w.

(** [globalDbGate->saveAccount( *account)] *)
Definition store_account (a : Account) (w : World) : option World :=
  '(_, d) ← saveAccount (default true (head (w_puts w))) a (w_db w); Some (set_db d (pop_put w)).

(** A member as a string: NULL when there is none. *)
Definition member_string (j : json) (name : list byte) : option (list byte) :=
  match json_get j name with Some v => json_string v | None => None end.

(** The text of the request, up to the object it has to be. *)
Definition with_object (post : option (list byte)) (e : sdk_env) (w : World) (k : json -> answer) : answer :=
  match post with
  | None => reply (fail_text "-103" "Login failure: `post` is NULL") w
  | Some post =>
      if negb (sdk_tokener e) then reply (fail_text "-103" "Login failure: unable to allocate JSON tokener") w
      else
        match json_parse (c_string post) with
        | None => reject "Login failure: error parsing JSON data" w
        | Some j => if json_is_object j then k j else reject "Login failure: JSON data is not an object" w
        end
  end.

(** A member that has to be a string that is not empty. *)
Definition with_string (j : json) (name : list byte) (what : string) (w : World) (k : list byte -> answer) : answer :=
  match json_get j name with
  | None => reject (what ++ " is not set") w
  | Some v =>
      match json_string v with
      | None => reject (what ++ " is null") w
      | Some s => if decide (c_string s = []) then reject (what ++ " is empty") w else k s
      end
  end.
Arguments with_string j name what%_string w k.

(** [strcmp(token, account->getAuthToken().c_str()) == 0] *)
Definition same_token (token : list byte) (a : Account) : bool := bool_decide (c_string token = c_string (authToken a)).

(** The account with an id, if the token is the stored one. *)
Definition with_token (aid : Z) (token : list byte) (w : World) (k : Account -> answer) : answer :=
  match getAccountByAid aid (w_db w) with
  | None => reject "Account ID does not exist" w
  | Some a => if same_token token a then k a else reject "Cached token does not match" w
  end.

(** [json_object_new_object] *)
Definition with_new_object (e : sdk_env) (w : World) (k : answer) : answer :=
  if sdk_object e then k else reply (fail_text "-103" "Login failure: unable to allocate JSON object") w.

Definition ok_text (data : list byte) : list byte := js "{'retcode':0,'message':'ok','data':" ++ data ++ js "}".

(** The [account] of a reply, printed, and what follows it. *)
Definition account_text (aid : Z) (token : list byte) (a : Account) : list byte :=
  ok_text (js "{'account':" ++
    json_print [(bytes_of "uid", JUint aid); (bytes_of "name", JString (c_string (username a)));
                (bytes_of "email", JString (c_string (email a))); (bytes_of "is_email_verify", JBool false);
                (bytes_of "token", JString (c_string token)); (bytes_of "country", JString (bytes_of "ZZ"));
                (bytes_of "area_code", JNull)] ++
    js ",'device_grant_required':false,'realname_operation':0,'realperson_required':false,'safe_mobile_required':false}").

(** ** /session/new *)

Definition guest_text (a : Account) : list byte :=
  ok_text (json_print [(bytes_of "uid", JUint (aid a)); (bytes_of "account_type", JUint 0)]).

(** From the password on. *)
Definition finish_login (j : json) (isGuest : Z) (deviceId : option (list byte)) (a : Account) (e : sdk_env) (w : World) : answer :=
  match json_get j (bytes_of "password") with
  | None => reject "Password is not set" w
  | Some v =>
      match json_string v with
      | None => reject "Password is null" w
      | Some _ =>
          let a := getNewAuthToken (sdk_raw e) (w_time w) a in
          let a := match deviceId with Some d => setDeviceId (c_string d) a | None => a end in
          w ← store_account a w;
          with_new_object e w
            (reply (if isGuest =? 0 then account_text (aid a) (authToken a) a else guest_text a) w)
      end
  end.

Definition handleLogin (post : option (list byte)) (e : sdk_env) (w : World) : answer :=
  with_object post e w (fun j =>
  let isGuest := match json_get j (bytes_of "is_guest") with Some v => json_bool v | None => 0 end in
  let deviceId := member_string j (bytes_of "device_id") in
  if isGuest =? 0 then
    with_string j (bytes_of "account") "Username" w (fun name =>
    a ← getAccountByUsername (Some name) (w_db w);
    match a with
    | None => reject "Username does not exist" w
    | Some a => finish_login j isGuest deviceId a e w
    end)
  else
    match deviceId with
    | None => reject "Device ID is null" w
    | Some d =>
        if decide (c_string d = []) then reject "Device ID is empty" w
        else
          a ← getAccountByDeviceId (Some d) (w_db w);
          match a with
          | None => reject "Device ID does not exist" w
          | Some a => finish_login j isGuest deviceId a e w
          end
    end).

(** ** /session/verify *)
Definition handleVerify (post : option (list byte)) (e : sdk_env) (w : World) : answer :=
  with_object post e w (fun j =>
  match json_get j (bytes_of "uid") with
  | None => reject "Account ID is not set" w
  | Some v =>
      let aid := u32 (json_int v) in
      with_string j (bytes_of "token") "Token" w (fun token =>
      with_token aid token w (fun a =>
      with_new_object e w (reply (account_text aid token a) w)))
  end).

(** ** /session/combo *)

(** The object in the string [data]. *)
Definition with_data (j : json) (e : sdk_env) (w : World) (k : json -> answer) : answer :=
  match json_get j (bytes_of "data") with
  | None => reject "Account data is not set" w
  | Some v =>
      match json_string v with
      | None => reject "Account data is not set" w
      | Some s =>
          if negb (sdk_tokener2 e) then reply (fail_text "-103" "Login failure: unable to allocate JSON tokener") w
          else
            match json_parse (ztake (json_string_len v) s) with
            | None => reject "Login failure: error parsing JSON data" w
            | Some d => if json_is_object d then k d else reject "Login failure: JSON data is not an object" w
            end
      end
  end.

Definition combo_text (aid isGuest : Z) (token : list byte) : list byte :=
  ok_text (json_print
    [(bytes_of "combo_token", JString (c_string token)); (bytes_of "open_id", JUint aid);
     (bytes_of "account_type", JInt (if isGuest =? 0 then 1 else 0));
     (bytes_of "data", JString (if isGuest =? 0 then js "{'guest':false}" else js "{'guest':true}"));
     (bytes_of "fatigue_remind", JNull); (bytes_of "heartbeat", JBool false)]).

(** A new token for the account. *)
Definition new_combo (aid isGuest : Z) (a : Account) (e : sdk_env) (w : World) : answer :=
  let a := getNewComboToken (sdk_raw e) a in
  w ← store_account a w;
  with_new_object e w (reply (combo_text aid isGuest (comboToken a)) w).

(** The id of the device is read from [data] itself, not from [device]. *)
Definition handleCombo (post : option (list byte)) (e : sdk_env) (w : World) : answer :=
  with_object post e w (fun j =>
  with_data j e w (fun d =>
  match json_get d (bytes_of "uid") with
  | None => reject "Account ID is not set" w
  | Some v =>
      let aid := u32 (json_int v) in
      let deviceId := match json_get j (bytes_of "device") with Some _ => json_string (Some d) | None => None end in
      let isGuest := match json_get d (bytes_of "guest") with Some v => json_bool v | None => 0 end in
      let token := member_string d (bytes_of "token") in
      if isGuest =? 0 then
        match token with
        | None => reject "Token is null" w
        | Some t =>
            if decide (c_string t = []) then reject "Token is empty" w
            else with_token aid t w (fun a => new_combo aid isGuest a e w)
        end
      else
        match deviceId with
        | None => reject "Device ID is null" w
        | Some d =>
            if decide (c_string d = []) then reject "Device ID is empty" w
            else
              match getAccountByAid aid (w_db w) with
              | None => reject "Account ID does not exist" w
              | Some a => new_combo aid isGuest a e w
              end
        end
  end)).

(** ** /binder/ticket *)
Definition handleActionTicket (post : option (list byte)) (e : sdk_env) (w : World) : answer :=
  with_object post e w (fun j =>
  match json_get j (bytes_of "account_id") with
  | None => reject "Account ID is not set" w
  | Some v =>
      let aid := u32 (json_int v) in
      with_string j (bytes_of "game_token") "Token" w (fun token =>
      with_token aid token w (fun a =>
      let a := getNewBinderToken (sdk_raw e) (w_time w) a in
      w ← store_account a w;
      reply (ok_text (js "{'ticket':'" ++ binderToken a ++ js "'}")) w))
  end).

(** ** /binder/verify

    A [realname] or [identity_card] that is missing is given to
    [json_object_new_string] as NULL, whose length it takes. *)
Definition handleBindRealname (post : option (list byte)) (e : sdk_env) (w : World) : answer :=
  with_object post e w (fun j =>
  with_string j (bytes_of "action_ticket") "Binder token" w (fun token =>
  raw ← b64dec (c_string token);
  a ← getAccountByBinderToken (Some raw) (w_db w);
  match a with
  | None => reject "Binder token is invalid or account does not exist" w
  | Some a =>
      let a := setBinderTokenTimestamp 0 a in
      w ← store_account a w;
      with_new_object e w
        (_ ← member_string j (bytes_of "realname");
         _ ← member_string j (bytes_of "identity_card");
         reply (ok_text (json_print
           [(bytes_of "name", JString (c_string (username a))); (bytes_of "email", JString (c_string (email a)));
            (bytes_of "realname", JString []); (bytes_of "identity_card", JString [])])) w)
  end)).

(** ** /log *)
Definition handleClientLog (post : option (list byte)) (e : sdk_env) (w : World) : answer :=
  let error message := reply (fail_text "-1" message) w in
  match post with
  | None => error "Error: `post` is NULL"%string
  | Some post =>
      if negb (sdk_tokener e) then error "Error: unable to allocate JSON tokener"%string
      else
        match json_parse (c_string post) with
        | None => error "Error parsing JSON data"%string
        | Some j =>
            if negb (json_is_object j) then error "Error: JSON data is not an object"%string
            else
              let ec := match json_get j (bytes_of "errorCodeToPlatform") with Some v => u32 (json_int v) | None => 0 end in
              let ok := reply (js "{'retcode':0,'message':'ok'}") w in
              if negb (ec =? 0) then ok
              else
                match json_get j (bytes_of "logStr") with
                | None => error "Error: logStr is not set"%string
                | Some v =>
                    match json_string v with
                    | None => error "Error: logStr is null"%string
                    | Some s => if decide (c_string s = []) then error "Error: logStr is empty"%string else ok
                    end
                end
        end
  end.
End sdk.
