(* ===== verification/SdkProps.v ===== *)
(** * The account endpoints: theorems

    What a request must show to get a token, which requests the server does not
    survive, and what a token of the dispatch server opens on the game server:
    the endpoints against the database and the whole server of ServerProps.v. *)

From Stdlib Require Import Strings.String.
From stdpp Require Import gmap.
From S2P Require Import Prelude TomlText Util UtilProps Mt64 Ec2b Ec2bProps Packet Session GameServer GameServerProps Account DbGate DbProps.
From S2P Require Import Avatar Player PlayerDb PlayerFacts PlayerProps Messages NetPlayer Handlers HandlerFacts HandlersProps ServerProps Sdk.

(** What is documented of [json_object_get_string]: it prints an object. *)
Class JsonLaws `{Json} := object_text j :
  json_is_object j = true -> exists s, json_string (Some j) = Some s /\ c_string s <> [].

Inductive endpoint := E_login | E_verify | E_combo | E_ticket | E_bind | E_log.

Section sdk.
Context {JS : Json} {CA : MsgCodec AccountInfo}.

Definition endpoint_handler (x : endpoint) : option (list byte) -> sdk_env -> World -> option (list byte * World) :=
  match x with
  | E_login => handleLogin | E_verify => handleVerify | E_combo => handleCombo
  | E_ticket => handleActionTicket | E_bind => handleBindRealname | E_log => handleClientLog
  end.

(** ** Requests *)

(** The body is an object. *)
Definition request_object (post : option (list byte)) (e : sdk_env) (j : json) : Prop :=
  exists p, post = Some p /\ sdk_tokener e = true /\ json_parse (c_string p) = Some j /\ json_is_object j = true.

Definition int_field (j : json) (name : string) (n : Z) : Prop :=
  exists v, json_get j (bytes_of name) = Some v /\ u32 (json_int v) = n.

Definition string_field (j : json) (name : string) (s : list byte) : Prop :=
  exists v, json_get j (bytes_of name) = Some v /\ json_string v = Some s.

(** The object in the member [data]. *)
Definition data_object (j : json) (e : sdk_env) (d : json) : Prop :=
  exists v s, json_get j (bytes_of "data") = Some v /\ json_string v = Some s /\ sdk_tokener2 e = true /\
    json_parse (ztake (json_string_len v) s) = Some d /\ json_is_object d = true.

Definition says_guest (d : json) : Prop := exists v, json_get d (bytes_of "guest") = Some v /\ json_bool v <> 0.

Definition refused (r : list byte) : Prop := exists retcode message, r = fail_text retcode message.

(** ** Cases of a handler

    The request is refused and nothing changes, or the handler goes on. *)
Definition turned_down (w : World) (o : option (list byte * World)) : Prop := exists r, o = Some (r, w) /\ refused r.

Lemma turned_down_inv w r w' : turned_down w (Some (r, w')) -> w' = w /\ refused r.
Proof. intros (r0 & E & H). injection E as -> ->. auto. Qed.

Lemma turned_down_fail w c m : turned_down w (Some (fail_text c m, w)).
Proof. unfold turned_down, refused. eauto. Qed.

Lemma with_object_inv post e w k o :
  with_object post e w k = o -> turned_down w o \/ exists j, request_object post e j /\ k j = o.
Proof.
  intros <-. unfold with_object, reply, reject. destruct post as [p|]; [|left; apply turned_down_fail].
  destruct (sdk_tokener e) eqn:Et; cbn [negb]; [|left; apply turned_down_fail].
  destruct (json_parse _) as [j|] eqn:Ej; [|left; apply turned_down_fail].
  destruct (json_is_object j) eqn:Eo; [|left; apply turned_down_fail].
  right. exists j. split; [exists p; auto|reflexivity].
Qed.

Lemma with_string_inv j name what w k o :
  with_string j (bytes_of name) what w k = o ->
  turned_down w o \/ exists s, string_field j name s /\ c_string s <> [] /\ k s = o.
Proof.
  intros <-. unfold with_string, reply, reject. destruct (json_get j _) as [v|] eqn:Ev; [|left; apply turned_down_fail].
  destruct (json_string v) as [s|] eqn:Es; [|left; apply turned_down_fail].
  destruct (decide _) as [|Hn]; [left; apply turned_down_fail|]. right. exists s. split; [exists v; auto|auto].
Qed.

Lemma with_token_inv aid token w k o :
  with_token aid token w k = o ->
  turned_down w o \/ exists a, getAccountByAid aid (w_db w) = Some a /\ c_string token = c_string (authToken a) /\ k a = o.
Proof.
  intros <-. unfold with_token, reply, reject. destruct (getAccountByAid _ _) as [a|]; [|left; apply turned_down_fail].
  unfold same_token. destruct (bool_decide _) eqn:E; [|left; apply turned_down_fail]. apply bool_decide_eq_true in E. eauto.
Qed.

Lemma with_data_inv j e w k o :
  with_data j e w k = o -> turned_down w o \/ exists d, data_object j e d /\ k d = o.
Proof.
  intros <-. unfold with_data, reply, reject. destruct (json_get j _) as [v|] eqn:Ev; [|left; apply turned_down_fail].
  destruct (json_string v) as [s|] eqn:Es; [|left; apply turned_down_fail].
  destruct (sdk_tokener2 e) eqn:Et; cbn [negb]; [|left; apply turned_down_fail].
  destruct (json_parse _) as [d|] eqn:Ed; [|left; apply turned_down_fail].
  destruct (json_is_object d) eqn:Eo; [|left; apply turned_down_fail].
  right. exists d. split; [exists v, s; auto|reflexivity].
Qed.

Lemma with_new_object_inv e w k o :
  with_new_object e w k = o -> turned_down w o \/ (sdk_object e = true /\ k = o).
Proof. intros <-. unfold with_new_object, reply. destruct (sdk_object e); [auto|left; apply turned_down_fail]. Qed.

(** ** A token is needed *)

(** The request has the id of the account and the token that is stored. *)
Definition has_auth_token (x : endpoint) (e : sdk_env) (j : json) (id : Z) (a : Account) : Prop :=
  exists t, c_string t = c_string (authToken a) /\
    match x with
    | E_verify => int_field j "uid" id /\ string_field j "token" t
    | E_ticket => int_field j "account_id" id /\ string_field j "game_token" t
    | E_combo => exists d, data_object j e d /\ int_field d "uid" id /\ string_field d "token" t
    | _ => False
    end.

(** Or says that it comes from a guest. *)
Definition guest_request (x : endpoint) (e : sdk_env) (j : json) (id : Z) : Prop :=
  x = E_combo /\ exists d, data_object j e d /\ int_field d "uid" id /\ says_guest d.

Lemma member_is_field j name t : member_string j (bytes_of name) = Some t -> string_field j name t.
Proof. unfold member_string, string_field. destruct (json_get j _) as [v|]; [eauto|discriminate]. Qed.

(** C26: The three endpoints that check a token or exchange it for another one
    (verify, combo and action ticket) answer with an error and change nothing,
    unless the request names a stored account and has its stored token, or is a
    request for a combo token that says it comes from a guest.  The login
    endpoint is not one of them: it takes no proof at all and gives a new token
    to whoever names a stored account ([login_opens_game]). *)
Theorem tokens_guarded x post e w r w' :
  x = E_verify \/ x = E_combo \/ x = E_ticket -> endpoint_handler x post e w = Some (r, w') ->
  (w' = w /\ refused r) \/
  exists j id a, request_object post e j /\ getAccountByAid id (w_db w) = Some a /\
    (has_auth_token x e j id a \/ guest_request x e j id).
Proof.
  intros Hx E. enough (turned_down w (Some (r, w')) \/ exists j id a, request_object post e j /\
    getAccountByAid id (w_db w) = Some a /\ (has_auth_token x e j id a \/ guest_request x e j id)) as [H|H];
    [left; apply turned_down_inv, H|right; exact H|].
  destruct Hx as [-> |[-> | ->]]; cbn [endpoint_handler] in E.
  - apply with_object_inv in E as [H|(j & Hj & E)]; [auto|].
    destruct (json_get j _) as [v|] eqn:Ev; [|left; rewrite <- E; apply turned_down_fail]. cbv zeta in E.
    apply with_string_inv in E as [H|(t & Ht & _ & E)]; [auto|]. apply with_token_inv in E as [H|(a & Ha & Hs & _)]; [auto|].
    right. exists j, (u32 (json_int v)), a. split; [exact Hj|]. split; [exact Ha|]. left. exists t. split; [exact Hs|].
    split; [exists v; auto|exact Ht].
  - apply with_object_inv in E as [H|(j & Hj & E)]; [auto|]. apply with_data_inv in E as [H|(d & Hd & E)]; [auto|].
    destruct (json_get d (bytes_of "uid")) as [v|] eqn:Ev; [|left; rewrite <- E; apply turned_down_fail]. cbv zeta in E.
    assert (int_field d "uid" (u32 (json_int v))) as Hid by (exists v; auto).
    destruct (Z.eqb_spec (match json_get d (bytes_of "guest") with Some v => json_bool v | None => 0 end) 0) as [Hg|Hg].
    + destruct (member_string d _) as [t|] eqn:Et; [|left; rewrite <- E; apply turned_down_fail].
      destruct (decide _); [left; rewrite <- E; apply turned_down_fail|].
      apply with_token_inv in E as [H|(a & Ha & Hs & _)]; [auto|]. right. exists j, (u32 (json_int v)), a.
      split; [exact Hj|]. split; [exact Ha|]. left. exists t. split; [exact Hs|]. exists d. auto using member_is_field.
    + destruct (match json_get j (bytes_of "device") with Some _ => _ | None => None end) as [dev|];
        [|left; rewrite <- E; apply turned_down_fail].
      destruct (decide _); [left; rewrite <- E; apply turned_down_fail|].
      destruct (getAccountByAid _ _) as [a|] eqn:Ha; [|left; rewrite <- E; apply turned_down_fail].
      right. exists j, (u32 (json_int v)), a. split; [exact Hj|]. split; [exact Ha|]. right. split; [reflexivity|].
      exists d. split; [exact Hd|]. split; [exact Hid|]. unfold says_guest. destruct (json_get d (bytes_of "guest")) as [g|]; [eauto|lia].
  - apply with_object_inv in E as [H|(j & Hj & E)]; [auto|].
    destruct (json_get j _) as [v|] eqn:Ev; [|left; rewrite <- E; apply turned_down_fail]. cbv zeta in E.
    apply with_string_inv in E as [H|(t & Ht & _ & E)]; [auto|]. apply with_token_inv in E as [H|(a & Ha & Hs & _)]; [auto|].
    right. exists j, (u32 (json_int v)), a. split; [exact Hj|]. split; [exact Ha|]. left. exists t. split; [exact Hs|].
    split; [exists v; auto|exact Ht].
Qed.

(** ** What an endpoint changes *)

(** At most the object of one account. *)
Definition rewrites (w w' : World) : Prop :=
  w' = w \/ exists d, w' = set_db d (pop_put w) /\
    (d = w_db w \/ exists id v, d = mkDb (<[id_key ACCOUNT id := v]> (ldb (w_db w))) (next_ids (w_db w))).

Lemma rewrites_quiet `{SI : MsgCodec PlayerInfo} w w' : rewrites w w' -> world_quiet w -> world_quiet w'.
Proof.
  intros [-> |(d & -> & Hd)] [Hq Hj]; [constructor; assumption|]. constructor; [|exact Hj].
  destruct Hd as [-> |(id & v & ->)]; [exact Hq|]. apply quiet_insert; [|exact Hq].
  rewrite id_key_type. intros E. vm_compute in E. discriminate E.
Qed.

Lemma rewrites_keys w w' : rewrites w w' -> keys_ok (w_db w) -> keys_ok (w_db w').
Proof.
  intros [-> |(d & -> & [-> |(id & v & ->)])] Hk; [exact Hk..|]. apply keys_insert; [exact Hk|eexists; apply id_key_type].
Qed.

Lemma rewrites_rest w w' :
  rewrites w w' -> next_ids (w_db w') = next_ids (w_db w) /\ w_mt w' = w_mt w /\ w_random w' = w_random w /\
    (size (ldb (w_db w')) <= S (size (ldb (w_db w))))%nat.
Proof.
  intros [-> |(d & -> & [-> |(id & v & ->)])]; (split; [reflexivity|split; [reflexivity|split; [reflexivity|]]]); cbn; [lia..|].
  destruct (ldb (w_db w) !! id_key ACCOUNT id) as [u|] eqn:E; [rewrite map_size_insert_Some by eauto|rewrite map_size_insert_None by exact E]; lia.
Qed.

Lemma store_account_ok a w : tokens_ok a -> exists w', store_account a w = Some w' /\ rewrites w w'.
Proof.
  intros Ht. unfold store_account, saveAccount. destruct (info_total a Ht) as [p ->]. cbn [mbind option_bind].
  destruct (serialize p) as [v|]; cbn [mbind option_bind].
  - unfold setLdbObject. destruct (default true _); eexists; (split; [reflexivity|]); right; eexists; (split; [reflexivity|]); eauto.
  - eexists. split; [reflexivity|]. right. eexists. split; [reflexivity|]. auto.
Qed.

(** ** Accounts from the database have tokens that can be stored *)

Lemma aid_tokens id d a : getAccountByAid id d = Some a -> tokens_ok a.
Proof.
  unfold getAccountByAid. destruct (decide _); [discriminate|]. destruct (parse_from _) as [p|]; [|discriminate].
  cbn [option_map]. intros E. injection E as <-. apply tokens_of_info.
Qed.

Lemma account_by_ok field s d :
  keys_ok d -> exists o, account_by field (Some s) d = Some o /\ forall a, o = Some a -> tokens_ok a.
Proof.
  intros Hk. unfold account_by, account_where. destruct (search_total ACCOUNT (equals field s) _ (keys_readable d Hk)) as [o ->].
  cbn [mbind option_bind]. eexists. split; [reflexivity|]. intros a. destruct o as [p|]; [|discriminate].
  intros E. injection E as <-. apply tokens_of_info.
Qed.

(** ** Every request is answered *)

(** An answer that changes one account at most. *)
Definition answered (w : World) (o : option (list byte * World)) : Prop := exists r w', o = Some (r, w') /\ rewrites w w'.

Lemma turned_down_answered w o : turned_down w o -> answered w o.
Proof. intros (r & -> & _). exists r, w. split; [reflexivity|left; reflexivity]. Qed.

Lemma reply_answered r w : answered w (reply r w).
Proof. exists r, w. split; [reflexivity|left; reflexivity]. Qed.

Lemma new_object_answered e w r : answered w (with_new_object e w (reply r w)).
Proof.
  destruct (with_new_object_inv e w (reply r w) _ eq_refl) as [H|[_ <-]]; [apply turned_down_answered, H|apply reply_answered].
Qed.

(** Storing the account and answering. *)
Lemma store_answered a w k :
  tokens_ok a -> (forall w', answered w' (k w')) -> (forall w' r w2, k w' = Some (r, w2) -> w2 = w') ->
  answered w (w' ← store_account a w; k w').
Proof.
  intros Ht Hk Hs. destruct (store_account_ok a w Ht) as (w' & -> & Hw). cbn [mbind option_bind].
  destruct (Hk w') as (r & w2 & E & _). rewrite E. apply Hs in E as ->. exists r, w'. auto.
Qed.

Lemma new_object_same e w r r' w' : with_new_object e w (reply r w) = Some (r', w') -> w' = w.
Proof. unfold with_new_object, reply. destruct (sdk_object e); congruence. Qed.

Lemma store_then_object a w e (f : list byte) :
  tokens_ok a -> answered w (w' ← store_account a w; with_new_object e w' (reply f w')).
Proof.
  intros Ht. apply store_answered; [exact Ht|intros w'; apply new_object_answered|intros w' r w2; apply new_object_same].
Qed.

Lemma finish_login_answered j g dev a e w : tokens_ok a -> answered w (finish_login j g dev a e w).
Proof.
  intros Ht. unfold finish_login, reject. destruct (json_get j _) as [v|]; [|apply reply_answered].
  destruct (json_string v); [|apply reply_answered]. cbv zeta. apply store_then_object. destruct dev; exact (tokens_auth _ _ _ Ht).
Qed.

Lemma with_object_answered post e w k : (forall j, answered w (k j)) -> answered w (with_object post e w k).
Proof.
  intros Hk. destruct (with_object_inv post e w k _ eq_refl) as [H|(j & _ & <-)]; [apply turned_down_answered, H|apply Hk].
Qed.

Lemma with_string_answered j name what w k : (forall s, answered w (k s)) -> answered w (with_string j (bytes_of name) what w k).
Proof.
  intros Hk. destruct (with_string_inv j name what w k _ eq_refl) as [H|(t & _ & _ & <-)]; [apply turned_down_answered, H|apply Hk].
Qed.

Lemma with_token_answered id t w k : (forall a, tokens_ok a -> answered w (k a)) -> answered w (with_token id t w k).
Proof.
  intros Hk. destruct (with_token_inv id t w k _ eq_refl) as [H|(a & Ha & _ & <-)]; [apply turned_down_answered, H|].
  exact (Hk a (aid_tokens _ _ _ Ha)).
Qed.

Lemma login_answered post e w : keys_ok (w_db w) -> answered w (handleLogin post e w).
Proof.
  intros Hk. apply with_object_answered. intros j. cbv zeta. destruct (_ =? 0).
  - apply with_string_answered. intros name. unfold getAccountByUsername.
    destruct (account_by_ok pb_username name _ Hk) as ([a|] & -> & Ha); cbn [mbind option_bind]; [|apply reply_answered].
    apply finish_login_answered. exact (Ha a eq_refl).
  - destruct (member_string j _) as [d|]; [|apply reply_answered]. destruct (decide _); [apply reply_answered|].
    unfold getAccountByDeviceId. destruct (account_by_ok pb_device_id d _ Hk) as ([a|] & -> & Ha); cbn [mbind option_bind];
      [|apply reply_answered]. apply finish_login_answered. exact (Ha a eq_refl).
Qed.

Lemma verify_answered post e w : answered w (handleVerify post e w).
Proof.
  apply with_object_answered. intros j. destruct (json_get j _) as [v|]; [|apply reply_answered]. cbv zeta.
  apply with_string_answered. intros t. apply with_token_answered. intros a _. apply new_object_answered.
Qed.

Lemma new_combo_answered id g a e w : tokens_ok a -> answered w (new_combo id g a e w).
Proof. intros Ht. unfold new_combo. cbv zeta. apply store_then_object, tokens_combo, Ht. Qed.

Lemma combo_answered post e w : answered w (handleCombo post e w).
Proof.
  apply with_object_answered. intros j.
  match goal with |- answered w (with_data j e w ?k) =>
    destruct (with_data_inv j e w k _ eq_refl) as [H|(d & _ & <-)]; [apply turned_down_answered, H|] end.
  destruct (json_get d _) as [v|]; [|apply reply_answered]. cbv zeta. destruct (_ =? 0).
  - destruct (member_string d _) as [t|]; [|apply reply_answered]. destruct (decide _); [apply reply_answered|].
    apply with_token_answered. intros a. apply new_combo_answered.
  - destruct (match json_get j _ with Some _ => _ | None => None end); [|apply reply_answered].
    destruct (decide _); [apply reply_answered|]. destruct (getAccountByAid _ _) as [a|] eqn:Ha; [|apply reply_answered].
    apply new_combo_answered. exact (aid_tokens _ _ _ Ha).
Qed.

Lemma ticket_answered post e w : answered w (handleActionTicket post e w).
Proof.
  apply with_object_answered. intros j. destruct (json_get j _) as [v|]; [|apply reply_answered]. cbv zeta.
  apply with_string_answered. intros t. apply with_token_answered. intros a Ht.
  apply store_answered; [apply tokens_binder, Ht|intros w'; apply reply_answered|].
  intros w' r w2. unfold reply. congruence.
Qed.

Lemma log_answered post e w : answered w (handleClientLog post e w).
Proof.
  unfold handleClientLog. cbv zeta. destruct post as [t|]; [|apply reply_answered].
  destruct (negb _); [apply reply_answered|]. destruct (json_parse _) as [j|]; [|apply reply_answered].
  destruct (negb _); [apply reply_answered|]. destruct (negb _); [apply reply_answered|].
  destruct (json_get j (bytes_of "logStr")) as [v|]; [|apply reply_answered]. destruct (json_string v); [|apply reply_answered].
  destruct (decide _); apply reply_answered.
Qed.

(** The request has a ticket that [b64dec] has no result for, or a good one and
    not both of the other members. *)
Definition deadly (post : option (list byte)) (e : sdk_env) (w : World) : Prop :=
  exists j t, request_object post e j /\ string_field j "action_ticket" t /\ c_string t <> [] /\
    (b64dec (c_string t) = None \/
     exists raw a, b64dec (c_string t) = Some raw /\ getAccountByBinderToken (Some raw) (w_db w) = Some (Some a) /\
       sdk_object e = true /\
       (member_string j (bytes_of "realname") = None \/ member_string j (bytes_of "identity_card") = None)).

Lemma bind_answered post e w :
  keys_ok (w_db w) -> deadly post e w \/ answered w (handleBindRealname post e w).
Proof.
  intros Hk. unfold handleBindRealname.
  match goal with |- _ \/ answered w (with_object post e w ?k) =>
    destruct (with_object_inv post e w k _ eq_refl) as [H|(j & Hj & <-)]; [right; apply turned_down_answered, H|] end.
  match goal with |- _ \/ answered w (with_string j _ ?what w ?k) =>
    destruct (with_string_inv j "action_ticket" what w k _ eq_refl) as [H|(t & Ht & Hne & <-)];
      [right; apply turned_down_answered, H|] end.
  destruct (b64dec (c_string t)) as [raw|] eqn:Ed; [|left; exists j, t; auto]. cbn [mbind option_bind].
  destruct (account_by_ok pb_bind_token raw _ Hk) as ([a|] & Ea & Ha); unfold getAccountByBinderToken; rewrite Ea; cbn [mbind option_bind];
    [|right; apply reply_answered].
  destruct (store_account_ok (setBinderTokenTimestamp 0 a) w (Ha a eq_refl)) as (w' & E & Hw). rewrite E. cbn [mbind option_bind].
  match goal with |- _ \/ answered w (with_new_object e w' ?k) =>
    destruct (with_new_object_inv e w' k _ eq_refl) as [(r & -> & _)|[Ho <-]] end; [right; exists r, w'; auto|].
  destruct (member_string j (bytes_of "realname")) eqn:E1; [destruct (member_string j (bytes_of "identity_card")) eqn:E2|];
    [right; cbn [mbind option_bind]; eexists _, w'; split; [reflexivity|exact Hw]|..]; left; exists j, t;
    (split; [exact Hj|split; [exact Ht|split; [exact Hne|right; exists raw, a; auto 10]]]).
Qed.

Lemma bind_dies post e w : keys_ok (w_db w) -> deadly post e w -> handleBindRealname post e w = None.
Proof.
  intros Hk (j & t & (p & -> & Et & Ej & Eo) & (v & Ev & Es) & Hne & Hd). unfold handleBindRealname, with_object.
  rewrite Et, Ej, Eo. cbn [negb]. unfold with_string. rewrite Ev, Es. rewrite decide_False by exact Hne.
  destruct Hd as [-> |(raw & a & -> & Ea & Ho & Hm)]; [reflexivity|]. cbn [mbind option_bind]. rewrite Ea. cbn [mbind option_bind].
  destruct (store_account_ok (setBinderTokenTimestamp 0 a) w) as (w' & -> & _).
  { destruct (account_by_ok pb_bind_token raw _ Hk) as (o & Eo' & Ha). unfold getAccountByBinderToken in Ea. rewrite Ea in Eo'.
    injection Eo' as <-. exact (Ha a eq_refl). }
  cbn [mbind option_bind]. unfold with_new_object. rewrite Ho.
  destruct Hm as [-> | ->]; [reflexivity|]. destruct (member_string _ _); reflexivity.
Qed.

Lemma endpoint_answered x post e w :
  keys_ok (w_db w) -> x = E_bind /\ deadly post e w \/ answered w (endpoint_handler x post e w).
Proof.
  intros Hk. destruct x; cbn [endpoint_handler]; auto using login_answered, verify_answered, combo_answered, ticket_answered, log_answered.
  destruct (bind_answered post e w Hk); auto.
Qed.

Lemma endpoint_rewrites x post e w r w' :
  keys_ok (w_db w) -> endpoint_handler x post e w = Some (r, w') -> rewrites w w'.
Proof.
  intros Hk E. destruct (endpoint_answered x post e w Hk) as [[-> Hd]|(r0 & w0 & F & Hw)].
  - cbn [endpoint_handler] in E. rewrite (bind_dies _ _ _ Hk Hd) in E. discriminate E.
  - rewrite F in E. injection E as <- <-. exact Hw.
Qed.

(** When the database can be searched, every request to an account endpoint
    is answered, and changes the object of one account at most; with one
    exception, which ends the program: a /binder/verify whose ticket has the
    byte 128, or that has a good ticket and not both a name and a number. *)
Theorem endpoints_answer x post e w :
  keys_ok (w_db w) ->
  (endpoint_handler x post e w = None <-> x = E_bind /\ deadly post e w) /\
  (forall r w', endpoint_handler x post e w = Some (r, w') -> rewrites w w').
Proof.
  intros Hk. split; [|intros r w'; exact (endpoint_rewrites x post e w r w' Hk)]. split.
  - intros E. destruct (endpoint_answered x post e w Hk) as [H|(r & w' & F & _)]; [exact H|]. rewrite E in F. discriminate F.
  - intros [-> Hd]. exact (bind_dies _ _ _ Hk Hd).
Qed.

(** ** Storing accounts *)

Definition writes_ok (w : World) : Prop := Forall (fun ok => ok = true) (w_puts w).

Lemma writes_head w : writes_ok w -> default true (head (w_puts w)) = true.
Proof. unfold writes_ok. destruct (w_puts w) as [|b l]; [reflexivity|]. intros H. inversion H. assumption. Qed.

Lemma store_account_kept `{!MsgLaws AccountInfo} a w :
  storable a -> writes_ok w ->
  exists w', store_account a w = Some w' /\ getAccountByAid (aid a) (w_db w') = Some (reloaded a) /\ writes_ok w'.
Proof.
  intros Hs Hw. destruct (save_account a (w_db w) Hs) as (v & p & Hv & Hp & R & _ & E). unfold store_account.
  rewrite (writes_head w Hw), E. cbn [mbind option_bind]. eexists. split; [reflexivity|].
  cbn [set_db pop_put w_db]. rewrite (get_inserted a (w_db w) v p _ Hv Hp), R. split; [reflexivity|].
  unfold writes_ok in *. cbn. destruct (w_puts w); [constructor|]. inversion Hw. assumption.
Qed.

(** A new combo token. *)
Lemma new_combo_kept `{!MsgLaws AccountInfo} id isGuest a e w :
  storable (getNewComboToken (sdk_raw e) a) -> aid a = id -> writes_ok w -> sdk_object e = true ->
  exists w', new_combo id isGuest a e w = Some (combo_text id isGuest (hexenc (sdk_raw e)), w') /\
    getAccountByAid id (w_db w') = Some (reloaded (getNewComboToken (sdk_raw e) a)).
Proof.
  intros Hs <- Hw Ho. unfold new_combo. cbv zeta. destruct (store_account_kept _ w Hs Hw) as (w' & -> & E & _).
  cbn [mbind option_bind]. unfold with_new_object. rewrite Ho. eauto.
Qed.
End sdk.

(** ** The dispatch server and the game server *)
Section servers.
Context {JS : Json} {JL : JsonLaws}.
Context {Addr : Type} {CA : MsgCodec AccountInfo} {LA : MsgLaws AccountInfo} {CN : MsgCodec NextIdInfo} {CP : MsgCodec PlayerInfo}.
Context {CI : MsgCodec InventoryEntry} {SI : SessionIds} {CS : Codecs}.
Implicit Types g : server Addr Player World.

Variable gd : option GameData.
Variable dispatch_key : option (list byte).
Variable config : option RunConfig.config_t.

Abbreviation process := (processPacket (Addr := Addr) gd dispatch_key config).

(** C29: The two servers share the database.  A request to an account endpoint,
    whatever it is, leaves a running game server as well formed as it was: what
    the theorems on its executions ask of the world around it holds of the
    dispatch server. *)
Theorem endpoints_fit x post e g r w' :
  gs_wf del_player g -> keys_ok (w_db (g_world g)) -> endpoint_handler x post e (g_world g) = Some (r, w') ->
  event_ok del_player (Outside w' : event Addr World) /\ gs_wf del_player (set_world w' g) /\ keys_ok (w_db w').
Proof.
  intros Hw Hk E. pose proof (endpoint_rewrites x post e (g_world g) r w' Hk E) as Hr.
  assert (world_quiet w') as Hq by (exact (rewrites_quiet _ _ Hr (wf_world _ g Hw))).
  split; [exact Hq|]. split; [|exact (rewrites_keys _ _ Hr Hk)].
  refine (proj1 (gs_step_wf del_player process dispatch_key (Outside w') g _ Hq Hw eq_refl)).
Qed.

(** A client whose session waits for a token sends an id and a token, to a
    server that takes logins. *)
Record knocks (p : nat) (pkt : Packet) g (id : Z) (token : list byte) : Prop := {
  kn_wf : gs_wf del_player g;
  kn_house : open_house g;
  kn_session : exists s ks, g_heap g !! p = Some s /\ getState s = TOKEN_WAIT /\ s_kcp s = Some ks /\ zlen (s_key s) = 4096;
  kn_opcode : p_opcode pkt = CMD_GetPlayerTokenReq;
  kn_request : exists req v, parse_from (p_data pkt) = Some req /\ strtoul (cstr (tq_account_uid req)) = Some v /\
    u32 v = id /\ tq_account_token req = token
}.

(** The session gets a player of the account. *)
Definition admitted (p : nat) (pkt : Packet) g (a : Account) : Prop :=
  exists r g' s' pl, process p pkt g = Some (r, true, g') /\ g_heap g' !! p = Some s' /\ s_player s' = Some pl /\
    pl_account pl = Some a /\ getState s' = LOGIN_WAIT.

Lemma same_prefix_refl n s : same_prefix n s s = true.
Proof.
  revert s. induction n as [|n IH]; intros s; [reflexivity|]. cbn [same_prefix]. rewrite Z.eqb_refl. cbn [andb].
  rewrite IH. apply orb_true_r.
Qed.

(** The token opens the account with it, whoever sends it. *)
Definition opens (id : Z) (token : list byte) (a : Account) (w : World) : Prop :=
  forall g p pkt, g_world g = w -> knocks p pkt g id token -> reply_fits a (w_random w) -> admitted p pkt g a.

Lemma stored_token_opens id a w :
  getAccountByAid id (w_db w) = Some a -> comboToken a <> [] -> dispatch_key <> Some [] -> opens id (comboToken a) a w.
Proof.
  intros Ha Hne Hdk g p pkt <- [Hw Ho (s & ks & Hs & Hst & Hks & Hkey) Hop (rq & v & Hrq & Hv & Hid & Ht)] Hfit.
  destruct (token_step gd dispatch_key config p pkt g s ks id a Hw Ho) as (r & g' & s' & pl & E & Hs' & Hp & Hpa & Hl & _); try assumption.
  - constructor; try assumption. exists rq, v. rewrite Ht. auto using same_prefix_refl.
  - exists r, g', s', pl. auto.
Qed.

Lemma hexenc_nonempty s : s <> [] -> hexenc s <> [].
Proof. intros Hs E. apply Hs. apply (f_equal length) in E. pose proof (hexenc_size s). destruct s; [reflexivity|cbn in *; lia]. Qed.

Lemma new_combo_opens id isGuest a e w :
  storable (getNewComboToken (sdk_raw e) a) -> aid a = id -> writes_ok w -> sdk_object e = true -> sdk_raw e <> [] ->
  dispatch_key <> Some [] ->
  exists w', new_combo id isGuest a e w = Some (combo_text id isGuest (hexenc (sdk_raw e)), w') /\
    opens id (hexenc (sdk_raw e)) (reloaded (getNewComboToken (sdk_raw e) a)) w'.
Proof.
  intros Hs Hid Hw Ho Hr Hdk. destruct (new_combo_kept id isGuest a e w Hs Hid Hw Ho) as (w' & E & G).
  exists w'. split; [exact E|]. exact (stored_token_opens id _ w' G (hexenc_nonempty _ Hr) Hdk).
Qed.

(** The body of a request that is an object. *)
Lemma with_object_eq post e w k j : request_object post e j -> with_object post e w k = k j.
Proof. intros (p & -> & Et & Ej & Eo). unfold with_object. rewrite Et, Ej, Eo. reflexivity. Qed.

Lemma with_data_eq j e w k d : data_object j e d -> with_data j e w k = k d.
Proof. intros (v & s & Ev & Es & Et & Ed & Eo). unfold with_data. rewrite Ev, Es, Et. cbn [negb]. rewrite Ed, Eo. reflexivity. Qed.

Lemma with_string_eq j name what w k s :
  string_field j name s -> c_string s <> [] -> with_string j (bytes_of name) what w k = k s.
Proof. intros (v & Ev & Es) Hs. unfold with_string. rewrite Ev, Es, decide_False by exact Hs. reflexivity. Qed.

(** C27: Nobody's account is safe: a combo request that says it comes from a
    guest, has any "device" and names an account gets a token of that account,
    without any token or password; and the game server lets whoever sends that
    token in as the owner. *)
Theorem guest_opens_any_account post e w j d id a :
  request_object post e j -> data_object j e d -> int_field d "uid" id -> says_guest d ->
  json_get j (bytes_of "device") <> None -> getAccountByAid id (w_db w) = Some a -> aid a = id ->
  storable (getNewComboToken (sdk_raw e) a) -> writes_ok w -> sdk_object e = true -> sdk_raw e <> [] -> dispatch_key <> Some [] ->
  exists isGuest w', handleCombo post e w = Some (combo_text id isGuest (hexenc (sdk_raw e)), w') /\
    opens id (hexenc (sdk_raw e)) (reloaded (getNewComboToken (sdk_raw e) a)) w'.
Proof.
  intros Hj Hd (v & Ev & Hid) (b & Eb & Hb) Hdev Ha Haid Hs Hw Ho Hr Hdk. unfold handleCombo.
  rewrite (with_object_eq _ _ _ _ _ Hj), (with_data_eq _ _ _ _ _ Hd), Ev. cbv zeta. rewrite Eb, Hid.
  rewrite (proj2 (Z.eqb_neq _ _) Hb). destruct (json_get j (bytes_of "device")) as [dv|]; [|contradiction].
  destruct (object_text d) as (t & -> & Ht); [destruct Hd as (? & ? & _ & _ & _ & _ & E); exact E|].
  rewrite decide_False by exact Ht. rewrite Ha.
  destruct (new_combo_opens id (json_bool b) a e w Hs Haid Hw Ho Hr Hdk) as (w' & E & O). eauto.
Qed.

(** ** Logging in *)

(** The account after a login. *)
Definition logged_in (j : json) (e : sdk_env) (w : World) (a : Account) : Account :=
  let a := getNewAuthToken (sdk_raw e) (w_time w) a in
  match member_string j (bytes_of "device_id") with Some d => setDeviceId (c_string d) a | None => a end.

Definition not_guest (j : json) (name : string) : Prop :=
  match json_get j (bytes_of name) with Some v => json_bool v = 0 | None => True end.

Lemma not_guest_eq j name : not_guest j name -> match json_get j (bytes_of name) with Some v => json_bool v | None => 0 end = 0.
Proof. unfold not_guest. destruct (json_get j _); auto. Qed.

Lemma logged_in_token j e w a : authToken (logged_in j e w a) = b64enc (sdk_raw e).
Proof. unfold logged_in. cbv zeta. destruct (member_string _ _); reflexivity. Qed.

Lemma logged_in_aid j e w a : aid (logged_in j e w a) = aid a.
Proof. unfold logged_in. cbv zeta. destruct (member_string _ _); reflexivity. Qed.

Lemma b64char_nonzero t : b64char t <> Byte.x00.
Proof.
  unfold b64char. assert (0 <= Z.land t 0x3f < 64) as Ht by (change 0x3f with (Z.ones 6); rewrite Z.land_ones by lia; apply Z.mod_pos_bound; reflexivity).
  assert (forallb (fun c => negb (bool_decide (c = Byte.x00))) b64tbl = true) as Ha by (vm_compute; reflexivity).
  rewrite forallb_forall in Ha. assert (In (nth (Z.to_nat (Z.land t 0x3f)) b64tbl Byte.x00) b64tbl) as Hin
    by (apply nth_In; change (length b64tbl) with 64%nat; lia).
  apply Ha, negb_true_iff, bool_decide_eq_false in Hin. exact Hin.
Qed.

Lemma b64enc_text s : s <> [] -> c_string (b64enc s) <> [].
Proof.
  intros Hs. unfold b64enc. assert (indexed s <> []) as Hi by (destruct s as [|c s]; [contradiction|]; destruct (indexed_first c s) as [l ->]; discriminate).
  destruct (indexed s) as [|a [|b [|c t]]]; [contradiction|..]; cbn [b64enc_loop c_string];
    rewrite decide_False by apply b64char_nonzero; discriminate.
Qed.

(** C25: Logging in as intended works across the two servers.  A login over
    HTTP with the name of a stored account, and any password at all, stores and
    returns a new token; a combo request with that token gets a combo token;
    and the game server lets a client with that token in as the account. *)
Theorem login_opens_game post e w j name a :
  request_object post e j -> not_guest j "is_guest" -> string_field j "account" name -> c_string name <> [] ->
  (exists password, string_field j "password" password) ->
  getAccountByUsername (Some name) (w_db w) = Some (Some a) -> storable (logged_in j e w a) ->
  writes_ok w -> sdk_object e = true -> sdk_raw e <> [] -> dispatch_key <> Some [] ->
  exists w1, handleLogin post e w = Some (account_text (aid a) (b64enc (sdk_raw e)) (logged_in j e w a), w1) /\
    forall post2 e2 j2 d2, request_object post2 e2 j2 -> data_object j2 e2 d2 -> not_guest d2 "guest" ->
      int_field d2 "uid" (aid a) -> string_field d2 "token" (b64enc (sdk_raw e)) ->
      storable (getNewComboToken (sdk_raw e2) (reloaded (logged_in j e w a))) -> sdk_object e2 = true -> sdk_raw e2 <> [] ->
      exists w2 a2, handleCombo post2 e2 w1 = Some (combo_text (aid a) 0 (hexenc (sdk_raw e2)), w2) /\
        aid a2 = aid a /\ username a2 = username a /\ opens (aid a) (hexenc (sdk_raw e2)) a2 w2.
Proof.
  intros Hj Hg Hn Hne (pw & vp & Ep & Esp) Ha Hs Hw Ho Hr Hdk. unfold handleLogin. rewrite (with_object_eq _ _ _ _ _ Hj). cbv zeta.
  rewrite (not_guest_eq _ _ Hg). cbn [Z.eqb]. rewrite (with_string_eq _ _ _ _ _ _ Hn Hne), Ha. cbn [mbind option_bind].
  unfold finish_login. rewrite Ep, Esp. cbv zeta. fold (logged_in j e w a).
  destruct (store_account_kept (logged_in j e w a) w Hs Hw) as (w1 & -> & G & Hw1). cbn [mbind option_bind].
  unfold with_new_object. rewrite Ho. cbn [Z.eqb]. rewrite logged_in_aid, logged_in_token in *. exists w1. split; [reflexivity|].
  intros post2 e2 j2 d2 Hj2 Hd2 Hg2 (v & Ev & Hid) Ht Hs2 Ho2 Hr2. unfold handleCombo.
  rewrite (with_object_eq _ _ _ _ _ Hj2), (with_data_eq _ _ _ _ _ Hd2), Ev. cbv zeta. rewrite (not_guest_eq _ _ Hg2), Hid. cbn [Z.eqb].
  assert (member_string d2 (bytes_of "token") = Some (b64enc (sdk_raw e))) as ->.
  { destruct Ht as (vt & Evt & Est). unfold member_string. rewrite Evt. exact Est. }
  rewrite decide_False by (apply b64enc_text, Hr). unfold with_token. rewrite G. unfold same_token.
  rewrite bool_decide_true by (cbn; rewrite logged_in_token; reflexivity).
  destruct (new_combo_opens (aid a) 0 (reloaded (logged_in j e w a)) e2 w1 Hs2 ltac:(apply logged_in_aid) Hw1 Ho2 Hr2 Hdk) as (w2 & E & O).
  exists w2, (reloaded (getNewComboToken (sdk_raw e2) (reloaded (logged_in j e w a)))).
  split; [exact E|]. split; [apply logged_in_aid|]. split; [|exact O].
  unfold logged_in. cbv zeta. destruct (member_string _ _); reflexivity.
Qed.
End servers.

(** ** Concrete requests

    JSON values as trees, and a parser that knows five texts. *)
Inductive tree := t_int (n : Z) | t_bool (n : Z) | t_string (s : list byte) | t_object (l : list (list byte * tree)).

Definition tree_get (j : tree) (name : list byte) : option (option tree) :=
  match j with
  | t_object l => match list_find (fun e => e.1 = name) l with Some (_, e) => Some (Some e.2) | None => None end
  | _ => None
  end.

(** A login, and a login with nothing in it; combo requests of an account and of
    a guest with their data. *)
Definition ex_login : tree :=
  t_object [(bytes_of "account", t_string (bytes_of "ann")); (bytes_of "password", t_string [])].
Definition ex_data_object : tree :=
  t_object [(bytes_of "uid", t_int 7); (bytes_of "token", t_string (b64enc ex_token))].
Definition ex_guest_object : tree := t_object [(bytes_of "uid", t_int 7); (bytes_of "guest", t_bool 1)].
Definition ex_combo (text : string) : tree :=
  t_object [(bytes_of "device", t_string []); (bytes_of "data", t_string (bytes_of text))].
Definition ex_bind : tree := t_object [(bytes_of "action_ticket", t_string (zb 128 :: []))].

Definition tree_parse (s : list byte) : option tree :=
  if decide (s = bytes_of "login") then Some ex_login
  else if decide (s = bytes_of "combo") then Some (ex_combo "data")
  else if decide (s = bytes_of "data") then Some ex_data_object
  else if decide (s = bytes_of "guest") then Some (ex_combo "guest data")
  else if decide (s = bytes_of "guest data") then Some ex_guest_object
  else if decide (s = bytes_of "bind") then Some ex_bind
  else None.

#[local] Instance tree_json : Json := {|
  json := tree; json_parse := tree_parse;
  json_is_object j := match j with t_object _ => true | _ => false end;
  json_get := tree_get;
  json_string v := match v with None => None | Some (t_string s) => Some s | Some _ => Some (bytes_of "{ }") end;
  json_string_len v := match v with Some (t_string s) => zlen s | _ => 0 end;
  json_int v := match v with Some (t_int n) => n | _ => 0 end;
  json_bool v := match v with Some (t_bool n) => n | _ => 0 end;
  json_print l := [] |}.

#[local] Instance tree_laws : JsonLaws.
Proof. intros [| | |l]; [discriminate..|]. intros _. exists (bytes_of "{ }"). split; [reflexivity|vm_compute; discriminate]. Qed.

#[local] Existing Instances info_codec info_laws ids_codec player_codec player_laws entry_codec ex_session_ids ex_codecs.

(** An account "ann" with the id 7. *)
Definition ex_ann : Account := setUsername (bytes_of "ann") (setAccountId 7 (new_Account (mkJunk 0 0 0 0))).
Definition ex_accounts : dbGate :=
  mkDb {[ id_key ACCOUNT 7 := default [] (i ← Account_to_info ex_ann; serialize i) ]} (mkNextIds 0 5 0 0).
Definition ex_sdk_world : World := set_mt mt_start (set_db ex_accounts ex_world).
Definition ex_sdk : sdk_env := mkSdk true true true ex_token.

Lemma ex_storable dev now :
  dev = [] \/ dev = ex_token ->
  storable (getNewAuthToken ex_token now ex_ann) /\ storable (getNewComboToken ex_token ex_ann) /\
  storable (getNewComboToken ex_token (reloaded (getNewAuthToken dev now ex_ann))).
Proof.
  intros Hdev. assert (tokens_ok ex_ann) as Ht by (exists [], [], []; auto).
  assert (forall a, tokens_ok a -> token_sizes a -> aid a = 7 -> storable a) as H.
  { intros a Ha Hz Hid. split; [exact Ha|]. split; [exact Hz|]. intros p E. split; [exact I|]. intros ->.
    pose proof (info_round a _ Ha Hz E) as R. apply (f_equal aid) in R.
    change (aid (reloaded a)) with (aid a) in R. rewrite Hid in R. vm_compute in R. discriminate R. }
  split; [apply H; [apply tokens_auth, Ht|vm_compute; repeat split; discriminate|reflexivity]|].
  split; [apply H; [apply tokens_combo, Ht|vm_compute; repeat split; discriminate|reflexivity]|].
  apply H; [|destruct Hdev as [-> | ->]; vm_compute; repeat split; discriminate|reflexivity].
  apply tokens_combo. destruct (tokens_auth dev now ex_ann Ht) as (r1 & r2 & r3 & E). exists r1, r2, r3. exact E.
Qed.

(** A game server with one waiting session, in a world. *)
Definition ex_inn (w : World) : server nat Player World :=
  default (gs_start 0%nat 100 1 w) (on_datagram del_player ex_home 1%nat open_datagram (gs_start 0%nat 100 1 w)).

Lemma ex_inn_wf w : world_quiet w -> gs_wf del_player (ex_inn w).
Proof.
  intros Hq. unfold ex_inn. destruct (datagram_ok del_player ex_home 1%nat open_datagram (gs_start 0%nat 100 1 w)) as (g' & -> & W & _);
    [apply start_wf, Hq|split; [reflexivity|discriminate]|exact W].
Qed.

Lemma ex_sdk_quiet : world_quiet ex_sdk_world.
Proof.
  constructor; [|reflexivity]. intros k v E Hk. change (ldb (w_db ex_sdk_world)) with (ldb ex_accounts) in E. unfold ex_accounts in E. cbn [ldb] in E.
  apply lookup_singleton_Some in E as [<- _]. vm_compute in Hk. discriminate Hk.
Qed.

Lemma ex_sdk_keys : keys_ok (w_db ex_sdk_world).
Proof.
  intros k [v E]. change (ldb (w_db ex_sdk_world)) with (ldb ex_accounts) in E. unfold ex_accounts in E. cbn [ldb] in E.
  apply lookup_singleton_Some in E as [<- _]. eexists. apply id_key_type.
Qed.

Lemma ex_knocks w : rewrites ex_sdk_world w -> knocks 0 ex_request (ex_inn w) 7 (hexenc ex_token).
Proof.
  intros Hr. assert (g_world (ex_inn w) = w) as Hg by reflexivity. destruct (rewrites_rest _ _ Hr) as (Hn & Hm & _ & Hs). constructor.
  - apply ex_inn_wf. exact (rewrites_quiet _ _ Hr ex_sdk_quiet).
  - constructor; rewrite ?Hg, ?Hn, ?Hm; [|exact (rewrites_keys _ _ Hr ex_sdk_keys)|vm_compute; split; [discriminate|reflexivity]| |exact start_full].
    + change (g_slots (ex_inn w)) with [Some 0%nat]. intros H. apply list_elem_of_singleton in H. discriminate H.
    + change (size (ldb (w_db ex_sdk_world))) with 1%nat in Hs. zpow. lia.
  - exists ex_guest. destruct ex_transport as [ks Hk]. exists ks. split; [vm_compute; reflexivity|].
    split; [vm_compute; reflexivity|]. split; [exact Hk|exact ex_key_size].
  - reflexivity.
  - exists (mkTokenReq [zb 55] (comboToken ex_owner)), 7. repeat split; vm_compute; reflexivity.
Qed.

Lemma ex_object text j : tree_parse (c_string (bytes_of text)) = Some j -> json_is_object (Json := tree_json) j = true ->
  request_object (JS := tree_json) (Some (bytes_of text)) ex_sdk j.
Proof. intros H1 H2. exists (bytes_of text). auto. Qed.

Lemma ex_found : getAccountByAid 7 (w_db ex_sdk_world) = Some ex_ann.
Proof. vm_compute. reflexivity. Qed.

Lemma ex_fits_all a rnd : reply_fits a rnd.
Proof. split; [intros pl d E|intros h d E]; vm_compute in E; injection E as <-; vm_compute; discriminate. Qed.

Lemma guest_opens_any_account_witness :
  exists isGuest w', handleCombo (Some (bytes_of "guest")) ex_sdk ex_sdk_world = Some (combo_text 7 isGuest (hexenc ex_token), w') /\
    admitted None None None 0 ex_request (ex_inn w') (reloaded (getNewComboToken ex_token ex_ann)).
Proof.
  destruct (guest_opens_any_account (JS := tree_json) (Addr := nat) None None None (Some (bytes_of "guest")) ex_sdk ex_sdk_world
    (ex_combo "guest data") ex_guest_object 7 ex_ann) as (isGuest & w' & E & O).
  - apply ex_object; vm_compute; reflexivity.
  - exists (Some (t_string (bytes_of "guest data"))), (bytes_of "guest data"). repeat split; vm_compute; reflexivity.
  - exists (Some (t_int 7)). split; vm_compute; reflexivity.
  - exists (Some (t_bool 1)). split; [vm_compute; reflexivity|discriminate].
  - vm_compute. discriminate.
  - exact ex_found.
  - reflexivity.
  - exact (proj1 (proj2 (ex_storable [] 0 ltac:(auto)))).
  - constructor.
  - reflexivity.
  - discriminate.
  - discriminate.
  - exists isGuest, w'. split; [exact E|]. apply O; [reflexivity| |apply ex_fits_all].
    apply ex_knocks. exact (endpoint_rewrites E_combo _ _ _ _ _ ex_sdk_keys E).
Defined.

Lemma login_opens_game_witness :
  exists w1 w2 a2, handleLogin (Some (bytes_of "login")) ex_sdk ex_sdk_world =
      Some (account_text 7 (b64enc ex_token) (logged_in (JS := tree_json) ex_login ex_sdk ex_sdk_world ex_ann), w1) /\
    handleCombo (Some (bytes_of "combo")) ex_sdk w1 = Some (combo_text 7 0 (hexenc ex_token), w2) /\
    username a2 = bytes_of "ann" /\ opens None None None (Addr := nat) 7 (hexenc ex_token) a2 w2.
Proof.
  destruct (login_opens_game (JS := tree_json) (Addr := nat) None None None (Some (bytes_of "login")) ex_sdk ex_sdk_world
    ex_login (bytes_of "ann") ex_ann) as (w1 & E1 & K).
  - apply ex_object; vm_compute; reflexivity.
  - exact I.
  - exists (Some (t_string (bytes_of "ann"))). split; vm_compute; reflexivity.
  - vm_compute. discriminate.
  - exists [], (Some (t_string [])). split; vm_compute; reflexivity.
  - vm_compute. reflexivity.
  - exact (proj1 (ex_storable [] 1000 ltac:(auto))).
  - constructor.
  - reflexivity.
  - discriminate.
  - discriminate.
  - destruct (K (Some (bytes_of "combo")) ex_sdk (ex_combo "data") ex_data_object) as (w2 & a2 & E2 & _ & Hu & O).
    + apply ex_object; vm_compute; reflexivity.
    + exists (Some (t_string (bytes_of "data"))), (bytes_of "data"). repeat split; vm_compute; reflexivity.
    + exact I.
    + exists (Some (t_int 7)). split; vm_compute; reflexivity.
    + exists (Some (t_string (b64enc ex_token))). split; vm_compute; reflexivity.
    + exact (proj2 (proj2 (ex_storable ex_token 1000 ltac:(auto)))).
    + reflexivity.
    + discriminate.
    + exists w1, w2, a2. auto.
Defined.

Lemma endpoints_fit_witness :
  exists r w', handleCombo (Some (bytes_of "guest")) ex_sdk ex_sdk_world = Some (r, w') /\
    gs_wf del_player (set_world w' (ex_inn ex_sdk_world)) /\ keys_ok (w_db w').
Proof.
  destruct (combo_answered (JS := tree_json) (Some (bytes_of "guest")) ex_sdk ex_sdk_world) as (r & w' & E & _).
  exists r, w'. split; [exact E|].
  exact (proj2 (endpoints_fit (JS := tree_json) None None None E_combo (Some (bytes_of "guest")) ex_sdk (ex_inn ex_sdk_world) r w'
    (ex_inn_wf _ ex_sdk_quiet) ex_sdk_keys E)).
Defined.

Lemma endpoints_answer_witness : handleBindRealname (Some (bytes_of "bind")) ex_sdk ex_sdk_world = None.
Proof.
  apply (proj1 (endpoints_answer (JS := tree_json) E_bind (Some (bytes_of "bind")) ex_sdk ex_sdk_world ex_sdk_keys)).
  split; [reflexivity|]. exists ex_bind, [zb 128]. split; [apply ex_object; vm_compute; reflexivity|].
  split; [exists (Some (t_string [zb 128])); split; vm_compute; reflexivity|]. split; [vm_compute; discriminate|].
  left. vm_compute. reflexivity.
Defined.

Lemma tokens_guarded_witness :
  exists r w', handleCombo (Some (bytes_of "guest")) ex_sdk ex_sdk_world = Some (r, w') /\
    ((w' = ex_sdk_world /\ refused r) \/
     exists j id a, request_object (JS := tree_json) (Some (bytes_of "guest")) ex_sdk j /\ getAccountByAid id (w_db ex_sdk_world) = Some a /\
       (has_auth_token (JS := tree_json) E_combo ex_sdk j id a \/ guest_request (JS := tree_json) E_combo ex_sdk j id)).
Proof.
  destruct (combo_answered (JS := tree_json) (Some (bytes_of "guest")) ex_sdk ex_sdk_world) as (r & w' & E & _).
  exists r, w'. split; [exact E|]. apply (tokens_guarded (JS := tree_json) E_combo _ _ _ r w'); [auto|exact E].
Defined.
