(* ===== verification/Command.v ===== *)
(** * The console and its commands

    src/console.cpp (without readline), src/command.cpp and
    src/commands/account.cpp: the lines of the terminal, the splitting of a line
    into words in the static array [argbuf], the table of commands and the
    command "account".  A command gets the account of its player, [None] for
    NULL (the console has no player).  No result: a store outside an array, a
    NULL or invalid pointer that is used. *)

From Stdlib Require Import Strings.String.
From stdpp Require Import gmap.
From S2P Require Import Prelude TomlText TomlValue Avatar Player Account DbGate DbProps PlayerDb PlayerProps Handlers HandlersProps ServerProps.

Abbreviation cstring := (list byte).

(** ** Splitting a line

    Positions stand for the pointers into [argbuf]. *)
Record splitter := mkSplit { sp_argbuf : list byte; sp_arg_dst : Z; sp_arg_ptr : Z; sp_argv : list Z; sp_quotes : Z }.

Definition ARGV_MAX : Z := 32.
Definition ARGBUF_SIZE : Z := 1024.

(** [buf[i] = c;] *)
Definition poke (i : Z) (c : byte) (buf : list byte) : option (list byte) :=
  if (0 <=? i) && (i <? zlen buf) then Some (ztake i buf ++ [c] ++ zdrop (i + 1) buf) else None.

(** [*arg_dst = c; arg_dst++;] *)
Definition put (c : byte) (s : splitter) : option splitter :=
  buf ← poke (sp_arg_dst s) c (sp_argbuf s);
  Some (mkSplit buf (sp_arg_dst s + 1) (sp_arg_ptr s) (sp_argv s) (sp_quotes s)).

(** [argv[argc] = arg_ptr; argc++;] *)
Definition push_arg (s : splitter) : option splitter :=
  if zlen (sp_argv s) <? ARGV_MAX
  then Some (mkSplit (sp_argbuf s) (sp_arg_dst s) (sp_arg_ptr s) (sp_argv s ++ [sp_arg_ptr s]) (sp_quotes s))
  else None.

Definition set_quotes (q : Z) (s : splitter) : splitter :=
  mkSplit (sp_argbuf s) (sp_arg_dst s) (sp_arg_ptr s) (sp_argv s) q.

Definition next_arg (s : splitter) : splitter :=
  mkSplit (sp_argbuf s) (sp_arg_dst s) (sp_arg_dst s) (sp_argv s) (sp_quotes s).

(** A quotation mark, [kind] 1 for single and 2 for double ones. *)
Definition quote_case (kind : Z) (c : byte) (s : splitter) : option splitter :=
  if sp_quotes s =? kind then Some (set_quotes 0 s)
  else if sp_quotes s =? 0 then Some (set_quotes kind s)
  else put c s.

(** The [switch]. *)
Definition split_char (c : byte) (s : splitter) : option splitter :=
  if bz c =? 39 then quote_case 1 c s
  else if bz c =? 34 then quote_case 2 c s
  else if bz c =? 32 then
    if negb (sp_quotes s =? 0) then put c s
    else s ← put Byte.x00 s; s ← push_arg s; Some (next_arg s)
  else put c s.

(** The loop over a C string. *)
Fixpoint split_loop (cmd : cstring) (s : splitter) : option splitter :=
  match cmd with
  | [] => Some s
  | c :: cmd =>
      if bz c =? 0 then Some s
      else if ARGV_MAX <=? zlen (sp_argv s) then Some s
      else if 1023 <=? sp_arg_dst s then Some s
      else s ← split_char c s; split_loop cmd s
  end.

(** What the pointers of [argv] point to, and [argbuf] afterwards. *)
Definition split_command (argbuf : list byte) (cmd : cstring) : option (list cstring * list byte) :=
  argbuf ← poke 1023 Byte.x00 argbuf;
  s ← split_loop cmd (mkSplit argbuf 0 0 [] 0);
  buf ← poke (sp_arg_dst s) Byte.x00 (sp_argbuf s);
  let s := mkSplit buf (sp_arg_dst s) (sp_arg_ptr s) (sp_argv s) (sp_quotes s) in
  s ← (if zlen (sp_argv s) <? ARGV_MAX then push_arg s else Some s);
  Some (map (fun p => c_string (zdrop p (sp_argbuf s))) (sp_argv s), sp_argbuf s).

(** ** The table *)

Record Command := mkCommand {
  c_name : cstring; c_aliases : list cstring;
  c_handle : option Account -> list cstring -> World -> option (Z * World) }.

Definition registerCommand (cmd : Command) (commands : list Command) : list Command := commands ++ [cmd].

(** [cmd] is the name of a command, or one of its other names. *)
Definition is_named (cmd : cstring) (c : Command) : bool :=
  bool_decide (c_name c = cmd) || existsb (fun a => bool_decide (a = cmd)) (c_aliases c).

(** The loop goes on with the iterator it erased: there is no result then. *)
Definition unregisterCommand (cmd : cstring) (commands : list Command) : option (list Command) :=
  if existsb (is_named cmd) commands then None else Some commands.

(** It calls [empty], not [clear]. *)
Definition unregisterAllCommands (commands : list Command) : list Command := commands.

(** [handleCommand(player, argc, argv)] *)
Definition run_command (commands : list Command) (account : option Account) (argv : list cstring) (w : World) : option (Z * World) :=
  match argv with
  | [] => Some (-1, w)
  | cmd :: args =>
      match find (is_named cmd) commands with
      | Some c => c_handle c account args w
      | None => Some (-2, w)
      end
  end.

(** [handleCommand(player, cmd)] *)
Definition handleCommand (commands : list Command) (account : option Account) (cmd : cstring) (argbuf : list byte) (w : World)
    : option (Z * list byte * World) :=
  '(argv, argbuf) ← split_command argbuf cmd;
  '(r, w) ← run_command commands account argv w;
  Some (r, argbuf, w).

(** ** The command "account" *)

(** [strtoul(s, NULL, 10)] *)
Definition strtoul10 (s : cstring) : Z :=
  let s := skip_c_space s in
  let neg := hd0 s =? 45 in
  let s := if neg || (hd0 s =? 43) then tl s else s in
  let '(v, _, _) := strto_digits 10 s 0 0 in
  if ULONG_MAX <? v then ULONG_MAX else if neg then u64 (- v) else v.

Section account.
Context {CA : MsgCodec AccountInfo} {CN : MsgCodec NextIdInfo} {CP : MsgCodec PlayerInfo}.

(** [globalGameData], [getSessionById], and the memory of a new [Account]. *)
Variable gd : option GameData.
Variable find_session : Z -> option (option nat).
Variable junk : acct_junk.

Abbreviation handler := (option Account -> list cstring -> World -> option (Z * World)).

(** [Account::saveToDb] *)
Definition account_saveToDb (a : Account) (w : World) : option (Z * World) :=
  '(r, d) ← saveAccount (default true (head (w_puts w))) a (w_db w); Some (r, set_db d (pop_put w)).

(** [createAccount(name)]; nothing is written when there is one. *)
Definition create_account (name : cstring) (w : World) : option (Account * World) :=
  found ← getAccountByUsername (Some name) (w_db w);
  let w' := match found with Some _ => w | None => pop_put (pop_put w) end in
  '(a, d) ← createAccount junk (default true (head (w_puts w))) (default true (head (tl (w_puts w)))) (Some name) (w_db w);
  Some (a, set_db d w').

Definition handleCreate : handler := fun account argv w =>
  match account, argv with
  | Some _, _ => Some (-4, w)
  | None, [] => Some (1, w)
  | None, name :: _ => '(a, w) ← create_account name w; '(_, w) ← account_saveToDb a w; Some (0, w)
  end.

(** The [option] inside is NULL. *)
Definition delete_target (arg : cstring) (w : World) : option (option Account) :=
  t ← getAccountByUsername (Some arg) (w_db w);
  t ← match t with
      | None => if hd0 arg =? 64 then getAccountByUsername (Some (tl arg)) (w_db w) else Some None
      | _ => Some t
      end;
  let t := match t with
           | None => if hd0 arg =? 97 then getAccountByAid (u32 (strtoul10 (tl arg))) (w_db w) else None
           | _ => t
           end in
  match t with
  | None => if hd0 arg =? 117 then getAccountByUid gd find_session (u32 (strtoul10 (tl arg))) w else Some None
  | _ => Some t
  end.

Definition handleDelete : handler := fun account argv w =>
  t ← match argv with [] => Some account | arg :: _ => delete_target arg w end;
  match t with
  | Some a => Some (wput (fun ok d => deleteAccount ok a d) w)
  | None => Some (0, w)
  end.

Definition handleEdit : handler := fun _ _ w => Some (-10, w).
Definition handlePasswd : handler := fun _ _ w => Some (-10, w).

Definition subcommands : list (cstring * handler) :=
  [(bytes_of "create", handleCreate); (bytes_of "delete", handleDelete); (bytes_of "edit", handleEdit);
   (bytes_of "passwd", handlePasswd)].

(** [AccountCommand::handle] *)
Definition account_handle : handler := fun account argv w =>
  match argv with
  | [] => Some (1, w)
  | arg :: args =>
      match find (fun s => bool_decide (s.1 = arg)) subcommands with
      | Some s => s.2 account args w
      | None => Some (1, w)
      end
  end.

Definition AccountCommand : Command := mkCommand (bytes_of "account") [] account_handle.

Definition registerDefaultCommands (commands : list Command) : list Command := commands ++ [AccountCommand].
End account.

(** ** The console

    What is met at the top of the loop: the signal; or what [getline] gives, a
    line with its newline, or a failure with [feof] and [ferror]. *)
Inductive console_event := Signal | Line (buf : list byte) | LineFails (eof error : bool).

(** [true]: the loop is left. *)
Fixpoint console_main (commands : list Command) (evs : list console_event) (argbuf : list byte) (w : World)
    : option (bool * list byte * World) :=
  match evs with
  | [] => Some (false, argbuf, w)
  | Signal :: _ => Some (true, argbuf, w)
  | LineFails eof error :: evs =>
      if eof then Some (true, argbuf, w)
      else if error then console_main commands evs argbuf w
      else None
  | Line buf :: evs =>
      let cmd := c_string (removelast buf) in
      if decide (cmd = []) then console_main commands evs argbuf w
      else '(_, argbuf, w) ← handleCommand commands None cmd argbuf w; console_main commands evs argbuf w
  end.

(** * The console: theorems *)

(** ** The words of a line

    Without an array: quotation marks group, a blank between groups ends a
    word; [q] as [quotes]. *)
Definition prepend (cur : cstring) (ws : list cstring) : list cstring :=
  match ws with w :: ws => (cur ++ w) :: ws | [] => [cur] end.

Fixpoint shell_words (q : Z) (cmd : cstring) : list cstring :=
  match cmd with
  | [] => [[]]
  | c :: cmd =>
      let quote kind :=
        if q =? kind then shell_words 0 cmd else if q =? 0 then shell_words kind cmd else prepend [c] (shell_words q cmd) in
      if bz c =? 39 then quote 1
      else if bz c =? 34 then quote 2
      else if (bz c =? 32) && (q =? 0) then [] :: shell_words 0 cmd
      else prepend [c] (shell_words q cmd)
  end.

(** Room in [argbuf]: every word and its NUL. *)
Definition room (ws : list cstring) : Z := foldr (fun w n => zlen w + 1 + n) 0 ws.

Definition no_nul (s : cstring) : Prop := Byte.x00 ∉ s.

Lemma shell_words_cons q cmd : exists w ws, shell_words q cmd = w :: ws.
Proof.
  revert q. induction cmd as [|c cmd IH]; intros q; [eauto|]. cbn [shell_words]. cbv zeta.
  assert (forall q' p, exists w ws, prepend p (shell_words q' cmd) = w :: ws) as Hp
    by (intros q' p; destruct (IH q') as (w & ws & ->); eexists _, _; reflexivity).
  repeat case_match; eauto.
Qed.

Lemma prepend_app a b ws : prepend (a ++ b) ws = prepend a (prepend b ws).
Proof. destruct ws; cbn; rewrite <- ?app_assoc; reflexivity. Qed.

Lemma prepend_nil q cmd : prepend [] (shell_words q cmd) = shell_words q cmd.
Proof. destruct (shell_words_cons q cmd) as (w & ws & ->). reflexivity. Qed.

(** ** The array holds the words *)

(** The words read, the one being read, and the quotation mark. *)
Record words_state := mkWords { ws_done : list cstring; ws_cur : cstring; ws_quotes : Z }.

Definition add_char (c : byte) (st : words_state) : words_state := mkWords (ws_done st) (ws_cur st ++ [c]) (ws_quotes st).

Definition words_step (c : byte) (st : words_state) : words_state :=
  let quote kind :=
    if ws_quotes st =? kind then mkWords (ws_done st) (ws_cur st) 0
    else if ws_quotes st =? 0 then mkWords (ws_done st) (ws_cur st) kind else add_char c st in
  if bz c =? 39 then quote 1
  else if bz c =? 34 then quote 2
  else if (bz c =? 32) && (ws_quotes st =? 0) then mkWords (ws_done st ++ [ws_cur st]) [] (ws_quotes st)
  else add_char c st.

(** All words, when [cmd] follows. *)
Definition words_of (st : words_state) (cmd : cstring) : list cstring :=
  ws_done st ++ prepend (ws_cur st) (shell_words (ws_quotes st) cmd).

Lemma words_of_step c cmd st : words_of (words_step c st) cmd = words_of st (c :: cmd).
Proof.
  destruct st as [d cur q]. unfold words_of, words_step, add_char. cbn [ws_done ws_cur ws_quotes shell_words]. cbv zeta.
  destruct (Z.eqb_spec q 0) as [->|]; rewrite ?andb_false_r; repeat case_match; cbn [ws_done ws_cur ws_quotes];
    rewrite ?prepend_app, ?prepend_nil, <- ?app_assoc; try reflexivity; try discriminate; cbn; rewrite app_nil_r; reflexivity.
Qed.

Definition flat (ws : list cstring) : list byte := flat_map (fun w => w ++ [Byte.x00]) ws.

Fixpoint starts (p : Z) (ws : list cstring) : list Z :=
  match ws with [] => [] | w :: ws => p :: starts (p + zlen w + 1) ws end.

Lemma flat_room ws : zlen (flat ws) = room ws.
Proof.
  induction ws as [|w ws IH]; [reflexivity|]. change (flat (w :: ws)) with ((w ++ [Byte.x00]) ++ flat ws).
  change (room (w :: ws)) with (zlen w + 1 + room ws). rewrite !length_app. cbn [length]. lia.
Qed.

Lemma room_app a b : room (a ++ b) = room a + room b.
Proof. unfold room. induction a as [|w a IH]; cbn; lia. Qed.

Lemma room_nonneg ws : 0 <= room ws.
Proof. unfold room. induction ws; cbn; lia. Qed.

Lemma starts_app p a w : starts p (a ++ [w]) = starts p a ++ [p + zlen (flat a)].
Proof.
  revert p. induction a as [|x a IH]; intros p; cbn [starts app]; [do 2 f_equal; cbn; lia|].
  rewrite IH, !flat_room. cbn. f_equal. do 2 f_equal. change (foldr _ 0 a) with (room a). lia.
Qed.

Lemma length_starts p ws : length (starts p ws) = length ws.
Proof. revert p. induction ws; intros; cbn; auto. Qed.

Lemma c_string_word w rest : no_nul w -> c_string (w ++ Byte.x00 :: rest) = w.
Proof.
  induction w as [|c w IH]; intros Hn; [reflexivity|]. unfold no_nul in *. cbn [c_string app].
  apply not_elem_of_cons in Hn as [Hc Hn]. rewrite decide_False by congruence. f_equal. exact (IH Hn).
Qed.

(** The pointers find the words. *)
Lemma read_words pre ws rest :
  Forall no_nul ws -> map (fun p => c_string (zdrop p (pre ++ flat ws ++ rest))) (starts (zlen pre) ws) = ws.
Proof.
  revert pre. induction ws as [|w ws IH]; intros pre Hn; [reflexivity|]. apply Forall_cons in Hn as [Hw Hn]. cbn [starts map]. f_equal.
  - rewrite Nat2Z.id, drop_app_all by reflexivity. cbn. rewrite <- !app_assoc. apply c_string_word, Hw.
  - specialize (IH (pre ++ w ++ [Byte.x00]) Hn). cbn [flat flat_map]. rewrite !length_app in IH. cbn [length] in IH.
    replace (Z.of_nat (length pre + (length w + 1))) with (zlen pre + zlen w + 1) in IH by lia.
    rewrite <- !app_assoc in IH |- *. exact IH.
Qed.

(** [s] holds [st]. *)
Record holds (s : splitter) (st : words_state) : Prop := {
  hd_argv : sp_argv s = starts 0 (ws_done st);
  hd_ptr : sp_arg_ptr s = room (ws_done st);
  hd_dst : sp_arg_dst s = room (ws_done st) + zlen (ws_cur st);
  hd_bytes : exists rest, sp_argbuf s = flat (ws_done st) ++ ws_cur st ++ rest;
  hd_size : zlen (sp_argbuf s) = ARGBUF_SIZE;
  hd_room : sp_arg_dst s <= 1023;
  hd_args : zlen (ws_done st) <= ARGV_MAX;
  hd_quotes : sp_quotes s = ws_quotes st;
  hd_nul : Forall no_nul (ws_done st ++ [ws_cur st]) }.

Lemma poke_end pre c rest i :
  i = zlen pre -> i < zlen (pre ++ rest) -> exists rest', poke i c (pre ++ rest) = Some (pre ++ [c] ++ rest') /\ zlen (pre ++ [c] ++ rest') = zlen (pre ++ rest).
Proof.
  intros -> Hi. unfold poke. rewrite (proj2 (Z.ltb_lt _ _) Hi), (proj2 (Z.leb_le 0 (zlen pre))) by lia. cbn [andb].
  destruct rest as [|b rest]; [rewrite app_nil_r in Hi; lia|]. exists rest.
  rewrite Nat2Z.id, take_app_all by reflexivity. replace (Z.to_nat (zlen pre + 1)) with (length pre + 1)%nat by lia.
  rewrite <- drop_drop, drop_app_all by reflexivity. split; [reflexivity|]. rewrite !length_app. cbn. lia.
Qed.

Lemma put_holds c s st :
  holds s st -> sp_arg_dst s < 1023 -> c <> Byte.x00 ->
  exists s', put c s = Some s' /\ holds s' (add_char c st).
Proof.
  intros [Ha Hp Hd (rest & Hb) Hs Hr Hn Hq Hz] Hlt Hc. unfold put.
  destruct (poke_end (flat (ws_done st) ++ ws_cur st) c rest (sp_arg_dst s)) as (rest' & E & L).
  - rewrite length_app, Hd, <- flat_room. lia.
  - rewrite <- app_assoc, <- Hb, Hs. unfold ARGBUF_SIZE. lia.
  - rewrite Hb, app_assoc, E. cbn [mbind option_bind]. eexists. split; [reflexivity|].
    destruct st as [d cur q]. unfold add_char. cbn [ws_done ws_cur ws_quotes] in *.
    constructor; cbn [ws_done ws_cur ws_quotes sp_argbuf sp_arg_dst sp_arg_ptr sp_argv sp_quotes]; auto.
    + rewrite length_app. cbn. lia.
    + exists rest'. rewrite <- !app_assoc. reflexivity.
    + rewrite L, <- app_assoc, <- Hb. exact Hs.
    + lia.
    + apply Forall_app in Hz as [Hz1 Hz2]. apply Forall_app. split; [exact Hz1|]. apply Forall_cons in Hz2 as [Hz2 _].
      constructor; [|constructor]. unfold no_nul in *. intros [H|H]%elem_of_app; [contradiction|].
      apply list_elem_of_singleton in H. congruence.
Qed.

Lemma quotes_hold q s st : holds s st -> holds (set_quotes q s) (mkWords (ws_done st) (ws_cur st) q).
Proof. intros []. constructor; auto. Qed.

(** A word ends. *)
Lemma blank_holds s st :
  holds s st -> sp_arg_dst s < 1023 -> zlen (sp_argv s) < ARGV_MAX ->
  exists s', (s ← put Byte.x00 s; s ← push_arg s; Some (next_arg s)) = Some s' /\
    holds s' (mkWords (ws_done st ++ [ws_cur st]) [] (ws_quotes st)).
Proof.
  intros [Ha Hp Hd (rest & Hb) Hs Hr Hn Hq Hz] Hlt Hv. unfold put.
  destruct (poke_end (flat (ws_done st) ++ ws_cur st) Byte.x00 rest (sp_arg_dst s)) as (rest' & E & L).
  - rewrite length_app, Hd, <- flat_room. lia.
  - rewrite <- app_assoc, <- Hb, Hs. unfold ARGBUF_SIZE. lia.
  - rewrite Hb, app_assoc, E. cbn [mbind option_bind]. unfold push_arg. cbn [sp_argv sp_argbuf sp_arg_dst sp_arg_ptr sp_quotes].
    rewrite (proj2 (Z.ltb_lt _ _) Hv). cbn [mbind option_bind next_arg sp_argv sp_argbuf sp_arg_dst sp_quotes]. eexists. split; [reflexivity|].
    destruct st as [d cur q]. cbn [ws_done ws_cur ws_quotes] in *. rewrite Ha, length_starts in Hv.
    constructor; cbn [ws_done ws_cur ws_quotes sp_argbuf sp_arg_dst sp_arg_ptr sp_argv sp_quotes next_arg].
    + rewrite Ha, Hp, starts_app, <- flat_room. reflexivity.
    + rewrite Hd, room_app. cbn. lia.
    + rewrite Hd, room_app. cbn. lia.
    + exists rest'. unfold flat. rewrite flat_map_app. cbn. rewrite app_nil_r, <- !app_assoc. reflexivity.
    + rewrite L, <- app_assoc, <- Hb. exact Hs.
    + lia.
    + rewrite length_app. cbn. lia.
    + exact Hq.
    + apply Forall_app. split; [exact Hz|]. constructor; [|constructor]. unfold no_nul. intros H. inversion H.
Qed.

(** One round of the loop. *)
Lemma char_holds c s st :
  holds s st -> sp_arg_dst s < 1023 -> zlen (sp_argv s) < ARGV_MAX -> bz c <> 0 ->
  exists s', split_char c s = Some s' /\ holds s' (words_step c st).
Proof.
  intros H Hlt Hv Hc. assert (c <> Byte.x00) as Hc' by (intros ->; contradiction).
  pose proof (put_holds c s st H Hlt Hc') as Hput. pose proof (blank_holds s st H Hlt Hv) as Hblank.
  pose proof (hd_quotes _ _ H) as Hq. unfold split_char, words_step, quote_case. cbv zeta. rewrite Hq.
  destruct (Z.eqb_spec (ws_quotes st) 0) as [E|]; rewrite ?andb_false_r, ?andb_true_r; repeat case_match; try discriminate;
    first [exact Hput | exact Hblank | rewrite E in Hblank; exact Hblank | eexists; split; [reflexivity|apply quotes_hold, H]].
Qed.

(** How the loop can end: it has read the whole line, or 32 words, or [argbuf]
    is full. *)
Lemma loop_holds cmd s st :
  holds s st -> exists s' st' p, p `prefix_of` c_string cmd /\ split_loop cmd s = Some s' /\ holds s' st' /\
    words_of st p = ws_done st' ++ [ws_cur st'] /\
    exists rest, words_of st (c_string cmd) = words_of st' rest /\
      (rest = [] \/ zlen (ws_done st') = ARGV_MAX \/ sp_arg_dst s' = 1023).
Proof.
  assert (forall st, words_of st [] = ws_done st ++ [ws_cur st]) as Hend by (intros st0; unfold words_of; cbn; rewrite app_nil_r; reflexivity).
  revert s st. induction cmd as [|c cmd IH]; intros s st H.
  { exists s, st, []. split; [apply prefix_nil|]. split; [reflexivity|]. split; [exact H|]. split; [apply Hend|]. exists []. auto. }
  cbn [split_loop c_string]. destruct (Z.eqb_spec (bz c) 0) as [E|E].
  { rewrite decide_True by (apply bz_inj, E). exists s, st, []. split; [apply prefix_nil|]. split; [reflexivity|]. split; [exact H|]. split; [apply Hend|]. exists []. auto. }
  rewrite decide_False by (intros ->; contradiction).
  assert (sp_argv s = starts 0 (ws_done st)) as Ea by apply (hd_argv _ _ H). pose proof (hd_args _ _ H). pose proof (hd_room _ _ H).
  destruct (Z.leb_spec ARGV_MAX (zlen (sp_argv s))) as [Hv|Hv].
  { exists s, st, []. split; [apply prefix_nil|]. split; [reflexivity|]. split; [exact H|]. split; [apply Hend|]. eexists. split; [reflexivity|]. rewrite Ea, length_starts in Hv. lia. }
  destruct (Z.leb_spec 1023 (sp_arg_dst s)) as [Hl|Hl].
  { exists s, st, []. split; [apply prefix_nil|]. split; [reflexivity|]. split; [exact H|]. split; [apply Hend|]. eexists. split; [reflexivity|]. lia. }
  destruct (char_holds c s st H Hl Hv E) as (s1 & -> & Hs1). cbn [mbind option_bind].
  destruct (IH s1 _ Hs1) as (s' & st' & p & Hp & El & H' & Ew & rest & Er & Hr).
  exists s', st', (c :: p). split; [apply prefix_cons, Hp|]. split; [exact El|]. split; [exact H'|].
  rewrite <- !words_of_step. eauto.
Qed.

(** The state after the loop, read. *)
Lemma finish_holds s st :
  holds s st -> exists buf, poke (sp_arg_dst s) Byte.x00 (sp_argbuf s) = Some buf /\ zlen buf = ARGBUF_SIZE /\
    map (fun p => c_string (zdrop p buf)) (sp_argv s) = ws_done st /\
    map (fun p => c_string (zdrop p buf)) (sp_argv s ++ [sp_arg_ptr s]) = ws_done st ++ [ws_cur st].
Proof.
  intros [Ha Hp Hd (rest & Hb) Hs Hr Hn Hq Hz].
  destruct (poke_end (flat (ws_done st) ++ ws_cur st) Byte.x00 rest (sp_arg_dst s)) as (rest' & E & L).
  - rewrite length_app, Hd, <- flat_room. lia.
  - rewrite <- app_assoc, <- Hb, Hs. unfold ARGBUF_SIZE. lia.
  - rewrite Hb, app_assoc, E. eexists. split; [reflexivity|]. split; [rewrite L, <- app_assoc, <- Hb; exact Hs|].
    split.
    + rewrite Ha, <- app_assoc. apply (read_words []). apply Forall_app in Hz as [Hz _]. exact Hz.
    + rewrite Ha, Hp, <- flat_room. change (zlen (flat (ws_done st))) with (0 + zlen (flat (ws_done st))).
      rewrite <- (starts_app 0 (ws_done st) (ws_cur st)).
      transitivity (map (fun p => c_string (zdrop p ([] ++ flat (ws_done st ++ [ws_cur st]) ++ rest'))) (starts 0 (ws_done st ++ [ws_cur st]))).
      * unfold flat. rewrite flat_map_app. cbn. rewrite app_nil_r, <- !app_assoc. reflexivity.
      * apply (read_words []), Hz.
Qed.

Lemma take_words n (ws : list cstring) : zlen ws <= Z.of_nat n -> take n ws = ws.
Proof. intros H. apply take_ge. lia. Qed.

(** Splitting a line, whatever [argbuf] held: never a store outside an array;
    the words are those of a prefix of the line, and of the whole line when its
    first 32 words fit. *)
Lemma split_command_words argbuf cmd :
  zlen argbuf = ARGBUF_SIZE -> exists args buf p, split_command argbuf cmd = Some (args, buf) /\ zlen buf = ARGBUF_SIZE /\
    p `prefix_of` c_string cmd /\ args = take 32 (shell_words 0 p) /\ room args <= ARGBUF_SIZE /\ Forall no_nul args /\
    (room (take 32 (shell_words 0 (c_string cmd))) <= ARGBUF_SIZE -> args = take 32 (shell_words 0 (c_string cmd))).
Proof.
  intros Hl. unfold split_command. set (buf0 := ztake 1023 argbuf ++ [Byte.x00] ++ zdrop (1023 + 1) argbuf).
  replace (poke 1023 Byte.x00 argbuf) with (Some buf0) by (unfold poke; rewrite Hl; reflexivity). assert (holds (mkSplit buf0 0 0 [] 0) (mkWords [] [] 0)) as H0.
  { unfold ARGBUF_SIZE, ARGV_MAX in *. constructor; cbn [ws_done ws_cur ws_quotes sp_argbuf sp_arg_dst sp_arg_ptr sp_argv sp_quotes]; try reflexivity; try (cbn; lia).
    - exists buf0. reflexivity.
    - unfold buf0. rewrite !length_app, length_take, length_drop. cbn [length]. change ARGBUF_SIZE with 1024. lia.
    - unfold ARGV_MAX. cbn. lia.
    - constructor; [|constructor]. unfold no_nul. intros H. inversion H. }
  cbn [mbind option_bind].
  destruct (loop_holds cmd _ _ H0) as (s & st & p & Hp & -> & H & Ew & rest & Er & Hr). cbn [mbind option_bind].
  destruct (finish_holds s st H) as (buf & -> & Hb & R1 & R2). cbn [mbind option_bind sp_argv].
  assert (forall l, words_of (mkWords [] [] 0) l = shell_words 0 l) as W by (intros l; apply prepend_nil). rewrite W in Ew, Er.
  pose proof (hd_dst _ _ H) as Hd. pose proof (hd_room _ _ H) as Hrm. pose proof (hd_args _ _ H) as Hn. pose proof (hd_nul _ _ H) as Hz.
  assert (zlen (sp_argv s) = zlen (ws_done st)) as El by (rewrite (hd_argv _ _ H), length_starts; reflexivity).
  unfold push_arg. cbn [sp_argv sp_argbuf sp_arg_dst sp_arg_ptr sp_quotes]. change ARGBUF_SIZE with 1024 in *. change ARGV_MAX with 32 in *.
  destruct (Z.ltb_spec (zlen (sp_argv s)) 32) as [Hv|Hv]; cbn [mbind option_bind sp_argv sp_argbuf]; rewrite ?R1, ?R2.
  - exists (ws_done st ++ [ws_cur st]), buf, p. do 3 (split; [first [reflexivity|exact Hb|exact Hp]|]).
    assert (take 32 (ws_done st ++ [ws_cur st]) = ws_done st ++ [ws_cur st]) as Et by (apply take_words; rewrite length_app; cbn; lia).
    split; [rewrite Ew, Et; reflexivity|]. split; [rewrite room_app; cbn; lia|]. split; [exact Hz|].
    rewrite Er. unfold words_of. destruct (shell_words_cons (ws_quotes st) rest) as (w & ws & Es). intros Hfit.
    destruct Hr as [->|[Hr|Hr]]; [cbn; rewrite app_nil_r; exact (eq_sym Et)|lia|]. rewrite Es in *. cbn [prepend] in *.
    rewrite take_app_ge in Hfit |- * by lia. destruct (32 - length (ws_done st))%nat as [|m] eqn:Em; [lia|]. cbn [take] in *.
    rewrite room_app in Hfit. cbn in Hfit. rewrite length_app in Hfit. fold (room (take m ws)) in Hfit. pose proof (room_nonneg (take m ws)).
    assert (w = []) as -> by (destruct w; [reflexivity|cbn in Hfit; lia]). rewrite app_nil_r.
    destruct (take m ws) as [|x l]; [reflexivity|]. pose proof (room_nonneg l). unfold room in *. cbn in Hfit. lia.
  - exists (ws_done st), buf, p. do 3 (split; [first [reflexivity|exact Hb|exact Hp]|]).
    assert (length (ws_done st) = 32%nat) as E32 by lia.
    split; [rewrite Ew, take_app_le, take_words by lia; reflexivity|]. split; [lia|].
    split; [apply Forall_app in Hz as [Hz _]; exact Hz|]. intros _. rewrite Er. unfold words_of.
    rewrite take_app_le, take_words by lia. reflexivity.
Qed.

(** ** Lines that are typed

    A word is typed in pieces: plain characters, or a quotation, which may hold
    blanks and quotation marks of the other kind. *)
Inductive piece := Plain (s : cstring) | Single (s : cstring) | Double (s : cstring).

Definition piece_text (p : piece) : cstring :=
  match p with Plain s => s | Single s => [zb 39] ++ s ++ [zb 39] | Double s => [zb 34] ++ s ++ [zb 34] end.

Definition piece_value (p : piece) : cstring := match p with Plain s | Single s | Double s => s end.

Definition piece_ok (p : piece) : Prop :=
  match p with
  | Plain s => Forall (fun c => bz c <> 0 /\ bz c <> 32 /\ bz c <> 34 /\ bz c <> 39) s
  | Single s => Forall (fun c => bz c <> 0 /\ bz c <> 39) s
  | Double s => Forall (fun c => bz c <> 0 /\ bz c <> 34) s
  end.

Definition word_text (w : list piece) : cstring := flat_map piece_text w.
Definition word_value (w : list piece) : cstring := flat_map piece_value w.

(** Blanks separate the words. *)
Fixpoint typed_line (ws : list (list piece)) : cstring :=
  match ws with
  | [] => []
  | [w] => word_text w
  | w :: ws => word_text w ++ [zb 32] ++ typed_line ws
  end.

Definition typed_ok (ws : list (list piece)) : Prop := Forall (Forall piece_ok) ws.

Lemma prepend_cons (c : byte) s ws : prepend (c :: s) ws = prepend [c] (prepend s ws).
Proof. destruct ws; reflexivity. Qed.

Lemma words_plain s rest : piece_ok (Plain s) -> shell_words 0 (s ++ rest) = prepend s (shell_words 0 rest).
Proof.
  intros H. induction H as [|c s (_ & H1 & H2 & H3) Hs IH]; [cbn; rewrite prepend_nil; reflexivity|].
  rewrite prepend_cons, <- IH. cbn [app shell_words]. rewrite !(proj2 (Z.eqb_neq (bz c) _)) by assumption. reflexivity.
Qed.

(** Inside a quotation of kind [q], up to its end. *)
Lemma words_inside q m s rest :
  (q = 1 /\ m = 39 \/ q = 2 /\ m = 34) -> Forall (fun c => bz c <> 0 /\ bz c <> m) s ->
  shell_words q (s ++ [zb m] ++ rest) = prepend s (shell_words 0 rest).
Proof.
  intros Hq H. induction H as [|c s [_ Hm] Hs IH].
  - rewrite prepend_nil. destruct Hq as [[-> ->]|[-> ->]]; reflexivity.
  - rewrite prepend_cons, <- IH. cbn [app]. destruct Hq as [[-> ->]|[-> ->]]; cbn [shell_words];
      rewrite (proj2 (Z.eqb_neq _ _) Hm), ?andb_false_r; repeat case_match; first [discriminate|reflexivity].
Qed.

Lemma words_piece p rest : piece_ok p -> shell_words 0 (piece_text p ++ rest) = prepend (piece_value p) (shell_words 0 rest).
Proof.
  destruct p as [s|s|s]; cbn [piece_text piece_value]; intros H; [exact (words_plain s rest H)|..]; rewrite <- !app_assoc; cbn [app].
  - change (shell_words 0 (zb 39 :: s ++ zb 39 :: rest)) with (shell_words 1 (s ++ [zb 39] ++ rest)). apply words_inside; auto.
  - change (shell_words 0 (zb 34 :: s ++ zb 34 :: rest)) with (shell_words 2 (s ++ [zb 34] ++ rest)). apply words_inside; auto.
Qed.

Lemma words_typed w rest : Forall piece_ok w -> shell_words 0 (word_text w ++ rest) = prepend (word_value w) (shell_words 0 rest).
Proof.
  intros H. induction H as [|p w Hp Hw IH]; [cbn; rewrite prepend_nil; reflexivity|].
  change (word_text (p :: w)) with (piece_text p ++ word_text w). change (word_value (p :: w)) with (piece_value p ++ word_value w).
  rewrite <- app_assoc, (words_piece p _ Hp), IH, prepend_app. reflexivity.
Qed.

(** The words of a line are the values of what was typed. *)
Lemma words_line ws : ws <> [] -> typed_ok ws -> shell_words 0 (typed_line ws) = map word_value ws.
Proof.
  intros Hne H. induction H as [|w ws Hw Hws IH]; [contradiction|]. destruct ws as [|w2 ws].
  - cbn [typed_line map]. rewrite <- (app_nil_r (word_text w)), (words_typed w [] Hw). cbn. rewrite app_nil_r. reflexivity.
  - change (typed_line (w :: w2 :: ws)) with (word_text w ++ [zb 32] ++ typed_line (w2 :: ws)). rewrite (words_typed w _ Hw).
    cbn [app]. change (shell_words 0 (zb 32 :: typed_line (w2 :: ws))) with ([] :: shell_words 0 (typed_line (w2 :: ws))).
    rewrite IH by discriminate. cbn. rewrite app_nil_r. reflexivity.
Qed.

Lemma c_string_id s : no_nul s -> c_string s = s.
Proof.
  induction s as [|c s IH]; intros Hn; [reflexivity|]. apply not_elem_of_cons in Hn as [Hc Hn]. cbn [c_string].
  rewrite decide_False by congruence. f_equal. exact (IH Hn).
Qed.

Lemma no_nul_app a b : no_nul a -> no_nul b -> no_nul (a ++ b).
Proof. unfold no_nul. intros Ha Hb [H|H]%elem_of_app; auto. Qed.

Lemma no_nul_all (P : byte -> Prop) s : (forall c, P c -> bz c <> 0) -> Forall P s -> no_nul s.
Proof. intros HP H Hin. rewrite Forall_forall in H. exact (HP _ (H _ Hin) eq_refl). Qed.

Lemma piece_no_nul p : piece_ok p -> no_nul (piece_text p) /\ no_nul (piece_value p).
Proof.
  assert (forall n, bz (zb n) <> 0 -> no_nul [zb n]) as Hq by (intros n Hn Hin; apply list_elem_of_singleton in Hin; rewrite <- Hin in Hn; auto).
  destruct p as [s|s|s]; cbn [piece_ok piece_text piece_value]; intros H; (assert (no_nul s) as Hs by (refine (no_nul_all _ s _ H); intros c Hc; apply Hc));
    (split; [|exact Hs]); [exact Hs|..]; repeat apply no_nul_app; try exact Hs; apply Hq; discriminate.
Qed.

Lemma word_no_nul w : Forall piece_ok w -> no_nul (word_text w) /\ no_nul (word_value w).
Proof.
  intros H. induction H as [|p w Hp Hw [I1 I2]]; [split; intros H; inversion H|]. destruct (piece_no_nul p Hp).
  split; apply no_nul_app; assumption.
Qed.

Lemma line_no_nul ws : typed_ok ws -> no_nul (typed_line ws).
Proof.
  intros H. induction H as [|w ws Hw Hws IH]; [intros H; inversion H|]. destruct (word_no_nul w Hw) as [Ht _].
  destruct ws as [|w2 ws]; [exact Ht|]. apply no_nul_app; [exact Ht|]. apply no_nul_app; [|exact IH].
  intros H. apply list_elem_of_singleton in H. discriminate H.
Qed.

(** Any word can be typed: every character in quotation marks of the other kind. *)
Definition quoted (w : cstring) : list piece := map (fun c => if bz c =? 39 then Double [c] else Single [c]) w.

Lemma quoted_value w : word_value (quoted w) = w.
Proof. induction w as [|c w IH]; [reflexivity|]. cbn. destruct (bz c =? 39); cbn; f_equal; exact IH. Qed.

Lemma quoted_ok w : no_nul w -> Forall piece_ok (quoted w).
Proof.
  intros Hn. induction w as [|c w IH]; [constructor|]. apply not_elem_of_cons in Hn as [Hc Hn]. constructor; [|exact (IH Hn)].
  assert (bz c <> 0) as H0 by (intros E; apply Hc; rewrite <- (zb_bz c), E; reflexivity).
  destruct (Z.eqb_spec (bz c) 39) as [E|E]; repeat constructor; try assumption. rewrite E. discriminate.
Qed.

(** A line is split without a store outside [argbuf] or [argv], whatever
    the line is and whatever [argbuf] held before: there are at most 32 words,
    with their NULs they fit [argbuf], and they are the words of the line as
    quotation marks and blanks group them, of a prefix of it when they do not
    fit. *)
Theorem command_split_safe argbuf cmd :
  zlen argbuf = ARGBUF_SIZE -> exists args buf p, split_command argbuf cmd = Some (args, buf) /\ zlen buf = ARGBUF_SIZE /\
    (length args <= 32)%nat /\ room args <= ARGBUF_SIZE /\ p `prefix_of` c_string cmd /\ args = take 32 (shell_words 0 p) /\
    (room (take 32 (shell_words 0 (c_string cmd))) <= ARGBUF_SIZE -> args = take 32 (shell_words 0 (c_string cmd))).
Proof.
  intros H. destruct (split_command_words argbuf cmd H) as (args & buf & p & E & L & Hp & Ea & R & _ & F).
  exists args, buf, p. do 2 (split; [assumption|]). split; [rewrite Ea, length_take; lia|]. auto.
Qed.

Lemma split_line argbuf ws :
  zlen argbuf = ARGBUF_SIZE -> ws <> [] -> (length ws <= 32)%nat -> typed_ok ws -> room (map word_value ws) <= ARGBUF_SIZE ->
  exists buf, split_command argbuf (typed_line ws) = Some (map word_value ws, buf) /\ zlen buf = ARGBUF_SIZE.
Proof.
  intros H Hne Hl Hn Hr. destruct (split_command_words argbuf (typed_line ws) H) as (args & buf & p & E & L & _ & _ & _ & _ & F).
  rewrite (c_string_id (typed_line ws)), words_line, take_ge in F by (rewrite ?length_map; auto using line_no_nul).
  exists buf. rewrite (F Hr) in E. auto.
Qed.

(** A line is split into the words that were typed, as long as there are at
    most 32 and they fit [argbuf], however long the line is. *)
Theorem typed_line_split argbuf ws :
  zlen argbuf = ARGBUF_SIZE -> ws <> [] -> (length ws <= 32)%nat -> typed_ok ws -> room (map word_value ws) <= ARGBUF_SIZE ->
  exists buf, split_command argbuf (typed_line ws) = Some (map word_value ws, buf).
Proof. intros H Hne Hl Hn Hr. destruct (split_line argbuf ws H Hne Hl Hn Hr) as (buf & E & _). eauto. Qed.

(** Every list of words can be typed, also empty ones and those with blanks or
    quotation marks of both kinds. *)
Theorem command_line_roundtrip argbuf ws :
  zlen argbuf = ARGBUF_SIZE -> ws <> [] -> (length ws <= 32)%nat -> Forall no_nul ws -> room ws <= ARGBUF_SIZE ->
  exists buf, split_command argbuf (typed_line (map quoted ws)) = Some (ws, buf).
Proof.
  intros H Hne Hl Hn Hr. assert (map word_value (map quoted ws) = ws) as Hv
    by (rewrite map_map; rewrite (map_ext _ id quoted_value); apply map_id).
  destruct (split_line argbuf (map quoted ws) H) as (buf & E & _); rewrite ?Hv, ?length_map; auto.
  - destruct ws; [contradiction|discriminate].
  - apply Forall_map. eapply Forall_impl; [exact Hn|]. exact quoted_ok.
  - rewrite Hv in E. eauto.
Qed.

(** ** Accounts from the console *)
Section accounts.
Context {CA : MsgCodec AccountInfo} {LA : MsgLaws AccountInfo} {CN : MsgCodec NextIdInfo} {CP : MsgCodec PlayerInfo}.
Variable gd : option GameData.
Variable find_session : Z -> option (option nat).
Variable junk : acct_junk.

Abbreviation commands := (registerDefaultCommands gd find_session junk []).

(** A line that was typed, with its newline. *)
Definition entered (ws : list (list piece)) : console_event := Line (typed_line ws ++ [zb 10]).

(** The line means a command "account" with these arguments. *)
Record account_line (ws : list (list piece)) (args : list cstring) : Prop := {
  al_ok : typed_ok ws;
  al_words : map word_value ws = bytes_of "account" :: args;
  al_count : (length ws <= 32)%nat;
  al_room : room (map word_value ws) <= ARGBUF_SIZE }.

Lemma account_line_values ws args : account_line ws args -> Forall no_nul args.
Proof.
  intros [Hok Hw _ _]. assert (Forall no_nul (map word_value ws)) as H.
  { apply Forall_map. eapply Forall_impl; [exact Hok|]. intros w Hw'. exact (proj2 (word_no_nul w Hw')). }
  rewrite Hw in H. apply Forall_cons in H as [_ H]. exact H.
Qed.

Lemma line_command argbuf ws args w r w' :
  zlen argbuf = ARGBUF_SIZE -> account_line ws args ->
  account_handle gd find_session junk None args w = Some (r, w') ->
  exists buf, console_main commands [entered ws] argbuf w = Some (false, buf, w') /\ zlen buf = ARGBUF_SIZE.
Proof.
  intros Ha [Hok Hw Hl Hr] E. assert (ws <> []) as Hne by (intros ->; discriminate Hw).
  destruct (split_line argbuf ws Ha Hne Hl Hok Hr) as (buf & Eb & L).
  exists buf. split; [|exact L]. unfold entered. cbn [console_main]. rewrite removelast_last.
  rewrite (c_string_id (typed_line ws)) by (apply line_no_nul, Hok). rewrite decide_False.
  2: { intros En. pose proof (words_line ws Hne Hok) as Hws. rewrite En, Hw in Hws. discriminate Hws. }
  unfold handleCommand. rewrite Eb, Hw. cbn [mbind option_bind]. unfold run_command, registerDefaultCommands. cbn [app find].
  unfold is_named at 1. rewrite bool_decide_true by reflexivity. cbn [orb c_handle AccountCommand]. rewrite E. reflexivity.
Qed.

(** C40: "account create NAME" at the console makes an account.  The line may be
    typed in any way: its words, at most 32 that fit the 1024 bytes of [argbuf]
    with their NULs, are separated by blanks, and each is made of plain characters
    and of quotations of both kinds, also "account" and "create"; words after the
    name are ignored.  When nobody has the name, the new account has a fresh id,
    is found under its name and its id, and no other account changes.  (The
    database takes every write, has an id left, and can store the account: the
    message library takes UTF-8 names.) *)
Theorem console_creates_account argbuf ws name more w :
  zlen argbuf = ARGBUF_SIZE -> account_line ws (bytes_of "create" :: name :: more) -> w_puts w = [] ->
  keys_ok (w_db w) -> in_u 32 (next_aid (next_ids (w_db w))) -> Z.of_nat (size (ldb (w_db w))) < 2 ^ 32 ->
  getAccountByUsername (Some name) (w_db w) = Some None -> (forall i, storable (created junk name i)) ->
  exists buf w' a, console_main commands [entered ws] argbuf w = Some (false, buf, w') /\
    zlen buf = ARGBUF_SIZE /\ username a = name /\ getAccountByAid (aid a) (w_db w) = None /\
    (forall id, in_u 32 id -> id <> aid a -> getAccountByAid id (w_db w') = getAccountByAid id (w_db w)) /\
    getAccountByAid (aid a) (w_db w') = Some a /\ getAccountByUsername (Some name) (w_db w') = Some (Some a).
Proof.
  intros Ha Hws Hp Hk Hid Hs Hnone Hst.
  destruct (account_created junk name (w_db w) Hk Hid Hs Hnone Hst) as (a & d' & E & Hu & Hnew & Hold & G1 & G2 & _ & Hagain).
  destruct (line_command argbuf ws _ w 0 (set_db d' (pop_put (set_db d' (pop_put (pop_put w))))) Ha Hws) as (buf & Ec & L).
  - unfold account_handle, subcommands. cbn [find fst]. rewrite bool_decide_true by reflexivity. cbn [snd]. unfold handleCreate, create_account.
    rewrite Hnone, Hp. cbn [mbind option_bind head tl default]. rewrite E. cbn [mbind option_bind]. unfold account_saveToDb.
    destruct w as [db puts t ms rnd mt j ja ji jt]. cbn [w_puts] in Hp. subst puts.
    cbn [set_db pop_put w_puts w_db w_time w_ms w_random w_mt w_junk w_junk_avatar w_junk_item w_junk_time tl head default]. rewrite Hagain. reflexivity.
  - eexists buf, _, a. split; [exact Ec|]. cbn [set_db w_db]. apply account_line_values, Forall_cons in Hws as [_ Hn].
    apply Forall_cons in Hn as [Hn _]. rewrite (c_string_id name Hn) in Hu. auto 8.
Qed.

(** "account delete NAME" at the console with the name of an account removes
    that account and no other. *)
Theorem console_deletes_account argbuf ws name more w a :
  zlen argbuf = ARGBUF_SIZE -> account_line ws (bytes_of "delete" :: name :: more) -> w_puts w = [] ->
  getAccountByUsername (Some name) (w_db w) = Some (Some a) -> in_u 32 (aid a) ->
  exists buf w', console_main commands [entered ws] argbuf w = Some (false, buf, w') /\
    zlen buf = ARGBUF_SIZE /\ getAccountByAid (aid a) (w_db w') = None /\
    (forall id, in_u 32 id -> id <> aid a -> getAccountByAid id (w_db w') = getAccountByAid id (w_db w)) /\
    (forall k, k <> id_key ACCOUNT (aid a) -> ldb (w_db w') !! k = ldb (w_db w) !! k).
Proof.
  intros Ha Hws Hp Hf Hid. set (d' := mkDb (delete (id_key ACCOUNT (aid a)) (ldb (w_db w))) (next_ids (w_db w))).
  destruct (line_command argbuf ws _ w 0 (set_db d' (pop_put w)) Ha Hws) as (buf & Ec & L).
  - unfold account_handle, subcommands. cbn [find fst]. rewrite bool_decide_false by (vm_compute; discriminate).
    rewrite bool_decide_true by reflexivity. cbn [snd]. unfold handleDelete, delete_target. rewrite Hf. cbn [mbind option_bind].
    unfold wput. rewrite Hp. reflexivity.
  - eexists buf, _. split; [exact Ec|]. split; [exact L|]. cbn [set_db w_db]. unfold d'.
    assert (forall k, k <> id_key ACCOUNT (aid a) -> delete (id_key ACCOUNT (aid a)) (ldb (w_db w)) !! k = ldb (w_db w) !! k) as Hk
      by (intros k H; apply lookup_delete_ne; congruence).
    split; [unfold getAccountByAid, getLdbObject; cbn [ldb]; rewrite lookup_delete_eq; reflexivity|]. split; [|exact Hk].
    intros id Hi Hne. apply get_other. symmetry. apply Hk. intros K. apply Hne. exact (id_key_inj _ _ _ Hi Hid K).
Qed.
End accounts.

(** ** Concrete lines *)

Definition ex_argbuf : list byte := replicate (Z.to_nat 1024) Byte.x00.

Lemma ex_argbuf_size : zlen ex_argbuf = ARGBUF_SIZE.
Proof. unfold ex_argbuf. rewrite length_replicate, Z2Nat.id by discriminate. reflexivity. Qed.

Definition ex_names : list cstring := [bytes_of "say"; bytes_of "it's me"; []; [zb 34]].

Lemma ex_names_ok : Forall no_nul ex_names.
Proof. repeat constructor; unfold no_nul; apply (bool_decide_unpack _); vm_compute; exact I. Qed.

Lemma command_split_safe_witness : exists args buf, split_command ex_argbuf (bytes_of "account create ann") = Some (args, buf) /\ zlen buf = ARGBUF_SIZE.
Proof.
  destruct (command_split_safe ex_argbuf (bytes_of "account create ann") ex_argbuf_size) as (args & buf & p & E & L & _).
  exists args, buf. split; assumption.
Defined.

Lemma command_line_roundtrip_witness : exists buf, split_command ex_argbuf (typed_line (map quoted ex_names)) = Some (ex_names, buf).
Proof.
  apply (command_line_roundtrip ex_argbuf ex_names ex_argbuf_size); [discriminate|cbn; lia|exact ex_names_ok|vm_compute; discriminate].
Defined.

#[local] Existing Instances info_codec info_laws ids_codec player_codec.

(** [account create ann], and the same with quotations and a word too many. *)
Definition ex_plain : list (list piece) := [[Plain (bytes_of "account")]; [Plain (bytes_of "create")]; [Plain (bytes_of "ann")]].
Definition ex_quoted : list (list piece) :=
  [[Plain (bytes_of "acc"); Single (bytes_of "ount")]; [Double (bytes_of "create")]; [Single (bytes_of "ann lee")]; [Plain (bytes_of "now")]].

Example ex_plain_text : typed_line ex_plain = bytes_of "account create ann".
Proof. reflexivity. Qed.

Lemma ex_typed ws args :
  forallb (forallb (fun p => match p with
    | Plain s => forallb (fun c => negb (bz c =? 0) && negb (bz c =? 32) && negb (bz c =? 34) && negb (bz c =? 39)) s
    | Single s => forallb (fun c => negb (bz c =? 0) && negb (bz c =? 39)) s
    | Double s => forallb (fun c => negb (bz c =? 0) && negb (bz c =? 34)) s end)) ws = true ->
  map word_value ws = bytes_of "account" :: args -> (length ws <=? 32)%nat && (room (map word_value ws) <=? ARGBUF_SIZE) = true ->
  account_line ws args.
Proof.
  intros H E [Hl Hr]%andb_true_iff. constructor; [|exact E|apply Nat.leb_le, Hl|apply Z.leb_le, Hr].
  rewrite forallb_forall in H. apply Forall_forall. intros w Hw. apply list_elem_of_In, H in Hw. rewrite forallb_forall in Hw.
  apply Forall_forall. intros p Hp. apply list_elem_of_In, Hw in Hp.
  destruct p as [s|s|s]; cbn [piece_ok]; rewrite forallb_forall in Hp; apply Forall_forall; intros c Hc;
    apply list_elem_of_In, Hp in Hc; rewrite ?andb_true_iff, ?negb_true_iff, ?Z.eqb_neq in Hc; tauto.
Qed.

Lemma ex_empty_name name : getAccountByUsername (Some name) (w_db (set_db ex_db ex_world)) = Some None.
Proof. vm_compute. reflexivity. Qed.

Lemma console_creates_account_witness :
  (exists buf w' a, console_main (registerDefaultCommands None (fun _ => None) (mkJunk 0 0 0 0) [])
    [Line (bytes_of "account create ann" ++ [zb 10])] ex_argbuf (set_db ex_db ex_world) = Some (false, buf, w') /\
    getAccountByUsername (Some (bytes_of "ann")) (w_db w') = Some (Some a)) /\
  (exists buf w' a, console_main (registerDefaultCommands None (fun _ => None) (mkJunk 0 0 0 0) [])
    [entered ex_quoted] ex_argbuf (set_db ex_db ex_world) = Some (false, buf, w') /\
    getAccountByUsername (Some (bytes_of "ann lee")) (w_db w') = Some (Some a)).
Proof.
  assert (forall name i, c_string name <> [] -> storable (created (mkJunk 0 0 0 0) name i)) as Hst.
  { intros name i Hne. split; [exists [], [], []; auto|]. split; [vm_compute; repeat split; discriminate|]. intros p E.
    split; [exact I|]. cbn in E. injection E as <-. intros F. exact (Hne (f_equal pb_username F)). }
  assert (keys_ok (w_db (set_db ex_db ex_world))) as Hk by (intros k [v Hk]; discriminate Hk).
  split.
  - destruct (console_creates_account None (fun _ => None) (mkJunk 0 0 0 0) ex_argbuf ex_plain (bytes_of "ann") [] (set_db ex_db ex_world) ex_argbuf_size)
      as (buf & w' & a & E & _ & _ & _ & _ & _ & G).
    + apply ex_typed; vm_compute; reflexivity.
    + reflexivity.
    + exact Hk.
    + vm_compute. split; [discriminate|reflexivity].
    + vm_compute. reflexivity.
    + apply ex_empty_name.
    + intros i. apply Hst. discriminate.
    + exists buf, w', a. split; assumption.
  - destruct (console_creates_account None (fun _ => None) (mkJunk 0 0 0 0) ex_argbuf ex_quoted (bytes_of "ann lee") [bytes_of "now"]
      (set_db ex_db ex_world) ex_argbuf_size) as (buf & w' & a & E & _ & _ & _ & _ & _ & G).
    + apply ex_typed; vm_compute; reflexivity.
    + reflexivity.
    + exact Hk.
    + vm_compute. split; [discriminate|reflexivity].
    + vm_compute. reflexivity.
    + apply ex_empty_name.
    + intros i. apply Hst. discriminate.
    + exists buf, w', a. split; assumption.
Defined.

Definition ex_bob : Account := setUsername (bytes_of "bob") (setAccountId 9 (new_Account (mkJunk 0 0 0 0))).
Definition ex_bob_world : World :=
  set_db (mkDb {[ id_key ACCOUNT 9 := default [] (i ← Account_to_info ex_bob; serialize i) ]} (mkNextIds 0 0 0 0)) ex_world.

Lemma ex_bob_found : getAccountByUsername (Some (bytes_of "bob")) (w_db ex_bob_world) = Some (Some ex_bob).
Proof. vm_compute. reflexivity. Qed.

Lemma console_deletes_account_witness : exists buf w',
  console_main (registerDefaultCommands None (fun _ => None) (mkJunk 0 0 0 0) [])
    [Line (bytes_of "account delete bob" ++ [zb 10])] ex_argbuf ex_bob_world = Some (false, buf, w') /\
  getAccountByAid 9 (w_db w') = None.
Proof.
  destruct (console_deletes_account None (fun _ => None) (mkJunk 0 0 0 0) ex_argbuf
    [[Plain (bytes_of "account")]; [Plain (bytes_of "delete")]; [Plain (bytes_of "bob")]] (bytes_of "bob") [] ex_bob_world ex_bob ex_argbuf_size)
    as (buf & w' & E & _ & G & _).
  - apply ex_typed; vm_compute; reflexivity.
  - reflexivity.
  - exact ex_bob_found.
  - split; [discriminate|reflexivity].
  - exists buf, w'. split; [exact E|exact G].
Defined.
