(* ===== verification/Crypt.v ===== *)
(** * RSA

    [HyvCryptRsaEnc], [HyvCryptRsaDec] and [HyvCryptRsaSign] of src/crypt.cpp
    and the keys of src/keys.c.  OpenSSL is the class [Openssl]; a step of it
    that fails makes the function return -1.  Lengths are [size_t].  No result:
    memory outside a buffer is read or written. *)

From Stdlib Require Import Strings.String.
From S2P Require Import Prelude Util Packet.

(** ** The keys *)

Definition hex_lines (l : list String.string) : list byte := flat_map (fun s => hexdec (bytes_of s)) l.
Arguments hex_lines l%_list_scope.

#[local] Open Scope string_scope.
#[local] Open Scope Z_scope.
#[local] Open Scope list_scope.

Definition DispatchPrivKey2 : list byte := hex_lines
  ["308204a40201000282010100cff7f27e8ce50c80d61bd7b72dbdbdfbb8f773aeb0bd424168158fd74ac1f474c4ea9ae37dc18ca82f629abeb301d0fdabe1abd6";
   "3ede82faa08b70daf950403051fddbfe700f93ec0fb757f19d9fe28eb9564da754e63c0e5ef967fb91860d04bb09dfaef79debdcfd2c6eaeb66972bfa6143c07";
   "e55e1fc9170ec3aba738106791f8a7a3153c2656111dccf1878d78459ac56df4775745849fe0dc473f33b08fcb6249a3900348c2e04e2633baef1921f9197ea1";
   "99afbba499e5ff9fab11533499242f9b49b55de7e6b85cb4e346c467fe8eed97a738606cbefc2e1b74d3e053433735bc0f0f44c47d65e8da1119a5640ddb6b97";
   "f9c5bb9f9ad3d3e6fc4d049702030100010282010100ad1f5ec2724f8a2506178f6f71a86e2aca43540dac1b20b88a08c90113be79dd6abf51c8e6bae4786d59";
   "cc2fcb9c4b79a047f0601d5de5f2f50a9f1bea471fe819991635acdb8aec0bf938406e52d6aab12662e6550a841c027be44fcb48a835b3edf84312e6679e4333";
   "65c013219ce065449ae487cfdeedeb3fe32b55bc9a09dcc911e23462bbf55d3f8ce5d764290ad882a0b99118988bf2e335c2c986a495b7ca77ec2749c753c61c";
   "58ca29be0c66900d94d460793b56a4655f4b43c92f36a22353723d226fef159981585b2bdfb0431a921ba2a6678be912f448d732a2a2fe41b0014df867ee0f99";
   "a99f55e8f42a734df8ffb0ed775691c7f8cb7cd3ec8102818100f617544717ba0e73aa4a97ba9e1da754b4e6c6b3d7358f8548509be0ab6e181e4eaa639e0249";
   "101efda8cac69b2922d0ffdc1ad6d372b1dff3e8bb803948196d0e31be3f8e7e1fe400950f4d22caf9074863e7d008a632834e31b906a2ded29129e7730c5775";
   "ac300f24eed9da1f5ee06bef6f8662a811006e7622e0340b4a5102818100d857a7f5325bf86d076edfaca721feb4ca40a9b5da4055db40249115105226e2890c";
   "96b9e58ab3ee5b55a5b9479a032215b1a9fb49b67105594bd66931e91ec07f6e98d2dc227a5a49ea35ba5add0212729575bb0f15f84b73fcadbf7ed8f2673168";
   "9ea73e26e779dfae3115d2253ac463f606672bcdd672e8ba105c407abe67028181009cd3cf34a32d41ea7a3aa1291f7c9c57821593c9a63b8ee40c6aba7bda24";
   "0620c25719b6e793f23f1dbe04c3bebbdf613bbce429c584d1507c5af3aaca566545b78701cbf51df16ad6e827612bec17f9892b89de6cb4a57a4249b3b543f4";
   "2652b656b65dc61aca89b20d025e390046f15437b965f5d74f466c1ec3290861ad910281807262ae58535f1353ba5962042c7e29e8b7034777f2448fe093e281";
   "9f2c78f33c5590056596bb2675816f20677d372e2ee85f7e6b71c6f7ad0750b4b5fc00b114c08bde5ba6aec81852fa759be98cef1a87e104557a1d78a1945ae6";
   "16d8dfa612efa9cc30cb08d0dcbc6aa26352300309717cd457da6e43d38fbf49052dc6784302818017985213d3bf50a241e326b5b3fd46a81146eb3645c1ffcb";
   "ca880e19192cccb65de350f41d5eb55f7b4a1f78a8aa090b387f84b47581230afeff3888a35792f6e268ff675438abef92e4e92c28b3cf01dde05f80186d1720";
   "3d2e2b50a975a0393f79837408d602fc3615f6c02feb9957f1bdf91d886f5c849562dc3042effe62"].

Definition DispatchPrivKey3 : list byte := hex_lines
  ["308204a40201000282010100d3633523557f62fc4034ebcb157f11ec3f00b78d08953ec70d6a405b7b7eb40810eecaa309e60ec625ea39a6b0da42613371d3e6";
   "7665978f149b2915ab8e50d39279ee785d4ac1972c9b21b4b71383d962304a16eb50635598bd10f3d14a7134e6d049739ee2a99c3e68471a494d1ac1fcc173c2";
   "2445debea49e622201157ee4e5b9a9e2ce11d6bd1962dc490017854d85a4df3f712461faf8344f3df5a51e49c6db74b148eaed5742e7652423d3c5a212c7965c";
   "c0cfa73f7bf6e3600172381471f09bcf4018e78ed66b32b86d63f7aa2732c68e0ca0b3a87bd581aba12e1b80ae650af32a7abc96d4b1b9dffa721760f0caa9fc";
   "86ac110d93a6f63bf2d1170d02030100010282010100b8b8fb1893802c49eef9d00bba0f3ee449f220743849e38022b2f4e67cb6ae30564bb5fc5f8c10e10b04";
   "f1b83ed79c2640c479bded3cbe02a4a92a6feb69042cbed59a94c841a986a7ce30d8311bf69e2275bc68e6dd6ad0c4168417ec8eb6fad9b0ae5f413b25a889c8";
   "aa49c8407edf8236b327b676f03d7cb18363dfba9f156492ca6805a3e4a84bf04a12bdb4d25a5103fa1a19788773220e8c989d3fa6fb5067aceee84c5d4bcbad";
   "fa33982b12aac9715cee549395cdfdf5a5e0bc42197ee6a4d7cf6484f96014a31e588590d971223c8983c3912c68bcd8cd9cbb2c69dfdafddc5eae6828cbb5bf";
   "ab770946babee7a605d490a7d64097fd584eee6abe8102818100f5c8b88b98145521a8dcf908a534d788d9bba425d33e59034f15f3871325c7cb20ae1edaba82";
   "f0315395d03416d55f386b74574f07ff1da94428463af530186e679fd0eaaa1e818c1c94ad6e33da19d7cd3dd9b920e1e9e6a98820758e5f66789d2c9e11763e";
   "cfe1a9618bd9bdd290209ef74a954f339539e2cee9850220eabd02818100dc2c7d0900abfd31c3c9de446353ae75e29af6d2f955cf205dfcc227658ee6cd37b0";
   "d8e5c2054d026b9d305629bbb3fedf5a27c417e9314bd1c8bff6f84f2684e17cbd76bcbda45866205a45913e6a9a056df2cfb1ece6bb7ec6e1f7ffb039c39be6";
   "9048353592609ec274acc513bb543a3cce42060e8ea721d8e138416fca9102818030bf1c8ae320b539b5ca0dc23f31d9c594997896dfecafaece52a63815fe1a";
   "40193d2f7566246e0afa6eee1a46a50efb9ba43964bd4b45d0ba69da73fb090cef68b1f3b7770211e37e0fa6ce028eb12d71d1608b2d106159942a2175ef44d0";
   "87ff7447ed62ac5682851b89a727d4c92d0f1a30baa838acd20c3fc964cde545690281803c867e58db366c8421ae7ccb9002911317184281fcc8fa078bced010";
   "c47a643845f6f7a9318d037e86d6cf52e06619351771513d36d58417b3b3dc11a87119c5adb6fcde87441ac9b24972876d461b47fbf61da9badfc50e05ebe672";
   "a6776b69ba91c758124887d4c7cfed0311aa3af50c8d6aa5fbc444b2ed3b11aec54e5601028181009a55abf263a4a58f765143b88a93d7c79207bf6c597ece10";
   "0dc517d654e60c0bc983da01c3b2af4221d0a9d4c834b49a562da1a0c833359200a1658b1f7f88d1c470b8733bc0b683d29715971769cbdf5a89def936673cdc";
   "6b81921c0227a1d5c1acab2d6afe5220aa2c58a4f6632b31807940f529b67f89f4f468c56ec9441e"].

Definition DispatchPrivKey4 : list byte := hex_lines
  ["308204a40201000282010100c9ac6a8cf24fe7e2279dfbf921d7d0a98fdfb52fbe9670d17b711cccd9088c44965e11d23a58c4c3d6fd0befc1b45f9f3bd4192f";
   "b67be36cb4e9e21dbec30f40a7467e5076ebef4e67c005e12a570e7dda5561abf3ef6aa41ec110b45923f3e1d859452f87286c2ccc1ee9e7716f334df308778f";
   "3e7e01e40330a3465e6b0ba5d3d1881eebe78aa57985fa1af4bc6616893cea3f34c0065e38599a37af0d32bab653ce4ae6444e2447657392363fac19d001b14a";
   "28550ab14a338c25ef49a838978eb5c039219a6ca2be93642b9700c6e0dbb260b7f62a9a80cb7de37f1f6a32d5bd83afa55b3d722e6d88b71b06d7c1e117ff41";
   "5024aad4e6f3a6743b77bb0f02030100010282010100b299adb6eaf4d6df92c4379cd75ae020fa185cc64e9bbe87d63143172af185ff4bc73d331796fb929037";
   "8335ae2f062be7791b6104d3cc81bdea0ee4d6c6ba2040c38e23c65d858dc315ec5f0ef7100f66a70c9b92a929a0f4d777eaafb2c64df12285c1e48968db775d";
   "bd39c95c786c04da2fbfbcd12ced77e1c00716a0e82b3b791041eb7b4b2451c9fa1e31ce7a4e9ce778efa4aaf92d2aeb8b0c7980cb98ffb6522140e8f56198ef";
   "4a9b405198e9b3a55fdc7cb8d8dc145fbb4b3b44550faf849ffeec4bf0a9a26bcacc1ea3497dd5328cf5668cbb0a2e70a79c7955aeca7130e86193c3c5132ed9";
   "6d7a42c67ba6d2f18c58f1f5709ca913470258c0025102818100fdab85c7ce03ed496b7ee150729e6dfa7dac7b1ec78fa91b2b7729dbbb59da8e9f8b1ec66c9a";
   "06e88741c51c84f0d595afebb90676d3ef0b1e0cc10e8d26f2c63b8297fbd79515f4d4952110f4c2edba48a46494e1732781c13b053d84118b4a7454273caf56";
   "5b793bb13d840bfad520abbd6044728c3662728d40bc2f8cc54902818100cb86a126f703fba5aada76ce9c5501c9587bf6d222d6594ce5163fa55be213a21f12";
   "09d27d47f5aa7a82b398909fd89f8820c98cca9bf9e8175c173fb463ff139a867bcc93384676639a6ef13d2c7e47c104d6c410564e46738016d8b5b83e279313";
   "70aa896b27214918c98fec57f9df74aed952bbf736edc8654912801d75970281801537081c3abd9755c198bded4578bc87eb84c6533fab6320339566b9cac46c";
   "03eb91ee03f8473576b3012c24037644d69cfce0df8a8695026003ff0d617eb56520cafe3d00bda63570a5fc3af7cd69a65fb6e7f68f985ae07e319a71979f04";
   "00391464a7ad9e524e2450e16d2eb74ea5c9d72fbae9bd923acf8bc2b33a62d28902818100a77959125f20ffea0af549de29f6294a2d6d9464c615ebd5c28cd4";
   "4295a12ad6b50a7adaa20c9cb273ad296bd9562f42d71963c05ed88a83d8f5068c7d3beba18dfe2bd0e333e38777de947c1e0286c734a56eb4575d2d7bfb7ee3";
   "4ddffa83eabcb3ba7a1a29fa41018d4c0f0a443a710deaf31989629be87e8619e307593671028180701bc56bbfb67e917f59ba1d45bdc468639edb60b5347165";
   "bdd9203736f8bca5938811a2c7ad0c99a6fbda2c889c4759bdf8ab0e0268a2eebbb4ccbecab2b196fb99a2810b1a0e2e20cda84a42969dfd1ecc2ca8bf2f9deb";
   "626a3469928044b1d6f3619ba26434cf1751a28f6f6aa7c63695e4c72cadde4dc6183ba79abb2463"].

Definition DispatchPrivKey5 : list byte := hex_lines
  ["308204a40201000282010100b096c5a7759cb22a238dd42d5674eebed6b02f69b85f12bddc5ea50a7170719a943f7f6dc4518696ba201ccaab7b26b021437b13";
   "9b21b701b38a0ce35bc2f2e42af2049a573f77a1353a894bb7a66fef4b942d7d3b16b5790b944276ad81cb1dd7a0cf1fb909e49ccddef5e786f53293841f89c7";
   "669b4ba4ec545a358162ec426ce31caa153ae9deb0d9d1dcc11ee9a521e2b5a26ec536de8dca2be0a7e5326ceee497434b144792955e12fbba1f8ad590b0ee71";
   "62a280cd2cf3f8a21141cc4989d181959d4937f8390cf0e9c7fcedbce59852533b4d893ac4dddfa1c669534901cc0c3fae7f78c96f73f23a577f393e32f5b354";
   "bfc701c3f2e324b091acb4370203010001028201003cca5a96b06d56041da33894b6fba028c03d7cc4f73c7b7632c3be2b1f2c275fa0834f79d9287b9dadcb5a";
   "3e06d469581ecb5d363da4589cd452c4e70bf2cbacf27fc847dd9b32b2a361585c618781672e6c7f506a24022afe6a768ae66615275bd0b71ce3955d4701b42c";
   "911cab9252a81c375116a8855cec2289bf7ba03356843f91c5fc86c30267ca765949774b6cb4a2cff40740dafff947e429105ac6dd027d4ee638b671a32e9f34";
   "0c4774170124f1c2ca1f9a0ef11b8b1ee74a771253c26eff8f1827c0eb8256d9b17098a00e54cfc34c0ee684320a0d58215056811c464114a1a1fb06559ddd45";
   "0544f9c367507806692b568444f1ae7cdcea92c1a902818100d7dc10508497b699e60ab1197dbc99e88c0ecbc64255a554b5b4e355af14c9f360973cc91b7cb3";
   "7175375f7e6fe7f1cd0876976c6daa71b40b4e19c7040fa86d6dd10e8f90e3d57ce198757d4347d0e3471ee0b4f6407ffe01eace7ff89cb7f5689d8ed0daccca";
   "b64db19d19294290b950aa5a304e9933548ad71cf11a5767cb02818100d16d3d3ce33f22ded1a15188f9c7db6e04919b3168f64cd2a7994fee267cd5b9ef50c6";
   "9bbb69efdce7867373e6761d59245470ea20cce9555b1b4bb3f20f9ff3e253df65dda8cecc2409a07dc61f4d504c8959e1df7d16364791ac65aa4330767f65ab";
   "fb4bc98d4f0200070e583874a0d82e2759754d2c8ac6a74bf05b00dfc502818100b9db75009ee9b203989aa419fab5251fa1582c042ca16995224ef95e913d29";
   "1530998770f105d1cb62cda69f4ae33ec2f70285268ad632c87ee36436833ca81c706d8c47f8ccf2c86fc5c1837526a4a8cc57bdca922cbf0789c70ebe08e587";
   "4efa208f132d111f89102459cb8c47102d3f532e0c61e06edde01d8f81d8d8613902818100add8225762c44c2bee941cdcb98b9fa8e9fdfc77bd8b8725ee9e23";
   "6dab614101419929e4a8643e0a7fde6a0431b0a69812c24da0ec6d6cdbbfef1e9e5737852dac18b77f15cb452ecc5379782e78597368b533797e4d959ca53855";
   "85671ab3260a86d98696d8ce866140a89acdbcbf83ad3052d5bdbbbc57cea39d33fe36f189028180706c43b1d516e81fc1fe7cfd4202217e72ab6ae09af3f484";
   "563ce81c0e9b7652c935ac3c1e5ab6716d3465c0869573972c2041365f4d9fbadfd34d7af53285c76bab36710ae7658ab8e38f3c36c3b84c00b6ea1aacff1fc7";
   "6d539c5f5de04f6e926278001c77a1ef18d626bfca808230bdcbe0be856cea5bbb6bc68b52face6a"].

(** An entry that the array does not name is NULL; there are six. *)
Definition DispatchKeys (key_id : Z) : option (list byte) :=
  match key_id with
  | 2 => Some DispatchPrivKey2 | 3 => Some DispatchPrivKey3 | 4 => Some DispatchPrivKey4 | 5 => Some DispatchPrivKey5
  | _ => None
  end.

(** ** OpenSSL *)

(** [EVP_PKEY_encrypt] is given the random bytes it draws as the number of the
    block; [encrypt_size] and [decrypt_size] answer a call without a buffer. *)
Class Openssl := {
  pkey : Type;
  decode_key : list byte -> option pkey;
  rsa_encrypt : pkey -> nat -> list byte -> option (list byte);
  rsa_decrypt : pkey -> list byte -> option (list byte);
  encrypt_size : pkey -> option Z;
  decrypt_size : pkey -> option Z;
  rsa_sign : pkey -> list byte -> option (list byte)
}.

(** Whether the contexts can be made and set up, and the files of the keys
    ([None]: [fopen] fails). *)
Record crypt_env := mkCryptEnv {
  en_decoder : bool; en_context : bool; signing_key : option (list byte); auth_key : option (list byte) }.

Section rsa.
Context {OS : Openssl}.

(** The [switch] over [key_id]. *)
Definition load_pkey (e : crypt_env) (key_id : Z) : option pkey :=
  if negb (en_decoder e) then None
  else if (2 <=? key_id) && (key_id <=? 5) then key ← DispatchKeys key_id; decode_key (ztake 1192 key)
  else if key_id =? 0 then key ← signing_key e; decode_key key
  else if key_id =? 1 then key ← auth_key e; decode_key key
  else None.

(** [memcpy] of OpenSSL to [obuf + off]. *)
Definition memcpy_out (off : Z) (bytes obuf : list byte) : option (list byte) :=
  if (0 <=? off) && (off + zlen bytes <=? zlen obuf)
  then Some (ztake off obuf ++ bytes ++ zdrop (off + zlen bytes) obuf) else None.

(** The loop over blocks of [ibs] bytes: [i] blocks are done, [ibuf] is what
    [ibuf] points to, [off] where [obuf] points.  The fuel is more than the
    input. *)
Fixpoint block_loop (crypt : nat -> list byte -> option (list byte)) (ibs : Z) (fuel i : nat) (ibuf : list byte) (ilen : Z)
    (obuf : list byte) (off olen obs : Z) : option (Z * list byte) :=
  match fuel with
  | O => None
  | S fuel =>
      if (0 <? s64 ilen) && (0 <? s64 olen) then
        let n := if ilen <? ibs then ilen else ibs in
        if zlen ibuf <? n then None
        else
          match crypt i (ztake n ibuf) with
          | None => Some (-1, obuf)
          | Some c =>
              obuf ← memcpy_out off c obuf;
              block_loop crypt ibs fuel (S i) (zdrop ibs ibuf) (u64 (ilen - ibs)) obuf (off + zlen c) (u64 (olen - zlen c)) (zlen c)
          end
      else Some (s32 (Z.of_nat i * obs), obuf)
  end.

(** A buffer that is NULL is [None]; the result is what is returned and the
    output buffer. *)
Definition with_buffers (ibuf : option (list byte)) (ilen : Z) (obuf : option (list byte)) (olen : Z)
    (k : list byte -> list byte -> option (Z * list byte)) : option (Z * list byte) :=
  match ibuf, obuf with
  | Some ib, Some ob => if (ilen =? 0) || (olen =? 0) then Some (-1, ob) else k ib ob
  | _, _ => Some (-1, default [] obuf)
  end.

Definition HyvCryptRsaEnc (e : crypt_env) (ibuf : option (list byte)) (ilen : Z) (obuf : option (list byte)) (olen key_id : Z)
    : option (Z * list byte) :=
  with_buffers ibuf ilen obuf olen (fun ib ob =>
  match load_pkey e key_id with
  | None => Some (-1, ob)
  | Some k =>
      if negb (en_context e) then Some (-1, ob)
      else match encrypt_size k with
           | None => Some (-1, ob)
           | Some obs => block_loop (rsa_encrypt k) (u64 (obs - 11)) (S (length ib)) 0 ib ilen ob 0 olen obs
           end
  end).

Definition HyvCryptRsaDec (e : crypt_env) (ibuf : option (list byte)) (ilen : Z) (obuf : option (list byte)) (olen key_id : Z)
    : option (Z * list byte) :=
  with_buffers ibuf ilen obuf olen (fun ib ob =>
  match load_pkey e key_id with
  | None => Some (-1, ob)
  | Some k =>
      if negb (en_context e) then Some (-1, ob)
      else match decrypt_size k with
           | None => Some (-1, ob)
           | Some obs => block_loop (fun _ => rsa_decrypt k) (u64 (obs + 11)) (S (length ib)) 0 ib ilen ob 0 olen obs
           end
  end).

(** [EVP_DigestSign] is told the room and fails when there is too little. *)
Definition HyvCryptRsaSign (e : crypt_env) (ibuf : option (list byte)) (ilen : Z) (obuf : option (list byte)) (olen : Z)
    : option (Z * list byte) :=
  with_buffers ibuf ilen obuf olen (fun ib ob =>
  match (if en_decoder e then key ← signing_key e; decode_key key else None) with
  | None => Some (-1, ob)
  | Some k =>
      if negb (en_context e) then Some (-1, ob)
      else if zlen ib <? ilen then None
      else match rsa_sign k (ztake ilen ib) with
           | None => Some (-1, ob)
           | Some s => if olen <? zlen s then Some (-1, ob) else ob ← memcpy_out 0 s ob; Some (s32 (zlen s), ob)
           end
  end).
End rsa.

(** * RSA: theorems *)

(** ** The keys are RSA keys

    The DER encoding of an [RSAPrivateKey] (RFC 8017): a sequence of the
    integers 0, n, e, d, p, q, d mod (p - 1), d mod (q - 1), the inverse of q
    modulo p. *)
Definition der_length (s : list byte) : option (Z * list byte) :=
  match s with
  | c :: s =>
      if bz c <? 128 then Some (bz c, s)
      else let n := bz c - 128 in if zlen s <? n then None else Some (be_dec (ztake n s), zdrop n s)
  | [] => None
  end.

(** A value with a tag, and what follows it. *)
Definition der_value (tag : Z) (s : list byte) : option (list byte * list byte) :=
  match s with
  | c :: s =>
      if bz c =? tag then '(n, s) ← der_length s; if zlen s <? n then None else Some (ztake n s, zdrop n s) else None
  | [] => None
  end.

Fixpoint der_integers (n : nat) (s : list byte) : option (list Z) :=
  match n with
  | O => match s with [] => Some [] | _ => None end
  | S n => '(v, s) ← der_value 2 s; cons (be_dec v) <$> der_integers n s
  end.

Definition private_key (s : list byte) : option (list Z) :=
  '(v, rest) ← der_value 48 s; match rest with [] => der_integers 9 v | _ => None end.

(** The modulus has [bits] bits and the exponents invert each other. *)
Definition rsa_key_ok (bits : Z) (l : list Z) : bool :=
  match l with
  | [version; n; e; d; p; q; dp; dq; qinv] =>
      (version =? 0) && (n =? p * q) && (2 ^ (bits - 1) <=? n) && (n <? 2 ^ bits) && (1 <? p) && (1 <? q) &&
      ((e * d) mod (p - 1) =? 1) && ((e * d) mod (q - 1) =? 1) && (dp =? d mod (p - 1)) && (dq =? d mod (q - 1)) &&
      ((q * qinv) mod p =? 1)
  | _ => false
  end.

(** Bytes of the modulus. *)
Definition key_bytes (s : list byte) : option Z :=
  match private_key s with Some (_ :: n :: _) => Some (Z.log2 n / 8 + 1) | _ => None end.

Lemma dispatch_keys_valid id :
  2 <= id <= 5 -> exists key l, DispatchKeys id = Some key /\ zlen key = 1192 /\ private_key key = Some l /\
    rsa_key_ok 2048 l = true /\ key_bytes key = Some 256.
Proof.
  intros H. assert (id = 2 \/ id = 3 \/ id = 4 \/ id = 5) as Hc by lia.
  destruct Hc as [-> | [-> | [-> | ->] ] ]; eexists _, _; (split; [reflexivity|]); (split; [vm_compute; reflexivity|]);
    (split; [vm_compute; reflexivity|]); split; vm_compute; reflexivity.
Qed.

(** ** The loop over blocks *)

(** The pieces of [n] bytes of a message, the last one shorter. *)
Fixpoint pieces_of (fuel : nat) (n : Z) (m : list byte) : list (list byte) :=
  match fuel, m with
  | S fuel, _ :: _ => ztake n m :: pieces_of fuel n (zdrop n m)
  | _, _ => []
  end.

Definition pieces (n : Z) (m : list byte) : list (list byte) := pieces_of (length m) n m.

Lemma pieces_fuel f1 f2 n m : 0 < n -> (length m <= f1)%nat -> (length m <= f2)%nat -> pieces_of f1 n m = pieces_of f2 n m.
Proof.
  intros Hn. revert f2 m. induction f1 as [|f1 IH]; intros [|f2] [|c m] H1 H2; cbn [length] in *; try reflexivity; try lia.
  cbn [pieces_of]. f_equal. apply IH; rewrite length_drop; cbn [length]; lia.
Qed.

Lemma pieces_cons n m : 0 < n -> m <> [] -> pieces n m = ztake n m :: pieces n (zdrop n m).
Proof.
  intros Hn Hm. destruct m as [|c m]; [contradiction|]. unfold pieces at 1. cbn [length pieces_of]. f_equal.
  apply pieces_fuel; rewrite ?length_drop; cbn [length]; lia.
Qed.

Lemma pieces_concat n m : 0 < n -> concat (pieces n m) = m.
Proof.
  intros Hn. remember (length m) as k eqn:E. revert m E. induction k as [k IH] using lt_wf_ind. intros m ->.
  destruct m as [|c m]; [reflexivity|]. rewrite pieces_cons by (lia || discriminate). cbn [concat].
  rewrite (IH (length (zdrop n (c :: m)))); [apply take_drop|rewrite length_drop; cbn [length]; lia|reflexivity].
Qed.

Lemma pieces_of_concat n cs : 0 < n -> Forall (fun c => zlen c = n) cs -> pieces n (concat cs) = cs.
Proof.
  intros Hn H. induction H as [|c cs Hc Hcs IH]; [reflexivity|]. cbn [concat].
  rewrite pieces_cons by (first [lia|destruct c; [cbn in Hc; lia|discriminate]]).
  rewrite take_app_all, drop_app_all, IH by lia. reflexivity.
Qed.

Lemma length_pieces n m : 0 < n -> zlen (pieces n m) = (zlen m + n - 1) / n.
Proof.
  intros Hn. remember (length m) as k eqn:E. revert m E. induction k as [k IH] using lt_wf_ind. intros m ->.
  destruct m as [|c m]; [cbn; rewrite Z.div_small; lia|]. rewrite pieces_cons by (lia || discriminate). cbn [length].
  rewrite Nat2Z.inj_succ, (IH (length (zdrop n (c :: m)))) by (reflexivity || (rewrite length_drop; cbn [length]; lia)).
  rewrite length_drop. cbn [length]. destruct (Z.le_gt_cases (Z.of_nat (S (length m))) n) as [Hle|Hgt].
  - replace (Z.of_nat (S (length m) - Z.to_nat n) + n - 1) with (n - 1) by lia.
    rewrite (Z.div_small (n - 1)) by lia. apply (Z.div_unique_pos _ _ (Z.succ 0) (Z.of_nat (S (length m)) - 1)); lia.
  - replace (Z.of_nat (S (length m)) + n - 1) with (Z.of_nat (S (length m) - Z.to_nat n) + n - 1 + 1 * n) by lia.
    rewrite Z.div_add by lia. lia.
Qed.

Lemma store_then off (c obuf : list byte) x :
  0 <= off -> off + zlen c <= zlen obuf -> 0 <= x ->
  ztake (off + zlen c) (ztake off obuf ++ c ++ zdrop (off + zlen c) obuf) = ztake off obuf ++ c /\
  zdrop (off + zlen c + x) (ztake off obuf ++ c ++ zdrop (off + zlen c) obuf) = zdrop (off + zlen c + x) obuf.
Proof.
  intros H1 H2 H3. assert (Z.to_nat (off + zlen c) = length (ztake off obuf ++ c)) as E by (rewrite length_app, length_take; lia).
  rewrite app_assoc. split; [apply take_app_all, E|]. replace (Z.to_nat (off + zlen c + x)) with (Z.to_nat (off + zlen c) + Z.to_nat x)%nat by lia.
  rewrite <- !drop_drop, (drop_app_all _ _ _ E). reflexivity.
Qed.

Section blocks.
Variable crypt : nat -> list byte -> option (list byte).
Variables ibs bs : Z.
Hypothesis ibs_pos : 0 < ibs < 2 ^ 63.
Hypothesis bs_pos : 0 < bs.

(** The blocks, the first of them the [i]th. *)
Fixpoint crypt_all (i : nat) (ps : list (list byte)) : option (list (list byte)) :=
  match ps with [] => Some [] | p :: ps => c ← crypt i p; cons c <$> crypt_all (S i) ps end.

Lemma s64_id x : 0 <= x < 2 ^ 63 -> s64 x = x.
Proof. intros H. apply swrap_id; zpow; lia. Qed.

Lemma s64_negative x : - 2 ^ 63 <= x <= 0 -> (0 <? s64 (u64 x)) = false.
Proof.
  intros H. apply Z.ltb_ge. unfold wrap. rewrite (swrap_congr 64 _ x) by (apply Zmod_mod). rewrite swrap_id; zpow; lia.
Qed.

(** As long as there is room, the blocks are stored one after the other. *)
Lemma block_loop_ok fuel m i obuf off obs :
  m <> [] -> (length m < fuel)%nat -> zlen m < 2 ^ 63 -> zlen obuf < 2 ^ 63 -> 0 <= off ->
  Forall (fun p => forall j, exists c, crypt j p = Some c /\ zlen c = bs) (pieces ibs m) ->
  off + zlen (pieces ibs m) * bs <= zlen obuf ->
  exists cs, crypt_all i (pieces ibs m) = Some cs /\ length cs = length (pieces ibs m) /\
    block_loop crypt ibs fuel i m (zlen m) obuf off (zlen obuf - off) obs =
      Some (s32 ((Z.of_nat i + zlen cs) * bs), ztake off obuf ++ concat cs ++ zdrop (off + zlen cs * bs) obuf).
Proof.
  revert m i obuf off obs. induction fuel as [|fuel IH]; intros m i obuf off obs Hm Hf Hl Ho Hoff Hc Hr; [lia|].
  rewrite pieces_cons in * by (lia || exact Hm). set (r := zdrop ibs m) in *. apply Forall_cons in Hc as [Hc Hcs].
  destruct (Hc i) as (c & Ec & Lc). cbn [length] in Hr. rewrite Nat2Z.inj_succ in Hr.
  assert (0 < zlen m) as Hpos by (destruct m; [contradiction|cbn; lia]). pose proof (Zle_0_nat (length (pieces ibs r))).
  cbn [block_loop]. rewrite !s64_id by (split; [lia|]; nia). rewrite (proj2 (Z.ltb_lt 0 (zlen m))) by lia.
  rewrite (proj2 (Z.ltb_lt 0 (zlen obuf - off))) by nia. cbn [andb]. cbv zeta.
  set (n := if zlen m <? ibs then zlen m else ibs).
  assert (ztake n m = ztake ibs m) as ->.
  { unfold n. destruct (Z.ltb_spec (zlen m) ibs); [|reflexivity]. rewrite !take_ge by lia. reflexivity. }
  rewrite (proj2 (Z.ltb_ge (zlen m) n)) by (unfold n; destruct (Z.ltb_spec (zlen m) ibs); lia). rewrite Ec.
  unfold memcpy_out. rewrite (proj2 (Z.leb_le 0 off)), (proj2 (Z.leb_le (off + zlen c) (zlen obuf))) by nia. cbn [andb mbind option_bind].
  set (ob := ztake off obuf ++ c ++ zdrop (off + zlen c) obuf).
  assert (zlen ob = zlen obuf) as Lob by (unfold ob; rewrite !length_app, length_take, length_drop; nia).
  assert (wrap 64 (zlen obuf - off - zlen c) = zlen ob - (off + zlen c)) as -> by (rewrite Lob; rewrite wrap_id by (unfold in_u; zpow; nia); lia).
  destruct (decide (r = [])) as [Er|Hne].
  - exists [c]. rewrite Er. cbn [crypt_all pieces pieces_of length]. rewrite Ec. cbn [mbind option_bind fmap option_map option_fmap].
    split; [reflexivity|]. split; [reflexivity|]. assert (zlen m <= ibs) as Hle.
    { unfold r in Er. apply (f_equal length) in Er. rewrite length_drop in Er. cbn in Er. lia. }
    destruct fuel as [|fuel]; [lia|]. cbn [block_loop]. rewrite s64_negative by (zpow; lia). cbn [andb].
    f_equal. f_equal; [f_equal; lia|]. unfold ob. cbn [concat]. rewrite app_nil_r, Lc. do 3 f_equal. lia.
  - assert (ibs < zlen m) as Hlt. { destruct (Z.le_gt_cases (zlen m) ibs) as [Hle|]; [|lia]. destruct Hne. apply drop_ge. lia. }
    assert (zlen r = zlen m - ibs) as Lr by (unfold r; rewrite length_drop; lia).
    fold r. replace (wrap 64 (zlen m - ibs)) with (zlen r) by (rewrite Lr, wrap_id; [lia|unfold in_u; zpow; lia]).
    destruct (IH r (S i) ob (off + zlen c) (zlen c) Hne ltac:(lia) ltac:(lia) ltac:(lia) ltac:(lia) Hcs ltac:(nia)) as (cs & E & L & ->).
    exists (c :: cs). cbn [crypt_all]. rewrite Ec. cbn [mbind option_bind]. rewrite E. cbn [length]. split; [reflexivity|]. split; [lia|].
    f_equal. f_equal; [f_equal; lia|]. unfold ob. cbn [concat].
    destruct (store_then off c obuf (zlen cs * bs)) as [-> ->]; [lia|nia|nia|].
    rewrite <- !app_assoc. do 4 f_equal. lia.
Qed.
End blocks.

(** ** Encryption *)

(** What is documented of OpenSSL, with PKCS #1 padding: the sizes, what can be
    encrypted, that it can be decrypted, and that nothing longer than the
    modulus can; a key that was decoded has the modulus that was encoded. *)
Class OpensslLaws (OS : Openssl) := {
  rsa_size : pkey -> Z;
  rsa_size_key : forall b k n, decode_key b = Some k -> key_bytes b = Some n -> rsa_size k = n;
  rsa_sizes : forall k, encrypt_size k = Some (rsa_size k) /\ decrypt_size k = Some (rsa_size k);
  rsa_round : forall k i m, zlen m <= rsa_size k - 11 ->
    exists c, rsa_encrypt k i m = Some c /\ zlen c = rsa_size k /\ rsa_decrypt k c = Some m;
  rsa_too_long : forall k c, rsa_size k < zlen c -> rsa_decrypt k c = None;
  rsa_decodes : forall b l, private_key b = Some l -> rsa_key_ok 2048 l = true -> exists k, decode_key b = Some k
}.

Section rsa_laws.
Context {OS : Openssl} {OL : OpensslLaws OS}.

(** Decrypting as the owner of the key does, one block after the other. *)
Fixpoint decrypt_all (k : pkey) (cs : list (list byte)) : option (list byte) :=
  match cs with [] => Some [] | c :: cs => m ← rsa_decrypt k c; app m <$> decrypt_all k cs end.

Definition owner_decrypt (k : pkey) (c : list byte) : option (list byte) := decrypt_all k (pieces (rsa_size k) c).

Lemma dispatch_key_loads e id : 2 <= id <= 5 -> en_decoder e = true -> exists k, load_pkey e id = Some k /\ rsa_size k = 256.
Proof.
  intros Hid He. destruct (dispatch_keys_valid id Hid) as (key & l & Ek & Lk & Ep & Ok & Eb).
  destruct (rsa_decodes key l Ep Ok) as [k Hk]. exists k. split; [|exact (rsa_size_key _ _ _ Hk Eb)].
  unfold load_pkey. rewrite He, (proj2 (Z.leb_le 2 id)), (proj2 (Z.leb_le id 5)) by lia. cbn [negb andb]. rewrite Ek.
  cbn [mbind option_bind]. rewrite take_ge by lia. exact Hk.
Qed.

Lemma pieces_small n m : 0 < n -> Forall (fun p => zlen p <= n) (pieces n m).
Proof.
  intros Hn. remember (length m) as k eqn:E. revert m E. induction k as [k IH] using lt_wf_ind. intros m ->.
  destruct m as [|c m]; [constructor|]. rewrite pieces_cons by (lia || discriminate). constructor; [rewrite length_take; lia|].
  apply (IH (length (zdrop n (c :: m)))); [rewrite length_drop; cbn [length]; lia|reflexivity].
Qed.

Lemma crypt_all_decrypts k i ps cs :
  Forall (fun p => zlen p <= rsa_size k - 11) ps -> crypt_all (rsa_encrypt k) i ps = Some cs ->
  Forall (fun c => zlen c = rsa_size k) cs /\ decrypt_all k cs = Some (concat ps).
Proof.
  intros Hp. revert i cs. induction Hp as [|p ps Hp Hps IH]; intros i cs E; [injection E as <-; split; [constructor|reflexivity]|].
  cbn [crypt_all] in E. destruct (rsa_round k i p Hp) as (c & Ec & Lc & Dc). rewrite Ec in E. cbn [mbind option_bind] in E.
  destruct (crypt_all _ (S i) ps) as [cs'|] eqn:E2; [|discriminate E]. injection E as <-. destruct (IH _ _ E2) as [L D].
  split; [constructor; assumption|]. cbn [decrypt_all]. rewrite Dc. cbn [mbind option_bind]. rewrite D. reflexivity.
Qed.

(** How long the encryption of [n] bytes is. *)
Definition enc_len (bs n : Z) : Z := (n + (bs - 11) - 1) / (bs - 11) * bs.

Lemma enc_blocks e id k m obuf :
  load_pkey e id = Some k -> en_context e = true -> m <> [] -> 11 < rsa_size k < 2 ^ 63 -> zlen m < 2 ^ 63 -> zlen obuf < 2 ^ 31 ->
  enc_len (rsa_size k) (zlen m) <= zlen obuf ->
  exists out, HyvCryptRsaEnc e (Some m) (zlen m) (Some obuf) (zlen obuf) id = Some (enc_len (rsa_size k) (zlen m), out) /\
    zlen out = zlen obuf /\ owner_decrypt k (ztake (enc_len (rsa_size k) (zlen m)) out) = Some m.
Proof.
  intros Ek He Hm Hs Hl Ho Hr. assert (0 < rsa_size k - 11) as Hib by lia.
  assert (0 < rsa_size k - 11 < 2 ^ 63) as Hib2 by (zpow; lia). assert (0 < rsa_size k) as Hbs by lia. pose proof (length_pieces (rsa_size k - 11) m Hib) as Lp.
  set (ps := pieces (rsa_size k - 11) m) in *. pose proof (pieces_small (rsa_size k - 11) m Hib) as Hsm.
  unfold enc_len in *. rewrite <- Lp in *.
  assert (m <> [] -> ps <> []) as Hps. { intros _ E. unfold ps in E. rewrite pieces_cons in E by (lia || exact Hm). discriminate E. }
  specialize (Hps Hm). assert (1 <= zlen ps) by (destruct ps; [contradiction|cbn; lia]).
  assert (0 < zlen obuf) by nia. assert (0 < zlen m) by (destruct m; [contradiction|cbn; lia]).
  unfold HyvCryptRsaEnc, with_buffers. rewrite (proj2 (Z.eqb_neq (zlen m) 0)), (proj2 (Z.eqb_neq (zlen obuf) 0)) by lia. cbn [orb].
  rewrite Ek, He. cbn [negb]. rewrite (proj1 (rsa_sizes k)). rewrite wrap_id by (unfold in_u; zpow; lia).
  destruct (block_loop_ok (rsa_encrypt k) (rsa_size k - 11) (rsa_size k) Hib2 Hbs (S (length m)) m 0 obuf 0 (rsa_size k))
    as (cs & Ec & Lc & E); [exact Hm|lia|exact Hl|zpow; lia|lia| |fold ps; lia|].
  { fold ps. eapply Forall_impl; [exact Hsm|]. intros p Hp j. destruct (rsa_round k j p Hp) as (c & Hc & Lc & _). eauto. }
  fold ps in Ec, Lc. rewrite Z.sub_0_r in E. rewrite E. destruct (crypt_all_decrypts k 0 ps cs Hsm Ec) as [Lcs Dcs].
  assert (zlen (concat cs) = zlen cs * rsa_size k) as Lcc.
  { clear -Lcs. induction Lcs as [|c cs Hc Hcs IH]; [reflexivity|]. cbn [concat length]. rewrite length_app. lia. }
  eexists. split; [f_equal; f_equal; rewrite Lc, swrap_id; [lia|lia|zpow; lia]|].
  change (ztake 0 obuf) with (@nil byte). rewrite Z.add_0_l, app_nil_l. split; [rewrite length_app, length_drop; lia|].
  rewrite take_app_all by lia. unfold owner_decrypt. rewrite pieces_of_concat by (lia || exact Lcs). rewrite Dcs.
  unfold ps. rewrite pieces_concat by lia. reflexivity.
Qed.

(** What the server encrypts with a dispatch key fits a buffer of twice the
    message's size rounded up to 256 bytes, and its owner decrypts it, block by
    block, to the message. *)
Theorem rsa_encryption_roundtrip e id m :
  2 <= id <= 5 -> en_decoder e = true -> en_context e = true -> m <> [] -> zlen m < 2 ^ 29 ->
  exists k, load_pkey e id = Some k /\
    forall obuf, zlen obuf = (zlen m / 256 + 1) * 256 * 2 ->
    exists n out, HyvCryptRsaEnc e (Some m) (zlen m) (Some obuf) (zlen obuf) id = Some (n, out) /\
      0 < n <= zlen obuf /\ zlen out = zlen obuf /\ owner_decrypt k (ztake n out) = Some m.
Proof.
  intros Hid Hd Hc Hm Hl. destruct (dispatch_key_loads e id Hid Hd) as (k & Ek & Es). exists k. split; [exact Ek|].
  intros obuf Ho. assert (0 < zlen m) by (destruct m; [contradiction|cbn; lia]).
  assert (0 < enc_len 256 (zlen m) <= zlen obuf) as Hr by (unfold enc_len; rewrite Ho; Z.div_mod_to_equations; lia).
  destruct (enc_blocks e id k m obuf Ek Hc Hm) as (out & E & L & D); rewrite ?Es in *; [zpow; lia|zpow; lia| |exact (proj2 Hr)|].
  - rewrite Ho. Z.div_mod_to_equations. zpow. lia.
  - exists (enc_len 256 (zlen m)), out. auto.
Qed.

(** Decrypting undoes it for a message of one block only.  The block size
    is taken for the plain size, so what is longer than the modulus is refused. *)
Theorem rsa_decryption_one_block e id k c obuf :
  load_pkey e id = Some k -> en_context e = true -> 11 < rsa_size k < 2 ^ 62 -> zlen c < 2 ^ 63 -> rsa_size k <= zlen obuf < 2 ^ 31 ->
  (forall m i, 0 < zlen m <= rsa_size k - 11 -> rsa_encrypt k i m = Some c ->
    exists out, HyvCryptRsaDec e (Some c) (zlen c) (Some obuf) (zlen obuf) id = Some (zlen m, out) /\ ztake (zlen m) out = m) /\
  (rsa_size k < zlen c -> HyvCryptRsaDec e (Some c) (zlen c) (Some obuf) (zlen obuf) id = Some (-1, obuf)).
Proof.
  intros Ek He Hs Hc Ho. assert (0 < zlen c -> zlen obuf <> 0 /\ zlen c <> 0) as Hne by lia.
  unfold HyvCryptRsaDec, with_buffers. rewrite Ek, He, (proj2 (rsa_sizes k)). cbn [negb]. rewrite wrap_id by (unfold in_u; zpow; lia).
  split.
  - intros m i Hm E. assert (zlen m <= rsa_size k - 11) as Hm' by lia. destruct (rsa_round k i m Hm') as (c' & E' & Lc & Dc). rewrite E in E'. injection E' as <-.
    rewrite (proj2 (Z.eqb_neq (zlen c) 0)), (proj2 (Z.eqb_neq (zlen obuf) 0)) by lia. cbn [orb block_loop].
    rewrite !s64_id by (zpow; lia). rewrite (proj2 (Z.ltb_lt 0 (zlen c))), (proj2 (Z.ltb_lt 0 (zlen obuf))) by lia. cbn [andb]. cbv zeta.
    rewrite (proj2 (Z.ltb_lt (zlen c) (rsa_size k + 11))), Z.ltb_irrefl by lia. rewrite take_ge by lia. rewrite Dc.
    unfold memcpy_out. rewrite (proj2 (Z.leb_le (0 + zlen m) (zlen obuf))) by lia. cbn [andb Z.leb Z.compare mbind option_bind].
    destruct (length c) as [|n] eqn:En; [lia|]. cbn [block_loop]. rewrite s64_negative by (zpow; lia). cbn [andb].
    eexists. split; [f_equal; f_equal; rewrite swrap_id; [lia|lia|zpow; lia]|]. change (ztake 0 obuf) with (@nil byte). rewrite app_nil_l. apply take_app_all. lia.
  - intros Hl. rewrite (proj2 (Z.eqb_neq (zlen c) 0)), (proj2 (Z.eqb_neq (zlen obuf) 0)) by lia. cbn [orb block_loop].
    rewrite !s64_id by (zpow; lia). rewrite (proj2 (Z.ltb_lt 0 (zlen c))), (proj2 (Z.ltb_lt 0 (zlen obuf))) by lia. cbn [andb]. cbv zeta.
    set (n := if zlen c <? rsa_size k + 11 then zlen c else rsa_size k + 11).
    rewrite (proj2 (Z.ltb_ge (zlen c) n)) by (unfold n; destruct (Z.ltb_spec (zlen c) (rsa_size k + 11)); lia).
    rewrite rsa_too_long; [reflexivity|]. rewrite length_take. unfold n. destruct (Z.ltb_spec (zlen c) (rsa_size k + 11)); lia.
Qed.
End rsa_laws.

(** ** A concrete library

    A block holds its length, the message and zeros. *)
Definition toy_block (m : list byte) : list byte := zb (zlen m) :: m ++ replicate (255 - length m) Byte.x00.

#[local] Instance toy_ssl : Openssl := {|
  pkey := unit;
  decode_key b := l ← private_key b; if rsa_key_ok 2048 l then Some tt else None;
  rsa_encrypt _ _ m := if zlen m <=? 245 then Some (toy_block m) else None;
  rsa_decrypt _ c := if zlen c =? 256 then match c with b :: c => Some (ztake (bz b) c) | [] => None end else None;
  encrypt_size _ := Some 256; decrypt_size _ := Some 256;
  rsa_sign _ m := Some m |}.

Lemma key_ok_bytes l : rsa_key_ok 2048 l = true -> exists v n r, l = v :: n :: r /\ Z.log2 n / 8 + 1 = 256.
Proof.
  unfold rsa_key_ok. do 9 (destruct l as [|? l]; [discriminate|]). destruct l; [|discriminate]. intros H.
  repeat (apply andb_true_iff in H as [H ?]). eexists _, _, _. split; [reflexivity|].
  rewrite (Z.log2_unique z0 2047); [reflexivity|lia|]. change (Z.succ 2047) with 2048. change (2048 - 1) with 2047 in *. lia.
Qed.

#[local] Instance toy_ssl_laws : OpensslLaws toy_ssl.
Proof.
  refine {| rsa_size _ := 256 |}.
  - intros b k n Hk Hb. cbn in Hk. unfold key_bytes in Hb. destruct (private_key b) as [l|]; [|discriminate]. cbn in Hk.
    destruct (rsa_key_ok 2048 l) eqn:E; [|discriminate]. destruct (key_ok_bytes l E) as (v & n' & r & -> & En). injection Hb as <-.
    rewrite En. reflexivity.
  - intros k. split; reflexivity.
  - intros k i m Hm. exists (toy_block m). change (256 - 11) with 245 in Hm. cbn. rewrite (proj2 (Z.leb_le _ _) Hm). split; [reflexivity|].
    assert (zlen (toy_block m) = 256) as L by (unfold toy_block; cbn [length]; rewrite length_app, length_replicate; lia).
    split; [exact L|]. unfold toy_block in *. cbn [length] in L. rewrite L. cbn [Z.eqb]. rewrite bz_zb, wrap_id by (unfold in_u; zpow; lia).
    f_equal. apply take_app_all. lia.
  - intros k c H. cbn. destruct (Z.eqb_spec (zlen c) 256); [lia|reflexivity].
  - intros b l Hb Hl. exists tt. cbn. rewrite Hb. cbn. rewrite Hl. reflexivity.
Defined.

Definition ex_crypt : crypt_env := mkCryptEnv true true None None.

Lemma rsa_encryption_roundtrip_witness :
  exists k n out, HyvCryptRsaEnc ex_crypt (Some (bytes_of "region")) 6 (Some (replicate (Z.to_nat 512) Byte.x00)) 512 2 = Some (n, out) /\
    owner_decrypt k (ztake n out) = Some (bytes_of "region").
Proof.
  destruct (rsa_encryption_roundtrip ex_crypt 2 (bytes_of "region")) as (k & _ & H); [lia|reflexivity|reflexivity|discriminate|reflexivity|].
  assert (zlen (replicate (Z.to_nat 512) Byte.x00) = 512) as L by (rewrite length_replicate; reflexivity).
  destruct (H (replicate (Z.to_nat 512) Byte.x00) L) as (n & out & E & _ & _ & D). rewrite L in E. exists k, n, out. split; assumption.
Defined.

Definition ex_rsa_out : list byte := replicate (Z.to_nat 256) Byte.x00.

Lemma ex_rsa_out_size : zlen ex_rsa_out = 256.
Proof. unfold ex_rsa_out. rewrite length_replicate. reflexivity. Qed.

Lemma ex_key_loads : load_pkey ex_crypt 3 = Some (tt : @pkey toy_ssl).
Proof. vm_compute. reflexivity. Qed.

Lemma rsa_decryption_one_block_witness :
  exists out, HyvCryptRsaDec ex_crypt (Some (toy_block (bytes_of "region"))) 256 (Some ex_rsa_out) 256 3 = Some (6, out) /\
    ztake 6 out = bytes_of "region".
Proof.
  destruct (rsa_decryption_one_block ex_crypt 3 (tt : @pkey toy_ssl) (toy_block (bytes_of "region")) ex_rsa_out ex_key_loads eq_refl) as [H _].
  - split; reflexivity.
  - reflexivity.
  - rewrite ex_rsa_out_size. split; [discriminate|reflexivity].
  - destruct (H (bytes_of "region") 0%nat) as (out & E & T); [split; [reflexivity|discriminate]|reflexivity|].
    rewrite ex_rsa_out_size in E. exists out. split; [exact E|exact T].
Defined.
