(* ===== verification/Dispatch.v ===== *)
(** * The dispatch server

    The rest of src/dispatch.cpp: the answers to query_region_list and
    query_cur_region, and [DispatchServerMain] for one connection after the
    other: the routing of a request, the handler it gets and the reply, which is
    formatted into the buffer that the next request is received in.  The seeds
    that the two region handlers keep in static variables are in the state.
    A connection is what [recv] and [send] give. *)

From Stdlib Require Import Strings.String.
From S2P Require Import Prelude Http HttpProps DispatchRead TomlText TomlValue RunConfig Util Ec2b Packet Crypt.
From S2P Require Import Messages Account DbGate PlayerDb Handlers Sdk.

#[local] Open Scope list_scope.

(** ** The messages of src/proto/define.proto *)

Record RegionSimpleInfo := mkSimpleInfo {
  si_name : list byte; si_title : list byte; si_type : list byte; si_dispatch_url : list byte }.

Record QueryRegionListHttpRsp := mkRegionList {
  ql_retcode : Z; ql_region_list : list RegionSimpleInfo; ql_client_secret_key : list byte;
  ql_client_custom_config_encrypted : list byte; ql_enable_login_pc : bool }.

Record ForceUpdateInfo := mkForceUpdate { fu_force_update_url : list byte }.

Record StopServerInfo := mkStopInfo {
  ss_stop_begin_time : Z; ss_stop_end_time : Z; ss_url : list byte; ss_content_msg : list byte }.

Record pb_RegionInfo := mkPbRegion {
  ri_gateserver_ip : list byte; ri_gateserver_port : Z; ri_pay_callback_url : list byte; ri_resource_url : list byte;
  ri_data_url : list byte; ri_feedback_url : list byte; ri_bulletin_url : list byte; ri_client_data_version : Z;
  ri_handbook_url : list byte; ri_client_silence_data_version : Z; ri_client_data_md5 : list byte;
  ri_client_silence_data_md5 : list byte; ri_res_version_config : option pb_ResVersionConfig; ri_secret_key : list byte;
  ri_official_community_url : list byte; ri_client_version_suffix : list byte; ri_client_silence_version_suffix : list byte;
  ri_use_gateserver_domain_name : bool; ri_gateserver_domain_name : list byte; ri_user_center_url : list byte;
  ri_account_bind_url : list byte; ri_cdkey_url : list byte; ri_privacy_policy_url : list byte;
  ri_next_resource_url : list byte; ri_next_res_version_config : option pb_ResVersionConfig }.

(** The [oneof]. *)
Inductive region_detail := no_detail | force_update (f : ForceUpdateInfo) | stop_server (s : StopServerInfo).

Record QueryCurrRegionHttpRsp := mkCurrRegion {
  qc_retcode : Z; qc_msg : list byte; qc_region_info : option pb_RegionInfo; qc_client_secret_key : list byte;
  qc_detail : region_detail }.

(** ** Numbers as text: [%d] and [%03d] *)

Fixpoint dec_digits (fuel : nat) (n : Z) (acc : list byte) : list byte :=
  match fuel with
  | O => acc
  | S fuel =>
      let acc := zb (48 + n mod 10) :: acc in
      if n <? 10 then acc else dec_digits fuel (n / 10) acc
  end.

(** Twenty digits are enough for 64 bits. *)
Definition dec (n : Z) : list byte := if n <? 0 then zb 45 :: dec_digits 20 (- n) [] else dec_digits 20 n [].

Definition dec3 (n : Z) : list byte := let s := dec n in replicate (3 - length s) (zb 48) ++ s.

(** ** The version of a client *)

(** [%d]: blanks, a sign and digits; the value is cut to 64 and then to 32
    bits. *)
Definition scan_int (s : list byte) : option (Z * list byte) :=
  let s := skip_c_space s in
  let neg := hd0 s =? 45 in
  let s := if neg || (hd0 s =? 43) then tl s else s in
  let '(v, n, s) := strto_digits 10 s 0 0 in
  match n with
  | O => None
  | _ => Some (u32 (Z.max (- 2 ^ 63) (Z.min (2 ^ 63 - 1) (if neg then - v else v))), s)
  end.

(** A literal of the format. *)
Fixpoint scan_text (text s : list byte) : option (list byte) :=
  match text with
  | [] => Some s
  | c :: text => if hd0 s =? bz c then scan_text text (tl s) else None
  end.

(** Up to [n] characters that are neither digits nor a dot. *)
Fixpoint scan_set (n : nat) (s : list byte) : list byte * list byte :=
  match n, s with
  | S n, c :: r => if isdigit (bz c) || (bz c =? 46) then ([], s) else let '(t, r) := scan_set n r in (c :: t, r)
  | _, _ => ([], s)
  end.

Record client_version := mkVersion { cv_region : list byte; cv_client : list byte; cv_major : Z; cv_minor : Z; cv_patch : Z }.

(** [sscanf(data, "%2cREL%31[^0-9.]%d.%d.%d", ...)], when all five are read *)
Definition scan_version (data : list byte) : option client_version :=
  if (length data <? 2)%nat then None
  else
    s ← scan_text (bytes_of "REL") (drop 2 data);
    let '(sclient, s) := scan_set 31 s in
    if decide (sclient = []) then None
    else
      '(major, s) ← scan_int s;
      s ← scan_text (bytes_of ".") s;
      '(minor, s) ← scan_int s;
      s ← scan_text (bytes_of ".") s;
      '(patch, s) ← scan_int s;
      Some (mkVersion (take 2 data) sclient major minor patch).

Definition CLIENT_UNK : Z := -1.
Definition CLIENT_PC : Z := 0.
Definition CLIENT_ANDROID : Z := 1.
Definition CLIENT_IOS : Z := 2.
Definition CLIENT_CNT : Z := 3.
Definition REGION_UNK : Z := -1.
Definition REGION_OS : Z := 0.
Definition REGION_CN : Z := 1.
Definition REGION_CNT : Z := 2.
Definition LIVE_MAJOR : Z := 5.
Definition LIVE_MINOR : Z := 5.
Definition CUR_MAJOR : Z := 1.
Definition CUR_MINOR : Z := 3.

Definition version_region (v : client_version) : Z :=
  if same_prefix 3 (cv_region v) (bytes_of "OS") then REGION_OS
  else if same_prefix 3 (cv_region v) (bytes_of "CN") then REGION_CN else REGION_UNK.

Definition version_client (v : client_version) : Z :=
  if same_prefix 31 (cv_client v) (bytes_of "Win") then CLIENT_PC
  else if same_prefix 31 (cv_client v) (bytes_of "Android") then CLIENT_ANDROID
  else if same_prefix 31 (cv_client v) (bytes_of "iOS") then CLIENT_IOS else CLIENT_UNK.

(** The test of client and region that both handlers make. *)
Definition unknown_client (v : client_version) : bool :=
  (version_client v <=? CLIENT_UNK) || (CLIENT_CNT <=? version_client v) ||
  (version_region v <=? REGION_UNK) || (REGION_CNT <=? version_region v).

Definition list_version_bad (v : client_version) : bool :=
  let '(major, minor, patch) := (cv_major v, cv_minor v, cv_patch v) in
  unknown_client v || (major <? 1) || (LIVE_MAJOR <? major) || ((major =? 1) && (6 <? minor)) ||
  ((major =? LIVE_MAJOR) && (LIVE_MINOR <? minor)) || (8 <? minor) || (54 <? patch) || ((1 <? patch) && (patch <? 50)).

Definition signs_version (v : client_version) : bool :=
  (3 <=? cv_major v) || ((cv_major v =? 2) && ((8 <=? cv_minor v) || ((cv_minor v =? 7) && (50 <=? cv_patch v)))).

Definition curr_version_bad (v : client_version) : bool :=
  unknown_client v || negb (cv_major v =? CUR_MAJOR) || negb (cv_minor v =? CUR_MINOR) || (1 <? cv_patch v).

(** ** What the environment decides

    The answers of the allocators, the files of the two seeds and of the keys,
    and the contents of memory that nothing wrote. *)
Record dispatch_env := mkDispatchEnv {
  de_sdk : sdk_env; de_crypt : crypt_env; de_malloc : bool; de_list_file : option (list byte);
  de_region_file : option (list byte); de_entropy : entropy; de_domain : Z; de_sign_buf : list byte; de_enc_buf : list byte }.

(** The static [hasRegionListSeed] and [regionListSeed]: -1 is [None], 0 is
    [Some None]; and those of the other handler. *)
Record region_seeds := mkSeeds { list_seed : option (option ec2b_t); curr_seed : option (option ec2b_t) }.

Definition load_seed (has : option (option ec2b_t)) (file : option (list byte)) : option (option ec2b_t) :=
  match has with None => Some (option_map (fun c => as_struct (file_buf c)) file) | _ => has end.

Definition PACKAGE_NAME : list byte := bytes_of "yagips".

Section regions.
Context {JS : Json} {OS : Openssl} {CL : MsgCodec QueryRegionListHttpRsp} {CR : MsgCodec QueryCurrRegionHttpRsp}.

(** ** The request of both handlers: an error message, or what was asked for *)

Definition read_post (post : option (list byte)) (e : sdk_env) : string + json :=
  match post with
  | None => inl "Client is missing POST data"%string
  | Some post =>
      if negb (sdk_tokener e) then inl "JSON tokener alloc fail"%string
      else
        match json_parse (c_string post) with
        | None => inl "JSON parse error"%string
        | Some j => if json_is_object j then inr j else inl "JSON POST data is not an object"%string
        end
  end.

Definition read_version (j : json) : string + client_version :=
  match json_get j (bytes_of "version") with
  | None => inl "Version is not set"%string
  | Some v =>
      match json_string v with
      | None => inl "Version is null"%string
      | Some data => match scan_version (c_string data) with None => inl "Version format is invalid"%string | Some v => inr v end
      end
  end.

(** ** query_region_list *)

Definition DEFAULT_URL : list byte := bytes_of "http://osusadispatch.yuanshen.com/query_curr_region".
Definition DEFAULT_TYPE : list byte := bytes_of "DEV_PUBLIC".

Definition default_region : RegionSimpleInfo := mkSimpleInfo (bytes_of "os_usa") PACKAGE_NAME DEFAULT_TYPE DEFAULT_URL.

(** [i]: its index. *)
Definition region_entry (i : nat) (r : RegionListEntry) : RegionSimpleInfo :=
  let numbered text sep := match i with O => text | _ => text ++ sep ++ dec (Z.of_nat i) end in
  mkSimpleInfo (from_option cstr (numbered (bytes_of "os_usa") (bytes_of ".")) (rg_name r))
    (from_option cstr (numbered PACKAGE_NAME (bytes_of " ")) (rg_title r))
    (from_option cstr DEFAULT_TYPE (rg_type r)) (from_option cstr DEFAULT_URL (rg_url r)).

(** The first one may be this server and is left out when it has no URL. *)
Definition skips_region (i : nat) (v : client_version) (r : RegionListEntry) : bool :=
  match i, rg_url r with
  | O, None => true
  | _, _ =>
      match rg_version r with
      | Some version => negb (same_prefix 1024 (dec (cv_major v) ++ bytes_of "." ++ dec (cv_minor v)) (cstr version))
      | None => false
      end
  end.

Fixpoint add_regions (i : nat) (v : client_version) (l : list (option RegionListEntry)) : list RegionSimpleInfo :=
  match l with
  | [] => []
  | None :: l => add_regions (S i) v l
  | Some r :: l => (if skips_region i v r then [] else [region_entry i r]) ++ add_regions (S i) v l
  end.

Definition region_list (c : config_t) (v : client_version) : list RegionSimpleInfo :=
  match regions c with [] => [default_region] | l => add_regions 0 v l end.

Definition client_config (v : client_version) : list byte :=
  js "{'sdkenv':'" ++ dec (if version_region v =? REGION_CN then 0 else 2) ++
  js "','checkdevice':false,'loadPatch':false,'showexception':true,'regionConfig':'pm|fk|add','downloadMode':0,'codeSwitch':[0]}".

Definition retcode_only : list byte := zb 8 :: replicate 9 (zb 255) ++ [zb 1].

Definition list_text (r : QueryRegionListHttpRsp) : list byte := default retcode_only (serialize r).

Definition list_error : QueryRegionListHttpRsp := mkRegionList (-1) [] [] [] false.

Definition getQueryRegionListHttpRsp (c : config_t) (post : option (list byte)) (e : dispatch_env) (s : region_seeds) (w : World)
    : option (list byte * region_seeds * World) :=
  let error := Some (list_text list_error, s, w) in
  match read_post post (de_sdk e) with
  | inl _ => error
  | inr j =>
      match read_version j with
      | inl _ => error
      | inr v =>
          if list_version_bad v then error
          else
            match region_list c v with
            | [] => error
            | l =>
                let has := load_seed (list_seed s) (de_list_file e) in
                let s := mkSeeds has (curr_seed s) in
                match has with
                | Some (Some seed) =>
                    '(k, m) ← Ec2b_struct (de_entropy e) (Some seed) (w_mt w);
                    enc ← HyvCryptXor (client_config v) (xorpad k);
                    secret ← to_string k;
                    Some (list_text (mkRegionList 0 l secret enc true), s, set_mt m w)
                | _ => Some (list_text (mkRegionList 0 l [] (client_config v) true), s, w)
                end
            end
      end
  end.

(** ** query_cur_region *)

(** The code and the message, whether the version is the current one, [doSign]
    and [doEnc]. *)
Record curr_request := mkCurrRequest { cq_retcode : Z; cq_msg : list byte; cq_current : bool; cq_sign : Z; cq_enc : Z }.

Definition read_curr (post : option (list byte)) (e : sdk_env) : curr_request :=
  match read_post post e with
  | inl msg => mkCurrRequest (-1) (bytes_of msg) false 0 0
  | inr j =>
      let '(rc, msg, current, sign) :=
        match read_version j with
        | inl msg => (-1, bytes_of msg, false, 0)
        | inr v =>
            if curr_version_bad v then (-1, bytes_of "Version mismatch", false, Z.b2z (signs_version v))
            else (0, bytes_of "ok", true, Z.b2z (signs_version v))
        end in
      let sign := match json_get j (bytes_of "skipSign") with Some b => Z.land (Z.lnot (json_bool b)) 1 | None => sign end in
      let enc := match json_get j (bytes_of "key_id") with Some v => json_int v | None => 0 end in
      if (enc =? 1) || (5 <? enc) then mkCurrRequest (-1) (bytes_of "Invalid key ID") current sign 0
      else mkCurrRequest rc msg current sign enc
  end.

(** [res_version_config] and the next one. *)
Definition curr_res_pb (r : ResVersionConfig) : pb_ResVersionConfig :=
  mkPbRes (resVersion r) (negb (relogin r =? 0)) (field (resourceRes r)) (field (releaseTotalSize r)) (field (resourceSuffix r))
    (field (branch r)) [].

Definition has_gateserver (i : RegionInfo) : bool := negb (gateserverPort i =? 0).

Definition region_pb (e : dispatch_env) (dispatch_seed : option ec2b_t) (i : RegionInfo) (current : bool) : pb_RegionInfo :=
  let gate := current && has_gateserver i in
  let domain := negb (default (de_domain e) (ri_is_domain i) =? 0) in
  let r := if current then res i else None in
  let n := if current then resNext i else None in
  let text f := from_option (fun r => field (f r)) [] r in
  mkPbRegion (if gate && negb domain then cstr (gateserverIp i) else []) (if gate then gateserverPort i else 0)
    (field (payCbUrl i)) (text resourceUrl) (text dataUrl) (field (feedbackUrl i)) (field (bulletinUrl i))
    (from_option dataVersion 0 r) (field (handbookUrl i)) (from_option silenceVersion 0 r) (text dataRes) (text silenceRes)
    (curr_res_pb <$> r) (from_option struct_bytes [] dispatch_seed) (field (communityUrl i)) (text dataSuffix) (text silenceSuffix)
    (gate && domain) (if gate && domain then cstr (gateserverIp i) else []) (field (userCenterUrl i)) (field (accountBindUrl i))
    (field (cdKeyUrl i)) (field (privacyPolicyUrl i)) (from_option (fun r => field (resourceUrl r)) [] n) (res_next_pb <$> n).

Definition curr_detail (i : RegionInfo) : region_detail :=
  if sendStopServerOrForceUpdate i =? 1 then
    match stopServer i with
    | Some t => stop_server (mkStopInfo (u32 (st_start t)) (u32 (st_end t)) (field (st_url t)) (field (st_msg t)))
    | None => no_detail
    end
  else if sendStopServerOrForceUpdate i =? 2 then
    match forceUpdateUrl i with Some u => force_update (mkForceUpdate (cstr u)) | None => no_detail end
  else no_detail.

Definition curr_fallback : list byte := retcode_only ++ [zb 18; zb 28] ++ bytes_of "Failed to serialize response".

Definition curr_text (r : QueryCurrRegionHttpRsp) : list byte := default curr_fallback (serialize r).

(** From [set_fields] up to [build_rsp]. *)
Definition curr_response (c : config_t) (dispatch_seed : option ec2b_t) (q : curr_request) (e : dispatch_env) (s : region_seeds) (w : World)
    : option (QueryCurrRegionHttpRsp * region_seeds * World) :=
  let missing := bytes_of "Server is missing region data" in
  match regionInfo c with
  | None => Some (mkCurrRegion (-1) missing None [] no_detail, s, w)
  | Some i =>
      let '(rc, msg) := if cq_current q && negb (has_gateserver i) then (-1, missing) else (cq_retcode q, cq_msg q) in
      let has := load_seed (curr_seed s) (de_region_file e) in
      let s := mkSeeds (list_seed s) has in
      let rsp secret := mkCurrRegion rc msg (Some (region_pb e dispatch_seed i (cq_current q))) secret (curr_detail i) in
      match has with
      | Some (Some seed) =>
          '(k, m) ← Ec2b_struct (de_entropy e) (Some seed) (w_mt w);
          secret ← to_string k;
          Some (rsp secret, s, set_mt m w)
      | _ => Some (rsp [], s, w)
      end
  end.

(** [bufsz] *)
Definition padded_size (sz : Z) : Z := (sz / 256 + 1) * 256.

(** From [build_rsp] on: the signature and the answer.  The padding that the
    buffer gets is not read. *)
Definition sign_and_encrypt (q : curr_request) (ret_enc : list byte) (e : dispatch_env) : option (list byte * list byte) :=
  let sz := zlen ret_enc in
  sign ← (if negb (cq_sign q =? 0) then
            '(j, sign_c) ← HyvCryptRsaSign (de_crypt e) (Some ret_enc) sz (Some (resize (Z.to_nat 4096) Byte.x00 (de_sign_buf e))) 4096;
            Some (if j <? 0 then [] else ztake (u32 j) sign_c)
          else Some []);
  if (cq_enc q =? 0) || negb (de_malloc e) then Some (sign, ret_enc)
  else
    let bufsz := padded_size sz in
    '(j, tmpbuf) ← HyvCryptRsaEnc (de_crypt e) (Some ret_enc) sz (Some (resize (Z.to_nat (bufsz * 2)) Byte.x00 (de_enc_buf e))) (bufsz * 2) (u32 (cq_enc q));
    Some (sign, if j <? 0 then ret_enc else ztake j tmpbuf).

Definition getQueryCurrRegionHttpRsp (c : config_t) (dispatch_seed : option ec2b_t) (post : option (list byte)) (e : dispatch_env)
    (s : region_seeds) (w : World) : option (list byte * list byte * region_seeds * World) :=
  let q := read_curr post (de_sdk e) in
  '(rsp, s, w) ← curr_response c dispatch_seed q e s w;
  '(sign, text) ← sign_and_encrypt q (curr_text rsp) e;
  Some (sign, text, s, w).
End regions.

(** ** The routing of a request

    The endpoints in the order of their numbers. *)
Definition SDK_QUERY_REGION_LIST : Z := 0.
Definition SDK_QUERY_CURR_REGION : Z := 1.
Definition SDK_GET_AUTH_TOKEN : Z := 2.
Definition SDK_CHECK_AUTH_TOKEN : Z := 3.
Definition SDK_CHECK_COMBO_TOKEN : Z := 4.
Definition SDK_ACTION_TICKET : Z := 5.
Definition SDK_BIND_REALNAME : Z := 6.
Definition SDK_LOG : Z := 15.
Definition SDK_ENDPOINT_CNT : Z := 16.

Definition sdkEndpoints : list (list byte) := map bytes_of
  ["/query_region_list"; "/query_cur_region"; "/session/new"; "/session/verify"; "/session/combo"; "/binder/ticket"; "/binder/verify";
   "/gacha/details"; "/gacha/history"; "/redeem"; "/gm"; "/stat"; "/player/"; "/set-player/"; "/admin"; "/log"]%string.

(** [strncmp(s, pattern, strlen(pattern)) == 0]; a token of the request is
    followed by a blank. *)
Definition begins (pattern : string) (token : list byte) : bool :=
  same_prefix (length (bytes_of pattern)) (token ++ [zb 32]) (bytes_of pattern).
Arguments begins pattern%_string token.

(** The [for] loop over the endpoints from [i] on. *)
Fixpoint find_endpoint (i : Z) (l : list (list byte)) (path : list byte) : option Z :=
  match l with
  | [] => None
  | e :: l => if same_prefix (length e) (path ++ [zb 32]) e then Some i else find_endpoint (i + 1) l path
  end.

(** [status] of a request that was parsed. *)
Definition route (meth path : list byte) : Z :=
  if begins "OPTIONS" meth then 1204
  else if negb (begins "GET" meth || begins "POST" meth || begins "HEAD" meth) then 405
  else if begins "/ " path || begins "/?" path then (if begins "POST" meth then 403 else 200)
  else if begins "/generate_204" path || begins "/gen_204" path then 204
  else
    match find_endpoint 0 sdkEndpoints path with
    | Some i => i
    | None => if begins "/" path then 404 else 400
    end.

(** ** The reply *)

(** [rsp], [rsp_str], [mime] and [extra_hdrs]. *)
Record answer := mkAnswer { an_rsp : list byte; an_body : list byte; an_mime : list byte; an_extra : list byte }.

Definition MIME_TEXT : list byte := bytes_of "text/plain".
Definition MIME_JSON : list byte := bytes_of "application/json".
Definition ALLOW : list byte := bytes_of "Allow: GET, HEAD, POST, OPTIONS" ++ [zb 13; zb 10].

Definition json_answer (rsp : string) (body : list byte) : answer := mkAnswer (bytes_of rsp) body MIME_JSON [].
Arguments json_answer rsp%_string body.

Record server_state := mkServer { sv_seeds : region_seeds; sv_world : World }.

Section server.
Context {JS : Json} {OS : Openssl} {CL : MsgCodec QueryRegionListHttpRsp} {CR : MsgCodec QueryCurrRegionHttpRsp} {CA : MsgCodec AccountInfo}.

(** The configuration, [dispatchSeed] when there is one, and the version that
    configure sets. *)
Variable config : config_t.
Variable dispatch_seed : option ec2b_t.
Variable PACKAGE_VERSION : list byte.

Definition from_handler (h : option (list byte * World)) (st : server_state) : option (answer * server_state) :=
  '(text, w) ← h; Some (json_answer "OK" text, mkServer (sv_seeds st) w).

Definition curr_answer (sign text : list byte) : answer :=
  if decide (sign = []) then mkAnswer (bytes_of "OK") (b64enc text) MIME_TEXT []
  else json_answer "OK" (js "{'content':'" ++ b64enc text ++ js "','sign':'" ++ b64enc sign ++ js "'}").

Definition not_implemented : answer :=
  json_answer "OK" (js "{'retcode':-1,'message':'Endpoint not implemented yet, please be patient'}").

(** The [switch (status)] for a number below [SDK_ENDPOINT_CNT]. *)
Definition call_endpoint (i : Z) (body : option (list byte)) (e : dispatch_env) (st : server_state) : option (answer * server_state) :=
  let w := sv_world st in
  if i =? SDK_QUERY_REGION_LIST then
    '(text, s, w) ← getQueryRegionListHttpRsp config body e (sv_seeds st) w;
    Some (mkAnswer (bytes_of "OK") (b64enc text) MIME_TEXT [], mkServer s w)
  else if i =? SDK_QUERY_CURR_REGION then
    '(sign, text, s, w) ← getQueryCurrRegionHttpRsp config dispatch_seed body e (sv_seeds st) w;
    Some (curr_answer sign text, mkServer s w)
  else if i =? SDK_GET_AUTH_TOKEN then from_handler (handleLogin body (de_sdk e) w) st
  else if i =? SDK_CHECK_AUTH_TOKEN then from_handler (handleVerify body (de_sdk e) w) st
  else if i =? SDK_CHECK_COMBO_TOKEN then from_handler (handleCombo body (de_sdk e) w) st
  else if i =? SDK_ACTION_TICKET then from_handler (handleActionTicket body (de_sdk e) w) st
  else if i =? SDK_BIND_REALNAME then from_handler (handleBindRealname body (de_sdk e) w) st
  else if i =? SDK_LOG then from_handler (handleClientLog body (de_sdk e) w) st
  else Some (not_implemented, st).

(** The cases of other numbers. *)
Definition status_answer (status : Z) : answer :=
  if status =? 403 then json_answer "Forbidden" (js "{'retcode':-1,'message':'Permission denied'}")
  else if status =? 204 then mkAnswer (bytes_of "No Content") [] MIME_TEXT []
  else if status =? 1204 then mkAnswer (bytes_of "No Content") [] MIME_TEXT ALLOW
  else if status =? 405 then mkAnswer (bytes_of "Method Not Allowed") (js "{'retcode':-1,'message':'HTTP method not allowed'}") MIME_JSON ALLOW
  else if status =? 500 then json_answer "Internal Server Error" (js "{'retcode':-1,'message':'Internal server error'}")
  else if status =? 413 then json_answer "Content Too Large" (js "{'retcode':-1,'message':'Request too big'}")
  else if status =? 200 then mkAnswer (bytes_of "OK") (bytes_of "hi from " ++ PACKAGE_NAME ++ bytes_of " dispatch server" ++ [zb 10]) MIME_TEXT []
  else json_answer "Not Found" (js "{'retcode':-10,'message':'No such endpoint'}").

Definition final_status (status : Z) : Z :=
  if status =? 1204 then 204 else if (0 <=? status) && (status <? SDK_ENDPOINT_CNT) then 200 else status.

(** The text that is formatted: a string is read up to its NUL, the length is
    the one of the whole string. *)
Definition reply_text (mver status : Z) (a : answer) (head : bool) : list byte :=
  bytes_of "HTTP/1." ++ dec mver ++ bytes_of " " ++ dec3 status ++ bytes_of " " ++ an_rsp a ++ CRLF ++
  bytes_of "Content-Length: " ++ dec (zlen (an_body a)) ++ CRLF ++
  bytes_of "Content-Type: " ++ an_mime a ++ CRLF ++
  bytes_of "Connection: close" ++ CRLF ++
  bytes_of "Server: " ++ PACKAGE_NAME ++ bytes_of "/" ++ PACKAGE_VERSION ++ CRLF ++ an_extra a ++ CRLF ++
  (if head then [] else c_string (an_body a)).

(** [snprintf] into [pkt_buf]: the bytes that are then sent, and the buffer. *)
Definition send_reply (pkt_buf text : list byte) : list byte * list byte :=
  let out := ztake (buf_len - 1) text in (out, out ++ [Byte.x00] ++ zdrop (zlen out + 1) pkt_buf).

(** What a call of [send] gives: some bytes are taken, or it fails. *)
Inductive send_event := Sent (n : Z) | SendError.

(** The loop of [send] over the bytes that are left, with a descriptor that is
    open or -1: what the client gets, and whether the loop ends.  With the
    descriptor -1 every call fails. *)
Fixpoint send_loop (open : bool) (rest : list byte) (evs : list send_event) : list byte * bool :=
  match rest, evs with
  | [], _ => ([], true)
  | _, [] => ([], false)
  | _, Sent n :: evs =>
      if open then let '(got, ended) := send_loop true (zdrop n rest) evs in (ztake n rest ++ got, ended)
      else send_loop false rest evs
  | _, SendError :: evs => send_loop false rest evs
  end.

(** ** One connection

    The method and [mver] when the parser did not get to the end: the method is
    NULL ([None]) until its token was read, and [mver] is -1 until the version
    was. *)
Definition partial_request (pkt_buf : list byte) (last_len : Z) : option (list byte) * Z :=
  match (_ ← (if last_len =? 0 then ROk pkt_buf else is_complete pkt_buf last_len); buf ← skip_eol pkt_buf; parse_token 32 buf) with
  | ROk (method, buf) =>
      match (buf ← skip_spaces buf; '(path, buf) ← ADVANCE_TOKEN buf; buf ← skip_spaces buf;
             if (zlen method =? 0) || (zlen path =? 0) then RFail (-1) else parse_http_version buf) with
      | ROk (minor, _) => (Some method, minor)
      | _ => (Some method, -1)
      end
  | _ => (None, -1)
  end.

(** The loop of [recv], with [prev_len] and [actual_len] where it ends. *)
Fixpoint receive (pkt_buf : list byte) (actual_len : Z) (evs : list recv_event) : list byte * Z * Z * read_outcome :=
  match evs with
  | [] => (pkt_buf, actual_len, actual_len, Waiting)
  | Closed :: _ => (pkt_buf, actual_len, actual_len, ClientClosed)
  | RecvError :: evs => receive pkt_buf actual_len evs
  | Recv bytes :: evs =>
      let pkt_buf := recv_into pkt_buf actual_len bytes in
      let prev_len := actual_len in
      let actual_len := actual_len + zlen bytes in
      match phr_parse_request pkt_buf _hdr_cnt prev_len with
      | ROk (pret, r) => (pkt_buf, prev_len, actual_len, Parsed pret r)
      | RFail pret =>
          if pret =? -1 then (pkt_buf, prev_len, actual_len, Respond 400)
          else if pret <? -2 then (pkt_buf, prev_len, actual_len, Respond 500)
          else if buf_len <=? actual_len then (pkt_buf, prev_len, actual_len, Respond 413)
          else receive pkt_buf actual_len evs
      | RBad => (pkt_buf, prev_len, actual_len, Waiting)
      end
  end.

(** [pkt_buf[actual_len] = 0;] *)
Definition terminate (pkt_buf : list byte) (actual_len : Z) : option (list byte) :=
  if actual_len <? buf_len then Some (ztake actual_len pkt_buf ++ [Byte.x00] ++ zdrop (actual_len + 1) pkt_buf) else None.

(** A reply is sent, the client closed, or [recv] waits. *)
Inductive served := Reply (out : list byte) | NoReply | Blocked.

(** With the buffer for the next connection and the state.  No result: a byte
    past the buffer is written, the method is NULL and read, or a handler has
    none. *)
Definition serve (pkt_buf : list byte) (evs : list recv_event) (e : dispatch_env) (st : server_state)
    : option (served * list byte * server_state) :=
  let '(pkt_buf, prev_len, actual_len, outcome) := receive pkt_buf 0 evs in
  match outcome with
  | Waiting => Some (Blocked, pkt_buf, st)
  | ClientClosed => Some (NoReply, pkt_buf, st)
  | Respond status =>
      let '(method, mver) := partial_request pkt_buf prev_len in
      meth ← method;
      let '(out, pkt_buf) := send_reply pkt_buf (reply_text mver status (status_answer status) (begins "HEAD" meth)) in
      Some (Reply out, pkt_buf, st)
  | Parsed pret r =>
      pkt_buf ← terminate pkt_buf actual_len;
      let status := route (rq_method r) (rq_path r) in
      let body := if begins "POST" (rq_method r) then Some (c_string (zdrop pret pkt_buf)) else None in
      '(a, st) ← (if (0 <=? status) && (status <? SDK_ENDPOINT_CNT) then call_endpoint status body e st else Some (status_answer status, st));
      let '(out, pkt_buf) := send_reply pkt_buf (reply_text (rq_minor r) (final_status status) a (begins "HEAD" (rq_method r))) in
      Some (Reply out, pkt_buf, st)
  end.

(** What happens on a connection that is accepted. *)
Record connection := mkConn { cn_recv : list recv_event; cn_send : list send_event; cn_env : dispatch_env }.

(** The outer loop: what the client of each connection gets.  It does not get
    past a [recv] that waits or a loop of [send] that does not end. *)
Fixpoint dispatch_main (pkt_buf : list byte) (conns : list connection) (st : server_state)
    : option (list (list byte) * server_state) :=
  match conns with
  | [] => Some ([], st)
  | c :: conns =>
      '(o, pkt_buf, st) ← serve pkt_buf (cn_recv c) (cn_env c) st;
      let '(got, ended) :=
        match o with Blocked => ([], false) | NoReply => ([], true) | Reply out => send_loop true out (cn_send c) end in
      if ended then '(outs, st) ← dispatch_main pkt_buf conns st; Some (got :: outs, st) else Some ([got], st)
  end.
End server.

(** ** [loadKeys] of src/yagips.cpp

    [dispatchKey], [dispatchXorSeed] and [dispatchSeed], which both servers use;
    [None]: no file, [hasDispatchSeed] stays 0. *)
Definition loadKeys (en : entropy) (file : option (list byte)) : M (option (list byte * Z * ec2b_t)) :=
  match file with
  | None => ret None
  | Some c =>
      ec2b ← Ec2b_FILE en (Some c);
      dispatchKey ← lift (c_str (xorpad ec2b) 4096);
      dispatchSeed ← lift (to_struct ec2b);
      ret (Some (dispatchKey, seed ec2b, dispatchSeed))
  end.
