(* ===== verification/DispatchProps.v ===== *)
(** * The dispatch server: theorems

    Every request that is received whole is answered from what it says and from
    the state, whatever the buffer held; which requests the server does not
    survive; what a client reads from a reply; and what the region endpoints
    give away. *)

From Stdlib Require Import Strings.String.
From stdpp Require Import gmap.
From S2P Require Import TomlProps RunConfigProps PlayerProps.
From S2P Require Import Prelude Http HttpProps DispatchRead TomlText TomlValue TomlTree TomlParse RunConfig Util Mt64 Ec2b Ec2bProps Packet PacketProps Crypt.
From S2P Require Import Messages Account DbGate DbProps PlayerDb Handlers Sdk SdkProps Dispatch.

#[local] Open Scope list_scope.

(** ** A whole request *)

(** What is sent, from the request and the state alone. *)
Section respond.
Context {JS : Json} {OS : Openssl} {CL : MsgCodec QueryRegionListHttpRsp} {CR : MsgCodec QueryCurrRegionHttpRsp} {CA : MsgCodec AccountInfo}.
Variable config : config_t.
Variable dispatch_seed : option ec2b_t.
Variable PACKAGE_VERSION : list byte.

Definition handle (r : request) (body : list byte) (e : dispatch_env) (st : server_state) : option (answer * server_state) :=
  let status := route (rq_method r) (rq_path r) in
  if (0 <=? status) && (status <? SDK_ENDPOINT_CNT)
  then call_endpoint config dispatch_seed status (if begins "POST" (rq_method r) then Some (c_string body) else None) e st
  else Some (status_answer status, st).

Definition reply_of (r : request) (a : answer) : list byte :=
  reply_text PACKAGE_VERSION (rq_minor r) (final_status (route (rq_method r) (rq_path r))) a (begins "HEAD" (rq_method r)).

Definition respond (r : request) (body : list byte) (e : dispatch_env) (st : server_state) : option (list byte * server_state) :=
  '(a, st) ← handle r body e st; Some (ztake (buf_len - 1) (reply_of r a), st).

(** A request that the parser takes and that the buffer has room for, with the
    byte that is put behind it. *)
Record whole (r : request) (body : list byte) : Prop := {
  wh_request : request_ok _hdr_cnt r;
  wh_fits : zlen (print_request r ++ body) < buf_len
}.

Lemma c_string_end s rest : c_string (s ++ Byte.x00 :: rest) = c_string s.
Proof.
  induction s as [|c s IH]; cbn [app c_string]; [rewrite decide_True by reflexivity; reflexivity|].
  destruct (decide (c = Byte.x00)); [reflexivity|]. f_equal. exact IH.
Qed.

Lemma receive_whole pkt_buf r body evs :
  zlen pkt_buf = buf_len -> whole r body ->
  receive pkt_buf 0 (Recv (print_request r ++ body) :: evs) =
    (recv_into pkt_buf 0 (print_request r ++ body), 0, zlen (print_request r ++ body), Parsed (zlen (print_request r)) r).
Proof.
  intros Hl [Hr Hf]. assert (recv_fits 0 (print_request r ++ body) = true) as Hv.
  { unfold recv_fits. apply andb_true_intro. split; apply Z.leb_le; [|lia]. unfold print_request.
    rewrite length_app, !length_app. destruct Hr as [[Hm _] _ _ _ _]. destruct (rq_method r); [contradiction|cbn [length]; lia]. }
  pose proof (recv_into_len pkt_buf 0 _ Hl ltac:(lia) Hv) as Hl'. cbn [receive]. rewrite Z.add_0_l.
  assert (phr_parse_request (recv_into pkt_buf 0 (print_request r ++ body)) _hdr_cnt 0 = ROk (zlen (print_request r), r)) as ->; [|reflexivity].
  rewrite recv_first in *. rewrite <- app_assoc in *. rewrite (first_parse _ _ r (body ++ zdrop (zlen (print_request r ++ body)) pkt_buf)).
  - do 2 f_equal. rewrite length_app. lia.
  - rewrite Hl'. reflexivity.
  - apply request_run; auto.
Qed.

Lemma terminate_whole pkt_buf s :
  zlen pkt_buf = buf_len -> zlen s < buf_len ->
  exists rest, terminate (recv_into pkt_buf 0 s) (zlen s) = Some (s ++ Byte.x00 :: rest) /\ zlen (s ++ Byte.x00 :: rest) = buf_len.
Proof.
  intros Hl Hs. unfold terminate. rewrite (proj2 (Z.ltb_lt _ _) Hs), recv_first. rewrite Nat2Z.id, take_app_all by lia.
  eexists. split; [reflexivity|]. cbn [app]. rewrite length_app. cbn [length]. rewrite length_drop, length_app, length_drop. lia.
Qed.

Lemma send_len pkt_buf text :
  zlen pkt_buf = buf_len -> fst (send_reply pkt_buf text) = ztake (buf_len - 1) text /\ zlen (snd (send_reply pkt_buf text)) = buf_len.
Proof.
  intros Hl. split; [reflexivity|]. unfold send_reply. cbn [snd].
  rewrite !length_app, length_drop, length_take. unfold buf_len in *. cbn [length]. lia.
Qed.

(** A whole request gets the answer to it, and the buffer keeps its size. *)
Lemma serve_whole pkt_buf r body evs e st :
  zlen pkt_buf = buf_len -> whole r body ->
  match respond r body e st with
  | Some (out, st') => exists pkt_buf',
      serve config dispatch_seed PACKAGE_VERSION pkt_buf (Recv (print_request r ++ body) :: evs) e st = Some (Reply out, pkt_buf', st') /\
      zlen pkt_buf' = buf_len
  | None => serve config dispatch_seed PACKAGE_VERSION pkt_buf (Recv (print_request r ++ body) :: evs) e st = None
  end.
Proof.
  intros Hl Hw. unfold serve. rewrite (receive_whole pkt_buf r body evs Hl Hw).
  destruct (terminate_whole pkt_buf (print_request r ++ body) Hl (wh_fits _ _ Hw)) as (rest & -> & Lt). cbn [mbind option_bind].
  rewrite <- app_assoc. rewrite Nat2Z.id, drop_app_all by reflexivity. rewrite c_string_end. unfold respond, handle.
  destruct (if (0 <=? _) && _ then _ else _) as [[a st']|]; [|reflexivity]. cbn [mbind option_bind].
  rewrite app_assoc. fold (reply_of r a). destruct (send_len _ (reply_of r a) Lt) as [E L].
  destruct (send_reply _ _) as [out pb]. cbn [fst snd] in *. subst out. eauto.
Qed.

(** ** Connections one after the other *)

Record http_request := mkRequest {
  hr_request : request; hr_body : list byte; hr_later : list recv_event; hr_sends : list send_event; hr_env : dispatch_env }.

(** The request arrives in one piece; what the client does later is not looked
    at. *)
Definition connect (q : http_request) : connection :=
  mkConn (Recv (print_request (hr_request q) ++ hr_body q) :: hr_later q) (hr_sends q) (hr_env q).

(** The client takes the reply: each call of [send] some of it. *)
Definition takes_reply (evs : list send_event) : Prop :=
  Forall (fun ev => match ev with Sent n => 1 <= n | SendError => False end) evs /\ buf_len <= zlen evs.

Lemma send_all out evs :
  Forall (fun ev => match ev with Sent n => 1 <= n | SendError => False end) evs -> zlen out <= zlen evs ->
  send_loop true out evs = (out, true).
Proof.
  intros H. revert out. induction H as [|[n|] evs Hn _ IH]; intros out Hl.
  - destruct out; [reflexivity|cbn in Hl; lia].
  - destruct out as [|c out]; [reflexivity|]. cbn [send_loop]. rewrite IH.
    + rewrite take_drop. reflexivity.
    + rewrite length_drop. cbn [length] in *. lia.
  - destruct Hn.
Qed.

(** After a failure nothing more is sent and the loop does not end. *)
Lemma send_stuck out evs : out <> [] -> send_loop false out evs = ([], false).
Proof. intros Hne. induction evs as [|[n|] evs IH]; (destruct out; [contradiction|]); cbn [send_loop]; auto. Qed.

Fixpoint respond_all (qs : list http_request) (st : server_state) : option (list (list byte) * server_state) :=
  match qs with
  | [] => Some ([], st)
  | q :: qs =>
      '(out, st) ← respond (hr_request q) (hr_body q) (hr_env q) st;
      '(outs, st) ← respond_all qs st;
      Some (out :: outs, st)
  end.

Lemma respond_short r body e st out st' : respond r body e st = Some (out, st') -> zlen out < buf_len.
Proof.
  unfold respond. destruct (handle r body e st) as [[a st1]|]; [|discriminate]. cbn [mbind option_bind].
  assert (zlen (ztake (buf_len - 1) (reply_of r a)) < buf_len) as L by (rewrite length_take; unfold buf_len; lia).
  revert L. generalize (ztake (buf_len - 1) (reply_of r a)). intros x L E. injection E as <- _. exact L.
Qed.

(** Requests that arrive whole and whose replies are taken, then others. *)
Lemma main_responds pkt_buf qs conns st :
  zlen pkt_buf = buf_len -> Forall (fun q => whole (hr_request q) (hr_body q) /\ takes_reply (hr_sends q)) qs ->
  match respond_all qs st with
  | Some (outs, st') => exists pkt_buf', zlen pkt_buf' = buf_len /\
      dispatch_main config dispatch_seed PACKAGE_VERSION pkt_buf (map connect qs ++ conns) st =
        ('(outs', st') ← dispatch_main config dispatch_seed PACKAGE_VERSION pkt_buf' conns st'; Some (outs ++ outs', st'))
  | None => dispatch_main config dispatch_seed PACKAGE_VERSION pkt_buf (map connect qs ++ conns) st = None
  end.
Proof.
  intros Hl Hq. revert pkt_buf Hl st. induction Hq as [|q qs [Hq [Hs Hn]] _ IH]; intros pkt_buf Hl st.
  { cbn [respond_all]. exists pkt_buf. split; [exact Hl|]. cbn [map app]. destruct (dispatch_main _ _ _ _ _ _) as [[? ?]|]; reflexivity. }
  cbn [map app dispatch_main connect cn_recv cn_send cn_env respond_all].
  pose proof (serve_whole pkt_buf _ _ (hr_later q) (hr_env q) st Hl Hq) as H.
  destruct (respond _ _ _ st) as [[out st']|] eqn:Er; [|rewrite H; reflexivity]. destruct H as (pb & -> & Lp). cbn [mbind option_bind].
  apply respond_short in Er. rewrite send_all by (assumption || lia). specialize (IH pb Lp st').
  destruct (respond_all qs st') as [[outs st2]|]; cbn [mbind option_bind]; [|rewrite IH; reflexivity].
  destruct IH as (pb2 & L2 & ->). exists pb2. split; [exact L2|]. destruct (dispatch_main _ _ _ _ _ _) as [[? ?]|]; reflexivity.
Qed.
End respond.

(** ** What the region endpoints need *)

(** What is documented of json-c and of protobuf: the integers are [int32_t],
    and no message of 2 GiB is serialized. *)
Class JsonInts `{Json} := json_int_range v : - 2 ^ 31 <= json_int v < 2 ^ 31.
Class MsgSmall (A : Type) `{MsgCodec A} := msg_small (m : A) b : serialize m = Some b -> zlen b < 2 ^ 31.

Definition seed_ok (t : ec2b_t) : Prop := Ec2bProps.header_ok t = true /\ 16 <= zlen (s_key t) /\ 2048 <= zlen (s_data t).

Definition loaded_ok (o : option (option ec2b_t)) : Prop := forall t, o = Some (Some t) -> seed_ok t.

(** A file that is not there, or a key file. *)
Definition file_ok (f : option (list byte)) : Prop := forall c, f = Some c -> Ec2bProps.header_ok (as_struct (file_buf c)) = true.

Lemma load_seed_ok has file : loaded_ok has -> file_ok file -> loaded_ok (load_seed has file).
Proof.
  intros Hh Hf. destruct has as [o|]; [exact Hh|]. intros t E. cbn [load_seed] in E. destruct file as [c|]; [|discriminate E].
  cbn [option_map] in E. injection E as <-. split; [apply (Hf c eq_refl)|]. apply as_struct_sizes. rewrite file_buf_size. lia.
Qed.

Lemma seed_key en t m :
  entropy_ok en -> mt_full m -> seed_ok t ->
  exists k m', Ec2b_struct en (Some t) m = Some (k, m') /\ consistent k /\ mt_full m' /\ xorpad k <> [] /\
    to_string k = Some (struct_bytes (struct_of k)).
Proof.
  intros He Hm (Hh & Hk & Hd). destruct (struct_ok en t m He Hm Hh Hk Hd) as (k & m' & E & C & F). exists k, m'.
  split; [exact E|]. split; [exact C|]. split; [exact F|]. destruct C as (Hs & _ & _ & Hx). split.
  - rewrite Hx. unfold xorpad_of, pad_of. intros E0. apply (f_equal length) in E0. rewrite length_pad_bytes, length_outputs in E0.
    vm_compute in E0. discriminate E0.
  - unfold to_string. rewrite to_struct_ok by exact Hs. reflexivity.
Qed.

Record env_ok (e : dispatch_env) : Prop := {
  eo_entropy : entropy_ok (de_entropy e);
  eo_list : file_ok (de_list_file e);
  eo_region : file_ok (de_region_file e)
}.

Record state_ok (st : server_state) : Prop := {
  so_keys : keys_ok (w_db (sv_world st));
  so_mt : mt_full (w_mt (sv_world st));
  so_list : loaded_ok (list_seed (sv_seeds st));
  so_curr : loaded_ok (curr_seed (sv_seeds st))
}.

(** ** RSA always answers *)
Section rsa_total.
Context {OS : Openssl} {OL : OpensslLaws OS}.

Lemma sign_total e m junk n : zlen m = n -> exists r, HyvCryptRsaSign e (Some m) n (Some (resize (Z.to_nat 4096) Byte.x00 junk)) 4096 = Some r.
Proof.
  intros <-. unfold HyvCryptRsaSign, with_buffers. destruct (_ || _); [eauto|].
  destruct (if en_decoder e then _ else None) as [k|]; [|eauto]. destruct (negb _); [eauto|]. rewrite Z.ltb_irrefl.
  destruct (rsa_sign k _) as [s|]; [|eauto]. destruct (Z.ltb_spec 4096 (zlen s)); [eauto|]. unfold memcpy_out.
  rewrite length_resize, (proj2 (Z.leb_le (0 + zlen s) _)) by lia. cbn [Z.leb Z.compare andb mbind option_bind]. eauto.
Qed.

(** A buffer of twice the padded size is enough. *)
Lemma enc_total e id m junk :
  - 2 ^ 31 <= id < 2 ^ 31 -> id <> 0 -> id <> 1 -> zlen m < 2 ^ 31 ->
  exists r, HyvCryptRsaEnc e (Some m) (zlen m) (Some (resize (Z.to_nat (padded_size (zlen m) * 2)) Byte.x00 junk)) (padded_size (zlen m) * 2) (u32 id) = Some r.
Proof.
  intros Hr H0 H1 Hm. unfold HyvCryptRsaEnc, with_buffers. destruct (_ || _) eqn:Ez; [eauto|]. apply orb_false_elim in Ez as [Hz _].
  apply Z.eqb_neq in Hz. assert (m <> []) as Hne by (destruct m; [contradiction|discriminate]).
  destruct (load_pkey e (u32 id)) as [k|] eqn:Ek; [|eauto]. destruct (negb _); [eauto|].
  assert (2 <= u32 id <= 5) as Hid.
  { unfold load_pkey in Ek. destruct (negb _); [discriminate Ek|]. destruct ((2 <=? u32 id) && _) eqn:E2.
    - apply andb_prop in E2 as [E2%Z.leb_le E3%Z.leb_le]. lia.
    - destruct (Z.eqb_spec (u32 id) 0) as [E|_]; [|destruct (Z.eqb_spec (u32 id) 1) as [E|_]; [|discriminate Ek]];
        unfold wrap in E; change (2 ^ 32) with 4294967296 in *; change (2 ^ 31) with 2147483648 in *;
        Z.div_mod_to_equations; lia. }
  assert (en_decoder e = true) as Hd by (unfold load_pkey in Ek; destruct (en_decoder e); [reflexivity|discriminate Ek]).
  destruct (dispatch_key_loads e (u32 id) Hid Hd) as (k' & Ek' & Es). rewrite Ek in Ek'. injection Ek' as <-.
  rewrite (proj1 (rsa_sizes k)), Es. change (u64 (256 - 11)) with 245.
  set (ob := resize _ _ _). assert (zlen ob = padded_size (zlen m) * 2) as Lo.
  { unfold ob. rewrite length_resize. unfold padded_size. Z.div_mod_to_equations. lia. }
  rewrite <- Lo. assert (0 < 256) as H256 by lia. assert (0 < 245 < 2 ^ 63) as H245 by (zpow; lia).
  destruct (block_loop_ok (rsa_encrypt k) 245 256 H245 H256 (S (length m)) m 0 ob 0 256) as (cs & _ & _ & E); [exact Hne|lia|zpow; lia| |lia| | |].
  - rewrite Lo. unfold padded_size. change (2 ^ 63) with 9223372036854775808. zpow. Z.div_mod_to_equations. lia.
  - assert (0 < 245) as Hp by lia. eapply Forall_impl; [exact (pieces_small 245 m Hp)|]. intros p Hp' j.
    destruct (rsa_round k j p) as (c & Hc & Lc & _); [rewrite Es; exact Hp'|]. exists c. rewrite Lc. auto.
  - rewrite length_pieces by lia. rewrite Lo. unfold padded_size. Z.div_mod_to_equations. lia.
  - rewrite Z.sub_0_r in E. rewrite E. eauto.
Qed.
End rsa_total.

(** ** Every request is answered *)
Section total.
Context {JS : Json} {JI : JsonInts} {OS : Openssl} {OL : OpensslLaws OS}.
Context {CL : MsgCodec QueryRegionListHttpRsp} {CR : MsgCodec QueryCurrRegionHttpRsp} {SR : MsgSmall QueryCurrRegionHttpRsp} {CA : MsgCodec AccountInfo}.
Variable config : config_t.
Variable dispatch_seed : option ec2b_t.
Variable PACKAGE_VERSION : list byte.

(** Only the generator is used in the world, and only seeds are loaded. *)
Definition region_step (st : server_state) (s : region_seeds) (w : World) : Prop :=
  (w = sv_world st \/ exists m, w = set_mt m (sv_world st)) /\ (state_ok st -> state_ok (mkServer s w)).

Lemma same_step s w : region_step (mkServer s w) s w.
Proof. split; [left; reflexivity|auto]. Qed.

Lemma loads_step s s' w m :
  mt_full m -> loaded_ok (list_seed s') -> loaded_ok (curr_seed s') -> region_step (mkServer s w) s' (set_mt m w).
Proof. intros Hm Hl Hc. split; [right; eauto|]. intros [Hk _ _ _]. constructor; assumption. Qed.

Lemma list_total post e st :
  state_ok st -> env_ok e ->
  exists text s w, getQueryRegionListHttpRsp config post e (sv_seeds st) (sv_world st) = Some (text, s, w) /\ region_step st s w.
Proof.
  intros [Hk Hm Hl Hc] [He Hf _]. destruct st as [s w]. cbn [sv_seeds sv_world] in *. pose proof (same_step s w) as Hs.
  unfold getQueryRegionListHttpRsp.
  destruct (read_post post _) as [|j]; [eauto 6|]. destruct (read_version j) as [|v]; [eauto 6|].
  destruct (list_version_bad v); [eauto 6|]. destruct (region_list config v) as [|x l]; [eauto 6|].
  pose proof (load_seed_ok _ _ Hl Hf) as Hls. cbv zeta.
  assert (region_step (mkServer s w) (mkSeeds (load_seed (list_seed s) (de_list_file e)) (curr_seed s)) w) as Hst.
  { split; [left; reflexivity|]. intros _. constructor; assumption. }
  destruct (load_seed _ _) as [[t|]|]; [|eauto 6..].
  destruct (seed_key (de_entropy e) t (w_mt w) He Hm (Hls t eq_refl)) as (k & m' & -> & Ck & Fm & Hx & Ek).
  cbn [mbind option_bind]. rewrite crypt_ok by exact Hx. cbn [mbind option_bind]. rewrite Ek. cbn [mbind option_bind].
  do 3 eexists. split; [reflexivity|]. apply loads_step; assumption.
Qed.

Lemma read_curr_enc post e : - 2 ^ 31 <= cq_enc (read_curr post e) < 2 ^ 31 /\ cq_enc (read_curr post e) <> 1.
Proof.
  unfold read_curr. destruct (read_post post e) as [m|j]; [cbn; zpow; lia|].
  destruct (match read_version j with inl _ => _ | inr _ => _ end) as [[[rc msg] current] sign]. cbv zeta.
  destruct (json_get j (bytes_of "key_id")) as [v|].
  - pose proof (json_int_range v). destruct (Z.eqb_spec (json_int v) 1); [cbn; zpow; lia|].
    destruct (5 <? json_int v); cbn [orb cq_enc]; zpow; lia.
  - cbn. zpow. lia.
Qed.

Lemma sign_step_total q text e : exists s,
  (if negb (cq_sign q =? 0) then
     '(j, sign_c) ← HyvCryptRsaSign (de_crypt e) (Some text) (zlen text) (Some (resize (Z.to_nat 4096) Byte.x00 (de_sign_buf e))) 4096;
     Some (if j <? 0 then [] else ztake (u32 j) sign_c)
   else Some (@nil byte)) = Some s.
Proof.
  destruct (negb _); [|eauto]. destruct (sign_total (de_crypt e) text (de_sign_buf e) _ eq_refl) as ([j sc] & ->).
  cbn [mbind option_bind]. eauto.
Qed.

Lemma crypt_total q text e :
  - 2 ^ 31 <= cq_enc q < 2 ^ 31 -> cq_enc q <> 1 -> zlen text < 2 ^ 31 -> exists r, sign_and_encrypt q text e = Some r.
Proof.
  intros Hq H1 Ht. unfold sign_and_encrypt. cbv zeta. destruct (sign_step_total q text e) as (sg & ->).
  cbn [mbind option_bind]. destruct (Z.eqb_spec (cq_enc q) 0) as [|H0]; cbn [orb]; [eauto|]. destruct (negb _); [eauto|].
  destruct (enc_total (de_crypt e) (cq_enc q) text (de_enc_buf e) Hq H0 H1 Ht) as ([j tb] & ->). cbn [mbind option_bind]. eauto.
Qed.

Lemma curr_text_small r : zlen (curr_text r) < 2 ^ 31.
Proof. unfold curr_text. destruct (serialize r) as [b|] eqn:E; [exact (msg_small _ _ E)|]. vm_compute. reflexivity. Qed.

Lemma curr_response_total q e st :
  state_ok st -> env_ok e ->
  exists rsp s w, curr_response config dispatch_seed q e (sv_seeds st) (sv_world st) = Some (rsp, s, w) /\ region_step st s w.
Proof.
  intros [Hk Hm Hl Hc] [He _ Hf]. destruct st as [s w]. cbn [sv_seeds sv_world] in *. pose proof (same_step s w) as Hs.
  unfold curr_response. destruct (regionInfo config) as [i|]; [|eauto 6].
  destruct (if cq_current q && _ then _ else _) as [rc msg]. cbv zeta.
  pose proof (load_seed_ok _ _ Hc Hf) as Hls.
  assert (region_step (mkServer s w) (mkSeeds (list_seed s) (load_seed (curr_seed s) (de_region_file e))) w) as Hst.
  { split; [left; reflexivity|]. intros _. constructor; assumption. }
  destruct (load_seed _ _) as [[t|]|]; [|eauto 6..].
  destruct (seed_key (de_entropy e) t (w_mt w) He Hm (Hls t eq_refl)) as (k & m' & -> & Ck & Fm & Hx & Ek).
  cbn [mbind option_bind]. rewrite Ek. cbn [mbind option_bind]. do 3 eexists. split; [reflexivity|]. apply loads_step; assumption.
Qed.

Lemma curr_total post e st :
  state_ok st -> env_ok e ->
  exists sign text s w, getQueryCurrRegionHttpRsp config dispatch_seed post e (sv_seeds st) (sv_world st) = Some (sign, text, s, w) /\
    region_step st s w.
Proof.
  intros Hs He. unfold getQueryCurrRegionHttpRsp. cbv zeta.
  destruct (curr_response_total (read_curr post (de_sdk e)) e st Hs He) as (rsp & s & w & -> & Hst). cbn [mbind option_bind].
  destruct (read_curr_enc post (de_sdk e)) as [Hq H1].
  destruct (crypt_total (read_curr post (de_sdk e)) (curr_text rsp) e Hq H1 (curr_text_small rsp)) as ([sg text] & ->).
  cbn [mbind option_bind]. eauto 8.
Qed.

(** What a request may change: the object of one account, or the generator. *)
Definition world_step (w w' : World) : Prop := rewrites w w' \/ exists m, w' = set_mt m w.

Lemma rewrites_ok st w' : rewrites (sv_world st) w' -> state_ok st -> state_ok (mkServer (sv_seeds st) w').
Proof.
  intros Hr [Hk Hm Hl Hc]. constructor; cbn [sv_world sv_seeds]; try assumption; [exact (rewrites_keys _ _ Hr Hk)|].
  destruct (rewrites_rest _ _ Hr) as (_ & -> & _). exact Hm.
Qed.

(** The request that the server does not survive. *)
Definition kills_server (r : request) (body : list byte) (e : dispatch_env) (st : server_state) : Prop :=
  route (rq_method r) (rq_path r) = SDK_BIND_REALNAME /\ begins "POST" (rq_method r) = true /\
  deadly (Some (c_string body)) (de_sdk e) (sv_world st).

Definition answers_ok (o : option (answer * server_state)) (st : server_state) : Prop :=
  exists a st', o = Some (a, st') /\ state_ok st' /\ world_step (sv_world st) (sv_world st').

Lemma handler_answers x body e st :
  state_ok st ->
  (x = E_bind /\ deadly body (de_sdk e) (sv_world st)) \/
  answers_ok (from_handler (endpoint_handler x body (de_sdk e) (sv_world st)) st) st.
Proof.
  intros Hs. destruct (endpoint_answered x body (de_sdk e) (sv_world st) (so_keys _ Hs)) as [H|(r & w' & E & Hr)]; [auto|].
  right. rewrite E. eexists _, _. split; [reflexivity|]. split; [apply rewrites_ok; assumption|left; exact Hr].
Qed.

Lemma region_answers st (o : option (answer * server_state)) a s w :
  state_ok st -> o = Some (a, mkServer s w) -> region_step st s w -> answers_ok o st.
Proof.
  intros Hs -> [Hw Ho]. eexists _, _. split; [reflexivity|]. split; [exact (Ho Hs)|]. cbn [sv_world].
  destruct Hw as [-> |H]; [left; left; reflexivity|right; exact H].
Qed.

Lemma unchanged_answers st a : state_ok st -> answers_ok (Some (a, st)) st.
Proof. intros Hs. exists a, st. split; [reflexivity|]. split; [exact Hs|]. left. left. reflexivity. Qed.

Lemma endpoint_total i body e st :
  state_ok st -> env_ok e ->
  (i = SDK_BIND_REALNAME /\ deadly body (de_sdk e) (sv_world st)) \/ answers_ok (call_endpoint config dispatch_seed i body e st) st.
Proof.
  intros Hs He. unfold call_endpoint. cbv zeta.
  destruct (Z.eqb_spec i SDK_QUERY_REGION_LIST).
  { right. destruct (list_total body e st Hs He) as (text & s & w & -> & H). exact (region_answers _ _ _ _ _ Hs eq_refl H). }
  destruct (Z.eqb_spec i SDK_QUERY_CURR_REGION).
  { right. destruct (curr_total body e st Hs He) as (sg & text & s & w & -> & H). exact (region_answers _ _ _ _ _ Hs eq_refl H). }
  pose proof (fun x => handler_answers x body e st Hs) as Hh.
  destruct (Z.eqb_spec i SDK_GET_AUTH_TOKEN); [destruct (Hh E_login) as [[? _]|]; [discriminate|auto]|].
  destruct (Z.eqb_spec i SDK_CHECK_AUTH_TOKEN); [destruct (Hh E_verify) as [[? _]|]; [discriminate|auto]|].
  destruct (Z.eqb_spec i SDK_CHECK_COMBO_TOKEN); [destruct (Hh E_combo) as [[? _]|]; [discriminate|auto]|].
  destruct (Z.eqb_spec i SDK_ACTION_TICKET); [destruct (Hh E_ticket) as [[? _]|]; [discriminate|auto]|].
  destruct (Z.eqb_spec i SDK_BIND_REALNAME); [destruct (Hh E_bind) as [[_ ?]|]; auto|].
  destruct (Z.eqb_spec i SDK_LOG); [destruct (Hh E_log) as [[? _]|]; [discriminate|auto]|].
  right. apply unchanged_answers, Hs.
Qed.

Lemma no_body_deadly e w : ~ deadly None e w.
Proof. intros (j & t & (p & E & _) & _). discriminate E. Qed.

Lemma handle_total r body e st :
  state_ok st -> env_ok e -> kills_server r body e st \/ answers_ok (handle config dispatch_seed r body e st) st.
Proof.
  intros Hs He. unfold handle. cbv zeta. destruct (_ && _); [|right; apply unchanged_answers, Hs].
  set (body' := if begins "POST" (rq_method r) then _ else _).
  destruct (endpoint_total (route (rq_method r) (rq_path r)) body' e st Hs He) as [[E D]|H]; [|auto].
  left. unfold kills_server. split; [exact E|]. unfold body' in D. destruct (begins "POST" (rq_method r)); [auto|].
  destruct (no_body_deadly _ _ D).
Qed.

Lemma respond_total r body e st :
  state_ok st -> env_ok e ->
  kills_server r body e st \/
  exists out st', respond config dispatch_seed PACKAGE_VERSION r body e st = Some (out, st') /\ state_ok st' /\
    world_step (sv_world st) (sv_world st') /\ 0 < zlen out < buf_len.
Proof.
  intros Hs He. destruct (handle_total r body e st Hs He) as [H|(a & st' & E & Hs' & Hw)]; [auto|]. right.
  unfold respond. rewrite E. eexists _, _. split; [reflexivity|]. split; [exact Hs'|]. split; [exact Hw|].
  rewrite length_take. assert (0 < zlen (reply_of PACKAGE_VERSION r a)) by (unfold reply_of, reply_text; rewrite length_app; cbn; lia).
  unfold buf_len. lia.
Qed.

Lemma kills_respond r body e st :
  state_ok st -> kills_server r body e st -> respond config dispatch_seed PACKAGE_VERSION r body e st = None.
Proof.
  intros Hs (E & P & D). unfold respond. assert (handle config dispatch_seed r body e st = None) as ->; [|reflexivity].
  unfold handle. rewrite E, P. cbv zeta.
  change (from_handler (handleBindRealname (Some (c_string body)) (de_sdk e) (sv_world st)) st = None).
  rewrite bind_dies by (assumption || apply so_keys; assumption). reflexivity.
Qed.

(** One of the requests, reached in order, ends the program. *)
Inductive meets_killer : list http_request -> server_state -> Prop :=
  | killer_now q qs st : kills_server (hr_request q) (hr_body q) (hr_env q) st -> meets_killer (q :: qs) st
  | killer_later q qs st out st' :
      respond config dispatch_seed PACKAGE_VERSION (hr_request q) (hr_body q) (hr_env q) st = Some (out, st') ->
      meets_killer qs st' -> meets_killer (q :: qs) st.

Lemma not_bind_survives qs st :
  Forall (fun q => route (rq_method (hr_request q)) (rq_path (hr_request q)) <> SDK_BIND_REALNAME) qs -> ~ meets_killer qs st.
Proof.
  intros Hq H. induction H as [q qs st (E & _)|q qs st out st' _ _ IH]; inversion Hq; auto.
Qed.

Lemma respond_all_app qs1 qs2 st :
  respond_all config dispatch_seed PACKAGE_VERSION (qs1 ++ qs2) st =
    ('(outs1, st) ← respond_all config dispatch_seed PACKAGE_VERSION qs1 st;
     '(outs2, st) ← respond_all config dispatch_seed PACKAGE_VERSION qs2 st; Some (outs1 ++ outs2, st)).
Proof.
  revert st. induction qs1 as [|q qs1 IH]; intros st; cbn [app respond_all].
  - cbn [mbind option_bind]. destruct (respond_all _ _ _ qs2 st) as [[? ?]|]; reflexivity.
  - destruct (respond _ _ _ _ _ _ st) as [[out st1]|]; [|reflexivity]. cbn [mbind option_bind]. rewrite IH.
    destruct (respond_all _ _ _ qs1 st1) as [[outs st2]|]; [|reflexivity]. cbn [mbind option_bind].
    destruct (respond_all _ _ _ qs2 st2) as [[? ?]|]; reflexivity.
Qed.

(** A killer is met exactly when there are not answers to all requests. *)
Lemma respond_all_total qs st :
  state_ok st -> Forall (fun q => env_ok (hr_env q)) qs ->
  match respond_all config dispatch_seed PACKAGE_VERSION qs st with
  | Some (outs, st') => ~ meets_killer qs st /\ state_ok st' /\ length outs = length qs /\ Forall (fun out => 0 < zlen out < buf_len) outs
  | None => meets_killer qs st
  end.
Proof.
  intros Hs He. revert st Hs. induction He as [|q qs He _ IH]; intros st Hs; cbn [respond_all].
  { split; [intros H; inversion H|]. auto. }
  destruct (respond_total (hr_request q) (hr_body q) (hr_env q) st Hs He) as [H|(out & st1 & E & Hs1 & _ & L)].
  { rewrite kills_respond by assumption. apply killer_now, H. }
  rewrite E. cbn [mbind option_bind]. specialize (IH st1 Hs1).
  destruct (respond_all _ _ _ qs st1) as [[outs st2]|]; cbn [mbind option_bind]; [|exact (killer_later q qs st out st1 E IH)].
  destruct IH as (Hn & H2 & Hl & Hf). split; [|split; [exact H2|cbn; auto]].
  intros H. inversion H as [q0 qs0 st0 Hk|q0 qs0 st0 out0 st0' E0 Hk]; subst.
  - rewrite kills_respond in E by assumption. discriminate E.
  - rewrite E in E0. injection E0 as <- <-. contradiction.
Qed.

(** C18: Connections whose requests arrive whole, and whose clients take the
    replies, are served in their order, each with what its request and the state
    call for: what the buffer holds from earlier requests and replies, which is
    never cleared, makes no difference. *)
Theorem dispatch_refines_responder pkt_buf qs st :
  zlen pkt_buf = buf_len -> Forall (fun q => whole (hr_request q) (hr_body q) /\ takes_reply (hr_sends q)) qs ->
  dispatch_main config dispatch_seed PACKAGE_VERSION pkt_buf (map connect qs) st =
    respond_all config dispatch_seed PACKAGE_VERSION qs st.
Proof.
  intros Hl Hq. pose proof (main_responds config dispatch_seed PACKAGE_VERSION pkt_buf qs [] st Hl Hq) as H. rewrite app_nil_r in H.
  destruct (respond_all _ _ _ qs st) as [[outs st']|]; [|exact H]. destruct H as (pb & _ & ->). cbn. rewrite app_nil_r. reflexivity.
Qed.

(** C19: From a state with readable keys and good key files, the dispatch server
    answers every one of the requests, each with less than a buffer, and is in
    such a state again; unless one of them is a POST to /binder/verify that is
    deadly when its turn comes, and only then does it crash. *)
Theorem dispatch_serves_all pkt_buf qs st :
  zlen pkt_buf = buf_len -> state_ok st ->
  Forall (fun q => whole (hr_request q) (hr_body q) /\ takes_reply (hr_sends q)) qs -> Forall (fun q => env_ok (hr_env q)) qs ->
  (dispatch_main config dispatch_seed PACKAGE_VERSION pkt_buf (map connect qs) st = None <-> meets_killer qs st) /\
  (~ meets_killer qs st -> exists outs st',
    dispatch_main config dispatch_seed PACKAGE_VERSION pkt_buf (map connect qs) st = Some (outs, st') /\
    length outs = length qs /\ Forall (fun out => 0 < zlen out < buf_len) outs /\ state_ok st').
Proof.
  intros Hl Hs Hw He. pose proof (main_responds config dispatch_seed PACKAGE_VERSION pkt_buf qs [] st Hl Hw) as M. rewrite app_nil_r in M.
  pose proof (respond_all_total qs st Hs He) as H. destruct (respond_all _ _ _ qs st) as [[outs st']|].
  - destruct M as (pb & _ & ->). cbn. rewrite app_nil_r. destruct H as (Hn & H2 & H3 & H4). split; [split; [discriminate|contradiction]|]. eauto 6.
  - rewrite M. split; [tauto|contradiction].
Qed.

(** C28: A client can stop the dispatch server: when a call of [send] for its
    reply fails, the descriptor is set to -1 and the loop goes on with it
    forever; whatever connects later is never accepted. *)
Theorem dispatch_send_hangs pkt_buf qs q sends conns st :
  zlen pkt_buf = buf_len -> state_ok st -> Forall (fun q => env_ok (hr_env q)) (qs ++ [q]) ->
  Forall (fun q => whole (hr_request q) (hr_body q) /\ takes_reply (hr_sends q)) qs -> whole (hr_request q) (hr_body q) ->
  hr_sends q = SendError :: sends -> ~ meets_killer (qs ++ [q]) st ->
  exists outs st', respond_all config dispatch_seed PACKAGE_VERSION qs st = Some (outs, st') /\
    exists st'', dispatch_main config dispatch_seed PACKAGE_VERSION pkt_buf (map connect (qs ++ [q]) ++ conns) st = Some (outs ++ [[]], st'').
Proof.
  intros Hl Hs He Hw Hq Hf Hk. pose proof (respond_all_total (qs ++ [q]) st Hs He) as Ht.
  rewrite map_app, <- app_assoc. change (map connect [q]) with [connect q]. pose proof (main_responds config dispatch_seed PACKAGE_VERSION pkt_buf qs ([connect q] ++ conns) st Hl Hw) as M.
  rewrite respond_all_app in Ht. destruct (respond_all _ _ _ qs st) as [[outs st']|]; [|contradiction]. exists outs, st'. split; [reflexivity|].
  cbn [mbind option_bind respond_all] in Ht. destruct M as (pb & Lp & ->).
  cbn [map app dispatch_main connect cn_recv cn_send cn_env].
  pose proof (serve_whole config dispatch_seed PACKAGE_VERSION pb _ _ (hr_later q) (hr_env q) st' Lp Hq) as H.
  destruct (respond _ _ _ _ _ _ st') as [[out st1]|]; cbn [mbind option_bind] in Ht; [|contradiction].
  destruct H as (pb2 & -> & _). cbn [mbind option_bind]. rewrite Hf.
  destruct Ht as (_ & _ & _ & Ho). apply Forall_app in Ho as [_ Ho]. apply Forall_inv in Ho.
  destruct out as [|c out]; [cbn in Ho; lia|]. cbn [send_loop]. rewrite send_stuck by discriminate. eauto.
Qed.
End total.

(** ** Reading a reply *)

(** "HTTP/1.N STATUS MESSAGE CRLF (NAME: VALUE CRLF)* CRLF" *)
Definition print_response (r : response) : list byte :=
  print_version (rs_minor r) ++ [zb 32] ++ dec3 (rs_status r) ++ [zb 32] ++ rs_msg r ++ CRLF
  ++ concat (map print_header (rs_headers r)) ++ CRLF.

Definition value_ok (v : list byte) : Prop := Forall (fun c => is_ctl c = false) v /\ no_blank_ends v.

Record response_ok (max : Z) (r : response) : Prop := {
  rr_minor : 0 <= rs_minor r <= 9;
  rr_status : 0 <= rs_status r < 1000;
  rr_msg : value_ok (rs_msg r);
  rr_headers : Forall HttpProps.header_ok (rs_headers r);
  rr_count : zlen (rs_headers r) <= max
}.

Lemma digit_char d : 0 <= d < 10 -> bz (zb (48 + d)) = 48 + d.
Proof. intros H. rewrite bz_zb. apply wrap_id. unfold in_u. zpow. lia. Qed.

Lemma dec3_digits n : 0 <= n < 1000 -> dec3 n = [zb (48 + n / 100); zb (48 + n / 10 mod 10); zb (48 + n mod 10)].
Proof.
  intros H. assert (forallb (fun i => let n := Z.of_nat i in
    bool_decide (dec3 n = [zb (48 + n / 100); zb (48 + n / 10 mod 10); zb (48 + n mod 10)])) (seq 0 1000) = true) as A by (vm_compute; reflexivity).
  rewrite forallb_forall in A. specialize (A (Z.to_nat n)). rewrite in_seq in A.
  specialize (A ltac:(lia)). cbv zeta in A. rewrite Z2Nat.id in A by lia. apply bool_decide_eq_true in A. exact A.
Qed.

Lemma parse_status n rest : 0 <= n < 1000 -> PARSE_INT_3 (dec3 n ++ rest) = ROk (n, rest).
Proof.
  intros H. rewrite dec3_digits by exact H. cbn [app]. unfold PARSE_INT_3.
  assert (forall mul d l, 0 <= d < 10 -> PARSE_INT mul (zb (48 + d) :: l) = ROk (mul * d, l)) as P.
  { intros mul d l Hd. cbn [PARSE_INT]. rewrite digit_char by exact Hd. rewrite (proj2 (Z.ltb_ge _ _)), (proj2 (Z.ltb_ge _ _)) by lia.
    cbn [orb]. do 2 f_equal. lia. }
  rewrite P by (Z.div_mod_to_equations; lia). cbn [mbind res_bind]. unfold mbind, res_bind.
  rewrite P by (Z.div_mod_to_equations; lia). rewrite P by (Z.div_mod_to_equations; lia).
  do 2 f_equal. Z.div_mod_to_equations. lia.
Qed.

Lemma response_msg_space m after : value_ok m -> response_msg (zb 32 :: m) (CRLF ++ after) = ROk m.
Proof.
  intros [_ [Hb _]]. unfold response_msg. change (bz (zb 32) =? 32) with true. cbv iota.
  change (strip_spaces (zb 32 :: m) (CRLF ++ after)) with (strip_spaces m (CRLF ++ after)).
  destruct m as [|c m]; [reflexivity|]. cbn [strip_spaces]. pose proof (Hb c m eq_refl) as H. unfold is_blank in H.
  apply orb_false_elim in H as [-> _]. reflexivity.
Qed.

Lemma response_run max r body : response_ok max r -> parse_response (print_response r ++ body) max = ROk (r, body).
Proof.
  intros [Hv Hs [Hm1 Hm2] Hh Hc]. unfold parse_response, print_response. rewrite <- !app_assoc.
  rewrite version_run by (auto; cbn; lia). cbn [mbind res_bind app]. unfold mbind, res_bind.
  change (negb (bz (zb 32) =? 32)) with false. cbv iota.
  rewrite dec3_digits by exact Hs. cbn [app]. rewrite skip_spaces_run by (rewrite digit_char; Z.div_mod_to_equations; lia).
  cbn [length]. rewrite (proj2 (Z.ltb_ge _ _)) by lia.
  match goal with |- context [PARSE_INT_3 (?a :: ?b :: ?c :: ?l)] => change (a :: b :: c :: l) with ([a; b; c] ++ l) end.
  rewrite <- (dec3_digits (rs_status r)), parse_status by exact Hs. cbv iota.
  change (zb 32 :: rs_msg r ++ ?x) with ((zb 32 :: rs_msg r) ++ x).
  rewrite get_token_run by (constructor; [reflexivity|exact Hm1]). rewrite drop_app_length.
  rewrite response_msg_space by (split; assumption).
  rewrite headers_run; [|exact Hh|cbn; lia|lia]. cbn [app]. destruct r. reflexivity.
Qed.

(** Decimal numbers, and a reader for them. *)
Definition decimal (s : list byte) : Z := fold_left (fun v c => 10 * v + (bz c - 48)) s 0.

Lemma dec_digits_spec fuel n acc :
  0 <= n < 10 ^ Z.of_nat fuel -> (0 < fuel)%nat ->
  exists ds, dec_digits fuel n acc = ds ++ acc /\ ds <> [] /\ Forall (fun c => isdigit (bz c) = true) ds /\
    forall v, fold_left (fun v c => 10 * v + (bz c - 48)) ds v = v * 10 ^ zlen ds + n.
Proof.
  revert n acc. induction fuel as [|fuel IH]; intros n acc Hn Hf; [lia|]. cbn [dec_digits].
  assert (0 <= n mod 10 < 10) as Hd by (apply Z.mod_pos_bound; lia). assert (isdigit (bz (zb (48 + n mod 10))) = true) as Hi.
  { rewrite digit_char by exact Hd. unfold isdigit. apply andb_true_intro. split; apply Z.leb_le; lia. }
  cbv zeta. destruct (Z.ltb_spec n 10) as [Hs|Hs].
  - exists [zb (48 + n mod 10)]. split; [reflexivity|]. split; [discriminate|]. split; [constructor; [exact Hi|constructor]|].
    intros v. cbn [fold_left length]. rewrite digit_char by exact Hd. rewrite Z.mod_small by lia. change (Z.of_nat 1) with 1. rewrite Z.pow_1_r. lia.
  - assert (0 <= n / 10 < 10 ^ Z.of_nat fuel) as Hq.
    { rewrite Nat2Z.inj_succ, Z.pow_succ_r in Hn by lia. split; [apply Z.div_pos; lia|apply Z.div_lt_upper_bound; lia]. }
    assert (0 < fuel)%nat as Hf' by (destruct fuel; [change (10 ^ Z.of_nat 0) with 1 in Hq; assert (1 <= n / 10) by (apply Z.div_le_lower_bound; lia); lia|lia]).
    destruct (IH (n / 10) (zb (48 + n mod 10) :: acc) Hq Hf') as (ds & -> & _ & H2 & H3).
    exists (ds ++ [zb (48 + n mod 10)]). rewrite <- app_assoc. split; [reflexivity|]. split; [destruct ds; discriminate|].
    split; [apply Forall_app; split; [exact H2|constructor; [exact Hi|constructor]]|].
    intros v. rewrite fold_left_app, H3. cbn [fold_left]. rewrite digit_char by exact Hd. rewrite length_app. cbn [length].
    replace (Z.of_nat (length ds + 1)) with (Z.succ (zlen ds)) by lia. rewrite Z.pow_succ_r by lia. Z.div_mod_to_equations. lia.
Qed.

Lemma dec_spec n : 0 <= n < 10 ^ 20 -> dec n <> [] /\ Forall (fun c => isdigit (bz c) = true) (dec n) /\ decimal (dec n) = n.
Proof.
  intros H. unfold dec. rewrite (proj2 (Z.ltb_ge n 0)) by lia.
  destruct (dec_digits_spec 20 n [] H ltac:(lia)) as (ds & -> & H1 & H2 & H3). rewrite app_nil_r. split; [exact H1|]. split; [exact H2|].
  unfold decimal. rewrite H3. lia.
Qed.

Lemma digits_value v : Forall (fun c => isdigit (bz c) = true) v -> value_ok v.
Proof.
  intros H. assert (forall c, isdigit (bz c) = true -> is_ctl c = false /\ is_blank c = false) as D.
  { intros c Hc. destruct c; vm_compute in Hc |- *; auto; discriminate. }
  split; [eapply Forall_impl; [exact H|]; intros c Hc; apply D, Hc|]. split; intros c r E.
  - rewrite E in H. inversion H. apply D. assumption.
  - assert (Forall (fun c => isdigit (bz c) = true) (rev v)) as Hr by (apply Forall_rev; exact H). rewrite E in Hr. inversion Hr. apply D. assumption.
Qed.

(** ** The replies of the server are responses *)

Definition no_blank_head (v : list byte) : bool := match v with c :: _ => negb (is_blank c) | [] => true end.

Definition plain (v : list byte) : bool := forallb (fun c => negb (is_ctl c)) v && no_blank_head v && no_blank_head (rev v).

Lemma plain_value v : plain v = true -> value_ok v.
Proof.
  unfold plain. intros H. apply andb_prop in H as [H H3]. apply andb_prop in H as [H1 H2]. split; [|split].
  - rewrite forallb_forall in H1. apply List.Forall_forall. intros c Hc. apply negb_true_iff, H1, Hc.
  - intros c r ->. apply negb_true_iff, H2.
  - intros c r E. rewrite E in H3. apply negb_true_iff, H3.
Qed.

Lemma plain_header n v :
  negb (bool_decide (bytes_of n = [])) && forallb token_char_map (bytes_of n) = true -> value_ok v ->
  HttpProps.header_ok (mkHdr (Some (bytes_of n)) v).
Proof.
  intros H [H1 H2]. apply andb_prop in H as [Hn Ht]. constructor; cbn [hd_name hd_value]; [|exact H1|exact H2].
  exists (bytes_of n). split; [reflexivity|]. split; [apply negb_true_iff, bool_decide_eq_false in Hn; exact Hn|].
  rewrite forallb_forall in Ht. apply List.Forall_forall. exact Ht.
Qed.

Record answer_ok (a : answer) : Prop := {
  ao_rsp : value_ok (an_rsp a);
  ao_mime : value_ok (an_mime a);
  ao_extra : an_extra a = [] \/ an_extra a = ALLOW
}.

Definition text_header (name : string) (v : list byte) : phr_header := mkHdr (Some (bytes_of name)) v.
Arguments text_header name%_string v.

Section replies.
Context {JS : Json} {OS : Openssl} {CL : MsgCodec QueryRegionListHttpRsp} {CR : MsgCodec QueryCurrRegionHttpRsp} {CA : MsgCodec AccountInfo}.
Variable config : config_t.
Variable dispatch_seed : option ec2b_t.
Variable PACKAGE_VERSION : list byte.

(** The response that a reply is. *)
Definition response_of (r : request) (a : answer) : response :=
  mkResp (rq_minor r) (final_status (route (rq_method r) (rq_path r))) (an_rsp a)
    ([text_header "Content-Length" (dec (zlen (an_body a))); text_header "Content-Type" (an_mime a);
      text_header "Connection" (bytes_of "close"); text_header "Server" (PACKAGE_NAME ++ bytes_of "/" ++ PACKAGE_VERSION)]
     ++ (if decide (an_extra a = []) then [] else [text_header "Allow" (bytes_of "GET, HEAD, POST, OPTIONS")])).

Definition content_of (r : request) (a : answer) : list byte :=
  if begins "HEAD" (rq_method r) then [] else c_string (an_body a).

Lemma dec_digit n : 0 <= n < 10 -> dec n = [zb (48 + n)].
Proof.
  intros H. unfold dec. rewrite (proj2 (Z.ltb_ge n 0)) by lia. cbn [dec_digits]. cbv zeta. rewrite (proj2 (Z.ltb_lt n 10)) by lia.
  rewrite Z.mod_small by lia. reflexivity.
Qed.

Lemma reply_printed r a :
  0 <= rq_minor r <= 9 -> answer_ok a ->
  reply_of PACKAGE_VERSION r a = print_response (response_of r a) ++ content_of r a.
Proof.
  intros Hm [_ _ He]. unfold reply_of, reply_text, print_response, response_of, content_of, print_version.
  cbn [rs_minor rs_status rs_msg rs_headers]. rewrite dec_digit by lia.
  assert (forall n v, print_header (text_header n v) = bytes_of n ++ [zb 58; zb 32] ++ v ++ CRLF) as Hp by reflexivity.
  destruct He as [-> | ->].
  - rewrite decide_True by reflexivity. cbn [app map concat]. rewrite !Hp. repeat (rewrite <- app_assoc || rewrite app_nil_r || cbn [app]). reflexivity.
  - rewrite decide_False by (vm_compute; discriminate). cbn [app map concat]. rewrite !Hp.
    repeat (rewrite <- app_assoc || rewrite app_nil_r || cbn [app]). reflexivity.
Qed.

Lemma json_answer_ok rsp body : plain (bytes_of rsp) = true -> answer_ok (json_answer rsp body).
Proof. intros H. constructor; [apply plain_value, H|apply plain_value; vm_compute; reflexivity|auto]. Qed.

Lemma text_answer_ok body : answer_ok (mkAnswer (bytes_of "OK") body MIME_TEXT []).
Proof. constructor; [apply plain_value; vm_compute; reflexivity..|auto]. Qed.

Lemma status_answer_ok status : answer_ok (status_answer status).
Proof.
  unfold status_answer. repeat (destruct (status =? _); [first [apply json_answer_ok; reflexivity
    |constructor; [apply plain_value; vm_compute; reflexivity..|cbn [an_extra]; auto]]|]). apply json_answer_ok. reflexivity.
Qed.

Lemma from_handler_ok o st a st' : from_handler o st = Some (a, st') -> answer_ok a.
Proof. unfold from_handler. destruct o as [[text w]|]; [|discriminate]. intros E. injection E as <- _. apply json_answer_ok. reflexivity. Qed.

Lemma endpoint_answer_ok i body e st a st' : call_endpoint config dispatch_seed i body e st = Some (a, st') -> answer_ok a.
Proof.
  unfold call_endpoint. cbv zeta. destruct (i =? SDK_QUERY_REGION_LIST).
  { destruct (getQueryRegionListHttpRsp _ _ _ _ _) as [[[text s] w]|]; [|discriminate]. intros E. injection E as <- _. apply text_answer_ok. }
  destruct (i =? SDK_QUERY_CURR_REGION).
  { destruct (getQueryCurrRegionHttpRsp _ _ _ _ _ _) as [[[[sg text] s] w]|]; [|discriminate]. intros E. injection E as <- _.
    unfold curr_answer. destruct (decide _); [apply text_answer_ok|apply json_answer_ok; reflexivity]. }
  repeat (destruct (i =? _); [apply from_handler_ok|]). intros E. injection E as <- _. apply json_answer_ok. reflexivity.
Qed.

Lemma handle_answer_ok r body e st a st' : handle config dispatch_seed r body e st = Some (a, st') -> answer_ok a.
Proof.
  unfold handle. cbv zeta. destruct (_ && _); [apply endpoint_answer_ok|]. intros E. injection E as <- _. apply status_answer_ok.
Qed.

Lemma find_endpoint_range i l path k : find_endpoint i l path = Some k -> i <= k < i + zlen l.
Proof.
  revert i. induction l as [|x l IH]; intros i; cbn [find_endpoint length]; [discriminate|]. destruct (same_prefix _ _ _).
  - intros E. injection E as <-. lia.
  - intros E%IH. lia.
Qed.

(** 200 for an endpoint and for the root; 204, 400, 403, 404 or 405. *)
Lemma route_status meth path :
  In (final_status (route meth path)) [200; 204; 400; 403; 404; 405].
Proof.
  unfold route. destruct (begins "OPTIONS" meth); [cbn; tauto|]. destruct (negb _); [cbn; tauto|].
  destruct (begins "/ " path || _); [destruct (begins "POST" meth); cbn; tauto|]. destruct (_ || _); [cbn; tauto|].
  destruct (find_endpoint 0 sdkEndpoints path) as [k|] eqn:E; [|destruct (begins "/" path); cbn; tauto].
  apply find_endpoint_range in E. change (0 + zlen sdkEndpoints) with 16 in E. unfold final_status.
  rewrite (proj2 (Z.eqb_neq k 1204)), (proj2 (Z.leb_le 0 k)), (proj2 (Z.ltb_lt k SDK_ENDPOINT_CNT)) by (unfold SDK_ENDPOINT_CNT; lia).
  cbn. tauto.
Qed.

Lemma response_of_ok r a :
  0 <= rq_minor r <= 9 -> answer_ok a -> value_ok PACKAGE_VERSION -> PACKAGE_VERSION <> [] -> zlen (an_body a) < 10 ^ 20 ->
  response_ok 5 (response_of r a).
Proof.
  intros Hm [H1 H2 H3] Hv Hne Hb. assert (value_ok (PACKAGE_NAME ++ bytes_of "/" ++ PACKAGE_VERSION)) as Hs.
  { destruct Hv as [V1 [_ V3]]. split; [repeat (apply Forall_app; split); [vm_compute; repeat constructor..|exact V1]|].
    split; intros c rest E; [injection E as <- _; reflexivity|]. rewrite app_assoc, rev_app_distr in E.
    destruct (rev PACKAGE_VERSION) as [|d l] eqn:Er; [|injection E as <- _; exact (V3 d l eq_refl)].
    destruct Hne. rewrite <- (rev_involutive PACKAGE_VERSION), Er. reflexivity. }
  destruct (dec_spec (zlen (an_body a)) ltac:(lia)) as (_ & Hd & _).
  constructor; unfold response_of; cbn [rs_minor rs_status rs_msg rs_headers]; [exact Hm| |exact H1| |].
  - pose proof (route_status (rq_method r) (rq_path r)) as R. cbn in R. intuition lia.
  - apply Forall_app. split; [repeat (apply Forall_cons; split); try apply Forall_nil; try exact I; apply plain_header; try reflexivity|].
    + apply digits_value, Hd.
    + exact H2.
    + apply plain_value. vm_compute. reflexivity.
    + exact Hs.
    + destruct (decide _); [constructor|]. constructor; [|constructor]. apply plain_header; [reflexivity|]. apply plain_value. vm_compute. reflexivity.
  - destruct (decide _); cbn; lia.
Qed.
End replies.

(** ** What a client reads *)

(** The value of the header with a name. *)
Definition header_value (name : string) (r : response) : option (list byte) :=
  match list_find (fun h => hd_name h = Some (bytes_of name)) (rs_headers r) with Some (_, h) => Some (hd_value h) | None => None end.
Arguments header_value name%_string r.

Section client.
Context {JS : Json} {OS : Openssl} {CL : MsgCodec QueryRegionListHttpRsp} {CR : MsgCodec QueryCurrRegionHttpRsp} {CA : MsgCodec AccountInfo}.
Variable config : config_t.
Variable dispatch_seed : option ec2b_t.
Variable PACKAGE_VERSION : list byte.

(** The version that configure sets is a plain word. *)
Hypothesis version_ok : value_ok PACKAGE_VERSION.
Hypothesis version_set : PACKAGE_VERSION <> [].

Abbreviation head_of r a := (print_response (response_of PACKAGE_VERSION r a)).

(** The parser takes the head of a reply, whatever follows. *)
Lemma head_parses r a max rest :
  0 <= rq_minor r <= 9 -> answer_ok a -> zlen (an_body a) < 10 ^ 20 -> 5 <= max -> zlen (head_of r a ++ rest) < 2 ^ 31 ->
  phr_parse_response (head_of r a ++ rest) max 0 = ROk (zlen (head_of r a), response_of PACKAGE_VERSION r a).
Proof.
  change (2 ^ 31) with 2147483648. intros Hm Ha Hb Hmax Hl.
  destruct (response_of_ok PACKAGE_VERSION r a Hm Ha version_ok version_set Hb) as [R1 R2 R3 R4 R5].
  unfold phr_parse_response, run_parser. cbn [Z.eqb]. cbn [mbind res_bind].
  rewrite response_run by (constructor; assumption || lia). cbn [mbind res_bind]. rewrite length_app in *.
  unfold mbind, res_bind. rewrite (swrap_id 32) by (zpow; lia). do 2 f_equal. lia.
Qed.

(** What the headers say of the answer. *)
Definition describes (rsp : response) (r : request) (a : answer) : Prop :=
  rs_minor rsp = rq_minor r /\ rs_status rsp = final_status (route (rq_method r) (rq_path r)) /\ rs_msg rsp = an_rsp a /\
  header_value "Content-Type" rsp = Some (an_mime a) /\
  exists n, header_value "Content-Length" rsp = Some n /\ decimal n = zlen (an_body a).

Lemma response_describes r a : zlen (an_body a) < 10 ^ 20 -> describes (response_of PACKAGE_VERSION r a) r a.
Proof.
  intros Hb. split; [reflexivity|]. split; [reflexivity|]. split; [reflexivity|]. split; [reflexivity|].
  exists (dec (zlen (an_body a))). split; [reflexivity|]. apply dec_spec. lia.
Qed.

Lemma head_small r a : zlen (head_of r a) <= zlen (head_of r a ++ content_of r a).
Proof. rewrite length_app. lia. Qed.

(** C20: The reply to a request, when it fits the buffer, is read back by an HTTP
    client (the parser of the same code base): the version of the request, the
    status and message, the type, the length of the body, and the body. *)
Theorem dispatch_reply_parses r body e st a st' max :
  handle config dispatch_seed r body e st = Some (a, st') -> 0 <= rq_minor r <= 9 -> 5 <= max -> zlen (an_body a) < 10 ^ 20 ->
  zlen (reply_of PACKAGE_VERSION r a) < buf_len ->
  exists head rsp, respond config dispatch_seed PACKAGE_VERSION r body e st = Some (head ++ content_of r a, st') /\
    phr_parse_response (head ++ content_of r a) max 0 = ROk (zlen head, rsp) /\ describes rsp r a.
Proof.
  intros E Hm Hmax Hb Hf. pose proof (handle_answer_ok _ _ _ _ _ _ _ _ E) as Ha.
  rewrite (reply_printed PACKAGE_VERSION r a Hm Ha) in Hf. unfold buf_len in *.
  exists (head_of r a), (response_of PACKAGE_VERSION r a). split; [|split].
  - unfold respond. rewrite E. cbn [mbind option_bind]. rewrite (reply_printed PACKAGE_VERSION r a Hm Ha). unfold buf_len. rewrite take_ge by lia. reflexivity.
  - apply head_parses; try assumption. zpow. lia.
  - apply response_describes, Hb.
Qed.

Lemma c_string_short s : zlen (c_string s) <= zlen s.
Proof. induction s as [|c s IH]; cbn [c_string length]; [lia|]. destruct (decide _); cbn [length]; lia. Qed.

(** A reply that does not fit the buffer of 16384 bytes is cut: the client
    gets a good head, whose Content-Length promises more than the server sends
    before it closes the connection. *)
Theorem dispatch_reply_cut r body e st a st' max :
  handle config dispatch_seed r body e st = Some (a, st') -> 0 <= rq_minor r <= 9 -> 5 <= max -> zlen (an_body a) < 10 ^ 20 ->
  zlen (head_of r a) < buf_len <= zlen (reply_of PACKAGE_VERSION r a) ->
  exists out rsp n, respond config dispatch_seed PACKAGE_VERSION r body e st = Some (out, st') /\ zlen out = buf_len - 1 /\
    phr_parse_response out max 0 = ROk (zlen (head_of r a), rsp) /\ describes rsp r a /\
    header_value "Content-Length" rsp = Some n /\ zlen (zdrop (zlen (head_of r a)) out) < decimal n.
Proof.
  intros E Hm Hmax Hb [Hh Hf]. pose proof (handle_answer_ok _ _ _ _ _ _ _ _ E) as Ha.
  rewrite (reply_printed PACKAGE_VERSION r a Hm Ha), length_app in Hf. unfold respond. rewrite E. cbn [mbind option_bind].
  rewrite (reply_printed PACKAGE_VERSION r a Hm Ha). unfold buf_len in *.
  set (head := head_of r a) in *. set (content := content_of r a) in *.
  assert (ztake (16 * 1024 - 1) (head ++ content) = head ++ ztake (16 * 1024 - 1 - zlen head) content) as ->.
  { rewrite take_app, take_ge by lia. f_equal. f_equal. lia. }
  eexists _, (response_of PACKAGE_VERSION r a), (dec (zlen (an_body a))). split; [reflexivity|]. split; [rewrite length_app, length_take; lia|].
  split; [apply head_parses; try assumption; fold head; rewrite length_app, length_take; zpow; lia|]. split; [apply response_describes, Hb|].
  split; [reflexivity|]. rewrite Nat2Z.id, drop_app_length, length_take. destruct (dec_spec (zlen (an_body a))) as (_ & _ & ->); [lia|].
  assert (zlen content <= zlen (an_body a)) by (unfold content, content_of; destruct (begins "HEAD" _); [cbn; lia|apply c_string_short]).
  lia.
Qed.
End client.

(** ** What the region endpoints give away *)

#[export] Instance region_list_default : MsgDefault QueryRegionListHttpRsp := mkRegionList 0 [] [] [] false.
#[export] Instance curr_region_default : MsgDefault QueryCurrRegionHttpRsp := mkCurrRegion 0 [] None [] no_detail.

(** A client that gets the bytes of a key file derives the same pad. *)
Lemma shared_pad k en m :
  consistent k -> entropy_ok en -> mt_full m ->
  exists k' m', Ec2b_buf en (Some (struct_bytes (struct_of k))) m = Some (k', m') /\ Ec2b.xorpad k' = Ec2b.xorpad k.
Proof.
  intros Hc He Hm. destruct Hc as (Hs & Hrest). unfold Ec2b_buf. rewrite run_assert by (rewrite (length_struct_of k Hs); reflexivity).
  rewrite <- (app_nil_r (struct_bytes _)), read_back by exact Hs.
  destruct (struct_read en k m He Hm (conj Hs Hrest)) as (m' & E & _). rewrite E. exists (cut k), m'. auto.
Qed.

Section regions.
Context {JS : Json} {JI : JsonInts} {OS : Openssl} {OL : OpensslLaws OS}.
Context {CL : MsgCodec QueryRegionListHttpRsp} {LL : MsgLaws QueryRegionListHttpRsp}.
Context {CR : MsgCodec QueryCurrRegionHttpRsp} {LR : MsgLaws QueryCurrRegionHttpRsp} {SR : MsgSmall QueryCurrRegionHttpRsp}.
Variable config : config_t.
Variable dispatch_seed : option ec2b_t.

Lemma list_text_read r : msg_utf8 r -> parse_from (list_text r) = Some r.
Proof.
  intros Hu. unfold list_text. destruct (msg_serializes r Hu) as [b Eb]. rewrite Eb. exact (msg_roundtrip r b Hu Eb).
Qed.

Lemma curr_text_read r : msg_utf8 r -> parse_from (curr_text r) = Some r.
Proof.
  intros Hu. unfold curr_text. destruct (msg_serializes r Hu) as [b Eb]. rewrite Eb. exact (msg_roundtrip r b Hu Eb).
Qed.

(** C23: With a seed for the region list, the endpoint's answer has the regions
    for the client's version and a configuration that the client decrypts, with
    the key in the same answer, to the one meant for it. *)
Theorem region_config_decrypts post e st j v t :
  read_post post (de_sdk e) = inr j -> read_version j = inr v -> list_version_bad v = false -> region_list config v <> [] ->
  state_ok st -> env_ok e -> load_seed (list_seed (sv_seeds st)) (de_list_file e) = Some (Some t) ->
  exists rsp s w, getQueryRegionListHttpRsp config post e (sv_seeds st) (sv_world st) = Some (list_text rsp, s, w) /\
    (msg_utf8 rsp -> parse_from (list_text rsp) = Some rsp) /\ ql_retcode rsp = 0 /\ ql_region_list rsp = region_list config v /\
    forall en m, entropy_ok en -> mt_full m ->
      exists k m', Ec2b_buf en (Some (ql_client_secret_key rsp)) m = Some (k, m') /\
        HyvCryptXor (ql_client_custom_config_encrypted rsp) (Ec2b.xorpad k) = Some (client_config v).
Proof.
  intros Ej Ev Hv Hr [Hk Hm Hl _] [He Hf _] Et. pose proof (load_seed_ok _ _ Hl Hf) as Hls. unfold getQueryRegionListHttpRsp.
  rewrite Ej, Ev, Hv. destruct (region_list config v) as [|x l] eqn:El; [contradiction|]. cbv zeta. rewrite Et in *.
  destruct (seed_key (de_entropy e) t (w_mt (sv_world st)) He Hm (Hls t eq_refl)) as (k & m' & -> & Ck & _ & Hx & Ek).
  cbn [mbind option_bind]. rewrite crypt_ok by exact Hx. cbn [mbind option_bind]. rewrite Ek. cbn [mbind option_bind].
  do 3 eexists. split; [reflexivity|]. split; [apply list_text_read|]. split; [reflexivity|]. split; [reflexivity|].
  intros en m Hen Hmt. destruct (shared_pad k en m Ck Hen Hmt) as (k' & m2 & E & Ep). exists k', m2. split; [exact E|].
  cbn [ql_client_custom_config_encrypted]. rewrite Ep. apply crypt_twice, Hx.
Qed.

(** A request for a region by a client of the version that is served. *)
Definition current_client (post : option (list byte)) (e : sdk_env) : Prop :=
  exists j v, read_post post e = inr j /\ read_version j = inr v /\ curr_version_bad v = false.

Lemma read_curr_current post e : cq_current (read_curr post e) = true -> current_client post e.
Proof.
  unfold read_curr, current_client. destruct (read_post post e) as [m|j]; [discriminate|]. intros H. exists j.
  destruct (read_version j) as [m|v].
  - cbv zeta in H. destruct (_ || _) in H; discriminate H.
  - exists v. split; [reflexivity|]. split; [reflexivity|]. destruct (curr_version_bad v); [|reflexivity].
    cbv zeta in H. destruct (_ || _) in H; discriminate H.
Qed.

Lemma current_read_curr post e : current_client post e -> cq_current (read_curr post e) = true.
Proof.
  intros (j & v & Ej & Ev & Hv). unfold read_curr. rewrite Ej, Ev, Hv. cbv zeta. destruct (_ || _); reflexivity.
Qed.

(** The response for a configured region. *)
Lemma curr_response_region ds q e s w i rsp s' w' :
  regionInfo config = Some i -> curr_response config ds q e s w = Some (rsp, s', w') ->
  qc_region_info rsp = Some (region_pb e ds i (cq_current q)) /\ qc_detail rsp = curr_detail i /\
  qc_retcode rsp = (if cq_current q && negb (has_gateserver i) then -1 else cq_retcode q).
Proof.
  intros Ei. unfold curr_response. rewrite Ei. destruct (cq_current q && negb (has_gateserver i)); cbv zeta;
    (destruct (load_seed _ _) as [[t|]|];
      [destruct (Ec2b_struct _ _ _) as [[k m]|]; [|discriminate]; cbn [mbind option_bind]; destruct (to_string k); [|discriminate]; cbn [mbind option_bind]| |];
      intros E; injection E as <- _ _; auto).
Qed.

(** The game server's address in an answer, under either name. *)
Definition gate_address (ri : pb_RegionInfo) : list byte :=
  if ri_use_gateserver_domain_name ri then ri_gateserver_domain_name ri else ri_gateserver_ip ri.

(** C21: The game server's address and port are in the answer of query_cur_region
    only when the request comes from a client of the version that is served and
    a game server is configured, and then they are the configured ones; any
    other client gets none, nor the resource versions. *)
Theorem curr_region_gate post e st i rsp s w :
  regionInfo config = Some i ->
  curr_response config dispatch_seed (read_curr post (de_sdk e)) e (sv_seeds st) (sv_world st) = Some (rsp, s, w) ->
  exists ri, qc_region_info rsp = Some ri /\
    (current_client post (de_sdk e) -> has_gateserver i = true ->
      ri_gateserver_port ri = gateserverPort i /\ gate_address ri = cstr (gateserverIp i)) /\
    (~ (current_client post (de_sdk e) /\ has_gateserver i = true) ->
      ri_gateserver_port ri = 0 /\ ri_gateserver_ip ri = [] /\ ri_gateserver_domain_name ri = []) /\
    (~ current_client post (de_sdk e) -> ri_res_version_config ri = None /\ ri_next_res_version_config ri = None).
Proof.
  intros Ei E. destruct (curr_response_region _ _ _ _ _ _ _ _ _ Ei E) as (-> & _ & _). eexists. split; [reflexivity|].
  unfold gate_address, region_pb. cbv zeta. cbn [ri_gateserver_port ri_gateserver_ip ri_gateserver_domain_name ri_use_gateserver_domain_name
    ri_res_version_config ri_next_res_version_config].
  pose proof (read_curr_current post (de_sdk e)) as H1. pose proof (current_read_curr post (de_sdk e)) as H2.
  destruct (cq_current (read_curr post (de_sdk e))); split; [|split| |split]; cbn [andb].
  - intros _ ->. destruct (negb _); auto.
  - intros H. destruct (has_gateserver i); [destruct H; auto|auto].
  - intros H. destruct H. auto.
  - intros H. specialize (H2 H). discriminate H2.
  - auto.
  - auto.
Qed.

(** The answer is encrypted. *)
Lemma encrypted_answer q text e k :
  2 <= cq_enc q <= 5 -> load_pkey (de_crypt e) (cq_enc q) = Some k -> rsa_size k = 256 -> en_context (de_crypt e) = true ->
  de_malloc e = true -> text <> [] -> zlen text < 2 ^ 29 ->
  exists sign out, sign_and_encrypt q text e = Some (sign, out) /\ owner_decrypt k out = Some text.
Proof.
  intros Hq Ek Es Hc Hm Hne Hl. unfold sign_and_encrypt. cbv zeta. destruct (sign_step_total q text e) as (sg & ->).
  cbn [mbind option_bind]. rewrite (proj2 (Z.eqb_neq (cq_enc q) 0)), Hm by lia. cbn [negb orb].
  rewrite (wrap_id 32 (cq_enc q)) by (unfold in_u; zpow; lia). set (ob := resize _ _ _).
  assert (zlen ob = padded_size (zlen text) * 2) as Lo.
  { unfold ob. rewrite length_resize. unfold padded_size. Z.div_mod_to_equations. lia. }
  rewrite <- Lo. assert (0 < zlen text) by (destruct text; [contradiction|cbn; lia]). unfold padded_size in Lo.
  assert (0 < enc_len 256 (zlen text) <= zlen ob) as Hr by (unfold enc_len; rewrite Lo; Z.div_mod_to_equations; lia).
  destruct (enc_blocks (de_crypt e) (cq_enc q) k text ob Ek Hc Hne) as (out & -> & _ & D); rewrite ?Es in *.
  - zpow. lia.
  - change (2 ^ 63) with 9223372036854775808. change (2 ^ 29) with 536870912 in Hl. lia.
  - rewrite Lo. change (2 ^ 31) with 2147483648. change (2 ^ 29) with 536870912 in Hl. Z.div_mod_to_equations. lia.
  - exact (proj2 Hr).
  - cbn [mbind option_bind]. rewrite (proj2 (Z.ltb_ge _ 0)) by lia. eauto.
Qed.

(** C22: When the request names one of the dispatch keys 2 to 5, what
    query_cur_region answers is the response, which the owner of that key
    decrypts and reads. *)
Theorem curr_region_roundtrip post e st :
  state_ok st -> env_ok e -> 2 <= cq_enc (read_curr post (de_sdk e)) <= 5 ->
  en_decoder (de_crypt e) = true -> en_context (de_crypt e) = true -> de_malloc e = true ->
  exists k rsp s w, load_pkey (de_crypt e) (cq_enc (read_curr post (de_sdk e))) = Some k /\
    curr_response config dispatch_seed (read_curr post (de_sdk e)) e (sv_seeds st) (sv_world st) = Some (rsp, s, w) /\
    (msg_utf8 rsp -> rsp <> msg_default -> zlen (curr_text rsp) < 2 ^ 29 ->
      exists sign out m, getQueryCurrRegionHttpRsp config dispatch_seed post e (sv_seeds st) (sv_world st) = Some (sign, out, s, w) /\
        owner_decrypt k out = Some m /\ parse_from m = Some rsp).
Proof.
  intros Hs He Hq Hd Hc Hma. destruct (dispatch_key_loads _ _ Hq Hd) as (k & Ek & Esz).
  destruct (curr_response_total config dispatch_seed (read_curr post (de_sdk e)) e st Hs He) as (rsp & s & w & Er & _).
  exists k, rsp, s, w. split; [exact Ek|]. split; [exact Er|]. intros Hu Hne Hl. unfold getQueryCurrRegionHttpRsp. cbv zeta. rewrite Er.
  cbn [mbind option_bind]. assert (curr_text rsp <> []) as Hne2.
  { unfold curr_text. destruct (msg_serializes rsp Hu) as [b Eb]. rewrite Eb. exact (msg_nonempty rsp b Eb Hne). }
  destruct (encrypted_answer _ (curr_text rsp) e k Hq Ek Esz Hc Hma Hne2 Hl) as (sign & out & -> & D). cbn [mbind option_bind].
  exists sign, out, (curr_text rsp). split; [reflexivity|]. split; [exact D|exact (curr_text_read rsp Hu)].
Qed.

(** C24: The two servers hand over the dispatch key: what query_cur_region sends
    as the secret key of the region is the key file that [loadKeys] read, from
    which a client derives the very key that the game server's sessions start
    with. *)
Theorem dispatch_key_shared en c m q e s w i :
  entropy_ok en -> mt_full m -> Ec2bProps.header_ok (as_struct (file_buf c)) = true -> regionInfo config = Some i ->
  exists dispatchKey sd t m', loadKeys en (Some c) m = Some (Some (dispatchKey, sd, t), m') /\ zlen dispatchKey = 4096 /\
    forall rsp s' w', curr_response config (Some t) q e s w = Some (rsp, s', w') ->
      exists ri, qc_region_info rsp = Some ri /\
        forall en2 m2, entropy_ok en2 -> mt_full m2 ->
          exists k m2', Ec2b_buf en2 (Some (ri_secret_key ri)) m2 = Some (k, m2') /\ Ec2b.xorpad k = dispatchKey.
Proof.
  intros He Hm Hh Ei. assert (seed_ok (as_struct (file_buf c))) as Hs.
  { split; [exact Hh|]. apply as_struct_sizes. rewrite file_buf_size. lia. }
  destruct (struct_ok en (as_struct (file_buf c)) m He Hm Hh (proj1 (proj2 Hs)) (proj2 (proj2 Hs))) as (k & m' & Ek & Ck & _).
  assert (zlen (Ec2b.xorpad k) = 4096) as Lx.
  { destruct Ck as (_ & _ & _ & ->). unfold xorpad_of, pad_of. rewrite length_pad_bytes, length_outputs. reflexivity. }
  exists (Ec2b.xorpad k), (Ec2b.seed k), (struct_of k), m'. split; [|split; [exact Lx|]].
  - unfold loadKeys. rewrite (run_bind (Ec2b_FILE en (Some c)) _ m k m' Ek).
    rewrite (run_lift _ _ _ (Ec2b.xorpad k)) by (rewrite c_str_take by lia; f_equal; apply take_ge; lia).
    rewrite (run_lift _ _ _ _ (to_struct_ok k (proj1 Ck))). reflexivity.
  - intros rsp s' w' E. destruct (curr_response_region _ _ _ _ _ _ _ _ _ Ei E) as (-> & _ & _). eexists. split; [reflexivity|].
    intros en2 m2 He2 Hm2. exact (shared_pad k en2 m2 Ck He2 Hm2).
Qed.
End regions.

Section stop.
Context `{Dirs}.

Lemma small_stop v : (forall n, v = Some n -> n < 2 ^ 32) -> send_stop v = 0 \/ 2 < send_stop v.
Proof.
  unfold send_stop. intros Hv. destruct v as [n|]; [|left; reflexivity]. specialize (Hv n eq_refl).
  destruct (Z.ltb_spec 2 n); [|left; reflexivity]. right. rewrite wrap_id; [lia|]. unfold in_u. zpow. lia.
Qed.

(** Maintenance cannot be announced: with the values 1 (stop) and 2 (update)
    that the setting sendStopServerOrForceUpdate has, and with any other that
    fits its variable, no answer of query_cur_region has the [stop_server] or
    [force_update] that is configured. *)
Theorem stop_never_sent root t dispatch_seed q e s w rsp s' w' :
  toml_table_table root (bytes_of "dispatch") = Some t ->
  (forall n, toml_table_int t (bytes_of "sendStopServerOrForceUpdate") = Some n -> n < 2 ^ 32) ->
  curr_response (load_config (Some root)) dispatch_seed q e s w = Some (rsp, s', w') -> qc_detail rsp = no_detail.
Proof.
  intros Et Hv E. assert (regionInfo (load_config (Some root)) = Some (fst (load_dispatch t))) as Ei.
  { unfold load_config. rewrite Et. destruct (load_core _) as [[[[? ?] ?] ?] ?], (load_net _) as [[[[? ?] ?] ?] ?]. reflexivity. }
  destruct (curr_response_region _ _ _ _ _ _ _ _ _ _ Ei E) as (_ & -> & _). unfold curr_detail.
  change (sendStopServerOrForceUpdate (fst (load_dispatch t))) with
    (send_stop (toml_table_int t (bytes_of "sendStopServerOrForceUpdate"))).
  rewrite !(proj2 (Z.eqb_neq _ _)); [reflexivity|..]; destruct (small_stop _ Hv); lia.
Qed.
End stop.

(** ** At work

    An encoding of one message. *)

#[local] Instance simple_eq_dec : EqDecision RegionSimpleInfo.
Proof. solve_decision. Defined.
#[local] Instance region_list_eq_dec : EqDecision QueryRegionListHttpRsp.
Proof. solve_decision. Defined.
#[local] Instance res_eq_dec : EqDecision pb_ResVersionConfig.
Proof. solve_decision. Defined.
#[local] Instance region_eq_dec : EqDecision pb_RegionInfo.
Proof. solve_decision. Defined.
#[local] Instance force_eq_dec : EqDecision ForceUpdateInfo.
Proof. solve_decision. Defined.
#[local] Instance stop_eq_dec : EqDecision StopServerInfo.
Proof. solve_decision. Defined.
#[local] Instance detail_eq_dec : EqDecision region_detail.
Proof. solve_decision. Defined.
#[local] Instance curr_eq_dec : EqDecision QueryCurrRegionHttpRsp.
Proof. solve_decision. Defined.
Section one_codec.
Context {A : Type} `{MsgDefault A} `{EqDecision A} (x : A).

Definition one_codec : MsgCodec A := {|
  serialize m := if decide (m = x) then Some [zb 1] else None;
  parse_from b := if decide (b = [zb 1]) then Some x else None;
  msg_utf8 m := m = x |}.

Lemma one_laws : @MsgLaws A _ one_codec.
Proof.
  constructor; cbn [serialize parse_from msg_utf8 one_codec].
  - intros m ->. rewrite decide_True by reflexivity. eauto.
  - intros m b -> E. rewrite decide_True in E by reflexivity. injection E as <-. apply decide_True. reflexivity.
  - intros m b E _. destruct (decide (m = x)); [|discriminate E]. injection E as <-. discriminate.
Qed.

Lemma one_small : @MsgSmall A one_codec.
Proof. intros m b E. cbn [serialize one_codec] in E. destruct (decide (m = x)); [|discriminate E]. injection E as <-. reflexivity. Qed.
End one_codec.

#[local] Existing Instances toy_ssl toy_ssl_laws info_codec.

(** The request of a client for the key 3. *)
Definition ex_ask : tree :=
  t_object [(bytes_of "version", t_string (bytes_of "OSRELWin1.3.0")); (bytes_of "key_id", t_int 3)].

#[local] Instance ask_json : Json := {|
  json := tree; json_parse s := if decide (s = bytes_of "ask") then Some ex_ask else tree_parse s;
  json_is_object j := match j with t_object _ => true | _ => false end;
  json_get := tree_get;
  json_string v := match v with None => None | Some (t_string s) => Some s | Some _ => Some (bytes_of "{ }") end;
  json_string_len v := match v with Some (t_string s) => zlen s | _ => 0 end;
  json_int v := match v with Some (t_int n) => s32 n | _ => 0 end;
  json_bool v := match v with Some (t_bool n) => n | _ => 0 end;
  json_print l := [] |}.

#[local] Instance ask_ints : JsonInts.
Proof.
  intros [[n| | |]|]; cbn [json_int ask_json]; try (split; [discriminate|reflexivity]).
  apply (swrap_range 32). lia.
Qed.

Definition ex_key_file : list byte :=
  struct_bytes (mkEc2bT (be32 EC2B_MAGIC) 16 (replicate (Z.to_nat 16) Byte.x00) 2048 (replicate (Z.to_nat 2048) Byte.x00)).

Definition ex_region : RegionInfo :=
  mkInfo (bytes_of "10.0.0.1") 22102 (Some 0) None None None None None None None None None None None None None None None None 0 None.

Definition ex_config (regs : list (option RegionListEntry)) : config_t :=
  mkConfig [] [] 22102 22100 10 100 500 [] [] [] regs (Some ex_region).

Definition ex_env : dispatch_env := mkDispatchEnv ex_sdk ex_crypt true (Some ex_key_file) None plain_entropy 0 [] [].

Definition ex_state : server_state := mkServer (mkSeeds None None) ex_sdk_world.

(** The answer to it, and the encodings. *)
Definition ex_curr_rsp : QueryCurrRegionHttpRsp :=
  match curr_response (ex_config []) None (read_curr (Some (bytes_of "ask")) ex_sdk) ex_env (sv_seeds ex_state) (sv_world ex_state) with
  | Some (rsp, _, _) => rsp
  | None => msg_default
  end.

#[local] Instance list_codec : MsgCodec QueryRegionListHttpRsp := one_codec list_error.
#[local] Instance list_laws : MsgLaws QueryRegionListHttpRsp := one_laws list_error.
#[local] Instance curr_codec : MsgCodec QueryCurrRegionHttpRsp := one_codec ex_curr_rsp.
#[local] Instance curr_laws : MsgLaws QueryCurrRegionHttpRsp := one_laws ex_curr_rsp.
#[local] Instance curr_size : MsgSmall QueryCurrRegionHttpRsp := one_small ex_curr_rsp.

Definition ex_version : list byte := bytes_of "0.1".

Lemma ex_file_ok : Ec2bProps.header_ok (as_struct (file_buf ex_key_file)) = true.
Proof. vm_compute. reflexivity. Qed.

Lemma ex_env_ok : env_ok ex_env.
Proof. constructor; [exact plain_entropy_ok|intros c E; injection E as <-; exact ex_file_ok|intros c E; discriminate E]. Qed.

Lemma ex_state_ok : state_ok ex_state.
Proof. constructor; [exact ex_sdk_keys|exact start_full|intros t E; discriminate E..]. Qed.

Lemma ex_version_ok : value_ok ex_version.
Proof. apply plain_value. reflexivity. Qed.

Definition ex_get (path : string) : request := mkReq (bytes_of "GET") (bytes_of path) 1 [mkHdr (Some (bytes_of "Host")) (bytes_of "a b")].

Definition ex_post (path : string) : request := mkReq (bytes_of "POST") (bytes_of path) 1 [].

Definition ex_sends : list send_event := replicate (Z.to_nat buf_len) (Sent 1000).

Definition ex_requests : list http_request :=
  [mkRequest (ex_get "/") [] [Closed] ex_sends ex_env; mkRequest (ex_post "/query_cur_region") (bytes_of "ask") [] ex_sends ex_env;
   mkRequest (ex_get "/generate_204") [] [] ex_sends ex_env].

(** The parts of [request_ok] of a closed request. *)
Ltac closed_whole :=
  constructor; [constructor; [split; [discriminate|repeat constructor]|split; [discriminate|repeat constructor]|cbn; lia| |vm_compute; discriminate]
    |vm_compute; reflexivity].

Lemma ex_takes : takes_reply ex_sends.
Proof. split; [apply Forall_replicate; lia|]. unfold ex_sends. rewrite length_replicate. unfold buf_len. lia. Qed.

Lemma ex_whole : Forall (fun q => whole (hr_request q) (hr_body q) /\ takes_reply (hr_sends q)) ex_requests.
Proof.
  repeat (apply List.Forall_cons; [split; [|exact ex_takes]|]); try apply List.Forall_nil; closed_whole.
  - constructor; [|constructor]. apply (plain_header "Host"); [reflexivity|apply plain_value; reflexivity].
  - constructor.
  - constructor; [|constructor]. apply (plain_header "Host"); [reflexivity|apply plain_value; reflexivity].
Qed.

Lemma used_buf_size : zlen used_buf = buf_len.
Proof. vm_compute. reflexivity. Qed.

(** The requests, and what is sent in answer to the first and the last. *)
Lemma dispatch_refines_responder_witness :
  dispatch_main (ex_config []) None ex_version used_buf (map connect [mkRequest (ex_get "/") [] [Closed] ex_sends ex_env]) ex_state =
  Some ([reply_text ex_version 1 200 (status_answer 200) false], ex_state).
Proof.
  rewrite (dispatch_refines_responder (ex_config []) None ex_version used_buf [mkRequest (ex_get "/") [] [Closed] ex_sends ex_env] ex_state used_buf_size).
  - vm_compute. reflexivity.
  - constructor; [exact (Forall_inv ex_whole)|constructor].
Defined.

Lemma ex_no_killer st : ~ meets_killer (ex_config []) None ex_version ex_requests st.
Proof.
  apply not_bind_survives. repeat (apply List.Forall_cons; [vm_compute; discriminate|]). constructor.
Qed.

Lemma dispatch_serves_all_witness :
  exists outs st', dispatch_main (ex_config []) None ex_version used_buf (map connect ex_requests) ex_state = Some (outs, st') /\
    length outs = 3%nat /\ state_ok st'.
Proof.
  destruct (dispatch_serves_all (ex_config []) None ex_version used_buf ex_requests ex_state used_buf_size ex_state_ok ex_whole) as [_ H].
  - repeat (apply List.Forall_cons; [exact ex_env_ok|]). constructor.
  - destruct (H (ex_no_killer ex_state)) as (outs & st' & E & L & _ & Hs). exists outs, st'. auto.
Defined.

(** The second client resets the connection. *)
Lemma dispatch_send_hangs_witness :
  exists out st', dispatch_main (ex_config []) None ex_version used_buf
    (map connect [mkRequest (ex_get "/") [] [Closed] ex_sends ex_env; mkRequest (ex_get "/") [] [] [SendError] ex_env] ++ map connect ex_requests) ex_state =
    Some ([out; []], st').
Proof.
  destruct (dispatch_send_hangs (ex_config []) None ex_version used_buf [mkRequest (ex_get "/") [] [Closed] ex_sends ex_env]
    (mkRequest (ex_get "/") [] [] [SendError] ex_env) [] (map connect ex_requests) ex_state used_buf_size ex_state_ok) as (outs & st' & E & st2 & M).
  - repeat (apply List.Forall_cons; [exact ex_env_ok|]). constructor.
  - constructor; [exact (Forall_inv ex_whole)|constructor].
  - exact (proj1 (Forall_inv ex_whole)).
  - reflexivity.
  - apply not_bind_survives. repeat (apply List.Forall_cons; [vm_compute; discriminate|]). constructor.
  - destruct outs as [|out [|? ?]]; [|exists out, st2; exact M|]; exfalso; clear M; vm_compute in E; discriminate E.
Defined.

Lemma dispatch_reply_parses_witness :
  exists head rsp, respond (ex_config []) None ex_version (ex_get "/") [] ex_env ex_state =
      Some (head ++ bytes_of "hi from yagips dispatch server" ++ [zb 10], ex_state) /\
    phr_parse_response (head ++ bytes_of "hi from yagips dispatch server" ++ [zb 10]) 16 0 = ROk (zlen head, rsp) /\
    rs_status rsp = 200.
Proof.
  destruct (dispatch_reply_parses (ex_config []) None ex_version ex_version_ok ltac:(discriminate) (ex_get "/") [] ex_env ex_state (status_answer 200) ex_state 16)
    as (head & rsp & E & P & _ & S & _).
  - reflexivity.
  - cbn. lia.
  - lia.
  - vm_compute. reflexivity.
  - vm_compute. reflexivity.
  - exists head, rsp. split; [exact E|]. split; [exact P|]. rewrite S. reflexivity.
Defined.

(** A region whose title is longer than the buffer, in a plain encoding. *)
Definition title_codec : MsgCodec QueryRegionListHttpRsp := {|
  serialize r := Some (concat (map si_title (ql_region_list r))); parse_from _ := None; msg_utf8 _ := False |}.

Definition ex_long : config_t :=
  ex_config [Some (mkRegion None None (Some (replicate (Z.to_nat 13000) Byte.x41)) (Some (bytes_of "u")) None)].

Definition ex_plain_env : dispatch_env := mkDispatchEnv ex_sdk ex_crypt true None None plain_entropy 0 [] [].

Definition ex_long_answer : answer := mkAnswer (bytes_of "OK") (b64enc (replicate (Z.to_nat 13000) Byte.x41)) MIME_TEXT [].

Lemma dispatch_reply_cut_witness :
  exists out rsp n, respond (CL := title_codec) ex_long None ex_version (ex_post "/query_region_list") (bytes_of "ask") ex_plain_env ex_state =
      Some (out, mkServer (mkSeeds (Some None) None) ex_sdk_world) /\
    zlen out = 16383 /\ header_value "Content-Length" rsp = Some n /\
    zlen (zdrop (zlen (print_response (response_of ex_version (ex_post "/query_region_list") ex_long_answer))) out) < decimal n.
Proof.
  destruct (dispatch_reply_cut (CL := title_codec) ex_long None ex_version ex_version_ok ltac:(discriminate) (ex_post "/query_region_list") (bytes_of "ask")
    ex_plain_env ex_state ex_long_answer (mkServer (mkSeeds (Some None) None) ex_sdk_world) 16) as (out & rsp & n & E & L & _ & _ & C & D).
  - vm_compute. reflexivity.
  - cbn. lia.
  - lia.
  - vm_compute. reflexivity.
  - split; [vm_compute; reflexivity|vm_compute; discriminate].
  - exists out, rsp, n. split; [exact E|]. split; [exact L|]. split; [exact C|exact D].
Defined.

Definition ex_v : client_version := mkVersion (bytes_of "OS") (bytes_of "Win") 1 3 0.

Lemma region_config_decrypts_witness :
  exists rsp s w k m', getQueryRegionListHttpRsp (ex_config []) (Some (bytes_of "ask")) ex_env (sv_seeds ex_state) (sv_world ex_state) = Some (list_text rsp, s, w) /\
    ql_region_list rsp = [default_region] /\ Ec2b_buf plain_entropy (Some (ql_client_secret_key rsp)) mt_start = Some (k, m') /\
    HyvCryptXor (ql_client_custom_config_encrypted rsp) (Ec2b.xorpad k) = Some (client_config ex_v).
Proof.
  destruct (region_config_decrypts (JS := ask_json) (ex_config []) (Some (bytes_of "ask")) ex_env ex_state ex_ask ex_v (as_struct (file_buf ex_key_file)))
    as (rsp & s & w & E & _ & _ & R & K).
  - reflexivity.
  - vm_compute. reflexivity.
  - vm_compute. reflexivity.
  - discriminate.
  - exact ex_state_ok.
  - exact ex_env_ok.
  - reflexivity.
  - destruct (K plain_entropy mt_start plain_entropy_ok start_full) as (k & m' & Ek & D). exists rsp, s, w, k, m'. auto.
Defined.

Lemma ex_current : current_client (Some (bytes_of "ask")) ex_sdk.
Proof. exists (ex_ask : @json ask_json), ex_v. split; [reflexivity|]. split; vm_compute; reflexivity. Qed.

Lemma ex_response : exists rsp s w,
  curr_response (ex_config []) None (read_curr (Some (bytes_of "ask")) ex_sdk) ex_env (sv_seeds ex_state) (sv_world ex_state) = Some (rsp, s, w) /\
  msg_utf8 rsp /\ rsp <> msg_default /\ zlen (curr_text rsp) < 2 ^ 29.
Proof.
  exists ex_curr_rsp, (mkSeeds None (Some None)), ex_sdk_world. split; [vm_compute; reflexivity|]. split; [reflexivity|].
  split; [intros E; apply (f_equal qc_msg) in E; vm_compute in E; discriminate E|vm_compute; reflexivity].
Qed.

Lemma curr_region_gate_witness :
  exists rsp ri s w, curr_response (ex_config []) None (read_curr (Some (bytes_of "ask")) ex_sdk) ex_env (sv_seeds ex_state) (sv_world ex_state) = Some (rsp, s, w) /\
    qc_region_info rsp = Some ri /\ ri_gateserver_port ri = 22102 /\ gate_address ri = bytes_of "10.0.0.1".
Proof.
  destruct ex_response as (rsp & s & w & E & _).
  destruct (curr_region_gate (ex_config []) None (Some (bytes_of "ask")) ex_env ex_state ex_region rsp s w eq_refl E) as (ri & Er & H & _).
  destruct (H ex_current eq_refl) as [H1 H2]. exists rsp, ri, s, w. auto.
Defined.

Lemma curr_region_roundtrip_witness :
  exists rsp k sign out m s w, getQueryCurrRegionHttpRsp (ex_config []) None (Some (bytes_of "ask")) ex_env (sv_seeds ex_state) (sv_world ex_state) = Some (sign, out, s, w) /\
    owner_decrypt k out = Some m /\ parse_from m = Some rsp.
Proof.
  destruct (curr_region_roundtrip (ex_config []) None (Some (bytes_of "ask")) ex_env ex_state ex_state_ok ex_env_ok) as (k & rsp & s & w & _ & E & H).
  - vm_compute. split; discriminate.
  - reflexivity.
  - reflexivity.
  - reflexivity.
  - destruct ex_response as (rsp' & s' & w' & E' & Hu & Hn & Hl). change (de_sdk ex_env) with ex_sdk in E. rewrite E in E'.
    injection E' as <- <- <-. destruct (H Hu Hn Hl) as (sign & out & m & Eo & D & P). exists rsp, k, sign, out, m, s, w. auto.
Defined.

Lemma dispatch_key_shared_witness :
  exists dispatchKey sd t m', loadKeys plain_entropy (Some ex_key_file) mt_start = Some (Some (dispatchKey, sd, t), m') /\ zlen dispatchKey = 4096 /\
    exists rsp s w ri k m2, curr_response (ex_config []) (Some t) (read_curr (Some (bytes_of "ask")) ex_sdk) ex_env (sv_seeds ex_state) (sv_world ex_state) = Some (rsp, s, w) /\
      qc_region_info rsp = Some ri /\ Ec2b_buf plain_entropy (Some (ri_secret_key ri)) mt_start = Some (k, m2) /\ Ec2b.xorpad k = dispatchKey.
Proof.
  destruct (dispatch_key_shared (ex_config []) plain_entropy ex_key_file mt_start (read_curr (Some (bytes_of "ask")) ex_sdk) ex_env (sv_seeds ex_state)
    (sv_world ex_state) ex_region plain_entropy_ok start_full ex_file_ok eq_refl) as (dk & sd & t & m' & E & L & H).
  exists dk, sd, t, m'. split; [exact E|]. split; [exact L|].
  destruct (curr_response_total (ex_config []) (Some t) (read_curr (Some (bytes_of "ask")) ex_sdk) ex_env ex_state ex_state_ok ex_env_ok) as (rsp & s & w & Er & _).
  destruct (H rsp s w Er) as (ri & Ei & K). destruct (K plain_entropy mt_start plain_entropy_ok start_full) as (k & m2 & Ek & X).
  exists rsp, s, w, ri, k, m2. auto.
Defined.

(** "[dispatch]", the setting for an update, and its address. *)
Definition ex_root : toml_table :=
  match @toml_parse TomlProps.no_float (bytes_of "[dispatch]" ++ [zb 10] ++ bytes_of "sendStopServerOrForceUpdate = 2" ++ [zb 10] ++
    bytes_of "forceUpdateUrl = 'u'" ++ [zb 10]) with Ok r => r | _ => empty_table end.

Definition ex_dispatch : toml_table := default empty_table (toml_table_table ex_root (bytes_of "dispatch")).

Lemma stop_never_sent_witness :
  exists rsp s w, curr_response (@load_config RunConfigProps.demo_dirs (Some ex_root)) None (read_curr None ex_sdk) ex_plain_env
      (sv_seeds ex_state) (sv_world ex_state) = Some (rsp, s, w) /\ qc_detail rsp = no_detail.
Proof.
  destruct (curr_response_total (@load_config RunConfigProps.demo_dirs (Some ex_root)) None (read_curr None ex_sdk) ex_plain_env
    ex_state ex_state_ok) as (rsp & s & w & E & _).
  { constructor; [exact plain_entropy_ok|intros c E; discriminate E..]. }
  exists rsp, s, w. split; [exact E|].
  apply (@stop_never_sent RunConfigProps.demo_dirs ex_root ex_dispatch) in E; [exact E|vm_compute; reflexivity|].
  intros n En. vm_compute in En. injection En as <-. reflexivity.
Defined.
