(* ===== verification/Loaders.v ===== *)
(** * Game data

    src/data.cpp and src/data/: the tables that are read from files of the
    data directory when the server starts.  A file is its bytes, opened by
    [fopen] ([None]: it fails); malloc succeeds.  json-c is the class
    [Tokener], [strtold] the class [Strtold].  No result: a pointer that was
    not set, or whose memory was freed, is read. *)

From Stdlib Require Import Strings.String.
From stdpp Require Import gmap.
From S2P Require Import Prelude TomlText TomlValue RunConfig Account DbGate Item Avatar Player PlayerFacts Messages Handlers PlayerProps.

#[local] Open Scope list_scope.

(** ** Files and the C library *)

(** [read_error]: reading fails where the bytes end. *)
Record FILE := mkFile { contents : list byte; read_error : bool }.

(** [getline]: the line with its newline, and what follows one. *)
Fixpoint getline (s : list byte) : list byte * option (list byte) :=
  match s with
  | [] => ([], None)
  | c :: s => if bz c =? 10 then ([c], Some s) else let '(l, r) := getline s in (c :: l, r)
  end.

(** [strsep(&j, delim)] on a pointer that is not NULL: the token, and the pointer
    after it. *)
Fixpoint strsep (delim : list Z) (j : list byte) : list byte * option (list byte) :=
  match j with
  | [] => ([], None)
  | c :: j => if existsb (Z.eqb (bz c)) delim then ([], Some j) else let '(t, r) := strsep delim j in (c :: t, r)
  end.

(** [strrchr(path, '.')] *)
Fixpoint last_dot (path : list byte) : option (list byte) :=
  match path with
  | [] => None
  | c :: r => match last_dot r with Some e => Some e | None => if bz c =? 46 then Some path else None end
  end.

(** [strtoul(s, NULL, 0)] into an [unsigned int] *)
Definition to_uint (s : list byte) : Z := u32 (default 0 (strtoul s)).

(** [toInt] of src/util.cpp *)
Definition toInt (x : list byte) : Z := to_uint (c_string x).

Class Strtold := { ldouble : Type; strtold : list byte -> ldouble; ld_uint : ldouble -> Z }.

(** [toFlt] of src/util.cpp *)
Definition toFlt `{Strtold} (x : list byte) : ldouble := strtold (c_string x).

(** ** Tables *)

Abbreviation excelTableEnt := (gmap (list byte) (list byte)).

Definition tryGetKey (v : excelTableEnt) (k : list byte) : list byte := default [] (v !! k).

(** The fields of a line: names without a token are left out. *)
Fixpoint tsv_fields (names : list (list byte)) (j : option (list byte)) (ent : excelTableEnt) : excelTableEnt :=
  match names with
  | [] => ent
  | name :: names =>
      match j with
      | None => tsv_fields names None ent
      | Some s => let '(t, j) := strsep [9; 13; 10] s in tsv_fields names j (<[name := t]> ent)
      end
  end.

(** What the buffer holds in each round of the loop: after the last newline
    there is one more, with an empty line, unless the read fails. *)
Fixpoint tsv_lines (fuel : nat) (s : list byte) (err : bool) : list (list byte) :=
  match fuel with
  | O => []
  | S fuel =>
      let '(l, r) := getline s in
      match r with
      | Some s => l :: tsv_lines fuel s err
      | None => if err && bool_decide (l = []) then [] else [l]
      end
  end.

(** The first line is skipped. *)
Definition loadTsvExcelData (field_list : list (list byte)) (fp : option FILE) : option (list excelTableEnt) :=
  match fp with
  | None => None
  | Some f => Some (map (fun l => tsv_fields field_list (Some (c_string l)) ∅) (tl (tsv_lines (S (length (contents f))) (contents f) (read_error f))))
  end.

(** *** JSON *)

Inductive json_type := type_array | type_object | type_other.

(** A call of [json_tokener_parse_ex] gives a value, or wants more
    ([inr true]), or fails. *)
Class Tokener := {
  tokener : Type;
  value : Type;
  json_tokener_new : option tokener;
  json_tokener_parse_ex : tokener -> list byte -> tokener * (value + bool);
  value_type : value -> json_type;
  array_items : value -> list (option value);
  object_members : value -> list (list byte * list byte)
}.

Section json.
Context {TK : Tokener}.

(** The loop over blocks of 4096 bytes, the last filled up with zeros. *)
Fixpoint read_root (fuel : nat) (jtk : tokener) (s : list byte) : option value :=
  match fuel with
  | O => None
  | S fuel =>
      let fBuf := ztake 4096 (s ++ replicate (Z.to_nat 4096) Byte.x00) in
      match json_tokener_parse_ex jtk fBuf with
      | (_, inl root) => Some root
      | (jtk, inr true) => if zlen s <? 4096 then None else read_root fuel jtk (zdrop 4096 s)
      | (_, inr false) => None
      end
  end.

(** The test of the element tests the type of [root]. *)
Fixpoint json_rows (root : value) (items : list (option value)) : list excelTableEnt :=
  match items with
  | [] => []
  | None :: items => json_rows root items
  | Some data :: items =>
      match value_type root with
      | type_object => foldl (fun ent m => <[m.1 := m.2]> ent) ∅ (object_members data) :: json_rows root items
      | _ => json_rows root items
      end
  end.

Definition loadJsonExcelData (fp : option FILE) : option (list excelTableEnt) :=
  f ← fp;
  jtk ← json_tokener_new;
  root ← read_root (S (length (contents f))) jtk (contents f);
  match value_type root with type_array => Some (json_rows root (array_items root)) | _ => None end.

(** ** The search for a table *)

Definition is_json (path : list byte) : bool :=
  match last_dot path with Some ext => same_prefix 5 ext (bytes_of ".json") | None => false end.

(** [load(path)] up to the loop over the table. *)
Definition load_table (fopen : list byte -> option FILE) (field_names : list (list byte)) (path : list byte) : option (list excelTableEnt) :=
  match fopen path with
  | None => None
  | Some f => if is_json path then loadJsonExcelData (Some f) else loadTsvExcelData field_names (Some f)
  end.

(** The six paths of [load()]. *)
Definition table_paths (dataPath : list byte) (grasscutter gio : string) : list (list byte) :=
  map (fun f => ztake 4094 (dataPath ++ f))
    (map (fun e => bytes_of "/ExcelBinOutput/" ++ bytes_of grasscutter ++ bytes_of e) [".json"; ".tsv"; ".txt"]%string ++
     map (fun e => bytes_of "/txt/" ++ bytes_of gio ++ bytes_of e) [".json"; ".tsv"; ".txt"]%string).
Arguments table_paths dataPath grasscutter%_string gio%_string.

Fixpoint first_table (fopen : list byte -> option FILE) (field_names : list (list byte)) (paths : list (list byte)) : option (list excelTableEnt) :=
  match paths with
  | [] => None
  | p :: paths => match load_table fopen field_names p with Some t => Some t | None => first_table fopen field_names paths end
  end.

(** ** Open states *)

Definition openstate_fields : list (list byte) := map bytes_of
  ["id"; "defaultState"; "allowClientOpen"; "cond1Type"; "cond1Param1"; "cond1Param2"; "cond2Type"; "cond2Param1"; "cond2Param2";
   "systemOpenUiId"]%string.

(** With the members that nothing reads. *)
Record OpenStateRow := mkOpenStateRow { or_ent : OpenStateDataEnt; or_allowClientOpen : Z; or_uiOpenId : Z }.

(** [toInt(tryGetKey(tblEnt, name))] *)
Definition int_of (v : excelTableEnt) (name : string) : Z := toInt (tryGetKey v (bytes_of name)).
Arguments int_of v name%_string.

(** The states that are configured statically. *)
Definition fix_openstate (r : OpenStateRow) : OpenStateRow :=
  let id := os_id (or_ent r) in
  let cond i p := (OPEN_STATE_COND_PLAYER_LEVEL, [p; nth 1 (snd (nth i (os_openCond (or_ent r)) (0, []))) 0]) in
  if id =? 1 then mkOpenStateRow (mkOpenStateEnt id 1 [cond 0%nat 0; cond 1%nat 0]) (or_allowClientOpen r) (or_uiOpenId r)
  else if (id =? 47) || (id =? 48) then mkOpenStateRow (mkOpenStateEnt id 0 [cond 0%nat (u32 (-1)); cond 1%nat (u32 (-1))]) 0 (or_uiOpenId r)
  else r.

(** A row of a table that is not JSON; JSON tables have no rows. *)
Definition openstate_row (v : excelTableEnt) : OpenStateRow :=
  fix_openstate (mkOpenStateRow
    (mkOpenStateEnt (int_of v "id") (int_of v "defaultState")
      [(int_of v "cond1Type", [int_of v "cond1Param1"; int_of v "cond1Param2"]);
       (int_of v "cond2Type", [int_of v "cond2Param1"; int_of v "cond2Param2"])])
    (int_of v "allowClientOpen") (int_of v "systemUiOpenId")).

(** The entries: none when no file can be loaded. *)
Definition OpenStateData_load (fopen : list byte -> option FILE) (dataPath : list byte) : list OpenStateRow :=
  map openstate_row (default [] (first_table fopen openstate_fields (table_paths dataPath "OpenStateConfigData" "OpenStateData"))).

(** ** Skill depots *)

Definition depot_fields : list (list byte) := map bytes_of
  ["id"; "energySkill"; "unk1"; "skill1"; "skill2"; "skill3"; "skill4"; "subSkills"; "attackModeSkill"; "leaderTalent"; "extraAbility1";
   "extraAbility2"; "extraAbility3"; "talent1"; "talent2"; "talent3"; "talent4"; "talent5"; "talent6"; "talentStarName"; "proudSkillReqBreak";
   "proudSkillGroupId1"; "needAvatarPromoteLevel1"; "proudSkillGroupId2"; "needAvatarPromoteLevel2"; "proudSkillGroupId3";
   "needAvatarPromoteLevel3"; "proudSkillGroupId4"; "needAvatarPromoteLevel4"; "proudSkillGroupId5"; "needAvatarPromoteLevel5";
   "skillDepotAbilityGroup"]%string.

Record DepotRow := mkDepotRow {
  dr_ent : AvatarSkillDepotDataEnt; burstSkill : Z; dr_skills : list Z; secondarySkills : list Z; aimTalent : Z; leaderTalent : Z;
  extraAbilities : list Z; talentConfigFile : list byte; ascensionPassiveSkills : list (Z * Z); abilityGroup : list byte }.

(** The loop over the tokens of a list, until the pointer is NULL. *)
Fixpoint sep_list (fuel : nat) (delim : list Z) (p : option (list byte)) : list (list byte) :=
  match fuel, p with
  | S fuel, Some s => let '(t, p) := strsep delim s in t :: sep_list fuel delim p
  | _, _ => []
  end.

Definition tokens (delim : list Z) (s : list byte) : list (list byte) := sep_list (S (length s)) delim (Some s).

(** The numbers of a list separated by commas; no list when the text is empty. *)
Definition number_list (v : list byte) : list Z :=
  if decide (v = []) then [] else map to_uint (tokens [44] (c_string v)).

Definition depot_row (v : excelTableEnt) : DepotRow :=
  let ints := map (int_of v) in
  mkDepotRow (mkDepotEnt (int_of v "id") (ints ["talent1"; "talent2"; "talent3"; "talent4"; "talent5"; "talent6"]%string))
    (int_of v "energySkill") (ints ["skill1"; "skill2"; "skill3"; "skill4"]%string) (number_list (tryGetKey v (bytes_of "subSkills"))) (int_of v "attackModeSkill") (int_of v "leaderTalent")
    (ints ["extraAbility1"; "extraAbility2"; "extraAbility2"]%string) (tryGetKey v (bytes_of "talentStarName"))
    [(int_of v "proudSkillGroupId1", int_of v "needAvatarPromoteLevel1"); (int_of v "proudSkillGroupId2", int_of v "needAvatarPromoteLevel2");
     (int_of v "proudSkillGroupId3", int_of v "needAvatarPromoteLevel3"); (int_of v "proudSkillGroupId4", int_of v "needAvatarPromoteLevel4");
     (int_of v "proudSkillGroupId5", int_of v "needAvatarPromoteLevel5")]
    (tryGetKey v (bytes_of "skillDepotAbilityGroup")).

Definition AvatarSkillDepotData_load (fopen : list byte -> option FILE) (dataPath : list byte) : list DepotRow :=
  map depot_row (default [] (first_table fopen depot_fields (table_paths dataPath "AvatarSkillDepotExcelConfigData" "AvatarSkillDepotData"))).

(** ** Avatars *)

Definition avatar_fields : list (list byte) := map bytes_of
  ["id"; "unk1"; "hpBase"; "attackBase"; "defenseBase"; "critical"; "criticalRes"; "criticalHurt"; "pyroRes"; "dendroRes"; "hydroRes"; "electroRes";
   "anemoRes"; "cryoRes"; "geoRes"; "pyroBonus"; "dendroBonus"; "hydroBonus"; "electroBonus"; "anemoBonus"; "cryoBonus"; "geoBonus";
   "propGrowCurveType1"; "propGrowCurve1"; "propGrowCurveType2"; "propGrowCurve2"; "propGrowCurveType3"; "propGrowCurve3"; "elementalMastery";
   "physicalRes"; "physicalBonus"; "useType"; "qualityType"; "chargeEfficiency"; "unk2"; "unk3"; "combatConfig"; "isRangeAttack"; "initialWeapon";
   "weaponType"; "skillDepotId"; "staminaRecoverSpeed"; "candSkillDepotIds"; "avatarIdentityType"; "avatarPromoteId"; "avatarPromoteRewardLevelList";
   "avatarPromoteRewardIdList"; "featureTagGroupID"; "name"; "desc"]%string.

Context {LD : Strtold}.

Definition flt_of (v : excelTableEnt) (name : string) : ldouble := toFlt (tryGetKey v (bytes_of name)).
Arguments flt_of v name%_string.

Record AvatarRow := mkAvatarRow {
  ar_ent : AvatarDataEnt; base_hp : ldouble; base_atk : ldouble; base_def : ldouble; crit_rate : ldouble; crit_res : ldouble; crit_dmg : ldouble;
  element_res : list ldouble; element_bonus : list ldouble; prop_curves : list (Z * Z); ar_em : ldouble; useType : Z; quality : Z;
  charge_efficiency : Z; battle_config_file : list byte; has_range : Z; initial_weapon : Z; weapon_type : Z; stanima_recover_speed : Z;
  candidate_skill_depot_ids : list Z; identity : Z; promote_id : Z; promote_rewards : gmap Z Z; prop_group_id : Z }.

(** A [char*] that is set in one row and used in the next. *)
Inductive pointer := Unset | Null | At (s : list byte).

(** The pointers between rows. *)
Record avatar_pointers := mkPointers { rkey_p : pointer; rval_p : pointer }.

(** The loop over the levels: a reward is the next token of the other list, and 0
    when that was the last one. *)
Fixpoint reward_loop (keys : list (list byte)) (rval_p : pointer) (m : gmap Z Z) : option (gmap Z Z * pointer) :=
  match keys with
  | [] => Some (m, match rval_p with At _ => Unset | q => q end)
  | k :: keys =>
      match rval_p with
      | Unset => None
      | Null => reward_loop keys Null (<[to_uint k := 0]> m)
      | At s =>
          let '(t, r) := strsep [59] s in
          let rval_p := match r with Some s => At s | None => Null end in
          let rval_i := match rval_p with Null => 0 | _ => to_uint t end in
          reward_loop keys rval_p (<[to_uint k := rval_i]> m)
      end
  end.

(** A pointer into a buffer that was freed is not used again. *)
Definition promote_list (ps : avatar_pointers) (rkey rval : list byte) : option (gmap Z Z * pointer) :=
  let set_key := bool_decide (rkey <> []) in
  let k := if set_key then At (c_string rkey) else rkey_p ps in
  let v := if set_key && bool_decide (rval <> []) then At (c_string rval) else rval_p ps in
  match k with
  | Unset => None
  | Null => Some (∅, match v with At _ => Unset | q => q end)
  | At s => reward_loop (tokens [59] s) v ∅
  end.

Definition avatar_row (ps : avatar_pointers) (v : excelTableEnt) : option (AvatarRow * avatar_pointers) :=
  '(rewards, rval) ← promote_list ps (tryGetKey v (bytes_of "avatarPromoteRewardLevelList")) (tryGetKey v (bytes_of "avatarPromoteRewardIdList"));
  let flts := map (flt_of v) in
  Some (mkAvatarRow (mkAvatarDataEnt (int_of v "id") (int_of v "skillDepotId"))
    (flt_of v "hpBase") (flt_of v "attackBase") (flt_of v "defenseBase") (flt_of v "critical") (flt_of v "criticalRes") (flt_of v "criticalHurt")
    (flts ["pyroRes"; "dendroRes"; "hydroRes"; "electroRes"; "anemoRes"; "geoRes"; "cryoRes"; "physicalRes"]%string)
    (flts ["pyroBonus"; "dendroBonus"; "hydroBonus"; "electroBonus"; "anemoBonus"; "geoBonus"; "cryoBonus"; "physicalBonus"]%string)
    [(int_of v "propGrowCurveType1", int_of v "propGrowCurve1"); (int_of v "propGrowCurveType2", int_of v "propGrowCurve2");
     (int_of v "propGrowCurveType3", int_of v "propGrowCurve3")]
    (flt_of v "elementalMastery") (int_of v "useType") (int_of v "qualityType") (ld_uint (flt_of v "chargeEfficiency"))
    (tryGetKey v (bytes_of "combatConfig")) (int_of v "isRangeAttack") (int_of v "initialWeapon") (int_of v "weaponType")
    (int_of v "stanimaRecoverSpeed") (number_list (tryGetKey v (bytes_of "candSkillDepotIds"))) (int_of v "avatarIdentityType") (int_of v "avatarPromoteId") rewards (int_of v "featureTagGroupID"),
    mkPointers Null rval).

(** The loop over the table. *)
Fixpoint table_rows {R S} (row : S -> excelTableEnt -> option (R * S)) (p : S) (t : list excelTableEnt) : option (list R) :=
  match t with
  | [] => Some []
  | v :: t => '(r, p) ← row p v; cons r <$> table_rows row p t
  end.

Definition AvatarData_load (fopen : list byte -> option FILE) (dataPath : list byte) : option (list AvatarRow) :=
  table_rows avatar_row (mkPointers Unset Unset)
    (default [] (first_table fopen avatar_fields (table_paths dataPath "AvatarExcelConfigData" "AvatarData"))).

(** ** [GameData()] *)
Definition GameData_new (fopen : list byte -> option FILE) (dataPath : list byte) : option GameData :=
  avatars ← AvatarData_load fopen dataPath;
  let depots := AvatarSkillDepotData_load fopen dataPath in
  let states := OpenStateData_load fopen dataPath in
  Some (mkGameData (Some (map ar_ent avatars)) (Some (map dr_ent depots)) (Some (map or_ent states))).
End json.

(** * Game data: theorems *)

(** ** Printed tables *)

(** A cell has no separator, newline or NUL. *)
Definition cell_ok (c : list byte) : Prop := Forall (fun b => bz b <> 9 /\ bz b <> 10 /\ bz b <> 13 /\ bz b <> 0) c.

Definition LINE_FEED : list byte := [zb 10].

Fixpoint print_cells (cells : list (list byte)) : list byte :=
  match cells with [] => [] | [c] => c | c :: cells => c ++ [zb 9] ++ print_cells cells end.

Definition print_tsv (head : list byte) (rows : list (list (list byte))) : list byte :=
  head ++ LINE_FEED ++ concat (map (fun r => print_cells r ++ LINE_FEED) rows).

(** The row with these cells. *)
Fixpoint fields_of (names cells : list (list byte)) (ent : excelTableEnt) : excelTableEnt :=
  match names, cells with
  | n :: names, c :: cells => fields_of names cells (<[n := c]> ent)
  | _, _ => ent
  end.

Record rows_ok (names : list (list byte)) (rows : list (list (list byte))) : Prop := {
  ro_lengths : Forall (fun r => length r = length names) rows;
  ro_cells : Forall (Forall cell_ok) rows
}.

Lemma getline_run l rest : Forall (fun b => bz b <> 10) l -> getline (l ++ zb 10 :: rest) = (l ++ LINE_FEED, Some rest).
Proof.
  induction 1 as [|c l Hc _ IH]; [reflexivity|]. cbn [app getline]. rewrite (proj2 (Z.eqb_neq _ _) Hc), IH. reflexivity.
Qed.

Lemma getline_end l : Forall (fun b => bz b <> 10) l -> getline l = (l, None).
Proof. induction 1 as [|c l Hc _ IH]; [reflexivity|]. cbn [getline]. rewrite (proj2 (Z.eqb_neq _ _) Hc), IH. reflexivity. Qed.

Lemma lines_run fuel ls last :
  Forall (Forall (fun b => bz b <> 10)) ls -> Forall (fun b => bz b <> 10) last ->
  (length (concat (map (fun l => l ++ LINE_FEED) ls) ++ last) < fuel)%nat ->
  tsv_lines fuel (concat (map (fun l => l ++ LINE_FEED) ls) ++ last) false = map (fun l => l ++ LINE_FEED) ls ++ [last].
Proof.
  intros Hl Hlast. revert fuel. induction Hl as [|l ls Hl _ IH]; intros [|fuel] Hf; try lia.
  - cbn [map concat app tsv_lines]. rewrite getline_end by exact Hlast. reflexivity.
  - cbn [map concat tsv_lines] in *. rewrite <- !app_assoc in *. change (LINE_FEED ++ ?x) with (zb 10 :: x) in *.
    rewrite getline_run by exact Hl. rewrite IH; [reflexivity|]. rewrite length_app in Hf. cbn [length] in Hf. lia.
Qed.

Lemma strsep_run delim t d rest :
  Forall (fun b => existsb (Z.eqb (bz b)) delim = false) t -> existsb (Z.eqb (bz d)) delim = true ->
  strsep delim (t ++ d :: rest) = (t, Some rest).
Proof.
  intros Ht Hd. induction Ht as [|c t Hc _ IH]; cbn [app strsep]; [rewrite Hd; reflexivity|]. rewrite Hc, IH. reflexivity.
Qed.

Lemma strsep_end delim t : Forall (fun b => existsb (Z.eqb (bz b)) delim = false) t -> strsep delim t = (t, None).
Proof. induction 1 as [|c t Hc _ IH]; [reflexivity|]. cbn [strsep]. rewrite Hc, IH. reflexivity. Qed.

Lemma cell_separators c : cell_ok c -> Forall (fun b => existsb (Z.eqb (bz b)) [9; 13; 10] = false) c.
Proof.
  intros H. eapply Forall_impl; [exact H|]. intros b (H1 & H2 & H3 & _). cbn [existsb].
  rewrite !(proj2 (Z.eqb_neq _ _)) by assumption. reflexivity.
Qed.

(** The fields of a printed row, with its newline or without. *)
Lemma fields_run names cells ent tail :
  length cells = length names -> Forall cell_ok cells -> tail = LINE_FEED \/ tail = [] ->
  tsv_fields names (Some (print_cells cells ++ tail)) ent = fields_of names cells ent.
Proof.
  intros Hl Hc Ht. revert names Hl ent. induction Hc as [|c cells Hc Hcs IH]; intros [|n names] Hl ent; try discriminate Hl; [reflexivity|].
  injection Hl as Hl. cbn [fields_of tsv_fields]. destruct cells as [|c2 cells].
  - cbn [print_cells]. destruct names; [|discriminate Hl]. destruct Ht as [-> | ->].
    + change (c ++ LINE_FEED) with (c ++ zb 10 :: []). rewrite strsep_run by (exact (cell_separators c Hc) || reflexivity). reflexivity.
    + rewrite app_nil_r, strsep_end by exact (cell_separators c Hc). reflexivity.
  - change (print_cells (c :: c2 :: cells)) with (c ++ zb 9 :: print_cells (c2 :: cells)). rewrite <- app_assoc. cbn [app].
    rewrite strsep_run by (exact (cell_separators c Hc) || reflexivity). apply IH, Hl.
Qed.

Lemma fields_other names cells ent k : k ∉ names -> fields_of names cells ent !! k = ent !! k.
Proof.
  revert cells ent. induction names as [|n names IH]; intros [|c cells] ent Hk; try reflexivity. cbn [fields_of].
  apply not_elem_of_cons in Hk as [Hne Hk]. rewrite IH by exact Hk. apply lookup_insert_ne. congruence.
Qed.

Lemma fields_read names cells ent i n c :
  NoDup names -> names !! i = Some n -> cells !! i = Some c -> tryGetKey (fields_of names cells ent) n = c.
Proof.
  intros Hd. revert i cells ent. induction Hd as [|n0 names Hn _ IH]; intros [|i] [|c0 cells] ent En Ec; try discriminate.
  - injection En as ->. injection Ec as ->. unfold tryGetKey. cbn [fields_of]. rewrite fields_other by exact Hn. rewrite lookup_insert_eq. reflexivity.
  - cbn [fields_of]. exact (IH i cells _ En Ec).
Qed.

Lemma cells_line cells : Forall cell_ok cells -> Forall (fun b => bz b <> 10 /\ bz b <> 0) (print_cells cells).
Proof.
  induction 1 as [|c cells Hc Hcs IH]; [constructor|]. assert (Forall (fun b => bz b <> 10 /\ bz b <> 0) c) as H1
    by (eapply Forall_impl; [exact Hc|]; cbn; tauto).
  destruct cells as [|c2 cells]; [exact H1|]. cbn [print_cells]. repeat (apply Forall_app; split); [exact H1| |exact IH].
  repeat constructor; vm_compute; discriminate.
Qed.

Lemma c_string_clean s : Forall (fun b => bz b <> 0) s -> c_string s = s.
Proof.
  induction 1 as [|c s Hc _ IH]; [reflexivity|]. cbn [c_string]. rewrite decide_False; [rewrite IH; reflexivity|].
  intros ->. apply Hc. reflexivity.
Qed.

(** What the text after the last line feed is read as. *)
Definition row_of (names : list (list byte)) (r : list (list byte)) : excelTableEnt := fields_of names r ∅.

Lemma tsv_read names head rows last :
  Forall (fun b => bz b <> 10) head -> rows_ok names rows -> Forall (fun b => bz b <> 10 /\ bz b <> 0) last ->
  loadTsvExcelData names (Some (mkFile (print_tsv head rows ++ last) false)) =
    Some (map (row_of names) rows ++ [tsv_fields names (Some last) ∅]).
Proof.
  intros Hh [Hn Hc] Hlast. unfold loadTsvExcelData. cbn [contents read_error].
  assert (print_tsv head rows = concat (map (fun l => l ++ LINE_FEED) (head :: map print_cells rows))) as E.
  { unfold print_tsv. cbn [map concat]. rewrite <- app_assoc, map_map. reflexivity. }
  rewrite E, lines_run.
  - cbn [map app tl]. rewrite map_app, !map_map. cbn [map]. f_equal. f_equal.
    + clear E. revert Hn. induction Hc as [|r rows Hr _ IH]; intros Hn; [reflexivity|]. apply Forall_cons in Hn as [Hn1 Hn2].
      cbn [map]. rewrite (IH Hn2). f_equal. rewrite c_string_clean.
      * apply fields_run; [exact Hn1|exact Hr|left; reflexivity].
      * apply Forall_app. split; [|repeat constructor; vm_compute; discriminate].
        eapply Forall_impl; [exact (cells_line r Hr)|]. cbn. tauto.
    + rewrite c_string_clean by (eapply Forall_impl; [exact Hlast|]; cbn; tauto). reflexivity.
  - constructor; [exact Hh|]. apply List.Forall_map. eapply Forall_impl; [exact Hc|]. intros r Hr.
    eapply Forall_impl; [exact (cells_line r Hr)|]. cbn. tauto.
  - eapply Forall_impl; [exact Hlast|]. cbn. tauto.
  - lia.
Qed.

(** A row in which every key is empty. *)
Lemma stray_empty names k : tryGetKey (tsv_fields names (Some []) ∅) k = [].
Proof.
  assert (forall l ent, (forall k, tryGetKey ent k = []) -> forall k, tryGetKey (tsv_fields l None ent) k = []) as H
    by (induction l as [|n l IH]; intros ent He; [exact He|cbn [tsv_fields]; apply IH, He]).
  destruct names as [|n names]; [reflexivity|]. cbn [tsv_fields strsep]. apply H. intros k'. unfold tryGetKey.
  destruct (decide (n = k')) as [->|Hne]; [rewrite lookup_insert_eq; reflexivity|].
  rewrite lookup_insert_ne by exact Hne. rewrite lookup_empty. reflexivity.
Qed.

(** C38: A printed table of game data is read back: the header line is skipped and
    each row has its cells under the names of the fields.  But when the file ends
    with a line feed, as text files do, a row without anything follows. *)
Theorem game_table_roundtrip names head rows r :
  NoDup names -> Forall (fun b => bz b <> 10) head -> rows_ok names (rows ++ [r]) ->
  loadTsvExcelData names (Some (mkFile (print_tsv head rows ++ print_cells r) false)) = Some (map (row_of names) (rows ++ [r])) /\
  (exists stray, loadTsvExcelData names (Some (mkFile (print_tsv head (rows ++ [r])) false)) = Some (map (row_of names) (rows ++ [r]) ++ [stray]) /\
    forall k, tryGetKey stray k = []) /\
  Forall (fun cells => forall i n c, names !! i = Some n -> cells !! i = Some c -> tryGetKey (row_of names cells) n = c) (rows ++ [r]).
Proof.
  intros Hd Hh Hok. pose proof Hok as [Hl Hc]. apply Forall_app in Hl as [Hl Hr]. apply Forall_inv in Hr.
  apply Forall_app in Hc as [Hc Hcr]. apply Forall_inv in Hcr. split; [|split].
  - rewrite tsv_read by (assumption || exact (cells_line r Hcr) || (constructor; assumption)). rewrite map_app. do 2 f_equal.
    rewrite <- (app_nil_r (print_cells r)), fields_run by auto. reflexivity.
  - exists (tsv_fields names (Some []) ∅). split; [|apply stray_empty].
    rewrite <- (app_nil_r (print_tsv _ _)), tsv_read by (assumption || constructor). reflexivity.
  - apply List.Forall_forall. intros cells _ i n c. apply fields_read, Hd.
Qed.

(** ** From the file to the open states of a player *)

Lemma last_dot_app a b e : last_dot b = Some e -> last_dot (a ++ b) = Some e.
Proof. intros H. induction a as [|c a IH]; [exact H|]. cbn [app last_dot]. rewrite IH. reflexivity. Qed.

Definition JSON_PATH : list byte := bytes_of "/ExcelBinOutput/OpenStateConfigData.json".

(** The first path at which a table is loaded, and the text of a table there. *)
Lemma table_at `{TK : Tokener} fopen names before p after f :
  Forall (fun q => load_table fopen names q = None) before -> is_json p = false -> fopen p = Some f ->
  first_table fopen names (before ++ p :: after) = loadTsvExcelData names (Some f).
Proof.
  intros Hb Hp Hf. induction Hb as [|q before Hq _ IH]; cbn [app first_table]; [|rewrite Hq; exact IH].
  unfold load_table. rewrite Hf, Hp. reflexivity.
Qed.

(** The text of a file, with the last line feed or without. *)
Definition file_text (newline : bool) (head : list byte) (rows : list (list (list byte))) : list byte :=
  if newline then print_tsv head rows else removelast (print_tsv head rows).

Lemma print_last head rows r : removelast (print_tsv head (rows ++ [r])) = print_tsv head rows ++ print_cells r.
Proof.
  unfold print_tsv. rewrite map_app, concat_app. cbn [map concat]. rewrite app_nil_r, !app_assoc. unfold LINE_FEED. apply removelast_last.
Qed.

Lemma text_read names newline head rows :
  Forall (fun b => bz b <> 10) head -> rows_ok names rows ->
  loadTsvExcelData names (Some (mkFile (file_text newline head rows) false)) =
    Some (map (row_of names) rows ++ (if newline then [tsv_fields names (Some []) ∅] else [])).
Proof.
  intros Hh Hok. unfold file_text. destruct newline.
  - rewrite <- (app_nil_r (print_tsv head rows)), tsv_read by (assumption || constructor). reflexivity.
  - rewrite app_nil_r. destruct rows as [|r rows _] using rev_ind.
    + unfold print_tsv, LINE_FEED. cbn [map concat]. rewrite app_nil_r, removelast_last. unfold loadTsvExcelData. cbn [contents read_error tsv_lines].
      rewrite getline_end by exact Hh. reflexivity.
    + destruct Hok as [Hl Hc]. apply Forall_app in Hl as [Hl Hr]. apply Forall_inv in Hr.
      apply Forall_app in Hc as [Hc Hcr]. apply Forall_inv in Hcr. rewrite print_last.
      rewrite tsv_read by (assumption || exact (cells_line r Hcr) || (constructor; assumption)).
      rewrite <- (app_nil_r (print_cells r)), fields_run, map_app by auto. reflexivity.
Qed.

Section states.
Context {TK : Tokener} {LD : Strtold}.
Variables (fopen : list byte -> option FILE) (dataPath : list byte).

Lemma game_states gd : GameData_new fopen dataPath = Some gd -> openstate_data gd = Some (map or_ent (OpenStateData_load fopen dataPath)).
Proof.
  unfold GameData_new. destruct (AvatarData_load _ _) as [a|]; [|discriminate]. cbn [mbind option_bind].
  intros E. injection E as <-. reflexivity.
Qed.

(** What a row of the file asks for. *)
Definition row_state (cells : list (list byte)) : OpenStateDataEnt := or_ent (openstate_row (row_of openstate_fields cells)).

Lemma stray_state v : (forall k, tryGetKey v k = []) ->
  or_ent (openstate_row v) = mkOpenStateEnt 0 0 [(OPEN_STATE_COND_PLAYER_LEVEL, [0; 0]); (OPEN_STATE_COND_PLAYER_LEVEL, [0; 0])].
Proof. intros H. unfold openstate_row, int_of. rewrite !H. reflexivity. Qed.

(** The states that rows open, and that the row after a last line feed opens. *)
Lemma file_states (newline : bool) rows ar i :
  0 <= ar ->
  (Exists (fun e => os_id e = i /\ opens ar e)
     (map or_ent (map openstate_row (map (row_of openstate_fields) rows ++ (if newline then [tsv_fields openstate_fields (Some []) ∅] else [])))) <->
   newline = true /\ i = 0 \/ Exists (fun cells => os_id (row_state cells) = i /\ opens ar (row_state cells)) rows).
Proof.
  intros Har. assert (opens ar (mkOpenStateEnt 0 0 [(OPEN_STATE_COND_PLAYER_LEVEL, [0; 0]); (OPEN_STATE_COND_PLAYER_LEVEL, [0; 0])])) as Ho.
  { right. unfold level_reached. cbn. apply Exists_cons. left. split; [reflexivity|cbn; lia]. }
  rewrite !map_app, !map_map, Exists_app. rewrite List.Exists_exists, (List.Exists_exists _ rows). setoid_rewrite in_map_iff.
  destruct newline; cbn [map]; [rewrite Exists_cons, (stray_state _ (stray_empty openstate_fields))|]; rewrite Exists_nil; cbn [os_id]; split.
  - intros [(e & (cells & <- & Hin) & H)|[[H _]|H]]; [right; eauto|auto|contradiction].
  - intros [[_ ->]|(cells & Hin & H)]; [right; left; auto|left; exists (row_state cells); eauto].
  - intros [(e & (cells & <- & Hin) & H)|H]; [right; eauto|contradiction].
  - intros [[F _]|(cells & Hin & H)]; [discriminate F|left; exists (row_state cells); eauto].
Qed.

(** The states 47 and 48 ask for the highest level there is. *)
Lemma barrier_opens v ar : os_id (or_ent (openstate_row v)) = 47 \/ os_id (or_ent (openstate_row v)) = 48 ->
  (opens ar (or_ent (openstate_row v)) <-> 2 ^ 32 - 1 <= ar).
Proof.
  change (2 ^ 32 - 1) with 4294967295. assert (u32 (-1) = 4294967295) as Eu by reflexivity. unfold openstate_row.
  set (r := mkOpenStateRow _ _ _). unfold fix_openstate. cbv zeta.
  destruct (Z.eqb_spec (os_id (or_ent r)) 1) as [E|]; [cbn [or_ent os_id]; lia|]. destruct (_ || _) eqn:Eo.
  - intros _. unfold opens, level_reached. cbn [or_ent os_is_default os_openCond take]. rewrite !Exists_cons, Exists_nil. cbn [fst snd nth]. rewrite Eu.
    split; [intros [H|[[_ H]|[[_ H]|[]]]]; [destruct (H eq_refl)|lia..]|]. intros H. right. left. split; [reflexivity|lia].
  - intros H. apply orb_false_iff in Eo as [E1%Z.eqb_neq E2%Z.eqb_neq]. lia.
Qed.

(** C37: From the file to the player.  The table of open states is the first of
    the six paths at which one can be loaded; when that is a file of rows (not
    JSON), read without an error, a player's states after an update are those
    from before, those whose row is open by default or has a level that the player
    has reached, and, when the file ends with a line feed, the state 0, from the
    row that is not in the file.  47 and 48 are opened, whatever their rows say,
    only for a player of the level 2^32 - 1. *)
Theorem open_states_from_file before p after newline head rows gd pl :
  table_paths dataPath "OpenStateConfigData" "OpenStateData" = before ++ p :: after ->
  Forall (fun q => load_table fopen openstate_fields q = None) before -> is_json p = false ->
  fopen p = Some (mkFile (file_text newline head rows) false) ->
  Forall (fun b => bz b <> 10) head -> rows_ok openstate_fields rows -> GameData_new fopen dataPath = Some gd -> in_u 32 (pl_ar pl) ->
  (forall i, (i ∈ pl_openstates (updateOpenstates (Some gd) pl)) <->
     (i ∈ pl_openstates pl) \/ (newline = true /\ i = 0) \/
     Exists (fun cells => os_id (row_state cells) = i /\ opens (pl_ar pl) (row_state cells)) rows) /\
  (forall i, i = 47 \/ i = 48 -> ((i ∈ pl_openstates (updateOpenstates (Some gd) pl)) <->
     (i ∈ pl_openstates pl) \/ (pl_ar pl = 2 ^ 32 - 1 /\ Exists (fun cells => os_id (row_state cells) = i) rows))).
Proof.
  intros Ep Hb Hp Hf Hh Hok Eg [Har0 Har]. pose proof (game_states gd Eg) as Es. unfold OpenStateData_load in Es.
  rewrite Ep, (table_at _ _ _ _ _ _ Hb Hp Hf), text_read in Es by assumption. cbn [default from_option] in Es.
  destruct (updateOpenstates_opened (Some gd) pl) as (l & -> & _ & Hl). cbn [set_openstates pl_openstates].
  unfold open_table in Hl. cbn [mbind option_bind] in Hl. rewrite Es in Hl. cbn [default from_option] in Hl.
  assert (forall i, Exists (fun e => os_id e = i /\ opens (pl_ar pl) e)
      (map or_ent (map openstate_row (map (row_of openstate_fields) rows ++ (if newline then [tsv_fields openstate_fields (Some []) ∅] else [])))) <->
    newline = true /\ i = 0 \/ Exists (fun cells => os_id (row_state cells) = i /\ opens (pl_ar pl) (row_state cells)) rows) as Hx
    by (intros i; apply file_states, Har0).
  assert (forall i, (i ∈ pl_openstates pl ++ l) <-> (i ∈ pl_openstates pl) \/ newline = true /\ i = 0 \/
     Exists (fun cells => os_id (row_state cells) = i /\ opens (pl_ar pl) (row_state cells)) rows) as H
    by (intros i; rewrite elem_of_app, Hl, Hx; destruct (decide (i ∈ pl_openstates pl)); tauto).
  split; [exact H|]. intros i Hi. rewrite H. clear -Hi Har. apply or_iff_compat_l. rewrite !Exists_exists. split.
  - intros [[_ ->]|(r & Hr & E & Ho)]; [lia|]. unfold row_state in *. apply barrier_opens in Ho; [|rewrite E; exact Hi]. split; [lia|eauto].
  - intros (Ea & r & Hr & E). right. exists r. split; [exact Hr|]. split; [exact E|]. unfold row_state in *. apply barrier_opens; [rewrite E; exact Hi|lia].
Qed.

Lemma json_rows_none root items : value_type root = type_array -> json_rows root items = [].
Proof. intros Ht. induction items as [|[d|] items IH]; cbn [json_rows]; [reflexivity|rewrite Ht; exact IH|exact IH]. Qed.

Hypothesis short_path : zlen dataPath < 4000.

Lemma table_path_short p : zlen p < 80 -> ztake 4094 (dataPath ++ p) = dataPath ++ p.
Proof. intros Hp. apply take_ge. rewrite length_app. lia. Qed.

(** A JSON table is never read: whatever values its array has, the table is
    empty; and as it counts as loaded, the other files are not looked at. *)
Theorem json_table_hides_others f t root :
  fopen (dataPath ++ JSON_PATH) = Some f -> json_tokener_new = Some t -> read_root (S (length (contents f))) t (contents f) = Some root ->
  value_type root = type_array -> OpenStateData_load fopen dataPath = [].
Proof.
  intros Hf Ht Hr Hv. unfold OpenStateData_load, table_paths. cbn [map app].
  change (bytes_of "/ExcelBinOutput/" ++ bytes_of "OpenStateConfigData" ++ bytes_of ".json") with JSON_PATH.
  cbn [first_table]. rewrite !table_path_short by (vm_compute; reflexivity).
  assert (load_table fopen openstate_fields (dataPath ++ JSON_PATH) = Some []) as ->; [|reflexivity].
  unfold load_table. rewrite Hf. unfold is_json. rewrite (last_dot_app dataPath JSON_PATH (bytes_of ".json")) by (vm_compute; reflexivity).
  cbn [same_prefix]. unfold loadJsonExcelData. cbn [mbind option_bind]. rewrite Ht. cbn [mbind option_bind]. rewrite Hr. cbn [mbind option_bind].
  rewrite Hv, (json_rows_none root _ Hv). reflexivity.
Qed.
End states.

(** ** The rewards of promotions *)

Fixpoint join (sep : byte) (ts : list (list byte)) : list byte :=
  match ts with [] => [] | [t] => t | t :: ts => t ++ [sep] ++ join sep ts end.

Definition no_sep (t : list byte) : Prop := Forall (fun b => bz b <> 59 /\ bz b <> 0) t.

Lemma semicolons t : no_sep t -> Forall (fun b => existsb (Z.eqb (bz b)) [59] = false) t.
Proof. intros H. eapply Forall_impl; [exact H|]. intros b [H1 _]. cbn [existsb]. rewrite (proj2 (Z.eqb_neq _ _) H1). reflexivity. Qed.

Lemma sep_join fuel t ts :
  Forall no_sep (t :: ts) -> (length (join (zb 59) (t :: ts)) < fuel)%nat -> sep_list fuel [59] (Some (join (zb 59) (t :: ts))) = t :: ts.
Proof.
  revert fuel t. induction ts as [|t2 ts IH]; intros [|fuel] t H Hf; try lia; apply Forall_cons in H as [Ht Hts].
  - cbn [join sep_list]. rewrite strsep_end by exact (semicolons t Ht). destruct fuel; reflexivity.
  - change (join (zb 59) (t :: t2 :: ts)) with (t ++ zb 59 :: join (zb 59) (t2 :: ts)) in *. cbn [sep_list].
    rewrite strsep_run by (exact (semicolons t Ht) || reflexivity). rewrite IH; [reflexivity|exact Hts|].
    rewrite length_app in Hf. cbn [length] in Hf. lia.
Qed.

Lemma tokens_join t ts : Forall no_sep (t :: ts) -> tokens [59] (join (zb 59) (t :: ts)) = t :: ts.
Proof. intros H. apply sep_join; [exact H|lia]. Qed.

(** The last reward is lost. *)
Fixpoint rewards_of (ks vs : list (list byte)) (m : gmap Z Z) : gmap Z Z :=
  match ks, vs with
  | [k], _ => <[to_uint k := 0]> m
  | k :: ks, v :: vs => rewards_of ks vs (<[to_uint k := to_uint v]> m)
  | _, _ => m
  end.

Lemma reward_run ks v vs m :
  length ks = S (length vs) -> Forall no_sep (v :: vs) ->
  reward_loop ks (At (join (zb 59) (v :: vs))) m = Some (rewards_of ks (v :: vs) m, Null).
Proof.
  revert v vs m. induction ks as [|k ks IH]; intros v vs m Hl H; [discriminate|]. injection Hl as Hl. apply Forall_cons in H as [Hv Hvs].
  destruct vs as [|v2 vs].
  - destruct ks; [|discriminate Hl]. cbn [reward_loop join]. rewrite strsep_end by exact (semicolons v Hv). reflexivity.
  - change (join (zb 59) (v :: v2 :: vs)) with (v ++ zb 59 :: join (zb 59) (v2 :: vs)). cbn [reward_loop].
    rewrite strsep_run by (exact (semicolons v Hv) || reflexivity). cbv zeta. destruct ks as [|k2 ks]; [discriminate Hl|].
    rewrite IH by assumption. reflexivity.
Qed.

Lemma join_clean ts : Forall no_sep ts -> c_string (join (zb 59) ts) = join (zb 59) ts.
Proof.
  intros H. apply c_string_clean. induction H as [|t ts Ht Hts IH]; [constructor|].
  assert (Forall (fun b => bz b <> 0) t) as H1 by (eapply Forall_impl; [exact Ht|]; cbn; tauto).
  destruct ts as [|t2 ts]; [exact H1|]. cbn [join]. repeat (apply Forall_app; split); [exact H1| |exact IH].
  repeat constructor; vm_compute; discriminate.
Qed.

(** Of a list of levels and one of as many rewards, each separated by
    semicolons, an avatar gets each reward for its level, except for the last
    one, which is 0. *)
Theorem last_reward_lost ps k ks v vs :
  Forall no_sep (k :: ks) -> Forall no_sep (v :: vs) -> length ks = length vs ->
  join (zb 59) (k :: ks) <> [] -> join (zb 59) (v :: vs) <> [] ->
  promote_list ps (join (zb 59) (k :: ks)) (join (zb 59) (v :: vs)) = Some (rewards_of (k :: ks) (v :: vs) ∅, Null).
Proof.
  intros Hk Hv Hl Nk Nv. unfold promote_list. rewrite !bool_decide_true by assumption. cbn [andb]. cbv zeta.
  rewrite !join_clean, tokens_join by assumption. apply reward_run; [cbn; lia|exact Hv].
Qed.

(** ** Avatar tables that can be read *)

Lemma reward_total ks q m : q <> Unset -> exists r, reward_loop ks q m = Some r.
Proof.
  revert q m. induction ks as [|k ks IH]; intros q m Hq; [eexists; reflexivity|]. destruct q as [| |s]; [contradiction| |]; cbn [reward_loop].
  - apply IH. discriminate.
  - destruct (strsep [59] s) as [t [r|]]; cbv zeta; apply IH; discriminate.
Qed.

Section avatars.
Context {TK : Tokener} {LD : Strtold}.

Definition levels (v : excelTableEnt) : list byte := tryGetKey v (bytes_of "avatarPromoteRewardLevelList").
Definition rewards (v : excelTableEnt) : list byte := tryGetKey v (bytes_of "avatarPromoteRewardIdList").

(** A row whose levels, when it has any, have rewards. *)
Definition paired (v : excelTableEnt) : Prop := levels v <> [] -> rewards v <> [].

Lemma avatar_row_total ps v : paired v -> levels v <> [] \/ rkey_p ps = Null ->
  exists r q, avatar_row ps v = Some (r, mkPointers Null q) /\ ad_id (ar_ent r) = int_of v "id".
Proof.
  intros Hp Hk. unfold avatar_row, promote_list. fold (levels v) (rewards v). cbv zeta.
  destruct (decide (levels v <> [])) as [Hl|Hl].
  - rewrite !bool_decide_true by auto. cbn [andb].
    destruct (reward_total (tokens [59] (c_string (levels v))) (At (c_string (rewards v))) ∅) as [[m q] ->]; [discriminate|].
    eexists _, _. split; reflexivity.
  - rewrite bool_decide_false by exact Hl. destruct Hk as [Hk|Hk]; [contradiction|]. rewrite Hk. eexists _, _. split; reflexivity.
Qed.

Lemma avatar_rows_total ps t : Forall paired t -> rkey_p ps = Null \/ Forall (fun v => levels v <> []) (take 1 t) ->
  exists l, table_rows avatar_row ps t = Some l /\ map (fun r => ad_id (ar_ent r)) l = map (fun v => int_of v "id") t.
Proof.
  intros Hp. revert ps. induction Hp as [|v t Hv _ IH]; intros ps Hk; [exists []; auto|].
  destruct (avatar_row_total ps v Hv) as (r & q & E & Ei). { destruct Hk as [Hk|Hk]; [auto|left; exact (Forall_inv Hk)]. }
  destruct (IH (mkPointers Null q) (or_introl eq_refl)) as (l & El & Hl).
  exists (r :: l). cbn [table_rows]. rewrite E. cbn [mbind option_bind]. rewrite El. cbn [map]. rewrite Ei, Hl. auto.
Qed.

(** C39: A table of avatars is read row by row, whatever is in it, when its first
    row has levels with rewards and each later row that has levels has rewards.
    When the first row has no levels, a pointer that was never set is read. *)
Theorem avatar_table_defined fopen dataPath t :
  first_table fopen avatar_fields (table_paths dataPath "AvatarExcelConfigData" "AvatarData") = Some t ->
  (Forall paired t -> Forall (fun v => levels v <> []) (take 1 t) ->
    exists l, AvatarData_load fopen dataPath = Some l /\ map (fun r => ad_id (ar_ent r)) l = map (fun v => int_of v "id") t) /\
  (Exists (fun v => levels v = []) (take 1 t) -> AvatarData_load fopen dataPath = None).
Proof.
  intros E. unfold AvatarData_load. rewrite E. change (default [] (Some t)) with t. split.
  - intros Hp Hk. apply avatar_rows_total; auto.
  - destruct t as [|v t]; intros H; [inversion H|]. apply Exists_cons in H as [H|H]; [|inversion H].
    cbn [table_rows]. unfold avatar_row, promote_list. unfold levels in H. rewrite H. reflexivity.
Qed.
End avatars.

(** ** Examples *)

Section examples.

Definition cells (l : list string) : list (list byte) := map bytes_of l.

Definition ex_names : list (list byte) := cells ["id"; "name"]%string.
Definition ex_head : list byte := bytes_of "ID of the thing	and its name".
Definition ex_rows : list (list (list byte)) := [cells ["7"; "seven"]%string].

Ltac cell_by_cell := repeat constructor; vm_compute; (lia || discriminate).

Lemma game_table_roundtrip_witness :
  loadTsvExcelData ex_names (Some (mkFile (print_tsv ex_head ex_rows ++ print_cells (cells ["12"; ""]%string)) false)) =
    Some (map (row_of ex_names) (ex_rows ++ [cells ["12"; ""]%string])) /\
  exists stray, loadTsvExcelData ex_names (Some (mkFile (print_tsv ex_head (ex_rows ++ [cells ["12"; ""]%string])) false)) =
    Some (map (row_of ex_names) (ex_rows ++ [cells ["12"; ""]%string]) ++ [stray]) /\ tryGetKey stray (bytes_of "id") = [].
Proof.
  destruct (game_table_roundtrip ex_names ex_head ex_rows (cells ["12"; ""]%string)) as (H1 & (stray & H2 & H3) & _).
  - apply (bool_decide_unpack (NoDup ex_names)). vm_compute. exact I.
  - cell_by_cell.
  - constructor; cell_by_cell.
  - split; [exact H1|]. exists stray. split; [exact H2|apply H3].
Defined.

Lemma last_reward_lost_witness :
  promote_list (mkPointers Unset Unset) (bytes_of "1;3") (bytes_of "900001;900002") =
    Some (<[3 := 0]> (<[1 := 900001]> ∅), Null).
Proof.
  etransitivity; [apply (last_reward_lost (mkPointers Unset Unset) (bytes_of "1") [bytes_of "3"] (bytes_of "900001") [bytes_of "900002"])|reflexivity];
    (cell_by_cell || reflexivity).
Defined.

(** A tokener that takes a text that begins with a bracket for an array of
    one object, and everything else for an error. *)
#[local] Instance array_tokener : Tokener := {|
  tokener := unit; value := bool; json_tokener_new := Some tt;
  json_tokener_parse_ex _ s := (tt, match s with c :: _ => if bz c =? 91 then inl true else inr false | [] => inr true end);
  value_type b := if b then type_array else type_object;
  array_items b := if b then [Some false] else [];
  object_members b := if b then [] else [(bytes_of "id", bytes_of "7")] |}.

#[local] Instance no_floats : Strtold := {| ldouble := unit; strtold _ := tt; ld_uint _ := 0 |}.

Definition one_file (path s : list byte) (p : list byte) : option FILE := if decide (p = path) then Some (mkFile s false) else None.

Lemma json_table_hides_others_witness :
  OpenStateData_load (one_file (bytes_of "data" ++ JSON_PATH) (bytes_of "[{}]")) (bytes_of "data") = [].
Proof.
  apply (json_table_hides_others (one_file (bytes_of "data" ++ JSON_PATH) (bytes_of "[{}]")) (bytes_of "data") ltac:(reflexivity)
    (mkFile (bytes_of "[{}]") false) tt true); vm_compute; reflexivity.
Defined.

(** State 8 opens at level 10, and nothing opens 47. *)
Definition state_rows : list (list (list byte)) :=
  [cells ["8"; "0"; "0"; "0"; "10"; "0"; "3"; "0"; "0"; "0"]%string; cells ["47"; "1"; "1"; "0"; "0"; "0"; "0"; "0"; "0"; "0"]%string].

(** At the last of the paths, after a JSON file that is broken. *)
Definition state_files (newline : bool) (p : list byte) : option FILE :=
  if decide (p = bytes_of "data" ++ JSON_PATH) then Some (mkFile (bytes_of "broken") false)
  else one_file (bytes_of "data/txt/OpenStateData.txt") (file_text newline ex_head state_rows) p.

Lemma open_states_from_file_witness :
  exists gd, GameData_new (state_files false) (bytes_of "data") = Some gd /\
    (8 ∈ pl_openstates (updateOpenstates (Some gd) ex_player)) /\ ~ (47 ∈ pl_openstates (updateOpenstates (Some gd) ex_player)).
Proof.
  destruct (GameData_new (state_files false) (bytes_of "data")) as [gd|] eqn:E; [|vm_compute in E; discriminate E].
  exists gd. split; [reflexivity|].
  destruct (open_states_from_file (state_files false) (bytes_of "data")
    (take 5 (table_paths (bytes_of "data") "OpenStateConfigData" "OpenStateData")) (bytes_of "data/txt/OpenStateData.txt") []
    false ex_head state_rows gd ex_player) as [H1 H2].
  - vm_compute. reflexivity.
  - unfold table_paths. cbn [map app take]. repeat (apply Forall_cons_2; [vm_compute; reflexivity|]). constructor.
  - vm_compute. reflexivity.
  - vm_compute. reflexivity.
  - cell_by_cell.
  - constructor; cell_by_cell.
  - exact E.
  - vm_compute. split; [discriminate|reflexivity].
  - split.
    + apply H1. right. right. apply Exists_cons_hd. split; [vm_compute; reflexivity|]. right. vm_compute.
      apply Exists_cons_hd. split; [reflexivity|discriminate].
    + intros H. apply H2 in H; [|auto]. destruct H as [H|[H _]]; [|vm_compute in H; discriminate H].
      vm_compute in H. apply list_elem_of_singleton in H. discriminate H.
Defined.

(** An avatar with a reward. *)
Definition avatar_cells : list (list byte) :=
  bytes_of "10000007" :: replicate 44 [] ++ cells ["1"; "900001"]%string ++ replicate 3 [].

Definition avatar_files : list byte -> option FILE :=
  one_file (bytes_of "data/txt/AvatarData.txt") (print_tsv ex_head [avatar_cells]).

Lemma avatar_table_defined_witness :
  exists l, AvatarData_load avatar_files (bytes_of "data") = Some l /\ map (fun r => ad_id (ar_ent r)) l = [10000007; 0].
Proof.
  set (t := default [] (first_table avatar_files avatar_fields (table_paths (bytes_of "data") "AvatarExcelConfigData" "AvatarData"))).
  assert (match t with [v; w] => (levels v, rewards v, levels w, int_of v "id", int_of w "id") | _ => ([], [], [], 0, 0) end =
    (bytes_of "1", bytes_of "900001", [], 10000007, 0)) as Ht by (vm_compute; reflexivity).
  destruct (avatar_table_defined avatar_files (bytes_of "data") t) as [H _].
  { subst t. destruct (first_table _ _ _); [reflexivity|discriminate Ht]. }
  destruct t as [|v [|w [|]]]; try discriminate Ht. injection Ht as Hl Hr Hw Hi Hj. destruct H as (l & El & Hx).
  - repeat apply Forall_cons_2; [intros _; rewrite Hr; discriminate|intros H; contradiction|apply Forall_nil_2].
  - apply Forall_cons_2; [rewrite Hl; discriminate|apply Forall_nil_2].
  - exists l. split; [exact El|]. rewrite Hx. cbn [map]. congruence.
Defined.
End examples.
